(* ===== verification/_CoqProject ===== *)
-Q . S2P
Prelude.v
UserMem.v
Task.v
Syscalls.v
SyscallProtos.v
MemLimit.v
MemLimitConc.v
Track.v
TrackConc.v
MemStats.v
Cred.v
Rlimit.v
CString.v
Uts.v
Jobs.v
Prio.v
Usage.v
WalkTree.v
PrctlMm.v
Prctl.v
Unshare.v
Clone.v
ForkCopy.v
Vfork.v
MmLife.v
TaskLife.v
MmCopy.v
VmArea.v
LazyTlb.v
StackCache.v
PlainStack.v
ThreadLimits.v
Inherit.v
PidFd.v
Seek.v
ReadWrite.v
Open.v
DentryOpen.v
HugeCache.v
PathOps.v
Access.v
Vectored.v
CopyRange.v
BootArgs.v
BootInit.v
BootConfig.v
Initcalls.v
BootSeq.v
