(* ===== verification/Prelude.v ===== *)
(** * Verification of the usac-linux kernel additions

    The repository is a fork of Linux 6.8 by a course project: new system calls
    under kernel/usac/ (numbers 551 to 559), the instrumentation of four existing
    entry points with a call counter, a new system name, and the upstream files
    those changes live in (kernel/sys.c, kernel/fork.c, fs/read_write.c, fs/open.c,
    init/main.c) as whole files.  All paths below are relative to
    src/practica1/usac-linux/.

    ** Parts of the program and the files that model them

    - [Prelude] (this file): machine integers and their wrap-around, flag words,
      error numbers, object representation in bytes, automation, shared lemmas.
    - [UserMem]: the interface [UserAccess] to user memory (copy_to_user and
      friends with their documented contract), against which every syscall is
      proved, and two instances that discharge it.
    - [Task]: what the new syscalls see of a process.
    - [Syscalls], [SyscallProtos]: include/linux/syscalls.h, the macros that make a
      system call function, and the prototypes beside the definitions of the repository.
    - [MemLimit], [MemLimitConc]: kernel/usac/project3/syscall7.c, the list of
      per-process memory limits with its mutex: the three syscalls as functions on
      the list, heap and user buffer; and as a small-step interleaving of any number
      of callers.
    - [Track], [TrackConc]: kernel/usac/syscall2.c, the usage counters, with their call
      sites in read, write, openat and clone: one call at a time, and the loads and stores
      of calls and queries on any number of processors.
    - [MemStats]: kernel/usac/syscall1.c, 3, 4, 5 and 6, the statistics syscalls.
    - [Cred]: kernel/sys.c, the set*id and get*id calls.
    - [Rlimit]: kernel/sys.c, do_prlimit and the rlimit calls, native and compat.
    - [Uts]: kernel/sys.c, uname, sethostname, gethostname, setdomainname, and the
      system name of include/linux/uts.h.
    - [Jobs]: kernel/sys.c, process groups and sessions.
    - [Prio]: kernel/sys.c, setpriority and getpriority.
    - [Usage]: kernel/sys.c, times, getrusage, umask, getcpu, sysinfo, down to the bytes
      of the 32-bit report.
    - [WalkTree]: kernel/fork.c, walk_process_tree, and the visitor of sys.c.
    - [PrctlMm], [Prctl]: kernel/sys.c, prctl and its PR_SET_MM requests.
    - [Unshare]: kernel/fork.c, unshare and its helpers.
    - [Clone]: kernel/fork.c, clone, clone3, fork, vfork, kernel threads and
      kernel_clone.
    - [Seek]: fs/read_write.c, the llseek methods, lseek and llseek.
    - [ReadWrite]: fs/read_write.c, read, write, pread64, pwrite64 and the in-kernel
      readers and writers.
    - [Open]: fs/open.c, the flags of open, the open calls over the descriptor table,
      close.
    - [DentryOpen], [HugeCache]: fs/open.c, do_dentry_open and its callers, stream_open;
      and how an open for writing drops huge pages while others make them.
    - [PathOps], [Access]: fs/open.c, truncate, fallocate, chdir, chroot, chmod, chown
      and their kin over paths, mounts and locks; faccessat and its borrowed
      credentials.
    - [Vectored], [CopyRange]: fs/read_write.c, readv, writev and their variants;
      sendfile and copy_file_range.
    - [ForkCopy]: kernel/fork.c, copy_process with every step and the ladder of its
      error labels, fork_idle, create_io_thread.
    - [Vfork]: kernel/fork.c, how a child hands the address space back to its parent.
    - [MmLife], [MmCopy], [VmArea], [LazyTlb]: kernel/fork.c, the life of an mm_struct
      with its executable, the copy of its mappings, the memory of a mapping with its
      lock, and the processors that still use a dead address space.
    - [TaskLife]: kernel/fork.c, the life of tasks, signal structures and handler
      tables, from a fork that fails or succeeds to the last reference.
    - [StackCache], [PlainStack]: kernel/fork.c, kernel stacks with their cache, and the
      stacks of configurations without it.
    - [ThreadLimits]: kernel/fork.c, how many threads there may be and are.
    - [Inherit]: kernel/fork.c, what a child takes over at the end of the fork: seccomp
      filters, the OOM score, the pids.
    - [PidFd]: kernel/fork.c, file descriptors of processes.
    - [CString]: the C strings of [Uts] and of the boot code.
    - [BootArgs], [BootInit], [BootConfig]: init/main.c, boot parameters and what they
      become for init, the parser's callbacks, the boot configuration and the command
      lines.
    - [Initcalls], [BootSeq]: init/main.c, the initcalls and their levels, and
      start_kernel to the first program as two interleaved threads.

    Components interact the way the code does: [Clone], [ReadWrite] and [Open] call
    [Track.track_syscall], [ReadWrite] works on the file of [Seek], and [Prctl] calls
    [PrctlMm.prctl_set_mm] and [WalkTree.walk_process_tree]; [Rlimit] and [Prio]
    read the credentials of [Cred]; [ForkCopy] is the part of copy_process that [Clone]
    leaves open and [MmCopy] the part of dup_mmap that [MmLife] leaves open; [TaskLife]
    drops address spaces through [MmLife.mmdrop_async], [ThreadLimits] starts from
    [Clone.set_max_threads], and the histories of [TaskLife], [VmArea], [LazyTlb],
    [PlainStack], [Inherit] and [HugeCache] count with the sums over maps of this file;
    [SyscallProtos] expands definitions with [Syscalls.MAP];
    [BootInit] delivers what [BootArgs] collected and [BootConfig] feeds its parser;
    [Vectored] and [CopyRange] check their ranges with [ReadWrite.rw_verify_area].

    ** Conventions

    A C integer is a Z kept in range by the writes that store it ([u64], [i32], ...
    are the wrap-arounds); a flag test [flags & M] is [has flags M]; pointers into
    user space are addresses.  A syscall is a function from its arguments and the
    state to its result and the new state; early returns are branches in source
    order.  State other threads may change under the code is explicit: the
    interleavings of [MemLimitConc], [TrackConc], [Vfork], [LazyTlb], [Inherit], [ThreadLimits],
    [HugeCache] (with store buffers) and [BootSeq], the histories of [MmLife],
    [TaskLife], [VmArea] and [StackCache], the race of first queries in [Track], the two passes of
    getrusage in [Usage]; elsewhere the code holds the lock that makes it atomic.
    Kernel services outside the repository (allocators, capability and security
    hooks, process lookup, id maps, clocks, file tables) are the members of one type
    class per component; laws, where the code relies on any, are fields of the class,
    and each class has a concrete instance in its file on which the witnesses run.

    ** What the theorems show

    - Memory limits: in every reachable state one entry per process, sound entries, a
      free lock, no leaked allocation; the writers refine a finite map, with the cases in
      which the manual and the tests expect something else (negative limits and pids); the
      reader delivers the list, newest first, in 32-byte elements and never overruns its
      block; under any interleaving mutual exclusion, linearizability with the answers each
      caller really returns in an order that respects real time, and termination.  Also
      proved: stale heap bytes reach user space in every entry.
    - Counters: of calls that do not overlap the query reports the history; of calls on
      several processors a counter has at least those nobody overlapped and at most all,
      and overlapping ones do get lost; which indices are in bounds; what the unprotected
      initialisation loses.
    - Statistics: what each report contains, its rounding and overflow behaviour, and
      the task reference one of the calls leaks.
    - Identity: no unprivileged sequence of calls leaves the pool of ids a process
      started with, a full drop by setuid is undone only with CAP_SETUID, every call commits or restores, round
      trip of setresuid and getresuid.
    - Limits: ordered limits and balanced references under any sequence by any
      processes, hard limits only fall without privilege, round trips across word
      sizes, the exact effect of prlimit64.
    - Names: round trip of the host name, and no uname variant writes outside its
      structure.
    - Jobs: the session/group invariant over all histories, the contract of setsid.
    - Priorities, reports: contracts of setpriority and getpriority, exactness of
      sysinfo in both word sizes, as a 32-bit program reads it from its memory.
    - System call entry: the body of a system call gets exactly the values that were
      passed, whatever else is in the registers, and a definition expands exactly when its
      argument types can be passed; in every configuration which prototypes and definitions
      differ.
    - prctl: address-space bookkeeping stays consistent, hardening modes are
      permanent, errors change nothing with one exception; the tree walk equals a
      recursive traversal and flags exactly the reachable descendants.
    - Process creation: clone3 lets through only well-formed requests, the order of
      effects of kernel_clone, and the reference accounting of unshare on all paths,
      with the one path that leaks; copy_process answers its first refusal with
      everything given back exactly once, and otherwise holds exactly what the new task
      is entitled to.
    - Tasks: over every history of forks, failures, exits, reaping, OOM kills and borrowed
      references, tasks, signal structures and handler tables exist exactly while they are
      counted, with nothing left once nobody holds anything, and nothing freed is used; a
      failed fork leaves nothing behind and a successful one makes the kind of task its
      flags say; no thread, old or being made, runs without the filters installed for all
      threads, and no_new_privs goes with those of installers that had it; processes that share
      memory share their OOM score, children of vfork apart; the count of threads passes the limit by less than the
      number of concurrent callers; pidfds hold one pid each and print what is promised.
    - Address spaces: over every history of making, copying, borrowing and giving up,
      nothing freed is touched, nothing is left behind and no running program can be
      written; the copy of the mappings is exact and, when it fails, marked so that
      exactly what was taken can be given back; the completion of a vfork is never
      touched after its frame is gone, and the parent can always return; every kernel
      stack is in exactly one place, charged until its task exits and handed on clean;
      a mapping, its lock and its name outlive their readers; no processor keeps a dead address space.
    - Files: seeking is exact over the integers; no sequence of reads and writes hands
      a method a bad range, with signed or unsigned offsets; the instrumented calls answer like the plain ones;
      open hands consistent flags to the lookup, neither descriptors nor names nor
      access rights leak on any path, and close undoes open; the operations on paths
      release every path, mount, name, lock and credential and hand down only valid
      requests; faccessat equals its specification; vectored calls invoke the methods
      on the segments in order, each where the one before left the position, and answer
      and store what these made of it; copies never overlap within a file; a file open for
      writing has no huge pages in the page cache, whatever the order of the stores.
    - Boot: for every command line no array bound of the code is passed, init gets the
      arguments and environment the parameters say, the boot configuration and the
      command lines come out as written, initcalls run in the order of their levels,
      under every interleaving kthreadd and init meet in the right order, and the
      boot always finishes, with the first program that starts or the panic for it.

    ** Bounds and fuel

    Recursion is structural nearly everywhere.  [Usage.count_bits] has fuel 32 for a
    32-bit unit and [Usage.grow_unit] 12 for units below a page, which the theorems
    use up exactly; [WalkTree.walk_process_tree] takes fuel and is proved to return
    for every amount from the size of the tree on; [Uts.utoa] prints at most ten
    digits, enough for 32 bits; the retry loops of [PathOps] and [Access] have fuel 2,
    one retry, as LOOKUP_REVAL can be set only once; [Vectored] loops once per
    segment; the blacklist loop of [Initcalls] has one round per character; the search
    for the bootconfig magic of [BootConfig] four, the unaligned positions;
    [Vfork.moves_return] needs 13 steps; [LazyTlb] proves a bound on the interrupts that
    are left; the histories of the other components are inductive relations of any length.

    ** Not modelled

    The page tables and the maple tree below dup_mmap; the registration of slab caches
    and the initialisers of single members in fork.c (proc_caches_init, rcu_copy_process
    and the like), whose effect is in code outside the repository; the tracing and timing
    output of init/main.c; the prototypes of kernel-internal functions in
    include/linux/syscalls.h and the syscall table, which only declare; the commented-out
    syscalls 8 to 10 of kernel/usac/project3; the user programs and procfs modules under
    test/, whose expectations are compared with the code in the manifest's findings.
    Memory ordering weaker than interleaving is modelled only in [HugeCache]. *)
From Stdlib Require Export ZArith Lia.
From stdpp Require Export base list gmap option numbers.
Export list_basics.list list_relations.list list_monad.list list_misc.list.

Open Scope Z_scope.

Declare Scope kernel_scope.
Delimit Scope kernel_scope with kern.

(** ** Machine integers *)

(** Unsigned wrap-around at width [w]: what an assignment to an unsigned C
    object of [w] bits stores. *)
Definition wrapU (w x : Z) : Z := x mod 2 ^ w.

(** Two's complement wrap-around at width [w]: what a conversion to a signed C
    object of [w] bits yields (the kernel is built with -fno-strict-overflow, so
    signed arithmetic wraps as well). *)
Definition wrapS (w x : Z) : Z :=
  let y := x mod 2 ^ w in if y <? 2 ^ (w - 1) then y else y - 2 ^ w.

Abbreviation u64 := (wrapU 64).
Abbreviation u32 := (wrapU 32).
Abbreviation u16 := (wrapU 16).
Abbreviation i64 := (wrapS 64).
Abbreviation i32 := (wrapS 32).

Definition is_u (w x : Z) : Prop := 0 <= x < 2 ^ w.
Definition is_s (w x : Z) : Prop := - 2 ^ (w - 1) <= x < 2 ^ (w - 1).

(** A C condition tests a word against zero. *)
Definition c_true (x : Z) : bool := negb (x =? 0).

(** [flags & mask], as a condition. *)
Definition has (flags mask : Z) : bool := c_true (Z.land flags mask).

(** [~mask] on an unsigned word of [w] bits, and [flags & ~mask]. *)
Definition c_not (w mask : Z) : Z := Z.lxor mask (Z.ones w).
Definition clear (flags mask : Z) : Z := Z.ldiff flags mask.

(** ** Error numbers (asm-generic/errno-base.h, errno.h, linux/errno.h) *)

Definition EPERM := 1.
Definition ENOENT := 2.
Definition ESRCH := 3.
Definition EINTR := 4.
Definition ENXIO := 6.
Definition EBADF := 9.
Definition EAGAIN := 11.
Definition ENOMEM := 12.
Definition EACCES := 13.
Definition EFAULT := 14.
Definition EEXIST := 17.
Definition EXDEV := 18.
Definition ENODEV := 19.
Definition ENOTDIR := 20.
Definition EISDIR := 21.
Definition EINVAL := 22.
Definition ETXTBSY := 26.
Definition EFBIG := 27.
Definition ESPIPE := 29.
Definition EROFS := 30.
Definition ENOSYS := 38.
Definition EOVERFLOW := 75.
Definition EOPNOTSUPP := 95.
Definition ESTALE := 116.
Definition ERESTARTSYS := 512.
Definition ERESTARTNOINTR := 513.
Definition ERESTARTNOHAND := 514.
Definition ERESTART_RESTARTBLOCK := 516.
Definition EIOCBQUEUED := 529.

Definition MAX_ERRNO := 4095.

(** linux/err.h: a pointer-sized word in the last page stands for an error. *)
Definition IS_ERR (p : Z) : bool := 2 ^ 64 - MAX_ERRNO <=? p.
Definition PTR_ERR (p : Z) : Z := i64 p.
Definition ERR_PTR (e : Z) : Z := u64 e.

(** ** Page geometry of the target (x86-64) *)

Definition PAGE_SHIFT := 12.
Definition PAGE_SIZE := 4096.

(** ** Little-endian object representation *)

Fixpoint le_bytes (n : nat) (v : Z) : list Z :=
  match n with
  | O => []
  | S n' => v mod 256 :: le_bytes n' (v / 256)
  end.

Fixpoint le_val (bs : list Z) : Z :=
  match bs with
  | [] => 0
  | b :: bs' => b + 256 * le_val bs'
  end.

(** A structure of [unsigned long] members. *)
Fixpoint words_bytes (ws : list Z) : list Z :=
  match ws with
  | [] => []
  | w :: ws' => le_bytes 8 w ++ words_bytes ws'
  end.

Fixpoint decode_words (n : nat) (bs : list Z) : list Z :=
  match n with
  | O => []
  | S n' => le_val (take 8 bs) :: decode_words n' (drop 8 bs)
  end.

(** The bytes of an object at offset [off], [n] of them. *)
Definition slice {A} (off n : nat) (l : list A) : list A := take n (drop off l).

(** ** Automation *)

(** Linear arithmetic with division and remainder by constants. *)
Ltac zlia := Z.to_euclidean_division_equations; lia.

(** Split the first boolean test of the goal, or of a hypothesis, keeping the
    equation, which [lia] reads. *)
Ltac case_if :=
  match goal with
  | |- context [if ?b then _ else _] => let E := fresh "Hif" in destruct b eqn:E
  end.

Ltac case_if_in H :=
  match type of H with
  | context [if ?b then _ else _] => let E := fresh "Hif" in destruct b eqn:E
  end.

(** Turn boolean equations of the context into propositions. *)
Ltac bool_hyps :=
  repeat match goal with
  | H : _ && _ = true |- _ => apply andb_true_iff in H as [? ?]
  | H : _ && _ = false |- _ => apply andb_false_iff in H
  | H : _ || _ = true |- _ => apply orb_true_iff in H
  | H : _ || _ = false |- _ => apply orb_false_iff in H as [? ?]
  | H : negb _ = true |- _ => apply negb_true_iff in H
  | H : negb _ = false |- _ => apply negb_false_iff in H
  | H : (_ =? _) = true |- _ => apply Z.eqb_eq in H
  | H : (_ =? _) = false |- _ => apply Z.eqb_neq in H
  end.

(** Take a pair equation apart. *)
Ltac inv_pair :=
  repeat match goal with
  | H : (_, _) = (_, _) |- _ => injection H as ?; subst
  end.

(** Closed equations by evaluation, without reading the value back. *)
Ltac vm_eq := match goal with |- @eq ?A ?x ?y => vm_cast_no_check (@eq_refl A y) end.

Create HintDb kern discriminated.

(** ** Generic lemmas *)

Section wrap.
Context (w : Z) (Hw : 0 < w).

Lemma wrapU_range x : is_u w (wrapU w x).
Proof. unfold is_u, wrapU. apply Z.mod_pos_bound. lia. Qed.

Lemma wrapU_id x : is_u w x -> wrapU w x = x.
Proof. unfold is_u, wrapU. intros. by apply Z.mod_small. Qed.

Lemma wrapU_idemp x : wrapU w (wrapU w x) = wrapU w x.
Proof. apply wrapU_id, wrapU_range. Qed.

Lemma pow2_half : 2 ^ w = 2 * 2 ^ (w - 1).
Proof. rewrite <- Z.pow_succ_r by lia. f_equal. lia. Qed.

Lemma wrapS_range x : is_s w (wrapS w x).
Proof.
  unfold is_s, wrapS. pose proof pow2_half.
  pose proof (Z.mod_pos_bound x (2 ^ w)). cbv zeta. case_if; lia.
Qed.

Lemma wrapS_id x : is_s w x -> wrapS w x = x.
Proof.
  unfold is_s, wrapS. intros Hx. cbv zeta. pose proof pow2_half.
  destruct (Z_lt_le_dec x 0).
  - assert (x mod 2 ^ w = x + 2 ^ w) as ->.
    { symmetry. apply Z.mod_unique with (-1); lia. }
    case_if; lia.
  - rewrite Z.mod_small by lia. case_if; lia.
Qed.

Lemma wrapU_wrapS x : is_s w x -> wrapS w (wrapU w x) = x.
Proof.
  intros Hx. rewrite <- (wrapS_id x) at 2 by done.
  unfold wrapS, wrapU. cbv zeta. by rewrite Z.mod_mod by lia.
Qed.

End wrap.

Lemma wrapU_add w a b : wrapU w (wrapU w a + b) = wrapU w (a + b).
Proof. unfold wrapU. apply Zplus_mod_idemp_l. Qed.

Lemma u64_bounds x : 0 <= u64 x < 18446744073709551616.
Proof. exact (wrapU_range 64 ltac:(lia) x). Qed.

Lemma c_true_false x : c_true x = false <-> x = 0.
Proof. unfold c_true. rewrite negb_false_iff. apply Z.eqb_eq. Qed.

Lemma c_true_true x : c_true x = true <-> x <> 0.
Proof. unfold c_true. rewrite negb_true_iff. apply Z.eqb_neq. Qed.

(** Two 32-bit halves side by side. *)
Lemma lor_halves x lo : 0 <= lo < 2 ^ 32 -> Z.lor (x * 2 ^ 32) lo = x * 2 ^ 32 + lo.
Proof.
  intros Hl. symmetry. apply Z.add_nocarry_lor. apply Z.bits_inj'. intros n Hn.
  rewrite Z.land_spec, Z.bits_0, Z.mul_pow2_bits by lia. destruct (Z_lt_le_dec n 32).
  - by rewrite Z.testbit_neg_r by lia.
  - rewrite (Z.bits_above_log2 lo n); [apply andb_false_r|lia|]. destruct (Z.eq_dec lo 0) as [->|]; [cbn; lia|].
    assert (Z.log2 lo < 32) by (apply Z.log2_lt_pow2; lia). lia.
Qed.

Lemma has_lor f m k : has (Z.lor f m) k = has f k || has m k.
Proof.
  unfold has, c_true. rewrite Z.land_lor_distr_l.
  destruct (Z.eqb_spec (Z.land f k) 0) as [->|H]; [done|].
  destruct (Z.eqb_spec (Z.lor (Z.land f k) (Z.land m k)) 0) as [H0|]; [|done].
  by apply Z.lor_eq_0_iff in H0 as [? _].
Qed.

Lemma has_lor_r f a b : has f (Z.lor a b) = has f a || has f b.
Proof.
  transitivity (has (Z.lor a b) f); [unfold has; by rewrite Z.land_comm|].
  rewrite has_lor. unfold has. by rewrite (Z.land_comm a), (Z.land_comm b).
Qed.

Lemma has_if_lor (b : bool) f m k : has (if b then Z.lor f m else f) k = has f k || (b && has m k).
Proof. destruct b; [apply has_lor|by rewrite andb_false_l, orb_false_r]. Qed.

(** Only the bits of the mask matter to a flag test. *)
Lemma has_clear f m k : has (clear f m) k = has f (clear k m).
Proof.
  unfold has, clear. f_equal. apply Z.bits_inj'. intros n _.
  rewrite !Z.land_spec, !Z.ldiff_spec, !andb_assoc, <- (andb_assoc _ (negb _)), (andb_comm (negb _)).
  by rewrite andb_assoc.
Qed.

Lemma has_land f m k : has (Z.land f m) k = has f (Z.land m k).
Proof. unfold has. by rewrite Z.land_assoc. Qed.

Lemma has_zero f : has f 0 = false.
Proof. unfold has. by rewrite Z.land_0_r. Qed.

Lemma has_zero_eq f k : k = 0 -> has f k = false.
Proof. intros ->. apply has_zero. Qed.

Lemma has_zero_l k : has 0 k = false.
Proof. done. Qed.

(** A word without bits outside [m] has no flag outside [m]. *)
Lemma clear_zero_has f m k : clear f m = 0 -> Z.land m k = 0 -> has f k = false.
Proof.
  intros Hf Hk. assert (f = Z.land f m) as ->.
  { rewrite <- (Z.lor_ldiff_and f m) at 1. unfold clear in Hf. by rewrite Hf, Z.lor_0_l. }
  rewrite has_land, Hk. apply has_zero.
Qed.

Lemma clear_lor a b m : clear (Z.lor a b) m = Z.lor (clear a m) (clear b m).
Proof.
  unfold clear. apply Z.bits_inj'. intros n _. rewrite !Z.lor_spec, !Z.ldiff_spec, Z.lor_spec.
  by destruct (Z.testbit a n), (Z.testbit b n), (Z.testbit m n).
Qed.

(** Masking and clearing only look at the bits they keep. *)
Lemma land_clear_disjoint f m k : Z.land m k = 0 -> Z.land (clear f m) k = Z.land f k.
Proof.
  intros H. apply Z.bits_inj'. intros n _. apply (f_equal (fun x => Z.testbit x n)) in H.
  rewrite Z.land_spec, Z.bits_0 in H. unfold clear. rewrite !Z.land_spec, Z.ldiff_spec.
  by destruct (Z.testbit f n), (Z.testbit m n), (Z.testbit k n).
Qed.

Lemma clear_land_sub f v m k : clear v m = 0 -> clear (clear (Z.land f v) k) m = 0.
Proof.
  intros H. apply Z.bits_inj'. intros n _. apply (f_equal (fun x => Z.testbit x n)) in H.
  unfold clear in *. rewrite Z.ldiff_spec, Z.bits_0 in H. rewrite !Z.ldiff_spec, Z.land_spec, Z.bits_0.
  by destruct (Z.testbit f n), (Z.testbit v n), (Z.testbit k n), (Z.testbit m n).
Qed.

Lemma clear_land_same f m : clear (Z.land f m) m = 0.
Proof.
  unfold clear. apply Z.bits_inj'. intros n _. rewrite Z.ldiff_spec, Z.land_spec, Z.bits_0.
  by destruct (Z.testbit f n), (Z.testbit m n).
Qed.

Lemma clear_clear f m : clear (clear f m) m = clear f m.
Proof.
  unfold clear. apply Z.bits_inj'. intros n _. rewrite !Z.ldiff_spec.
  by destruct (Z.testbit f n), (Z.testbit m n).
Qed.

(** A single-bit flag is a bit test. *)
Definition power2 (a : Z) : Prop := exists i, 0 <= i /\ a = 2 ^ i.

Ltac power n := exists n; split; [lia|reflexivity].

Lemma has_bit f n : 0 <= n -> has f (2 ^ n) = Z.testbit f n.
Proof.
  intros Hn. unfold has, c_true. destruct (Z.testbit f n) eqn:Hf.
  - destruct (Z.eqb_spec (Z.land f (2 ^ n)) 0) as [H|]; [|done].
    apply (f_equal (fun x => Z.testbit x n)) in H.
    rewrite Z.land_spec, Z.bits_0, Z.pow2_bits_eqb, Z.eqb_refl, Hf in H by lia. done.
  - assert (Z.land f (2 ^ n) = 0) as ->; [|done]. apply Z.bits_inj'. intros k Hk.
    rewrite Z.land_spec, Z.bits_0, Z.pow2_bits_eqb by lia.
    destruct (Z.eqb_spec n k) as [->|]; [by rewrite Hf|apply andb_false_r].
Qed.

(** [(flags & (A | B)) == (A | B)] for two flags. *)
Lemma land_both f a b : power2 a -> power2 b ->
  (Z.land f (Z.lor a b) =? Z.lor a b) = has f a && has f b.
Proof.
  intros (i & Hi & ->) (j & Hj & ->). rewrite !has_bit by done.
  destruct (Z.eqb_spec (Z.land f (Z.lor (2 ^ i) (2 ^ j))) (Z.lor (2 ^ i) (2 ^ j))) as [H|H].
  - assert (Hb : forall k, Z.testbit (Z.lor (2 ^ i) (2 ^ j)) k = true -> Z.testbit f k = true).
    { intros k Hk. rewrite <- H, Z.land_spec in Hk. by apply andb_true_iff in Hk as [? _]. }
    symmetry. apply andb_true_iff.
    split; apply Hb; rewrite Z.lor_spec, !Z.pow2_bits_eqb, Z.eqb_refl by lia; [done|apply orb_true_r].
  - symmetry. apply not_true_iff_false. intros [Hfi Hfj]%andb_true_iff. apply H.
    apply Z.bits_inj'. intros k Hk. rewrite Z.land_spec, Z.lor_spec, !Z.pow2_bits_eqb by lia.
    destruct (Z.eqb_spec i k) as [->|]; [by rewrite Hfi|].
    destruct (Z.eqb_spec j k) as [->|]; [by rewrite Hfj|apply andb_false_r].
Qed.

Lemma has_land_both f a b : has f a = true -> has f b = true -> power2 a -> power2 b ->
  Z.land f (Z.lor a b) = Z.lor a b.
Proof. intros Ha Hb Pa Pb. apply Z.eqb_eq. rewrite land_both by done. by rewrite Ha, Hb. Qed.

Lemma le_bytes_length n v : length (le_bytes n v) = n.
Proof. revert v. induction n; intros; simpl; auto. Qed.

Lemma le_val_bytes n v : le_val (le_bytes n v) = v mod 256 ^ Z.of_nat n.
Proof.
  revert v. induction n as [|n IH]; intros v.
  - simpl. by rewrite Z.mod_1_r.
  - cbn [le_bytes le_val]. rewrite IH.
    replace (Z.of_nat (S n)) with (Z.succ (Z.of_nat n)) by lia.
    rewrite Z.pow_succ_r by lia.
    rewrite Z.rem_mul_r by lia. lia.
Qed.

Lemma le_bytes_range n v : Forall (fun b => 0 <= b < 256) (le_bytes n v).
Proof.
  revert v. induction n; intros; constructor; auto.
  apply Z.mod_pos_bound. lia.
Qed.

Lemma le_val_range bs : Forall (fun b => 0 <= b < 256) bs -> 0 <= le_val bs < 256 ^ Z.of_nat (length bs).
Proof.
  induction 1 as [|b bs Hb Hbs IH]; [done|]. cbn [le_val length].
  rewrite Nat2Z.inj_succ, Z.pow_succ_r by lia. nia.
Qed.

Lemma le_val_u64 v : is_u 64 v -> le_val (le_bytes 8 v) = v.
Proof. intros H. rewrite le_val_bytes. by apply Z.mod_small. Qed.

Lemma le_val_u32 v : is_u 32 v -> le_val (le_bytes 4 v) = v.
Proof. intros H. rewrite le_val_bytes. by apply Z.mod_small. Qed.

Lemma le_val_i32 v : is_s 32 v -> i32 (le_val (le_bytes 4 v)) = v.
Proof.
  intros H. rewrite le_val_bytes. change (256 ^ Z.of_nat 4) with (2 ^ 32).
  exact (wrapU_wrapS 32 ltac:(lia) v H).
Qed.

Lemma le_val_i64 v : is_s 64 v -> i64 (le_val (le_bytes 8 v)) = v.
Proof.
  intros H. rewrite le_val_bytes. change (256 ^ Z.of_nat 8) with (2 ^ 64).
  exact (wrapU_wrapS 64 ltac:(lia) v H).
Qed.

Lemma slice_take {A} off n k (l : list A) :
  (off + n <= k)%nat -> slice off n (take k l) = slice off n l.
Proof. intros H. unfold slice. rewrite !take_drop_commute, take_take. f_equal. f_equal. lia. Qed.

Lemma slice_app_l {A} off n (l l' : list A) :
  (off + n <= length l)%nat -> slice off n (l ++ l') = slice off n l.
Proof.
  intros H. unfold slice. rewrite !take_drop_commute. by rewrite take_app_le.
Qed.

Lemma slice_app_r {A} off n (l l' : list A) :
  (length l <= off)%nat -> slice off n (l ++ l') = slice (off - length l) n l'.
Proof. intros H. unfold slice. by rewrite drop_app_ge. Qed.

Lemma slice_all {A} (l : list A) n : length l = n -> slice 0 n l = l.
Proof. intros <-. unfold slice. by rewrite drop_0, firstn_all. Qed.

Lemma slice_drop {A} off n k (l : list A) : slice off n (drop k l) = slice (k + off) n l.
Proof. unfold slice. by rewrite drop_drop. Qed.

Lemma slice_slice {A} (l : list A) a n b m :
  (a + n <= m)%nat -> slice a n (slice b m l) = slice (b + a) n l.
Proof. intros H. unfold slice at 2. by rewrite slice_take, slice_drop. Qed.

Lemma words_bytes_length ws : length (words_bytes ws) = (8 * length ws)%nat.
Proof.
  induction ws as [|w ws IH]; [done|]. cbn [words_bytes length].
  rewrite length_app, le_bytes_length, IH. lia.
Qed.

Lemma decode_words_bytes ws rest :
  Forall (is_u 64) ws -> decode_words (length ws) (words_bytes ws ++ rest) = ws.
Proof.
  induction ws as [|w ws IH]; intros H; [done|].
  apply Forall_cons in H as [Hw H]. cbn [words_bytes length decode_words].
  rewrite <- app_assoc, take_app_length', drop_app_length' by (by rewrite le_bytes_length).
  by rewrite le_val_u64, IH.
Qed.

(** ** Sums over finite maps *)

Section csum.
Context {A : Type}.
Implicit Types (phi : A -> Z) (M : gmap nat A).

Definition csum (phi : A -> Z) (M : gmap nat A) : Z := map_fold (fun _ x acc => phi x + acc) 0 M.

Lemma csum_new phi M m x : M !! m = None -> csum phi (<[m := x]> M) = phi x + csum phi M.
Proof. intros H. unfold csum. rewrite map_fold_insert_L; [done| |done]. intros. lia. Qed.

Lemma csum_delete phi M m x : M !! m = Some x -> csum phi (delete m M) = csum phi M - phi x.
Proof.
  intros H. pose proof (csum_new phi (delete m M) m x (lookup_delete_eq _ _)) as E. rewrite insert_delete_id in E by done. lia.
Qed.

Lemma csum_insert phi M m x y : M !! m = Some y -> csum phi (<[m := x]> M) = csum phi M - phi y + phi x.
Proof.
  intros H. rewrite <- insert_delete_eq. rewrite csum_new by apply lookup_delete_eq. rewrite (csum_delete _ _ _ _ H). lia.
Qed.

Lemma csum_nonneg phi M : (forall x, 0 <= phi x) -> 0 <= csum phi M.
Proof.
  intros H. induction M as [|m x M Hm IH] using map_ind; [done|]. rewrite csum_new by done. specialize (H x). lia.
Qed.

Lemma csum_member phi M m x : (forall x, 0 <= phi x) -> M !! m = Some x -> phi x <= csum phi M.
Proof.
  intros Hp H. pose proof (csum_nonneg phi (delete m M) Hp). rewrite (csum_delete _ _ _ _ H) in H0. lia.
Qed.

(** The slot [m] is set, filled or emptied. *)
Definition put_slot (m : nat) (o : option A) (M : gmap nat A) : gmap nat A :=
  match o with Some x => <[m := x]> M | None => delete m M end.
Definition part (phi : A -> Z) (o : option A) : Z := match o with Some x => phi x | None => 0 end.

Lemma csum_slot phi M m o : csum phi (put_slot m o M) = csum phi M - part phi (M !! m) + part phi o.
Proof.
  destruct (M !! m) as [y|] eqn:Hm, o as [x|]; cbn.
  - by apply csum_insert.
  - rewrite (csum_delete _ _ _ _ Hm). lia.
  - rewrite csum_new by done. lia.
  - rewrite delete_id by done. lia.
Qed.

Lemma lookup_slot m o M : put_slot m o M !! m = o.
Proof. destruct o; cbn; [apply lookup_insert_eq|apply lookup_delete_eq]. Qed.

Lemma lookup_slot_ne m o M n : n <> m -> put_slot m o M !! n = M !! n.
Proof. intros H. destruct o; cbn; [by rewrite lookup_insert_ne|by rewrite lookup_delete_ne]. Qed.

Lemma slot_slot m o o' M : put_slot m o (put_slot m o' M) = put_slot m o M.
Proof.
  apply map_eq. intros k. destruct (decide (k = m)) as [-> |H]; [by rewrite !lookup_slot|]. by rewrite !lookup_slot_ne.
Qed.

Lemma slot_id m M : put_slot m (M !! m) M = M.
Proof.
  apply map_eq. intros k. destruct (decide (k = m)) as [-> |H]; [by rewrite lookup_slot|]. by rewrite lookup_slot_ne.
Qed.

(** A positive sum has a positive member. *)
Lemma csum_pos phi M : 0 < csum phi M -> exists m x, M !! m = Some x /\ 0 < phi x.
Proof.
  induction M as [|m x M Hm IH] using map_ind; [done|]. rewrite csum_new by done. intros H.
  destruct (decide (0 < phi x)); [exists m, x; split; [apply lookup_insert_eq|done]|].
  destruct IH as (k & y & Hn & Hy); [lia|]. exists k, y. split; [|done]. rewrite lookup_insert_ne; [done|congruence].
Qed.

Lemma csum_zero phi M : (forall x, 0 <= phi x) -> (forall m x, M !! m = Some x -> phi x = 0) -> csum phi M = 0.
Proof.
  intros Hp H. pose proof (csum_nonneg phi M Hp). destruct (decide (0 < csum phi M)) as [Hc|]; [|lia].
  apply csum_pos in Hc as (m & x & Hm & Hx). rewrite (H m x Hm) in Hx. lia.
Qed.
End csum.

#[export] Hint Rewrite le_bytes_length @length_app : kern.
#[export] Hint Resolve wrapU_range wrapS_range le_val_u64 le_val_u32 : kern.
#[export] Hint Extern 1 (0 < _) => lia : kern.
