(* ===== verification/UserMem.v ===== *)
(** * User memory

    The kernel code of this repository reaches user space only through
    [copy_to_user], [copy_from_user], [put_user] and [get_user] (linux/uaccess.h,
    architecture code that is not part of the repository).  They are therefore
    an interface here, the class [UserAccess]: its operations are arguments of
    every syscall that uses them and its laws are the documented contract of
    those primitives (the return value is the number of bytes that could not be
    copied; bytes outside the destination are untouched).  [FlatMemory] is an
    instance: an address space given by its mapped bytes, where a copy stops at
    the first unmapped address. *)
From S2P Require Import Prelude.

(** What the primitives promise to their callers. *)
Class UserAccess := {
  umem : Type;
  peek : umem -> Z -> option Z;
  copy_to_user : Z -> list Z -> umem -> Z * umem;
  copy_from_user : Z -> nat -> umem -> option (list Z);
  copy_to_user_count : forall p bs m r m',
    copy_to_user p bs m = (r, m') -> 0 <= r <= Z.of_nat (length bs);
  copy_to_user_done : forall p bs m m' (i : nat) b,
    copy_to_user p bs m = (0, m') ->
    bs !! i = Some b -> peek m' (p + Z.of_nat i) = Some b;
  copy_to_user_frame : forall p bs m r m' a,
    copy_to_user p bs m = (r, m') ->
    a < p \/ p + Z.of_nat (length bs) <= a -> peek m' a = peek m a;
  copy_from_user_done : forall p n m bs,
    copy_from_user p n m = Some bs ->
    length bs = n /\
    forall (i : nat) b, bs !! i = Some b -> peek m (p + Z.of_nat i) = Some b
}.

Section reading.
Context {U : UserAccess}.

(** The [n] bytes at [p], as a user program reads them. *)
Fixpoint uread (m : umem) (p : Z) (n : nat) : option (list Z) :=
  match n with
  | O => Some []
  | S n' =>
      match peek m p, uread m (p + 1) n' with
      | Some b, Some bs => Some (b :: bs)
      | _, _ => None
      end
  end.

(** [put_user(v, p)] for an object of [n] bytes. *)
Definition put_user (n : nat) (v p : Z) (m : umem) : Z * umem :=
  let '(r, m') := copy_to_user p (le_bytes n v) m in
  if c_true r then (- EFAULT, m') else (0, m').

(** [get_user(x, p)] for an object of [n] bytes. *)
Definition get_user (n : nat) (p : Z) (m : umem) : option Z :=
  match copy_from_user p n m with
  | Some bs => Some (le_val bs)
  | None => None
  end.

Lemma uread_ext (m : umem) p bs :
  (forall (i : nat) b, bs !! i = Some b -> peek m (p + Z.of_nat i) = Some b) ->
  uread m p (length bs) = Some bs.
Proof.
  revert p. induction bs as [|b bs IH]; intros p H; [done|].
  cbn [length uread].
  pose proof (H O b eq_refl) as H0. rewrite Z.add_0_r in H0. rewrite H0.
  rewrite (IH (p + 1)); [done|].
  intros i b' Hi. rewrite <- (H (S i) b' Hi). f_equal. lia.
Qed.

Lemma uread_frame (m m' : umem) p n :
  (forall a, p <= a < p + Z.of_nat n -> peek m' a = peek m a) ->
  uread m' p n = uread m p n.
Proof.
  revert p. induction n as [|n IH]; intros p H; [done|].
  cbn [uread]. rewrite H by lia. rewrite (IH (p + 1)); [done|].
  intros a Ha. apply H. lia.
Qed.

Lemma uread_app (m : umem) p n1 n2 bs1 bs2 :
  uread m p n1 = Some bs1 -> uread m (p + Z.of_nat n1) n2 = Some bs2 ->
  uread m p (n1 + n2) = Some (bs1 ++ bs2).
Proof.
  revert p bs1. induction n1 as [|n1 IH]; intros p bs1 H1 H2.
  - injection H1 as <-. rewrite Z.add_0_r in H2. done.
  - cbn [uread] in *. change (S n1 + n2)%nat with (S (n1 + n2)). cbn [uread].
    destruct (peek m p); [|done].
    destruct (uread m (p + 1) n1) as [bs|] eqn:E; [|done]. injection H1 as <-.
    rewrite (IH (p + 1) bs E); [done|].
    rewrite <- H2. f_equal. lia.
Qed.

Lemma uread_drop (m : umem) p n k bs :
  uread m p (k + n) = Some bs -> uread m (p + Z.of_nat k) n = Some (drop k bs).
Proof.
  revert p bs. induction k as [|k IH]; intros p bs H.
  - by rewrite Z.add_0_r.
  - cbn [Nat.add uread] in H. destruct (peek m p); [|done].
    destruct (uread m (p + 1) (k + n)) as [bs'|] eqn:E; [|done]. injection H as <-.
    cbn [drop]. rewrite <- (IH _ _ E). f_equal. lia.
Qed.

Lemma uread_take (m : umem) p n k bs :
  uread m p (k + n) = Some bs -> uread m p k = Some (take k bs).
Proof.
  revert p bs. induction k as [|k IH]; intros p bs H; [done|].
  cbn [Nat.add uread] in *. destruct (peek m p); [|done].
  destruct (uread m (p + 1) (k + n)) as [bs'|] eqn:E; [|done]. injection H as <-.
  by rewrite (IH _ _ E).
Qed.

Lemma uread_slice (m : umem) p n off k bs :
  uread m p n = Some bs -> (off + k <= n)%nat ->
  uread m (p + Z.of_nat off) k = Some (slice off k bs).
Proof.
  intros H Hle. unfold slice. apply uread_take with (n - off - k)%nat.
  replace (k + (n - off - k))%nat with (n - off)%nat by lia.
  apply uread_drop. rewrite <- H. f_equal. lia.
Qed.

(** A copy that reports zero bytes left delivers every byte. *)
Lemma copy_to_user_uread p bs m m' :
  copy_to_user p bs m = (0, m') -> uread m' p (length bs) = Some bs.
Proof. intros H. apply uread_ext. intros i b. by apply copy_to_user_done with m. Qed.

(** Reading elsewhere is not affected by a copy, complete or not. *)
Lemma copy_to_user_other p bs m r m' q n :
  copy_to_user p bs m = (r, m') ->
  q + Z.of_nat n <= p \/ p + Z.of_nat (length bs) <= q ->
  uread m' q n = uread m q n.
Proof.
  intros H Hd. apply uread_frame. intros a Ha.
  apply (copy_to_user_frame _ _ _ _ _ _ H). lia.
Qed.

Lemma put_user_ret n v p m :
  (put_user n v p m).1 = 0 \/ (put_user n v p m).1 = - EFAULT.
Proof. unfold put_user. destruct (copy_to_user _ _ _). case_if; auto. Qed.

Lemma put_user_uread n v p m m' :
  put_user n v p m = (0, m') -> uread m' p n = Some (le_bytes n v).
Proof.
  unfold put_user. destruct (copy_to_user p (le_bytes n v) m) as [r m1] eqn:E.
  case_if; intros [= <-]. apply c_true_false in Hif as ->.
  apply copy_to_user_uread in E. by rewrite le_bytes_length in E.
Qed.

Lemma put_user_other n v p m r m' q k :
  put_user n v p m = (r, m') ->
  q + Z.of_nat k <= p \/ p + Z.of_nat n <= q -> uread m' q k = uread m q k.
Proof.
  unfold put_user. destruct (copy_to_user p (le_bytes n v) m) as [r1 m1] eqn:E.
  intros Hp Hd.
  assert (m' = m1) as -> by (case_if_in Hp; by inv_pair).
  apply (copy_to_user_other _ _ _ _ _ _ _ E). by rewrite le_bytes_length.
Qed.

End reading.

(** ** An address space as a function *)

Fixpoint fetch (m : Z -> option Z) (p : Z) (n : nat) : option (list Z) :=
  match n with
  | O => Some []
  | S n' =>
      match m p, fetch m (p + 1) n' with
      | Some b, Some bs => Some (b :: bs)
      | _, _ => None
      end
  end.

Lemma fetch_done m p n bs :
  fetch m p n = Some bs ->
  length bs = n /\ forall (i : nat) b, bs !! i = Some b -> m (p + Z.of_nat i) = Some b.
Proof.
  revert p bs. induction n as [|n IH]; intros p bs H; cbn [fetch] in H; [by injection H as <-|].
  destruct (m p) as [c|] eqn:E; [|done]. destruct (fetch m (p + 1) n) as [cs|] eqn:E2; [|done].
  injection H as <-. destruct (IH _ _ E2) as [Hl Hs]. split; [cbn; congruence|].
  intros [|i] b Hi; cbn in Hi; [injection Hi as ->; by rewrite Z.add_0_r|].
  rewrite <- (Hs i b Hi). f_equal. lia.
Qed.

(** A user address space as a function: every address can be written, so a copy to
    it succeeds and shadows what was there; a copy from it needs bytes there. *)
#[local, refine] Instance last_copy : UserAccess := {
  umem := Z -> option Z;
  peek m a := m a;
  copy_to_user p bs m :=
    (0, fun a => if (p <=? a) && (a <? p + Z.of_nat (length bs)) then bs !! Z.to_nat (a - p) else m a);
  copy_from_user p n m := fetch m p n
}.
Proof.
- intros p bs m r m' [= <- _]. lia.
- intros p bs m m' i b [= <-] Hb. pose proof (lookup_lt_Some _ _ _ Hb).
  case_if; [|lia]. rewrite <- Hb. f_equal. lia.
- intros p bs m r m' a [= _ <-] Ha. case_if; [lia|done].
- exact (fun p n m bs => fetch_done m p n bs).
Defined.

(** ** An address space as a finite map of mapped bytes *)
Module FlatMemory.

Fixpoint store (p : Z) (bs : list Z) (m : gmap Z Z) : Z * gmap Z Z :=
  match bs with
  | [] => (0, m)
  | b :: bs' =>
      match m !! p with
      | None => (Z.of_nat (length bs), m)
      | Some _ => store (p + 1) bs' (<[p := b]> m)
      end
  end.

Fixpoint load (p : Z) (n : nat) (m : gmap Z Z) : option (list Z) :=
  match n with
  | O => Some []
  | S n' =>
      match m !! p, load (p + 1) n' m with
      | Some b, Some bs => Some (b :: bs)
      | _, _ => None
      end
  end.

(** [n] mapped zero bytes from [p] on. *)
Fixpoint zeroed (p : Z) (n : nat) (m : gmap Z Z) : gmap Z Z :=
  match n with
  | O => m
  | S n' => <[p := 0]> (zeroed (p + 1) n' m)
  end.

Lemma store_frame p bs m r m' a :
  store p bs m = (r, m') -> a < p \/ p + Z.of_nat (length bs) <= a -> m' !! a = m !! a.
Proof.
  revert p m. induction bs as [|b bs IH]; intros p m H Ha; simpl in H.
  - by inv_pair.
  - cbn [length] in Ha. destruct (m !! p) eqn:E; [|by inv_pair].
    rewrite (IH _ _ H) by lia. apply lookup_insert_ne. lia.
Qed.

Lemma store_count p bs m r m' :
  store p bs m = (r, m') -> 0 <= r <= Z.of_nat (length bs).
Proof.
  revert p m. induction bs as [|b bs IH]; intros p m H; simpl in H.
  - inv_pair. simpl. lia.
  - destruct (m !! p); [|inv_pair; simpl; lia].
    apply IH in H. simpl. lia.
Qed.

Lemma store_done p bs m m' (i : nat) b :
  store p bs m = (0, m') -> bs !! i = Some b -> m' !! (p + Z.of_nat i) = Some b.
Proof.
  revert p m i. induction bs as [|c bs IH]; intros p m i H Hi; [done|].
  simpl in H. destruct (m !! p); [|inv_pair; lia].
  destruct i as [|i]; simpl in Hi.
  - injection Hi as ->. rewrite (store_frame _ _ _ _ _ _ H) by lia.
    replace (p + Z.of_nat 0) with p by lia. apply lookup_insert_eq.
  - replace (p + Z.of_nat (S i)) with (p + 1 + Z.of_nat i) by lia.
    by apply (IH _ _ _ H).
Qed.

Lemma load_done p n m bs :
  load p n m = Some bs ->
  length bs = n /\
  forall (i : nat) b, bs !! i = Some b -> m !! (p + Z.of_nat i) = Some b.
Proof.
  revert p bs. induction n as [|n IH]; intros p bs H; simpl in H.
  - injection H as <-. done.
  - destruct (m !! p) as [c|] eqn:E; [|done].
    destruct (load (p + 1) n m) as [cs|] eqn:E2; [|done]. injection H as <-.
    destruct (IH _ _ E2) as [Hl Hs]. split; [simpl; congruence|].
    intros [|i] b Hi; simpl in Hi.
    + injection Hi as ->. by rewrite Z.add_0_r.
    + rewrite <- (Hs i b Hi). f_equal. lia.
Qed.

#[local, refine] Instance flat : UserAccess := {
  umem := gmap Z Z;
  peek m a := m !! a;
  copy_to_user := store;
  copy_from_user := load
}.
Proof.
- exact store_count.
- exact store_done.
- exact store_frame.
- exact load_done.
Defined.

End FlatMemory.
