(* ===== verification/Task.v ===== *)
(** * Processes as the syscalls of this repository see them

    The fields of [struct task_struct] and [struct mm_struct] that
    kernel/usac/ reads, and the kernel services it calls to get at them
    (class [TaskEnv]): the process lookup, the iteration over all processes,
    the resident-set counter and the capability check are code outside the
    repository, so they are parameters. *)
From S2P Require Import Prelude.

Record mm_struct := { total_vm : Z; rss_pages : Z }.

(** The task_io_accounting fields luis_get_io_throttle reads. *)
Record task_io_accounting := {
  io_read_bytes : Z; io_write_bytes : Z;
  io_read_disk_bytes : Z; io_write_disk_bytes : Z; io_wait_time_ms : Z
}.

Record task_struct := { t_pid : Z; t_mm : option mm_struct; t_ioac : task_io_accounting }.

Definition CAP_SYS_ADMIN := 21.

Class TaskEnv := {
  (** [pid_task(find_vpid(pid), PIDTYPE_PID)] *)
  pid_task : Z -> option task_struct;
  (** the tasks [for_each_process] visits, in order *)
  processes : list task_struct;
  (** [get_mm_rss(mm)], in pages *)
  get_mm_rss : mm_struct -> Z;
  capable : Z -> bool
}.

(** Resident memory of a process in kilobytes, the expression
    [get_mm_rss(mm) * PAGE_SIZE / 1024] that several syscalls evaluate on
    [unsigned long]. *)
Definition rss_kb `{TaskEnv} (mm : mm_struct) : Z := u64 (get_mm_rss mm * PAGE_SIZE) / 1024.

(** A table of processes as an environment, for concrete runs. *)
Definition table_env (admin : bool) (tab : gmap Z task_struct) : TaskEnv := {|
  pid_task := fun p => tab !! p;
  processes := (map_to_list tab).*2;
  get_mm_rss := rss_pages;
  capable := fun _ => admin
|}.

Lemma rss_kb_range `{TaskEnv} mm : 0 <= rss_kb mm < 2 ^ 54.
Proof. unfold rss_kb. pose proof (u64_bounds (get_mm_rss mm * PAGE_SIZE)). zlia. Qed.

Lemma rss_kb_exact `{TaskEnv} mm :
  0 <= get_mm_rss mm < 2 ^ 52 -> rss_kb mm = 4 * get_mm_rss mm.
Proof. intros. unfold rss_kb, wrapU, PAGE_SIZE. zlia. Qed.
