(* ===== verification/Syscalls.v ===== *)
(** * From a register to a typed argument (include/linux/syscalls.h: the SYSCALL_DEFINE macros)

    A system call is written with SYSCALL_DEFINEn and a list of types and names.  The macro
    makes three functions of it: the body with the declared parameters, a stub whose
    parameters are longs, which casts each to its declared type, and an alias of the stub
    under the public name.  What arrives in the part of a register that the declared type
    does not use is left to the caller; the stub is there so that the body never sees it.
    The macros are modelled over the C types they inspect: [__MAP], the parameter and cast
    macros, the compile-time test of a parameter, and the record kept for tracing.  Type
    names and the width of a long belong to the machine and to other headers, and are
    parameters. *)
From Stdlib Require Import String.
From S2P Require Import Prelude.
Local Open Scope string_scope.
Local Open Scope Z_scope.

(** ** Types *)

Inductive ctype := Base (name : string) | Const (t : ctype) | Ptr (user : bool) (t : ctype).
Coercion Base : string >-> ctype.

#[export] Instance ctype_eq_dec : EqDecision ctype.
Proof. solve_decision. Defined.

(** [T __user *], [T *], [const T], and a type by its name. *)
Definition ty (n : string) : ctype := Base n.
Definition uptr (t : ctype) : ctype := Ptr true t.
Definition kptr (t : ctype) : ctype := Ptr false t.
Definition cst (t : ctype) : ctype := Const t.

(** What the macros can tell about a type.  [Aggregate]: a structure by value. *)
Inductive kind := Integer (bits : Z) (signed : bool) | Long (signed : bool) | LongLong (signed : bool) | Pointer | Aggregate.

Definition builtins : list (string * kind) :=
  [("char", Integer 8 true); ("unsigned char", Integer 8 false); ("short", Integer 16 true); ("unsigned short", Integer 16 false);
   ("int", Integer 32 true); ("unsigned int", Integer 32 false); ("long", Long true); ("unsigned long", Long false);
   ("long long", LongLong true); ("unsigned long long", LongLong false)].

Fixpoint assoc {A} (n : string) (l : list (string * A)) : option A :=
  match l with [] => None | (m, a) :: l => if String.eqb n m then Some a else assoc n l end.

(** [typedef]: what a name that is not built in stands for. *)
Class CMachine := {
  BITS_PER_LONG : Z;
  typedef : string -> kind;
  long_bits : BITS_PER_LONG = 32 \/ BITS_PER_LONG = 64;
  typedef_bits : forall n w s, typedef n = Integer w s -> 0 < w
}.

Section macros.
Context {M : CMachine}.

Fixpoint kind_of (t : ctype) : kind :=
  match t with
  | Base n => match assoc n builtins with Some k => k | None => typedef n end
  | Const t => kind_of t
  | Ptr _ _ => Pointer
  end.

Definition bits (k : kind) : Z :=
  match k with Integer w _ => w | Long _ | Pointer => BITS_PER_LONG | LongLong _ => 64 | Aggregate => 0 end.
Definition is_signed (k : kind) : bool := match k with Integer _ s | Long s | LongLong s => s | Pointer | Aggregate => false end.

(** The conversion of a value to a type, and the values of a type. *)
Definition convert (k : kind) (v : Z) : Z := if is_signed k then wrapS (bits k) v else wrapU (bits k) v.
Definition in_type (k : kind) (v : Z) : Prop := if is_signed k then is_s (bits k) v else is_u (bits k) v.

(** ** The macros of one argument *)

(** __TYPE_IS_LL *)
Definition type_is_ll (t : ctype) : bool := match kind_of t with LongLong _ => true | _ => false end.

(** __SC_LONG: the type of the parameter of the stub. *)
Definition sc_long (t : ctype) : kind := if type_is_ll t then LongLong true else Long true.

(** __SC_CAST *)
Definition sc_cast (t : ctype) (a : Z) : Z := convert (kind_of t) a.

(** __SC_TEST, which fails to compile when it is false; so does the cast of a number to a
    structure inside __TYPE_AS. *)
Definition sc_test (t : ctype) : bool :=
  match kind_of t with Aggregate => false | k => negb (negb (type_is_ll t) && (BITS_PER_LONG <? bits k)) end.

(** ** Whole lists *)

(** __MAPn: the first [n] pairs; more pairs are dropped, fewer do not expand. *)
Fixpoint MAP {A} (n : nat) (m : ctype -> string -> A) (l : list (ctype * string)) : option (list A) :=
  match n, l with
  | O, _ => Some []
  | S n, (t, a) :: l => r ← MAP n m l; Some (m t a :: r)
  | S _, [] => None
  end.

Definition SYSCALL_DEFINE_MAXARGS : nat := 6.

(** SYSCALL_METADATA; [m_nr] is filled in at boot. *)
Record syscall_metadata := { m_name : string; m_nr : Z; nb_args : nat; m_types : list ctype; m_args : list string }.

(** [raw]: what is in the registers of the arguments, all of it. *)
Definition se_sys (ts : list ctype) (body : list Z -> Z) (raw : list Z) : Z :=
  let params := zip_with (fun t r => convert (sc_long t) r) ts raw in
  convert (Long true) (body (zip_with sc_cast ts params)).

Record syscall := { metadata : syscall_metadata; entry : list Z -> Z }.

(** SYSCALL_DEFINEn for [n] from 0 to 6; [None]: it does not compile.  SYSCALL_DEFINE0 is a
    macro of one argument, the name, so pairs after it do not preprocess. *)
Definition SYSCALL_DEFINEx (n : nat) (name : string) (l : list (ctype * string)) (body : list Z -> Z) : option syscall :=
  if (SYSCALL_DEFINE_MAXARGS <? n)%nat then None
  else if (n =? 0)%nat && negb (length l =? 0)%nat then None
  else
    types ← MAP n (fun t _ => t) l;
    args ← MAP n (fun _ a => a) l;
    if forallb sc_test types
    then Some {| metadata := {| m_name := "sys_" ++ name; m_nr := -1; nb_args := n; m_types := types; m_args := args |};
                 entry := se_sys types body |}
    else None.

(** SC_ARG64 and SC_VAL64: a 64-bit argument in two registers of 32 bits. *)
Definition SC_ARG64 (little_endian : bool) (name : string) : list (ctype * string) :=
  if little_endian then [(Base "u32", name ++ "_lo"); (Base "u32", name ++ "_hi")]
  else [(Base "u32", name ++ "_hi"); (Base "u32", name ++ "_lo")].
Definition SC_VAL64 (type : kind) (hi lo : Z) : Z := convert type (Z.lor (convert type (Z.shiftl (convert type hi) 32)) lo).

(** is_syscall_trace_event, with tracing of system calls configured or not. *)
Inductive event_class := event_class_syscall_enter | event_class_syscall_exit | OtherClass (n : nat).
Definition is_syscall_trace_event (ftrace_syscalls : bool) (class : event_class) : bool :=
  ftrace_syscalls && match class with event_class_syscall_enter | event_class_syscall_exit => true | OtherClass _ => false end.

(** ksys_personality: [set_personality] is architecture code. *)
Definition ksys_personality (set_personality : Z -> Z -> Z) (personality current : Z) : Z * Z :=
  (current, if negb (personality =? 4294967295) then set_personality personality current else current).

(** ** The body gets the value that was passed *)

Lemma bits_pos t : kind_of t <> Aggregate -> 0 < bits (kind_of t).
Proof.
  pose proof long_bits. intros Ha. destruct (kind_of t) as [w s|s|s| |] eqn:E; cbn; try lia; [|done].
  revert E. clear Ha. induction t as [n|t IH|u t IH]; cbn [kind_of]; [|done|done].
  destruct (assoc n builtins) eqn:Ea; [|by intros ?%typedef_bits]. intros ->. revert Ea. clear. unfold builtins. cbn [assoc].
  repeat (case_match; [intros [= <- <-]; lia|] || done || (intros [=]; done)).
Qed.

Lemma convert_mod k v : 0 < bits k -> convert k v mod 2 ^ bits k = v mod 2 ^ bits k.
Proof.
  intros Hk. unfold convert, wrapS, wrapU. assert (0 < 2 ^ bits k) by lia. case_if; [|by rewrite Z.mod_mod by lia].
  cbv zeta. case_if; [by rewrite Z.mod_mod by lia|].
  replace (v mod 2 ^ bits k - 2 ^ bits k) with (v mod 2 ^ bits k + (-1) * 2 ^ bits k) by lia.
  rewrite Z.mod_add by lia. by rewrite Z.mod_mod by lia.
Qed.

(** Two values that agree in the bits of a type convert to the same. *)
Lemma convert_ext k v v' : v mod 2 ^ bits k = v' mod 2 ^ bits k -> convert k v = convert k v'.
Proof. unfold convert, wrapS, wrapU. by intros ->. Qed.

Lemma convert_id k v : 0 < bits k -> in_type k v -> convert k v = v.
Proof. intros Hk. unfold convert, in_type. case_if; [by apply wrapS_id|by apply wrapU_id]. Qed.

Lemma mod_narrow a b n m : 0 <= n <= m -> a mod 2 ^ m = b mod 2 ^ m -> a mod 2 ^ n = b mod 2 ^ n.
Proof.
  intros Hn H. assert (Hd : (2 ^ n | 2 ^ m)) by (exists (2 ^ (m - n)); rewrite <- Z.pow_add_r by lia; f_equal; lia).
  rewrite <- (Z.mod_mod_divide a _ _ Hd), H. by apply Z.mod_mod_divide.
Qed.

Lemma cast_delivers t r v : sc_test t = true -> in_type (kind_of t) v ->
  r mod 2 ^ bits (kind_of t) = v mod 2 ^ bits (kind_of t) -> sc_cast t (convert (sc_long t) r) = v.
Proof.
  intros Ht Hv Hr. pose proof long_bits.
  assert (Ha : kind_of t <> Aggregate) by (intros E; unfold sc_test in Ht; by rewrite E in Ht).
  pose proof (bits_pos t Ha) as Hp. transitivity (convert (kind_of t) v); [|by apply convert_id]. unfold sc_cast. apply convert_ext. rewrite <- Hr.
  apply mod_narrow with (bits (sc_long t)); [|apply convert_mod; unfold sc_long; case_match; cbn; lia].
  split; [lia|]. unfold sc_test in Ht. unfold sc_long, type_is_ll in *.
  destruct (kind_of t); cbn [bits] in *; try lia; try done.
Qed.

(** *** Lists *)

Lemma MAP_spec {A} n (m : ctype -> string -> A) l :
  MAP n m l = if (n <=? length l)%nat then Some (map (fun p => m p.1 p.2) (take n l)) else None.
Proof.
  revert l. induction n as [|n IH]; intros l; [done|]. destruct l as [|[t a] l]; [done|]. cbn [MAP length].
  rewrite IH. change (S n <=? S (length l))%nat with (n <=? length l)%nat. by destruct (n <=? length l)%nat.
Qed.

(** Values and the registers they may come in: the part of a register beyond the type is
    anything. *)
Inductive passed : list ctype -> list Z -> list Z -> Prop :=
  | passed_nil : passed [] [] []
  | passed_cons t ts v vs r rs : in_type (kind_of t) v -> r mod 2 ^ bits (kind_of t) = v mod 2 ^ bits (kind_of t) ->
      passed ts vs rs -> passed (t :: ts) (v :: vs) (r :: rs).

Lemma casts_deliver ts vs rs : forallb sc_test ts = true -> passed ts vs rs ->
  zip_with sc_cast ts (zip_with (fun t r => convert (sc_long t) r) ts rs) = vs.
Proof.
  intros Ht Hp. induction Hp as [|t ts v vs r rs Hv Hr Hp IH]; [done|]. cbn in Ht |- *.
  apply andb_true_iff in Ht as [H1 H2]. by rewrite (cast_delivers t r v), IH.
Qed.

(** What may be an argument: no structure by value, and nothing wider than a long but a
    long long, which the stub takes as such. *)
Definition passable (t : ctype) : Prop :=
  match kind_of t with
  | Aggregate => False
  | Integer w _ => w <= BITS_PER_LONG
  | Long _ | LongLong _ | Pointer => True
  end.

(** When a definition with [n] arguments is one. *)
Definition expands (n : nat) (l : list (ctype * string)) : Prop :=
  (n <= SYSCALL_DEFINE_MAXARGS)%nat /\ (n <= length l)%nat /\ (n = O -> l = []) /\ Forall (fun p => passable p.1) (take n l).

Lemma sc_test_passable t : sc_test t = true <-> passable t.
Proof.
  pose proof long_bits. unfold sc_test, passable, type_is_ll. destruct (kind_of t) as [w s|s|s| |]; cbn [bits negb andb]; try done.
  - rewrite negb_true_iff. apply Z.ltb_ge.
  - by rewrite Z.ltb_irrefl.
  - by rewrite Z.ltb_irrefl.
Qed.

Lemma tests_passable (l : list (ctype * string)) : forallb sc_test (map fst l) = true <-> Forall (fun p => passable p.1) l.
Proof.
  induction l as [|[t a] l IH]; [by split|]. cbn [map forallb fst]. rewrite andb_true_iff, Forall_cons, IH. by rewrite sc_test_passable.
Qed.

(** C25: the SYSCALL_DEFINEn macros expand exactly when at most six arguments are asked for,
    at least that many pairs are given (for SYSCALL_DEFINE0 none) and every type can be
    passed, which is: no structure by value, and no integer wider than a long unless it is
    a long long, so that 64-bit arguments are passed on 32-bit machines, too; the
    definition then has the first n pairs as its parameters and its trace record, and the
    public entry gives the body exactly the values the caller passed, whatever else is in
    the registers, on 32-bit and 64-bit machines; the answer is the body's as a long. *)
Theorem stub_sanitizes n name l body :
  match SYSCALL_DEFINEx n name l body with
  | None => ~ expands n l
  | Some s =>
      expands n l /\
      m_name (metadata s) = "sys_" ++ name /\ nb_args (metadata s) = n /\
      zip (m_types (metadata s)) (m_args (metadata s)) = take n l /\ length (m_types (metadata s)) = n /\
      forall vs raw, passed (m_types (metadata s)) vs raw -> entry s raw = convert (Long true) (body vs)
  end.
Proof.
  unfold SYSCALL_DEFINEx, expands. destruct (Nat.ltb_spec SYSCALL_DEFINE_MAXARGS n) as [Hn|Hn]; [intros (? & _); lia|].
  destruct ((n =? 0)%nat && negb (length l =? 0)%nat) eqn:H0.
  { apply andb_true_iff in H0 as [H0%Nat.eqb_eq H1%negb_true_iff%Nat.eqb_neq]. intros (_ & _ & H & _). by rewrite H in H1. }
  assert (Hz : n = O -> l = []).
  { intros ->. cbn in H0. apply negb_false_iff, Nat.eqb_eq in H0. by apply nil_length_inv. }
  rewrite !MAP_spec. destruct (Nat.leb_spec n (length l)) as [Hl|Hl]; [|intros (_ & ? & _); lia]. cbn [mbind option_bind].
  pose proof (tests_passable (take n l)) as Ht. destruct (forallb sc_test _) eqn:Hf; cbn [metadata entry m_types m_args m_name nb_args].
  - split_and!; try done; try by apply Ht.
    + clear. induction (take n l) as [|[t a] l' IH]; [done|]. cbn. by f_equal.
    + rewrite length_map, length_take. lia.
    + intros vs raw Hp. unfold se_sys. by rewrite (casts_deliver _ vs).
  - intros (_ & _ & _ & H). apply Ht in H. done.
Qed.

(** A 64-bit value split over two registers in the order of the machine is rebuilt. *)
Lemma arg64_roundtrip little_endian s v name : in_type (LongLong s) v ->
  let lo := v mod 2 ^ 32 in let hi := (v / 2 ^ 32) mod 2 ^ 32 in
  map snd (SC_ARG64 little_endian name) = (if little_endian then [name ++ "_lo"; name ++ "_hi"] else [name ++ "_hi"; name ++ "_lo"]) /\
  SC_VAL64 (LongLong s) hi lo = v.
Proof.
  intros Hv. cbv zeta. split; [by destruct little_endian|]. unfold SC_VAL64.
  set (lo := v mod 2 ^ 32). set (hi := (v / 2 ^ 32) mod 2 ^ 32).
  assert (Hlo : 0 <= lo < 2 ^ 32) by (apply Z.mod_pos_bound; lia). assert (Hhi : 0 <= hi < 2 ^ 32) by (apply Z.mod_pos_bound; lia).
  assert (E1 : convert (LongLong s) hi = hi) by (apply convert_id; [cbn; lia|unfold in_type, is_s, is_u; destruct s; cbn; lia]).
  rewrite E1, Z.shiftl_mul_pow2 by lia.
  assert (Hc : exists q, convert (LongLong s) (hi * 2 ^ 32) = q * 2 ^ 32).
  { unfold convert, wrapS, wrapU. destruct s; cbn [is_signed bits].
    - cbv zeta. rewrite Z.mod_small by lia. case_if; [by exists hi|exists (hi - 2 ^ 32); lia].
    - rewrite Z.mod_small by lia. by exists hi. }
  destruct Hc as [q Hq]. rewrite Hq.
  rewrite lor_halves by done. rewrite <- (convert_id (LongLong s) v) at 1; [|cbn; lia|done]. apply convert_ext. cbn [bits].
  transitivity ((hi * 2 ^ 32 + lo) mod 2 ^ 64).
  - rewrite <- Hq, <- (Zplus_mod_idemp_l (convert _ _)). change 64 with (bits (LongLong s)) at 1 2.
    rewrite convert_mod by (cbn; lia). apply Zplus_mod_idemp_l.
  - unfold hi, lo. replace (2 ^ 64) with (2 ^ 32 * 2 ^ 32) by lia. rewrite Z.mod_small.
    + rewrite (Z.rem_mul_r v) by lia. lia.
    + fold hi lo. lia.
Qed.

End macros.

(** ** An example *)

(** x86-64: names that are not built in are 32-bit unsigned, but for those listed. *)
Definition x86_64_names : list (string * kind) :=
  [("size_t", Long false); ("loff_t", LongLong true); ("pid_t", Integer 32 true); ("umode_t", Integer 16 false)].

#[refine]
#[export] Instance x86_64 : CMachine :=
  {| BITS_PER_LONG := 64;
     typedef n := match assoc n x86_64_names with Some k => k | None => Integer 32 false end |}.
Proof.
  - by right.
  - intros n w s. unfold x86_64_names. cbn [assoc]. repeat destruct (String.eqb _ _); intros Hk; inversion Hk; lia.
Defined.

(** A process number of -2 in a register whose upper half is not its sign, and a size. *)
Lemma stub_sanitizes_witness :
  match SYSCALL_DEFINEx 2 "so2_add_memory_limit" [(Base "pid_t", "process_pid"); (Base "size_t", "memory_limit")] (fun a => nth 0 a 0) with
  | Some s => entry s [123 * 2 ^ 32 + (2 ^ 32 - 2); 4096] = -2
  | None => False
  end.
Proof.
  pose proof (stub_sanitizes 2 "so2_add_memory_limit" [(Base "pid_t", "process_pid"); (Base "size_t", "memory_limit")] (fun a => nth 0 a 0)) as H.
  cbn -[convert expands] in H. destruct H as (_ & _ & _ & _ & _ & H).
  cbn -[se_sys Z.mul Z.pow Z.add Z.sub]. transitivity (convert (Long true) (-2)); [|reflexivity].
  apply (H [-2; 4096]). repeat constructor; vm_compute; try done; split; done.
Defined.
