(* ===== verification/SyscallProtos.v ===== *)
(** * The prototypes of the system calls (include/linux/syscalls.h)

    The header declares every system call function for the machines that do not bring
    their own calling convention.  Its declarations are here as data, in their order, with
    the preprocessor condition they stand under, beside the heads of the SYSCALL_DEFINEn of
    this repository with theirs, so that it can be decided for every kernel configuration
    whether they agree: the compiler compares them only on machines where the header
    includes the prototypes. *)
From Stdlib Require Import String.
From S2P Require Import Prelude Syscalls.
Local Open Scope string_scope.

(** Preprocessor conditions over the symbols of a configuration ([#ifdef], [#if], [#elif]
    and [#else]). *)
Inductive cond := Yes | Cfg (symbol : string) | Not (c : cond) | And (c d : cond) | Or (c d : cond).

Fixpoint holds (cfg : string -> bool) (c : cond) : bool :=
  match c with
  | Yes => true
  | Cfg s => cfg s
  | Not c => negb (holds cfg c)
  | And c d => holds cfg c && holds cfg d
  | Or c d => holds cfg c || holds cfg d
  end.

(** [p_if]: the condition the prototype stands under. *)
Record prototype := { p_name : string; p_types : list ctype; p_if : cond }.
Definition proto (n : string) (ts : list ctype) : prototype := {| p_name := n; p_types := ts; p_if := Yes |}.
Definition proto_if (c : cond) (n : string) (ts : list ctype) : prototype := {| p_name := n; p_types := ts; p_if := c |}.

(** The types the header declares for its prototypes. *)
Definition forward_declared : list string :=
  ["struct __aio_sigset"; "struct epoll_event"; "struct iattr"; "struct inode"; "struct iocb";
   "struct io_event"; "struct iovec"; "struct __kernel_old_itimerval"; "struct kexec_segment";
   "struct linux_dirent"; "struct linux_dirent64"; "struct list_head"; "struct mmap_arg_struct";
   "struct msgbuf"; "struct user_msghdr"; "struct mmsghdr"; "struct msqid_ds"; "struct new_utsname";
   "struct nfsctl_arg"; "struct __old_kernel_stat"; "struct oldold_utsname"; "struct old_utsname";
   "struct pollfd"; "struct rlimit"; "struct rlimit64"; "struct rusage"; "struct sched_param";
   "struct sched_attr"; "struct sel_arg_struct"; "struct semaphore"; "struct sembuf"; "struct shmid_ds";
   "struct sockaddr"; "struct stat"; "struct stat64"; "struct statfs"; "struct statfs64"; "struct statx";
   "struct sysinfo"; "struct timespec"; "struct __kernel_old_timeval"; "struct __kernel_timex";
   "struct timezone"; "struct tms"; "struct utimbuf"; "struct mq_attr"; "struct compat_stat";
   "struct old_timeval32"; "struct robust_list_head"; "struct futex_waitv"; "struct getcpu_cache";
   "struct old_linux_dirent"; "struct perf_event_attr"; "struct file_handle"; "struct sigaltstack";
   "struct rseq"; "union bpf_attr"; "struct io_uring_params"; "struct clone_args"; "struct open_how";
   "struct mount_attr"; "struct landlock_ruleset_attr"; "struct lsm_ctx"; "enum landlock_rule_type";
   "struct cachestat_range"; "struct cachestat"; "struct statmount"; "struct mnt_id_req"].

Definition protos_304_401 : list prototype :=
  [proto "sys_io_setup" [ty "unsigned int"; uptr "aio_context_t"];
   proto "sys_io_destroy" [ty "aio_context_t"];
   proto "sys_io_submit" [ty "aio_context_t"; ty "long"; uptr (uptr "struct iocb")];
   proto "sys_io_cancel" [ty "aio_context_t"; uptr "struct iocb"; uptr "struct io_event"];
   proto "sys_io_getevents" [ty "aio_context_t"; ty "long"; ty "long"; uptr "struct io_event"; uptr "struct __kernel_timespec"];
   proto "sys_io_getevents_time32" [ty "__u32"; ty "__s32"; ty "__s32"; uptr "struct io_event"; uptr "struct old_timespec32"];
   proto "sys_io_pgetevents" [ty "aio_context_t"; ty "long"; ty "long"; uptr "struct io_event"; uptr "struct __kernel_timespec"; kptr (cst "struct __aio_sigset")];
   proto "sys_io_pgetevents_time32" [ty "aio_context_t"; ty "long"; ty "long"; uptr "struct io_event"; uptr "struct old_timespec32"; kptr (cst "struct __aio_sigset")];
   proto "sys_io_uring_setup" [ty "u32"; uptr "struct io_uring_params"];
   proto "sys_io_uring_enter" [ty "unsigned int"; ty "u32"; ty "u32"; ty "u32"; uptr (cst "void"); ty "size_t"];
   proto "sys_io_uring_register" [ty "unsigned int"; ty "unsigned int"; uptr "void"; ty "unsigned int"];
   proto "sys_setxattr" [uptr (cst "char"); uptr (cst "char"); uptr (cst "void"); ty "size_t"; ty "int"];
   proto "sys_lsetxattr" [uptr (cst "char"); uptr (cst "char"); uptr (cst "void"); ty "size_t"; ty "int"];
   proto "sys_fsetxattr" [ty "int"; uptr (cst "char"); uptr (cst "void"); ty "size_t"; ty "int"];
   proto "sys_getxattr" [uptr (cst "char"); uptr (cst "char"); uptr "void"; ty "size_t"];
   proto "sys_lgetxattr" [uptr (cst "char"); uptr (cst "char"); uptr "void"; ty "size_t"];
   proto "sys_fgetxattr" [ty "int"; uptr (cst "char"); uptr "void"; ty "size_t"];
   proto "sys_listxattr" [uptr (cst "char"); uptr "char"; ty "size_t"];
   proto "sys_llistxattr" [uptr (cst "char"); uptr "char"; ty "size_t"];
   proto "sys_flistxattr" [ty "int"; uptr "char"; ty "size_t"];
   proto "sys_removexattr" [uptr (cst "char"); uptr (cst "char")];
   proto "sys_lremovexattr" [uptr (cst "char"); uptr (cst "char")];
   proto "sys_fremovexattr" [ty "int"; uptr (cst "char")];
   proto "sys_getcwd" [uptr "char"; ty "unsigned long"];
   proto "sys_eventfd2" [ty "unsigned int"; ty "int"];
   proto "sys_epoll_create1" [ty "int"];
   proto "sys_epoll_ctl" [ty "int"; ty "int"; ty "int"; uptr "struct epoll_event"];
   proto "sys_epoll_pwait" [ty "int"; uptr "struct epoll_event"; ty "int"; ty "int"; uptr (cst "sigset_t"); ty "size_t"];
   proto "sys_epoll_pwait2" [ty "int"; uptr "struct epoll_event"; ty "int"; uptr (cst "struct __kernel_timespec"); uptr (cst "sigset_t"); ty "size_t"];
   proto "sys_dup" [ty "unsigned int"];
   proto "sys_dup3" [ty "unsigned int"; ty "unsigned int"; ty "int"];
   proto "sys_fcntl" [ty "unsigned int"; ty "unsigned int"; ty "unsigned long"];
   proto_if (Cfg "BITS_PER_LONG == 32") "sys_fcntl64" [ty "unsigned int"; ty "unsigned int"; ty "unsigned long"];
   proto "sys_inotify_init1" [ty "int"];
   proto "sys_inotify_add_watch" [ty "int"; uptr (cst "char"); ty "u32"];
   proto "sys_inotify_rm_watch" [ty "int"; ty "__s32"];
   proto "sys_ioctl" [ty "unsigned int"; ty "unsigned int"; ty "unsigned long"];
   proto "sys_ioprio_set" [ty "int"; ty "int"; ty "int"];
   proto "sys_ioprio_get" [ty "int"; ty "int"];
   proto "sys_flock" [ty "unsigned int"; ty "unsigned int"];
   proto "sys_mknodat" [ty "int"; uptr (cst "char"); ty "umode_t"; ty "unsigned int"];
   proto "sys_mkdirat" [ty "int"; uptr (cst "char"); ty "umode_t"];
   proto "sys_unlinkat" [ty "int"; uptr (cst "char"); ty "int"];
   proto "sys_symlinkat" [uptr (cst "char"); ty "int"; uptr (cst "char")];
   proto "sys_linkat" [ty "int"; uptr (cst "char"); ty "int"; uptr (cst "char"); ty "int"];
   proto "sys_renameat" [ty "int"; uptr (cst "char"); ty "int"; uptr (cst "char")];
   proto "sys_umount" [uptr "char"; ty "int"]].

Definition protos_402_501 : list prototype :=
  [proto "sys_mount" [uptr "char"; uptr "char"; uptr "char"; ty "unsigned long"; uptr "void"];
   proto "sys_pivot_root" [uptr (cst "char"); uptr (cst "char")];
   proto "sys_statfs" [uptr (cst "char"); uptr "struct statfs"];
   proto "sys_statfs64" [uptr (cst "char"); ty "size_t"; uptr "struct statfs64"];
   proto "sys_fstatfs" [ty "unsigned int"; uptr "struct statfs"];
   proto "sys_fstatfs64" [ty "unsigned int"; ty "size_t"; uptr "struct statfs64"];
   proto "sys_statmount" [uptr (cst "struct mnt_id_req"); uptr "struct statmount"; ty "size_t"; ty "unsigned int"];
   proto "sys_listmount" [uptr (cst "struct mnt_id_req"); uptr "u64"; ty "size_t"; ty "unsigned int"];
   proto "sys_truncate" [uptr (cst "char"); ty "long"];
   proto "sys_ftruncate" [ty "unsigned int"; ty "unsigned long"];
   proto_if (Cfg "BITS_PER_LONG == 32") "sys_truncate64" [uptr (cst "char"); ty "loff_t"];
   proto_if (Cfg "BITS_PER_LONG == 32") "sys_ftruncate64" [ty "unsigned int"; ty "loff_t"];
   proto "sys_fallocate" [ty "int"; ty "int"; ty "loff_t"; ty "loff_t"];
   proto "sys_faccessat" [ty "int"; uptr (cst "char"); ty "int"];
   proto "sys_faccessat2" [ty "int"; uptr (cst "char"); ty "int"; ty "int"];
   proto "sys_chdir" [uptr (cst "char")];
   proto "sys_fchdir" [ty "unsigned int"];
   proto "sys_chroot" [uptr (cst "char")];
   proto "sys_fchmod" [ty "unsigned int"; ty "umode_t"];
   proto "sys_fchmodat" [ty "int"; uptr (cst "char"); ty "umode_t"];
   proto "sys_fchmodat2" [ty "int"; uptr (cst "char"); ty "umode_t"; ty "unsigned int"];
   proto "sys_fchownat" [ty "int"; uptr (cst "char"); ty "uid_t"; ty "gid_t"; ty "int"];
   proto "sys_fchown" [ty "unsigned int"; ty "uid_t"; ty "gid_t"];
   proto "sys_openat" [ty "int"; uptr (cst "char"); ty "int"; ty "umode_t"];
   proto "sys_openat2" [ty "int"; uptr (cst "char"); kptr "struct open_how"; ty "size_t"];
   proto "sys_close" [ty "unsigned int"];
   proto "sys_close_range" [ty "unsigned int"; ty "unsigned int"; ty "unsigned int"];
   proto "sys_vhangup" [];
   proto "sys_pipe2" [uptr "int"; ty "int"];
   proto "sys_quotactl" [ty "unsigned int"; uptr (cst "char"); ty "qid_t"; uptr "void"];
   proto "sys_quotactl_fd" [ty "unsigned int"; ty "unsigned int"; ty "qid_t"; uptr "void"];
   proto "sys_getdents64" [ty "unsigned int"; uptr "struct linux_dirent64"; ty "unsigned int"];
   proto "sys_llseek" [ty "unsigned int"; ty "unsigned long"; ty "unsigned long"; uptr "loff_t"; ty "unsigned int"];
   proto "sys_lseek" [ty "unsigned int"; ty "off_t"; ty "unsigned int"];
   proto "sys_read" [ty "unsigned int"; uptr "char"; ty "size_t"];
   proto "sys_write" [ty "unsigned int"; uptr (cst "char"); ty "size_t"];
   proto "sys_readv" [ty "unsigned long"; uptr (cst "struct iovec"); ty "unsigned long"];
   proto "sys_writev" [ty "unsigned long"; uptr (cst "struct iovec"); ty "unsigned long"];
   proto "sys_pread64" [ty "unsigned int"; uptr "char"; ty "size_t"; ty "loff_t"];
   proto "sys_pwrite64" [ty "unsigned int"; uptr (cst "char"); ty "size_t"; ty "loff_t"];
   proto "sys_preadv" [ty "unsigned long"; uptr (cst "struct iovec"); ty "unsigned long"; ty "unsigned long"; ty "unsigned long"];
   proto "sys_pwritev" [ty "unsigned long"; uptr (cst "struct iovec"); ty "unsigned long"; ty "unsigned long"; ty "unsigned long"];
   proto "sys_sendfile64" [ty "int"; ty "int"; uptr "loff_t"; ty "size_t"];
   proto "sys_pselect6" [ty "int"; uptr "fd_set"; uptr "fd_set"; uptr "fd_set"; uptr "struct __kernel_timespec"; uptr "void"];
   proto "sys_pselect6_time32" [ty "int"; uptr "fd_set"; uptr "fd_set"; uptr "fd_set"; uptr "struct old_timespec32"; uptr "void"];
   proto "sys_ppoll" [uptr "struct pollfd"; ty "unsigned int"; uptr "struct __kernel_timespec"; uptr (cst "sigset_t"); ty "size_t"];
   proto "sys_ppoll_time32" [uptr "struct pollfd"; ty "unsigned int"; uptr "struct old_timespec32"; uptr (cst "sigset_t"); ty "size_t"];
   proto "sys_signalfd4" [ty "int"; uptr "sigset_t"; ty "size_t"; ty "int"];
   proto "sys_vmsplice" [ty "int"; uptr (cst "struct iovec"); ty "unsigned long"; ty "unsigned int"];
   proto "sys_splice" [ty "int"; uptr "loff_t"; ty "int"; uptr "loff_t"; ty "size_t"; ty "unsigned int"];
   proto "sys_tee" [ty "int"; ty "int"; ty "size_t"; ty "unsigned int"];
   proto "sys_readlinkat" [ty "int"; uptr (cst "char"); uptr "char"; ty "int"]].

Definition protos_502_601 : list prototype :=
  [proto "sys_newfstatat" [ty "int"; uptr (cst "char"); uptr "struct stat"; ty "int"];
   proto "sys_newfstat" [ty "unsigned int"; uptr "struct stat"];
   proto_if (Or (Cfg "__ARCH_WANT_STAT64") (Cfg "__ARCH_WANT_COMPAT_STAT64")) "sys_fstat64" [ty "unsigned long"; uptr "struct stat64"];
   proto_if (Or (Cfg "__ARCH_WANT_STAT64") (Cfg "__ARCH_WANT_COMPAT_STAT64")) "sys_fstatat64" [ty "int"; uptr (cst "char"); uptr "struct stat64"; ty "int"];
   proto "sys_sync" [];
   proto "sys_fsync" [ty "unsigned int"];
   proto "sys_fdatasync" [ty "unsigned int"];
   proto "sys_sync_file_range2" [ty "int"; ty "unsigned int"; ty "loff_t"; ty "loff_t"];
   proto "sys_sync_file_range" [ty "int"; ty "loff_t"; ty "loff_t"; ty "unsigned int"];
   proto "sys_timerfd_create" [ty "int"; ty "int"];
   proto "sys_timerfd_settime" [ty "int"; ty "int"; uptr (cst "struct __kernel_itimerspec"); uptr "struct __kernel_itimerspec"];
   proto "sys_timerfd_gettime" [ty "int"; uptr "struct __kernel_itimerspec"];
   proto "sys_timerfd_gettime32" [ty "int"; uptr "struct old_itimerspec32"];
   proto "sys_timerfd_settime32" [ty "int"; ty "int"; uptr (cst "struct old_itimerspec32"); uptr "struct old_itimerspec32"];
   proto "sys_utimensat" [ty "int"; uptr (cst "char"); uptr "struct __kernel_timespec"; ty "int"];
   proto "sys_utimensat_time32" [ty "unsigned int"; uptr (cst "char"); uptr "struct old_timespec32"; ty "int"];
   proto "sys_acct" [uptr (cst "char")];
   proto "sys_capget" [ty "cap_user_header_t"; ty "cap_user_data_t"];
   proto "sys_capset" [ty "cap_user_header_t"; cst "cap_user_data_t"];
   proto "sys_personality" [ty "unsigned int"];
   proto "sys_exit" [ty "int"];
   proto "sys_exit_group" [ty "int"];
   proto "sys_waitid" [ty "int"; ty "pid_t"; uptr "struct siginfo"; ty "int"; uptr "struct rusage"];
   proto "sys_set_tid_address" [uptr "int"];
   proto "sys_unshare" [ty "unsigned long"];
   proto "sys_futex" [uptr "u32"; ty "int"; ty "u32"; uptr (cst "struct __kernel_timespec"); uptr "u32"; ty "u32"];
   proto "sys_futex_time32" [uptr "u32"; ty "int"; ty "u32"; uptr (cst "struct old_timespec32"); uptr "u32"; ty "u32"];
   proto "sys_get_robust_list" [ty "int"; uptr (uptr "struct robust_list_head"); uptr "size_t"];
   proto "sys_set_robust_list" [uptr "struct robust_list_head"; ty "size_t"];
   proto "sys_futex_waitv" [kptr "struct futex_waitv"; ty "unsigned int"; ty "unsigned int"; uptr "struct __kernel_timespec"; ty "clockid_t"];
   proto "sys_futex_wake" [uptr "void"; ty "unsigned long"; ty "int"; ty "unsigned int"];
   proto "sys_futex_wait" [uptr "void"; ty "unsigned long"; ty "unsigned long"; ty "unsigned int"; uptr "struct __kernel_timespec"; ty "clockid_t"];
   proto "sys_futex_requeue" [uptr "struct futex_waitv"; ty "unsigned int"; ty "int"; ty "int"];
   proto "sys_nanosleep" [uptr "struct __kernel_timespec"; uptr "struct __kernel_timespec"];
   proto "sys_nanosleep_time32" [uptr "struct old_timespec32"; uptr "struct old_timespec32"];
   proto "sys_getitimer" [ty "int"; uptr "struct __kernel_old_itimerval"];
   proto "sys_setitimer" [ty "int"; uptr "struct __kernel_old_itimerval"; uptr "struct __kernel_old_itimerval"];
   proto "sys_kexec_load" [ty "unsigned long"; ty "unsigned long"; uptr "struct kexec_segment"; ty "unsigned long"];
   proto "sys_init_module" [uptr "void"; ty "unsigned long"; uptr (cst "char")];
   proto "sys_delete_module" [uptr (cst "char"); ty "unsigned int"];
   proto "sys_timer_create" [ty "clockid_t"; uptr "struct sigevent"; uptr "timer_t"];
   proto "sys_timer_gettime" [ty "timer_t"; uptr "struct __kernel_itimerspec"];
   proto "sys_timer_getoverrun" [ty "timer_t"];
   proto "sys_timer_settime" [ty "timer_t"; ty "int"; uptr (cst "struct __kernel_itimerspec"); uptr "struct __kernel_itimerspec"];
   proto "sys_timer_delete" [ty "timer_t"];
   proto "sys_clock_settime" [ty "clockid_t"; uptr (cst "struct __kernel_timespec")];
   proto "sys_clock_gettime" [ty "clockid_t"; uptr "struct __kernel_timespec"];
   proto "sys_clock_getres" [ty "clockid_t"; uptr "struct __kernel_timespec"]].

Definition protos_602_701 : list prototype :=
  [proto "sys_clock_nanosleep" [ty "clockid_t"; ty "int"; uptr (cst "struct __kernel_timespec"); uptr "struct __kernel_timespec"];
   proto "sys_timer_gettime32" [ty "timer_t"; uptr "struct old_itimerspec32"];
   proto "sys_timer_settime32" [ty "timer_t"; ty "int"; uptr "struct old_itimerspec32"; uptr "struct old_itimerspec32"];
   proto "sys_clock_settime32" [ty "clockid_t"; uptr "struct old_timespec32"];
   proto "sys_clock_gettime32" [ty "clockid_t"; uptr "struct old_timespec32"];
   proto "sys_clock_getres_time32" [ty "clockid_t"; uptr "struct old_timespec32"];
   proto "sys_clock_nanosleep_time32" [ty "clockid_t"; ty "int"; uptr "struct old_timespec32"; uptr "struct old_timespec32"];
   proto "sys_syslog" [ty "int"; uptr "char"; ty "int"];
   proto "sys_ptrace" [ty "long"; ty "long"; ty "unsigned long"; ty "unsigned long"];
   proto "sys_sched_setparam" [ty "pid_t"; uptr "struct sched_param"];
   proto "sys_sched_setscheduler" [ty "pid_t"; ty "int"; uptr "struct sched_param"];
   proto "sys_sched_getscheduler" [ty "pid_t"];
   proto "sys_sched_getparam" [ty "pid_t"; uptr "struct sched_param"];
   proto "sys_sched_setaffinity" [ty "pid_t"; ty "unsigned int"; uptr "unsigned long"];
   proto "sys_sched_getaffinity" [ty "pid_t"; ty "unsigned int"; uptr "unsigned long"];
   proto "sys_sched_yield" [];
   proto "sys_sched_get_priority_max" [ty "int"];
   proto "sys_sched_get_priority_min" [ty "int"];
   proto "sys_sched_rr_get_interval" [ty "pid_t"; uptr "struct __kernel_timespec"];
   proto "sys_sched_rr_get_interval_time32" [ty "pid_t"; uptr "struct old_timespec32"];
   proto "sys_restart_syscall" [];
   proto "sys_kill" [ty "pid_t"; ty "int"];
   proto "sys_tkill" [ty "pid_t"; ty "int"];
   proto "sys_tgkill" [ty "pid_t"; ty "pid_t"; ty "int"];
   proto "sys_sigaltstack" [uptr (cst "struct sigaltstack"); uptr "struct sigaltstack"];
   proto "sys_rt_sigsuspend" [uptr "sigset_t"; ty "size_t"];
   proto_if (Not (Cfg "CONFIG_ODD_RT_SIGACTION")) "sys_rt_sigaction" [ty "int"; uptr (cst "struct sigaction"); uptr "struct sigaction"; ty "size_t"];
   proto "sys_rt_sigprocmask" [ty "int"; uptr "sigset_t"; uptr "sigset_t"; ty "size_t"];
   proto "sys_rt_sigpending" [uptr "sigset_t"; ty "size_t"];
   proto "sys_rt_sigtimedwait" [uptr (cst "sigset_t"); uptr "siginfo_t"; uptr (cst "struct __kernel_timespec"); ty "size_t"];
   proto "sys_rt_sigtimedwait_time32" [uptr (cst "sigset_t"); uptr "siginfo_t"; uptr (cst "struct old_timespec32"); ty "size_t"];
   proto "sys_rt_sigqueueinfo" [ty "pid_t"; ty "int"; uptr "siginfo_t"];
   proto "sys_setpriority" [ty "int"; ty "int"; ty "int"];
   proto "sys_getpriority" [ty "int"; ty "int"];
   proto "sys_reboot" [ty "int"; ty "int"; ty "unsigned int"; uptr "void"];
   proto "sys_setregid" [ty "gid_t"; ty "gid_t"];
   proto "sys_setgid" [ty "gid_t"];
   proto "sys_setreuid" [ty "uid_t"; ty "uid_t"];
   proto "sys_setuid" [ty "uid_t"];
   proto "sys_setresuid" [ty "uid_t"; ty "uid_t"; ty "uid_t"];
   proto "sys_getresuid" [uptr "uid_t"; uptr "uid_t"; uptr "uid_t"];
   proto "sys_setresgid" [ty "gid_t"; ty "gid_t"; ty "gid_t"];
   proto "sys_getresgid" [uptr "gid_t"; uptr "gid_t"; uptr "gid_t"];
   proto "sys_setfsuid" [ty "uid_t"];
   proto "sys_setfsgid" [ty "gid_t"];
   proto "sys_times" [uptr "struct tms"];
   proto "sys_setpgid" [ty "pid_t"; ty "pid_t"];
   proto "sys_getpgid" [ty "pid_t"];
   proto "sys_getsid" [ty "pid_t"];
   proto "sys_setsid" [];
   proto "sys_getgroups" [ty "int"; uptr "gid_t"];
   proto "sys_setgroups" [ty "int"; uptr "gid_t"];
   proto "sys_newuname" [uptr "struct new_utsname"];
   proto "sys_sethostname" [uptr "char"; ty "int"];
   proto "sys_setdomainname" [uptr "char"; ty "int"];
   proto "sys_getrlimit" [ty "unsigned int"; uptr "struct rlimit"];
   proto "sys_setrlimit" [ty "unsigned int"; uptr "struct rlimit"];
   proto "sys_getrusage" [ty "int"; uptr "struct rusage"];
   proto "sys_umask" [ty "int"];
   proto "sys_prctl" [ty "int"; ty "unsigned long"; ty "unsigned long"; ty "unsigned long"; ty "unsigned long"];
   proto "sys_getcpu" [uptr "unsigned int"; uptr "unsigned int"; uptr "struct getcpu_cache"];
   proto "sys_gettimeofday" [uptr "struct __kernel_old_timeval"; uptr "struct timezone"];
   proto "sys_settimeofday" [uptr "struct __kernel_old_timeval"; uptr "struct timezone"]].

Definition protos_702_798 : list prototype :=
  [proto "sys_adjtimex" [uptr "struct __kernel_timex"];
   proto "sys_adjtimex_time32" [uptr "struct old_timex32"];
   proto "sys_getpid" [];
   proto "sys_getppid" [];
   proto "sys_getuid" [];
   proto "sys_geteuid" [];
   proto "sys_getgid" [];
   proto "sys_getegid" [];
   proto "sys_gettid" [];
   proto "sys_sysinfo" [uptr "struct sysinfo"];
   proto "sys_mq_open" [uptr (cst "char"); ty "int"; ty "umode_t"; uptr "struct mq_attr"];
   proto "sys_mq_unlink" [uptr (cst "char")];
   proto "sys_mq_timedsend" [ty "mqd_t"; uptr (cst "char"); ty "size_t"; ty "unsigned int"; uptr (cst "struct __kernel_timespec")];
   proto "sys_mq_timedreceive" [ty "mqd_t"; uptr "char"; ty "size_t"; uptr "unsigned int"; uptr (cst "struct __kernel_timespec")];
   proto "sys_mq_notify" [ty "mqd_t"; uptr (cst "struct sigevent")];
   proto "sys_mq_getsetattr" [ty "mqd_t"; uptr (cst "struct mq_attr"); uptr "struct mq_attr"];
   proto "sys_mq_timedreceive_time32" [ty "mqd_t"; uptr "char"; ty "unsigned int"; uptr "unsigned int"; uptr (cst "struct old_timespec32")];
   proto "sys_mq_timedsend_time32" [ty "mqd_t"; uptr (cst "char"); ty "unsigned int"; ty "unsigned int"; uptr (cst "struct old_timespec32")];
   proto "sys_msgget" [ty "key_t"; ty "int"];
   proto "sys_old_msgctl" [ty "int"; ty "int"; uptr "struct msqid_ds"];
   proto "sys_msgctl" [ty "int"; ty "int"; uptr "struct msqid_ds"];
   proto "sys_msgrcv" [ty "int"; uptr "struct msgbuf"; ty "size_t"; ty "long"; ty "int"];
   proto "sys_msgsnd" [ty "int"; uptr "struct msgbuf"; ty "size_t"; ty "int"];
   proto "sys_semget" [ty "key_t"; ty "int"; ty "int"];
   proto "sys_semctl" [ty "int"; ty "int"; ty "int"; ty "unsigned long"];
   proto "sys_old_semctl" [ty "int"; ty "int"; ty "int"; ty "unsigned long"];
   proto "sys_semtimedop" [ty "int"; uptr "struct sembuf"; ty "unsigned int"; uptr (cst "struct __kernel_timespec")];
   proto "sys_semtimedop_time32" [ty "int"; uptr "struct sembuf"; ty "unsigned int"; uptr (cst "struct old_timespec32")];
   proto "sys_semop" [ty "int"; uptr "struct sembuf"; ty "unsigned int"];
   proto "sys_shmget" [ty "key_t"; ty "size_t"; ty "int"];
   proto "sys_old_shmctl" [ty "int"; ty "int"; uptr "struct shmid_ds"];
   proto "sys_shmctl" [ty "int"; ty "int"; uptr "struct shmid_ds"];
   proto "sys_shmat" [ty "int"; uptr "char"; ty "int"];
   proto "sys_shmdt" [uptr "char"];
   proto "sys_socket" [ty "int"; ty "int"; ty "int"];
   proto "sys_socketpair" [ty "int"; ty "int"; ty "int"; uptr "int"];
   proto "sys_bind" [ty "int"; uptr "struct sockaddr"; ty "int"];
   proto "sys_listen" [ty "int"; ty "int"];
   proto "sys_accept" [ty "int"; uptr "struct sockaddr"; uptr "int"];
   proto "sys_connect" [ty "int"; uptr "struct sockaddr"; ty "int"];
   proto "sys_getsockname" [ty "int"; uptr "struct sockaddr"; uptr "int"];
   proto "sys_getpeername" [ty "int"; uptr "struct sockaddr"; uptr "int"];
   proto "sys_sendto" [ty "int"; uptr "void"; ty "size_t"; ty "unsigned int"; uptr "struct sockaddr"; ty "int"];
   proto "sys_recvfrom" [ty "int"; uptr "void"; ty "size_t"; ty "unsigned int"; uptr "struct sockaddr"; uptr "int"];
   proto "sys_setsockopt" [ty "int"; ty "int"; ty "int"; uptr "char"; ty "int"];
   proto "sys_getsockopt" [ty "int"; ty "int"; ty "int"; uptr "char"; uptr "int"];
   proto "sys_shutdown" [ty "int"; ty "int"];
   proto "sys_sendmsg" [ty "int"; uptr "struct user_msghdr"; ty "unsigned int"];
   proto "sys_recvmsg" [ty "int"; uptr "struct user_msghdr"; ty "unsigned int"];
   proto "sys_readahead" [ty "int"; ty "loff_t"; ty "size_t"];
   proto "sys_brk" [ty "unsigned long"];
   proto "sys_munmap" [ty "unsigned long"; ty "size_t"];
   proto "sys_mremap" [ty "unsigned long"; ty "unsigned long"; ty "unsigned long"; ty "unsigned long"; ty "unsigned long"];
   proto "sys_add_key" [uptr (cst "char"); uptr (cst "char"); uptr (cst "void"); ty "size_t"; ty "key_serial_t"];
   proto "sys_request_key" [uptr (cst "char"); uptr (cst "char"); uptr (cst "char"); ty "key_serial_t"];
   proto "sys_keyctl" [ty "int"; ty "unsigned long"; ty "unsigned long"; ty "unsigned long"; ty "unsigned long"];
   proto_if (Cfg "CONFIG_CLONE_BACKWARDS") "sys_clone" [ty "unsigned long"; ty "unsigned long"; uptr "int"; ty "unsigned long"; uptr "int"];
   proto_if (And (Not (Cfg "CONFIG_CLONE_BACKWARDS")) (Cfg "CONFIG_CLONE_BACKWARDS3")) "sys_clone" [ty "unsigned long"; ty "unsigned long"; ty "int"; uptr "int"; uptr "int"; ty "unsigned long"];
   proto_if (And (Not (Cfg "CONFIG_CLONE_BACKWARDS")) (Not (Cfg "CONFIG_CLONE_BACKWARDS3"))) "sys_clone" [ty "unsigned long"; ty "unsigned long"; uptr "int"; uptr "int"; ty "unsigned long"];
   proto "sys_clone3" [uptr "struct clone_args"; ty "size_t"]].

Definition protos_800_896 : list prototype :=
  [proto "sys_execve" [uptr (cst "char"); uptr (cst (uptr (cst "char"))); uptr (cst (uptr (cst "char")))];
   proto "sys_fadvise64_64" [ty "int"; ty "loff_t"; ty "loff_t"; ty "int"];
   proto "sys_swapon" [uptr (cst "char"); ty "int"];
   proto "sys_swapoff" [uptr (cst "char")];
   proto "sys_mprotect" [ty "unsigned long"; ty "size_t"; ty "unsigned long"];
   proto "sys_msync" [ty "unsigned long"; ty "size_t"; ty "int"];
   proto "sys_mlock" [ty "unsigned long"; ty "size_t"];
   proto "sys_munlock" [ty "unsigned long"; ty "size_t"];
   proto "sys_mlockall" [ty "int"];
   proto "sys_munlockall" [];
   proto "sys_mincore" [ty "unsigned long"; ty "size_t"; uptr "unsigned char"];
   proto "sys_madvise" [ty "unsigned long"; ty "size_t"; ty "int"];
   proto "sys_process_madvise" [ty "int"; uptr (cst "struct iovec"); ty "size_t"; ty "int"; ty "unsigned int"];
   proto "sys_process_mrelease" [ty "int"; ty "unsigned int"];
   proto "sys_remap_file_pages" [ty "unsigned long"; ty "unsigned long"; ty "unsigned long"; ty "unsigned long"; ty "unsigned long"];
   proto "sys_mbind" [ty "unsigned long"; ty "unsigned long"; ty "unsigned long"; uptr (cst "unsigned long"); ty "unsigned long"; ty "unsigned int"];
   proto "sys_get_mempolicy" [uptr "int"; uptr "unsigned long"; ty "unsigned long"; ty "unsigned long"; ty "unsigned long"];
   proto "sys_set_mempolicy" [ty "int"; uptr (cst "unsigned long"); ty "unsigned long"];
   proto "sys_migrate_pages" [ty "pid_t"; ty "unsigned long"; uptr (cst "unsigned long"); uptr (cst "unsigned long")];
   proto "sys_move_pages" [ty "pid_t"; ty "unsigned long"; uptr (uptr (cst "void")); uptr (cst "int"); uptr "int"; ty "int"];
   proto "sys_rt_tgsigqueueinfo" [ty "pid_t"; ty "pid_t"; ty "int"; uptr "siginfo_t"];
   proto "sys_perf_event_open" [uptr "struct perf_event_attr"; ty "pid_t"; ty "int"; ty "int"; ty "unsigned long"];
   proto "sys_accept4" [ty "int"; uptr "struct sockaddr"; uptr "int"; ty "int"];
   proto "sys_recvmmsg" [ty "int"; uptr "struct mmsghdr"; ty "unsigned int"; ty "unsigned int"; uptr "struct __kernel_timespec"];
   proto "sys_recvmmsg_time32" [ty "int"; uptr "struct mmsghdr"; ty "unsigned int"; ty "unsigned int"; uptr "struct old_timespec32"];
   proto "sys_wait4" [ty "pid_t"; uptr "int"; ty "int"; uptr "struct rusage"];
   proto "sys_prlimit64" [ty "pid_t"; ty "unsigned int"; uptr (cst "struct rlimit64"); uptr "struct rlimit64"];
   proto "sys_fanotify_init" [ty "unsigned int"; ty "unsigned int"];
   proto "sys_fanotify_mark" [ty "int"; ty "unsigned int"; ty "u64"; ty "int"; uptr (cst "char")];
   proto "sys_name_to_handle_at" [ty "int"; uptr (cst "char"); uptr "struct file_handle"; uptr "int"; ty "int"];
   proto "sys_open_by_handle_at" [ty "int"; uptr "struct file_handle"; ty "int"];
   proto "sys_clock_adjtime" [ty "clockid_t"; uptr "struct __kernel_timex"];
   proto "sys_clock_adjtime32" [ty "clockid_t"; uptr "struct old_timex32"];
   proto "sys_syncfs" [ty "int"];
   proto "sys_setns" [ty "int"; ty "int"];
   proto "sys_pidfd_open" [ty "pid_t"; ty "unsigned int"];
   proto "sys_sendmmsg" [ty "int"; uptr "struct mmsghdr"; ty "unsigned int"; ty "unsigned int"];
   proto "sys_process_vm_readv" [ty "pid_t"; uptr (cst "struct iovec"); ty "unsigned long"; uptr (cst "struct iovec"); ty "unsigned long"; ty "unsigned long"];
   proto "sys_process_vm_writev" [ty "pid_t"; uptr (cst "struct iovec"); ty "unsigned long"; uptr (cst "struct iovec"); ty "unsigned long"; ty "unsigned long"];
   proto "sys_kcmp" [ty "pid_t"; ty "pid_t"; ty "int"; ty "unsigned long"; ty "unsigned long"];
   proto "sys_finit_module" [ty "int"; uptr (cst "char"); ty "int"];
   proto "sys_sched_setattr" [ty "pid_t"; uptr "struct sched_attr"; ty "unsigned int"]].

Definition protos_897_966 : list prototype :=
  [proto "sys_sched_getattr" [ty "pid_t"; uptr "struct sched_attr"; ty "unsigned int"; ty "unsigned int"];
   proto "sys_renameat2" [ty "int"; uptr (cst "char"); ty "int"; uptr (cst "char"); ty "unsigned int"];
   proto "sys_seccomp" [ty "unsigned int"; ty "unsigned int"; uptr "void"];
   proto "sys_getrandom" [uptr "char"; ty "size_t"; ty "unsigned int"];
   proto "sys_memfd_create" [uptr (cst "char"); ty "unsigned int"];
   proto "sys_bpf" [ty "int"; kptr "union bpf_attr"; ty "unsigned int"];
   proto "sys_execveat" [ty "int"; uptr (cst "char"); uptr (cst (uptr (cst "char"))); uptr (cst (uptr (cst "char"))); ty "int"];
   proto "sys_userfaultfd" [ty "int"];
   proto "sys_membarrier" [ty "int"; ty "unsigned int"; ty "int"];
   proto "sys_mlock2" [ty "unsigned long"; ty "size_t"; ty "int"];
   proto "sys_copy_file_range" [ty "int"; uptr "loff_t"; ty "int"; uptr "loff_t"; ty "size_t"; ty "unsigned int"];
   proto "sys_preadv2" [ty "unsigned long"; uptr (cst "struct iovec"); ty "unsigned long"; ty "unsigned long"; ty "unsigned long"; ty "rwf_t"];
   proto "sys_pwritev2" [ty "unsigned long"; uptr (cst "struct iovec"); ty "unsigned long"; ty "unsigned long"; ty "unsigned long"; ty "rwf_t"];
   proto "sys_pkey_mprotect" [ty "unsigned long"; ty "size_t"; ty "unsigned long"; ty "int"];
   proto "sys_pkey_alloc" [ty "unsigned long"; ty "unsigned long"];
   proto "sys_pkey_free" [ty "int"];
   proto "sys_statx" [ty "int"; uptr (cst "char"); ty "unsigned int"; ty "unsigned int"; uptr "struct statx"];
   proto "sys_rseq" [uptr "struct rseq"; ty "uint32_t"; ty "int"; ty "uint32_t"];
   proto "sys_open_tree" [ty "int"; uptr (cst "char"); ty "unsigned int"];
   proto "sys_move_mount" [ty "int"; uptr (cst "char"); ty "int"; uptr (cst "char"); ty "unsigned int"];
   proto "sys_mount_setattr" [ty "int"; uptr (cst "char"); ty "unsigned int"; uptr "struct mount_attr"; ty "size_t"];
   proto "sys_fsopen" [uptr (cst "char"); ty "unsigned int"];
   proto "sys_fsconfig" [ty "int"; ty "unsigned int"; uptr (cst "char"); uptr (cst "void"); ty "int"];
   proto "sys_fsmount" [ty "int"; ty "unsigned int"; ty "unsigned int"];
   proto "sys_fspick" [ty "int"; uptr (cst "char"); ty "unsigned int"];
   proto "sys_pidfd_send_signal" [ty "int"; ty "int"; uptr "siginfo_t"; ty "unsigned int"];
   proto "sys_pidfd_getfd" [ty "int"; ty "int"; ty "unsigned int"];
   proto "sys_landlock_create_ruleset" [uptr (cst "struct landlock_ruleset_attr"); ty "size_t"; ty "__u32"];
   proto "sys_landlock_add_rule" [ty "int"; ty "enum landlock_rule_type"; uptr (cst "void"); ty "__u32"];
   proto "sys_landlock_restrict_self" [ty "int"; ty "__u32"];
   proto "sys_memfd_secret" [ty "unsigned int"];
   proto "sys_set_mempolicy_home_node" [ty "unsigned long"; ty "unsigned long"; ty "unsigned long"; ty "unsigned long"];
   proto "sys_cachestat" [ty "unsigned int"; uptr "struct cachestat_range"; uptr "struct cachestat"; ty "unsigned int"];
   proto "sys_map_shadow_stack" [ty "unsigned long"; ty "unsigned long"; ty "unsigned int"];
   proto "sys_lsm_get_self_attr" [ty "unsigned int"; kptr "struct lsm_ctx"; kptr "size_t"; ty "__u32"];
   proto "sys_lsm_set_self_attr" [ty "unsigned int"; kptr "struct lsm_ctx"; ty "size_t"; ty "__u32"];
   proto "sys_lsm_list_modules" [kptr "u64"; kptr "size_t"; ty "u32"]].

(** The system calls added to this kernel. *)
Definition protos_own : list prototype :=
  [proto "sys_luis_capture_memory_snapshot" [uptr "struct memory_snapshot"];
   proto "sys_luis_track_syscall_usage" [];
   proto "sys_luis_get_io_throttle" [ty "pid_t"; uptr "struct io_throttle_stats"];
   proto "sys_luis_tamalloc" [ty "size_t"];
   proto "sys_luis_recoleccion_general" [ty "pid_t"];
   proto "sys_luis_resumen_total" [uptr "struct memory_summary"];
   proto "sys_so2_add_memory_limit" [ty "pid_t"; ty "size_t"];
   proto "sys_so2_get_memory_limits" [uptr "struct memory_limitation"; ty "size_t"; uptr "int"];
   proto "sys_so2_update_memory_limit" [ty "pid_t"; ty "size_t"]].

Definition protos_990_1089 : list prototype :=
  [proto "sys_ioperm" [ty "unsigned long"; ty "unsigned long"; ty "int"];
   proto "sys_pciconfig_read" [ty "unsigned long"; ty "unsigned long"; ty "unsigned long"; ty "unsigned long"; uptr "void"];
   proto "sys_pciconfig_write" [ty "unsigned long"; ty "unsigned long"; ty "unsigned long"; ty "unsigned long"; uptr "void"];
   proto "sys_pciconfig_iobase" [ty "long"; ty "unsigned long"; ty "unsigned long"];
   proto "sys_spu_run" [ty "int"; uptr "__u32"; uptr "__u32"];
   proto "sys_spu_create" [uptr (cst "char"); ty "unsigned int"; ty "umode_t"; ty "int"];
   proto "sys_open" [uptr (cst "char"); ty "int"; ty "umode_t"];
   proto "sys_link" [uptr (cst "char"); uptr (cst "char")];
   proto "sys_unlink" [uptr (cst "char")];
   proto "sys_mknod" [uptr (cst "char"); ty "umode_t"; ty "unsigned int"];
   proto "sys_chmod" [uptr (cst "char"); ty "umode_t"];
   proto "sys_chown" [uptr (cst "char"); ty "uid_t"; ty "gid_t"];
   proto "sys_mkdir" [uptr (cst "char"); ty "umode_t"];
   proto "sys_rmdir" [uptr (cst "char")];
   proto "sys_lchown" [uptr (cst "char"); ty "uid_t"; ty "gid_t"];
   proto "sys_access" [uptr (cst "char"); ty "int"];
   proto "sys_rename" [uptr (cst "char"); uptr (cst "char")];
   proto "sys_symlink" [uptr (cst "char"); uptr (cst "char")];
   proto_if (Or (Cfg "__ARCH_WANT_STAT64") (Cfg "__ARCH_WANT_COMPAT_STAT64")) "sys_stat64" [uptr (cst "char"); uptr "struct stat64"];
   proto_if (Or (Cfg "__ARCH_WANT_STAT64") (Cfg "__ARCH_WANT_COMPAT_STAT64")) "sys_lstat64" [uptr (cst "char"); uptr "struct stat64"];
   proto "sys_pipe" [uptr "int"];
   proto "sys_dup2" [ty "unsigned int"; ty "unsigned int"];
   proto "sys_epoll_create" [ty "int"];
   proto "sys_inotify_init" [];
   proto "sys_eventfd" [ty "unsigned int"];
   proto "sys_signalfd" [ty "int"; uptr "sigset_t"; ty "size_t"];
   proto "sys_sendfile" [ty "int"; ty "int"; uptr "off_t"; ty "size_t"];
   proto "sys_newstat" [uptr (cst "char"); uptr "struct stat"];
   proto "sys_newlstat" [uptr (cst "char"); uptr "struct stat"];
   proto "sys_fadvise64" [ty "int"; ty "loff_t"; ty "size_t"; ty "int"];
   proto "sys_alarm" [ty "unsigned int"];
   proto "sys_getpgrp" [];
   proto "sys_pause" [];
   proto "sys_time" [uptr "__kernel_old_time_t"];
   proto "sys_time32" [uptr "old_time32_t"];
   proto_if (Cfg "__ARCH_WANT_SYS_UTIME") "sys_utime" [uptr "char"; uptr "struct utimbuf"];
   proto_if (Cfg "__ARCH_WANT_SYS_UTIME") "sys_utimes" [uptr "char"; uptr "struct __kernel_old_timeval"];
   proto_if (Cfg "__ARCH_WANT_SYS_UTIME") "sys_futimesat" [ty "int"; uptr (cst "char"); uptr "struct __kernel_old_timeval"];
   proto "sys_futimesat_time32" [ty "unsigned int"; uptr (cst "char"); uptr "struct old_timeval32"];
   proto "sys_utime32" [uptr (cst "char"); uptr "struct old_utimbuf32"];
   proto "sys_utimes_time32" [uptr (cst "char"); uptr "struct old_timeval32"];
   proto "sys_creat" [uptr (cst "char"); ty "umode_t"];
   proto "sys_getdents" [ty "unsigned int"; uptr "struct linux_dirent"; ty "unsigned int"];
   proto "sys_select" [ty "int"; uptr "fd_set"; uptr "fd_set"; uptr "fd_set"; uptr "struct __kernel_old_timeval"];
   proto "sys_poll" [uptr "struct pollfd"; ty "unsigned int"; ty "int"];
   proto "sys_epoll_wait" [ty "int"; uptr "struct epoll_event"; ty "int"; ty "int"];
   proto "sys_ustat" [ty "unsigned int"; uptr "struct ustat"];
   proto "sys_vfork" [];
   proto "sys_recv" [ty "int"; uptr "void"; ty "size_t"; ty "unsigned int"]].

Definition protos_1090_1189 : list prototype :=
  [proto "sys_send" [ty "int"; uptr "void"; ty "size_t"; ty "unsigned int"];
   proto "sys_oldumount" [uptr "char"];
   proto "sys_uselib" [uptr (cst "char")];
   proto "sys_sysfs" [ty "int"; ty "unsigned long"; ty "unsigned long"];
   proto "sys_fork" [];
   proto "sys_stime" [uptr "__kernel_old_time_t"];
   proto "sys_stime32" [uptr "old_time32_t"];
   proto "sys_sigpending" [uptr "old_sigset_t"];
   proto "sys_sigprocmask" [ty "int"; uptr "old_sigset_t"; uptr "old_sigset_t"];
   proto_if (Cfg "CONFIG_OLD_SIGSUSPEND") "sys_sigsuspend" [ty "old_sigset_t"];
   proto_if (Cfg "CONFIG_OLD_SIGSUSPEND3") "sys_sigsuspend" [ty "int"; ty "int"; ty "old_sigset_t"];
   proto_if (Cfg "CONFIG_OLD_SIGACTION") "sys_sigaction" [ty "int"; uptr (cst "struct old_sigaction"); uptr "struct old_sigaction"];
   proto "sys_sgetmask" [];
   proto "sys_ssetmask" [ty "int"];
   proto "sys_signal" [ty "int"; ty "__sighandler_t"];
   proto "sys_nice" [ty "int"];
   proto "sys_kexec_file_load" [ty "int"; ty "int"; ty "unsigned long"; uptr (cst "char"); ty "unsigned long"];
   proto "sys_waitpid" [ty "pid_t"; uptr "int"; ty "int"];
   proto_if (Cfg "CONFIG_HAVE_UID16") "sys_chown16" [uptr (cst "char"); ty "old_uid_t"; ty "old_gid_t"];
   proto_if (Cfg "CONFIG_HAVE_UID16") "sys_lchown16" [uptr (cst "char"); ty "old_uid_t"; ty "old_gid_t"];
   proto_if (Cfg "CONFIG_HAVE_UID16") "sys_fchown16" [ty "unsigned int"; ty "old_uid_t"; ty "old_gid_t"];
   proto_if (Cfg "CONFIG_HAVE_UID16") "sys_setregid16" [ty "old_gid_t"; ty "old_gid_t"];
   proto_if (Cfg "CONFIG_HAVE_UID16") "sys_setgid16" [ty "old_gid_t"];
   proto_if (Cfg "CONFIG_HAVE_UID16") "sys_setreuid16" [ty "old_uid_t"; ty "old_uid_t"];
   proto_if (Cfg "CONFIG_HAVE_UID16") "sys_setuid16" [ty "old_uid_t"];
   proto_if (Cfg "CONFIG_HAVE_UID16") "sys_setresuid16" [ty "old_uid_t"; ty "old_uid_t"; ty "old_uid_t"];
   proto_if (Cfg "CONFIG_HAVE_UID16") "sys_getresuid16" [uptr "old_uid_t"; uptr "old_uid_t"; uptr "old_uid_t"];
   proto_if (Cfg "CONFIG_HAVE_UID16") "sys_setresgid16" [ty "old_gid_t"; ty "old_gid_t"; ty "old_gid_t"];
   proto_if (Cfg "CONFIG_HAVE_UID16") "sys_getresgid16" [uptr "old_gid_t"; uptr "old_gid_t"; uptr "old_gid_t"];
   proto_if (Cfg "CONFIG_HAVE_UID16") "sys_setfsuid16" [ty "old_uid_t"];
   proto_if (Cfg "CONFIG_HAVE_UID16") "sys_setfsgid16" [ty "old_gid_t"];
   proto_if (Cfg "CONFIG_HAVE_UID16") "sys_getgroups16" [ty "int"; uptr "old_gid_t"];
   proto_if (Cfg "CONFIG_HAVE_UID16") "sys_setgroups16" [ty "int"; uptr "old_gid_t"];
   proto_if (Cfg "CONFIG_HAVE_UID16") "sys_getuid16" [];
   proto_if (Cfg "CONFIG_HAVE_UID16") "sys_geteuid16" [];
   proto_if (Cfg "CONFIG_HAVE_UID16") "sys_getgid16" [];
   proto_if (Cfg "CONFIG_HAVE_UID16") "sys_getegid16" [];
   proto "sys_socketcall" [ty "int"; uptr "unsigned long"];
   proto "sys_stat" [uptr (cst "char"); uptr "struct __old_kernel_stat"];
   proto "sys_lstat" [uptr (cst "char"); uptr "struct __old_kernel_stat"];
   proto "sys_fstat" [ty "unsigned int"; uptr "struct __old_kernel_stat"];
   proto "sys_readlink" [uptr (cst "char"); uptr "char"; ty "int"];
   proto "sys_old_select" [uptr "struct sel_arg_struct"];
   proto "sys_old_readdir" [ty "unsigned int"; uptr "struct old_linux_dirent"; ty "unsigned int"];
   proto "sys_gethostname" [uptr "char"; ty "int"];
   proto "sys_uname" [uptr "struct old_utsname"];
   proto "sys_olduname" [uptr "struct oldold_utsname"];
   proto_if (Cfg "__ARCH_WANT_SYS_OLD_GETRLIMIT") "sys_old_getrlimit" [ty "unsigned int"; uptr "struct rlimit"];
   proto "sys_ipc" [ty "unsigned int"; ty "int"; ty "unsigned long"; ty "unsigned long"; uptr "void"; ty "long"]].

Definition protos_1192_1206 : list prototype :=
  [proto "sys_mmap_pgoff" [ty "unsigned long"; ty "unsigned long"; ty "unsigned long"; ty "unsigned long"; ty "unsigned long"; ty "unsigned long"];
   proto "sys_old_mmap" [uptr "struct mmap_arg_struct"];
   proto "sys_ni_syscall" [];
   proto "sys_ni_posix_timers" []].

Definition prototypes : list prototype :=
  protos_304_401 ++ protos_402_501 ++ protos_502_601 ++ protos_602_701 ++ protos_702_798
  ++ protos_800_896 ++ protos_897_966 ++ protos_own ++ protos_990_1089 ++ protos_1090_1189
  ++ protos_1192_1206.

(** ** The definitions of the repository *)

(** The head of a SYSCALL_DEFINEn: the n of the macro, the name, the pairs, and the
    condition it stands under. *)
Record define := { d_args : nat; d_name : string; d_pairs : list (ctype * string); d_if : cond }.
Definition define_n (n : nat) (name : string) (l : list (ctype * string)) : define :=
  {| d_args := n; d_name := name; d_pairs := l; d_if := Yes |}.
Definition define_if (c : cond) (n : nat) (name : string) (l : list (ctype * string)) : define :=
  {| d_args := n; d_name := name; d_pairs := l; d_if := c |}.

Definition defines_sys : list define :=
  [define_n 3 "setpriority" [(ty "int", "which"); (ty "int", "who"); (ty "int", "niceval")];
   define_n 2 "getpriority" [(ty "int", "which"); (ty "int", "who")];
   define_if (Cfg "CONFIG_MULTIUSER") 2 "setregid" [(ty "gid_t", "rgid"); (ty "gid_t", "egid")];
   define_if (Cfg "CONFIG_MULTIUSER") 1 "setgid" [(ty "gid_t", "gid")];
   define_if (Cfg "CONFIG_MULTIUSER") 2 "setreuid" [(ty "uid_t", "ruid"); (ty "uid_t", "euid")];
   define_if (Cfg "CONFIG_MULTIUSER") 1 "setuid" [(ty "uid_t", "uid")];
   define_if (Cfg "CONFIG_MULTIUSER") 3 "setresuid" [(ty "uid_t", "ruid"); (ty "uid_t", "euid"); (ty "uid_t", "suid")];
   define_if (Cfg "CONFIG_MULTIUSER") 3 "getresuid" [(uptr "uid_t", "ruidp"); (uptr "uid_t", "euidp"); (uptr "uid_t", "suidp")];
   define_if (Cfg "CONFIG_MULTIUSER") 3 "setresgid" [(ty "gid_t", "rgid"); (ty "gid_t", "egid"); (ty "gid_t", "sgid")];
   define_if (Cfg "CONFIG_MULTIUSER") 3 "getresgid" [(uptr "gid_t", "rgidp"); (uptr "gid_t", "egidp"); (uptr "gid_t", "sgidp")];
   define_if (Cfg "CONFIG_MULTIUSER") 1 "setfsuid" [(ty "uid_t", "uid")];
   define_if (Cfg "CONFIG_MULTIUSER") 1 "setfsgid" [(ty "gid_t", "gid")];
   define_n 0 "getpid" [];
   define_n 0 "gettid" [];
   define_n 0 "getppid" [];
   define_n 0 "getuid" [];
   define_n 0 "geteuid" [];
   define_n 0 "getgid" [];
   define_n 0 "getegid" [];
   define_n 1 "times" [(uptr "struct tms", "tbuf")];
   define_n 2 "setpgid" [(ty "pid_t", "pid"); (ty "pid_t", "pgid")];
   define_n 1 "getpgid" [(ty "pid_t", "pid")];
   define_if (Cfg "__ARCH_WANT_SYS_GETPGRP") 0 "getpgrp" [];
   define_n 1 "getsid" [(ty "pid_t", "pid")];
   define_n 0 "setsid" [];
   define_n 1 "newuname" [(uptr "struct new_utsname", "name")];
   define_if (Cfg "__ARCH_WANT_SYS_OLD_UNAME") 1 "uname" [(uptr "struct old_utsname", "name")];
   define_if (Cfg "__ARCH_WANT_SYS_OLD_UNAME") 1 "olduname" [(uptr "struct oldold_utsname", "name")];
   define_n 2 "sethostname" [(uptr "char", "name"); (ty "int", "len")];
   define_if (Cfg "__ARCH_WANT_SYS_GETHOSTNAME") 2 "gethostname" [(uptr "char", "name"); (ty "int", "len")];
   define_n 2 "setdomainname" [(uptr "char", "name"); (ty "int", "len")];
   define_n 2 "getrlimit" [(ty "unsigned int", "resource"); (uptr "struct rlimit", "rlim")];
   define_if (Cfg "__ARCH_WANT_SYS_OLD_GETRLIMIT") 2 "old_getrlimit" [(ty "unsigned int", "resource"); (uptr "struct rlimit", "rlim")];
   define_n 4 "prlimit64" [(ty "pid_t", "pid"); (ty "unsigned int", "resource"); (uptr (cst "struct rlimit64"), "new_rlim"); (uptr "struct rlimit64", "old_rlim")];
   define_n 2 "setrlimit" [(ty "unsigned int", "resource"); (uptr "struct rlimit", "rlim")];
   define_n 2 "getrusage" [(ty "int", "who"); (uptr "struct rusage", "ru")];
   define_n 1 "umask" [(ty "int", "mask")];
   define_n 5 "prctl" [(ty "int", "option"); (ty "unsigned long", "arg2"); (ty "unsigned long", "arg3"); (ty "unsigned long", "arg4"); (ty "unsigned long", "arg5")];
   define_n 3 "getcpu" [(uptr "unsigned int", "cpup"); (uptr "unsigned int", "nodep"); (uptr "struct getcpu_cache", "unused")];
   define_n 1 "sysinfo" [(uptr "struct sysinfo", "info")]].

Definition defines_fork : list define :=
  [define_n 1 "set_tid_address" [(uptr "int", "tidptr")];
   define_if (Cfg "__ARCH_WANT_SYS_FORK") 0 "fork" [];
   define_if (Cfg "__ARCH_WANT_SYS_VFORK") 0 "vfork" [];
   define_if (And (Cfg "__ARCH_WANT_SYS_CLONE") (Cfg "CONFIG_CLONE_BACKWARDS")) 5 "clone" [(ty "unsigned long", "clone_flags"); (ty "unsigned long", "newsp"); (uptr "int", "parent_tidptr"); (ty "unsigned long", "tls"); (uptr "int", "child_tidptr")];
   define_if (And (And (Cfg "__ARCH_WANT_SYS_CLONE") (Not (Cfg "CONFIG_CLONE_BACKWARDS"))) (Cfg "CONFIG_CLONE_BACKWARDS2")) 5 "clone" [(ty "unsigned long", "newsp"); (ty "unsigned long", "clone_flags"); (uptr "int", "parent_tidptr"); (uptr "int", "child_tidptr"); (ty "unsigned long", "tls")];
   define_if (And (And (And (Cfg "__ARCH_WANT_SYS_CLONE") (Not (Cfg "CONFIG_CLONE_BACKWARDS"))) (Not (Cfg "CONFIG_CLONE_BACKWARDS2"))) (Cfg "CONFIG_CLONE_BACKWARDS3")) 6 "clone" [(ty "unsigned long", "clone_flags"); (ty "unsigned long", "newsp"); (ty "int", "stack_size"); (uptr "int", "parent_tidptr"); (uptr "int", "child_tidptr"); (ty "unsigned long", "tls")];
   define_if (And (And (And (Cfg "__ARCH_WANT_SYS_CLONE") (Not (Cfg "CONFIG_CLONE_BACKWARDS"))) (Not (Cfg "CONFIG_CLONE_BACKWARDS2"))) (Not (Cfg "CONFIG_CLONE_BACKWARDS3"))) 5 "clone" [(ty "unsigned long", "clone_flags"); (ty "unsigned long", "newsp"); (uptr "int", "parent_tidptr"); (uptr "int", "child_tidptr"); (ty "unsigned long", "tls")];
   define_if (Cfg "__ARCH_WANT_SYS_CLONE3") 2 "clone3" [(uptr "struct clone_args", "uargs"); (ty "size_t", "size")];
   define_n 1 "unshare" [(ty "unsigned long", "unshare_flags")]].

Definition defines_open : list define :=
  [define_n 2 "truncate" [(uptr (cst "char"), "path"); (ty "long", "length")];
   define_n 2 "ftruncate" [(ty "unsigned int", "fd"); (ty "unsigned long", "length")];
   define_if (Cfg "BITS_PER_LONG == 32") 2 "truncate64" [(uptr (cst "char"), "path"); (ty "loff_t", "length")];
   define_if (Cfg "BITS_PER_LONG == 32") 2 "ftruncate64" [(ty "unsigned int", "fd"); (ty "loff_t", "length")];
   define_n 4 "fallocate" [(ty "int", "fd"); (ty "int", "mode"); (ty "loff_t", "offset"); (ty "loff_t", "len")];
   define_n 3 "faccessat" [(ty "int", "dfd"); (uptr (cst "char"), "filename"); (ty "int", "mode")];
   define_n 4 "faccessat2" [(ty "int", "dfd"); (uptr (cst "char"), "filename"); (ty "int", "mode"); (ty "int", "flags")];
   define_n 2 "access" [(uptr (cst "char"), "filename"); (ty "int", "mode")];
   define_n 1 "chdir" [(uptr (cst "char"), "filename")];
   define_n 1 "fchdir" [(ty "unsigned int", "fd")];
   define_n 1 "chroot" [(uptr (cst "char"), "filename")];
   define_n 2 "fchmod" [(ty "unsigned int", "fd"); (ty "umode_t", "mode")];
   define_n 4 "fchmodat2" [(ty "int", "dfd"); (uptr (cst "char"), "filename"); (ty "umode_t", "mode"); (ty "unsigned int", "flags")];
   define_n 3 "fchmodat" [(ty "int", "dfd"); (uptr (cst "char"), "filename"); (ty "umode_t", "mode")];
   define_n 2 "chmod" [(uptr (cst "char"), "filename"); (ty "umode_t", "mode")];
   define_n 5 "fchownat" [(ty "int", "dfd"); (uptr (cst "char"), "filename"); (ty "uid_t", "user"); (ty "gid_t", "group"); (ty "int", "flag")];
   define_n 3 "chown" [(uptr (cst "char"), "filename"); (ty "uid_t", "user"); (ty "gid_t", "group")];
   define_n 3 "lchown" [(uptr (cst "char"), "filename"); (ty "uid_t", "user"); (ty "gid_t", "group")];
   define_n 3 "fchown" [(ty "unsigned int", "fd"); (ty "uid_t", "user"); (ty "gid_t", "group")];
   define_n 3 "open" [(uptr (cst "char"), "filename"); (ty "int", "flags"); (ty "umode_t", "mode")];
   define_n 4 "openat" [(ty "int", "dfd"); (uptr (cst "char"), "filename"); (ty "int", "flags"); (ty "umode_t", "mode")];
   define_n 4 "openat2" [(ty "int", "dfd"); (uptr (cst "char"), "filename"); (uptr "struct open_how", "how"); (ty "size_t", "usize")];
   define_if (Not (Cfg "__alpha__")) 2 "creat" [(uptr (cst "char"), "pathname"); (ty "umode_t", "mode")];
   define_n 1 "close" [(ty "unsigned int", "fd")];
   define_n 3 "close_range" [(ty "unsigned int", "fd"); (ty "unsigned int", "max_fd"); (ty "unsigned int", "flags")];
   define_n 0 "vhangup" []].

Definition defines_read_write : list define :=
  [define_n 3 "lseek" [(ty "unsigned int", "fd"); (ty "off_t", "offset"); (ty "unsigned int", "whence")];
   define_if (Or (Or (Not (Cfg "CONFIG_64BIT")) (Cfg "CONFIG_COMPAT")) (Cfg "__ARCH_WANT_SYS_LLSEEK")) 5 "llseek" [(ty "unsigned int", "fd"); (ty "unsigned long", "offset_high"); (ty "unsigned long", "offset_low"); (uptr "loff_t", "result"); (ty "unsigned int", "whence")];
   define_n 3 "read" [(ty "unsigned int", "fd"); (uptr "char", "buf"); (ty "size_t", "count")];
   define_n 3 "write" [(ty "unsigned int", "fd"); (uptr (cst "char"), "buf"); (ty "size_t", "count")];
   define_n 4 "pread64" [(ty "unsigned int", "fd"); (uptr "char", "buf"); (ty "size_t", "count"); (ty "loff_t", "pos")];
   define_n 4 "pwrite64" [(ty "unsigned int", "fd"); (uptr (cst "char"), "buf"); (ty "size_t", "count"); (ty "loff_t", "pos")];
   define_n 3 "readv" [(ty "unsigned long", "fd"); (uptr (cst "struct iovec"), "vec"); (ty "unsigned long", "vlen")];
   define_n 3 "writev" [(ty "unsigned long", "fd"); (uptr (cst "struct iovec"), "vec"); (ty "unsigned long", "vlen")];
   define_n 5 "preadv" [(ty "unsigned long", "fd"); (uptr (cst "struct iovec"), "vec"); (ty "unsigned long", "vlen"); (ty "unsigned long", "pos_l"); (ty "unsigned long", "pos_h")];
   define_n 6 "preadv2" [(ty "unsigned long", "fd"); (uptr (cst "struct iovec"), "vec"); (ty "unsigned long", "vlen"); (ty "unsigned long", "pos_l"); (ty "unsigned long", "pos_h"); (ty "rwf_t", "flags")];
   define_n 5 "pwritev" [(ty "unsigned long", "fd"); (uptr (cst "struct iovec"), "vec"); (ty "unsigned long", "vlen"); (ty "unsigned long", "pos_l"); (ty "unsigned long", "pos_h")];
   define_n 6 "pwritev2" [(ty "unsigned long", "fd"); (uptr (cst "struct iovec"), "vec"); (ty "unsigned long", "vlen"); (ty "unsigned long", "pos_l"); (ty "unsigned long", "pos_h"); (ty "rwf_t", "flags")];
   define_n 4 "sendfile" [(ty "int", "out_fd"); (ty "int", "in_fd"); (uptr "off_t", "offset"); (ty "size_t", "count")];
   define_n 4 "sendfile64" [(ty "int", "out_fd"); (ty "int", "in_fd"); (uptr "loff_t", "offset"); (ty "size_t", "count")];
   define_n 6 "copy_file_range" [(ty "int", "fd_in"); (uptr "loff_t", "off_in"); (ty "int", "fd_out"); (uptr "loff_t", "off_out"); (ty "size_t", "len"); (ty "unsigned int", "flags")]].

Definition defines_own : list define :=
  [define_n 1 "luis_capture_memory_snapshot" [(uptr "struct memory_snapshot", "snapshot")];
   define_n 1 "luis_track_syscall_usage" [(uptr "struct syscall_usage", "estatic")];
   define_n 1 "luis_get_io_throttle" [(ty "pid_t", "pid"); (uptr "struct io_throttle_stats", "stats")];
   define_n 1 "luis_tamalloc" [(ty "size_t", "size")];
   define_n 2 "luis_recoleccion_general" [(ty "pid_t", "pid"); (uptr "struct process_memory_info", "mem_info")];
   define_n 1 "luis_resumen_total" [(uptr "struct memory_summary", "summary")];
   define_n 2 "so2_add_memory_limit" [(ty "pid_t", "process_pid"); (ty "size_t", "memory_limit")];
   define_n 3 "so2_get_memory_limits" [(kptr "struct memory_limitation", "u_processes_buffer"); (ty "size_t", "max_entries"); (kptr "int", "processes_returned")];
   define_n 2 "so2_update_memory_limit" [(ty "pid_t", "process_pid"); (ty "size_t", "memory_limit")]].

Definition defines : list define := defines_sys ++ defines_fork ++ defines_open ++ defines_read_write ++ defines_own.
(** ** Agreement *)

(** The parameters the stub of a definition has, which are those of the n of its macro. *)
Definition stub_types (d : define) : list ctype := match MAP (d_args d) (fun t _ => t) (d_pairs d) with Some ts => ts | None => [] end.

Definition declares (p : prototype) (d : define) : bool := String.eqb (p_name p) ("sys_" ++ d_name d).

Definition same_types (ts us : list ctype) : bool := bool_decide (ts = us).

(** Without the annotations that only checkers read. *)
Fixpoint plain (t : ctype) : ctype := match t with Base n => Base n | Const t => Const (plain t) | Ptr _ t => Ptr false (plain t) end.
Definition same_plain (ts us : list ctype) : bool := bool_decide (map plain ts = map plain us).

(** A prototype that is visible under [cfg] declares [d] with the same parameters. *)
Definition agrees_in (ps : list prototype) (cfg : string -> bool) (same : list ctype -> list ctype -> bool) (d : define) : bool :=
  existsb (fun p => holds cfg (p_if p) && declares p d && same (p_types p) (stub_types d)) ps.
Definition agrees := agrees_in prototypes.

(** The options that say how clone takes its arguments, and which old sigsuspend there is,
    exclude each other. *)
Definition exclusive : cond :=
  And (And (And (Not (And (Cfg "CONFIG_CLONE_BACKWARDS") (Cfg "CONFIG_CLONE_BACKWARDS2")))
                (Not (And (Cfg "CONFIG_CLONE_BACKWARDS") (Cfg "CONFIG_CLONE_BACKWARDS3"))))
           (Not (And (Cfg "CONFIG_CLONE_BACKWARDS2") (Cfg "CONFIG_CLONE_BACKWARDS3"))))
      (Not (And (Cfg "CONFIG_OLD_SIGSUSPEND") (Cfg "CONFIG_OLD_SIGSUSPEND3"))).

(** *** Conditions that hold in every configuration *)

Fixpoint symbols (c : cond) : list string :=
  match c with Yes => [] | Cfg s => [s] | Not c => symbols c | And c d | Or c d => symbols c ++ symbols d end.

(** The truth table over [l], the rest being given by [env]. *)
Fixpoint taut (l : list string) (env : list (string * bool)) (c : cond) : bool :=
  match l with
  | [] => holds (fun s => match assoc s env with Some b => b | None => false end) c
  | s :: l => taut l ((s, true) :: env) c && taut l ((s, false) :: env) c
  end.

Definition valid (c : cond) : bool := taut (remove_dups (symbols c)) [] c.

Lemma holds_ext cfg cfg' c : (forall s, s ∈ symbols c -> cfg s = cfg' s) -> holds cfg c = holds cfg' c.
Proof.
  induction c as [|s|c IH|c IHc d IHd|c IHc d IHd]; cbn [symbols holds]; intros H; try done.
  - apply H. by left.
  - by rewrite IH.
  - rewrite IHc, IHd; [done| |]; intros s Hs; apply H, elem_of_app; auto.
  - rewrite IHc, IHd; [done| |]; intros s Hs; apply H, elem_of_app; auto.
Qed.

Lemma taut_sound l env c cfg : taut l env c = true -> (forall s b, assoc s env = Some b -> cfg s = b) ->
  (forall s, s ∈ symbols c -> s ∈ l \/ assoc s env <> None) -> holds cfg c = true.
Proof.
  revert env. induction l as [|s l IH]; intros env Ht He Hs; cbn [taut] in Ht.
  - rewrite <- Ht. apply holds_ext. intros s Hin. destruct (Hs s Hin) as [?%elem_of_nil|Hn]; [done|].
    destruct (assoc s env) as [b|] eqn:Eb; [by apply He|done].
  - apply andb_true_iff in Ht as [Ht Hf]. apply (IH ((s, cfg s) :: env)); [by destruct (cfg s)| |].
    + intros x b. cbn [assoc]. destruct (String.eqb_spec x s) as [-> |]; [by intros [= <-]|apply He].
    + intros x Hx. destruct (String.eqb_spec x s) as [-> |Hn].
      * right. cbn [assoc]. by rewrite String.eqb_refl.
      * cbn [assoc]. rewrite (proj2 (String.eqb_neq x s)) by done. destruct (Hs x Hx) as [[|]%elem_of_cons|]; auto.
Qed.

Lemma valid_sound c cfg : valid c = true -> holds cfg c = true.
Proof.
  intros H. apply (taut_sound _ [] c cfg H); [done|]. intros s Hs. left. by apply elem_of_remove_dups.
Qed.

(** *** The checks *)

Definition any (l : list cond) : cond := foldr Or (Not Yes) l.

Lemma holds_any cfg l : holds cfg (any l) = existsb (holds cfg) l.
Proof. induction l as [|c l IH]; [done|]. cbn [any foldr holds existsb]. f_equal. exact IH. Qed.

(** Where [d] is defined, some prototype that satisfies [same] is visible. *)
Definition agrees_everywhere (ps : list prototype) (same : list ctype -> list ctype -> bool) (d : define) : bool :=
  valid (Or (Not (And exclusive (d_if d)))
            (any (map p_if (List.filter (fun p => declares p d && same (p_types p) (stub_types d)) ps)))).

Lemma agrees_everywhere_sound ps cfg same d : holds cfg exclusive = true -> holds cfg (d_if d) = true -> agrees_everywhere ps same d = true ->
  agrees_in ps cfg same d = true.
Proof.
  intros Hx Hd Hv. apply (valid_sound _ cfg) in Hv. cbn [holds] in Hv. rewrite Hx, Hd in Hv. cbn [negb andb orb] in Hv.
  rewrite holds_any in Hv. apply existsb_exists in Hv as (c & Hc & Hh). apply in_map_iff in Hc as (p & <- & Hp).
  apply List.filter_In in Hp as [Hp Hs]. apply existsb_exists. exists p. split; [done|]. rewrite Hh. exact Hs.
Qed.

(** No two prototypes of one name are visible together. *)
Fixpoint once (l : list prototype) : bool :=
  match l with
  | [] => true
  | p :: l => forallb (fun q => if String.eqb (p_name p) (p_name q) then valid (Not (And exclusive (And (p_if p) (p_if q)))) else true) l && once l
  end.

Lemma once_sound cfg l i j p q : holds cfg exclusive = true -> once l = true -> l !! i = Some p -> l !! j = Some q -> p_name p = p_name q ->
  holds cfg (p_if p) = true -> holds cfg (p_if q) = true -> i = j.
Proof.
  intros Hx. revert i j p q. induction l as [|x l IH]; intros i j p q Ho Hi Hj Hn Hp Hq; [done|]. cbn [once] in Ho. apply andb_true_iff in Ho as [Hf Ho].
  assert (Hno : forall k y, l !! k = Some y -> p_name x = p_name y -> holds cfg (p_if x) = true -> holds cfg (p_if y) = true -> False).
  { intros k y Hk Hny Hpx Hpy. rewrite forallb_forall in Hf. apply list_elem_of_lookup_2, list_elem_of_In in Hk. specialize (Hf y Hk).
    rewrite (proj2 (String.eqb_eq _ _) Hny) in Hf. apply (valid_sound _ cfg) in Hf. cbn [holds] in Hf.
    by rewrite Hx, Hpx, Hpy in Hf. }
  destruct i as [|i], j as [|j]; [done| | |]; cbn in Hi, Hj.
  - injection Hi as <-. by destruct (Hno j q).
  - injection Hj as <-. by destruct (Hno i p).
  - f_equal. by apply (IH i j p q).
Qed.

Lemma prototypes_once : once prototypes = true.
Proof. vm_compute. reflexivity. Qed.

(** The definitions that differ from every prototype, and those that differ only in the
    annotation of user pointers. *)
Definition mismatched : list string := ["luis_track_syscall_usage"; "luis_get_io_throttle"; "luis_recoleccion_general"].
Definition misannotated : list string := ["openat2"; "so2_get_memory_limits"].

Lemma plain_everywhere : forallb (fun d => bool_decide (d_name d ∈ mismatched) || agrees_everywhere prototypes same_plain d) defines = true.
Proof. vm_compute. reflexivity. Qed.

Lemma types_everywhere :
  forallb (fun d => bool_decide (d_name d ∈ (mismatched ++ misannotated)%list) || agrees_everywhere prototypes same_types d) defines = true.
Proof. vm_compute. reflexivity. Qed.

(** Where they differ no condition helps. *)
Definition differs (ps : list prototype) (same : list ctype -> list ctype -> bool) (d : define) : bool :=
  forallb (fun p => negb (declares p d && same (p_types p) (stub_types d))) ps.

Lemma exceptions_differ :
  forallb (fun d => (negb (bool_decide (d_name d ∈ mismatched)) || differs prototypes same_plain d) &&
                    (negb (bool_decide (d_name d ∈ misannotated)) || differs prototypes same_types d)) defines = true.
Proof. vm_compute. reflexivity. Qed.

Lemma differs_sound ps cfg same d : differs ps same d = true -> agrees_in ps cfg same d = false.
Proof.
  intros H. apply not_true_iff_false. intros (p & Hp & Ha)%existsb_exists. unfold differs in H. rewrite forallb_forall in H. specialize (H p Hp).
  rewrite <- andb_assoc in Ha. apply andb_true_iff in Ha as [_ Ha]. by rewrite Ha in H.
Qed.

(** Types that differ without annotations differ with them. *)
Lemma same_types_differs ps cfg d : differs ps same_plain d = true -> agrees_in ps cfg same_types d = false.
Proof.
  intros H. apply differs_sound. unfold differs in *. rewrite forallb_forall in *. intros p Hp. specialize (H p Hp).
  apply negb_true_iff, andb_false_iff. apply negb_true_iff, andb_false_iff in H as [H|H]; [by left|right].
  apply bool_decide_eq_false. intros Hs. apply bool_decide_eq_false in H. apply H. by rewrite Hs.
Qed.


(** x86: clone takes its arguments in the default order. *)
Definition x86_cfg (s : string) : bool :=
  bool_decide (s ∈ ["CONFIG_MULTIUSER"; "__ARCH_WANT_SYS_FORK"; "__ARCH_WANT_SYS_VFORK"; "__ARCH_WANT_SYS_CLONE"; "__ARCH_WANT_SYS_CLONE3"; "CONFIG_64BIT"]).

Definition clone_define : define :=
  define_if (And (And (And (Cfg "__ARCH_WANT_SYS_CLONE") (Not (Cfg "CONFIG_CLONE_BACKWARDS"))) (Not (Cfg "CONFIG_CLONE_BACKWARDS2"))) (Not (Cfg "CONFIG_CLONE_BACKWARDS3")))
    5 "clone" [(ty "unsigned long", "clone_flags"); (ty "unsigned long", "newsp"); (uptr "int", "parent_tidptr"); (uptr "int", "child_tidptr"); (ty "unsigned long", "tls")].


(** ** What the prototypes pass by value *)

Fixpoint by_value (t : ctype) : list string := match t with Base n => [n] | Const t => by_value t | Ptr _ _ => [] end.
Definition is_builtin (n : string) : bool := match assoc n builtins with Some _ => true | None => false end.

(** The names that other headers have to explain. *)
Definition typedef_names (ts : list ctype) : list string := List.filter (fun n => negb (is_builtin n)) (flat_map by_value ts).

Definition tagged (n : string) : bool := String.prefix "struct " n || String.prefix "union " n.

Lemma no_structures_by_value : forallb (fun p => forallb (fun n => negb (tagged n)) (typedef_names (p_types p))) prototypes = true.
Proof. vm_compute. reflexivity. Qed.

Lemma prototypes_short : forallb (fun p => (length (p_types p) <=? SYSCALL_DEFINE_MAXARGS)%nat) prototypes = true.
Proof. vm_compute. reflexivity. Qed.

Section build.
Context {M : CMachine}.

Definition fits (k : kind) : bool := match k with Aggregate => false | Integer w _ => (w <=? BITS_PER_LONG)%Z | _ => true end.

Lemma builtin_fits n k : assoc n builtins = Some k -> fits k = true.
Proof.
  pose proof long_bits as Hl. unfold builtins. cbn [assoc].
  repeat destruct (String.eqb _ _); intros Hk; inversion Hk; cbn [fits]; try done; apply Z.leb_le; lia.
Qed.

Lemma fits_test t : (forall n, n ∈ typedef_names [t] -> fits (typedef n) = true) -> sc_test t = true.
Proof.
  pose proof long_bits as Hl. intros H. assert (Hf : fits (kind_of t) = true).
  { revert H. unfold typedef_names. cbn [flat_map]. rewrite app_nil_r. induction t as [n|t IH|u t IH]; cbn [by_value kind_of]; [|done|done].
    intros H. destruct (assoc n builtins) as [k|] eqn:E; [by apply builtin_fits with n|]. apply H. cbn [List.filter].
    unfold is_builtin. rewrite E. cbn [negb]. by left. }
  unfold sc_test, type_is_ll. destruct (kind_of t) as [w s|s|s| |]; cbn [fits bits negb andb] in *; try done; try (by rewrite Z.ltb_irrefl).
  apply Z.leb_le in Hf. apply negb_true_iff, Z.ltb_ge. lia.
Qed.

(** On a machine where the type names of the prototypes stand for integers no wider than a
    long, or for long long, every prototype can be defined with the macro of its number of
    parameters. *)
Lemma prototypes_build p names body :
  (forall n, n ∈ flat_map (fun p => typedef_names (p_types p)) prototypes -> fits (typedef n) = true) ->
  p ∈ prototypes -> length names = length (p_types p) ->
  exists s, SYSCALL_DEFINEx (length (p_types p)) (p_name p) (zip (p_types p) names) body = Some s /\ m_types (metadata s) = p_types p.
Proof.
  intros H Hp Hn. pose proof prototypes_short as Hs. rewrite forallb_forall in Hs. apply list_elem_of_In in Hp as Hi.
  specialize (Hs p Hi). apply Nat.leb_le in Hs. unfold SYSCALL_DEFINEx.
  destruct (Nat.ltb_spec SYSCALL_DEFINE_MAXARGS (length (p_types p))); [lia|].
  destruct ((length (p_types p) =? 0)%nat && negb (length (zip (p_types p) names) =? 0)%nat) eqn:Hnone.
  { apply andb_true_iff in Hnone as [Hz%Nat.eqb_eq Hl%negb_true_iff%Nat.eqb_neq]. rewrite length_zip in Hl. lia. }
  rewrite !MAP_spec, length_zip.
  destruct (Nat.leb_spec (length (p_types p)) (Nat.min (length (p_types p)) (length names))); [|lia]. cbn [mbind option_bind].
  assert (Ht : map (fun q : ctype * string => q.1) (take (length (p_types p)) (zip (p_types p) names)) = p_types p).
  { rewrite take_ge by (rewrite length_zip; lia). clear -Hn. revert names Hn. induction (p_types p) as [|t ts IH]; intros [|n names] Hn; try done.
    cbn. f_equal. apply IH. by injection Hn. }
  rewrite Ht. assert (Hf : forallb sc_test (p_types p) = true).
  { apply forallb_forall. intros t Hin. apply fits_test. intros n Hn'. apply H. apply list_elem_of_In, in_flat_map. exists p. split; [done|].
    unfold typedef_names in *. apply list_elem_of_In, List.filter_In in Hn' as [Hb Hc]. apply List.filter_In. split; [|done].
    apply in_flat_map. exists t. split; [done|]. cbn [flat_map] in Hb. by rewrite app_nil_r in Hb. }
  rewrite Hf. eexists. split; [reflexivity|done].
Qed.

End build.

(** The structures the added prototypes point to are declared nowhere before them: each is a
    type of its own, known only inside the parameter list. *)
Fixpoint pointee (t : ctype) : list string :=
  match t with Base _ => [] | Const t => pointee t | Ptr _ (Base n) | Ptr _ (Const (Base n)) => [n] | Ptr _ t => pointee t end.

Lemma own_structures_undeclared :
  List.filter (fun n => tagged n && negb (bool_decide (n ∈ forward_declared))) (flat_map (fun p => flat_map pointee (p_types p)) protos_own) =
  ["struct memory_snapshot"; "struct io_throttle_stats"; "struct memory_summary"; "struct memory_limitation"].
Proof. vm_compute. reflexivity. Qed.
