(* ===== verification/MemLimit.v ===== *)
(** * The memory limit list (kernel/usac/project3/syscall7.c)

    The three syscalls [so2_add_memory_limit], [so2_get_memory_limits] and
    [so2_update_memory_limit] share a global list of (pid, limit in KB) pairs
    under one mutex.  The state keeps the list in link order (the head is the
    most recently added entry, because [list_add] links at the head), the mutex,
    the number of live kernel allocations and the calls of [set_errno] (a
    function the repository does not define: the calls are logged).  The buffer
    that [so2_get_memory_limits] fills is modelled byte by byte, with the layout
    of [struct memory_limitation], because what reaches user space depends on
    it.  The interleaving of concurrent callers is the subject of
    MemLimitConc. *)
From S2P Require Import Prelude UserMem Task.

Record memory_limitation := { ml_pid : Z; ml_limit : Z }.

Record ml_state := {
  memory_limit_list : list memory_limitation;
  memory_limit_lock : bool;
  live_allocs : Z;
  errno_log : list Z
}.

(** The state at boot: [LIST_HEAD], [DEFINE_MUTEX]. *)
Definition ml_init : ml_state :=
  {| memory_limit_list := []; memory_limit_lock := false; live_allocs := 0; errno_log := [] |}.

Definition set_list (l : list memory_limitation) (st : ml_state) : ml_state :=
  {| memory_limit_list := l; memory_limit_lock := memory_limit_lock st;
     live_allocs := live_allocs st; errno_log := errno_log st |}.

Definition set_lock (b : bool) (st : ml_state) : ml_state :=
  {| memory_limit_list := memory_limit_list st; memory_limit_lock := b;
     live_allocs := live_allocs st; errno_log := errno_log st |}.

Definition add_live (d : Z) (st : ml_state) : ml_state :=
  {| memory_limit_list := memory_limit_list st; memory_limit_lock := memory_limit_lock st;
     live_allocs := live_allocs st + d; errno_log := errno_log st |}.

Definition set_errno (e : Z) (st : ml_state) : ml_state :=
  {| memory_limit_list := memory_limit_list st; memory_limit_lock := memory_limit_lock st;
     live_allocs := live_allocs st; errno_log := e :: errno_log st |}.

Definition mutex_lock := set_lock true.
Definition mutex_unlock := set_lock false.

Definition same_pid (pid : Z) (e : memory_limitation) : bool := ml_pid e =? pid.

(** [sizeof(struct memory_limitation)]: pid_t, four bytes of padding, size_t and
    the two pointers of the list link. *)
Definition ml_sizeof := 32%nat.
Definition ml_off_limit := 8%nat.
Definition ml_off_list := 16%nat.

(** A store of [bs] at offset [off] of a kernel buffer; [None] is a store past
    its end. *)
Definition kwrite (off : nat) (bs buf : list Z) : option (list Z) :=
  if (off + length bs <=? length buf)%nat
  then Some (take off buf ++ bs ++ drop (off + length bs) buf) else None.

(** What the three syscalls call: the allocator is a parameter, a successful
    [kmalloc_array] gives the (stale) bytes of the block. *)
Class MLEnv := {
  ml_task :: TaskEnv;
  kmalloc_entry : bool;
  kmalloc_array : Z -> Z -> option (list Z);
  kmalloc_array_size : forall n s b,
    kmalloc_array n s = Some b -> Z.of_nat (length b) = n * s
}.

Section syscalls.
Context {E : MLEnv} {U : UserAccess}.

Definition so2_add_memory_limit (process_pid memory_limit : Z) (st : ml_state)
    : Z * ml_state :=
  if (process_pid <=? 0) || (memory_limit <=? 0) then (- EINVAL, st)
  else if negb (capable CAP_SYS_ADMIN) then (- EPERM, st)
  else
    match pid_task process_pid with
    | None => (- ESRCH, st)
    | Some task =>
        match t_mm task with
        | None => (- ESRCH, st)
        | Some mm =>
            if memory_limit <? rss_kb mm then (-100, st)
            else
              let st := mutex_lock st in
              if existsb (same_pid process_pid) (memory_limit_list st)
              then (-101, mutex_unlock st)
              else if negb kmalloc_entry then (- ENOMEM, mutex_unlock st)
              else
                let entry := {| ml_pid := process_pid; ml_limit := memory_limit |} in
                let st := add_live 1 st in
                let st := set_list (entry :: memory_limit_list st) st in
                (0, mutex_unlock st)
        end
    end.

(** The counting loop. *)
Fixpoint count_entries (l : list memory_limitation) (count : Z) : Z :=
  match l with
  | [] => count
  | _ :: l' => count_entries l' (u64 (count + 1))
  end.

(** The copying loop, with its [break]. *)
Fixpoint fill_buffer (l : list memory_limitation) (max_entries count : Z) (buf : list Z)
    : option (Z * list Z) :=
  match l with
  | [] => Some (count, buf)
  | e :: l' =>
      if max_entries <=? count then Some (count, buf)
      else
        let off := (Z.to_nat count * ml_sizeof)%nat in
        match kwrite off (le_bytes 4 (ml_pid e)) buf with
        | None => None
        | Some buf =>
            match kwrite (off + ml_off_limit) (le_bytes 8 (ml_limit e)) buf with
            | None => None
            | Some buf => fill_buffer l' max_entries (u64 (count + 1)) buf
            end
        end
  end.

(** [None]: the copying loop wrote past the kernel buffer. *)
Definition so2_get_memory_limits (u_processes_buffer max_entries processes_returned : Z)
    (st : ml_state) (um : umem) : option (Z * ml_state * umem) :=
  if (max_entries <=? 0) || (u_processes_buffer =? 0) || (processes_returned =? 0)
  then Some (- EINVAL, st, um)
  else
    let st := mutex_lock st in
    let count := count_entries (memory_limit_list st) 0 in
    let count := if max_entries <? count then max_entries else count in
    match kmalloc_array count (Z.of_nat ml_sizeof) with
    | None => Some (- ENOMEM, mutex_unlock st, um)
    | Some kernel_buffer =>
        let st := add_live 1 st in
        match fill_buffer (memory_limit_list st) max_entries 0 kernel_buffer with
        | None => None
        | Some (count, kernel_buffer) =>
            let st := mutex_unlock st in
            let '(r, um) :=
              copy_to_user u_processes_buffer
                (take (Z.to_nat count * ml_sizeof) kernel_buffer) um in
            let result := i32 r in
            if c_true result then Some (- EFAULT, add_live (-1) st, um)
            else
              let '(result, um) := put_user 4 count processes_returned um in
              if c_true result then Some (- EFAULT, add_live (-1) st, um)
              else Some (0, add_live (-1) st, um)
        end
    end.

(** The searching loop of the update: the first entry of the process gets the
    new limit; [None] when there is none. *)
Fixpoint update_entry (pid limit : Z) (l : list memory_limitation)
    : option (list memory_limitation) :=
  match l with
  | [] => None
  | e :: l' =>
      if same_pid pid e then Some ({| ml_pid := ml_pid e; ml_limit := limit |} :: l')
      else
        match update_entry pid limit l' with
        | Some l'' => Some (e :: l'')
        | None => None
        end
  end.

Definition so2_update_memory_limit (process_pid memory_limit : Z) (st : ml_state)
    : Z * ml_state :=
  if (process_pid <=? 0) || (memory_limit <=? 0) then (- EINVAL, set_errno EINVAL st)
  else if negb (capable CAP_SYS_ADMIN) then (- EPERM, set_errno EPERM st)
  else
    match pid_task process_pid with
    | None => (- ESRCH, set_errno ESRCH st)
    | Some task =>
        match t_mm task with
        | None => (- ESRCH, set_errno ESRCH st)
        | Some mm =>
            if memory_limit <? rss_kb mm then (-100, set_errno 100 st)
            else
              let st := mutex_lock st in
              match update_entry process_pid memory_limit (memory_limit_list st) with
              | Some l => (0, mutex_unlock (set_list l st))
              | None => (-102, set_errno 102 (mutex_unlock st))
              end
        end
    end.

End syscalls.

(** ** What user space reads *)

(** An entry at the kernel's layout. *)
Definition decode_entry (bs : list Z) : memory_limitation :=
  {| ml_pid := i32 (le_val (slice 0 4 bs)); ml_limit := le_val (slice ml_off_limit 8 bs) |}.

(** The array [u_processes_buffer] with elements of [size] bytes. *)
Fixpoint decode_array (size n : nat) (bs : list Z) : list memory_limitation :=
  match n with
  | O => []
  | S n' => decode_entry (take size bs) :: decode_array size n' (drop size bs)
  end.

(** ** Invariant, reachable states, abstraction *)

Definition entry_ok (e : memory_limitation) : Prop :=
  0 < ml_pid e < 2 ^ 31 /\ 0 < ml_limit e < 2 ^ 64.

Record ml_wf (st : ml_state) : Prop := {
  wf_nodup : NoDup (ml_pid <$> memory_limit_list st);
  wf_entries : Forall entry_ok (memory_limit_list st);
  wf_lock : memory_limit_lock st = false;
  wf_live : live_allocs st = Z.of_nat (length (memory_limit_list st))
}.

(** States that some sequence of the three syscalls reaches, each call in an
    environment (process table, allocator, privileges) of its own. *)
Inductive ml_reach : ml_state -> Prop :=
| reach_init : ml_reach ml_init
| reach_add (E : MLEnv) pid limit st :
    is_s 32 pid -> is_u 64 limit -> ml_reach st ->
    ml_reach (so2_add_memory_limit pid limit st).2
| reach_update (E : MLEnv) pid limit st :
    is_s 32 pid -> is_u 64 limit -> ml_reach st ->
    ml_reach (so2_update_memory_limit pid limit st).2
| reach_get (E : MLEnv) (U : UserAccess) ubuf max pret st um r st' um' :
    is_u 64 max -> ml_reach st ->
    so2_get_memory_limits ubuf max pret st um = Some (r, st', um') -> ml_reach st'.

(** The abstract contract: a finite map from processes to limits. *)
Fixpoint entries_map (l : list memory_limitation) : gmap Z Z :=
  match l with
  | [] => empty
  | e :: l' => <[ml_pid e := ml_limit e]> (entries_map l')
  end.

Definition limits (st : ml_state) : gmap Z Z := entries_map (memory_limit_list st).

(** When a limit may be attached to a process: the guards both writers share. *)
Definition limit_allowed `{TaskEnv} (pid limit : Z) : Z :=
  if (pid <=? 0) || (limit <=? 0) then - EINVAL
  else if negb (capable CAP_SYS_ADMIN) then - EPERM
  else match pid_task pid with
       | None => - ESRCH
       | Some task =>
           match t_mm task with
           | None => - ESRCH
           | Some mm => if limit <? rss_kb mm then -100 else 0
           end
       end.

(** The abstract operations. *)
Definition spec_add `{TaskEnv} (alloc : bool) (pid limit : Z) (m : gmap Z Z) : Z * gmap Z Z :=
  if c_true (limit_allowed pid limit) then (limit_allowed pid limit, m)
  else match m !! pid with
       | Some _ => (-101, m)
       | None => if alloc then (0, <[pid := limit]> m) else (- ENOMEM, m)
       end.

Definition spec_update `{TaskEnv} (pid limit : Z) (m : gmap Z Z) : Z * gmap Z Z :=
  if c_true (limit_allowed pid limit) then (limit_allowed pid limit, m)
  else match m !! pid with
       | Some _ => (0, <[pid := limit]> m)
       | None => (-102, m)
       end.

(** ** Concrete environments *)

Definition proc (pid rss : Z) : task_struct :=
  {| t_pid := pid; t_mm := Some {| total_vm := 2 * rss; rss_pages := rss |};
     t_ioac := {| io_read_bytes := 0; io_write_bytes := 0; io_read_disk_bytes := 0;
                  io_write_disk_bytes := 0; io_wait_time_ms := 0 |} |}.

(** Root, the processes 1234 and 5678, and an allocator whose blocks hold
    [0xAA] bytes. *)
#[local, refine] Instance demo_env : MLEnv := {
  ml_task := table_env true (<[1234 := proc 1234 10]> (<[5678 := proc 5678 20]> empty));
  kmalloc_entry := true;
  kmalloc_array n s := if (n <? 0) || (s <? 0) then None
                       else Some (replicate (Z.to_nat (n * s)) 170)
}.
Proof.
intros n s b. case_if; [done|]. intros [= <-]. rewrite length_replicate. bool_hyps. nia.
Defined.

Definition demo_state : ml_state :=
  (so2_add_memory_limit 5678 1000 (so2_add_memory_limit 1234 500 ml_init).2).2.

(** A user address space with a buffer of ten kernel-sized entries and an int. *)
Definition demo_umem : gmap Z Z :=
  FlatMemory.zeroed 1048576 320 (FlatMemory.zeroed 4096 4 empty).

(** The user memory after a call that asks for at most ten entries. *)
Definition demo_umem' : gmap Z Z :=
  match so2_get_memory_limits (U := FlatMemory.flat) 1048576 10 4096 demo_state demo_umem with
  | Some (_, _, um) => um
  | None => demo_umem
  end.

(** ** The two writers through their shared guards *)

Section lemmas.
Context {E : MLEnv}.

Lemma add_guards pid limit st :
  so2_add_memory_limit pid limit st =
    if c_true (limit_allowed pid limit) then (limit_allowed pid limit, st)
    else
      if existsb (same_pid pid) (memory_limit_list st) then (-101, mutex_unlock (mutex_lock st))
      else if kmalloc_entry
      then (0, mutex_unlock (set_list ({| ml_pid := pid; ml_limit := limit |}
                                        :: memory_limit_list st)
                               (add_live 1 (mutex_lock st))))
      else (- ENOMEM, mutex_unlock (mutex_lock st)).
Proof.
  unfold so2_add_memory_limit, limit_allowed.
  case_if; [done|]. case_if; [done|].
  destruct (pid_task pid) as [t|]; [|done]. destruct (t_mm t) as [mm|]; [|done].
  case_if; [done|]. by destruct (existsb _ _), kmalloc_entry.
Qed.

Lemma update_guards pid limit st :
  so2_update_memory_limit pid limit st =
    if c_true (limit_allowed pid limit)
    then (limit_allowed pid limit, set_errno (- limit_allowed pid limit) st)
    else
      match update_entry pid limit (memory_limit_list st) with
      | Some l => (0, mutex_unlock (set_list l (mutex_lock st)))
      | None => (-102, set_errno 102 (mutex_unlock (mutex_lock st)))
      end.
Proof.
  unfold so2_update_memory_limit, limit_allowed.
  case_if; [done|]. case_if; [done|].
  destruct (pid_task pid) as [t|]; [|done]. destruct (t_mm t) as [mm|]; [|done].
  case_if; [done|]. done.
Qed.

Lemma limit_allowed_pos pid limit :
  limit_allowed pid limit = 0 -> 0 < pid /\ 0 < limit.
Proof. unfold limit_allowed. case_if; [done|]. intros _. lia. Qed.

End lemmas.

Lemma entries_map_existsb pid l :
  existsb (same_pid pid) l = true <-> is_Some (entries_map l !! pid).
Proof.
  induction l as [|e l IH]; simpl.
  - rewrite lookup_empty. split; [done|by intros []].
  - unfold same_pid at 1. destruct (ml_pid e =? pid) eqn:Ee; simpl.
    + apply Z.eqb_eq in Ee as ->. rewrite lookup_insert_eq. split; eauto.
    + apply Z.eqb_neq in Ee. by rewrite lookup_insert_ne.
Qed.

Lemma entries_map_existsb_false pid l :
  existsb (same_pid pid) l = false -> entries_map l !! pid = None.
Proof. intros H. apply eq_None_not_Some. rewrite <- entries_map_existsb. by rewrite H. Qed.

Lemma existsb_pids pid l :
  existsb (same_pid pid) l = false -> pid ∉ (ml_pid <$> l).
Proof.
  induction l as [|e l IH]; simpl; [set_solver|].
  intros [He Hl]%orb_false_iff. apply Z.eqb_neq in He. set_solver.
Qed.

Lemma update_entry_pids pid limit l l' :
  update_entry pid limit l = Some l' -> ml_pid <$> l' = ml_pid <$> l.
Proof.
  revert l'. induction l as [|e l IH]; intros l' H; simpl in H; [done|].
  destruct (same_pid pid e); [by injection H as <-|].
  destruct (update_entry pid limit l) as [l2|]; [|done].
  injection H as <-. rewrite !fmap_cons. f_equal. by apply IH.
Qed.

Lemma update_entry_ok pid limit l l' :
  0 < limit < 2 ^ 64 -> update_entry pid limit l = Some l' ->
  Forall entry_ok l -> Forall entry_ok l'.
Proof.
  intros Hl. revert l'. induction l as [|e l IH]; intros l' H Hf; simpl in H; [done|].
  apply Forall_cons in Hf as [He Hf]. destruct (same_pid pid e).
  - injection H as <-. constructor; [|done]. destruct He. by split.
  - destruct (update_entry pid limit l) as [l2|]; [|done].
    injection H as <-. constructor; [done|]. by apply IH.
Qed.

Lemma update_entry_limits pid limit l :
  match update_entry pid limit l with
  | Some l' => is_Some (entries_map l !! pid) /\ entries_map l' = <[pid := limit]> (entries_map l)
  | None => entries_map l !! pid = None
  end.
Proof.
  induction l as [|e l IH]; simpl; [apply lookup_empty|].
  unfold same_pid. destruct (ml_pid e =? pid) eqn:Ee.
  - apply Z.eqb_eq in Ee as ->. split; [rewrite lookup_insert_eq; eauto|]. simpl.
    by rewrite insert_insert_eq.
  - apply Z.eqb_neq in Ee.
    destruct (update_entry pid limit l) as [l'|]; simpl.
    + destruct IH as [Hs Heq]. rewrite lookup_insert_ne by done. split; [done|].
      rewrite Heq. by apply insert_insert_ne.
    + by rewrite lookup_insert_ne.
Qed.

(** ** The invariant is preserved *)

Lemma add_wf {E : MLEnv} pid limit st :
  is_s 32 pid -> is_u 64 limit -> ml_wf st -> ml_wf (so2_add_memory_limit pid limit st).2.
Proof.
  intros Hp Hl [Hnd Hok Hlk Hlv]. rewrite add_guards.
  case_if; [done|]. apply c_true_false, limit_allowed_pos in Hif as [??].
  case_if; [|case_if]; split; simpl; try done.
  - apply NoDup_cons_2; [by apply existsb_pids|done].
  - constructor; [|done]. red in Hp, Hl. split; simpl; lia.
  - lia.
Qed.

Lemma update_wf {E : MLEnv} pid limit st :
  is_u 64 limit -> ml_wf st -> ml_wf (so2_update_memory_limit pid limit st).2.
Proof.
  intros Hl [Hnd Hok Hlk Hlv]. rewrite update_guards.
  case_if; [done|]. apply c_true_false, limit_allowed_pos in Hif as [??].
  destruct (update_entry _ _ _) as [l|] eqn:Eu; [|done].
  pose proof (update_entry_pids _ _ _ _ Eu) as Hpids.
  split; simpl; [by rewrite Hpids| |done|].
  - apply (update_entry_ok pid limit _ _ ltac:(red in Hl; lia) Eu Hok).
  - rewrite Hlv. apply (f_equal length) in Hpids. rewrite !length_fmap in Hpids. lia.
Qed.

(** A duplicate-free list of process ids is shorter than the id space. *)
Lemma nodup_bound (l : list Z) (n : Z) :
  NoDup l -> Forall (fun x => 0 < x < n) l -> Z.of_nat (length l) < Z.max 1 n.
Proof.
  intros Hnd Hf.
  assert (length l <= length (seqZ 1 (n - 1)))%nat as Hle.
  { apply submseteq_length, NoDup_submseteq; [done|].
    intros x Hx. rewrite Forall_forall in Hf. apply Hf in Hx.
    rewrite elem_of_seqZ. lia. }
  rewrite length_seqZ in Hle. lia.
Qed.

Lemma wf_length st : ml_wf st -> Z.of_nat (length (memory_limit_list st)) < 2 ^ 31.
Proof.
  intros [Hnd Hok _ _]. rewrite <- (length_fmap ml_pid).
  pose proof (nodup_bound (ml_pid <$> memory_limit_list st) (2 ^ 31) Hnd) as H.
  enough (Z.of_nat (length (ml_pid <$> memory_limit_list st)) < Z.max 1 (2 ^ 31)) by lia.
  apply H. rewrite Forall_fmap. eapply Forall_impl; [exact Hok|]. by intros e [? _].
Qed.

Lemma count_entries_length l count :
  0 <= count -> count + Z.of_nat (length l) < 2 ^ 64 ->
  count_entries l count = count + Z.of_nat (length l).
Proof.
  revert count. induction l as [|e l IH]; intros count H0 H; simpl in *; [lia|].
  rewrite wrapU_id by (lia || (split; lia)). rewrite IH; lia.
Qed.

(** ** The buffer the reader fills *)

(** An entry written over the stale bytes [g] of its slot: the padding and the
    list link keep what the block held before. *)
Definition entry_bytes (e : memory_limitation) (g : list Z) : list Z :=
  le_bytes 4 (ml_pid e) ++ slice 4 4 g ++ le_bytes 8 (ml_limit e) ++ slice 16 16 g.

Fixpoint overlay (l : list memory_limitation) (g : list Z) : list Z :=
  match l with
  | [] => g
  | e :: l' => entry_bytes e (take ml_sizeof g) ++ overlay l' (drop ml_sizeof g)
  end.

Lemma entry_bytes_length e g : length g = 32%nat -> length (entry_bytes e g) = 32%nat.
Proof.
  intros H. unfold entry_bytes, slice.
  rewrite !length_app, !le_bytes_length, !length_take, !length_drop. lia.
Qed.

Lemma overlay_length l g :
  (ml_sizeof * length l <= length g)%nat -> length (overlay l g) = length g.
Proof.
  revert g. induction l as [|e l IH]; intros g H; [done|].
  cbn [overlay length] in *. unfold ml_sizeof in *.
  rewrite length_app, entry_bytes_length, IH; rewrite ?length_take, ?length_drop; lia.
Qed.

Lemma kwrite_app pre bs rest (n : nat) :
  n = length pre -> (length bs <= length rest)%nat ->
  kwrite n bs (pre ++ rest) = Some (pre ++ bs ++ drop (length bs) rest).
Proof.
  intros -> H. unfold kwrite. rewrite length_app.
  case_if; [|apply Nat.leb_gt in Hif; lia]. f_equal. rewrite take_app_length. f_equal. f_equal.
  rewrite drop_app_add. done.
Qed.

(** The two stores of one iteration. *)
Lemma write_entry pre e rest (n : nat) :
  n = length pre -> (ml_sizeof <= length rest)%nat ->
  exists buf,
    kwrite n (le_bytes 4 (ml_pid e)) (pre ++ rest) = Some buf /\
    kwrite (n + ml_off_limit) (le_bytes 8 (ml_limit e)) buf
      = Some ((pre ++ entry_bytes e (take ml_sizeof rest)) ++ drop ml_sizeof rest).
Proof.
  intros Hn H. unfold ml_sizeof, ml_off_limit in *. eexists. split.
  { apply kwrite_app; [done|]. rewrite le_bytes_length. lia. }
  rewrite le_bytes_length.
  rewrite <- (take_drop 4 (drop 4 rest)), drop_drop, !app_assoc.
  rewrite kwrite_app.
  2:{ rewrite !length_app, le_bytes_length, length_take, length_drop. lia. }
  2:{ rewrite le_bytes_length, length_drop. simpl. lia. }
  rewrite le_bytes_length, drop_drop. simpl (4 + 4 + 8)%nat.
  unfold entry_bytes. rewrite !slice_take by lia. rewrite <- !app_assoc. do 5 f_equal.
  unfold slice. rewrite <- (take_drop 16 (drop 16 rest)) at 1. by rewrite drop_drop.
Qed.

Lemma fill_buffer_overlay l max count pre rest :
  0 <= count <= max -> max < 2 ^ 64 ->
  length pre = (Z.to_nat count * ml_sizeof)%nat ->
  let k := Nat.min (length l) (Z.to_nat (max - count)) in
  length rest = (k * ml_sizeof)%nat ->
  fill_buffer l max count (pre ++ rest)
    = Some (count + Z.of_nat k, pre ++ overlay (take k l) rest).
Proof.
  revert count pre rest. induction l as [|e l IH]; intros count pre rest Hc Hm Hpre k Hrest.
  - subst k. simpl in *. destruct rest; [|done]. by rewrite Z.add_0_r.
  - cbn [fill_buffer]. case_if.
    + assert (k = 0%nat) as Hk by lia. rewrite Hk in *. destruct rest; [|done].
      simpl. by rewrite Z.add_0_r.
    + assert (k = S (Nat.min (length l) (Z.to_nat (max - (count + 1))))) as Hk
        by (subst k; cbn [length]; lia).
      clearbody k. subst k. unfold ml_sizeof in *.
      destruct (write_entry pre e rest (Z.to_nat count * 32) (eq_sym Hpre)) as (buf & -> & ->).
      { unfold ml_sizeof. lia. }
      rewrite wrapU_id by (lia || (split; lia)). unfold ml_sizeof. rewrite IH; cycle 1; try lia.
      * rewrite length_app, entry_bytes_length; rewrite ?length_take; lia.
      * rewrite length_drop. lia.
      * f_equal. f_equal; [lia|]. cbn [take overlay]. by rewrite app_assoc.
Qed.

Lemma overlay_slot l g i e :
  (ml_sizeof * length l <= length g)%nat -> l !! i = Some e ->
  slice (ml_sizeof * i) ml_sizeof (overlay l g)
    = entry_bytes e (slice (ml_sizeof * i) ml_sizeof g).
Proof.
  revert g i. induction l as [|e' l IH]; intros g i Hg Hi; [done|].
  cbn [overlay length] in *. unfold ml_sizeof in *.
  pose proof (entry_bytes_length e' (take 32 g)) as Hlen.
  rewrite length_take in Hlen. specialize (Hlen ltac:(lia)).
  destruct i as [|i].
  - injection Hi as ->. rewrite slice_app_l by lia. rewrite slice_all by lia.
    unfold slice. by rewrite drop_0.
  - rewrite slice_app_r by lia. rewrite Hlen.
    replace (32 * S i - 32)%nat with (32 * i)%nat by lia.
    rewrite IH by (rewrite ?length_drop; done || lia). rewrite slice_drop.
    f_equal. f_equal. lia.
Qed.

Lemma decode_entry_bytes e g :
  entry_ok e -> length g = 32%nat -> decode_entry (entry_bytes e g) = e.
Proof.
  intros [Hp Hl] Hg. unfold decode_entry, entry_bytes, ml_off_limit.
  rewrite slice_app_l by (rewrite le_bytes_length; lia).
  rewrite slice_all by apply le_bytes_length.
  rewrite le_val_i32 by (red; lia).
  rewrite slice_app_r by (rewrite le_bytes_length; lia).
  assert (length (slice 4 4 g) = 4%nat) as Hs
    by (unfold slice; rewrite length_take, length_drop; lia).
  rewrite slice_app_r by (rewrite le_bytes_length; lia).
  rewrite le_bytes_length, Hs. simpl (8 - 4 - 4)%nat.
  rewrite slice_app_l by (rewrite le_bytes_length; lia).
  rewrite slice_all by apply le_bytes_length.
  rewrite le_val_u64 by (red; lia). by destruct e.
Qed.

Lemma decode_array_overlay l g :
  Forall entry_ok l -> length g = (ml_sizeof * length l)%nat ->
  decode_array ml_sizeof (length l) (overlay l g) = l.
Proof.
  revert g. induction l as [|e l IH]; intros g Hf Hg; [done|].
  apply Forall_cons in Hf as [He Hf]. cbn [length overlay decode_array] in *.
  unfold ml_sizeof in *.
  assert (length (entry_bytes e (take 32 g)) = 32%nat) as Hlen
    by (apply entry_bytes_length; rewrite length_take; lia).
  rewrite take_app_length', drop_app_length' by done.
  rewrite decode_entry_bytes by (rewrite ?length_take; done || lia).
  f_equal. apply IH; [done|]. rewrite length_drop. lia.
Qed.

(** ** The reader, in closed form *)

Section reader.
Context {E : MLEnv} {U : UserAccess}.

(** How many entries a call with [max] slots returns. *)
Definition returned (max : Z) (st : ml_state) : nat :=
  Nat.min (length (memory_limit_list st)) (Z.to_nat max).

Definition get_result (ubuf max pret : Z) (st : ml_state) (um : umem) : Z * umem :=
  let n := returned max st in
  match kmalloc_array (Z.of_nat n) 32 with
  | None => (- ENOMEM, um)
  | Some g =>
      let '(r, um1) := copy_to_user ubuf (overlay (take n (memory_limit_list st)) g) um in
      if c_true (i32 r) then (- EFAULT, um1)
      else
        let '(r2, um2) := put_user 4 (Z.of_nat n) pret um1 in
        if c_true r2 then (- EFAULT, um2) else (0, um2)
  end.

Lemma get_closed ubuf max pret st um :
  ml_wf st -> is_u 64 max ->
  so2_get_memory_limits ubuf max pret st um =
    if (max <=? 0) || (ubuf =? 0) || (pret =? 0) then Some (- EINVAL, st, um)
    else let '(r, um') := get_result ubuf max pret st um in Some (r, st, um').
Proof.
  intros Hwf Hm. pose proof (wf_length st Hwf) as Hlen. red in Hm.
  unfold so2_get_memory_limits, get_result. case_if; [done|]. cbv zeta.
  destruct st as [l lk lv er]. pose proof (wf_lock _ Hwf) as Hlk.
  unfold returned. simpl in *. subst lk.
  rewrite count_entries_length by lia. rewrite Z.add_0_l.
  set (n := Nat.min (length l) (Z.to_nat max)).
  assert ((if max <? Z.of_nat (length l) then max else Z.of_nat (length l)) = Z.of_nat n) as ->
    by (case_if; lia).
  change (Z.of_nat ml_sizeof) with 32.
  destruct (kmalloc_array (Z.of_nat n) 32) as [g|] eqn:Eg; [|reflexivity].
  apply kmalloc_array_size in Eg.
  pose proof (fill_buffer_overlay l max 0 [] g) as Hfill. rewrite Z.sub_0_r in Hfill.
  cbv zeta in Hfill. fold n in Hfill. cbn [app] in Hfill.
  cbn [add_live mutex_lock set_lock memory_limit_list].
  rewrite Hfill by (simpl; unfold ml_sizeof; lia).
  rewrite Z.add_0_l, Nat2Z.id.
  rewrite take_ge.
  2:{ rewrite overlay_length; unfold ml_sizeof; rewrite ?length_take; lia. }
  destruct (copy_to_user _ _ _) as [r um1]. unfold mutex_unlock, mutex_lock, set_lock, add_live.
  cbn [memory_limit_list memory_limit_lock live_allocs errno_log].
  replace (lv + 1 + -1) with lv by lia. case_if; [done|].
  destruct (put_user _ _ _ _) as [r2 um2]. by case_if.
Qed.

(** What user memory holds after a successful call. *)
Lemma get_success ubuf max pret st um st' um' :
  ml_wf st -> is_u 64 max -> Z.of_nat (length (memory_limit_list st)) < 2 ^ 26 ->
  let n := returned max st in
  pret + 4 <= ubuf \/ ubuf + Z.of_nat (ml_sizeof * n) <= pret ->
  so2_get_memory_limits ubuf max pret st um = Some (0, st', um') ->
  exists g, kmalloc_array (Z.of_nat n) 32 = Some g /\ length g = (ml_sizeof * n)%nat /\
    uread um' pret 4 = Some (le_bytes 4 (Z.of_nat n)) /\
    uread um' ubuf (ml_sizeof * n) = Some (overlay (take n (memory_limit_list st)) g).
Proof.
  intros Hwf Hm Hlen n Hd. rewrite get_closed by done. case_if; [by intros [=]|].
  unfold get_result. cbv zeta. fold n.
  destruct (kmalloc_array _ _) as [g|] eqn:Eg; [|by intros [=]].
  pose proof (kmalloc_array_size _ _ _ Eg) as Hg.
  set (l := take n (memory_limit_list st)).
  assert (length l = n) as Hl by (unfold l; rewrite length_take; unfold n, returned; lia).
  assert (length (overlay l g) = ml_sizeof * n)%nat as Hol.
  { rewrite overlay_length by (rewrite Hl; unfold ml_sizeof; lia). unfold ml_sizeof. lia. }
  destruct (copy_to_user _ _ _) as [r um1] eqn:Ec. case_if; [by intros [=]|].
  destruct (put_user _ _ _ _) as [r2 um2] eqn:Ep. case_if; [by intros [=]|].
  intros [= <- <-]. apply c_true_false in Hif0, Hif1. subst r2.
  pose proof (copy_to_user_count _ _ _ _ _ Ec) as Hr. rewrite Hol in Hr.
  assert (r = 0) as ->.
  { rewrite wrapS_id in Hif0; [done|lia|]. red. unfold ml_sizeof in Hr.
    unfold n, returned in Hr. lia. }
  exists g. split; [done|]. split; [unfold ml_sizeof; lia|].
  split; [by apply (put_user_uread _ _ _ _ _ Ep)|].
  rewrite <- Hol. rewrite <- (copy_to_user_uread _ _ _ _ Ec).
  apply (put_user_other _ _ _ _ _ _ _ _ Ep). rewrite Hol. change (Z.of_nat 4) with 4. lia.
Qed.

End reader.

Lemma demo_wf : ml_wf demo_state.
Proof.
  unfold demo_state. repeat apply add_wf; try (by split).
  split; simpl; (constructor || done).
Qed.

(** ** The two writers on the map *)

Lemma writers_refine `{E : MLEnv} pid limit st :
  (let r := so2_add_memory_limit pid limit st in (r.1, limits r.2))
    = spec_add kmalloc_entry pid limit (limits st) /\
  (let r := so2_update_memory_limit pid limit st in (r.1, limits r.2))
    = spec_update pid limit (limits st).
Proof.
  rewrite add_guards, update_guards. unfold spec_add, spec_update, limits. split.
  - case_if; [done|]. case_if.
    + apply entries_map_existsb in Hif0 as [v ->]. done.
    + rewrite entries_map_existsb_false by done. by case_if.
  - case_if; [done|]. pose proof (update_entry_limits pid limit (memory_limit_list st)) as Hu.
    destruct (update_entry _ _ _) as [l|]; simpl.
    + destruct Hu as [[v ->] ->]. done.
    + by rewrite Hu.
Qed.

Lemma limit_allowed_pos_args `{TaskEnv} pid limit :
  0 < pid -> 0 < limit -> limit_allowed pid limit <> - EINVAL.
Proof.
  intros Hp Hl. unfold limit_allowed. case_if; [lia|]. case_if; [done|].
  destruct (pid_task pid) as [t|]; [|done]. destruct (t_mm t); [|done]. by case_if.
Qed.

Lemma spec_add_not_einval `{TaskEnv} alloc pid limit m :
  limit_allowed pid limit <> - EINVAL ->
  forall m', spec_add alloc pid limit m <> (- EINVAL, m').
Proof. intros Hn m'. unfold spec_add. case_if; [congruence|]. destruct (m !! pid); [done|by case_if]. Qed.

Lemma spec_update_not_einval `{TaskEnv} pid limit m :
  limit_allowed pid limit <> - EINVAL ->
  forall m', spec_update pid limit m <> (- EINVAL, m').
Proof. intros Hn m'. unfold spec_update. case_if; [congruence|]. by destruct (m !! pid). Qed.

(** A successful [so2_add_memory_limit] leaves its entry at the head. *)
Lemma add_success_head `{E : MLEnv} pid limit old st :
  so2_add_memory_limit pid limit old = (0, st) ->
  exists l, memory_limit_list st = {| ml_pid := pid; ml_limit := limit |} :: l.
Proof.
  rewrite add_guards. case_if.
  { intros [= H _]. by rewrite H in Hif. }
  case_if; [done|]. case_if; [|done]. intros [= <-]. simpl. eauto.
Qed.

Lemma get_ok_max `{E : MLEnv} `{U : UserAccess} ubuf max pret st um st' um' :
  so2_get_memory_limits ubuf max pret st um = Some (0, st', um') -> 0 < max.
Proof. unfold so2_get_memory_limits. case_if; [done|]. lia. Qed.

Lemma decode_array_second size n bs :
  (1 < n)%nat -> decode_array size n bs !! 1%nat = Some (decode_entry (take size (drop size bs))).
Proof. destruct n as [|[|n]]; [lia|lia|done]. Qed.

(** The second half of the first element is not written. *)
Lemma stale_second l g n :
  length l = n -> length g = (ml_sizeof * n)%nat -> (1 < n)%nat ->
  decode_array 16 n (overlay l g) !! 1%nat = Some (decode_entry (slice ml_off_list 16 g)).
Proof.
  intros Hl Hg Hn. rewrite decode_array_second by done. do 2 f_equal.
  destruct l as [|e l]; [simpl in Hl; lia|]. cbn [overlay].
  change (take 16 (drop 16 ?x)) with (slice 16 16 x). unfold ml_sizeof, ml_off_list in *.
  assert (length (take 32 g) = 32%nat) as H32 by (rewrite length_take; lia).
  rewrite slice_app_l by (rewrite entry_bytes_length by done; lia).
  unfold entry_bytes. rewrite !app_assoc, slice_app_r; rewrite !length_app, !le_bytes_length.
  2:{ unfold slice. rewrite length_take, length_drop. lia. }
  assert (length (slice 4 4 (take 32 g)) = 4%nat) as H4
    by (unfold slice; rewrite length_take, length_drop; lia).
  rewrite H4. simpl (16 - _)%nat.
  rewrite slice_all by (unfold slice; rewrite length_take, length_drop; lia).
  change (take 32 g) with (slice 0 32 g). by rewrite slice_slice by lia.
Qed.

(** ** Properties *)

(** C1: in every state that any sequence of the three syscalls reaches from
    boot, the list has at most one entry per process, every entry has a positive
    pid_t and a non-zero size_t limit, the mutex is free, and the live kernel
    allocations are exactly the list nodes: no path leaks a node, the copy
    buffer or the lock. *)
Theorem ml_reachable_wf st : ml_reach st -> ml_wf st.
Proof.
  induction 1 as [|E pid limit st Hp Hl _ IH|E pid limit st Hp Hl _ IH
                  |E U ubuf max pret st um r st' um' Hm _ IH Hget].
  - split; simpl; (constructor || done).
  - by apply add_wf.
  - by apply update_wf.
  - rewrite get_closed in Hget by done. case_if_in Hget; [congruence|].
    destruct (get_result _ _ _ _ _). congruence.
Qed.

(** C2: what a caller who writes the limit [l], a signed number, gets from the
    two writers, against the contract of the manual (a finite map from processes
    to limits; a pid or a limit that is not positive is answered [-EINVAL]).
    For a limit that is not negative both writers answer exactly what the
    contract says and change the map exactly as it says, on every branch (bad
    argument, missing capability, unknown process, kernel thread, resident set
    above the limit, duplicate or absent entry, allocation failure, success).
    A pid that is not positive is answered [-EINVAL] with the map unchanged
    whatever the limit, as the manual says and unlike the case 2 of
    test_syscall7.c, which expects [-ESRCH] for pid -99999.  For a negative
    limit of a positive pid the contract, the comment of the code and the case 4
    of test_syscall7.c ask for [-EINVAL] and an unchanged map, and the code
    departs from them: [memory_limit] is a size_t, so it does what the contract
    says for the limit 2^64 + l, which is never to answer [-EINVAL]. *)
Theorem ml_refines_map (E : MLEnv) pid l st :
  is_s 64 l ->
  let add := so2_add_memory_limit pid (u64 l) st in
  let update := so2_update_memory_limit pid (u64 l) st in
  (0 <= l ->
    (add.1, limits add.2) = spec_add kmalloc_entry pid l (limits st) /\
    (update.1, limits update.2) = spec_update pid l (limits st)) /\
  (pid <= 0 -> add = (- EINVAL, st) /\ update = (- EINVAL, set_errno EINVAL st)) /\
  (l < 0 < pid ->
    spec_add kmalloc_entry pid l (limits st) = (- EINVAL, limits st) /\
    spec_update pid l (limits st) = (- EINVAL, limits st) /\
    (add.1, limits add.2) = spec_add kmalloc_entry pid (2 ^ 64 + l) (limits st) /\
    (update.1, limits update.2) = spec_update pid (2 ^ 64 + l) (limits st) /\
    add.1 <> - EINVAL /\ update.1 <> - EINVAL).
Proof.
  intros Hl add update. red in Hl.
  pose proof (writers_refine pid (u64 l) st) as [Ha Hu]. cbv zeta in Ha, Hu.
  split; [|split].
  - intros H0. subst add update. by rewrite wrapU_id in * by (red; lia).
  - intros Hp. subst add update. unfold so2_add_memory_limit, so2_update_memory_limit.
    by rewrite (proj2 (Z.leb_le _ _) Hp).
  - intros [Hneg Hp]. subst add update.
    assert (u64 l = 2 ^ 64 + l) as Hw by (unfold wrapU; zlia). rewrite Hw in *.
    assert (limit_allowed pid l = - EINVAL) as Hs
      by (unfold limit_allowed; case_if; [done|lia]).
    pose proof (limit_allowed_pos_args pid (2 ^ 64 + l) Hp ltac:(lia)) as Hc.
    repeat split; try (unfold spec_add, spec_update; by rewrite Hs); try done.
    + intros Hbad. rewrite Hbad in Ha. exact (spec_add_not_einval _ _ _ _ Hc _ (eq_sym Ha)).
    + intros Hbad. rewrite Hbad in Hu. exact (spec_update_not_einval _ _ _ Hc _ (eq_sym Hu)).
Qed.

(** Process 1234 with the limits 500, -1024 and, for pid -99999, 1024. *)
Lemma ml_refines_map_witness :
  limits (so2_add_memory_limit 1234 500 ml_init).2 = <[1234 := 500]> empty /\
  so2_add_memory_limit (-99999) 1024 ml_init = (- EINVAL, ml_init) /\
  (spec_add kmalloc_entry 1234 (-1024) empty).1 = - EINVAL /\
  limits (so2_add_memory_limit 1234 (u64 (-1024)) ml_init).2
    = <[1234 := 2 ^ 64 - 1024]> empty.
Proof.
  destruct (ml_refines_map demo_env 1234 500 ml_init ltac:(by split)) as [[Ha _] _]; [lia|].
  destruct (ml_refines_map demo_env (-99999) 1024 ml_init ltac:(by split)) as (_ & [Hp _] & _);
    [lia|].
  destruct (ml_refines_map demo_env 1234 (-1024) ml_init ltac:(by split)) as (_ & _ & Hn).
  destruct (Hn ltac:(lia)) as (Hs & _ & Hc & _).
  apply (f_equal snd) in Ha, Hc. apply (f_equal fst) in Hs.
  exact (conj Ha (conj Hp (conj Hs Hc))).
Defined.

(** [so2_get_memory_limits] is total on well-formed states: its copying loop
    never writes past the block it allocated, it answers one of four codes, and
    it leaves the list, the mutex and the allocation count as they were on
    every path, the failing ones included. *)
Theorem ml_get_total (E : MLEnv) (U : UserAccess) ubuf max pret st um :
  ml_wf st -> is_u 64 max ->
  exists r um', so2_get_memory_limits ubuf max pret st um = Some (r, st, um') /\
    (r = 0 \/ r = - EINVAL \/ r = - ENOMEM \/ r = - EFAULT) /\
    (r = - EINVAL -> um' = um).
Proof.
  intros Hwf Hm. rewrite get_closed by done. case_if; [eauto 8|].
  unfold get_result. cbv zeta. destruct (kmalloc_array _ _); [|eauto 8].
  destruct (copy_to_user _ _ _) as [r um1]. case_if; [eexists _, _; split; [done|]; split; auto; done|].
  destruct (put_user _ _ _ _) as [r2 um2].
  case_if; eexists _, _; (split; [done|]); split; auto; done.
Qed.

Lemma ml_get_total_witness :
  ml_wf demo_state /\
  exists r um', so2_get_memory_limits (U := FlatMemory.flat) 1048576 10 4096 demo_state demo_umem
      = Some (r, demo_state, um') /\
    (r = 0 \/ r = - EINVAL \/ r = - ENOMEM \/ r = - EFAULT) /\
    (r = - EINVAL -> um' = demo_umem).
Proof.
  split; [exact demo_wf|]. exact (ml_get_total demo_env FlatMemory.flat 1048576 10 4096
    demo_state demo_umem demo_wf ltac:(by split)).
Defined.

Lemma ml_reachable_wf_witness : ml_wf demo_state.
Proof.
  apply (ml_reachable_wf demo_state). unfold demo_state.
  repeat (apply reach_add; [by split|by split|]). apply reach_init.
Defined.

(** C28: what a successful call delivers.  The user reads the number of entries
    returned, min(list length, max), and an array whose elements, at the
    kernel's layout of 32 bytes, are that many entries of the list in list
    order.  (The list is shorter than 2^26 entries: the id space of the kernel
    ends at 2^22.)  The two expectations of the repository's user programs that
    this contradicts are stated with it.  The order is newest first: element 0
    is the entry added last, while test_syscall9.c expects the oldest there.
    And the programs declare the structure without the list link, 16 bytes, as
    the manual does: read with that element size, element 1 of the array is
    never an entry of the list but the stale bytes 16 to 31 of the block [g] the
    allocator handed out. *)
Theorem ml_get_delivers (E : MLEnv) (U : UserAccess) ubuf max pret st um st' um' :
  ml_wf st -> is_u 64 max -> Z.of_nat (length (memory_limit_list st)) < 2 ^ 26 ->
  let n := returned max st in
  pret + 4 <= ubuf \/ ubuf + Z.of_nat (ml_sizeof * n) <= pret ->
  so2_get_memory_limits ubuf max pret st um = Some (0, st', um') ->
  uread um' pret 4 = Some (le_bytes 4 (Z.of_nat n)) /\
  exists bs, uread um' ubuf (ml_sizeof * n) = Some bs /\
    decode_array ml_sizeof n bs = take n (memory_limit_list st) /\
    (forall (E' : MLEnv) pid limit old,
      so2_add_memory_limit pid limit old = (0, st) ->
      decode_array ml_sizeof n bs !! 0%nat = Some {| ml_pid := pid; ml_limit := limit |}) /\
    ((1 < n)%nat -> exists g, kmalloc_array (Z.of_nat n) 32 = Some g /\
      decode_array 16 n bs !! 1%nat = Some (decode_entry (slice ml_off_list 16 g))).
Proof.
  intros Hwf Hm Hlen n Hd Hget.
  destruct (get_success _ _ _ _ _ _ _ Hwf Hm Hlen Hd Hget) as (g & Eg & Hg & Hc & Hb).
  split; [exact Hc|]. exists (overlay (take n (memory_limit_list st)) g). split; [exact Hb|].
  assert (length (take n (memory_limit_list st)) = n) as Hl
    by (rewrite length_take; unfold n, returned; lia).
  assert (decode_array ml_sizeof n (overlay (take n (memory_limit_list st)) g)
    = take n (memory_limit_list st)) as Hdec.
  { rewrite <- Hl at 1. apply decode_array_overlay; [apply Forall_take, Hwf|]. by rewrite Hl. }
  split; [exact Hdec|]. split.
  - intros E' pid limit old Hadd. apply add_success_head in Hadd as [l Hst].
    assert (0 < max) as Hpos by (apply (get_ok_max _ _ _ _ _ _ _ Hget)).
    assert (0 < n)%nat as Hn by (unfold n, returned; rewrite Hst; cbn [length]; lia).
    rewrite Hdec, Hst. by destruct n; [lia|].
  - intros Hn. exists g. split; [exact Eg|].
    apply stale_second; [exact Hl|exact Hg|exact Hn].
Qed.

Lemma ml_get_delivers_witness :
  uread (U := FlatMemory.flat) demo_umem' 4096 4 = Some (le_bytes 4 2) /\
  exists bs, uread (U := FlatMemory.flat) demo_umem' 1048576 64 = Some bs /\
    decode_array ml_sizeof 2 bs
      = [{| ml_pid := 5678; ml_limit := 1000 |}; {| ml_pid := 1234; ml_limit := 500 |}] /\
    decode_array ml_sizeof 2 bs !! 0%nat = Some {| ml_pid := 5678; ml_limit := 1000 |} /\
    decode_array 16 2 bs !! 1%nat
      = Some {| ml_pid := -1431655766; ml_limit := 12297829382473034410 |}.
Proof.
  assert (so2_get_memory_limits (U := FlatMemory.flat) 1048576 10 4096 demo_state demo_umem
    = Some (0, demo_state, demo_umem')) as Eg
    by vm_eq.
  destruct (ml_get_delivers demo_env FlatMemory.flat 1048576 10 4096 demo_state demo_umem
    demo_state demo_umem' demo_wf ltac:(by split) ltac:(done) ltac:(by left) Eg)
    as (Hc & bs & Hb & Hd & Hnew & Hst).
  split; [exact Hc|]. exists bs. split; [exact Hb|]. split; [exact Hd|].
  split; [by apply (Hnew demo_env 5678 1000 (so2_add_memory_limit 1234 500 ml_init).2)|].
  destruct Hst as (g & Hg & Hs); [vm_compute; lia|].
  vm_compute in Hg. injection Hg as <-. etrans; [exact Hs|]. vm_compute. reflexivity.
Defined.

(** The block that [so2_get_memory_limits] copies out is never initialised
    beyond the two fields it assigns: for every returned entry the sixteen bytes
    of the list link that reach user space are the stale bytes the allocator
    handed out. *)
Theorem ml_get_leaks_heap (E : MLEnv) (U : UserAccess) ubuf max pret st um st' um' g (i : nat) :
  ml_wf st -> is_u 64 max -> Z.of_nat (length (memory_limit_list st)) < 2 ^ 26 ->
  let n := returned max st in
  pret + 4 <= ubuf \/ ubuf + Z.of_nat (ml_sizeof * n) <= pret ->
  so2_get_memory_limits ubuf max pret st um = Some (0, st', um') ->
  kmalloc_array (Z.of_nat n) 32 = Some g -> (i < n)%nat ->
  uread um' (ubuf + Z.of_nat (ml_sizeof * i + ml_off_list)) 16
    = Some (slice (ml_sizeof * i + ml_off_list) 16 g).
Proof.
  intros Hwf Hm Hlen n Hd Hget Hg Hi.
  destruct (get_success _ _ _ _ _ _ _ Hwf Hm Hlen Hd Hget) as (g' & Eg & Hgl & _ & Hb).
  fold n in Eg, Hgl, Hb. assert (g' = g) as -> by congruence.
  rewrite (uread_slice _ _ _ _ _ _ Hb) by (unfold ml_sizeof, ml_off_list; lia). f_equal.
  set (l := take n (memory_limit_list st)).
  assert (length l = n) as Hl by (unfold l; rewrite length_take; unfold n, returned; lia).
  destruct (lookup_lt_is_Some_2 l i) as [e He]; [lia|].
  pose proof (overlay_slot l g i e ltac:(rewrite Hl; lia) He) as Hs.
  rewrite <- (slice_slice _ ml_off_list 16 (ml_sizeof * i) ml_sizeof)
    by (unfold ml_sizeof, ml_off_list; lia).
  rewrite Hs. unfold entry_bytes, ml_off_list.
  rewrite !app_assoc, slice_app_r; rewrite !length_app, !le_bytes_length.
  2:{ unfold slice. rewrite !length_take. lia. }
  assert (length (slice (ml_sizeof * i) ml_sizeof g) = 32%nat) as H32
    by (unfold slice; rewrite length_take, length_drop; unfold ml_sizeof in *; lia).
  assert (length (slice 4 4 (slice (ml_sizeof * i) ml_sizeof g)) = 4%nat) as H4
    by (unfold slice at 1; rewrite length_take, length_drop; lia).
  rewrite H4. simpl (16 - _)%nat.
  rewrite slice_all by (unfold slice at 1; rewrite length_take, length_drop; lia).
  apply slice_slice. unfold ml_sizeof. lia.
Qed.

Lemma ml_get_leaks_heap_witness :
  uread (U := FlatMemory.flat) demo_umem' (1048576 + 16) 16 = Some (replicate 16 170).
Proof.
  assert (so2_get_memory_limits (U := FlatMemory.flat) 1048576 10 4096 demo_state demo_umem
    = Some (0, demo_state, demo_umem')) as Eg by vm_eq.
  refine (ml_get_leaks_heap demo_env FlatMemory.flat 1048576 10 4096 demo_state demo_umem
    demo_state demo_umem' (replicate 64 170) 0 demo_wf _ _ _ Eg _ _);
    [by split|done|by left|done|]. vm_compute. lia.
Defined.

(** A limit that user space passes as a negative number is not rejected:
    [memory_limit] is a size_t, so the test [memory_limit <= 0] only catches
    zero, and the call succeeds whenever the process could be limited at all. *)
Theorem ml_negative_limit_accepted (E : MLEnv) pid k t mm st :
  0 < pid -> 0 < k <= 2 ^ 63 -> capable CAP_SYS_ADMIN = true ->
  pid_task pid = Some t -> t_mm t = Some mm ->
  limits st !! pid = None -> kmalloc_entry = true ->
  exists st', so2_add_memory_limit pid (u64 (- k)) st = (0, st') /\
    limits st' !! pid = Some (2 ^ 64 - k).
Proof.
  intros Hp Hk Hc Ht Hm Hf Ha.
  assert (u64 (- k) = 2 ^ 64 - k) as -> by (unfold wrapU; zlia).
  pose proof (rss_kb_range mm) as Hr.
  assert (limit_allowed pid (2 ^ 64 - k) = 0) as Hla.
  { unfold limit_allowed. rewrite Hc, Ht, Hm. case_if; [lia|]. simpl. case_if; lia. }
  rewrite add_guards, Hla, Ha. simpl.
  destruct (existsb _ _) eqn:Ee.
  { apply entries_map_existsb in Ee as [v Hv]. unfold limits in Hf. congruence. }
  eexists. split; [done|]. unfold limits. simpl. apply lookup_insert_eq.
Qed.

Lemma ml_negative_limit_accepted_witness : exists st',
  so2_add_memory_limit 1234 (u64 (-1024)) ml_init = (0, st') /\
  limits st' !! 1234 = Some (2 ^ 64 - 1024).
Proof.
  exact (ml_negative_limit_accepted demo_env 1234 1024 (proc 1234 10)
    {| total_vm := 20; rss_pages := 10 |} ml_init ltac:(lia) ltac:(lia)
    eq_refl eq_refl eq_refl eq_refl eq_refl).
Defined.

(** The list is read newest first, while test_syscall9.c expects the entries in
    the order they were added (buffer[0] is process 1234). *)
Lemma ml_demo_newest_first :
  ml_pid <$> memory_limit_list demo_state = [5678; 1234].
Proof. reflexivity. Qed.

(** The user programs of test/ declare the entry without the list link (16
    bytes): decoded with that size, the second element of the array is made of
    the stale bytes of the first. *)
Lemma ml_demo_user_stride :
  (decode_array 16 2 (overlay (memory_limit_list demo_state) (replicate 64 170))) !! 1%nat
    = Some {| ml_pid := -1431655766; ml_limit := 12297829382473034410 |}.
Proof. reflexivity. Qed.
