(* ===== verification/MemLimitConc.v ===== *)
(** * Concurrent callers of the memory limit syscalls

    The syscalls of syscall7.c run on any number of threads.  Each call first
    evaluates its guards without the lock, then takes [memory_limit_lock], works
    on the list in several steps (search, then link; count and allocate, then
    copy) and unlocks.  This file is the small-step semantics of that: a thread
    is at one of the points between the steps, the lock has an owner, and any
    enabled thread may move.  The processes, the privileges and the allocator
    may change between two steps, so every step carries its own environment.
    What [so2_get_memory_limits] does after the unlock (the copy of its private
    block to user space) touches nothing shared and belongs to the unlocking
    step, which may end in a fault.  The state keeps a log of the list
    operations in the order in which they took effect, with the thread, its
    request and its answer. *)
From S2P Require Import Prelude UserMem Task MemLimit.

Inductive request :=
| RAdd (pid limit : Z)
| RUpdate (pid limit : Z)
| RGet (max : Z).

(** What a call answers: a return value, or 0 with the entries that
    [so2_get_memory_limits] delivers. *)
Inductive answer :=
| ARet (ret : Z)
| AEntries (es : list memory_limitation).

(** Where a call stands. *)
Inductive tstate :=
| TStart (r : request)                      (* entry: the guards are next *)
| TWait (r : request)                       (* guards passed, at mutex_lock *)
| TLocked (r : request)                     (* holds the lock: search / count *)
| TLink (pid limit : Z)                     (* not found: allocate and link *)
| TCopy (max : Z) (buffer : list Z)         (* allocated: fill the buffer *)
| TUnlock (a : answer)                      (* at mutex_unlock *)
| TDone (a : answer).

(** A list operation that took effect. *)
Record event := {
  ev_thread : nat;
  ev_req : request;
  ev_alloc : bool;                          (* the allocator's answer *)
  ev_answer : answer
}.

Record conc_state := {
  c_list : list memory_limitation;
  c_owner : option nat;
  c_threads : list tstate;
  c_overflow : bool;                        (* a copy ran past its block *)
  c_log : list event                        (* completed list operations, latest first *)
}.

(** The guards before the lock. *)
Definition guard_code {E : MLEnv} (r : request) : Z :=
  match r with
  | RAdd pid limit | RUpdate pid limit => limit_allowed pid limit
  | RGet max => if max <=? 0 then - EINVAL else 0
  end.

(** The list operation of a request, executed at once: what the critical
    section means.  The boolean is the allocator's answer. *)
Definition atomic_op (r : request) (alloc : bool) (l : list memory_limitation)
    : answer * list memory_limitation :=
  match r with
  | RAdd pid limit =>
      if existsb (same_pid pid) l then (ARet (-101), l)
      else if alloc then (ARet 0, {| ml_pid := pid; ml_limit := limit |} :: l)
      else (ARet (- ENOMEM), l)
  | RUpdate pid limit =>
      match update_entry pid limit l with
      | Some l' => (ARet 0, l')
      | None => (ARet (-102), l)
      end
  | RGet max => if alloc then (AEntries (take (Z.to_nat max) l), l) else (ARet (- ENOMEM), l)
  end.

(** The list after the logged operations, the oldest first. *)
Fixpoint replay (log : list event) : list memory_limitation :=
  match log with
  | [] => []
  | e :: log' => (atomic_op (ev_req e) (ev_alloc e) (replay log')).2
  end.

Fixpoint log_ok (log : list event) : Prop :=
  match log with
  | [] => True
  | e :: log' =>
      ev_answer e = (atomic_op (ev_req e) (ev_alloc e) (replay log')).1 /\ log_ok log'
  end.

Definition set_thread (i : nat) (t : tstate) (s : conc_state) : conc_state :=
  {| c_list := c_list s; c_owner := c_owner s; c_threads := <[i := t]> (c_threads s);
     c_overflow := c_overflow s; c_log := c_log s |}.

Definition set_owner (o : option nat) (s : conc_state) : conc_state :=
  {| c_list := c_list s; c_owner := o; c_threads := c_threads s;
     c_overflow := c_overflow s; c_log := c_log s |}.

(** Thread [i] ends its list operation with the list [l] and the answer [a],
    which it keeps for its return. *)
Definition finish (i : nat) (l : list memory_limitation) (r : request) (alloc : bool)
    (a : answer) (s : conc_state) : conc_state :=
  {| c_list := l; c_owner := c_owner s; c_threads := c_threads s;
     c_overflow := c_overflow s;
     c_log := {| ev_thread := i; ev_req := r; ev_alloc := alloc; ev_answer := a |} :: c_log s |}.

Definition overflowed (s : conc_state) : conc_state :=
  {| c_list := c_list s; c_owner := c_owner s; c_threads := c_threads s;
     c_overflow := true; c_log := c_log s |}.

Definition request_ok (r : request) : Prop :=
  match r with
  | RAdd pid limit | RUpdate pid limit => is_s 32 pid /\ is_u 64 limit
  | RGet max => is_u 64 max
  end.

(** The buffer length [so2_get_memory_limits] asks for. *)
Definition get_count (max : Z) (l : list memory_limitation) : Z :=
  let count := count_entries l 0 in if max <? count then max else count.

(** One step of thread [i], from the point [t]. *)
Inductive tstep (i : nat) : tstate -> conc_state -> conc_state -> Prop :=
| step_reject (E : MLEnv) r s :
    guard_code r <> 0 ->
    tstep i (TStart r) s (set_thread i (TDone (ARet (guard_code r))) s)
| step_guards (E : MLEnv) r s :
    guard_code r = 0 -> tstep i (TStart r) s (set_thread i (TWait r) s)
| step_lock r s :
    c_owner s = None ->
    tstep i (TWait r) s (set_thread i (TLocked r) (set_owner (Some i) s))
| step_found pid limit s :
    existsb (same_pid pid) (c_list s) = true ->
    tstep i (TLocked (RAdd pid limit)) s
      (set_thread i (TUnlock (ARet (-101)))
         (finish i (c_list s) (RAdd pid limit) true (ARet (-101)) s))
| step_fresh pid limit s :
    existsb (same_pid pid) (c_list s) = false ->
    tstep i (TLocked (RAdd pid limit)) s (set_thread i (TLink pid limit) s)
| step_link pid limit s :
    tstep i (TLink pid limit) s
      (set_thread i (TUnlock (ARet 0))
         (finish i ({| ml_pid := pid; ml_limit := limit |} :: c_list s)
            (RAdd pid limit) true (ARet 0) s))
| step_nomem pid limit s :
    tstep i (TLink pid limit) s
      (set_thread i (TUnlock (ARet (- ENOMEM)))
         (finish i (c_list s) (RAdd pid limit) false (ARet (- ENOMEM)) s))
| step_updated pid limit l s :
    update_entry pid limit (c_list s) = Some l ->
    tstep i (TLocked (RUpdate pid limit)) s
      (set_thread i (TUnlock (ARet 0)) (finish i l (RUpdate pid limit) true (ARet 0) s))
| step_absent pid limit s :
    update_entry pid limit (c_list s) = None ->
    tstep i (TLocked (RUpdate pid limit)) s
      (set_thread i (TUnlock (ARet (-102)))
         (finish i (c_list s) (RUpdate pid limit) true (ARet (-102)) s))
| step_count (E : MLEnv) max s g :
    kmalloc_array (get_count max (c_list s)) (Z.of_nat ml_sizeof) = Some g ->
    tstep i (TLocked (RGet max)) s (set_thread i (TCopy max g) s)
| step_get_nomem (E : MLEnv) max s :
    kmalloc_array (get_count max (c_list s)) (Z.of_nat ml_sizeof) = None ->
    tstep i (TLocked (RGet max)) s
      (set_thread i (TUnlock (ARet (- ENOMEM)))
         (finish i (c_list s) (RGet max) false (ARet (- ENOMEM)) s))
| step_copy max g count buf s :
    fill_buffer (c_list s) max 0 g = Some (count, buf) ->
    let a := AEntries (decode_array ml_sizeof (Z.to_nat count) buf) in
    tstep i (TCopy max g) s
      (set_thread i (TUnlock a) (finish i (c_list s) (RGet max) true a s))
| step_overflow max g s :
    fill_buffer (c_list s) max 0 g = None ->
    tstep i (TCopy max g) s (set_thread i (TUnlock (ARet 0)) (overflowed s))
| step_unlock a s :
    tstep i (TUnlock a) s (set_thread i (TDone a) (set_owner None s))
| step_fault es s :
    tstep i (TUnlock (AEntries es)) s
      (set_thread i (TDone (ARet (- EFAULT))) (set_owner None s)).

Inductive cstep (s s' : conc_state) : Prop :=
| cstep_thread i t : c_threads s !! i = Some t -> tstep i t s s' -> cstep s s'.

(** All threads at their entry, the list empty. *)
Definition conc_init (rs : list request) : conc_state :=
  {| c_list := []; c_owner := None; c_threads := TStart <$> rs;
     c_overflow := false; c_log := [] |}.

Inductive conc_reach (rs : list request) : conc_state -> Prop :=
| conc_start : conc_reach rs (conc_init rs)
| conc_move s s' : conc_reach rs s -> cstep s s' -> conc_reach rs s'.

(** Points inside the critical section. *)
Definition in_cs (t : tstate) : bool :=
  match t with
  | TLocked _ | TLink _ _ | TCopy _ _ | TUnlock _ => true
  | _ => false
  end.

(** The owner of the lock is the one thread inside the critical section. *)
Definition mutex_ok (s : conc_state) : Prop :=
  forall i t, c_threads s !! i = Some t -> in_cs t = true <-> c_owner s = Some i.

(** What a thread knows at its point, given the current list. *)
Definition point_ok (l : list memory_limitation) (t : tstate) : Prop :=
  match t with
  | TStart r => request_ok r
  | TWait r | TLocked r =>
      request_ok r /\
      match r with
      | RAdd pid limit | RUpdate pid limit => 0 < pid /\ 0 < limit
      | RGet max => 0 < max
      end
  | TLink pid limit =>
      request_ok (RAdd pid limit) /\ 0 < pid /\ 0 < limit /\ existsb (same_pid pid) l = false
  | TCopy max g =>
      is_u 64 max /\ 0 < max /\ Z.of_nat (length g) = get_count max l * Z.of_nat ml_sizeof
  | TUnlock _ | TDone _ => True
  end.

Record conc_inv (s : conc_state) : Prop := {
  ci_mutex : mutex_ok s;
  ci_owner : forall i, c_owner s = Some i -> is_Some (c_threads s !! i);
  ci_points : forall i t, c_threads s !! i = Some t -> point_ok (c_list s) t;
  ci_nodup : NoDup (ml_pid <$> c_list s);
  ci_entries : Forall entry_ok (c_list s);
  ci_safe : c_overflow s = false;
  ci_list : c_list s = replay (c_log s);
  ci_log : log_ok (c_log s)
}.

(** *** Threads and the log *)

Definition logged (s : conc_state) : list nat := ev_thread <$> c_log s.

(** What the answer of a call comes to for its caller: the delivery of the
    entries may fault. *)
Definition returns (a ret : answer) : Prop :=
  ret = a \/ (exists es, a = AEntries es) /\ ret = ARet (- EFAULT).

(** A call that its guards rejected, in the environment it ran in. *)
Definition rejected (r : request) (ret : answer) : Prop :=
  exists E : MLEnv, guard_code r <> 0 /\ ret = ARet (guard_code r).

(** The request of a thread before its list operation took effect. *)
Definition pending (t : tstate) : option request :=
  match t with
  | TStart r | TWait r | TLocked r => Some r
  | TLink pid limit => Some (RAdd pid limit)
  | TCopy max _ => Some (RGet max)
  | TUnlock _ | TDone _ => None
  end.

(** What the log says of thread [i], which made the request [r]. *)
Definition thread_logged (i : nat) (r : request) (log : list event) (t : tstate) : Prop :=
  match t with
  | TUnlock a => exists e, e ∈ log /\ ev_thread e = i /\ ev_answer e = a
  | TDone ret =>
      (exists e, e ∈ log /\ ev_thread e = i /\ returns (ev_answer e) ret) \/
      (i ∉ ev_thread <$> log /\ rejected r ret)
  | _ => pending t = Some r /\ i ∉ ev_thread <$> log
  end.

Record log_inv (rs : list request) (s : conc_state) : Prop := {
  li_threads : forall i t, c_threads s !! i = Some t ->
    exists r, rs !! i = Some r /\ thread_logged i r (c_log s) t;
  li_events : forall e, e ∈ c_log s -> rs !! ev_thread e = Some (ev_req e);
  li_once : NoDup (logged s)
}.

(** Steps a call still has to make. *)
Definition rank (t : tstate) : nat :=
  match t with
  | TStart _ => 5 | TWait _ => 4 | TLocked _ => 3
  | TLink _ _ | TCopy _ _ => 2 | TUnlock _ => 1 | TDone _ => 0
  end%nat.

Definition work (s : conc_state) : nat := sum_list_with rank (c_threads s).

(** [n] steps from [s] to [s']. *)
Inductive nsteps : nat -> conc_state -> conc_state -> Prop :=
| nsteps_0 s : nsteps 0 s s
| nsteps_S n s s' s'' : cstep s s' -> nsteps n s' s'' -> nsteps (S n) s s''.

(** ** Preservation *)

Lemma threads_insert (s : conc_state) i t t' j u :
  c_threads s !! i = Some t -> <[i := t']> (c_threads s) !! j = Some u ->
  (j = i /\ u = t') \/ (j <> i /\ c_threads s !! j = Some u).
Proof.
  intros Hi Hj. destruct (decide (j = i)) as [->|Hne].
  - rewrite list_lookup_insert_eq in Hj by (eapply lookup_lt_Some; eauto).
    left. split; congruence.
  - rewrite list_lookup_insert_ne in Hj by done. auto.
Qed.

(** How the owner may change together with the point of one thread. *)
Definition owner_moves (i : nat) (t t' : tstate) (o o' : option nat) : Prop :=
  (in_cs t = in_cs t' /\ o' = o) \/
  (in_cs t = false /\ in_cs t' = true /\ o = None /\ o' = Some i) \/
  (in_cs t = true /\ in_cs t' = false /\ o' = None).

Lemma mutex_update (s : conc_state) i t t' o' l ov lg :
  mutex_ok s -> c_threads s !! i = Some t -> owner_moves i t t' (c_owner s) o' ->
  mutex_ok {| c_list := l; c_owner := o'; c_threads := <[i := t']> (c_threads s);
              c_overflow := ov; c_log := lg |}.
Proof.
  intros Hm Hi Ho j u Hj. simpl in *.
  pose proof (Hm i t Hi) as Hmi.
  destruct (threads_insert _ _ _ _ _ _ Hi Hj) as [[-> ->]|[Hne Hj']].
  - destruct Ho as [[<- ->]|[(?&?&?&->)|(?&?&->)]]; [done|naive_solver|].
    split; congruence.
  - specialize (Hm j u Hj').
    destruct Ho as [[? ->]|[(?&?&Ho&->)|(Ht&?&->)]]; [done| |].
    + rewrite Hm, Ho. split; [done|]. congruence.
    + apply Hmi in Ht. rewrite Hm, Ht. split; [congruence|done].
Qed.

Lemma point_outside l l' t : in_cs t = false -> point_ok l t -> point_ok l' t.
Proof. by destruct t. Qed.

(** The invariant of a step: the thread's new point, the owner, and, when the
    list changes, the lock held. *)
Lemma inv_update (s : conc_state) i t t' o' l ov lg :
  conc_inv s -> c_threads s !! i = Some t -> owner_moves i t t' (c_owner s) o' ->
  (l = c_list s \/ in_cs t = true) -> point_ok l t' ->
  NoDup (ml_pid <$> l) -> Forall entry_ok l -> ov = false ->
  l = replay lg -> log_ok lg ->
  conc_inv {| c_list := l; c_owner := o'; c_threads := <[i := t']> (c_threads s);
              c_overflow := ov; c_log := lg |}.
Proof.
  intros [Hm Hown Hp _ _ _ _ _] Hi Ho Hl Ht' Hnd Hok -> Hrep Hlog.
  split; simpl; try done.
  - by apply mutex_update with t.
  - intros j Hj. rewrite list_lookup_insert. case_decide; [eauto|].
    destruct Ho as [[_ ->]|[(_&_&_&->)|(_&_&->)]]; [by apply Hown| |done].
    injection Hj as <-. pose proof (lookup_lt_Some _ _ _ Hi). naive_solver.
  - intros j u Hj. destruct (threads_insert _ _ _ _ _ _ Hi Hj) as [[-> ->]|[Hne Hj']]; [done|].
    destruct Hl as [->|Ht]; [by apply (Hp j)|].
    apply point_outside with (c_list s); [|by apply (Hp j)].
    apply (Hm i t Hi) in Ht. destruct (in_cs u) eqn:Eu; [|done].
    apply (Hm j u Hj') in Eu. congruence.
Qed.

Lemma guard_passed {E : MLEnv} l r :
  guard_code r = 0 -> point_ok l (TStart r) -> point_ok l (TWait r).
Proof.
  destruct r as [pid limit|pid limit|max]; simpl; intros Hg Hr; split; try done.
  - by apply limit_allowed_pos.
  - by apply limit_allowed_pos.
  - case_if_in Hg; [done|lia].
Qed.

Lemma nodup_entries_length l :
  NoDup (ml_pid <$> l) -> Forall entry_ok l -> Z.of_nat (length l) < 2 ^ 31.
Proof.
  intros Hnd Hok.
  apply (wf_length {| memory_limit_list := l; memory_limit_lock := false;
                      live_allocs := Z.of_nat (length l); errno_log := [] |}).
  by split.
Qed.

(** Under the lock the block still fits the list when it is filled, and what it
    holds then are the first entries of the list. *)
Lemma copy_delivers l max g :
  NoDup (ml_pid <$> l) -> Forall entry_ok l -> point_ok l (TCopy max g) ->
  exists count buf, fill_buffer l max 0 g = Some (count, buf) /\
    decode_array ml_sizeof (Z.to_nat count) buf = take (Z.to_nat max) l.
Proof.
  intros Hnd Hok (Hu & Hm & Hg). pose proof (nodup_entries_length l Hnd Hok) as Hlen.
  unfold get_count in Hg. red in Hu. cbv zeta in Hg. rewrite count_entries_length in Hg by lia.
  pose proof (fill_buffer_overlay l max 0 [] g) as Hfill. cbv zeta in Hfill.
  rewrite Z.sub_0_r in Hfill. cbn [app] in Hfill.
  set (n := Nat.min (length l) (Z.to_nat max)) in *.
  assert (length g = ml_sizeof * n)%nat as Hgl
    by (unfold ml_sizeof in *; case_if_in Hg; lia).
  eexists _, _. split; [apply Hfill; try done; unfold ml_sizeof in *; lia|].
  assert (take (Z.to_nat max) l = take n l) as ->.
  { unfold n. destruct (Nat.min_spec (length l) (Z.to_nat max)) as [[? ->]|[? ->]]; [|done].
    by rewrite !take_ge by lia. }
  assert (length (take n l) = n) as Hl by (rewrite length_take; lia).
  rewrite Z.add_0_l, Nat2Z.id. rewrite <- Hl at 1.
  apply decode_array_overlay; [by apply Forall_take|]. by rewrite Hl.
Qed.

Lemma copy_fits l max g :
  NoDup (ml_pid <$> l) -> Forall entry_ok l -> point_ok l (TCopy max g) ->
  is_Some (fill_buffer l max 0 g).
Proof. intros Hnd Hok Hp. destruct (copy_delivers l max g Hnd Hok Hp) as (n & b & -> & _). eauto. Qed.

Lemma tstep_inv i t s s' :
  conc_inv s -> c_threads s !! i = Some t -> tstep i t s s' -> conc_inv s'.
Proof.
  intros Hinv Hi Hstep. pose proof Hinv as [Hm Hown Hp Hnd Hok Hov Hrep Hlog].
  pose proof (Hp i t Hi) as Hpt.
  assert (in_cs t = true -> c_owner s = Some i) as Hcs by (by apply (Hm i t Hi)).
  destruct Hstep; unfold set_thread, set_owner, finish, overflowed;
    cbn [c_list c_owner c_threads c_overflow c_log];
    (eapply inv_update; [exact Hinv|exact Hi|unfold owner_moves; simpl; tauto|
      simpl; auto| | | | | |]); simpl; rewrite <- ?Hrep; try done.
  - by apply (guard_passed (c_list s)).
  - by rewrite H.
  - by rewrite H.
  - naive_solver.
  - destruct Hpt as (_ & _ & _ & Hf). apply NoDup_cons_2; [by apply existsb_pids|done].
  - destruct Hpt as ([[? ?] [? ?]] & ? & ? & _). constructor; [|done]. split; simpl; lia.
  - destruct Hpt as (_ & _ & _ & Hf). by rewrite Hf.
  - destruct Hpt as (_ & _ & _ & Hf). by rewrite Hf.
  - destruct Hpt as (_ & _ & _ & Hf). by rewrite Hf.
  - destruct Hpt as (_ & _ & _ & Hf). by rewrite Hf.
  - by rewrite (update_entry_pids _ _ _ _ H).
  - destruct Hpt as ([_ [? ?]] & ? & ?). apply (update_entry_ok pid limit _ _ ltac:(lia) H Hok).
  - by rewrite H.
  - by rewrite H.
  - by rewrite H.
  - by rewrite H.
  - destruct Hpt as (? & ?). split; [done|]. split; [done|]. by apply kmalloc_array_size in H.
  - split; [|done]. destruct (copy_delivers _ _ _ Hnd Hok Hpt) as (n & buf' & Hf & Hd).
    rewrite Hf in H. injection H as <- <-. unfold a. by rewrite Hd.
  - destruct (copy_fits _ _ _ Hnd Hok Hpt). congruence.
Qed.

Lemma conc_init_inv rs : Forall request_ok rs -> conc_inv (conc_init rs).
Proof.
  intros Hrs. split; simpl; try done; [| |constructor].
  - intros i t. simpl. rewrite list_lookup_fmap_Some. by intros (r & -> & _).
  - intros i t. rewrite list_lookup_fmap_Some. intros (r & -> & Hr).
    rewrite Forall_lookup in Hrs. by apply (Hrs i).
Qed.

Lemma reach_inv rs s : Forall request_ok rs -> conc_reach rs s -> conc_inv s.
Proof.
  intros Hrs. induction 1 as [|s s' _ IH [i t Hi Hstep]]; [by apply conc_init_inv|].
  by apply tstep_inv with i t s.
Qed.

(** ** The log and the threads *)

(** A thread whose operation is not the new one is unaffected by it. *)
Lemma thread_logged_other i j r log t e :
  i <> j -> ev_thread e = j -> thread_logged i r log t -> thread_logged i r (e :: log) t.
Proof.
  intros Hne He. destruct t; simpl; rewrite ?not_elem_of_cons; try naive_solver;
    setoid_rewrite elem_of_cons; naive_solver.
Qed.

(** A step that does not touch the log. *)
Lemma log_inv_keep rs s i t t' r s' :
  log_inv rs s -> c_threads s !! i = Some t -> rs !! i = Some r ->
  c_threads s' = <[i := t']> (c_threads s) -> c_log s' = c_log s ->
  thread_logged i r (c_log s) t' -> log_inv rs s'.
Proof.
  intros [Ht He Hn] Hi Hr Hth Hlog Ht'. split; rewrite ?Hth, ?Hlog; unfold logged; rewrite ?Hlog;
    try done.
  intros j u Hj. destruct (threads_insert _ _ _ _ _ _ Hi Hj) as [[-> ->]|[_ Hj']]; eauto.
Qed.

(** The step in which the operation of thread [i] takes effect. *)
Lemma log_inv_finish rs s i t alloc a r l :
  log_inv rs s -> c_threads s !! i = Some t -> rs !! i = Some r -> i ∉ logged s ->
  log_inv rs (set_thread i (TUnlock a) (finish i l r alloc a s)).
Proof.
  intros [Ht He Hn] Hi Hr Hni. split; simpl.
  - intros j u Hj. destruct (threads_insert _ _ _ _ _ _ Hi Hj) as [[-> ->]|[Hne Hj']].
    + exists r. split; [done|]. eexists. split; [apply elem_of_cons; by left|done].
    + destruct (Ht j u Hj') as (r' & Hr' & Hl). exists r'. split; [done|].
      by apply thread_logged_other with i.
  - intros e [->|Hin]%elem_of_cons; [done|by apply He].
  - unfold logged. simpl. by apply NoDup_cons_2.
Qed.

Lemma tstep_log_inv rs i t s s' :
  conc_inv s -> log_inv rs s -> c_threads s !! i = Some t -> tstep i t s s' -> log_inv rs s'.
Proof.
  intros Hci Hinv Hi Hstep. destruct (li_threads rs s Hinv i t Hi) as (r0 & Hr & Hl).
  destruct Hstep; simpl in Hl;
    first [ destruct Hl as [[= ->] Hni]; by eapply log_inv_finish
          | by (eapply log_inv_keep; [exact Hinv|exact Hi|exact Hr|done|done|]; simpl; intuition congruence)
          | idtac ].
  - destruct Hl as [[= ->] Hni].
    eapply log_inv_keep; [exact Hinv|exact Hi|exact Hr|done|done|]. right. split; [done|].
    by exists E.
  - pose proof (ci_points s Hci i _ Hi) as Hp.
    destruct (copy_fits _ _ _ (ci_nodup s Hci) (ci_entries s Hci) Hp). congruence.
  - eapply log_inv_keep; [exact Hinv|exact Hi|exact Hr|done|done|]. left.
    destruct Hl as (e & ? & ? & ?). exists e. unfold returns. auto.
  - eapply log_inv_keep; [exact Hinv|exact Hi|exact Hr|done|done|]. left.
    destruct Hl as (e & ? & ? & ?). exists e. unfold returns. eauto 6.
Qed.

Lemma reach_log_inv rs s : Forall request_ok rs -> conc_reach rs s -> log_inv rs s.
Proof.
  intros Hrs. induction 1 as [|s s' Hr IH [i t Hi Hstep]].
  - split; simpl; [|by intros e ?%elem_of_nil|constructor].
    intros i t. rewrite list_lookup_fmap_Some. intros (r & -> & Hr). exists r.
    split; [done|]. split; [done|]. by apply not_elem_of_nil.
  - by apply tstep_log_inv with i t s; [apply (reach_inv rs)|..].
Qed.

Lemma tstep_log i t s s' : tstep i t s s' -> c_log s `suffix_of` c_log s'.
Proof. destruct 1; simpl; first [reflexivity|by apply suffix_cons_r]. Qed.

Lemma nsteps_log n s s' : nsteps n s s' -> c_log s `suffix_of` c_log s'.
Proof.
  induction 1 as [s|n s s1 s2 [i t _ Hst] _ IH]; [reflexivity|].
  by apply (transitivity (tstep_log _ _ _ _ Hst)).
Qed.

Lemma nsteps_reach rs n s s' : conc_reach rs s -> nsteps n s s' -> conc_reach rs s'.
Proof. intros Hr. induction 1; [done|]. eauto using conc_move. Qed.

(** ** Progress and termination *)

(** Some environment in which any allocation is refused: enough for a thread to
    be able to move. *)
#[local, refine] Instance poor_env : MLEnv := {
  ml_task := table_env true empty;
  kmalloc_entry := false;
  kmalloc_array _ _ := None
}.
Proof. done. Defined.

Lemma point_enabled s i t :
  c_threads s !! i = Some t -> (forall ret, t <> TDone ret) ->
  (forall r, t = TWait r -> c_owner s = None) -> exists s', cstep s s'.
Proof.
  intros Hi Hd Hw.
  enough (exists s', tstep i t s s') as [s' H] by (exists s'; by apply cstep_thread with i t).
  destruct t as [r|r|r|pid limit|max g|ret|ret].
  - destruct (decide (guard_code (E := poor_env) r = 0)) as [H|H].
    + eexists. by apply (step_guards i poor_env).
    + eexists. by apply (step_reject i poor_env).
  - eexists. apply step_lock. by apply Hw with r.
  - destruct r as [pid limit|pid limit|max].
    + destruct (existsb (same_pid pid) (c_list s)) eqn:He.
      * eexists. by apply step_found.
      * eexists. by apply step_fresh.
    + destruct (update_entry pid limit (c_list s)) eqn:He.
      * eexists. by apply step_updated.
      * eexists. by apply step_absent.
    + eexists. by apply (step_get_nomem i poor_env).
  - eexists. apply step_link.
  - destruct (fill_buffer (c_list s) max 0 g) as [[count buf]|] eqn:He.
    + eexists. by apply (step_copy i max g count buf).
    + eexists. by apply step_overflow.
  - eexists. apply step_unlock.
  - by destruct (Hd ret).
Qed.

Lemma sum_list_with_insert {A} (f : A -> nat) l i x y :
  l !! i = Some x ->
  (sum_list_with f (<[i := y]> l) + f x = sum_list_with f l + f y)%nat.
Proof.
  revert i. induction l as [|z l IH]; intros [|i] H; simpl in *; try done.
  - injection H as ->. lia.
  - specialize (IH i H). lia.
Qed.

Lemma tstep_rank i t s s' :
  c_threads s !! i = Some t -> tstep i t s s' -> (work s' < work s)%nat.
Proof.
  intros Hi Hstep. unfold work.
  destruct Hstep; unfold set_thread, set_owner, finish, overflowed;
    cbn [c_list c_owner c_threads c_overflow c_log];
    match goal with |- context [<[i := ?u]> _] =>
      pose proof (sum_list_with_insert rank (c_threads s) i _ u Hi) as Hs end;
    cbn [rank] in Hs; lia.
Qed.

Lemma work_init rs : work (conc_init rs) = (5 * length rs)%nat.
Proof.
  unfold work, conc_init. cbn [c_threads]. induction rs as [|r rs IH]; [done|].
  rewrite fmap_cons. cbn [sum_list_with rank length]. lia.
Qed.

(** ** Properties *)

(** C3: whatever the number of callers and however they interleave, in every
    reachable state the owner of [memory_limit_lock] is the only thread inside
    a critical section, the list has no duplicate process, and no copy has run
    past the block that was sized for an earlier look at the list. *)
Theorem conc_safety rs s :
  Forall request_ok rs -> conc_reach rs s ->
  (forall i j t u, c_threads s !! i = Some t -> c_threads s !! j = Some u ->
     in_cs t = true -> in_cs u = true -> i = j) /\
  NoDup (ml_pid <$> c_list s) /\ Forall entry_ok (c_list s) /\ c_overflow s = false.
Proof.
  intros Hrs Hr. destruct (reach_inv rs s Hrs Hr) as [Hm _ _ Hnd Hok Hov _ _].
  split; [|done]. intros i j t u Hi Hj Ht Hu.
  apply (Hm i t Hi) in Ht. apply (Hm j u Hj) in Hu. congruence.
Qed.

(** C4: the calls are linearizable, answers included.  In every reachable state
    the list is the result of executing the logged operations one after the
    other, atomically, in the order in which they took effect, and each logged
    answer is what its atomic execution at that place answers: for
    [so2_get_memory_limits] the entries delivered are the first [max] of the
    list at that place.  The log has at most one operation per thread and it is
    the one the thread requested.  A thread that returned, returned the answer
    of its logged operation (or [-EFAULT] where the delivery of the entries to
    user space faulted), or its guards rejected the call, with the code they
    gave, and it has no logged operation.  The order respects real time: a
    thread that has not entered yet has no logged operation, and the log of
    every later state extends the log of this one. *)
Theorem conc_linearizable rs s :
  Forall request_ok rs -> conc_reach rs s ->
  c_list s = replay (c_log s) /\ log_ok (c_log s) /\
  NoDup (logged s) /\ (forall e, e ∈ c_log s -> rs !! ev_thread e = Some (ev_req e)) /\
  (forall i ret, c_threads s !! i = Some (TDone ret) ->
    (exists e, e ∈ c_log s /\ ev_thread e = i /\ returns (ev_answer e) ret) \/
    (i ∉ logged s /\ exists r, rs !! i = Some r /\ rejected r ret)) /\
  (forall i r, c_threads s !! i = Some (TStart r) -> i ∉ logged s) /\
  (forall n s', nsteps n s s' -> c_log s `suffix_of` c_log s').
Proof.
  intros Hrs Hr. destruct (reach_inv rs s Hrs Hr) as [_ _ _ _ _ _ Hl Ho].
  destruct (reach_log_inv rs s Hrs Hr) as [Ht He Hn].
  split; [done|]. split; [done|]. split; [done|]. split; [done|]. split; [|split].
  - intros i ret Hi. destruct (Ht i _ Hi) as (r & Hri & [Hd|[Hni Hrej]]); [by left|].
    right. split; [exact Hni|]. eauto.
  - intros i r Hi. destruct (Ht i _ Hi) as (r' & _ & _ & Hni). exact Hni.
  - intros n s'. apply nsteps_log.
Qed.

(** C29: no deadlock and no livelock: a reachable state in which some call has
    not returned has a next step, and [n] concurrent calls make at most [5 * n]
    steps in all, so every call returns. *)
Theorem conc_terminates rs s :
  Forall request_ok rs -> conc_reach rs s ->
  ((exists i t, c_threads s !! i = Some t /\ forall ret, t <> TDone ret) -> exists s', cstep s s') /\
  (forall n s', nsteps n (conc_init rs) s' -> (n <= 5 * length rs)%nat).
Proof.
  intros Hrs Hr. split.
  - intros (i & t & Hi & Hd). destruct (reach_inv rs s Hrs Hr) as [Hm Hown _ _ _ _ _ _].
    destruct (c_owner s) as [j|] eqn:Ho.
    + destruct (Hown j eq_refl) as [u Hu]. pose proof (proj2 (Hm j u Hu) Ho) as Hcs.
      apply (point_enabled s j u Hu); intros ? ->; done.
    + by apply (point_enabled s i t Hi).
  - intros n s' Hn. rewrite <- work_init.
    induction Hn as [s0|n s0 s1 s2 [i t Hi Hst] _ IH]; [lia|].
    pose proof (tstep_rank _ _ _ _ Hi Hst). lia.
Qed.

(** Two threads race to limit the same process and a third reads the list. *)
Definition race : list request := [RAdd 7 100; RAdd 7 200; RGet 10].

Lemma race_ok : Forall request_ok race.
Proof. repeat constructor; by vm_compute. Qed.

#[local, refine] Instance race_env : MLEnv := {
  ml_task := table_env true (<[7 := proc 7 10]> empty);
  kmalloc_entry := true;
  kmalloc_array n s := if (n <? 0) || (s <? 0) then None
                       else Some (replicate (Z.to_nat (n * s)) 170)
}.
Proof.
intros n s b. case_if; [done|]. intros [= <-]. rewrite length_replicate. bool_hyps. nia.
Defined.

Definition race_entry : memory_limitation := {| ml_pid := 7; ml_limit := 200 |}.

(** Both writers pass their guards before either takes the lock; the second
    wins, the reader comes between them. *)
Definition race_end : conc_state :=
  {| c_list := [race_entry]; c_owner := None;
     c_threads := [TDone (ARet (-101)); TDone (ARet 0); TDone (AEntries [race_entry])];
     c_overflow := false;
     c_log := [{| ev_thread := 0; ev_req := RAdd 7 100; ev_alloc := true;
                  ev_answer := ARet (-101) |};
               {| ev_thread := 2; ev_req := RGet 10; ev_alloc := true;
                  ev_answer := AEntries [race_entry] |};
               {| ev_thread := 1; ev_req := RAdd 7 200; ev_alloc := true;
                  ev_answer := ARet 0 |}] |}.

Ltac race_step i c :=
  eapply nsteps_S; [eapply (cstep_thread _ _ i); [reflexivity|c; try (vm_compute; reflexivity)]|].

Lemma race_run : nsteps 14 (conc_init race) race_end.
Proof.
  race_step 0%nat ltac:(apply (step_guards 0 race_env)).
  race_step 1%nat ltac:(apply (step_guards 1 race_env)).
  race_step 1%nat ltac:(apply step_lock).
  race_step 2%nat ltac:(apply (step_guards 2 race_env)).
  race_step 1%nat ltac:(apply step_fresh).
  race_step 1%nat ltac:(apply step_link).
  race_step 1%nat ltac:(apply step_unlock).
  race_step 2%nat ltac:(apply step_lock).
  race_step 2%nat ltac:(eapply (step_count 2 race_env)).
  race_step 2%nat ltac:(eapply step_copy).
  race_step 2%nat ltac:(apply step_unlock).
  race_step 0%nat ltac:(apply step_lock).
  race_step 0%nat ltac:(apply step_found).
  race_step 0%nat ltac:(apply step_unlock).
  apply nsteps_0.
Qed.

Lemma race_reach : conc_reach race race_end.
Proof. exact (nsteps_reach _ _ _ _ (conc_start race) race_run). Qed.

Lemma conc_safety_witness :
  NoDup (ml_pid <$> c_list race_end) /\ c_overflow race_end = false.
Proof.
  destruct (conc_safety race race_end race_ok race_reach) as (_ & H & _ & H').
  by split.
Defined.

Lemma conc_linearizable_witness :
  [race_entry] = replay (c_log race_end) /\
  ((exists e, e ∈ c_log race_end /\ ev_thread e = 2%nat /\
      returns (ev_answer e) (AEntries [race_entry])) \/
   (2%nat ∉ logged race_end /\
      exists r, race !! 2%nat = Some r /\ rejected r (AEntries [race_entry]))).
Proof.
  destruct (conc_linearizable race race_end race_ok race_reach) as (Hl & _ & _ & _ & Hd & _).
  split; [exact Hl|]. exact (Hd 2%nat _ eq_refl).
Defined.

Lemma conc_terminates_witness :
  (exists s', cstep (conc_init race) s') /\
  forall n s', nsteps n (conc_init race) s' -> (n <= 15)%nat.
Proof.
  destruct (conc_terminates race (conc_init race) race_ok (conc_start race)) as [H1 H2].
  split; [|exact H2]. apply H1. exists 0%nat, (TStart (RAdd 7 100)). by split.
Defined.
