(* ===== verification/Track.v ===== *)
(** * Syscall usage counters (kernel/usac/syscall2.c)

    [track_syscall] is called at the entry of read, write (fs/read_write.c),
    openat (fs/open.c) and clone (kernel/fork.c); [luis_track_syscall_usage]
    allocates the array of counters on its first call and copies it to user
    space.  The array is a heap object reached through the global pointer
    [syscall_counters]: the model keeps the pointer and the heap apart, so that
    an array that is no longer reachable is visible as a leak.  [track_syscall] below
    is the effect of one call with nobody in between: the code takes no lock and
    [count++] is not atomic, and the interleavings of its memory accesses on several
    processors are in TrackConc. *)
From S2P Require Import Prelude UserMem.

Record timespec64 := { tv_sec : Z; tv_nsec : Z }.

Record syscall_usage := { count : Z; time_last_used : timespec64 }.

Definition MAX_SYS_CALLS := 1024.

Record track_state := {
  syscall_counters : option nat;               (* NULL or an address *)
  tr_heap : gmap nat (list syscall_usage)
}.

Definition track_boot : track_state := {| syscall_counters := None; tr_heap := empty |}.

(** A zeroed element. *)
Definition zero_usage : syscall_usage :=
  {| count := 0; time_last_used := {| tv_sec := 0; tv_nsec := 0 |} |}.

(** [kzalloc(sizeof(struct syscall_usage) * MAX_SYS_CALLS)]: the parameter is
    the allocator's answer, a fresh address or NULL. *)
Definition init_syscall_counters (kzalloc : option nat) (st : track_state) : Z * track_state :=
  match kzalloc with
  | None => (- ENOMEM, {| syscall_counters := None; tr_heap := tr_heap st |})
  | Some a =>
      (0, {| syscall_counters := Some a;
             tr_heap := <[a := replicate (Z.to_nat MAX_SYS_CALLS) zero_usage]> (tr_heap st) |})
  end.

(** [count++] and the time stamp, on the element at [i]. *)
Definition bump (now : timespec64) (u : syscall_usage) : syscall_usage :=
  {| count := u64 (count u + 1); time_last_used := now |}.

(** [None] is an access outside the array. *)
Definition track_syscall (now : timespec64) (syscall_id : Z) (st : track_state)
    : option track_state :=
  match syscall_counters st with
  | None => Some st
  | Some a =>
      if MAX_SYS_CALLS <=? syscall_id then Some st
      else if syscall_id <? 0 then None
      else
        match tr_heap st !! a with
        | None => None
        | Some arr =>
            match arr !! Z.to_nat syscall_id with
            | None => None
            | Some u =>
                Some {| syscall_counters := Some a;
                        tr_heap := <[a := <[Z.to_nat syscall_id := bump now u]> arr]> (tr_heap st) |}
            end
        end
  end.

(** Object representation of an element: unsigned long, time64_t, long. *)
Definition usage_bytes (u : syscall_usage) : list Z :=
  le_bytes 8 (count u) ++ le_bytes 8 (tv_sec (time_last_used u))
    ++ le_bytes 8 (tv_nsec (time_last_used u)).

Definition usage_sizeof := 24%nat.

Definition array_bytes (arr : list syscall_usage) : list Z := concat (usage_bytes <$> arr).

Section syscall.
Context {U : UserAccess}.

Definition luis_track_syscall_usage (kzalloc : option nat) (estatic : Z)
    (st : track_state) (um : umem) : option (Z * track_state * umem) :=
  let '(err, st) :=
    match syscall_counters st with
    | None => init_syscall_counters kzalloc st
    | Some _ => (0, st)
    end in
  if c_true err then Some (- ENOMEM, st, um)
  else
    match syscall_counters st with
    | None => None
    | Some a =>
        match tr_heap st !! a with
        | None => None
        | Some arr =>
            let '(r, um) := copy_to_user estatic (array_bytes arr) um in
            if c_true (i32 r) then Some (- EFAULT, st, um) else Some (0, st, um)
        end
    end.

End syscall.

(** The call sites: the syscall numbers they pass (asm/unistd_64.h). *)
Definition NR_read := 0.
Definition NR_write := 1.
Definition NR_openat := 257.
Definition NR_clone := 56.
Definition tracked_ids : list Z := [NR_read; NR_write; NR_openat; NR_clone].

(** ** Invariant and histories *)

Definition usage_ok (u : syscall_usage) : Prop :=
  is_u 64 (count u) /\ is_s 64 (tv_sec (time_last_used u)) /\ is_s 64 (tv_nsec (time_last_used u)).

Definition track_wf (st : track_state) : Prop :=
  match syscall_counters st with
  | None => True
  | Some a => exists arr, tr_heap st !! a = Some arr /\
      length arr = Z.to_nat MAX_SYS_CALLS /\ Forall usage_ok arr
  end.

(** What the array says about one syscall. *)
Definition usage_of (st : track_state) (i : nat) : option syscall_usage :=
  match syscall_counters st with
  | None => None
  | Some a => match tr_heap st !! a with Some arr => arr !! i | None => None end
  end.

(** A history of tracked calls, the earliest first. *)
Fixpoint track_run (calls : list (timespec64 * Z)) (st : track_state) : option track_state :=
  match calls with
  | [] => Some st
  | (now, id) :: calls' =>
      match track_syscall now id st with
      | None => None
      | Some st' => track_run calls' st'
      end
  end.

(** What a history means for syscall [i]: the number of its calls and the time
    of the last one. *)
Fixpoint calls_of (i : nat) (calls : list (timespec64 * Z)) : Z :=
  match calls with
  | [] => 0
  | (_, id) :: calls' => (if id =? Z.of_nat i then 1 else 0) + calls_of i calls'
  end.

Fixpoint last_time (i : nat) (t0 : timespec64) (calls : list (timespec64 * Z)) : timespec64 :=
  match calls with
  | [] => t0
  | (now, id) :: calls' => last_time i (if id =? Z.of_nat i then now else t0) calls'
  end.

Definition time_ok (t : timespec64) : Prop := is_s 64 (tv_sec t) /\ is_s 64 (tv_nsec t).

(** An element as a user program decodes it. *)
Definition decode_usage (bs : list Z) : syscall_usage :=
  {| count := le_val (slice 0 8 bs);
     time_last_used := {| tv_sec := i64 (le_val (slice 8 8 bs));
                          tv_nsec := i64 (le_val (slice 16 8 bs)) |} |}.

(** ** Lemmas *)

Lemma usage_bytes_length u : length (usage_bytes u) = usage_sizeof.
Proof. unfold usage_bytes. by rewrite !length_app, !le_bytes_length. Qed.

Lemma decode_usage_bytes u : usage_ok u -> decode_usage (usage_bytes u) = u.
Proof.
  intros (Hc & Hs & Hn). unfold decode_usage, usage_bytes.
  rewrite slice_app_l by (rewrite le_bytes_length; lia).
  rewrite slice_all by apply le_bytes_length.
  rewrite slice_app_r by (rewrite le_bytes_length; lia).
  rewrite le_bytes_length. simpl (8 - 8)%nat.
  rewrite slice_app_l by (rewrite le_bytes_length; lia).
  rewrite slice_all by apply le_bytes_length.
  rewrite slice_app_r by (rewrite le_bytes_length; lia).
  rewrite le_bytes_length. rewrite slice_app_r by (rewrite le_bytes_length; lia).
  rewrite le_bytes_length. simpl (16 - 8 - 8)%nat. rewrite slice_all by apply le_bytes_length.
  rewrite le_val_u64, !le_val_i64 by done.
  destruct u as [c [s n]]. done.
Qed.

Lemma array_bytes_length arr : length (array_bytes arr) = (usage_sizeof * length arr)%nat.
Proof.
  unfold array_bytes. induction arr as [|u arr IH]; [done|].
  rewrite fmap_cons. cbn [concat]. rewrite length_app, usage_bytes_length, IH.
  cbn [length]. lia.
Qed.

Lemma array_bytes_slot arr i u :
  arr !! i = Some u ->
  slice (usage_sizeof * i) usage_sizeof (array_bytes arr) = usage_bytes u.
Proof.
  unfold array_bytes. revert i. induction arr as [|v arr IH]; intros [|i] H; try done.
  - injection H as ->. rewrite fmap_cons. cbn [concat].
    rewrite slice_app_l by (rewrite usage_bytes_length; lia).
    by apply slice_all, usage_bytes_length.
  - rewrite fmap_cons. cbn [concat]. unfold usage_sizeof in *.
    rewrite slice_app_r; rewrite usage_bytes_length; unfold usage_sizeof; [|lia].
    replace (24 * S i - 24)%nat with (24 * i)%nat by lia. by apply IH.
Qed.

Lemma track_syscall_wf now id st st' :
  time_ok now -> track_wf st -> track_syscall now id st = Some st' -> track_wf st'.
Proof.
  intros [Hs Hn] Hwf. unfold track_syscall, track_wf in *.
  destruct (syscall_counters st) as [a|] eqn:Ea; [|intros [= <-]; by rewrite Ea].
  destruct Hwf as (arr & Harr & Hlen & Hok). rewrite Harr.
  case_if; [intros [= <-]; rewrite Ea; eauto|]. case_if; [done|].
  destruct (arr !! Z.to_nat id) as [u|] eqn:Eu; [|done]. intros [= <-]. simpl.
  exists (<[Z.to_nat id := bump now u]> arr). rewrite lookup_insert_eq.
  split; [done|]. split; [by rewrite length_insert|].
  apply Forall_insert; [done|]. split; [apply wrapU_range; lia|done].
Qed.

(** One tracked call, seen through [usage_of]. *)
Lemma track_syscall_usage now id st i u :
  track_wf st -> 0 <= id -> usage_of st i = Some u ->
  exists st', track_syscall now id st = Some st' /\
    syscall_counters st' = syscall_counters st /\
    usage_of st' i = Some (if id =? Z.of_nat i then bump now u else u).
Proof.
  unfold track_wf, usage_of, track_syscall. intros Hwf Hid Hu.
  destruct (syscall_counters st) as [a|] eqn:Ea; [|done].
  destruct Hwf as (arr & Harr & Hlen & _). rewrite Harr in *.
  pose proof (lookup_lt_Some _ _ _ Hu) as Hi. unfold MAX_SYS_CALLS in *.
  case_if.
  { exists st. rewrite Ea, Harr. destruct (id =? Z.of_nat i) eqn:E; [lia|done]. }
  case_if; [lia|].
  destruct (lookup_lt_is_Some_2 arr (Z.to_nat id)) as [v Hv]; [lia|].
  rewrite Hv. eexists. split; [done|]. split; [done|]. simpl. rewrite lookup_insert_eq.
  destruct (id =? Z.of_nat i) eqn:E.
  - apply Z.eqb_eq in E. subst id. rewrite Nat2Z.id in *.
    rewrite list_lookup_insert_eq by done. congruence.
  - apply Z.eqb_neq in E. rewrite list_lookup_insert_ne by lia. done.
Qed.

Lemma track_run_usage calls st i u :
  track_wf st -> Forall (fun c => time_ok c.1 /\ 0 <= c.2) calls -> usage_of st i = Some u ->
  is_u 64 (count u) ->
  exists st', track_run calls st = Some st' /\ track_wf st' /\
    syscall_counters st' = syscall_counters st /\
    usage_of st' i = Some {| count := u64 (count u + calls_of i calls);
                             time_last_used := last_time i (time_last_used u) calls |}.
Proof.
  revert st u. induction calls as [|[now id] calls IH]; intros st u Hwf Hc Hu Hr; cbn [track_run calls_of last_time].
  - exists st. rewrite Z.add_0_r, wrapU_id by (lia || done). by destruct u.
  - apply Forall_cons in Hc as [[Ht Hid] Hc]. simpl in Ht, Hid.
    destruct (track_syscall_usage now id st i u Hwf Hid Hu) as (st1 & E1 & Hc1 & Hu1).
    rewrite E1. pose proof (track_syscall_wf _ _ _ _ Ht Hwf E1) as Hwf1.
    destruct (IH st1 _ Hwf1 Hc Hu1) as (st2 & E2 & Hwf2 & Hc2 & Hu2).
    { case_if; [apply wrapU_range; lia|done]. }
    exists st2. split; [done|]. split; [done|]. split; [congruence|]. rewrite Hu2. do 2 f_equal.
    + destruct (id =? Z.of_nat i); simpl; [|f_equal; lia].
      rewrite wrapU_add. f_equal. lia.
    + by destruct (id =? Z.of_nat i).
Qed.

Lemma init_wf a st : track_wf (init_syscall_counters (Some a) st).2.
Proof.
  unfold track_wf, init_syscall_counters. cbn [snd syscall_counters tr_heap].
  exists (replicate (Z.to_nat MAX_SYS_CALLS) zero_usage). rewrite lookup_insert_eq.
  split; [done|]. split; [apply length_replicate|]. by apply Forall_replicate.
Qed.

Lemma init_usage a st i :
  (i < Z.to_nat MAX_SYS_CALLS)%nat ->
  usage_of (init_syscall_counters (Some a) st).2 i = Some zero_usage.
Proof.
  intros Hi. unfold usage_of, init_syscall_counters. cbn [snd syscall_counters tr_heap].
  rewrite lookup_insert_eq. by apply lookup_replicate_2.
Qed.

Lemma track_run_null calls st : syscall_counters st = None -> track_run calls st = Some st.
Proof.
  intros H. induction calls as [|[now id] calls IH]; [done|].
  cbn [track_run]. unfold track_syscall. by rewrite H.
Qed.

(** A query of an allocated array. *)
Lemma query_copies {U : UserAccess} kz estatic st um r st' um' :
  track_wf st -> is_Some (syscall_counters st) ->
  luis_track_syscall_usage kz estatic st um = Some (r, st', um') ->
  st' = st /\ (r = 0 -> forall i u, usage_of st i = Some u ->
    uread um' (estatic + Z.of_nat (usage_sizeof * i)) usage_sizeof = Some (usage_bytes u)).
Proof.
  unfold luis_track_syscall_usage, track_wf, usage_of. intros Hwf [a Ha].
  rewrite Ha in *. destruct Hwf as (arr & Harr & Hlen & _). rewrite Harr.
  change (c_true 0) with false. cbv iota. rewrite Ha, Harr.
  destruct (copy_to_user _ _ _) as [r1 um1] eqn:Ec. 
  case_if; intros Heq; simplify_eq; (split; [done|]); [done|].
  intros _ i u Hu. apply c_true_false in Hif.
  pose proof (copy_to_user_count _ _ _ _ _ Ec) as Hc.
  rewrite array_bytes_length, Hlen in Hc. unfold usage_sizeof, MAX_SYS_CALLS in Hc.
  assert (is_s 32 r1) as Hs by (split; lia). rewrite wrapS_id in Hif by (lia || done). subst r1.
  rewrite <- (array_bytes_slot arr i u Hu).
  apply (uread_slice _ _ (length (array_bytes arr))); [by apply copy_to_user_uread in Ec|].
  rewrite array_bytes_length. pose proof (lookup_lt_Some _ _ _ Hu).
  unfold usage_sizeof. lia.
Qed.

(** ** Properties *)

(** Of calls that do not overlap (TrackConc has those that do) the counters report
    exactly those since the first query: after any
    tracked calls, a first successful query, further tracked calls and a second
    successful query, the element of syscall [i] that user space reads holds the
    number of its calls between the two queries (modulo 2^64) and the time of
    the last of them; calls before the first query leave no trace. *)
Theorem track_reports_history (U : UserAccess) a kz estatic calls0 calls st0 st1 st2 st3 um um1 um3 (i : nat) :
  (i < 1024)%nat -> Forall (fun c => time_ok c.1 /\ 0 <= c.2) calls ->
  track_run calls0 track_boot = Some st0 ->
  luis_track_syscall_usage (Some a) estatic st0 um = Some (0, st1, um1) ->
  track_run calls st1 = Some st2 ->
  luis_track_syscall_usage kz estatic st2 um1 = Some (0, st3, um3) ->
  uread um3 (estatic + Z.of_nat (usage_sizeof * i)) usage_sizeof
    = Some (usage_bytes {| count := u64 (calls_of i calls);
                           time_last_used := last_time i {| tv_sec := 0; tv_nsec := 0 |} calls |}).
Proof.
  intros Hi Hcalls H0 H1 H2 H3.
  rewrite track_run_null in H0 by done. injection H0 as <-.
  assert (st1 = (init_syscall_counters (Some a) track_boot).2) as ->.
  { revert H1. unfold luis_track_syscall_usage. cbn [syscall_counters track_boot].
    destruct (init_syscall_counters (Some a) track_boot) as [e st] eqn:E.
    case_if; [by intros [=]|]. destruct (syscall_counters st); [|done].
    destruct (tr_heap st !! _); [|done]. destruct (copy_to_user _ _ _).
    by case_if; intros [=]. }
  destruct (track_run_usage calls _ i zero_usage (init_wf a track_boot) Hcalls)
    as (st2' & E2 & Hwf & _ & Hu); [by apply init_usage|by split|].
  rewrite E2 in H2. injection H2 as ->.
  destruct (query_copies kz estatic st2 um1 0 st3 um3 Hwf) as [_ Hq]; [|done|by apply Hq].
  unfold usage_of in Hu. destruct (syscall_counters st2); [eauto|done].
Qed.

(** Memory safety of [track_syscall]: with the array allocated, a call stays
    inside it exactly when its id is not negative (the code checks the upper
    bound only), and the ids its call sites pass are inside the array, so that
    tracking from them never fails and each of them has its counter. *)
Theorem track_in_bounds now id st :
  track_wf st -> is_Some (syscall_counters st) ->
  (track_syscall now id st = None <-> id < 0) /\
  Forall (fun id => 0 <= id < MAX_SYS_CALLS) tracked_ids.
Proof.
  intros Hwf [a Ha]. split; [|repeat constructor; by vm_compute].
  unfold track_syscall, track_wf in *. rewrite Ha in *. destruct Hwf as (arr & Harr & Hlen & _).
  rewrite Harr. unfold MAX_SYS_CALLS in *. case_if; [split; [done|lia]|].
  case_if; [split; [lia|done]|].
  destruct (lookup_lt_is_Some_2 arr (Z.to_nat id)) as [u ->]; [lia|]. split; [done|lia].
Qed.

(** The lazy initialisation is not protected: two first queries that both
    saw the NULL pointer each allocate an array; the second one replaces the
    first, whose block stays allocated but unreachable, and every call counted
    in between is lost. *)
Theorem track_init_race (a b : nat) calls (i : nat) :
  a <> b -> (i < 1024)%nat -> Forall (fun c => time_ok c.1 /\ 0 <= c.2) calls ->
  syscall_counters track_boot = None /\
  exists st2, track_run calls (init_syscall_counters (Some a) track_boot).2 = Some st2 /\
    (exists t, usage_of st2 i = Some {| count := u64 (calls_of i calls); time_last_used := t |}) /\
    let st3 := (init_syscall_counters (Some b) st2).2 in
    syscall_counters st3 = Some b /\ is_Some (tr_heap st3 !! a) /\
    usage_of st3 i = Some zero_usage.
Proof.
  intros Hab Hi Hcalls. split; [done|].
  destruct (track_run_usage calls _ i zero_usage (init_wf a track_boot) Hcalls)
    as (st2 & E2 & Hwf & Hc & Hu); [by apply init_usage|by split|].
  exists st2. split; [done|]. split; [by eexists|]. split; [done|]. split.
  - unfold track_wf in Hwf. rewrite Hc in Hwf. destruct Hwf as (arr & Harr & _).
    unfold init_syscall_counters. cbn [snd tr_heap]. rewrite lookup_insert_ne by done. eauto.
  - by apply init_usage.
Qed.

Definition demo_time (s : Z) : timespec64 := {| tv_sec := s; tv_nsec := 5 |}.
Definition demo_calls : list (timespec64 * Z) :=
  [(demo_time 100, NR_read); (demo_time 101, NR_write); (demo_time 102, NR_read)].
Definition demo_tracked : track_state := (init_syscall_counters (Some 1%nat) track_boot).2.
Definition demo_tracked' : track_state :=
  match track_run demo_calls demo_tracked with Some st => st | None => track_boot end.

Lemma track_reports_history_witness :
  exists um3, uread (U := last_copy) um3 4096 24
    = Some (usage_bytes {| count := 2; time_last_used := demo_time 102 |}).
Proof.
  eexists.
  exact (track_reports_history last_copy 1%nat None 4096 [(demo_time 1, NR_read)] demo_calls
    track_boot demo_tracked demo_tracked' demo_tracked' (fun _ => None) _ _ 0%nat
    ltac:(lia) ltac:(repeat constructor; by vm_compute) eq_refl eq_refl ltac:(vm_eq) eq_refl).
Defined.

Lemma track_in_bounds_witness :
  (track_syscall (demo_time 1) (-1) demo_tracked = None <-> -1 < 0) /\
  Forall (fun id => 0 <= id < MAX_SYS_CALLS) tracked_ids.
Proof.
  apply (track_in_bounds (demo_time 1) (-1) demo_tracked); [apply init_wf|by eexists].
Defined.

Lemma track_init_race_witness : exists st2,
  track_run demo_calls demo_tracked = Some st2 /\
  (exists t, usage_of st2 0 = Some {| count := 2; time_last_used := t |}) /\
  usage_of (init_syscall_counters (Some 2%nat) st2).2 0 = Some zero_usage.
Proof.
  destruct (track_init_race 1%nat 2%nat demo_calls 0%nat ltac:(lia) ltac:(lia)
    ltac:(repeat constructor; by vm_compute)) as (_ & st2 & H1 & H2 & _ & _ & H3).
  exists st2. by repeat split.
Defined.

(** A fresh counter array at address 1. *)
Definition demo_track : track_state :=
  {| syscall_counters := Some 1%nat; tr_heap := {[1%nat := replicate 1024 zero_usage]} |}.

Lemma demo_track_wf : track_wf demo_track.
Proof.
  unfold track_wf, demo_track. cbn [syscall_counters tr_heap]. exists (replicate 1024 zero_usage).
  split; [apply lookup_singleton_eq|]. split; [reflexivity|].
  apply Forall_replicate. unfold usage_ok, zero_usage, is_u, is_s. cbn. lia.
Qed.
