(* ===== verification/TrackConc.v ===== *)
(** * The usage counters under concurrent calls (kernel/usac/syscall2.c: track_syscall)

    [track_syscall] runs on every processor at the entry of read, write, openat and clone,
    without a lock: [count++] is a load and a store, the time stamp two stores, and a query
    copies the array word by word while all this goes on.  Track has the effect of one call
    with nobody in between; here are the interleaved steps, once the array is allocated and
    no query initialises it (that race is Track.track_init_race).  The configuration also
    keeps, for each system call number, how many calls have stored their count and how many
    of these were isolated, that is, no other call of the same number was between its load
    and its store at any time while this one was. *)
From S2P Require Import Prelude UserMem Track.

(** Where a processor is. *)
Inductive cpu :=
| Idle
| Check (id : Z)                            (** at the check of the number *)
| Load (i : nat)                            (** at the load of the count *)
| Store (i : nat) (loaded : Z) (alone : bool)
| StampSec (i : nat)
| StampNsec (i : nat) (now : timespec64)
| Copying (words : list Z) (before : nat -> Z)
| Reported (words : list Z) (before : nat -> Z).

Record conf := {
  counters : list syscall_usage;
  cpus : list cpu;
  stores : nat -> Z;                        (** calls that stored their count *)
  isolated : nat -> Z                       (** those nobody overlapped *)
}.

Definition set_cpu (j : nat) (x : cpu) (c : conf) : conf :=
  {| counters := counters c; cpus := <[j := x]> (cpus c); stores := stores c; isolated := isolated c |}.
Definition set_counter (i : nat) (u : syscall_usage) (c : conf) : conf :=
  {| counters := <[i := u]> (counters c); cpus := cpus c; stores := stores c; isolated := isolated c |}.

Definition in_flight (i : nat) (x : cpu) : bool := match x with Store k _ _ => (k =? i)%nat | _ => false end.

(** A call that loads now overlaps those that are between load and store. *)
Definition disturb (i : nat) (x : cpu) : cpu :=
  match x with Store k v a => if (k =? i)%nat then Store k v false else x | _ => x end.

Definition add_at (d : Z) (i : nat) (f : nat -> Z) (k : nat) : Z := if (k =? i)%nat then f k + d else f k.

(** The words of the array in memory: count, seconds, nanoseconds. *)
Definition word_at (l : list syscall_usage) (k : nat) : option Z :=
  u ← l !! (k / 3)%nat;
  Some (match (k mod 3)%nat with
        | O => count u
        | 1%nat => tv_sec (time_last_used u)
        | _ => tv_nsec (time_last_used u)
        end).

(** A processor enters track_syscall, starts a query, or goes on; [now] is what
    ktime_get_real_ts64 answers if it is asked. *)
Inductive action := Enter (id : Z) | Query | Run (now : timespec64).

(** [None]: an access outside the array, or not a step of this processor. *)
Definition step (j : nat) (a : action) (c : conf) : option conf :=
  x ← cpus c !! j;
  match x, a with
  | Idle, Enter id => Some (set_cpu j (Check id) c)
  | Idle, Query => Some (set_cpu j (Copying [] (isolated c)) c)
  | Check id, Run _ =>
      if MAX_SYS_CALLS <=? id then Some (set_cpu j Idle c)
      else if id <? 0 then None
      else Some (set_cpu j (Load (Z.to_nat id)) c)
  | Load i, Run _ =>
      u ← counters c !! i;
      let alone := negb (existsb (in_flight i) (cpus c)) in
      Some {| counters := counters c; cpus := <[j := Store i (count u) alone]> (disturb i <$> cpus c);
              stores := stores c; isolated := isolated c |}
  | Store i v alone, Run _ =>
      u ← counters c !! i;
      Some {| counters := <[i := {| count := u64 (v + 1); time_last_used := time_last_used u |}]> (counters c);
              cpus := <[j := StampSec i]> (cpus c);
              stores := add_at 1 i (stores c); isolated := add_at (Z.b2z alone) i (isolated c) |}
  | StampSec i, Run now =>
      u ← counters c !! i;
      Some (set_cpu j (StampNsec i now)
              (set_counter i {| count := count u; time_last_used := {| tv_sec := tv_sec now; tv_nsec := tv_nsec (time_last_used u) |} |} c))
  | StampNsec i now, Run _ =>
      u ← counters c !! i;
      Some (set_cpu j Idle
              (set_counter i {| count := count u; time_last_used := {| tv_sec := tv_sec (time_last_used u); tv_nsec := tv_nsec now |} |} c))
  | Copying ws b, Run _ =>
      if (length ws =? 3 * length (counters c))%nat then Some (set_cpu j (Reported ws b) c)
      else w ← word_at (counters c) (length ws); Some (set_cpu j (Copying (ws ++ [w]) b) c)
  | Reported _ _, Run _ => Some (set_cpu j Idle c)
  | _, _ => None
  end.

(** The numbers the call sites pass are not negative. *)
Definition enabled (j : nat) (a : action) (c : conf) : Prop :=
  match cpus c !! j, a with
  | Some Idle, Enter id => 0 <= id
  | Some Idle, Query => True
  | Some Idle, Run _ | None, _ => False
  | Some _, Run _ => True
  | Some _, _ => False
  end.

(** After the first query: the fresh array, [n] processors. *)
Definition start (n : nat) : conf :=
  {| counters := replicate (Z.to_nat MAX_SYS_CALLS) zero_usage; cpus := replicate n Idle; stores _ := 0; isolated _ := 0 |}.

Inductive reachable (n : nat) : conf -> Prop :=
| reach_start : reachable n (start n)
| reach_step j a c c' : reachable n c -> enabled j a c -> step j a c = Some c' -> reachable n c'.

(** ** Invariant *)

(** What a processor knows. *)
Definition cpu_ok (c : conf) (j : nat) (x : cpu) : Prop :=
  match x with
  | Idle => True
  | Check id => 0 <= id
  | Load i | StampSec i | StampNsec i _ => (i < Z.to_nat MAX_SYS_CALLS)%nat
  | Store i v alone => (i < Z.to_nat MAX_SYS_CALLS)%nat /\ isolated c i <= v <= stores c i /\
      (alone = true -> (forall k y, cpus c !! k = Some y -> in_flight i y = true -> k = j) /\
                       forall u, counters c !! i = Some u -> count u = v)
  | Copying ws b | Reported ws b =>
      (length ws <= 3 * Z.to_nat MAX_SYS_CALLS)%nat /\ (forall i, b i <= isolated c i) /\
      (forall i w, ws !! (3 * i)%nat = Some w -> b i <= w <= stores c i) /\
      match x with Reported _ _ => length ws = (3 * Z.to_nat MAX_SYS_CALLS)%nat | _ => True end
  end.

Record inv (c : conf) : Prop := {
  i_length : length (counters c) = Z.to_nat MAX_SYS_CALLS;
  i_count : forall i u, counters c !! i = Some u -> isolated c i <= count u <= stores c i;
  i_zero : forall i, 0 <= isolated c i;
  i_cpu : forall j x, cpus c !! j = Some x -> cpu_ok c j x
}.

Lemma counter_there c i : inv c -> (i < Z.to_nat MAX_SYS_CALLS)%nat -> exists u, counters c !! i = Some u.
Proof. intros I Hi. apply lookup_lt_is_Some_2. by rewrite (i_length c I). Qed.

Lemma cpu_insert (l : list cpu) j x k y : <[j := x]> l !! k = Some y -> (k = j /\ y = x) \/ (k <> j /\ l !! k = Some y).
Proof.
  destruct (decide (k = j)) as [-> |Hn]; [|rewrite list_lookup_insert_ne by done; auto].
  intros H. pose proof (lookup_lt_Some _ _ _ H) as Hl. rewrite length_insert in Hl. rewrite list_lookup_insert_eq in H by done.
  left. split; [done|congruence].
Qed.

(** A step of [j] that leaves the counts and the calls in flight alone. *)
Lemma inv_set_cpu c j x y l : inv c -> cpus c !! j = Some x -> (forall i, in_flight i y = false) -> length l = length (counters c) ->
  (forall i u, l !! i = Some u -> exists v, counters c !! i = Some v /\ count u = count v) ->
  cpu_ok c j y -> inv {| counters := l; cpus := <[j := y]> (cpus c); stores := stores c; isolated := isolated c |}.
Proof.
  intros I Hx Hny Hl Hc Hy. assert (Hin : forall z i, (forall u, counters c !! i = Some u -> count u = z) -> forall u, l !! i = Some u -> count u = z).
  { intros z i H u Hu. destruct (Hc i u Hu) as (v & Hv & ->). auto. }
  constructor; cbn [counters cpus stores isolated]; [by rewrite Hl; apply I| |apply I|].
  - intros i u Hu. destruct (Hc i u Hu) as (v & Hv & ->). by apply I.
  - intros k z [[-> ->]|[Hn Hz]]%cpu_insert.
    + destruct y as [| | |k v a| | | |]; try exact Hy. specialize (Hny k). cbn in Hny. by rewrite Nat.eqb_refl in Hny.
    + pose proof (i_cpu c I k z Hz) as Hok. destruct z as [| | |i v a| | | |]; try exact Hok.
      destruct Hok as (H1 & H2 & H3). split; [done|]. split; [done|]. intros Ha. destruct (H3 Ha) as [H4 H5]. split; [|by apply Hin].
      intros q w [[-> ->]|[_ Hw]]%cpu_insert Hq; [by rewrite Hny in Hq|by apply (H4 q w)].
Qed.

Lemma disturb_in_flight i k x : in_flight k (disturb i x) = in_flight k x.
Proof. destruct x; try done. cbn. by destruct (_ =? i)%nat. Qed.

(** The load: the new call and those in flight know of each other. *)
Lemma inv_load c j i u : inv c -> cpus c !! j = Some (Load i) -> counters c !! i = Some u ->
  inv {| counters := counters c; cpus := <[j := Store i (count u) (negb (existsb (in_flight i) (cpus c)))]> (disturb i <$> cpus c);
         stores := stores c; isolated := isolated c |}.
Proof.
  intros I Hj Hu. pose proof (i_cpu c I j _ Hj) as Hi. cbn in Hi.
  constructor; cbn [counters cpus stores isolated]; try apply I.
  intros k z [[-> ->]|[Hn Hz]]%cpu_insert.
  - split; [done|]. split; [by apply I|]. intros Hno%negb_true_iff. split; [|intros v Hv; cbn [counters] in Hv; congruence].
    intros q w [[-> ->]|[Hq Hw]]%cpu_insert Hf; [done|]. exfalso. rewrite list_lookup_fmap_Some in Hw. destruct Hw as (y & -> & Hy).
    rewrite disturb_in_flight in Hf. apply not_true_iff_false in Hno. apply Hno, existsb_exists. exists y. split; [|done].
    by apply list_elem_of_In, list_elem_of_lookup_2 with q.
  - rewrite list_lookup_fmap_Some in Hz. destruct Hz as (y & -> & Hy). pose proof (i_cpu c I k y Hy) as Hok.
    destruct y as [| | |q v a| | | |]; try exact Hok. cbn [disturb]. destruct (Nat.eqb_spec q i) as [-> |Hqi].
    + destruct Hok as (H1 & H2 & _). split; [done|]. split; [done|]. done.
    + destruct Hok as (H1 & H2 & H3). split; [done|]. split; [done|]. intros Ha. destruct (H3 Ha) as [H4 H5]. split; [|done].
      intros p w [[-> ->]|[_ Hw]]%cpu_insert Hf.
      * cbn in Hf. apply Nat.eqb_eq in Hf. congruence.
      * rewrite list_lookup_fmap_Some in Hw. destruct Hw as (w' & -> & Hw'). rewrite disturb_in_flight in Hf. by apply (H4 p w').
Qed.

Lemma add_at_same d i f : add_at d i f i = f i + d.
Proof. unfold add_at. by rewrite Nat.eqb_refl. Qed.
Lemma add_at_else d i f k : k <> i -> add_at d i f k = f k.
Proof. intros H. unfold add_at. by rewrite (proj2 (Nat.eqb_neq k i)). Qed.
Lemma add_at_le d i f k : 0 <= d -> f k <= add_at d i f k.
Proof. unfold add_at. destruct (k =? i)%nat; lia. Qed.

(** The store: what was counted in between and overlapped is overwritten. *)
Lemma inv_store c j i v a u : inv c -> cpus c !! j = Some (Store i v a) -> counters c !! i = Some u -> stores c i + 1 < 2 ^ 64 ->
  inv {| counters := <[i := {| count := u64 (v + 1); time_last_used := time_last_used u |}]> (counters c);
         cpus := <[j := StampSec i]> (cpus c); stores := add_at 1 i (stores c); isolated := add_at (Z.b2z a) i (isolated c) |}.
Proof.
  intros I Hj Hu Hlt. destruct (i_cpu c I j _ Hj) as (Hi & Hv & Hal). pose proof (i_zero c I i) as H0.
  assert (Hw : u64 (v + 1) = v + 1) by (apply wrapU_id; red; lia). rewrite Hw.
  assert (Hb : 0 <= Z.b2z a <= 1) by (by destruct a). pose proof (i_count c I i u Hu) as Hcu.
  constructor; cbn [counters cpus stores isolated].
  - rewrite length_insert. apply I.
  - intros k w. destruct (decide (k = i)) as [-> |Hk].
    + rewrite list_lookup_insert_eq by (by eapply lookup_lt_Some). intros [= <-]. cbn [count]. rewrite !add_at_same. lia.
    + rewrite list_lookup_insert_ne by done. intros Hw'. rewrite !add_at_else by done. by apply I.
  - intros k. pose proof (i_zero c I k). pose proof (add_at_le (Z.b2z a) i (isolated c) k). lia.
  - intros k z [[-> ->]|[Hn Hz]]%cpu_insert; [done|]. pose proof (i_cpu c I k z Hz) as Hok.
    destruct z as [|id|q|q w al|q|q now|ws b|ws b]; try exact Hok.
    + destruct Hok as (H1 & H2 & H3). destruct (decide (q = i)) as [-> |Hq].
      * assert (a = false) as ->.
        { destruct a; [|done]. destruct (Hal eq_refl) as [Hother _]. destruct Hn. apply (Hother k _ Hz). cbn. by rewrite Nat.eqb_refl. }
        split; [done|]. split; [cbn [stores isolated Z.b2z]; rewrite !add_at_same; lia|]. intros ->. destruct (H3 eq_refl) as [H4 _].
        destruct Hn. symmetry. apply (H4 j _ Hj). cbn. by rewrite Nat.eqb_refl.
      * split; [done|]. split; [cbn [stores isolated]; by rewrite !add_at_else|]. intros Ht. destruct (H3 Ht) as [H4 H5]. split.
        -- intros p y [[-> ->]|[_ Hy]]%cpu_insert Hf; [done|by apply (H4 p y)].
        -- intros y. cbn [counters]. rewrite list_lookup_insert_ne by done. apply H5.
    + destruct Hok as (H1 & H2 & H3 & H4). split; [done|]. cbn [stores isolated]. split; [|split; [|done]].
      * intros p. pose proof (H2 p). pose proof (add_at_le (Z.b2z a) i (isolated c) p). lia.
      * intros p w Hp. pose proof (H3 p w Hp). pose proof (add_at_le 1 i (stores c) p). lia.
    + destruct Hok as (H1 & H2 & H3 & H4). split; [done|]. cbn [stores isolated]. split; [|split; [|done]].
      * intros p. pose proof (H2 p). pose proof (add_at_le (Z.b2z a) i (isolated c) p). lia.
      * intros p w Hp. pose proof (H3 p w Hp). pose proof (add_at_le 1 i (stores c) p). lia.
Qed.

Lemma word_at_count l i : word_at l (3 * i) = count <$> l !! i.
Proof.
  unfold word_at. replace (3 * i / 3)%nat with i by (rewrite Nat.mul_comm, Nat.div_mul; done).
  replace ((3 * i) mod 3)%nat with 0%nat by (rewrite Nat.mul_comm, Nat.Div0.mod_mul; done). by destruct (l !! i).
Qed.

Lemma word_there c k : inv c -> (k < 3 * Z.to_nat MAX_SYS_CALLS)%nat -> exists w, word_at (counters c) k = Some w.
Proof.
  intros I Hk. destruct (counter_there c (k / 3) I) as [u Hu]; [apply Nat.Div0.div_lt_upper_bound; lia|]. unfold word_at. rewrite Hu. by eexists.
Qed.

(** Only the count of an element is constrained. *)
Lemma same_counts (l : list syscall_usage) i u t : l !! i = Some u -> forall k w, <[i := {| count := count u; time_last_used := t |}]> l !! k = Some w ->
  exists v, l !! k = Some v /\ count w = count v.
Proof.
  intros Hu k w. destruct (decide (k = i)) as [-> |Hn].
  - rewrite list_lookup_insert_eq by (by eapply lookup_lt_Some). intros [= <-]. by exists u.
  - rewrite list_lookup_insert_ne by done. intros Hw. by exists w.
Qed.

Lemma same_self (l : list syscall_usage) i u : l !! i = Some u -> exists v, l !! i = Some v /\ count u = count v.
Proof. intros H. by exists u. Qed.

(** Every enabled step can run: no access is outside the array. *)
Lemma step_runs j a c : inv c -> enabled j a c -> exists c', step j a c = Some c'.
Proof.
  intros I. unfold enabled, step. destruct (cpus c !! j) as [x|] eqn:Hj; [|done]. pose proof (i_cpu c I j x Hj) as Hok. cbn [mbind option_bind].
  destruct x as [|id|i|i v al|i|i now|ws b|ws b], a; try done; try (by eauto); intros _.
  - cbn in Hok. case_if; [by eauto|]. case_if; [lia|by eauto].
  - cbn in Hok. destruct (counter_there c i I Hok) as [u ->]. by eauto.
  - destruct Hok as [Hi _]. destruct (counter_there c i I Hi) as [u ->]. by eauto.
  - cbn in Hok. destruct (counter_there c i I Hok) as [u ->]. by eauto.
  - cbn in Hok. destruct (counter_there c i I Hok) as [u ->]. by eauto.
  - destruct Hok as (Hl & _). rewrite (i_length c I). destruct (Nat.eqb_spec (length ws) (3 * Z.to_nat MAX_SYS_CALLS)); [by eauto|].
    destruct (word_there c (length ws) I) as [w ->]; [lia|]. by eauto.
Qed.

Lemma copy_ok c j ws b w : inv c -> cpu_ok c j (Copying ws b) -> (length ws < 3 * Z.to_nat MAX_SYS_CALLS)%nat -> word_at (counters c) (length ws) = Some w ->
  cpu_ok c j (Copying (ws ++ [w]) b).
Proof.
  intros I (Hl & Hb & Hw & _) Hlt Hword. split; [rewrite length_app; cbn [length]; lia|]. split; [done|]. split; [|done].
  intros i v Hv. destruct (Nat.lt_ge_cases (3 * i) (length ws)) as [Hi|Hi]; [rewrite lookup_app_l in Hv by done; by apply Hw|].
  rewrite lookup_app_r in Hv by done. assert (length ws = 3 * i)%nat as He.
  { apply lookup_lt_Some in Hv. cbn [length] in Hv. lia. }
  rewrite He, Nat.sub_diag in Hv. injection Hv as <-. rewrite He, word_at_count in Hword. destruct (counters c !! i) as [u|] eqn:Hu; [|done].
  injection Hword as <-. pose proof (i_count c I i u Hu). pose proof (Hb i). lia.
Qed.

Lemma racy_step_inv j a c c' : inv c -> enabled j a c -> (forall i, stores c' i < 2 ^ 64) -> step j a c = Some c' -> inv c'.
Proof.
  intros I He Hs. unfold enabled, step in *. destruct (cpus c !! j) as [x|] eqn:Hj; [|done]. pose proof (i_cpu c I j x Hj) as Hok. cbn [mbind option_bind].
  destruct x as [|id|i|i v al|i|i now|ws b|ws b], a as [id'| |now']; try done.
  - intros [= <-]. apply (inv_set_cpu c j Idle); try done. by apply same_self.
  - intros [= <-]. apply (inv_set_cpu c j Idle); try done; [by apply same_self|]. split; [cbn; lia|]. split; [done|]. by split.
  - case_if; [intros [= <-]; apply (inv_set_cpu c j (Check id)); try done; by apply same_self|]. case_if; [done|].
    intros [= <-]. apply (inv_set_cpu c j (Check id)); try done; [by apply same_self|]. cbn in Hok |- *. lia.
  - destruct (counters c !! i) as [u|] eqn:Hu; [|done]. intros [= <-]. by apply inv_load.
  - destruct (counters c !! i) as [u|] eqn:Hu; [|done]. intros [= <-]. apply inv_store; try done.
    specialize (Hs i). cbn [stores] in Hs. by rewrite add_at_same in Hs.
  - destruct (counters c !! i) as [u|] eqn:Hu; [|done]. intros [= <-].
    apply (inv_set_cpu c j (StampSec i)); [done..|by cbn; rewrite ?length_insert|by apply same_counts|done].
  - destruct (counters c !! i) as [u|] eqn:Hu; [|done]. intros [= <-].
    apply (inv_set_cpu c j (StampNsec i now)); [done..|by cbn; rewrite ?length_insert|by apply same_counts|done].
  - rewrite (i_length c I). destruct (Nat.eqb_spec (length ws) (3 * Z.to_nat MAX_SYS_CALLS)) as [Hl|Hl].
    + intros [= <-]. apply (inv_set_cpu c j (Copying ws b)); try done; [by apply same_self|]. destruct Hok as (? & ? & ? & _). by split_and!.
    + destruct (word_at (counters c) (length ws)) as [w|] eqn:Hw; [|done]. intros [= <-].
      apply (inv_set_cpu c j (Copying ws b)); try done; [by apply same_self|]. apply copy_ok; try done. destruct Hok as (? & _). lia.
  - intros [= <-]. apply (inv_set_cpu c j (Reported ws b)); try done. by apply same_self.
Qed.

Lemma step_stores_le j a c c' : step j a c = Some c' -> forall i, stores c' i <= stores c i + 1.
Proof.
  unfold step. destruct (cpus c !! j) as [x|]; [|done]. cbn [mbind option_bind]. intros H i.
  destruct x, a; try done; repeat (case_match; try done); simplify_option_eq; cbn [stores set_cpu set_counter]; try lia.
  unfold add_at. destruct (_ =? _)%nat; lia.
Qed.

Lemma step_stores j a c c' : step j a c = Some c' -> forall i, stores c i <= stores c' i.
Proof.
  unfold step. destruct (cpus c !! j) as [x|]; [|done]. cbn [mbind option_bind]. intros H i.
  destruct x, a; try done; repeat (case_match; try done); simplify_option_eq; cbn [stores set_cpu set_counter]; try lia; apply add_at_le; lia.
Qed.

Lemma racy_reachable_inv n c : reachable n c -> (forall i, stores c i < 2 ^ 64) -> inv c.
Proof.
  induction 1 as [|j a c c' _ IH He Hst]; intros Hs.
  - constructor; cbn [counters cpus stores isolated start]; try done.
    + intros i u [-> _]%lookup_replicate. done.
    + intros j x [-> _]%lookup_replicate. done.
  - apply (racy_step_inv j a c c'); try done. apply IH. intros i. pose proof (step_stores _ _ _ _ Hst i). specialize (Hs i). lia.
Qed.

(** ** Runs *)

Definition enabledb (j : nat) (a : action) (c : conf) : bool :=
  match cpus c !! j, a with
  | Some Idle, Enter id => 0 <=? id
  | Some Idle, Query => true
  | Some Idle, Run _ | None, _ => false
  | Some _, Run _ => true
  | Some _, _ => false
  end.

Lemma enabledb_spec j a c : enabledb j a c = true -> enabled j a c.
Proof. unfold enabled, enabledb. destruct (cpus c !! j) as [[]|], a; try done. lia. Qed.

Definition zero_time : timespec64 := {| tv_sec := 0; tv_nsec := 0 |}.

Fixpoint run (l : list (nat * action)) (c : conf) : option conf :=
  match l with
  | [] => Some c
  | (j, a) :: l =>
      if enabledb j a c then match step j a c with Some c' => run l c' | None => None end else None
  end.

Lemma run_reachable n l c c' : reachable n c -> run l c = Some c' -> reachable n c'.
Proof.
  revert c. induction l as [|[j a] l IH]; intros c Hc; cbn [run]; [by intros [= <-]|].
  destruct (enabledb j a c) eqn:He; [|done]. destruct (step j a c) as [c1|] eqn:Hs; [|done].
  apply IH. eapply reach_step; [done|by apply enabledb_spec|done].
Qed.

Lemma run_cons j a l c c1 c' : enabledb j a c = true -> step j a c = Some c1 -> run l c1 = Some c' -> run ((j, a) :: l) c = Some c'.
Proof. intros He Hs Hr. cbn [run]. by rewrite He, Hs. Qed.

Lemma run_stores l c c' : run l c = Some c' -> forall i, stores c' i <= stores c i + Z.of_nat (length l).
Proof.
  revert c. induction l as [|[j a] l IH]; intros c; cbn [run length]; [intros [= <-]; lia|].
  destruct (enabledb j a c); [|done]. destruct (step j a c) as [c1|] eqn:Hs; [|done]. intros Hr i.
  pose proof (IH c1 Hr i). pose proof (step_stores_le j a c c1 Hs i). lia.
Qed.

(** A call of processor [j], a step at a time; a query of [k] words. *)
Definition whole_call (j : nat) (id : Z) (now : timespec64) : list (nat * action) :=
  (j, Enter id) :: replicate 5 (j, Run now).
Definition whole_query (j k : nat) (now : timespec64) : list (nat * action) :=
  (j, Query) :: replicate (S k) (j, Run now).

Lemma solo_sec i now l u f g : l !! i = Some u ->
  step 0 (Run now) {| counters := l; cpus := [StampSec i]; stores := f; isolated := g |} =
  Some {| counters := <[i := {| count := count u; time_last_used := {| tv_sec := tv_sec now; tv_nsec := tv_nsec (time_last_used u) |} |}]> l;
          cpus := [StampNsec i now]; stores := f; isolated := g |}.
Proof. intros H. unfold step. cbn [cpus counters lookup list_lookup mbind option_bind]. by rewrite H. Qed.

Lemma solo_nsec i now t l u f g : l !! i = Some u ->
  step 0 (Run t) {| counters := l; cpus := [StampNsec i now]; stores := f; isolated := g |} =
  Some {| counters := <[i := {| count := count u; time_last_used := {| tv_sec := tv_sec (time_last_used u); tv_nsec := tv_nsec now |} |}]> l;
          cpus := [Idle]; stores := f; isolated := g |}.
Proof. intros H. unfold step. cbn [cpus counters lookup list_lookup mbind option_bind]. by rewrite H. Qed.

(** One call with nobody in between is [track_syscall]. *)
Lemma solo_is_track_syscall id now l a st :
  0 <= id < MAX_SYS_CALLS -> length l = Z.to_nat MAX_SYS_CALLS -> syscall_counters st = Some a -> tr_heap st !! a = Some l ->
  exists c, run (whole_call 0 id now) {| counters := l; cpus := [Idle]; stores _ := 0; isolated _ := 0 |} = Some c /\ cpus c = [Idle] /\
    track_syscall now id st = Some {| syscall_counters := Some a; tr_heap := <[a := counters c]> (tr_heap st) |}.
Proof.
  intros Hid Hl Ha Hh. destruct (lookup_lt_is_Some_2 l (Z.to_nat id)) as [u Hu]; [lia|].
  assert (Hlt : (Z.to_nat id < length l)%nat) by lia.
  assert (H1 : (0 <=? id) = true) by lia. assert (H2 : (MAX_SYS_CALLS <=? id) = false) by lia. assert (H3 : (id <? 0) = false) by lia.
  unfold track_syscall. rewrite Ha, Hh, H2, H3, Hu. eexists. split; [|split].
  - unfold whole_call. cbn [replicate]. eapply run_cons; [exact H1|reflexivity|].
    eapply run_cons; [reflexivity|unfold step; cbn [cpus set_cpu insert list_insert lookup list_lookup mbind option_bind]; rewrite H2, H3; reflexivity|].
    eapply run_cons; [reflexivity|unfold step; cbn [cpus counters set_cpu insert list_insert lookup list_lookup mbind option_bind]; rewrite Hu; reflexivity|].
    eapply run_cons; [reflexivity|unfold step; cbn [cpus counters set_cpu fmap list_fmap disturb insert list_insert lookup list_lookup mbind option_bind]; rewrite Hu; reflexivity|].
    eapply run_cons; [reflexivity|apply solo_sec; by apply list_lookup_insert_eq|].
    eapply run_cons; [reflexivity|apply solo_nsec; apply list_lookup_insert_eq; by rewrite length_insert|reflexivity].
  - reflexivity.
  - cbn [counters count time_last_used tv_sec]. rewrite !list_insert_insert_eq. unfold bump. by destruct now.
Qed.

(** ** Property *)

(** C27: the usage counters under concurrent calls.  In every state the interleaved steps of
    track_syscall and of queries on any number of processors reach (fewer than 2^64 calls of a
    number), each counter is at least the number of its calls that nobody overlapped and at
    most the number of its calls, and is exact when no two calls of the number overlapped; a
    query that has copied the array reports for each number at least the isolated calls that
    were complete when it began and at most the calls so far; and every step a processor can
    take runs, so no access is outside the array.  The bounds are tight: overlapping calls do
    lose counts. *)
Theorem track_counts_racy n c : reachable n c -> (forall i, stores c i < 2 ^ 64) ->
  (forall i, (i < Z.to_nat MAX_SYS_CALLS)%nat -> exists u, counters c !! i = Some u /\
     isolated c i <= count u <= stores c i /\ (isolated c i = stores c i -> count u = stores c i)) /\
  (forall j ws before, cpus c !! j = Some (Reported ws before) -> length ws = (3 * Z.to_nat MAX_SYS_CALLS)%nat /\
     forall i, (i < Z.to_nat MAX_SYS_CALLS)%nat -> exists w, ws !! (3 * i)%nat = Some w /\ before i <= w <= stores c i) /\
  (forall j a, enabled j a c -> exists c', step j a c = Some c') /\
  (exists lossy, run [(0, Enter NR_read); (1, Enter NR_read); (0, Run zero_time); (1, Run zero_time);
       (0, Run zero_time); (1, Run zero_time); (0, Run zero_time); (1, Run zero_time)]%nat (start 2) = Some lossy /\
     stores lossy 0 = 2 /\ isolated lossy 0 = 0 /\ (count <$> counters lossy !! 0%nat) = Some 1).
Proof.
  intros Hr Hs. pose proof (racy_reachable_inv n c Hr Hs) as I. split; [|split; [|split]].
  - intros i Hi. destruct (counter_there c i I Hi) as [u Hu]. exists u. pose proof (i_count c I i u Hu). split; [done|]. split; [done|lia].
  - intros j ws b Hj. destruct (i_cpu c I j _ Hj) as (_ & _ & Hw & Hl). split; [done|]. intros i Hi.
    destruct (lookup_lt_is_Some_2 ws (3 * i)) as [w Hv]; [lia|]. exists w. split; [done|by apply Hw].
  - intros j a He. by apply step_runs.
  - eexists. split; [vm_compute; reflexivity|]. by vm_compute.
Qed.

(** Two overlapping reads and a read alone on processors 0 and 1, then a query on processor 2:
    it reports two of the three. *)
Definition lossy_schedule : list (nat * action) :=
  [(0, Enter NR_read); (1, Enter NR_read)]%nat ++
  concat (replicate 5 [(0, Run zero_time); (1, Run zero_time)]%nat) ++
  whole_call 1 NR_read zero_time ++ whole_query 2 3072 zero_time.

(** What the query reports for read: the isolated calls before it, the word, the calls. *)
Definition reported_0 (c : conf) : option (Z * Z * Z) :=
  match cpus c !! 2%nat with
  | Some (Reported (w :: _) before) => Some (before 0%nat, w, stores c 0%nat)
  | _ => None
  end.

Lemma track_counts_racy_witness : exists c ws before,
  run lossy_schedule (start 3) = Some c /\ reported_0 c = Some (1, 2, 3) /\
  cpus c !! 2%nat = Some (Reported ws before) /\ exists w, ws !! 0%nat = Some w /\ before 0%nat <= w <= stores c 0%nat.
Proof.
  assert (H : match run lossy_schedule (start 3) with Some c => reported_0 c | None => None end = Some (1, 2, 3)) by (vm_compute; reflexivity).
  destruct (run lossy_schedule (start 3)) as [c|] eqn:Hc; [|discriminate H].
  pose proof (run_reachable 3 _ _ _ (reach_start 3) Hc) as Hr.
  assert (Hs : forall i, stores c i < 2 ^ 64).
  { intros i. pose proof (run_stores _ _ _ Hc i) as Hle. change (stores (start 3) i) with 0 in Hle.
    assert (Hlen : Z.of_nat (length lossy_schedule) = 3092) by (vm_compute; reflexivity). lia. }
  destruct (cpus c !! 2%nat) as [x|] eqn:Hx; [|unfold reported_0 in H; rewrite Hx in H; discriminate H].
  destruct x as [| | | | | | |ws b]; try (unfold reported_0 in H; rewrite Hx in H; discriminate H).
  exists c, ws, b. split; [reflexivity|]. split; [exact H|]. split; [exact Hx|].
  destruct (track_counts_racy 3 c Hr Hs) as (_ & Hq & _). destruct (Hq 2%nat ws b Hx) as [_ Hw].
  apply (Hw 0%nat). apply Nat2Z.inj_lt. reflexivity.
Defined.
