(* ===== verification/MemStats.v ===== *)
(** * Memory statistics syscalls (kernel/usac/syscall1.c, 3, 4, 5, 6)

    [luis_capture_memory_snapshot], [luis_get_io_throttle],
    [luis_tamalloc], [luis_recoleccion_general] and [luis_resumen_total].  All
    of them read kernel counters and copy a structure to user space, except
    [luis_tamalloc], which reserves address space.  The counters are parameters
    ([StatEnv], [TaskEnv]); the arithmetic on them is [unsigned long] and [int]
    arithmetic with its wrap-around. *)
From S2P Require Import Prelude UserMem Task.

(** Enumerators of linux/mmzone.h: the first zone counter, and the first of the
    node counters, which start with the LRU lists. *)
Definition NR_FREE_PAGES := 0.
Definition NR_INACTIVE_ANON := 0.
Definition NR_INACTIVE_FILE := 2.
Definition NR_ACTIVE_FILE := 3.

Class StatEnv := {
  totalram_pages : Z;
  global_node_page_state : Z -> Z;
  NR_FILE_PAGES : Z;
  ZSWPIN : Z;
  ZSWPOUT : Z;
  (** [si_meminfo]: the members totalram and mem_unit *)
  si_totalram : Z;
  si_mem_unit : Z
}.

(** ** syscall1.c *)

Record memory_snapshot := {
  total_memory : Z; free_memory : Z; used_memory : Z;
  active_pages : Z; cache_pages : Z; swap_pages : Z
}.

Definition snapshot_words (s : memory_snapshot) : list Z :=
  [total_memory s; free_memory s; used_memory s; active_pages s; cache_pages s; swap_pages s].

Section capture.
Context {E : StatEnv} {U : UserAccess}.

Definition kernel_snapshot : memory_snapshot :=
  let total := u64 (Z.shiftl totalram_pages PAGE_SHIFT) in
  let free := u64 (Z.shiftl (i64 (global_node_page_state NR_FREE_PAGES)) PAGE_SHIFT) in
  {| total_memory := total;
     free_memory := free;
     used_memory := u64 (total - free);
     active_pages := global_node_page_state NR_INACTIVE_FILE;
     cache_pages := global_node_page_state NR_FILE_PAGES;
     swap_pages := u64 (global_node_page_state ZSWPIN + global_node_page_state ZSWPOUT) |}.

Definition luis_capture_memory_snapshot (snapshot : Z) (um : umem) : Z * umem :=
  let '(r, um) := copy_to_user snapshot (words_bytes (snapshot_words kernel_snapshot)) um in
  if c_true r then (- EFAULT, um) else (0, um).

End capture.

(** ** syscall3.c *)

Record io_throttle_stats := {
  read_bytes : Z; write_bytes : Z; read_disk_bytes : Z; write_disk_bytes : Z; io_wait_time : Z
}.

Definition throttle_words (s : io_throttle_stats) : list Z :=
  [read_bytes s; write_bytes s; read_disk_bytes s; write_disk_bytes s; io_wait_time s].

Section throttle.
Context {E : TaskEnv} {U : UserAccess}.

(** [refs] counts the references held on each task: [get_pid_task] takes one. *)
Definition luis_get_io_throttle (pid stats : Z) (refs : gmap Z Z) (um : umem)
    : Z * gmap Z Z * umem :=
  match pid_task pid with
  | None => (- ESRCH, refs, um)
  | Some task =>
      let refs := <[t_pid task := default 0 (refs !! t_pid task) + 1]> refs in
      let ioac := t_ioac task in
      let kernel_stats :=
        {| read_bytes := io_read_bytes ioac; write_bytes := io_write_bytes ioac;
           read_disk_bytes := io_read_disk_bytes ioac;
           write_disk_bytes := io_write_disk_bytes ioac;
           io_wait_time := io_wait_time_ms ioac |} in
      let '(r, um) := copy_to_user stats (words_bytes (throttle_words kernel_stats)) um in
      if c_true r then (- EFAULT, refs, um) else (0, refs, um)
  end.

End throttle.

(** ** syscall4.c *)

Definition PROT_READ := 1.
Definition PROT_WRITE := 2.
Definition MAP_PRIVATE := 2.
Definition MAP_ANONYMOUS := 32.
Definition MAP_NORESERVE := 16384.

(** linux/align.h: [ALIGN(x, a)] as [((x) + (a) - 1) & ~((a) - 1)]. *)
Definition PAGE_ALIGN (size : Z) : Z :=
  Z.land (u64 (size + (PAGE_SIZE - 1))) (c_not 64 (PAGE_SIZE - 1)).

(** [vm_mmap] is a parameter: file, addr, len, prot, flags, offset. *)
Definition luis_tamalloc (vm_mmap : Z -> Z -> Z -> Z -> Z -> Z -> Z) (size : Z) : Z :=
  if size =? 0 then - EINVAL
  else
    let rounded_size := PAGE_ALIGN size in
    let user_memory :=
      vm_mmap 0 0 rounded_size (Z.lor PROT_READ PROT_WRITE)
        (Z.lor (Z.lor MAP_ANONYMOUS MAP_PRIVATE) MAP_NORESERVE) 0 in
    if IS_ERR user_memory then PTR_ERR user_memory else i64 user_memory.

(** ** syscall5.c *)

Record process_memory_info := {
  reserved_memory_kb : Z; committed_memory_kb : Z; used_memory_kb : Z;
  oom_score : Z; percentage_used_memory : Z
}.

Definition KB := 1024.

Definition info_bytes (i : process_memory_info) : list Z :=
  words_bytes [reserved_memory_kb i; committed_memory_kb i; used_memory_kb i]
    ++ le_bytes 4 (oom_score i) ++ le_bytes 4 (percentage_used_memory i).

Section recoleccion.
Context {T : TaskEnv} {E : StatEnv} {U : UserAccess}.

(** The values [luis_recoleccion_general] computes for an address space. *)
Definition collect (mm : mm_struct) : process_memory_info :=
  let reserved_memory := u64 (total_vm mm * PAGE_SIZE) / KB in
  let committed_memory := u64 (get_mm_rss mm * PAGE_SIZE) / KB in
  let used_kb := committed_memory in
  let percentage :=
    if 0 <? reserved_memory then i32 (u64 (used_kb * 100) / reserved_memory) else 0 in
  let total_memory_kb := u64 (si_totalram * si_mem_unit) / KB in
  let score :=
    if 0 <? total_memory_kb then i32 (u64 (used_kb * 1000) / total_memory_kb) else 0 in
  {| reserved_memory_kb := reserved_memory; committed_memory_kb := committed_memory;
     used_memory_kb := used_kb; oom_score := score; percentage_used_memory := percentage |}.

Definition luis_recoleccion_general (pid mem_info : Z) (um : umem) : Z * umem :=
  match pid_task pid with
  | None => (- ESRCH, um)
  | Some task =>
      match t_mm task with
      | None => (- EFAULT, um)
      | Some mm =>
          let '(r, um) := copy_to_user mem_info (info_bytes (collect mm)) um in
          if c_true r then (- EFAULT, um) else (0, um)
      end
  end.

End recoleccion.

(** ** syscall6.c *)

Record memory_summary := { reserved_memory_mb : Z; committed_memory_mb : Z }.

Section resumen.
Context {T : TaskEnv} {U : UserAccess}.

(** The loop [for_each_process]. *)
Fixpoint accumulate (ps : list task_struct) (s : memory_summary) : memory_summary :=
  match ps with
  | [] => s
  | task :: ps' =>
      match t_mm task with
      | None => accumulate ps' s
      | Some mm =>
          let reserved := get_mm_rss mm in
          let committed := total_vm mm in
          accumulate ps'
            {| reserved_memory_mb :=
                 u64 (reserved_memory_mb s + u64 (reserved * PAGE_SIZE) / (1024 * 1024));
               committed_memory_mb :=
                 u64 (committed_memory_mb s + u64 (committed * PAGE_SIZE) / (1024 * 1024)) |}
      end
  end.

Definition luis_resumen_total (summary : Z) (um : umem) : Z * umem :=
  let s := accumulate processes {| reserved_memory_mb := 0; committed_memory_mb := 0 |} in
  let '(r, um) :=
    copy_to_user summary (words_bytes [reserved_memory_mb s; committed_memory_mb s]) um in
  if c_true r then (- EFAULT, um) else (0, um).

End resumen.

(** ** Lemmas *)

(** The common tail: a structure copied out, or [-EFAULT]. *)
Lemma copy_out_cases {U : UserAccess} p bs um :
  let '(ret, um') :=
    (let '(r, um') := copy_to_user p bs um in if c_true r then (- EFAULT, um') else (0, um')) in
  (ret = 0 /\ uread um' p (length bs) = Some bs) \/ ret = - EFAULT.
Proof.
  destruct (copy_to_user p bs um) as [r um'] eqn:E. case_if; [by right|].
  apply c_true_false in Hif as ->. left. split; [done|]. by apply copy_to_user_uread in E.
Qed.

Lemma page_align_eq size :
  PAGE_ALIGN size = u64 (size + 4095) - u64 (size + 4095) mod PAGE_SIZE.
Proof.
  unfold PAGE_ALIGN. change (PAGE_SIZE - 1) with 4095.
  pose proof (u64_bounds (size + 4095)) as Hb. set (x := u64 (size + 4095)) in *. clearbody x.
  assert (Z.land x (c_not 64 4095) = Z.shiftl (Z.shiftr x 12) 12) as ->.
  { apply Z.bits_inj'. intros n Hn. rewrite Z.land_spec, Z.shiftl_spec by done.
    change (c_not 64 4095) with (Z.shiftl (Z.ones 52) 12). rewrite Z.shiftl_spec by done.
    destruct (Z_lt_le_dec n 12) as [Hlt|Hge].
    - rewrite (Z.testbit_neg_r (Z.ones 52)), (Z.testbit_neg_r (Z.shiftr x 12)) by lia. apply andb_false_r.
    - rewrite Z.shiftr_spec by lia. replace (n - 12 + 12) with n by lia.
      destruct (Z_lt_le_dec (n - 12) 52).
      + rewrite Z.ones_spec_low by lia. apply andb_true_r.
      + rewrite Z.ones_spec_high by lia. rewrite andb_false_r. symmetry.
        rewrite Z.bits_above_log2; [done|lia|].
        destruct (decide (x = 0)) as [->|]; [simpl; lia|].
        apply Z.log2_lt_pow2; [lia|]. apply Z.lt_le_trans with (2 ^ 64); [lia|].
        apply Z.pow_le_mono_r; lia. }
  rewrite Z.shiftl_mul_pow2, Z.shiftr_div_pow2 by lia. unfold PAGE_SIZE.
  change (2 ^ 12) with 4096. zlia.
Qed.

Lemma page_align_spec size :
  0 < size -> size < 2 ^ 64 ->
  (size <= 2 ^ 64 - PAGE_SIZE ->
     (PAGE_ALIGN size) mod PAGE_SIZE = 0 /\ size <= PAGE_ALIGN size < size + PAGE_SIZE) /\
  (2 ^ 64 - PAGE_SIZE < size -> PAGE_ALIGN size = 0).
Proof.
  intros H1 H2. rewrite page_align_eq. unfold PAGE_SIZE, wrapU in *.
  split; intros; [split|]; zlia.
Qed.

(** Pages in kilobytes. *)
Lemma pages_kb n : 0 <= n < 2 ^ 44 -> u64 (n * PAGE_SIZE) / KB = 4 * n.
Proof. intros H. unfold wrapU, PAGE_SIZE, KB. zlia. Qed.

Lemma collect_percentage `{TaskEnv, StatEnv} mm :
  0 <= get_mm_rss mm <= total_vm mm -> total_vm mm < 2 ^ 44 ->
  percentage_used_memory (collect mm)
    = if total_vm mm =? 0 then 0 else 100 * get_mm_rss mm / total_vm mm.
Proof.
  intros Hr Ht. unfold collect. cbn [percentage_used_memory].
  rewrite (pages_kb (total_vm mm)), (pages_kb (get_mm_rss mm)) by lia.
  destruct (total_vm mm =? 0) eqn:E0; [case_if; lia|]. case_if; [|lia].
  assert (u64 (4 * get_mm_rss mm * 100) / (4 * total_vm mm) = 100 * get_mm_rss mm / total_vm mm) as ->.
  { rewrite wrapU_id by (lia || (split; lia)).
    replace (4 * get_mm_rss mm * 100) with (4 * (100 * get_mm_rss mm)) by lia.
    rewrite Z.div_mul_cancel_l by lia. done. }
  apply wrapS_id; [lia|].
  assert (0 <= 100 * get_mm_rss mm / total_vm mm <= 100).
  { split; [apply Z.div_pos; lia|]. apply Z.div_le_upper_bound; lia. }
  red. lia.
Qed.

Lemma collect_score `{TaskEnv, StatEnv} mm :
  0 <= get_mm_rss mm < 2 ^ 44 ->
  let total := u64 (si_totalram * si_mem_unit) / KB in
  4 * get_mm_rss mm <= total ->
  oom_score (collect mm) = (if total =? 0 then 0 else 1000 * (4 * get_mm_rss mm) / total) /\
  0 <= oom_score (collect mm) <= 1000.
Proof.
  intros Hr total Ht. unfold collect. cbn [oom_score]. fold total.
  rewrite (pages_kb (get_mm_rss mm)) by lia.
  pose proof (u64_bounds (si_totalram * si_mem_unit)) as Hb.
  assert (0 <= total) by (unfold total, KB; zlia). clearbody total. clear Hb.
  destruct (total =? 0) eqn:E0; [case_if; lia|]. case_if; [|lia].
  rewrite (wrapU_id 64) by (lia || (split; lia)).
  replace (4 * get_mm_rss mm * 1000) with (1000 * (4 * get_mm_rss mm)) by lia.
  assert (0 <= 1000 * (4 * get_mm_rss mm) / total <= 1000).
  { split; [apply Z.div_pos; lia|]. apply Z.div_le_upper_bound; lia. }
  rewrite wrapS_id by (lia || (split; lia)). lia.
Qed.

(** The address spaces the loop of syscall6.c adds up. *)
Fixpoint mms (ps : list task_struct) : list mm_struct :=
  match ps with
  | [] => []
  | t :: ps' => match t_mm t with Some mm => mm :: mms ps' | None => mms ps' end
  end.

Definition sumZ (f : mm_struct -> Z) (l : list mm_struct) : Z :=
  foldr (fun mm acc => f mm + acc) 0 l.

Lemma sumZ_div f l k :
  0 < k -> Forall (fun mm => 0 <= f mm) l ->
  0 <= sumZ (fun mm => f mm / k) l <= sumZ f l / k /\
  sumZ f l / k <= sumZ (fun mm => f mm / k) l + Z.of_nat (length l).
Proof.
  intros Hk. induction l as [|mm l IH]; intros Hf; [simpl; by rewrite Z.div_0_l by lia|].
  apply Forall_cons in Hf as [H0 Hf]. specialize (IH Hf).
  change (sumZ f (mm :: l)) with (f mm + sumZ f l).
  change (sumZ (fun m => f m / k) (mm :: l)) with (f mm / k + sumZ (fun m => f m / k) l).
  cbn [length].
  pose proof (Z.div_mod (f mm) k ltac:(lia)). pose proof (Z.mod_pos_bound (f mm) k Hk).
  pose proof (Z.div_mod (sumZ f l) k ltac:(lia)). pose proof (Z.mod_pos_bound (sumZ f l) k Hk).
  pose proof (Z.div_mod (f mm + sumZ f l) k ltac:(lia)).
  pose proof (Z.mod_pos_bound (f mm + sumZ f l) k Hk).
  pose proof (Z.div_pos (f mm) k H0 Hk).
  nia.
Qed.

Lemma accumulate_sum `{TaskEnv} ps s :
  Forall (fun mm => 0 <= get_mm_rss mm < 2 ^ 44 /\ 0 <= total_vm mm < 2 ^ 44) (mms ps) ->
  0 <= reserved_memory_mb s /\ 0 <= committed_memory_mb s ->
  reserved_memory_mb s + 2 ^ 36 * Z.of_nat (length (mms ps)) < 2 ^ 64 ->
  committed_memory_mb s + 2 ^ 36 * Z.of_nat (length (mms ps)) < 2 ^ 64 ->
  accumulate ps s =
    {| reserved_memory_mb := reserved_memory_mb s + sumZ (fun mm => get_mm_rss mm / 256) (mms ps);
       committed_memory_mb := committed_memory_mb s + sumZ (fun mm => total_vm mm / 256) (mms ps) |}.
Proof.
  revert s. induction ps as [|t ps IH]; intros s Hf H0 Hr Hc; cbn [accumulate mms].
  { destruct s. simpl. by rewrite !Z.add_0_r. }
  cbn [mms] in *. destruct (t_mm t) as [mm|]; [|by apply IH].
  apply Forall_cons in Hf as [[Hm1 Hm2] Hf]. cbn [length] in *.
  assert (u64 (get_mm_rss mm * PAGE_SIZE) / (1024 * 1024) = get_mm_rss mm / 256) as ->
    by (unfold wrapU, PAGE_SIZE; zlia).
  assert (u64 (total_vm mm * PAGE_SIZE) / (1024 * 1024) = total_vm mm / 256) as ->
    by (unfold wrapU, PAGE_SIZE; zlia).
  assert (0 <= get_mm_rss mm / 256 < 2 ^ 36) by zlia.
  assert (0 <= total_vm mm / 256 < 2 ^ 36) by zlia.
  rewrite (wrapU_id 64 (reserved_memory_mb s + _)) by (red; lia).
  rewrite (wrapU_id 64 (committed_memory_mb s + _)) by (red; lia).
  rewrite IH; cbn [reserved_memory_mb committed_memory_mb]; [|done|lia|lia|lia].
  f_equal; simpl; lia.
Qed.

(** ** Properties *)

(** A snapshot is delivered whole or the call fails with -EFAULT, and for a
    machine of less than 2^52 pages the delivered words are the RAM size in
    bytes, the counter [free] reads in bytes, their difference, and the three
    page counters; total = free + used.  The counter [free] reads is node
    counter number 0, the inactive anonymous pages, and active_pages is the
    inactive file list. *)
Theorem capture_snapshot_spec (E : StatEnv) (U : UserAccess) snapshot um :
  0 <= totalram_pages < 2 ^ 52 -> 0 <= global_node_page_state NR_INACTIVE_ANON <= totalram_pages ->
  let '(ret, um') := luis_capture_memory_snapshot snapshot um in
  ret = - EFAULT \/
  ret = 0 /\ uread um' snapshot 48
    = Some (words_bytes
        [4096 * totalram_pages;
         4096 * global_node_page_state NR_INACTIVE_ANON;
         4096 * (totalram_pages - global_node_page_state NR_INACTIVE_ANON);
         global_node_page_state NR_INACTIVE_FILE;
         global_node_page_state NR_FILE_PAGES;
         u64 (global_node_page_state ZSWPIN + global_node_page_state ZSWPOUT)]).
Proof.
  intros Ht Hf. unfold luis_capture_memory_snapshot.
  pose proof (copy_out_cases snapshot (words_bytes (snapshot_words kernel_snapshot)) um) as H.
  destruct (copy_to_user _ _ _) as [r um']. case_if; [by left|].
  destruct H as [[_ H]|H]; [|done]. right. split; [done|].
  rewrite words_bytes_length in H. etrans; [exact H|]. do 2 f_equal.
  unfold snapshot_words, kernel_snapshot. cbn [total_memory free_memory used_memory active_pages cache_pages swap_pages].
  change NR_FREE_PAGES with NR_INACTIVE_ANON.
  rewrite !Z.shiftl_mul_pow2 by done. unfold PAGE_SHIFT. change (2 ^ 12) with 4096.
  rewrite (wrapS_id 64) by (lia || (split; lia)).
  rewrite !(wrapU_id 64 (_ * 4096)) by (lia || (split; lia)).
  rewrite (wrapU_id 64 (_ - _)) by (lia || (split; lia)).
  f_equal; [lia|]. f_equal; [lia|]. f_equal. lia.
Qed.

(** [luis_tamalloc] refuses a zero size and otherwise returns what vm_mmap
    returns for an anonymous private mapping whose length is the size rounded up
    to whole pages; sizes in the last page of the address range wrap to a length
    of zero. *)
Theorem tamalloc_rounds_up vm_mmap size :
  0 <= size < 2 ^ 64 ->
  luis_tamalloc vm_mmap size
    = (if size =? 0 then - EINVAL else i64 (vm_mmap 0 0 (PAGE_ALIGN size) 3 16418 0)) /\
  (0 < size <= 2 ^ 64 - PAGE_SIZE ->
     (PAGE_ALIGN size) mod PAGE_SIZE = 0 /\ size <= PAGE_ALIGN size < size + PAGE_SIZE) /\
  (2 ^ 64 - PAGE_SIZE < size -> PAGE_ALIGN size = 0).
Proof.
  intros Hs. split; [|].
  - unfold luis_tamalloc. case_if; [done|]. by case_if.
  - destruct (decide (size = 0)) as [->|]; [split; unfold PAGE_SIZE; lia|].
    destruct (page_align_spec size) as [H1 H2]; [lia|lia|].
    split; [intros [_ ?]; by apply H1|exact H2].
Qed.

(** What the manual asks for, over unbounded integers: the reserved and resident sizes in
    kilobytes, the resident share of the reserved memory in whole per cent, and the resident
    share of the memory of the machine in whole per mille as the score. *)
Definition expected_info {T : TaskEnv} {E : StatEnv} (mm : mm_struct) : process_memory_info :=
  let ram := si_totalram * si_mem_unit / KB in
  {| reserved_memory_kb := 4 * total_vm mm; committed_memory_kb := 4 * get_mm_rss mm;
     used_memory_kb := 4 * get_mm_rss mm;
     oom_score := if ram =? 0 then 0 else 1000 * (4 * get_mm_rss mm) / ram;
     percentage_used_memory := if total_vm mm =? 0 then 0 else 100 * get_mm_rss mm / total_vm mm |}.

(** Nothing wraps. *)
Lemma collect_expected (T : TaskEnv) (E : StatEnv) mm :
  0 <= get_mm_rss mm <= total_vm mm -> total_vm mm < 2 ^ 44 -> is_u 64 (si_totalram * si_mem_unit) ->
  4 * get_mm_rss mm <= si_totalram * si_mem_unit / KB ->
  collect mm = expected_info mm /\ 0 <= percentage_used_memory (expected_info mm) <= 100 /\
  0 <= oom_score (expected_info mm) <= 1000.
Proof.
  intros Hr Hv Hu Ht. pose proof (collect_percentage mm Hr Hv) as Hp.
  assert (0 <= get_mm_rss mm < 2 ^ 44) as Hr' by lia.
  assert (u64 (si_totalram * si_mem_unit) = si_totalram * si_mem_unit) as Hw by (by apply wrapU_id).
  pose proof (collect_score mm Hr') as H. cbv zeta in H. rewrite Hw in H. destruct (H Ht) as [Hsc Hs].
  rewrite Hsc in Hs. unfold expected_info. cbn [percentage_used_memory oom_score]. split; [|split; [|exact Hs]].
  - pose proof (pages_kb (get_mm_rss mm) Hr') as Hrss. assert (u64 (total_vm mm * PAGE_SIZE) / KB = 4 * total_vm mm) as Hvm by (apply pages_kb; lia).
    rewrite <- Hsc, <- Hp. unfold collect. cbn [oom_score percentage_used_memory]. by rewrite Hvm, Hrss.
  - case_if; [lia|]. split; [apply Z.div_pos; lia|]. apply Z.div_le_upper_bound; lia.
Qed.

(** C40: [luis_recoleccion_general] on a process whose resident set fits its address space
    (below 2^44 pages) and the memory of the machine computes, without any wrap-around, the
    sizes in kilobytes, the whole percentage of resident over reserved memory (0 to 100) and
    the score, the resident share of the machine's memory in whole per mille (0 to 1000); the
    structure is copied out once, the answer is 0 exactly when all of it was copied, and user
    space then reads exactly it; else -EFAULT.  An unknown process is -ESRCH and a kernel
    thread -EFAULT, with user memory untouched. *)
Theorem recoleccion_spec (T : TaskEnv) (E : StatEnv) (U : UserAccess) pid mem_info um :
  match pid_task pid with
  | None => luis_recoleccion_general pid mem_info um = (- ESRCH, um)
  | Some task =>
      match t_mm task with
      | None => luis_recoleccion_general pid mem_info um = (- EFAULT, um)
      | Some mm =>
          0 <= get_mm_rss mm <= total_vm mm -> total_vm mm < 2 ^ 44 -> is_u 64 (si_totalram * si_mem_unit) ->
          4 * get_mm_rss mm <= si_totalram * si_mem_unit / KB ->
          let info := expected_info mm in
          let '(rest, um') := copy_to_user mem_info (info_bytes info) um in
          luis_recoleccion_general pid mem_info um = (if rest =? 0 then 0 else - EFAULT, um') /\
          (rest = 0 -> uread um' mem_info 32 = Some (info_bytes info)) /\
          0 <= percentage_used_memory info <= 100 /\ 0 <= oom_score info <= 1000
      end
  end.
Proof.
  unfold luis_recoleccion_general. destruct (pid_task pid) as [t|]; [|done].
  destruct (t_mm t) as [mm|]; [|done]. intros Hr Hv Hu Ht. cbv zeta.
  destruct (collect_expected T E mm Hr Hv Hu Ht) as (-> & Hp & Hs).
  destruct (copy_to_user _ _ _) as [r um'] eqn:Hc. split; [|split; [|by split]].
  - unfold c_true. by destruct (r =? 0).
  - intros ->. apply copy_to_user_uread in Hc.
    assert (length (info_bytes (expected_info mm)) = 32%nat) as Hlen
      by (unfold info_bytes; by rewrite !length_app, words_bytes_length, !le_bytes_length).
    by rewrite Hlen in Hc.
Qed.

(** [luis_resumen_total] adds up whole megabytes process by process: kernel
    threads are skipped, nothing wraps for up to 2^27 address spaces of less than
    2^44 pages, and each of the two totals is below the exact number of
    megabytes by at most one per process. *)
Theorem resumen_total_error_bound (T : TaskEnv) :
  Forall (fun mm => 0 <= get_mm_rss mm < 2 ^ 44 /\ 0 <= total_vm mm < 2 ^ 44) (mms processes) ->
  Z.of_nat (length (mms processes)) < 2 ^ 27 ->
  let s := accumulate processes {| reserved_memory_mb := 0; committed_memory_mb := 0 |} in
  let n := Z.of_nat (length (mms processes)) in
  reserved_memory_mb s <= sumZ get_mm_rss (mms processes) / 256 <= reserved_memory_mb s + n /\
  committed_memory_mb s <= sumZ total_vm (mms processes) / 256 <= committed_memory_mb s + n.
Proof.
  intros Hf Hn s n. unfold s.
  rewrite accumulate_sum; cbn [reserved_memory_mb committed_memory_mb]; [|done|lia|lia|lia].
  assert (Forall (fun mm => 0 <= get_mm_rss mm) (mms processes)) as H1
    by (eapply Forall_impl; [exact Hf|]; intros ? [[? ?] _]; done).
  assert (Forall (fun mm => 0 <= total_vm mm) (mms processes)) as H2
    by (eapply Forall_impl; [exact Hf|]; intros ? [_ [? ?]]; done).
  pose proof (sumZ_div get_mm_rss _ 256 ltac:(lia) H1).
  pose proof (sumZ_div total_vm _ 256 ltac:(lia) H2). lia.
Qed.

(** Every call of [luis_get_io_throttle] that finds its process, the ones
    that fail with -EFAULT included, leaves one more reference on the task:
    [get_pid_task] takes it and nothing drops it. *)
Theorem io_throttle_leaks_reference (T : TaskEnv) (U : UserAccess) pid stats refs um task ret refs' um' :
  pid_task pid = Some task ->
  luis_get_io_throttle pid stats refs um = (ret, refs', um') ->
  (ret = 0 \/ ret = - EFAULT) /\
  default 0 (refs' !! t_pid task) = default 0 (refs !! t_pid task) + 1.
Proof.
  unfold luis_get_io_throttle. intros ->. destruct (copy_to_user _ _ _) as [r um1].
  case_if; intros Heq; simplify_eq; rewrite lookup_insert_eq; auto.
Qed.

(** ** Concrete instances *)

Definition demo_stats : StatEnv := {|
  totalram_pages := 1000; global_node_page_state := fun i => if i =? 0 then 300 else 7;
  NR_FILE_PAGES := 19; ZSWPIN := 90; ZSWPOUT := 91; si_totalram := 1000; si_mem_unit := 4096
|}.

Definition demo_ioac : task_io_accounting := {|
  io_read_bytes := 10; io_write_bytes := 20; io_read_disk_bytes := 30;
  io_write_disk_bytes := 40; io_wait_time_ms := 50
|}.

Definition demo_task : task_struct := {|
  t_pid := 42; t_mm := Some {| total_vm := 600; rss_pages := 400 |}; t_ioac := demo_ioac
|}.

Definition demo_tasks : TaskEnv := table_env true (<[42 := demo_task]> empty).

Lemma capture_snapshot_spec_witness :
  let '(ret, um') := luis_capture_memory_snapshot (E := demo_stats) (U := last_copy) 4096
                       (fun _ => None) in
  ret = - EFAULT \/
  ret = 0 /\ uread (U := last_copy) um' 4096 48
    = Some (words_bytes [4096 * 1000; 4096 * 300; 4096 * (1000 - 300); 7; 7; u64 (7 + 7)]).
Proof.
  exact (capture_snapshot_spec demo_stats last_copy 4096 (fun _ => None)
    ltac:(simpl; lia) ltac:(simpl; lia)).
Defined.

Lemma tamalloc_rounds_up_witness :
  luis_tamalloc (fun _ _ len _ _ _ => 65536 + len) 5000 = 65536 + 8192 /\
  PAGE_ALIGN 18446744073709551000 = 0.
Proof.
  split.
  - rewrite (proj1 (tamalloc_rounds_up (fun _ _ len _ _ _ => 65536 + len) 5000 ltac:(lia))).
    reflexivity.
  - apply (proj2 (proj2 (tamalloc_rounds_up (fun _ _ _ _ _ _ => 0) 18446744073709551000 ltac:(lia)))).
    unfold PAGE_SIZE. lia.
Defined.

Lemma recoleccion_spec_witness :
  exists um', luis_recoleccion_general (T := demo_tasks) (E := demo_stats) (U := last_copy) 42 4096 (fun _ => None) = (0, um') /\
    uread (U := last_copy) um' 4096 32 = Some (info_bytes
      {| reserved_memory_kb := 2400; committed_memory_kb := 1600; used_memory_kb := 1600;
         oom_score := 400; percentage_used_memory := 66 |}).
Proof.
  pose proof (recoleccion_spec demo_tasks demo_stats last_copy 42 4096 (fun _ => None)
    ltac:(simpl; lia) ltac:(simpl; lia) ltac:(split; [vm_compute; discriminate|reflexivity])
    ltac:(vm_compute; discriminate)) as H.
  cbv zeta in H. destruct (copy_to_user _ _ _) as [r um'] eqn:Hc. destruct H as (H1 & H2 & _).
  injection Hc as <- <-. eexists. split; [exact H1|]. exact (H2 eq_refl).
Defined.

Lemma resumen_total_error_bound_witness :
  let s := accumulate (T := demo_tasks) (processes (TaskEnv := demo_tasks))
             {| reserved_memory_mb := 0; committed_memory_mb := 0 |} in
  reserved_memory_mb s <= 400 / 256 <= reserved_memory_mb s + 1 /\
  committed_memory_mb s <= 600 / 256 <= committed_memory_mb s + 1.
Proof.
  exact (resumen_total_error_bound demo_tasks
    ltac:(repeat constructor; by vm_compute) ltac:(by vm_compute)).
Defined.

Lemma io_throttle_leaks_reference_witness :
  let '(ret, refs', um') := luis_get_io_throttle (E := demo_tasks) (U := last_copy) 42 4096
                              empty (fun _ : Z => @None Z) in
  (ret = 0 \/ ret = - EFAULT) /\ default 0 (refs' !! 42) = 0 + 1.
Proof.
  destruct (luis_get_io_throttle (E := demo_tasks) (U := last_copy) 42 4096
    empty (fun _ : Z => @None Z)) as [[ret refs'] um'] eqn:Heq.
  exact (io_throttle_leaks_reference demo_tasks last_copy 42 4096 empty
    (fun _ : Z => @None Z) demo_task ret refs' um' eq_refl Heq).
Defined.
