(* ===== verification/Cred.v ===== *)
(** * Process identity (kernel/sys.c: the set*id and get*id syscalls)

    The state is the credential set of the calling process, its task flags and
    the number of credential copies that [prepare_creds] handed out and nobody
    has committed or aborted yet.  Id mapping, capability checks, the security
    hooks and the allocators are code outside the repository: parameters of the
    class [CredEnv], with the part of their contract that sys.c relies on (the
    hooks and [set_cred_ucounts] may rewrite capabilities and the ucounts of the
    new set, not its ids). *)
From S2P Require Import Prelude UserMem.

Record cred := {
  uid : Z; gid : Z; suid : Z; sgid : Z; euid : Z; egid : Z; fsuid : Z; fsgid : Z;
  user : Z; ucounts : Z; user_ns : Z; cap_effective : Z; cap_permitted : Z
}.

Record cred_state := { cur : cred; task_flags : Z; pending : Z }.

(** [(uid_t)-1] and [(gid_t)-1]. *)
Definition NOID := 4294967295.
Definition CAP_SETGID := 6.
Definition CAP_SETUID := 7.
Definition LSM_SETID_ID := 1.
Definition LSM_SETID_RE := 2.
Definition LSM_SETID_RES := 4.
Definition LSM_SETID_FS := 8.
Definition PF_NPROC_EXCEEDED := 4096.

(** The members that identify the process. *)
Definition same_ids (a b : cred) : Prop :=
  uid a = uid b /\ gid a = gid b /\ suid a = suid b /\ sgid a = sgid b /\
  euid a = euid b /\ egid a = egid b /\ fsuid a = fsuid b /\ fsgid a = fsgid b /\
  user a = user b /\ user_ns a = user_ns b.

Class CredEnv := {
  make_kuid : Z -> Z -> Z;
  make_kgid : Z -> Z -> Z;
  from_kuid_munged : Z -> Z -> Z;
  from_kgid_munged : Z -> Z -> Z;
  prepare_ok : bool;
  ns_capable_setid : cred -> Z -> Z -> bool;
  security_task_fix_setuid : cred -> cred -> Z -> Z * cred;
  security_task_fix_setgid : cred -> cred -> Z -> Z * cred;
  alloc_uid : Z -> option Z;
  set_cred_ucounts : cred -> Z * cred;
  nproc_overlimit : Z -> bool;
  INIT_USER : Z;
  fix_setuid_ids : forall new old f, same_ids (security_task_fix_setuid new old f).2 new;
  fix_setgid_ids : forall new old f, same_ids (security_task_fix_setgid new old f).2 new;
  set_cred_ucounts_ids : forall new, same_ids (set_cred_ucounts new).2 new
}.

(** Assignments to the ids of a credential set. *)
Definition with_uids (u e s f : Z) (c : cred) : cred :=
  {| uid := u; gid := gid c; suid := s; sgid := sgid c; euid := e; egid := egid c;
     fsuid := f; fsgid := fsgid c; user := user c; ucounts := ucounts c;
     user_ns := user_ns c; cap_effective := cap_effective c; cap_permitted := cap_permitted c |}.

Definition with_gids (g e s f : Z) (c : cred) : cred :=
  {| uid := uid c; gid := g; suid := suid c; sgid := s; euid := euid c; egid := e;
     fsuid := fsuid c; fsgid := f; user := user c; ucounts := ucounts c;
     user_ns := user_ns c; cap_effective := cap_effective c; cap_permitted := cap_permitted c |}.

Definition with_user (v : Z) (c : cred) : cred :=
  {| uid := uid c; gid := gid c; suid := suid c; sgid := sgid c; euid := euid c; egid := egid c;
     fsuid := fsuid c; fsgid := fsgid c; user := v; ucounts := ucounts c;
     user_ns := user_ns c; cap_effective := cap_effective c; cap_permitted := cap_permitted c |}.

Definition add_pending (d : Z) (st : cred_state) : cred_state :=
  {| cur := cur st; task_flags := task_flags st; pending := pending st + d |}.

(** [abort_creds(new); return retval], and [return commit_creds(new)]. *)
Definition abort (retval : Z) (st : cred_state) : Z * cred_state := (retval, add_pending (-1) st).

Definition commit (new : cred) (st : cred_state) : Z * cred_state :=
  (0, {| cur := new; task_flags := task_flags st; pending := pending st - 1 |}).

Definition given (id : Z) : bool := negb (id =? NOID).
Definition id_valid (kid : Z) : bool := negb (kid =? NOID).

Section syscalls.
Context {E : CredEnv}.

(** *** Groups *)

Definition sys_setregid (rgid egid_ : Z) (st : cred_state) : Z * cred_state :=
  let ns := user_ns (cur st) in
  let krgid := make_kgid ns rgid in
  let kegid := make_kgid ns egid_ in
  if given rgid && negb (id_valid krgid) then (- EINVAL, st)
  else if given egid_ && negb (id_valid kegid) then (- EINVAL, st)
  else if negb prepare_ok then (- ENOMEM, st)
  else
    let st := add_pending 1 st in
    let old := cur st in
    let new := old in
    match
      if given rgid then
        if (gid old =? krgid) || (egid old =? krgid)
           || ns_capable_setid old (user_ns old) CAP_SETGID
        then Some (with_gids krgid (egid new) (sgid new) (fsgid new) new) else None
      else Some new
    with
    | None => abort (- EPERM) st
    | Some new =>
        match
          if given egid_ then
            if (gid old =? kegid) || (egid old =? kegid) || (sgid old =? kegid)
               || ns_capable_setid old (user_ns old) CAP_SETGID
            then Some (with_gids (gid new) kegid (sgid new) (fsgid new) new) else None
          else Some new
        with
        | None => abort (- EPERM) st
        | Some new =>
            let new :=
              if given rgid || (given egid_ && negb (kegid =? gid old))
              then with_gids (gid new) (egid new) (egid new) (fsgid new) new else new in
            let new := with_gids (gid new) (egid new) (sgid new) (egid new) new in
            let '(retval, new) := security_task_fix_setgid new old LSM_SETID_RE in
            if retval <? 0 then abort retval st else commit new st
        end
    end.

Definition sys_setgid (g : Z) (st : cred_state) : Z * cred_state :=
  let kgid := make_kgid (user_ns (cur st)) g in
  if negb (id_valid kgid) then (- EINVAL, st)
  else if negb prepare_ok then (- ENOMEM, st)
  else
    let st := add_pending 1 st in
    let old := cur st in
    let new := old in
    match
      if ns_capable_setid old (user_ns old) CAP_SETGID then Some (with_gids kgid kgid kgid kgid new)
      else if (kgid =? gid old) || (kgid =? sgid old)
      then Some (with_gids (gid new) kgid (sgid new) kgid new)
      else None
    with
    | None => abort (- EPERM) st
    | Some new =>
        let '(retval, new) := security_task_fix_setgid new old LSM_SETID_ID in
        if retval <? 0 then abort retval st else commit new st
    end.

Definition sys_setresgid (rgid egid_ sgid_ : Z) (st : cred_state) : Z * cred_state :=
  let ns := user_ns (cur st) in
  let krgid := make_kgid ns rgid in
  let kegid := make_kgid ns egid_ in
  let ksgid := make_kgid ns sgid_ in
  if given rgid && negb (id_valid krgid) then (- EINVAL, st)
  else if given egid_ && negb (id_valid kegid) then (- EINVAL, st)
  else if given sgid_ && negb (id_valid ksgid) then (- EINVAL, st)
  else
    let old := cur st in
    if (negb (given rgid) || (krgid =? gid old))
       && (negb (given egid_) || ((kegid =? egid old) && (kegid =? fsgid old)))
       && (negb (given sgid_) || (ksgid =? sgid old))
    then (0, st)
    else
      let rgid_new := given rgid && negb (krgid =? gid old)
                      && negb (krgid =? egid old) && negb (krgid =? sgid old) in
      let egid_new := given egid_ && negb (kegid =? gid old)
                      && negb (kegid =? egid old) && negb (kegid =? sgid old) in
      let sgid_new := given sgid_ && negb (ksgid =? gid old)
                      && negb (ksgid =? egid old) && negb (ksgid =? sgid old) in
      if (rgid_new || egid_new || sgid_new)
         && negb (ns_capable_setid old (user_ns old) CAP_SETGID)
      then (- EPERM, st)
      else if negb prepare_ok then (- ENOMEM, st)
      else
        let st := add_pending 1 st in
        let new := old in
        let new := if given rgid
                   then with_gids krgid (egid new) (sgid new) (fsgid new) new else new in
        let new := if given egid_
                   then with_gids (gid new) kegid (sgid new) (fsgid new) new else new in
        let new := if given sgid_
                   then with_gids (gid new) (egid new) ksgid (fsgid new) new else new in
        let new := with_gids (gid new) (egid new) (sgid new) (egid new) new in
        let '(retval, new) := security_task_fix_setgid new old LSM_SETID_RES in
        if retval <? 0 then abort retval st else commit new st.

Definition sys_setfsgid (g : Z) (st : cred_state) : Z * cred_state :=
  let old := cur st in
  let old_fsgid := from_kgid_munged (user_ns old) (fsgid old) in
  let kgid := make_kgid (user_ns old) g in
  if negb (id_valid kgid) then (old_fsgid, st)
  else if negb prepare_ok then (old_fsgid, st)
  else
    let st := add_pending 1 st in
    let new := old in
    if (kgid =? gid old) || (kgid =? egid old) || (kgid =? sgid old) || (kgid =? fsgid old)
       || ns_capable_setid old (user_ns old) CAP_SETGID
    then
      if negb (kgid =? fsgid old) then
        let new := with_gids (gid new) (egid new) (sgid new) kgid new in
        let '(r, new) := security_task_fix_setgid new old LSM_SETID_FS in
        if r =? 0 then (old_fsgid, (commit new st).2) else abort old_fsgid st
      else abort old_fsgid st
    else abort old_fsgid st.

(** *** Users *)

(** change the user struct in a credentials set to match the new UID *)
Definition set_user (new : cred) : Z * cred :=
  match alloc_uid (uid new) with
  | None => (- EAGAIN, new)
  | Some new_user => (0, with_user new_user new)
  end.

Definition flag_nproc_exceeded (new : cred) (st : cred_state) : cred_state :=
  if ucounts new =? ucounts (cur st) then st
  else
    {| cur := cur st;
       task_flags :=
         if nproc_overlimit (ucounts new) && negb (user new =? INIT_USER)
         then Z.lor (task_flags st) PF_NPROC_EXCEEDED
         else clear (task_flags st) PF_NPROC_EXCEEDED;
       pending := pending st |}.

(** The tail the uid syscalls share: the security hook, the ucounts, the nproc
    flag and the commit, or [abort_creds]. *)
Definition finish_setuid (new old : cred) (how : Z) (st : cred_state) : Z * cred_state :=
  let '(retval, new) := security_task_fix_setuid new old how in
  if retval <? 0 then abort retval st
  else
    let '(retval, new) := set_cred_ucounts new in
    if retval <? 0 then abort retval st
    else commit new (flag_nproc_exceeded new st).

Definition sys_setreuid (ruid euid_ : Z) (st : cred_state) : Z * cred_state :=
  let ns := user_ns (cur st) in
  let kruid := make_kuid ns ruid in
  let keuid := make_kuid ns euid_ in
  if given ruid && negb (id_valid kruid) then (- EINVAL, st)
  else if given euid_ && negb (id_valid keuid) then (- EINVAL, st)
  else if negb prepare_ok then (- ENOMEM, st)
  else
    let st := add_pending 1 st in
    let old := cur st in
    let new := old in
    let new := if given ruid
               then with_uids kruid (euid new) (suid new) (fsuid new) new else new in
    if given ruid && (negb (uid old =? kruid) && negb (euid old =? kruid)
                      && negb (ns_capable_setid old (user_ns old) CAP_SETUID))
    then abort (- EPERM) st
    else
      let new := if given euid_
                 then with_uids (uid new) keuid (suid new) (fsuid new) new else new in
      if given euid_ && (negb (uid old =? keuid) && negb (euid old =? keuid)
                         && negb (suid old =? keuid)
                         && negb (ns_capable_setid old (user_ns old) CAP_SETUID))
      then abort (- EPERM) st
      else
        let '(retval, new) := if negb (uid new =? uid old) then set_user new else (0, new) in
        if retval <? 0 then abort retval st
        else
          let new :=
            if given ruid || (given euid_ && negb (keuid =? uid old))
            then with_uids (uid new) (euid new) (euid new) (fsuid new) new else new in
          let new := with_uids (uid new) (euid new) (suid new) (euid new) new in
          finish_setuid new old LSM_SETID_RE st.

Definition sys_setuid (u : Z) (st : cred_state) : Z * cred_state :=
  let kuid := make_kuid (user_ns (cur st)) u in
  if negb (id_valid kuid) then (- EINVAL, st)
  else if negb prepare_ok then (- ENOMEM, st)
  else
    let st := add_pending 1 st in
    let old := cur st in
    let new := old in
    let '(retval, new) :=
      if ns_capable_setid old (user_ns old) CAP_SETUID then
        let new := with_uids kuid (euid new) kuid (fsuid new) new in
        if negb (kuid =? uid old) then set_user new else (0, new)
      else if negb (kuid =? uid old) && negb (kuid =? suid new) then (- EPERM, new)
      else (0, new) in
    if retval <? 0 then abort retval st
    else
      let new := with_uids (uid new) kuid (suid new) kuid new in
      finish_setuid new old LSM_SETID_ID st.

Definition sys_setresuid (ruid euid_ suid_ : Z) (st : cred_state) : Z * cred_state :=
  let ns := user_ns (cur st) in
  let kruid := make_kuid ns ruid in
  let keuid := make_kuid ns euid_ in
  let ksuid := make_kuid ns suid_ in
  if given ruid && negb (id_valid kruid) then (- EINVAL, st)
  else if given euid_ && negb (id_valid keuid) then (- EINVAL, st)
  else if given suid_ && negb (id_valid ksuid) then (- EINVAL, st)
  else
    let old := cur st in
    if (negb (given ruid) || (kruid =? uid old))
       && (negb (given euid_) || ((keuid =? euid old) && (keuid =? fsuid old)))
       && (negb (given suid_) || (ksuid =? suid old))
    then (0, st)
    else
      let ruid_new := given ruid && negb (kruid =? uid old)
                      && negb (kruid =? euid old) && negb (kruid =? suid old) in
      let euid_new := given euid_ && negb (keuid =? uid old)
                      && negb (keuid =? euid old) && negb (keuid =? suid old) in
      let suid_new := given suid_ && negb (ksuid =? uid old)
                      && negb (ksuid =? euid old) && negb (ksuid =? suid old) in
      if (ruid_new || euid_new || suid_new)
         && negb (ns_capable_setid old (user_ns old) CAP_SETUID)
      then (- EPERM, st)
      else if negb prepare_ok then (- ENOMEM, st)
      else
        let st := add_pending 1 st in
        let new := old in
        let '(retval, new) :=
          if given ruid then
            let new := with_uids kruid (euid new) (suid new) (fsuid new) new in
            if negb (kruid =? uid old) then set_user new else (0, new)
          else (0, new) in
        if retval <? 0 then abort retval st
        else
          let new := if given euid_
                     then with_uids (uid new) keuid (suid new) (fsuid new) new else new in
          let new := if given suid_
                     then with_uids (uid new) (euid new) ksuid (fsuid new) new else new in
          let new := with_uids (uid new) (euid new) (suid new) (euid new) new in
          finish_setuid new old LSM_SETID_RES st.

Definition sys_setfsuid (u : Z) (st : cred_state) : Z * cred_state :=
  let old := cur st in
  let old_fsuid := from_kuid_munged (user_ns old) (fsuid old) in
  let kuid := make_kuid (user_ns old) u in
  if negb (id_valid kuid) then (old_fsuid, st)
  else if negb prepare_ok then (old_fsuid, st)
  else
    let st := add_pending 1 st in
    let new := old in
    if (kuid =? uid old) || (kuid =? euid old) || (kuid =? suid old) || (kuid =? fsuid old)
       || ns_capable_setid old (user_ns old) CAP_SETUID
    then
      if negb (kuid =? fsuid old) then
        let new := with_uids (uid new) (euid new) (suid new) kuid new in
        let '(r, new) := security_task_fix_setuid new old LSM_SETID_FS in
        if r =? 0 then (old_fsuid, (commit new st).2) else abort old_fsuid st
      else abort old_fsuid st
    else abort old_fsuid st.

(** *** Queries *)

Definition sys_getuid (st : cred_state) : Z := from_kuid_munged (user_ns (cur st)) (uid (cur st)).
Definition sys_geteuid (st : cred_state) : Z := from_kuid_munged (user_ns (cur st)) (euid (cur st)).
Definition sys_getgid (st : cred_state) : Z := from_kgid_munged (user_ns (cur st)) (gid (cur st)).
Definition sys_getegid (st : cred_state) : Z := from_kgid_munged (user_ns (cur st)) (egid (cur st)).

Context {U : UserAccess}.

(** Three [put_user] calls, the later ones only after the earlier succeeded. *)
Definition put3 (a pa b pb c pc : Z) (um : umem) : Z * umem :=
  let '(retval, um) := put_user 4 a pa um in
  if negb (c_true retval) then
    let '(retval, um) := put_user 4 b pb um in
    if negb (c_true retval) then put_user 4 c pc um else (retval, um)
  else (retval, um).

Definition sys_getresuid (ruidp euidp suidp : Z) (st : cred_state) (um : umem) : Z * umem :=
  let c := cur st in
  put3 (from_kuid_munged (user_ns c) (uid c)) ruidp
       (from_kuid_munged (user_ns c) (euid c)) euidp
       (from_kuid_munged (user_ns c) (suid c)) suidp um.

Definition sys_getresgid (rgidp egidp sgidp : Z) (st : cred_state) (um : umem) : Z * umem :=
  let c := cur st in
  put3 (from_kgid_munged (user_ns c) (gid c)) rgidp
       (from_kgid_munged (user_ns c) (egid c)) egidp
       (from_kgid_munged (user_ns c) (sgid c)) sgidp um.

End syscalls.

(** ** What the calls do to the ids *)

Definition uids (c : cred) : Z * Z * Z * Z := (uid c, euid c, suid c, fsuid c).
Definition gids (c : cred) : Z * Z * Z * Z := (gid c, egid c, sgid c, fsgid c).

(** The value a set*id argument leaves in a slot: [(uid_t)-1] keeps it. *)
Definition pick (arg k old : Z) : Z := if given arg then k else old.

(** The id set setreuid(2) documents for arguments that map to [kr] and [ke]. *)
Definition setre_ids (r e kr ke : Z) (ids : Z * Z * Z * Z) : Z * Z * Z * Z :=
  let '(u, eu, s, _) := ids in
  let e' := pick e ke eu in
  (pick r kr u, e', if given r || (given e && negb (ke =? u)) then e' else s, e').

(** The id set setresuid(2) documents. *)
Definition setres_ids (r e s kr ke ks : Z) (ids : Z * Z * Z * Z) : Z * Z * Z * Z :=
  let '(u, eu, su, _) := ids in (pick r kr u, pick e ke eu, pick s ks su, pick e ke eu).

Definition in_pool (k : Z) (ids : Z * Z * Z * Z) : Prop :=
  let '(u, e, s, _) := ids in k = u \/ k = e \/ k = s.

(** The state after a call that committed: nothing is left pending and the ids
    are the given ones, for the other class of ids the old ones. *)
Definition committed (us gs : Z * Z * Z * Z) (st st' : cred_state) : Prop :=
  pending st' = pending st /\ uids (cur st') = us /\ gids (cur st') = gs /\
  user_ns (cur st') = user_ns (cur st).

(** A refused call returns its error and the very state it started from. *)
Lemma abort_prepared r st : abort r (add_pending 1 st) = (r, st).
Proof. destruct st. unfold abort, add_pending. cbn. do 2 f_equal. lia. Qed.

#[export] Hint Rewrite abort_prepared : kern.

Lemma same_ids_uids a b : same_ids a b -> uids a = uids b /\ gids a = gids b /\ user_ns a = user_ns b.
Proof. unfold same_ids, uids, gids. intros. destruct_and!. repeat split; congruence. Qed.

Section effects.
Context {E : CredEnv}.
Implicit Types (st : cred_state) (new old : cred).

Lemma finish_setuid_cases new old how st :
  user_ns new = user_ns (cur st) ->
  let res := finish_setuid new old how (add_pending 1 st) in
  (exists r, r < 0 /\ res = (r, st)) \/
  (exists st', res = (0, st') /\ committed (uids new) (gids new) st st').
Proof.
  intros Hns. unfold finish_setuid. cbv zeta.
  pose proof (fix_setuid_ids new old how) as H1.
  destruct (security_task_fix_setuid new old how) as [r1 new1]. cbn [snd] in H1.
  case_if; [left; exists r1; rewrite abort_prepared; split; [lia|done]|].
  pose proof (set_cred_ucounts_ids new1) as H2.
  destruct (set_cred_ucounts new1) as [r2 new2]. cbn [snd] in H2.
  case_if; [left; exists r2; rewrite abort_prepared; split; [lia|done]|].
  right. apply same_ids_uids in H1 as (A1 & A2 & A3), H2 as (B1 & B2 & B3).
  eexists. split; [reflexivity|]. unfold committed. cbn [cur pending].
  repeat split; try congruence.
  unfold flag_nproc_exceeded. case_if; cbn; lia.
Qed.

Lemma finish_setgid_cases new old how st :
  user_ns new = user_ns (cur st) ->
  let res := let '(retval, new) := security_task_fix_setgid new old how in
             if retval <? 0 then abort retval (add_pending 1 st) else commit new (add_pending 1 st) in
  (exists r, r < 0 /\ res = (r, st)) \/
  (exists st', res = (0, st') /\ committed (uids new) (gids new) st st').
Proof.
  intros Hns. cbv zeta. pose proof (fix_setgid_ids new old how) as H1.
  destruct (security_task_fix_setgid new old how) as [r1 new1]. cbn [snd] in H1.
  case_if; [left; exists r1; rewrite abort_prepared; split; [lia|done]|].
  right. apply same_ids_uids in H1 as (A1 & A2 & A3).
  eexists. split; [reflexivity|]. unfold committed, add_pending. cbn.
  repeat split; try congruence. lia.
Qed.

(** The privilege test of the calling process. *)
Definition may_setuid (st : cred_state) : Prop :=
  ns_capable_setid (cur st) (user_ns (cur st)) CAP_SETUID = true.

(** Every set*id call either refuses with a negative error in the state it
    found, or answers 0 in a committed state. *)
Definition refused (res : Z * cred_state) (st : cred_state) : Prop := exists r, r < 0 /\ res = (r, st).
Definition accepted (res : Z * cred_state) (us gs : Z * Z * Z * Z) (st : cred_state) : Prop :=
  exists st', res = (0, st') /\ committed us gs st st'.

Lemma committed_refl st : committed (uids (cur st)) (gids (cur st)) st st.
Proof. by repeat split. Qed.

Lemma refused_by e st : 0 < e -> refused (- e, st) st.
Proof. exists (- e). split; [lia|done]. Qed.

Lemma set_user_cases new :
  set_user new = (- EAGAIN, new) \/ exists v, set_user new = (0, with_user v new).
Proof. unfold set_user. destruct (alloc_uid (uid new)); eauto. Qed.

End effects.

(** Case analysis along the branches of a set*id call: the tests in order, the
    allocation of the user structure and the common tail. *)
Ltac setid_norm :=
  cbn [uid gid suid sgid euid egid fsuid fsgid user user_ns with_uids with_gids with_user
       negb andb orb fst snd cur add_pending].

Ltac setid_refuse := left; rewrite ?abort_prepared; eexists; split; [|reflexivity]; (lia || done).

Ltac setid_accept := right; split; [eexists; split; [reflexivity|eassumption]|].

Ltac setid_finish :=
  match goal with
  | |- context [finish_setuid ?n ?o ?h (add_pending 1 ?st)] =>
      let Hf := fresh in
      pose proof (finish_setuid_cases n o h st eq_refl) as Hf; cbv zeta in Hf;
      destruct Hf as [(? & ? & ->)|(? & -> & ?)]; [setid_refuse|setid_accept]
  | |- context [security_task_fix_setgid ?n ?o ?h] =>
      let Hf := fresh in
      pose proof (finish_setgid_cases n o h _ eq_refl) as Hf; cbv zeta in Hf;
      destruct Hf as [(? & ? & ->)|(? & -> & ?)]; [setid_refuse|setid_accept]
  end.

Ltac setid_user :=
  repeat match goal with
  | |- context [if negb (?a =? ?b) then set_user ?n else _] =>
      destruct (Z.eqb_spec a b); cbn [negb]; [change (0 <? 0) with false; cbv iota|]
  | |- context [set_user ?n] =>
      destruct (set_user_cases n) as [->|[? ->]];
      [change (- EAGAIN <? 0) with true; cbv iota; setid_refuse
      |change (0 <? 0) with false; cbv iota]
  end.

(** The permission part: either the capability, or the tests passed. *)
Ltac setid_perms :=
  match goal with
  | |- true = true \/ _ => by left
  | |- false = true \/ _ => right; repeat split; intros; lia
  | |- ?c = true \/ _ => destruct c; [by left|right]; repeat split; intros; lia
  end.

Section effects.
Context {E : CredEnv}.
Implicit Types (st : cred_state) (new old : cred).

Lemma setreuid_effect r e st :
  let kr := make_kuid (user_ns (cur st)) r in
  let ke := make_kuid (user_ns (cur st)) e in
  refused (sys_setreuid r e st) st \/
  accepted (sys_setreuid r e st) (setre_ids r e kr ke (uids (cur st))) (gids (cur st)) st /\
  (may_setuid st \/
   (given r = true -> kr = uid (cur st) \/ kr = euid (cur st)) /\
   (given e = true -> in_pool ke (uids (cur st)))).
Proof.
  cbv zeta. unfold sys_setreuid, may_setuid, setre_ids, pick, in_pool, uids. cbv zeta.
  set (kr := make_kuid _ r). set (ke := make_kuid _ e).
  do 3 (case_if; [setid_refuse|]). setid_norm.
  case_if; [setid_refuse|]. case_if; [setid_refuse|].
  destruct (given r) eqn:Gr, (given e) eqn:Ge; setid_norm; setid_user; repeat case_if; setid_norm; setid_finish.
  all: setid_perms.
Qed.

Definition setres_allowed (r e s kr ke ks : Z) (ids : Z * Z * Z * Z) : Prop :=
  (given r = true -> in_pool kr ids) /\ (given e = true -> in_pool ke ids) /\
  (given s = true -> in_pool ks ids).

Lemma setresuid_effect r e s st :
  let kr := make_kuid (user_ns (cur st)) r in
  let ke := make_kuid (user_ns (cur st)) e in
  let ks := make_kuid (user_ns (cur st)) s in
  sys_setresuid r e s st = (0, st) /\
  (uid (cur st), euid (cur st), suid (cur st)) = (setres_ids r e s kr ke ks (uids (cur st))).1 \/
  refused (sys_setresuid r e s st) st \/
  accepted (sys_setresuid r e s st) (setres_ids r e s kr ke ks (uids (cur st))) (gids (cur st)) st /\
  (may_setuid st \/ setres_allowed r e s kr ke ks (uids (cur st))).
Proof.
  cbv zeta. unfold sys_setresuid, may_setuid, setres_ids, setres_allowed, pick, in_pool, uids. cbv zeta.
  set (kr := make_kuid _ r). set (ke := make_kuid _ e). set (ks := make_kuid _ s).
  do 3 (case_if; [right; setid_refuse|]).
  case_if; [left; split; [done|]; cbn [fst]; f_equal; [f_equal|]; case_if; lia|]. right.
  case_if; [setid_refuse|]. setid_norm.
  case_if; [setid_refuse|].
  destruct (given r) eqn:Gr, (given e) eqn:Ge, (given s) eqn:Gs;
    setid_norm; setid_user; setid_norm; setid_finish.
  all: setid_perms.
Qed.

Lemma setuid_effect u st :
  let k := make_kuid (user_ns (cur st)) u in
  refused (sys_setuid u st) st \/
  accepted (sys_setuid u st)
    (if ns_capable_setid (cur st) (user_ns (cur st)) CAP_SETUID
     then (k, k, k, k) else (uid (cur st), k, suid (cur st), k)) (gids (cur st)) st /\
  (may_setuid st \/ k = uid (cur st) \/ k = suid (cur st)).
Proof.
  cbv zeta. unfold sys_setuid, may_setuid, uids. cbv zeta.
  set (k := make_kuid _ u).
  do 2 (case_if; [setid_refuse|]). setid_norm.
  case_if; setid_user; setid_norm.
  3: case_if; setid_norm; [change (- EPERM <? 0) with true|change (0 <? 0) with false];
     cbv iota; [setid_refuse|].
  all: setid_finish; setid_perms.
Qed.

Lemma setfsuid_effect u st :
  let k := make_kuid (user_ns (cur st)) u in
  (sys_setfsuid u st).1 = from_kuid_munged (user_ns (cur st)) (fsuid (cur st)) /\
  ((sys_setfsuid u st).2 = st \/
   committed (uid (cur st), euid (cur st), suid (cur st), k) (gids (cur st)) st (sys_setfsuid u st).2 /\
   (may_setuid st \/ in_pool k (uids (cur st)))).
Proof.
  cbv zeta. unfold sys_setfsuid, may_setuid, uids, in_pool. cbv zeta.
  set (k := make_kuid _ u). setid_norm.
  do 3 (case_if; [try by split; [|left]|try by rewrite abort_prepared; split; [|left]]).
  case_if; [|by rewrite abort_prepared; split; [|left]].
  match goal with |- context [security_task_fix_setuid ?n ?o ?h] =>
    pose proof (fix_setuid_ids n o h) as Hs; destruct (security_task_fix_setuid n o h) as [r1 new1] end.
  case_if; [|by rewrite abort_prepared; split; [|left]].
  apply same_ids_uids in Hs as (A1 & A2 & A3). split; [done|right].
  split; [unfold committed; cbn; repeat split; try done; lia|].
  setid_perms.
Qed.

(** *** The same for the group ids *)

Definition may_setgid (st : cred_state) : Prop :=
  ns_capable_setid (cur st) (user_ns (cur st)) CAP_SETGID = true.

Lemma setregid_effect r e st :
  let kr := make_kgid (user_ns (cur st)) r in
  let ke := make_kgid (user_ns (cur st)) e in
  refused (sys_setregid r e st) st \/
  accepted (sys_setregid r e st) (uids (cur st)) (setre_ids r e kr ke (gids (cur st))) st /\
  (may_setgid st \/
   (given r = true -> kr = gid (cur st) \/ kr = egid (cur st)) /\
   (given e = true -> in_pool ke (gids (cur st)))).
Proof.
  cbv zeta. unfold sys_setregid, may_setgid, setre_ids, pick, in_pool, gids. cbv zeta.
  set (kr := make_kgid _ r). set (ke := make_kgid _ e).
  do 3 (case_if; [setid_refuse|]). setid_norm.
  destruct (given r) eqn:Gr, (given e) eqn:Ge; setid_norm.
  all: repeat (case_if; setid_norm; try setid_refuse).
  all: setid_finish; setid_perms.
Qed.

Lemma setgid_effect g st :
  let k := make_kgid (user_ns (cur st)) g in
  refused (sys_setgid g st) st \/
  accepted (sys_setgid g st) (uids (cur st))
    (if ns_capable_setid (cur st) (user_ns (cur st)) CAP_SETGID
     then (k, k, k, k) else (gid (cur st), k, sgid (cur st), k)) st /\
  (may_setgid st \/ k = gid (cur st) \/ k = sgid (cur st)).
Proof.
  cbv zeta. unfold sys_setgid, may_setgid, gids. cbv zeta.
  set (k := make_kgid _ g).
  do 2 (case_if; [setid_refuse|]). setid_norm.
  case_if; setid_norm; [|case_if; [|setid_refuse]].
  all: setid_finish; setid_perms.
Qed.

Lemma setresgid_effect r e s st :
  let kr := make_kgid (user_ns (cur st)) r in
  let ke := make_kgid (user_ns (cur st)) e in
  let ks := make_kgid (user_ns (cur st)) s in
  sys_setresgid r e s st = (0, st) /\
  (gid (cur st), egid (cur st), sgid (cur st)) = (setres_ids r e s kr ke ks (gids (cur st))).1 \/
  refused (sys_setresgid r e s st) st \/
  accepted (sys_setresgid r e s st) (uids (cur st)) (setres_ids r e s kr ke ks (gids (cur st))) st /\
  (may_setgid st \/ setres_allowed r e s kr ke ks (gids (cur st))).
Proof.
  cbv zeta. unfold sys_setresgid, may_setgid, setres_ids, setres_allowed, pick, in_pool, gids. cbv zeta.
  set (kr := make_kgid _ r). set (ke := make_kgid _ e). set (ks := make_kgid _ s).
  do 3 (case_if; [right; setid_refuse|]).
  case_if; [left; split; [done|]; cbn [fst]; f_equal; [f_equal|]; case_if; lia|]. right.
  case_if; [setid_refuse|]. setid_norm.
  case_if; [setid_refuse|].
  destruct (given r) eqn:Gr, (given e) eqn:Ge, (given s) eqn:Gs; setid_norm; setid_finish.
  all: setid_perms.
Qed.

Lemma setfsgid_effect g st :
  let k := make_kgid (user_ns (cur st)) g in
  (sys_setfsgid g st).1 = from_kgid_munged (user_ns (cur st)) (fsgid (cur st)) /\
  ((sys_setfsgid g st).2 = st \/
   committed (uids (cur st)) (gid (cur st), egid (cur st), sgid (cur st), k) st (sys_setfsgid g st).2 /\
   (may_setgid st \/ in_pool k (gids (cur st)))).
Proof.
  cbv zeta. unfold sys_setfsgid, may_setgid, gids, in_pool. cbv zeta.
  set (k := make_kgid _ g). setid_norm.
  do 3 (case_if; [try by split; [|left]|try by rewrite abort_prepared; split; [|left]]).
  case_if; [|by rewrite abort_prepared; split; [|left]].
  match goal with |- context [security_task_fix_setgid ?n ?o ?h] =>
    pose proof (fix_setgid_ids n o h) as Hs; destruct (security_task_fix_setgid n o h) as [r1 new1] end.
  case_if; [|by rewrite abort_prepared; split; [|left]].
  apply same_ids_uids in Hs as (A1 & A2 & A3). split; [done|right].
  split; [unfold committed; cbn; repeat split; try done; lia|].
  setid_perms.
Qed.

End effects.

(** ** Sequences of identity changes *)

Inductive setid_call :=
| Setreuid (r e : Z) | Setuid (u : Z) | Setresuid (r e s : Z) | Setfsuid (u : Z)
| Setregid (r e : Z) | Setgid (g : Z) | Setresgid (r e s : Z) | Setfsgid (g : Z).

Definition reports_error (c : setid_call) : bool :=
  match c with Setfsuid _ | Setfsgid _ => false | _ => true end.

Section sequences.
Context {E : CredEnv}.

Definition setid (c : setid_call) (st : cred_state) : Z * cred_state :=
  match c with
  | Setreuid r e => sys_setreuid r e st
  | Setuid u => sys_setuid u st
  | Setresuid r e s => sys_setresuid r e s st
  | Setfsuid u => sys_setfsuid u st
  | Setregid r e => sys_setregid r e st
  | Setgid g => sys_setgid g st
  | Setresgid r e s => sys_setresgid r e s st
  | Setfsgid g => sys_setfsgid g st
  end.

Fixpoint setid_run (cs : list setid_call) (st : cred_state) : cred_state :=
  match cs with
  | [] => st
  | c :: cs' => setid_run cs' (setid c st).2
  end.

(** How one call changes the ids, whatever it answers: the new real, effective
    and saved ids come from the old ones unless the caller has the capability. *)
Definition draws_from (new old : Z * Z * Z * Z) : Prop :=
  let '(u, e, s, f) := new in
  in_pool u old /\ in_pool e old /\ in_pool s old /\ (in_pool f old \/ f = old.2).

Lemma draws_from_refl ids : draws_from ids ids.
Proof. destruct ids as [[[u e] s] f]. unfold draws_from, in_pool. cbn. tauto. Qed.

Lemma in_pool_trans k u e s f ids :
  in_pool k (u, e, s, f) -> in_pool u ids -> in_pool e ids -> in_pool s ids -> in_pool k ids.
Proof. intros [->|[->| ->]]; auto. Qed.

Lemma draws_from_trans a b c : draws_from a b -> draws_from b c -> draws_from a c.
Proof.
  destruct a as [[[u1 e1] s1] f1], b as [[[u e] s] f]. unfold draws_from. cbn [snd].
  intros (A & B & C & D) (Hu & He & Hs & Hf).
  split; [|split; [|split]]; [eauto using in_pool_trans..|].
  destruct D as [D| ->]; [left; eauto using in_pool_trans|done].
Qed.

Lemma pick_pool a k old ids : in_pool old ids -> (given a = true -> in_pool k ids) -> in_pool (pick a k old) ids.
Proof. unfold pick. case_if; auto. Qed.

Lemma setre_draws r e kr ke ids :
  (given r = true -> kr = ids.1.1.1 \/ kr = ids.1.1.2) -> (given e = true -> in_pool ke ids) ->
  draws_from (setre_ids r e kr ke ids) ids.
Proof.
  destruct ids as [[[u eu] s] f]. cbn [fst snd]. intros Hr He. unfold draws_from, setre_ids.
  assert (in_pool (pick e ke eu) (u, eu, s, f)) by (apply pick_pool; unfold in_pool; tauto).
  repeat split; [|done| |by left].
  - apply pick_pool; unfold in_pool; tauto.
  - case_if; [done|unfold in_pool; tauto].
Qed.

Lemma setres_draws r e s kr ke ks ids :
  setres_allowed r e s kr ke ks ids -> draws_from (setres_ids r e s kr ke ks ids) ids.
Proof.
  destruct ids as [[[u eu] su] f]. intros (Hr & He & Hs). unfold draws_from, setres_ids.
  assert (in_pool (pick e ke eu) (u, eu, su, f)) by (apply pick_pool; unfold in_pool; tauto).
  repeat split; [|done| |by left]; apply pick_pool; unfold in_pool; tauto.
Qed.

Ltac by_effect H :=
  pose proof H as Heff; cbv zeta in Heff;
  destruct Heff as [(? & ? & ->)|[(st' & -> & Hp & Hu & Hg & Hn) Hperm]]; cbn [snd];
  [auto using draws_from_refl|rewrite ?Hu, ?Hg; auto using draws_from_refl].

Lemma setid_step_uids c st :
  ~ may_setuid st -> draws_from (uids (cur (setid c st).2)) (uids (cur st)).
Proof.
  intros Hno. destruct c; cbn [setid].
  - by_effect (setreuid_effect r e st). destruct Hperm as [|[]]; [done|by apply setre_draws].
  - by_effect (setuid_effect u st). destruct Hperm as [|Hk]; [done|].
    case_if; [done|]. unfold draws_from, in_pool, uids. cbn [snd]. tauto.
  - pose proof (setresuid_effect r e s st) as H. cbv zeta in H. destruct H as [[-> _]|H];
      [apply draws_from_refl|]. by_effect H. destruct Hperm; [done|by apply setres_draws].
  - pose proof (setfsuid_effect u st) as H. cbv zeta in H. destruct H as [_ [->|[(_ & -> & _) H]]];
      [apply draws_from_refl|]. destruct H; [done|]. unfold draws_from, in_pool, uids in *. tauto.
  - by_effect (setregid_effect r e st).
  - by_effect (setgid_effect g st).
  - pose proof (setresgid_effect r e s st) as H. cbv zeta in H. destruct H as [[-> _]|H];
      [apply draws_from_refl|]. by_effect H.
  - pose proof (setfsgid_effect g st) as H. cbv zeta in H. destruct H as [_ [->|[(_ & -> & _) H]]];
      apply draws_from_refl.
Qed.

(** Either the state is the one before the call, or something was committed, and
    then a call that reports errors answered 0. *)
Lemma setid_cases c st :
  ((setid c st).2 = st /\ (reports_error c = true -> (setid c st).1 <= 0)) \/
  ((exists us gs, committed us gs st (setid c st).2) /\
   (reports_error c = true -> (setid c st).1 = 0)).
Proof.
  destruct c; cbn [setid reports_error];
    match goal with
    | |- context [sys_setreuid ?r ?e ?s] => pose proof (setreuid_effect r e s) as H
    | |- context [sys_setuid ?r ?s] => pose proof (setuid_effect r s) as H
    | |- context [sys_setresuid ?r ?e ?u ?s] => pose proof (setresuid_effect r e u s) as H
    | |- context [sys_setfsuid ?r ?s] => pose proof (setfsuid_effect r s) as H
    | |- context [sys_setregid ?r ?e ?s] => pose proof (setregid_effect r e s) as H
    | |- context [sys_setgid ?r ?s] => pose proof (setgid_effect r s) as H
    | |- context [sys_setresgid ?r ?e ?u ?s] => pose proof (setresgid_effect r e u s) as H
    | |- context [sys_setfsgid ?r ?s] => pose proof (setfsgid_effect r s) as H
    end; cbv zeta in H; unfold refused, accepted in H.
  all: repeat match goal with
    | Hd : _ \/ _ |- _ => destruct Hd
    | Hd : _ /\ _ |- _ => destruct Hd
    | Hd : exists _, _ |- _ => destruct Hd
    | Hd : _ = (_, _) |- _ => rewrite Hd; clear Hd; cbn [fst snd]
    end.
  all: solve [left; split; [done|intros; lia || done] | right; split; [eauto|done]].
Qed.

Lemma committed_ns us gs st st' : committed us gs st st' -> user_ns (cur st') = user_ns (cur st).
Proof. by intros (_ & _ & _ & ?). Qed.

(** Every set*id call releases the credential set it prepared (committed or
    aborted, never leaked); setreuid, setuid, setresuid and their group versions
    answer 0, or a negative error in exactly the state they were called in (ids,
    capabilities and task flags); setfsuid and setfsgid always answer the previous
    id, whether they changed it or not. *)
Theorem setid_atomic c st :
  pending (setid c st).2 = pending st /\
  match c with
  | Setfsuid _ => (setid c st).1 = from_kuid_munged (user_ns (cur st)) (fsuid (cur st))
  | Setfsgid _ => (setid c st).1 = from_kgid_munged (user_ns (cur st)) (fsgid (cur st))
  | _ => (setid c st).1 = 0 \/ (setid c st).1 < 0 /\ (setid c st).2 = st
  end.
Proof.
  split.
  - destruct (setid_cases c st) as [[-> _]|[(us & gs & Hp & _) _]]; done.
  - pose proof (setid_cases c st) as H. destruct c; cbn [reports_error] in H.
    4: exact (proj1 (setfsuid_effect u st)).
    7: exact (proj1 (setfsgid_effect g st)).
    all: destruct H as [[Hst Hr]|[_ Hr]]; specialize (Hr eq_refl); [|by left].
    all: match goal with |- ?x = 0 \/ _ => destruct (Z.eq_dec x 0); [by left|right; split; [lia|done]] end.
Qed.

(** What a successful setreuid did: the real and effective uid are the
    requested ones (-1 keeps the old), the saved uid becomes the new effective uid
    exactly when the real uid was given or the effective uid was set to something
    other than the old real uid, the filesystem uid follows the effective one, the
    group ids are untouched, and without CAP_SETUID the real uid could only be set
    to the old real or effective uid and the effective one to an id of the pool. *)
Theorem setreuid_contract r e st st' :
  sys_setreuid r e st = (0, st') ->
  let kr := make_kuid (user_ns (cur st)) r in
  let ke := make_kuid (user_ns (cur st)) e in
  uids (cur st') = setre_ids r e kr ke (uids (cur st)) /\ gids (cur st') = gids (cur st) /\
  (may_setuid st \/
   (given r = true -> kr = uid (cur st) \/ kr = euid (cur st)) /\
   (given e = true -> in_pool ke (uids (cur st)))).
Proof.
  intros H. pose proof (setreuid_effect r e st) as Heff. cbv zeta in *. rewrite H in Heff.
  destruct Heff as [(q & ? & [= ? ?])|[(st2 & [= <-] & _ & -> & -> & _) Hp]]; [lia|done].
Qed.

(** No state of the run has the capability to change user ids. *)
Fixpoint unprivileged_run (cs : list setid_call) (st : cred_state) : Prop :=
  ~ may_setuid st /\
  match cs with
  | [] => True
  | c :: cs' => unprivileged_run cs' (setid c st).2
  end.

(** A process without CAP_SETUID never obtains a user id it did not start
    with: after any sequence of the eight identity calls, successful or not, its
    real, effective and saved uid are among the three it had at the beginning, and
    its filesystem uid is one of those or the one it had. *)
Theorem unprivileged_uids_confined cs st :
  unprivileged_run cs st -> draws_from (uids (cur (setid_run cs st))) (uids (cur st)).
Proof.
  revert st. induction cs as [|c cs IH]; intros st H; [apply draws_from_refl|].
  destruct H as [Hno Hrest]. cbn [setid_run].
  eapply draws_from_trans; [by apply IH|by apply setid_step_uids].
Qed.

Lemma draws_from_all new k : draws_from new (k, k, k, k) -> new = (k, k, k, k).
Proof.
  destruct new as [[[? ?] ?] ?]. unfold draws_from, in_pool. cbn [snd].
  intros (? & ? & ? & ?). intuition congruence.
Qed.

(** A run of calls either keeps the four user ids at [k] or has a first call that the
    process made with CAP_SETUID, the ids being [k] until then. *)
Lemma confined_or_capable cs k : forall st, uids (cur st) = (k, k, k, k) ->
  uids (cur (setid_run cs st)) = (k, k, k, k) \/
  exists cs1 c cs2, cs = cs1 ++ c :: cs2 /\ may_setuid (setid_run cs1 st) /\
    uids (cur (setid_run cs1 st)) = (k, k, k, k).
Proof.
  induction cs as [|c cs IH]; intros st Hst; [by left|]. cbn [setid_run].
  destruct (decide (ns_capable_setid (cur st) (user_ns (cur st)) CAP_SETUID = true)) as [Hc|Hc];
    [right; by exists [], c, cs|].
  assert (uids (cur (setid c st).2) = (k, k, k, k)) as H1
    by (apply draws_from_all; rewrite <- Hst; by apply setid_step_uids).
  destruct (IH _ H1) as [H|(cs1 & c' & cs2 & -> & H)]; [by left|].
  right. by exists (c :: cs1), c', cs2.
Qed.

(** C15: dropping the user ids is permanent without CAP_SETUID.  When a process that has
    CAP_SETUID calls setuid successfully, all four of its user ids (real, effective, saved
    and filesystem) become the requested one; and if after any later sequence of the eight
    identity calls, successful or not, the ids are anything else, then one of these calls
    was made while the process had CAP_SETUID, and the ids were unchanged until then.
    Whether a process still has the capability after setuid is the business of the
    security hooks (keep capabilities, securebits), of which nothing is assumed. *)
Theorem setuid_drop_is_permanent u st st1 cs :
  may_setuid st -> sys_setuid u st = (0, st1) ->
  let k := make_kuid (user_ns (cur st)) u in
  uids (cur st1) = (k, k, k, k) /\
  (uids (cur (setid_run cs st1)) <> (k, k, k, k) ->
   exists cs1 c cs2, cs = cs1 ++ c :: cs2 /\ may_setuid (setid_run cs1 st1) /\
     uids (cur (setid_run cs1 st1)) = (k, k, k, k)).
Proof.
  intros Hmay Hset. cbv zeta. set (k := make_kuid _ u) in *.
  assert (Hst1 : uids (cur st1) = (k, k, k, k)).
  { pose proof (setuid_effect u st) as H. cbv zeta in H. rewrite Hset in H.
    destruct H as [(r & ? & [= ? ?])|[(st' & [= <-] & _ & -> & _) _]]; [lia|].
    unfold may_setuid in Hmay. by rewrite Hmay. }
  split; [done|]. intros Hne. by destruct (confined_or_capable cs k st1 Hst1).
Qed.

Context {U : UserAccess}.

Lemma put3_uread a pa b pb c pc um um' :
  put3 a pa b pb c pc um = (0, um') ->
  pa + 4 <= pb \/ pb + 4 <= pa -> pa + 4 <= pc \/ pc + 4 <= pa -> pb + 4 <= pc \/ pc + 4 <= pb ->
  uread um' pa 4 = Some (le_bytes 4 a) /\ uread um' pb 4 = Some (le_bytes 4 b) /\
  uread um' pc 4 = Some (le_bytes 4 c).
Proof.
  unfold put3. intros H Hab Hac Hbc.
  destruct (put_user 4 a pa um) as [r1 um1] eqn:E1. case_if_in H; [|inv_pair; discriminate].
  destruct (put_user 4 b pb um1) as [r2 um2] eqn:E2. case_if_in H; [|inv_pair; discriminate].
  apply negb_true_iff, c_true_false in Hif as ->, Hif0 as ->.
  rewrite (put_user_other _ _ _ _ _ _ pa 4 H), (put_user_other _ _ _ _ _ _ pa 4 E2) by lia.
  rewrite (put_user_other _ _ _ _ _ _ pb 4 H) by lia.
  repeat split; eapply put_user_uread; eassumption.
Qed.

(** Setresuid and getresuid round trip: after setresuid(r, e, s) answers 0 the
    three words getresuid delivers are r, e and s, for arguments other than -1 that
    the id map of the namespace maps back to themselves, at disjoint user
    addresses. *)
Theorem setresuid_getresuid_roundtrip r e s st st' pr pe ps um um' :
  (forall x, x = r \/ x = e \/ x = s -> given x = true /\ is_u 32 x /\
     from_kuid_munged (user_ns (cur st)) (make_kuid (user_ns (cur st)) x) = x) ->
  pr + 4 <= pe -> pe + 4 <= ps ->
  sys_setresuid r e s st = (0, st') -> sys_getresuid pr pe ps st' um = (0, um') ->
  (le_val <$> uread um' pr 4) = Some r /\ (le_val <$> uread um' pe 4) = Some e /\
  (le_val <$> uread um' ps 4) = Some s.
Proof.
  intros Hids Hp1 Hp2 Hset Hget.
  destruct (Hids r) as (Gr & Ur & Mr); [tauto|]. destruct (Hids e) as (Ge & Ue & Me); [tauto|].
  destruct (Hids s) as (Gs & Us & Ms); [tauto|].
  assert (H3 : user_ns (cur st') = user_ns (cur st) /\
          (uid (cur st'), euid (cur st'), suid (cur st')) =
          (make_kuid (user_ns (cur st)) r, make_kuid (user_ns (cur st)) e,
           make_kuid (user_ns (cur st)) s)).
  { pose proof (setresuid_effect r e s st) as H. cbv zeta in H. rewrite Hset in H.
    unfold setres_ids, pick, uids in H. rewrite Gr, Ge, Gs in H. cbn [fst snd] in H.
    destruct H as [[[= ->] H]|[(q & ? & [= ? ?])|[(st2 & [= <-] & _ & H & _ & Hn) _]]]; [done|lia|].
    injection H as ? ? ? ?. split; congruence. }
  destruct H3 as [Hn [= H1 H2 H3]]. unfold sys_getresuid in Hget. cbv zeta in Hget.
  rewrite Hn, H1, H2, H3, Mr, Me, Ms in Hget.
  destruct (put3_uread _ _ _ _ _ _ _ _ Hget) as (-> & -> & ->); [lia..|].
  cbn [fmap option_fmap option_map]. rewrite !le_val_u32 by done. done.
Qed.

End sequences.

(** ** A concrete process *)

(** Ids map to themselves, the hooks allow everything and capabilities belong to
    effective uid 0. *)
#[local, refine] Instance demo_env : CredEnv := {
  make_kuid _ x := x; make_kgid _ x := x; from_kuid_munged _ x := x; from_kgid_munged _ x := x;
  prepare_ok := true;
  ns_capable_setid c _ _ := euid c =? 0;
  security_task_fix_setuid new _ _ := (0, new);
  security_task_fix_setgid new _ _ := (0, new);
  alloc_uid x := Some x;
  set_cred_ucounts new := (0, new);
  nproc_overlimit _ := false;
  INIT_USER := 0
}.
Proof. all: by repeat split. Defined.

Definition demo_cred (u e s : Z) : cred_state :=
  {| cur := {| uid := u; gid := 100; suid := s; sgid := 100; euid := e; egid := 100;
               fsuid := e; fsgid := 100; user := u; ucounts := 7; user_ns := 1;
               cap_effective := 0; cap_permitted := 0 |};
     task_flags := 0; pending := 0 |}.

Lemma setreuid_contract_witness :
  uids (cur (sys_setreuid (E := demo_env) 1001 1000 (demo_cred 1000 1001 0)).2) = (1001, 1000, 1000, 1000).
Proof.
  destruct (setreuid_contract (E := demo_env) 1001 1000 (demo_cred 1000 1001 0)
              (sys_setreuid (E := demo_env) 1001 1000 (demo_cred 1000 1001 0)).2) as [H _];
    [vm_compute; reflexivity|].
  rewrite H. vm_compute. reflexivity.
Defined.

Definition demo_calls : list setid_call :=
  [Setreuid 1001 1000; Setuid 0; Setresuid 1001 NOID NOID; Setfsuid 1001; Setgid 100].

Lemma unprivileged_uids_confined_witness :
  draws_from (uids (cur (setid_run (E := demo_env) demo_calls (demo_cred 1000 1001 1001))))
             (1000, 1001, 1001, 1001).
Proof.
  apply (unprivileged_uids_confined (E := demo_env) demo_calls (demo_cred 1000 1001 1001)).
  unfold may_setuid. vm_compute. repeat split; discriminate.
Defined.

(** Root becomes user 1000 and cannot go back. *)
Lemma setuid_drop_is_permanent_witness :
  uids (cur (sys_setuid (E := demo_env) 1000 (demo_cred 0 0 0)).2) = (1000, 1000, 1000, 1000) /\
  uids (cur (setid_run (E := demo_env) [Setuid 0; Setreuid 0 0; Setresuid NOID 0 NOID]
               (sys_setuid (E := demo_env) 1000 (demo_cred 0 0 0)).2)) = (1000, 1000, 1000, 1000).
Proof.
  destruct (setuid_drop_is_permanent (E := demo_env) 1000 (demo_cred 0 0 0)
    (sys_setuid (E := demo_env) 1000 (demo_cred 0 0 0)).2
    [Setuid 0; Setreuid 0 0; Setresuid NOID 0 NOID]) as [H1 H2];
    [reflexivity|vm_compute; reflexivity|].
  split; [exact H1|]. destruct (decide (uids (cur (setid_run (E := demo_env)
    [Setuid 0; Setreuid 0 0; Setresuid NOID 0 NOID]
    (sys_setuid (E := demo_env) 1000 (demo_cred 0 0 0)).2)) = (1000, 1000, 1000, 1000)))
    as [|Hne]; [done|].
  destruct (H2 Hne) as (cs1 & c & cs2 & _ & Hm & Hu). exfalso. unfold may_setuid in Hm.
  apply (f_equal (fun q => q.1.1.2)) in Hu. apply Z.eqb_eq in Hm.
  discriminate (eq_trans (eq_sym Hm) Hu).
Defined.

Lemma setresuid_getresuid_roundtrip_witness :
  let st' := (sys_setresuid (E := demo_env) 5 6 7 (demo_cred 0 0 0)).2 in
  let um' := (sys_getresuid (E := demo_env) (U := last_copy) 100 104 108 st' (fun _ => None)).2 in
  (le_val <$> uread (U := last_copy) um' 104 4) = Some 6.
Proof.
  cbv zeta.
  refine (proj1 (proj2 (setresuid_getresuid_roundtrip (E := demo_env) (U := last_copy) 5 6 7
            (demo_cred 0 0 0) _ 100 104 108 (fun _ => None) _ _ _ _ eq_refl eq_refl))).
  - intros x [->|[->| ->]]; (repeat split; try reflexivity; lia).
  - lia.
  - lia.
Defined.
