(* ===== verification/Rlimit.v ===== *)
(** * Resource limits (kernel/sys.c: do_prlimit and the rlimit syscalls)

    The state is the limit table of every thread group ([tsk->signal->rlim]), the
    requests made to the CPU-time timers and the count of task references taken and
    not yet dropped.  Process lookup, credentials of other tasks, capabilities and
    the security hooks are parameters (class [RlimEnv]). *)
From S2P Require Import Prelude UserMem Cred.

Record rlimit := { rlim_cur : Z; rlim_max : Z }.

Record rlim_state := {
  rlim : Z -> Z -> rlimit;           (** signal struct, resource *)
  cpu_updates : list (Z * Z);        (** calls of update_rlimit_cpu, newest first *)
  task_refs : Z
}.

Definition RLIM_NLIMITS := 16.
Definition RLIMIT_CPU := 0.
Definition RLIMIT_NOFILE := 7.
Definition RLIM_INFINITY := 18446744073709551615.
Definition RLIM64_INFINITY := 18446744073709551615.
Definition COMPAT_RLIM_INFINITY := 4294967295.
Definition CAP_SYS_RESOURCE := 24.
Definition LSM_PRLIMIT_READ := 1.
Definition LSM_PRLIMIT_WRITE := 2.

Class RlimEnv := {
  current : Z;
  find_task_by_vpid : Z -> option Z;
  signal_of : Z -> Z;
  group_leader : Z -> Z;
  task_cred : Z -> cred;
  rlim_capable : Z -> bool;
  rlim_ns_capable : Z -> Z -> bool;
  security_task_setrlimit : Z -> Z -> rlimit -> Z;
  security_task_prlimit : Z -> Z -> Z -> Z;
  sysctl_nr_open : Z
}.

Definition set_rlim (sig resource : Z) (v : rlimit) (st : rlim_state) : rlim_state :=
  {| rlim := fun s r => if (s =? sig) && (r =? resource) then v else rlim st s r;
     cpu_updates := cpu_updates st; task_refs := task_refs st |}.

Definition update_rlimit_cpu (leader v : Z) (st : rlim_state) : rlim_state :=
  {| rlim := rlim st; cpu_updates := (leader, v) :: cpu_updates st; task_refs := task_refs st |}.

Definition add_task_ref (d : Z) (st : rlim_state) : rlim_state :=
  {| rlim := rlim st; cpu_updates := cpu_updates st; task_refs := task_refs st + d |}.

Definition rlimit_bytes (r : rlimit) : list Z := le_bytes 8 (rlim_cur r) ++ le_bytes 8 (rlim_max r).
Definition rlimit_of_bytes (bs : list Z) : rlimit :=
  {| rlim_cur := le_val (take 8 bs); rlim_max := le_val (take 8 (drop 8 bs)) |}.
Definition compat_rlimit_bytes (r : rlimit) : list Z :=
  le_bytes 4 (rlim_cur r) ++ le_bytes 4 (rlim_max r).
Definition compat_rlimit_of_bytes (bs : list Z) : rlimit :=
  {| rlim_cur := le_val (take 4 bs); rlim_max := le_val (take 4 (drop 4 bs)) |}.

Section syscalls.
Context {E : RlimEnv}.

(** [do_prlimit(tsk, resource, new_rlim, old_rlim)]; the value stored through
    [old_rlim] is the second component (the code stores it only on success). *)
Definition do_prlimit (tsk resource : Z) (new_rlim : option rlimit) (st : rlim_state)
    : Z * option rlimit * rlim_state :=
  if RLIM_NLIMITS <=? resource then (- EINVAL, None, st)
  else
    match new_rlim with
    | Some new =>
        if rlim_max new <? rlim_cur new then (- EINVAL, None, st)
        else if (resource =? RLIMIT_NOFILE) && (sysctl_nr_open <? rlim_max new)
        then (- EPERM, None, st)
        else
          let old := rlim st (signal_of tsk) resource in
          let retval := if (rlim_max old <? rlim_max new) && negb (rlim_capable CAP_SYS_RESOURCE)
                        then - EPERM else 0 in
          let retval := if negb (c_true retval)
                        then security_task_setrlimit tsk resource new else retval in
          if c_true retval then (retval, None, st)
          else
            let st := set_rlim (signal_of tsk) resource new st in
            let st := if (resource =? RLIMIT_CPU) && negb (rlim_cur new =? RLIM_INFINITY)
                      then update_rlimit_cpu (group_leader tsk) (rlim_cur new) st else st in
            (retval, Some old, st)
    | None => (0, Some (rlim st (signal_of tsk) resource), st)
    end.

(** rlim64_is_infinity, rlim_to_rlim64, rlim64_to_rlim with BITS_PER_LONG = 64. *)
Definition rlim64_is_infinity (r : Z) : bool := r =? RLIM64_INFINITY.

Definition rlim_to_rlim64 (r : rlimit) : rlimit :=
  {| rlim_cur := if rlim_cur r =? RLIM_INFINITY then RLIM64_INFINITY else rlim_cur r;
     rlim_max := if rlim_max r =? RLIM_INFINITY then RLIM64_INFINITY else rlim_max r |}.

Definition rlim64_to_rlim (r : rlimit) : rlimit :=
  {| rlim_cur := if rlim64_is_infinity (rlim_cur r) then RLIM_INFINITY else u64 (rlim_cur r);
     rlim_max := if rlim64_is_infinity (rlim_max r) then RLIM_INFINITY else u64 (rlim_max r) |}.

Definition id_match (c t : cred) : bool :=
  (uid c =? euid t) && (uid c =? suid t) && (uid c =? uid t)
  && (gid c =? egid t) && (gid c =? sgid t) && (gid c =? gid t).

Definition check_prlimit_permission (task flags : Z) : Z :=
  if current =? task then 0
  else
    let tcred := task_cred task in
    if negb (id_match (task_cred current) tcred)
       && negb (rlim_ns_capable (user_ns tcred) CAP_SYS_RESOURCE)
    then - EPERM
    else security_task_prlimit current task flags.

Context {U : UserAccess}.

(** Syscalls take and return the kernel state and user memory. *)
Definition sys_ret : Type := Z * rlim_state * umem.

Definition copy_out (p : Z) (bs : list Z) (st : rlim_state) (um : umem) : sys_ret :=
  let '(left_, um) := copy_to_user p bs um in
  ((if c_true left_ then - EFAULT else 0), st, um).

Definition sys_getrlimit (resource p : Z) (st : rlim_state) (um : umem) : sys_ret :=
  let '(ret, value, st) := do_prlimit current resource None st in
  match value with
  | Some v => if negb (c_true ret) then copy_out p (rlimit_bytes v) st um else (ret, st, um)
  | None => (ret, st, um)
  end.

Definition sys_setrlimit (resource p : Z) (st : rlim_state) (um : umem) : sys_ret :=
  match copy_from_user p 16 um with
  | None => (- EFAULT, st, um)
  | Some bs =>
      let '(ret, _, st) := do_prlimit current resource (Some (rlimit_of_bytes bs)) st in
      (ret, st, um)
  end.

(** The 32-bit entry points. *)
Definition rlim_of_compat (r32 : Z) : Z := if r32 =? COMPAT_RLIM_INFINITY then RLIM_INFINITY else r32.
Definition compat_of_rlim (r : Z) : Z := if COMPAT_RLIM_INFINITY <? r then COMPAT_RLIM_INFINITY else r.

Definition compat_sys_setrlimit (resource p : Z) (st : rlim_state) (um : umem) : sys_ret :=
  match copy_from_user p 8 um with
  | None => (- EFAULT, st, um)
  | Some bs =>
      let r32 := compat_rlimit_of_bytes bs in
      let r := {| rlim_cur := rlim_of_compat (rlim_cur r32); rlim_max := rlim_of_compat (rlim_max r32) |} in
      let '(ret, _, st) := do_prlimit current resource (Some r) st in
      (ret, st, um)
  end.

Definition compat_sys_getrlimit (resource p : Z) (st : rlim_state) (um : umem) : sys_ret :=
  let '(ret, value, st) := do_prlimit current resource None st in
  match value with
  | Some r =>
      if negb (c_true ret) then
        let r32 := {| rlim_cur := compat_of_rlim (rlim_cur r); rlim_max := compat_of_rlim (rlim_max r) |} in
        copy_out p (compat_rlimit_bytes r32) st um
      else (ret, st, um)
  | None => (ret, st, um)
  end.

(** Old interface: values are clamped to 2^31 - 1. *)
Definition clamp31 (v : Z) : Z := if 2147483647 <? v then 2147483647 else v.

Definition sys_old_getrlimit (resource p : Z) (st : rlim_state) (um : umem) : sys_ret :=
  if RLIM_NLIMITS <=? resource then (- EINVAL, st, um)
  else
    let x := rlim st (signal_of current) resource in
    copy_out p (rlimit_bytes {| rlim_cur := clamp31 (rlim_cur x); rlim_max := clamp31 (rlim_max x) |}) st um.

Definition compat_sys_old_getrlimit (resource p : Z) (st : rlim_state) (um : umem) : sys_ret :=
  if RLIM_NLIMITS <=? resource then (- EINVAL, st, um)
  else
    let r := rlim st (signal_of current) resource in
    let '(e1, um) := put_user 4 (clamp31 (rlim_cur r)) p um in
    if c_true e1 then (- EFAULT, st, um)
    else
      let '(e2, um) := put_user 4 (clamp31 (rlim_max r)) (p + 4) um in
      if c_true e2 then (- EFAULT, st, um) else (0, st, um).

(** A null pointer is the address 0. *)
Definition sys_prlimit64 (pid resource new_p old_p : Z) (st : rlim_state) (um : umem) : sys_ret :=
  let checkflags := if c_true old_p then LSM_PRLIMIT_READ else 0 in
  match
    if c_true new_p then
      match copy_from_user new_p 16 um with
      | None => None
      | Some bs => Some (Some (rlim64_to_rlim (rlimit_of_bytes bs)), Z.lor checkflags LSM_PRLIMIT_WRITE)
      end
    else Some (None, checkflags)
  with
  | None => (- EFAULT, st, um)
  | Some (new, checkflags) =>
      match if c_true pid then find_task_by_vpid pid else Some current with
      | None => (- ESRCH, st, um)
      | Some tsk =>
          let ret := check_prlimit_permission tsk checkflags in
          if c_true ret then (ret, st, um)
          else
            let st := add_task_ref 1 st in
            let '(ret, old, st) := do_prlimit tsk resource new st in
            let '(ret, um) :=
              match old with
              | Some o =>
                  if negb (c_true ret) && c_true old_p then
                    let '(left_, um) := copy_to_user old_p (rlimit_bytes (rlim_to_rlim64 o)) um in
                    ((if c_true left_ then - EFAULT else ret), um)
                  else (ret, um)
              | None => (ret, um)
              end in
            (ret, add_task_ref (-1) st, um)
      end
  end.

End syscalls.

(** ** Lemmas on the primitives *)

Section lemmas.
Context {E : RlimEnv}.

Definition rlimit_ok (r : rlimit) : Prop := is_u 64 (rlim_cur r) /\ is_u 64 (rlim_max r).

(** What one request does to the table. *)
Inductive prlimit_outcome (tsk resource : Z) (st : rlim_state) :
    option rlimit -> Z * option rlimit * rlim_state -> Prop :=
| Refused new ret : ret <> 0 -> prlimit_outcome tsk resource st new (ret, None, st)
| Queried : resource < RLIM_NLIMITS ->
    prlimit_outcome tsk resource st None (0, Some (rlim st (signal_of tsk) resource), st)
| Changed new st' :
    resource < RLIM_NLIMITS -> rlim_cur new <= rlim_max new ->
    (resource = RLIMIT_NOFILE -> rlim_max new <= sysctl_nr_open) ->
    (rlim_max new <= rlim_max (rlim st (signal_of tsk) resource) \/
     rlim_capable CAP_SYS_RESOURCE = true) ->
    rlim st' = rlim (set_rlim (signal_of tsk) resource new st) ->
    task_refs st' = task_refs st ->
    prlimit_outcome tsk resource st (Some new)
      (0, Some (rlim st (signal_of tsk) resource), st').

Lemma do_prlimit_outcome tsk resource new st :
  prlimit_outcome tsk resource st new (do_prlimit tsk resource new st).
Proof.
  unfold do_prlimit. case_if; [by apply Refused|].
  destruct new as [new|]; [|apply Queried; lia].
  case_if; [by apply Refused|]. case_if; [by apply Refused|]. cbv zeta.
  case_if; [apply Refused; by apply c_true_true|]. apply c_true_false in Hif2.
  rewrite Hif2. destruct (_ && negb (rlim_capable _)) eqn:Hcap; [by vm_compute in Hif2|].
  apply Changed; try lia; [|case_if; done|case_if; done].
  destruct (rlim_capable CAP_SYS_RESOURCE); [by right|left]. lia.
Qed.

Lemma rlim64_to_rlim_id r : rlimit_ok r -> rlim64_to_rlim r = r.
Proof.
  destruct r as [c m]. intros [Hc Hm]. unfold rlim64_to_rlim, rlim64_is_infinity. cbn in *.
  rewrite !wrapU_id by done. f_equal; case_if; bool_hyps; done.
Qed.

Lemma rlim_to_rlim64_id r : rlim_to_rlim64 r = r.
Proof. destruct r. unfold rlim_to_rlim64. cbn. f_equal; case_if; bool_hyps; done. Qed.

Lemma rlimit_bytes_length r : length (rlimit_bytes r) = 16%nat.
Proof. unfold rlimit_bytes. by rewrite length_app, !le_bytes_length. Qed.

Lemma rlimit_of_bytes_bytes r : rlimit_ok r -> rlimit_of_bytes (rlimit_bytes r) = r.
Proof.
  destruct r as [c m]. intros [Hc Hm]. unfold rlimit_of_bytes, rlimit_bytes. cbn [rlim_cur rlim_max] in *.
  rewrite take_app_length', drop_app_length' by (by rewrite le_bytes_length).
  rewrite take_ge by (by rewrite le_bytes_length). by rewrite !le_val_u64.
Qed.

Lemma compat_bytes_length r : length (compat_rlimit_bytes r) = 8%nat.
Proof. unfold compat_rlimit_bytes. by rewrite length_app, !le_bytes_length. Qed.

Lemma compat_of_bytes_bytes r :
  is_u 32 (rlim_cur r) -> is_u 32 (rlim_max r) -> compat_rlimit_of_bytes (compat_rlimit_bytes r) = r.
Proof.
  destruct r as [c m]. unfold compat_rlimit_of_bytes, compat_rlimit_bytes. cbn [rlim_cur rlim_max].
  intros Hc Hm.
  rewrite take_app_length', drop_app_length' by (by rewrite le_bytes_length).
  rewrite take_ge by (by rewrite le_bytes_length). by rewrite !le_val_u32.
Qed.

Lemma compat_rlim_roundtrip r32 : is_u 32 r32 -> compat_of_rlim (rlim_of_compat r32) = r32.
Proof.
  unfold is_u, compat_of_rlim, rlim_of_compat, COMPAT_RLIM_INFINITY, RLIM_INFINITY. intros.
  destruct (Z.eqb_spec r32 4294967295) as [->|]; [done|]. case_if; lia.
Qed.

End lemmas.

(** ** Sequences of calls by any processes *)

Inductive rlim_call :=
| Getrlimit (resource p : Z) | Setrlimit (resource p : Z)
| CompatGetrlimit (resource p : Z) | CompatSetrlimit (resource p : Z)
| OldGetrlimit (resource p : Z) | CompatOldGetrlimit (resource p : Z)
| Prlimit64 (pid resource new_p old_p : Z).

Section sequences.
Context {U : UserAccess}.

(** A call made by the current process of [E], with user memory [um]. *)
Definition rlim_exec (E : RlimEnv) (c : rlim_call) (st : rlim_state) (um : umem) : sys_ret :=
  match c with
  | Getrlimit r p => sys_getrlimit r p st um
  | Setrlimit r p => sys_setrlimit r p st um
  | CompatGetrlimit r p => compat_sys_getrlimit r p st um
  | CompatSetrlimit r p => compat_sys_setrlimit r p st um
  | OldGetrlimit r p => sys_old_getrlimit r p st um
  | CompatOldGetrlimit r p => compat_sys_old_getrlimit r p st um
  | Prlimit64 pid r n o => sys_prlimit64 pid r n o st um
  end.

Fixpoint rlim_run (cs : list (RlimEnv * rlim_call * umem)) (st : rlim_state) : rlim_state :=
  match cs with
  | [] => st
  | (E, c, um) :: cs' => rlim_run cs' (rlim_exec E c st um).1.2
  end.

Definition rlim_wf (st : rlim_state) : Prop :=
  forall s r, rlim_cur (rlim st s r) <= rlim_max (rlim st s r).

(** What a call may do to the table: nothing, or one entry of a thread group,
    within the rules. *)
Definition rlim_step (E : RlimEnv) (st st' : rlim_state) : Prop :=
  task_refs st' = task_refs st /\
  (rlim st' = rlim st \/
   exists tsk resource new,
     (current = tsk \/ id_match (task_cred current) (task_cred tsk) = true \/
      rlim_ns_capable (user_ns (task_cred tsk)) CAP_SYS_RESOURCE = true) /\
     resource < RLIM_NLIMITS /\ rlim_cur new <= rlim_max new /\
     (rlim_max new <= rlim_max (rlim st (signal_of tsk) resource) \/
      rlim_capable CAP_SYS_RESOURCE = true) /\
     rlim st' = rlim (set_rlim (signal_of tsk) resource new st)).

Lemma do_prlimit_step (E : RlimEnv) tsk resource new st :
  (current = tsk \/ id_match (task_cred current) (task_cred tsk) = true \/
   rlim_ns_capable (user_ns (task_cred tsk)) CAP_SYS_RESOURCE = true) ->
  rlim_step E st (do_prlimit tsk resource new st).2.
Proof.
  intros Hauth.
  destruct (do_prlimit_outcome tsk resource new st); split; cbn [snd]; auto.
  right. exists tsk, resource, new. auto.
Qed.

Lemma permission_grants (E : RlimEnv) task flags :
  check_prlimit_permission task flags = 0 ->
  current = task \/ id_match (task_cred current) (task_cred task) = true \/
  rlim_ns_capable (user_ns (task_cred task)) CAP_SYS_RESOURCE = true.
Proof.
  unfold check_prlimit_permission. case_if; [intros; left; lia|]. case_if; [done|].
  apply andb_false_iff in Hif0. rewrite !negb_false_iff in Hif0. tauto.
Qed.

Lemma rlim_step_refl E st : rlim_step E st st.
Proof. split; auto. Qed.

Lemma copy_out_state p bs st um : (copy_out p bs st um).1.2 = st.
Proof. unfold copy_out. by destruct (copy_to_user _ _ _). Qed.

Lemma add_task_ref_step E st st' :
  rlim_step E (add_task_ref 1 st) st' -> rlim_step E st (add_task_ref (-1) st').
Proof.
  intros [Hr H]. split; [cbn in *; lia|]. cbn in *. destruct H as [H|H]; [by left|by right].
Qed.

Lemma prlimit64_step (E : RlimEnv) pid resource n o st um :
  rlim_step E st (sys_prlimit64 pid resource n o st um).1.2.
Proof.
  unfold sys_prlimit64. cbv zeta.
  destruct (if c_true n then _ else _) as [[new flags]|]; [|apply rlim_step_refl].
  destruct (if c_true pid then _ else _) as [tsk|]; [|apply rlim_step_refl].
  case_if; [apply rlim_step_refl|]. apply c_true_false, permission_grants in Hif.
  pose proof (do_prlimit_step E tsk resource new (add_task_ref 1 st) Hif) as Hs.
  destruct (do_prlimit tsk resource new (add_task_ref 1 st)) as [[ret old] st']. cbn [snd] in Hs.
  destruct (match old with Some _ => _ | None => _ end). by apply add_task_ref_step.
Qed.

Lemma rlim_exec_step (E : RlimEnv) c st um : rlim_step E st (rlim_exec E c st um).1.2.
Proof.
  destruct c; cbn [rlim_exec]; unfold sys_getrlimit, sys_setrlimit, compat_sys_getrlimit,
    compat_sys_setrlimit, sys_old_getrlimit, compat_sys_old_getrlimit; cbv zeta.
  7: apply prlimit64_step.
  2,4: destruct (copy_from_user _ _ _) as [bs|]; [|apply rlim_step_refl];
    match goal with |- context [do_prlimit ?t ?r ?n ?s] =>
      pose proof (do_prlimit_step E t r n s (or_introl eq_refl)) as Hs;
      destruct (do_prlimit t r n s) as [[ret old] st'] end; done.
  1,2: match goal with |- context [do_prlimit ?t ?r ?n ?s] =>
      pose proof (do_prlimit_step E t r n s (or_introl eq_refl)) as Hs;
      destruct (do_prlimit t r n s) as [[ret [old|]] st'] end; [|done];
    case_if; [by rewrite copy_out_state|done].
  all: case_if; [apply rlim_step_refl|].
  - rewrite copy_out_state. apply rlim_step_refl.
  - destruct (put_user _ _ _ um) as [e1 um1]. case_if; [apply rlim_step_refl|].
    destruct (put_user _ _ _ um1) as [e2 um2]. case_if; apply rlim_step_refl.
Qed.

Lemma rlim_step_wf E st st' : rlim_step E st st' -> rlim_wf st -> rlim_wf st'.
Proof.
  intros [_ [H|(t & res & new & _ & _ & Hle & _ & H)]] Hwf s r; rewrite H; [apply Hwf|].
  cbn. case_if; [done|apply Hwf].
Qed.

Definition unprivileged (E : RlimEnv) : Prop := rlim_capable CAP_SYS_RESOURCE = false.

Lemma rlim_step_max E st st' s r :
  rlim_step E st st' -> unprivileged E ->
  rlim_max (rlim st' s r) <= rlim_max (rlim st s r).
Proof.
  intros [_ [H|(t & res & new & _ & _ & _ & Hmax & H)]] Hno; rewrite H; [lia|].
  unfold unprivileged in Hno. cbn. case_if; [|lia]. bool_hyps. subst.
  destruct Hmax; [done|congruence].
Qed.

(** C17: whatever rlimit syscalls any processes make, on their own or on other
    processes' limits, in any order and with any user memory, the soft limit of
    every resource of every process stays at or below its hard limit, and no task
    reference is leaked. *)
Theorem rlimit_invariant cs st :
  rlim_wf st -> rlim_wf (rlim_run cs st) /\ task_refs (rlim_run cs st) = task_refs st.
Proof.
  revert st. induction cs as [|[[E c] um] cs IH]; intros st Hwf; [done|]. cbn [rlim_run].
  pose proof (rlim_exec_step E c st um) as Hs.
  destruct (IH _ (rlim_step_wf _ _ _ Hs Hwf)) as [Hw Hr]. split; [done|].
  rewrite Hr. by destruct Hs.
Qed.

(** Hard limits only go down without CAP_SYS_RESOURCE: after any sequence of
    calls by processes that lack it, every hard limit of the system is at most what
    it was. *)
Theorem rlimit_hard_limit_monotone cs st s r :
  Forall (fun x => unprivileged x.1.1) cs ->
  rlim_max (rlim (rlim_run cs st) s r) <= rlim_max (rlim st s r).
Proof.
  intros Hno. revert st. induction Hno as [|[[E c] um] cs Hx _ IH]; intros st; [cbn; lia|].
  cbn [rlim_run]. etransitivity; [apply IH|].
  exact (rlim_step_max E _ _ _ _ (rlim_exec_step E c st um) Hx).
Qed.

End sequences.

(** ** Reading back and exchanging limits *)

Section transfer.
Context {E : RlimEnv} {U : UserAccess}.

Lemma copy_out_delivers p bs st um st' um' :
  copy_out p bs st um = (0, st', um') -> st' = st /\ uread um' p (length bs) = Some bs.
Proof.
  unfold copy_out. destruct (copy_to_user p bs um) as [l um1] eqn:Ec. case_if; [done|].
  intros [= <- <-]. apply c_true_false in Hif as ->. split; [done|].
  exact (copy_to_user_uread _ _ _ _ Ec).
Qed.

Lemma set_rlim_get sig res v st : rlim (set_rlim sig res v st) sig res = v.
Proof. cbn. by rewrite !Z.eqb_refl. Qed.

Lemma do_prlimit_set tsk res v st old st' :
  do_prlimit tsk res (Some v) st = (0, old, st') ->
  res < RLIM_NLIMITS /\ old = Some (rlim st (signal_of tsk) res) /\
  rlim st' = rlim (set_rlim (signal_of tsk) res v st).
Proof. intros H. pose proof (do_prlimit_outcome tsk res (Some v) st) as Ho. rewrite H in Ho. by inversion Ho. Qed.

Lemma do_prlimit_get tsk res st :
  res < RLIM_NLIMITS -> do_prlimit tsk res None st = (0, Some (rlim st (signal_of tsk) res), st).
Proof. intros. unfold do_prlimit. case_if; [lia|done]. Qed.

(** Compat round trip: the limits a 32-bit process installs with setrlimit are
    the ones its getrlimit delivers, byte for byte, and in between the kernel holds
    them with the 32-bit infinity turned into the native one. *)
Theorem compat_rlimit_roundtrip res p q v st st1 st2 um um1 um2 :
  is_u 32 (rlim_cur v) -> is_u 32 (rlim_max v) ->
  copy_from_user p 8 um = Some (compat_rlimit_bytes v) ->
  compat_sys_setrlimit res p st um = (0, st1, um1) ->
  compat_sys_getrlimit res q st1 um1 = (0, st2, um2) ->
  uread um2 q 8 = Some (compat_rlimit_bytes v) /\ st2 = st1 /\
  rlim st1 (signal_of current) res =
    {| rlim_cur := rlim_of_compat (rlim_cur v); rlim_max := rlim_of_compat (rlim_max v) |}.
Proof.
  intros Hc Hm Hcopy Hset Hget. unfold compat_sys_setrlimit in Hset. rewrite Hcopy in Hset. cbv zeta in Hset.
  rewrite compat_of_bytes_bytes in Hset by done.
  match type of Hset with context [do_prlimit ?t ?r ?n ?s] =>
    destruct (do_prlimit t r n s) as [[ret old] st'] eqn:Ed end.
  injection Hset as -> -> ->. apply do_prlimit_set in Ed as (Hres & _ & Hrl).
  assert (Hv : rlim st1 (signal_of current) res =
    {| rlim_cur := rlim_of_compat (rlim_cur v); rlim_max := rlim_of_compat (rlim_max v) |})
    by (rewrite Hrl; apply set_rlim_get).
  unfold compat_sys_getrlimit in Hget. rewrite do_prlimit_get, Hv in Hget by done.
  change (c_true 0) with false in Hget. cbn [negb rlim_cur rlim_max] in Hget. cbv zeta in Hget.
  rewrite !compat_rlim_roundtrip in Hget by done.
  apply copy_out_delivers in Hget as [-> Hr]. rewrite compat_bytes_length in Hr.
  destruct v. auto.
Qed.

(** Prlimit64 with both pointers exchanges limits: once the caller may access the
    target and the new pair passes the checks, exactly the requested entry of the
    target changes, the pair it had is what is copied to the user, and a fault of
    that last copy makes the call answer EFAULT with the new limits left in force. *)
Theorem prlimit64_exchange pid tsk res n o v st um :
  n <> 0 -> o <> 0 -> rlimit_ok v -> copy_from_user n 16 um = Some (rlimit_bytes v) ->
  (if c_true pid then find_task_by_vpid pid else Some current) = Some tsk ->
  check_prlimit_permission tsk (Z.lor LSM_PRLIMIT_READ LSM_PRLIMIT_WRITE) = 0 ->
  (do_prlimit tsk res (Some v) (add_task_ref 1 st)).1.1 = 0 ->
  let '(ret, st', um') := sys_prlimit64 pid res n o st um in
  let '(left_, um1) := copy_to_user o (rlimit_bytes (rlim st (signal_of tsk) res)) um in
  rlim st' = rlim (set_rlim (signal_of tsk) res v st) /\ um' = um1 /\
  ret = (if c_true left_ then - EFAULT else 0).
Proof.
  intros Hn Ho Hv Hcopy Htsk Hperm Hdo. apply c_true_true in Hn, Ho.
  unfold sys_prlimit64. rewrite Hn, Ho, Hcopy, Htsk. cbv zeta.
  rewrite rlimit_of_bytes_bytes, rlim64_to_rlim_id, Hperm by done.
  change (c_true 0) with false. cbv iota.
  destruct (do_prlimit tsk res (Some v) (add_task_ref 1 st)) as [[ret old] st'] eqn:Ed.
  cbn [fst] in Hdo. subst ret. apply do_prlimit_set in Ed as (_ & -> & Hrl).
  change (c_true 0) with false. cbn [negb andb]. rewrite rlim_to_rlim64_id.
  cbn [rlim add_task_ref] in *.
  destruct (copy_to_user o (rlimit_bytes (rlim st (signal_of tsk) res)) um) as [l um1].
  split; [exact Hrl|]. split; [done|]. by destruct (c_true l).
Qed.

End transfer.

(** ** Concrete runs *)

(** Process 10 calls; 20 is another process of the same user. *)
Definition demo_rlim_env (priv : bool) : RlimEnv := {|
  current := 10; find_task_by_vpid := fun p => if (p =? 10) || (p =? 20) then Some p else None;
  signal_of := fun t => t; group_leader := fun t => t;
  task_cred := fun _ => cur (demo_cred 1000 1000 1000);
  rlim_capable := fun _ => priv; rlim_ns_capable := fun _ _ => priv;
  security_task_setrlimit := fun _ _ _ => 0; security_task_prlimit := fun _ _ _ => 0;
  sysctl_nr_open := 1048576
|}.

Definition demo_rlim : rlim_state :=
  {| rlim := fun _ _ => {| rlim_cur := 1024; rlim_max := 4096 |}; cpu_updates := []; task_refs := 0 |}.

(** The pair (512, 2048) at address 64, native and 32-bit layout at 96. *)
Definition demo_um : Z -> option Z := fun a =>
  Some (if a =? 65 then 2 else if a =? 73 then 8 else if (96 <=? a) && (a <? 104) then 255 else 0).

Definition demo_rlim_calls : list (RlimEnv * rlim_call * (Z -> option Z)) :=
  [(demo_rlim_env false, Setrlimit 5 64, demo_um);
   (demo_rlim_env false, Prlimit64 20 RLIMIT_CPU 64 200, demo_um);
   (demo_rlim_env false, CompatSetrlimit 5 96, demo_um)].

Lemma rlimit_invariant_witness : rlim_wf (rlim_run (U := last_copy) demo_rlim_calls demo_rlim).
Proof. apply (rlimit_invariant (U := last_copy) demo_rlim_calls demo_rlim). intros s r. cbn. lia. Defined.

Lemma rlimit_hard_limit_monotone_witness :
  rlim_max (rlim (rlim_run (U := last_copy) demo_rlim_calls demo_rlim) 10 5) <= 4096.
Proof.
  apply (rlimit_hard_limit_monotone (U := last_copy) demo_rlim_calls demo_rlim 10 5).
  repeat constructor.
Defined.

Lemma compat_rlimit_roundtrip_witness :
  let E := demo_rlim_env true in
  let r1 := compat_sys_setrlimit (E := E) (U := last_copy) 5 96 demo_rlim demo_um in
  let r2 := compat_sys_getrlimit (E := E) (U := last_copy) 5 200 r1.1.2 r1.2 in
  uread (U := last_copy) r2.2 200 8 = Some [255; 255; 255; 255; 255; 255; 255; 255].
Proof.
  cbv zeta.
  refine (proj1 (compat_rlimit_roundtrip (E := demo_rlim_env true) (U := last_copy) 5 96 200
            {| rlim_cur := 4294967295; rlim_max := 4294967295 |} demo_rlim _ _ demo_um _ _
            _ _ _ eq_refl eq_refl)); [split; cbn; lia..|vm_compute; reflexivity].
Defined.

Lemma prlimit64_exchange_witness :
  let '(ret, st', um') :=
    sys_prlimit64 (E := demo_rlim_env false) (U := last_copy) 20 5 64 200 demo_rlim demo_um in
  rlim st' 20 5 = {| rlim_cur := 512; rlim_max := 2048 |} /\ ret = 0.
Proof.
  pose proof (prlimit64_exchange (E := demo_rlim_env false) (U := last_copy) 20 20 5 64 200
                {| rlim_cur := 512; rlim_max := 2048 |} demo_rlim demo_um) as H.
  assert (H1 : 64 <> 0) by lia. assert (H2 : 200 <> 0) by lia.
  assert (H3 : rlimit_ok {| rlim_cur := 512; rlim_max := 2048 |}) by (split; split; cbn; lia).
  specialize (H H1 H2 H3 eq_refl eq_refl eq_refl eq_refl).
  destruct (sys_prlimit64 _ _ _ _ _ _) as [[ret st'] um'].
  destruct (copy_to_user _ _ _) as [l um1] eqn:Ec. injection Ec as <- _.
  destruct H as (-> & _ & ->). split; reflexivity.
Defined.
