(* ===== verification/CString.v ===== *)
(** * C strings and byte buffers

    What the boot code uses of the string functions: a string is the bytes from a
    pointer on, up to the first NUL; a store that would leave its buffer has no
    result.  Literals are written as strings and turned into bytes. *)
From Stdlib Require Import String Ascii.
From S2P Require Import Prelude.

Fixpoint strlen (s : list Z) : nat :=
  match s with
  | [] => 0
  | c :: s' => if c =? 0 then 0 else S (strlen s')
  end.

(** The string that starts at the head of [s], without its terminator. *)
Definition cstr (s : list Z) : list Z := take (strlen s) s.

(** A string value: no NUL inside. *)
Definition is_str (s : list Z) : Prop := Forall (fun c => c <> 0) s.

(** The string ends inside the buffer. *)
Definition terminated (s : list Z) : Prop := (strlen s < length s)%nat.

Fixpoint lit (s : string) : list Z :=
  match s with
  | EmptyString => []
  | String a s' => Z.of_nat (nat_of_ascii a) :: lit s'
  end.

Arguments lit s%_string.

(** Comparison of string values. *)
Definition str_eq (a b : list Z) : bool := bool_decide (a = b).

(** [!strncmp(a, b, n)]. *)
Fixpoint strn_eq (a b : list Z) (n : nat) {struct n} : bool :=
  match n with
  | O => true
  | S n' =>
      match a, b with
      | [], [] => true
      | x :: a', y :: b' => (x =? y) && strn_eq a' b' n'
      | _, _ => false
      end
  end.

(** [strnchr(s, n, c)] finds something. *)
Definition strnchr (s : list Z) (n : nat) (c : Z) : bool := existsb (Z.eqb c) (take n s).

(** Store [bs] at offset [off] of a buffer. *)
Definition write_at (buf : list Z) (off : nat) (bs : list Z) : option (list Z) :=
  if (off + length bs <=? length buf)%nat
  then Some (take off buf ++ bs ++ drop (off + length bs) buf)
  else None.

(** [strcpy(buf + off, s)]. *)
Definition strcpy_at (buf : list Z) (off : nat) (s : list Z) : option (list Z) := write_at buf off (cstr s ++ [0]).

(** ** Facts *)

Lemma strlen_le s : (strlen s <= length s)%nat.
Proof. induction s as [|c s IH]; cbn; [lia|]. case_if; lia. Qed.

Lemma length_cstr s : length (cstr s) = strlen s.
Proof. unfold cstr. rewrite length_take. pose proof (strlen_le s). lia. Qed.

Lemma strlen_app s r : is_str s -> strlen (s ++ r) = (length s + strlen r)%nat.
Proof.
  induction 1 as [|c s Hc _ IH]; cbn; [done|]. rewrite IH. by apply Z.eqb_neq in Hc as ->.
Qed.

Lemma strlen_str s : is_str s -> strlen s = length s.
Proof. intros H. rewrite <- (app_nil_r s) at 1. rewrite strlen_app by done. cbn. lia. Qed.

Lemma strlen_end s r : is_str s -> strlen (s ++ 0 :: r) = length s.
Proof. intros H. rewrite strlen_app by done. cbn. lia. Qed.

Lemma cstr_end s r : is_str s -> cstr (s ++ 0 :: r) = s.
Proof. intros H. unfold cstr. rewrite strlen_end by done. by rewrite take_app_length. Qed.

Lemma cstr_str s : is_str s -> cstr s = s.
Proof. intros H. unfold cstr. rewrite strlen_str by done. by apply take_ge. Qed.

Lemma cstr_is_str s : is_str (cstr s).
Proof.
  unfold cstr. induction s as [|c s IH]; cbn; [constructor|].
  destruct (c =? 0) eqn:E; cbn; [constructor|]. constructor; [lia|done].
Qed.

(** A terminated buffer is its string, the NUL, and the rest. *)
Lemma terminated_split s : terminated s -> s = cstr s ++ 0 :: drop (S (strlen s)) s.
Proof.
  unfold terminated, cstr. induction s as [|c s IH]; cbn [strlen length]; [lia|].
  destruct (c =? 0) eqn:E; intros H; cbn.
  - by apply Z.eqb_eq in E as ->.
  - f_equal. apply IH. lia.
Qed.

Lemma terminated_form s : terminated s -> exists k r, s = k ++ 0 :: r /\ is_str k.
Proof. intros H. exists (cstr s), (drop (S (strlen s)) s). split; [by apply terminated_split|apply cstr_is_str]. Qed.

Lemma terminated_end s r : is_str s -> terminated (s ++ 0 :: r).
Proof. intros H. unfold terminated. rewrite strlen_end, length_app by done. cbn. lia. Qed.

Lemma str_eq_spec a b : reflect (a = b) (str_eq a b).
Proof. apply bool_decide_reflect. Qed.

Lemma write_at_some buf off bs : (off + length bs <= length buf)%nat ->
  write_at buf off bs = Some (take off buf ++ bs ++ drop (off + length bs) buf).
Proof. intros H. unfold write_at. by destruct (Nat.leb_spec (off + length bs) (length buf)); [|lia]. Qed.

Lemma write_at_length buf off bs buf' : write_at buf off bs = Some buf' -> length buf' = length buf.
Proof.
  unfold write_at. destruct (Nat.leb_spec (off + length bs) (length buf)); [|done]. intros [= <-]. rewrite !length_app, length_take, length_drop. lia.
Qed.

(** Writing after a known prefix replaces what follows it. *)
Lemma write_at_app p q bs : (length bs <= length q)%nat ->
  write_at (p ++ q) (length p) bs = Some (p ++ bs ++ drop (length bs) q).
Proof.
  intros H. rewrite write_at_some by (rewrite length_app; lia). rewrite take_app_length.
  do 3 f_equal. rewrite drop_app_ge by lia. f_equal. lia.
Qed.

Lemma drop_past {A} (k : list A) (n : nat) (r : list A) : drop (length k + n) (k ++ r) = drop n r.
Proof. rewrite drop_app_ge by lia. f_equal. lia. Qed.

Lemma strn_eq_prefix a b k r : a = k ++ r -> is_str k -> strn_eq a b (length k) = true <-> k `prefix_of` b.
Proof.
  intros -> _. revert b. induction k as [|c k IH]; intros b; cbn.
  - split; intros _; [apply prefix_nil|reflexivity].
  - destruct b as [|d b].
    + split; [discriminate|]. intros [z Hz]. discriminate Hz.
    + rewrite andb_true_iff, IH, Z.eqb_eq. split.
      * intros [-> H]. by apply prefix_cons.
      * intros H. split; [by apply prefix_cons_inv_1 in H|by apply prefix_cons_inv_2 in H].
Qed.

#[export] Hint Resolve cstr_is_str : core.
