(* ===== verification/Uts.v ===== *)
(** * System identification (kernel/sys.c: uname, sethostname and friends)

    The state is the [struct new_utsname] of the caller's UTS namespace, six
    character arrays of 65 bytes.  The release string and patch level the build
    generates, the caller's personality and the capability check are parameters
    (class [UtsEnv]). *)
From S2P Require Import Prelude UserMem CString Task.

Record new_utsname := {
  sysname : list Z; nodename : list Z; release : list Z;
  version : list Z; machine : list Z; domainname : list Z
}.

Definition NEW_UTS_LEN := 64.
Definition OLD_UTS_LEN := 8.
Definition UNAME26 := 131072.
Definition PER_MASK := 255.
Definition PER_LINUX32 := 8.

Class UtsEnv := {
  uts_ns_capable : Z -> bool;
  personality : Z;
  UTS_RELEASE : list Z;
  LINUX_VERSION_PATCHLEVEL : Z;
  COMPAT_UTS_MACHINE : list Z     (** without the terminator *)
}.

(** ** The C string functions used here *)

Definition isdigit (c : Z) : bool := (48 <=? c) && (c <=? 57).

(** [%u]: decimal digits, most significant first ([fuel] digits at most). *)
Fixpoint utoa (fuel : nat) (v : Z) (acc : list Z) : list Z :=
  match fuel with
  | O => acc
  | S fuel' =>
      let acc := (48 + v mod 10) :: acc in
      if v / 10 =? 0 then acc else utoa fuel' (v / 10) acc
  end.

(** [scnprintf(buf, size, ...)] of the formatted text [s]: what lands in [buf]
    before the terminator, for [size >= 1]. *)
Definition scnprintf (size : nat) (s : list Z) : list Z := take (size - 1) s.

(** [memset(field + len, 0, sizeof(field) - len)] after [memcpy(field, tmp, len)]. *)
Definition pad (n : nat) (s : list Z) : list Z := s ++ replicate (n - length s) 0.

(** The loop of override_release: skip up to three dotted numbers. *)
Fixpoint skip_version (rest : list Z) (ndots : Z) : list Z :=
  match rest with
  | [] => []
  | c :: rest' =>
      let ndots' := if c =? 46 then ndots + 1 else ndots in
      if (c =? 46) && (3 <=? ndots') then rest
      else if negb (isdigit c) && negb (c =? 46) then rest
      else skip_version rest' ndots'
  end.

Section syscalls.
Context {E : UtsEnv} {U : UserAccess}.

(** The release string shown under UNAME26. *)
Definition uname26_release : list Z :=
  [50; 46; 54; 46] ++ utoa 10 (u32 (LINUX_VERSION_PATCHLEVEL + 60)) [] ++ skip_version UTS_RELEASE 0.

Definition override_release (p : Z) (len : Z) (um : umem) : Z * umem :=
  if has personality UNAME26 then
    let copy := Z.to_nat (Z.min (Z.max len 1) 65) in
    let buf := scnprintf copy uname26_release in
    copy_to_user p (buf ++ [0]) um
  else (0, um).

Definition override_architecture (p : Z) (um : umem) : Z * umem :=
  if Z.land personality PER_MASK =? PER_LINUX32
  then copy_to_user p (COMPAT_UTS_MACHINE ++ [0]) um else (0, um).

(** The object representations of struct new_utsname, old_utsname, oldold_utsname. *)
Definition utsname_bytes (u : new_utsname) : list Z :=
  sysname u ++ nodename u ++ release u ++ version u ++ machine u ++ domainname u.

Definition old_utsname_bytes (u : new_utsname) : list Z := take 325 (utsname_bytes u).

Definition old8 (field : list Z) : list Z := pad 9 (take (Z.to_nat OLD_UTS_LEN) field).

Definition oldold_utsname_bytes (u : new_utsname) : list Z :=
  old8 (sysname u) ++ old8 (nodename u) ++ old8 (release u) ++ old8 (version u) ++ old8 (machine u).

Definition sys_newuname (name : Z) (u : new_utsname) (um : umem) : Z * umem :=
  let '(l, um) := copy_to_user name (utsname_bytes u) um in
  if c_true l then (- EFAULT, um)
  else
    let '(l, um) := override_release (name + 130) 65 um in
    if c_true l then (- EFAULT, um)
    else
      let '(l, um) := override_architecture (name + 260) um in
      if c_true l then (- EFAULT, um) else (0, um).

Definition sys_uname (name : Z) (u : new_utsname) (um : umem) : Z * umem :=
  if negb (c_true name) then (- EFAULT, um)
  else
    let '(l, um) := copy_to_user name (old_utsname_bytes u) um in
    if c_true l then (- EFAULT, um)
    else
      let '(l, um) := override_release (name + 130) 65 um in
      if c_true l then (- EFAULT, um)
      else
        let '(l, um) := override_architecture (name + 260) um in
        if c_true l then (- EFAULT, um) else (0, um).

Definition sys_olduname (name : Z) (u : new_utsname) (um : umem) : Z * umem :=
  if negb (c_true name) then (- EFAULT, um)
  else
    let '(l, um) := copy_to_user name (oldold_utsname_bytes u) um in
    if c_true l then (- EFAULT, um)
    else
      let '(l, um) := override_architecture (name + 36) um in
      if c_true l then (- EFAULT, um)
      else
        let '(l, um) := override_release (name + 18) 9 um in
        if c_true l then (- EFAULT, um) else (0, um).

Definition sys_sethostname (name len : Z) (u : new_utsname) (um : umem) : Z * new_utsname :=
  if negb (uts_ns_capable CAP_SYS_ADMIN) then (- EPERM, u)
  else if (len <? 0) || (NEW_UTS_LEN <? len) then (- EINVAL, u)
  else
    match copy_from_user name (Z.to_nat len) um with
    | None => (- EFAULT, u)
    | Some tmp =>
        (0, {| sysname := sysname u; nodename := pad 65 tmp; release := release u;
               version := version u; machine := machine u; domainname := domainname u |})
    end.

Definition sys_gethostname (name len : Z) (u : new_utsname) (um : umem) : Z * umem :=
  if len <? 0 then (- EINVAL, um)
  else
    let i := (1 + strlen (nodename u))%nat in
    let i := if len <? Z.of_nat i then Z.to_nat len else i in
    let '(l, um) := copy_to_user name (take i (nodename u)) um in
    if c_true l then (- EFAULT, um) else (0, um).

Definition sys_setdomainname (name len : Z) (u : new_utsname) (um : umem) : Z * new_utsname :=
  if negb (uts_ns_capable CAP_SYS_ADMIN) then (- EPERM, u)
  else if (len <? 0) || (NEW_UTS_LEN <? len) then (- EINVAL, u)
  else
    match copy_from_user name (Z.to_nat len) um with
    | None => (- EFAULT, u)
    | Some tmp =>
        (0, {| sysname := sysname u; nodename := nodename u; release := release u;
               version := version u; machine := machine u; domainname := pad 65 tmp |})
    end.

End syscalls.

(** linux/uts.h: the name this kernel reports. *)
Definition UTS_SYSNAME : list Z := [76; 105; 110; 117; 120; 32; 115; 111; 112; 101; 115; 79; 83].

(** ** Lemmas *)

Lemma pad_length n s : (length s <= n)%nat -> length (pad n s) = n.
Proof. intros. unfold pad. rewrite length_app, length_replicate. lia. Qed.

Lemma strlen_nul s i : s !! i = Some 0 -> (strlen s <= i)%nat.
Proof.
  revert i. induction s as [|c s IH]; intros i H; [cbn; lia|]. cbn [strlen]. case_if; [lia|].
  destruct i as [|i]; [injection H as ->; lia|]. apply IH in H. lia.
Qed.

Lemma pad_cons_nul n s : (length s < n)%nat -> pad n s = s ++ 0 :: replicate (n - length s - 1) 0.
Proof.
  intros. unfold pad. f_equal. destruct (n - length s)%nat as [|k] eqn:Ek; [lia|].
  cbn [replicate]. do 2 f_equal. lia.
Qed.

Lemma pad_last s : (length s <= 64)%nat -> pad 65 s !! 64%nat = Some 0.
Proof.
  intros. unfold pad. rewrite lookup_app_r by lia. apply lookup_replicate_2. lia.
Qed.

(** Every member has its declared size, and the two that can be set end in NUL. *)
Definition uts_wf (u : new_utsname) : Prop :=
  (length (sysname u) = 65%nat /\ length (nodename u) = 65%nat /\ length (release u) = 65%nat /\
   length (version u) = 65%nat /\ length (machine u) = 65%nat /\ length (domainname u) = 65%nat) /\
  nodename u !! 64%nat = Some 0 /\ domainname u !! 64%nat = Some 0.

Lemma utsname_bytes_length u : uts_wf u -> length (utsname_bytes u) = 390%nat.
Proof. intros [H _]. unfold utsname_bytes. rewrite !length_app. lia. Qed.

Lemma old8_length f : length (old8 f) = 9%nat.
Proof. apply pad_length. rewrite length_take. change (Z.to_nat OLD_UTS_LEN) with 8%nat. lia. Qed.

Lemma oldold_length u : length (oldold_utsname_bytes u) = 45%nat.
Proof. unfold oldold_utsname_bytes. by rewrite !length_app, !old8_length. Qed.

Section theorems.
Context {E : UtsEnv} {U : UserAccess}.

(** The operations that change the namespace, as one step. *)
Inductive uts_set := SetHost (p len : Z) (um : umem) | SetDomain (p len : Z) (um : umem).

Definition uts_step (c : uts_set) (u : new_utsname) : Z * new_utsname :=
  match c with
  | SetHost p len um => sys_sethostname p len u um
  | SetDomain p len um => sys_setdomainname p len u um
  end.

Lemma uts_step_wf c u :
  uts_wf u -> uts_wf (uts_step c u).2 /\ ((uts_step c u).1 <> 0 -> (uts_step c u).2 = u).
Proof.
  intros Hwf. destruct c as [p len um|p len um]; cbn [uts_step];
    unfold sys_sethostname, sys_setdomainname, NEW_UTS_LEN;
    (case_if; [done|]); (case_if; [done|]); bool_hyps;
    (destruct (copy_from_user _ _ _) as [tmp|] eqn:Ec; [|done]);
    apply copy_from_user_done in Ec as [Hl _]; (split; [|done]);
    destruct Hwf as [Hlen [Hn Hd]]; unfold uts_wf; cbn;
    (rewrite pad_length, pad_last by lia); tauto.
Qed.

Lemma override_release_frame p len um r um' a :
  1 <= len <= 65 -> override_release p len um = (r, um') -> a < p \/ p + len <= a -> peek um' a = peek um a.
Proof.
  intros Hlen H Ha. unfold override_release in H. case_if_in H; [|by injection H as _ <-].
  apply (copy_to_user_frame _ _ _ _ _ _ H). rewrite length_app. unfold scnprintf.
  rewrite length_take. cbn [length]. lia.
Qed.

Lemma override_architecture_frame p um r um' a :
  override_architecture p um = (r, um') ->
  a < p \/ p + Z.of_nat (length COMPAT_UTS_MACHINE) + 1 <= a -> peek um' a = peek um a.
Proof.
  intros H Ha. unfold override_architecture in H. case_if_in H; [|by injection H as _ <-].
  apply (copy_to_user_frame _ _ _ _ _ _ H). rewrite length_app. cbn [length]. lia.
Qed.

(** Three copies in a row, each only after the previous one was complete. *)
Lemma copies_frame name bs k1 k2 (f g : Z -> umem -> Z * umem) (um : umem) (a : Z) :
  (forall m r m', f k1 m = (r, m') -> peek m' a = peek m a) ->
  (forall m r m', g k2 m = (r, m') -> peek m' a = peek m a) ->
  a < name \/ name + Z.of_nat (length bs) <= a ->
  peek (let '(l, um) := copy_to_user name bs um in
        if c_true l then (- EFAULT, um)
        else let '(l, um) := f k1 um in
             if c_true l then (- EFAULT, um)
             else let '(l, um) := g k2 um in
                  if c_true l then (- EFAULT, um) else (0, um)).2 a = peek um a.
Proof.
  intros Hf Hg Ha. destruct (copy_to_user name bs um) as [l m1] eqn:E1.
  apply (copy_to_user_frame _ _ _ _ _ a) in E1; [|done].
  case_if; [done|]. destruct (f k1 m1) as [l2 m2] eqn:E2. apply Hf in E2.
  case_if; [cbn; congruence|]. destruct (g k2 m2) as [l3 m3] eqn:E3. apply Hg in E3.
  case_if; cbn; congruence.
Qed.

(** None of the three uname calls writes a byte of user memory outside the
    structure of its version (390, 325 and 45 bytes at the given address), with any
    personality: the shortened release and the architecture override fit the members
    they replace, whatever release string the kernel was built with. *)
Theorem uname_stays_in_struct name u um a :
  uts_wf u -> (length COMPAT_UTS_MACHINE < 9)%nat ->
  (a < name \/ name + 390 <= a -> peek (sys_newuname name u um).2 a = peek um a) /\
  (a < name \/ name + 325 <= a -> peek (sys_uname name u um).2 a = peek um a) /\
  (a < name \/ name + 45 <= a -> peek (sys_olduname name u um).2 a = peek um a).
Proof.
  intros Hwf Hm. pose proof (utsname_bytes_length u Hwf) as Hl.
  repeat split; intros Ha; unfold sys_newuname, sys_uname, sys_olduname.
  - apply (copies_frame name (utsname_bytes u) (name + 130) (name + 260)
             (fun k => override_release k 65) (fun k => override_architecture k)); [| |lia]; intros.
    + eapply override_release_frame; [|eassumption|]; lia.
    + eapply override_architecture_frame; [eassumption|lia].
  - case_if; [done|].
    assert (length (old_utsname_bytes u) = 325%nat)
      by (unfold old_utsname_bytes; rewrite length_take; lia).
    apply (copies_frame name (old_utsname_bytes u) (name + 130) (name + 260)
             (fun k => override_release k 65) (fun k => override_architecture k)); [| |lia]; intros.
    + eapply override_release_frame; [|eassumption|]; lia.
    + eapply override_architecture_frame; [eassumption|lia].
  - case_if; [done|]. pose proof (oldold_length u).
    apply (copies_frame name (oldold_utsname_bytes u) (name + 36) (name + 18)
             (fun k => override_architecture k) (fun k => override_release k 9)); [| |lia]; intros.
    + eapply override_architecture_frame; [eassumption|lia].
    + eapply override_release_frame; [|eassumption|]; lia.
Qed.

Lemma sethostname_sets p bs u u' um :
  sys_sethostname p (Z.of_nat (length bs)) u um = (0, u') ->
  copy_from_user p (length bs) um = Some bs ->
  (length bs <= 64)%nat /\ nodename u' = pad 65 bs.
Proof.
  unfold sys_sethostname, NEW_UTS_LEN. intros H Hc. rewrite Nat2Z.id, Hc in H.
  case_if_in H; [done|]. case_if_in H; [done|]. injection H as <-. bool_hyps. split; [lia|done].
Qed.

(** Host name round trip: a name without NUL bytes that sethostname accepted is
    what gethostname delivers, with its terminator, to a buffer that has room for
    it, and what newuname shows in the nodename member, padded with zeros to 65
    bytes; a shorter buffer gets the first [len] bytes and no terminator. *)
Theorem hostname_roundtrip p q len bs u u' um um1 um2 um' :
  uts_wf u -> Forall (fun c => c <> 0) bs -> copy_from_user p (length bs) um = Some bs ->
  sys_sethostname p (Z.of_nat (length bs)) u um = (0, u') ->
  sys_gethostname q len u' um' = (0, um1) -> sys_newuname q u' um' = (0, um2) ->
  uts_wf u' /\
  uread um1 q (Nat.min (Z.to_nat len) (S (length bs))) = Some (take (Z.to_nat len) (bs ++ [0])) /\
  uread um2 (q + 65) 65 = Some (pad 65 bs).
Proof.
  intros Hwf Hz Hc Hset Hget Hun.
  destruct (sethostname_sets _ _ _ _ _ Hset Hc) as [Hle Hn].
  assert (Hwf' : uts_wf u').
  { pose proof (uts_step_wf (SetHost p (Z.of_nat (length bs)) um) u Hwf) as [H _].
    cbn [uts_step] in H. by rewrite Hset in H. }
  split; [done|]. split.
  - unfold sys_gethostname in Hget. case_if_in Hget; [done|].
    rewrite Hn, pad_cons_nul, strlen_end in Hget by (done || lia).
    destruct (copy_to_user _ _ _) as [l m1] eqn:E1. case_if_in Hget; [done|].
    injection Hget as ->. apply c_true_false in Hif0 as ->. apply copy_to_user_uread in E1.
    assert (Htk : forall k, (k <= S (length bs))%nat ->
      take k (bs ++ 0 :: replicate (65 - length bs - 1) 0) = take k (bs ++ [0])).
    { intros k Hk. change (0 :: replicate (65 - length bs - 1) 0)
        with ([0] ++ replicate (65 - length bs - 1) 0).
      rewrite app_assoc, take_app_le; [done|]. rewrite length_app. cbn. lia. }
    rewrite length_take, length_app in E1. cbn [length] in E1. rewrite length_replicate in E1.
    rewrite Nat2Z.inj_add in E1. change (Z.of_nat 1) with 1 in E1. case_if_in E1.
    + rewrite Htk in E1 by lia. rewrite <- E1. f_equal. lia.
    + rewrite Htk in E1 by lia. rewrite (take_ge _ (Z.to_nat len)) by (rewrite length_app; cbn; lia).
      rewrite take_ge in E1 by (rewrite length_app; cbn; lia). rewrite <- E1. f_equal. lia.
  - unfold sys_newuname in Hun.
    destruct (copy_to_user q (utsname_bytes u') um') as [l m1] eqn:E1. case_if_in Hun; [done|].
    destruct (override_release _ _ m1) as [l2 m2] eqn:E2. case_if_in Hun; [done|].
    destruct (override_architecture _ m2) as [l3 m3] eqn:E3. case_if_in Hun; [done|].
    injection Hun as ->. apply c_true_false in Hif as ->. apply copy_to_user_uread in E1.
    rewrite utsname_bytes_length in E1 by done.
    rewrite (uread_frame m1 um2 (q + 65) 65).
    + change 65 with (Z.of_nat 65) at 1. rewrite (uread_slice _ _ _ 65 65 _ E1) by lia.
      unfold utsname_bytes. destruct Hwf' as [(L1 & L2 & _) _].
      rewrite slice_app_r, L1, slice_app_l by lia. f_equal. rewrite Hn in *. by apply slice_all.
    + intros a Ha. rewrite (override_architecture_frame _ _ _ _ a E3) by lia.
      apply (override_release_frame _ _ _ _ _ a) in E2; [done|lia..].
Qed.

End theorems.

(** ** A concrete machine *)

Definition demo_uts_env : UtsEnv := {|
  uts_ns_capable := fun _ => true; personality := 131072 + 8;
  UTS_RELEASE := [54; 46; 56; 46; 48; 45; 117]; LINUX_VERSION_PATCHLEVEL := 8;
  COMPAT_UTS_MACHINE := [105; 54; 56; 54; 0; 0]
|}.

Definition demo_uts : new_utsname := {|
  sysname := pad 65 UTS_SYSNAME; nodename := pad 65 [97]; release := pad 65 [54; 46; 56; 46; 48; 45; 117];
  version := pad 65 [35; 49]; machine := pad 65 [120; 56; 54]; domainname := pad 65 [40; 41]
|}.

Lemma demo_uts_wf : uts_wf demo_uts.
Proof. vm_compute. by repeat split. Qed.

(** 6.8.0-u is shown as 2.6.68-u. *)
Example demo_release : uname26_release (E := demo_uts_env) = [50; 46; 54; 46; 54; 56; 45; 117].
Proof. reflexivity. Qed.

Lemma uname_stays_in_struct_witness :
  peek (UserAccess := last_copy)
    (sys_newuname (E := demo_uts_env) (U := last_copy) 1000 demo_uts (fun _ => Some 7)).2 1390 = Some 7.
Proof.
  refine (proj1 (uname_stays_in_struct (E := demo_uts_env) (U := last_copy) 1000 demo_uts
                   (fun _ => Some 7) 1390 demo_uts_wf _) _); cbn; lia.
Defined.

(** The bytes "usac" at address 0. *)
Definition demo_name : list Z := [117; 115; 97; 99].
Definition demo_name_um : Z -> option Z := fun a => demo_name !! Z.to_nat a.

Lemma hostname_roundtrip_witness :
  let u' := (sys_sethostname (E := demo_uts_env) (U := last_copy) 0 4 demo_uts demo_name_um).2 in
  let um1 := (sys_gethostname (U := last_copy) 500 64 u' demo_name_um).2 in
  uread (U := last_copy) um1 500 5 = Some [117; 115; 97; 99; 0].
Proof.
  cbv zeta.
  refine (proj1 (proj2 (hostname_roundtrip (E := demo_uts_env) (U := last_copy) 0 500 64 demo_name
            demo_uts _ demo_name_um _ _ demo_name_um demo_uts_wf _ _ eq_refl eq_refl eq_refl))).
  - repeat constructor; lia.
  - reflexivity.
Defined.
