(* ===== verification/Jobs.v ===== *)
(** * Process groups and sessions (kernel/sys.c: setpgid, getpgid, getsid, setsid)

    The state is the process table of one pid namespace: a process per thread
    group (its group, session, parent and flags, the members of [signal] and
    [task_struct] these calls use) and the threads by their ids.  A [struct pid] of
    the namespace is its number.  The security hooks are parameters.  Creation,
    exit, exec and reparenting of processes happen elsewhere in the kernel; they are
    steps of the transition relation [jobs_step], with what they do to these
    members, so that the invariant covers histories in which they are interleaved
    with the syscalls. *)
From S2P Require Import Prelude.

Record process := {
  p_pgrp : Z; p_session : Z; p_parent : Z;
  p_leader : bool;         (** signal->leader *)
  p_forknoexec : bool;     (** flags & PF_FORKNOEXEC *)
  p_tty : bool             (** has a controlling terminal *)
}.

Record jobs := {
  procs : gmap Z process;    (** by tgid *)
  threads : gmap Z Z         (** tid to tgid *)
}.

Class JobsEnv := {
  security_task_setpgid : Z -> Z -> Z;
  security_task_getpgid : Z -> Z;
  security_task_getsid : Z -> Z
}.

(** [pid_task(pgrp, PIDTYPE_PGID)]: some member of the process group. *)
Definition group_member (pgid : Z) (st : jobs) : option process :=
  head (filter (fun q => p_pgrp q = pgid) (map_to_list (procs st)).*2).

Definition set_proc (pid : Z) (p : process) (st : jobs) : jobs :=
  {| procs := <[pid := p]> (procs st); threads := threads st |}.

(** [change_pid(p, PIDTYPE_PGID, pgrp)] and [change_pid(p, PIDTYPE_SID, sid)]. *)
Definition change_pgrp (pgrp : Z) (p : process) : process :=
  {| p_pgrp := pgrp; p_session := p_session p; p_parent := p_parent p;
     p_leader := p_leader p; p_forknoexec := p_forknoexec p; p_tty := p_tty p |}.

Definition change_sid (sid : Z) (p : process) : process :=
  {| p_pgrp := p_pgrp p; p_session := sid; p_parent := p_parent p;
     p_leader := p_leader p; p_forknoexec := p_forknoexec p; p_tty := p_tty p |}.

Definition set_leader (p : process) : process :=
  {| p_pgrp := p_pgrp p; p_session := p_session p; p_parent := p_parent p;
     p_leader := true; p_forknoexec := p_forknoexec p; p_tty := p_tty p |}.

Definition proc_clear_tty (p : process) : process :=
  {| p_pgrp := p_pgrp p; p_session := p_session p; p_parent := p_parent p;
     p_leader := p_leader p; p_forknoexec := p_forknoexec p; p_tty := false |}.

Section syscalls.
Context {E : JobsEnv}.

(** The checks of setpgid up to the security hook, for the target [p] with pid
    [pid], as the error the code would return there ([None]: all passed). *)
Definition setpgid_checks (me pid pgid : Z) (gl p : process) (st : jobs) : option Z :=
  match
    if p_parent p =? me then
      if negb (p_session p =? p_session gl) then Some (- EPERM)
      else if negb (p_forknoexec p) then Some (- EACCES) else None
    else if negb (pid =? me) then Some (- ESRCH) else None
  with
  | Some e => Some e
  | None =>
      if p_leader p then Some (- EPERM)
      else if negb (pgid =? pid) then
        match group_member pgid st with
        | None => Some (- EPERM)
        | Some g => if negb (p_session g =? p_session gl) then Some (- EPERM) else None
        end
      else None
  end.

(** [me] is the thread group of the caller. *)
Definition sys_setpgid (me pid pgid : Z) (st : jobs) : Z * jobs :=
  let pid := if negb (c_true pid) then me else pid in
  let pgid := if negb (c_true pgid) then pid else pgid in
  if pgid <? 0 then (- EINVAL, st)
  else
    match threads st !! pid with
    | None => (- ESRCH, st)
    | Some tg =>
        if negb (tg =? pid) then (- EINVAL, st)
        else
          match procs st !! pid, procs st !! me with
          | Some p, Some gl =>
              match setpgid_checks me pid pgid gl p st with
              | Some e => (e, st)
              | None =>
                  let err := security_task_setpgid pid pgid in
                  if c_true err then (err, st)
                  else (0, if negb (p_pgrp p =? pgid) then set_proc pid (change_pgrp pgid p) st else st)
              end
          | _, _ => (- ESRCH, st)
          end
    end.

(** The process a thread id belongs to. *)
Definition find_process (pid : Z) (st : jobs) : option (Z * process) :=
  match threads st !! pid with
  | Some tg => match procs st !! tg with Some p => Some (tg, p) | None => None end
  | None => None
  end.

Definition do_getpgid (me pid : Z) (st : jobs) : Z :=
  if negb (c_true pid) then match procs st !! me with Some p => p_pgrp p | None => - ESRCH end
  else
    match find_process pid st with
    | None => - ESRCH
    | Some (_, p) =>
        let retval := security_task_getpgid pid in
        if c_true retval then retval else p_pgrp p
    end.

Definition sys_getpgid (me pid : Z) (st : jobs) : Z := do_getpgid me pid st.
Definition sys_getpgrp (me : Z) (st : jobs) : Z := do_getpgid me 0 st.

Definition sys_getsid (me pid : Z) (st : jobs) : Z :=
  if negb (c_true pid) then match procs st !! me with Some p => p_session p | None => - ESRCH end
  else
    match find_process pid st with
    | None => - ESRCH
    | Some (_, p) =>
        let retval := security_task_getsid pid in
        if c_true retval then retval else p_session p
    end.

(** The numbers of the caller: of its thread group, its own thread, the thread group
    of its real parent. *)
Definition sys_getpid (me : Z) : Z := me.
Definition sys_gettid (tid : Z) : Z := tid.
Definition sys_getppid (me : Z) (st : jobs) : Z :=
  match procs st !! me with Some p => p_parent p | None => - ESRCH end.

Definition set_special_pids (pid : Z) (p : process) : process :=
  let p := if negb (p_session p =? pid) then change_sid pid p else p in
  if negb (p_pgrp p =? pid) then change_pgrp pid p else p.

Definition ksys_setsid (me : Z) (st : jobs) : Z * jobs :=
  match procs st !! me with
  | None => (- EPERM, st)
  | Some gl =>
      if p_leader gl then (- EPERM, st)
      else
        match group_member me st with
        | Some _ => (- EPERM, st)
        | None => (me, set_proc me (proc_clear_tty (set_special_pids me (set_leader gl))) st)
        end
  end.

End syscalls.

(** ** Histories *)

Section history.
Context {E : JobsEnv}.

(** A pid number is free when no process, thread, group or session bears it
    (alloc_pid hands out only such numbers). *)
Definition pid_free (pid : Z) (st : jobs) : Prop :=
  0 < pid /\ threads st !! pid = None /\ procs st !! pid = None /\
  map_Forall (fun _ p => p_pgrp p <> pid /\ p_session p <> pid) (procs st).

Inductive jobs_step : jobs -> jobs -> Prop :=
| StepSetpgid me pid pgid st :
    is_Some (procs st !! me) -> jobs_step st (sys_setpgid me pid pgid st).2
| StepSetsid me st :
    is_Some (procs st !! me) -> jobs_step st (ksys_setsid me st).2
| StepFork parent p child st :
    (** copy_process without CLONE_THREAD: the child inherits group and session *)
    procs st !! parent = Some p -> pid_free child st ->
    jobs_step st
      {| procs := <[child := {| p_pgrp := p_pgrp p; p_session := p_session p; p_parent := parent;
                                p_leader := false; p_forknoexec := true; p_tty := p_tty p |}]> (procs st);
         threads := <[child := child]> (threads st) |}
| StepThread tg p tid st :
    procs st !! tg = Some p -> pid_free tid st ->
    jobs_step st {| procs := procs st; threads := <[tid := tg]> (threads st) |}
| StepExec tg p st :
    procs st !! tg = Some p ->
    jobs_step st (set_proc tg {| p_pgrp := p_pgrp p; p_session := p_session p; p_parent := p_parent p;
                                 p_leader := p_leader p; p_forknoexec := false; p_tty := p_tty p |} st)
| StepReparent tg p parent st :
    procs st !! tg = Some p ->
    jobs_step st (set_proc tg {| p_pgrp := p_pgrp p; p_session := p_session p; p_parent := parent;
                                 p_leader := p_leader p; p_forknoexec := p_forknoexec p; p_tty := p_tty p |} st)
| StepExit tg st :
    jobs_step st {| procs := delete tg (procs st);
                    threads := filter (fun '(_, t) => t <> tg) (threads st) |}.

Inductive jobs_reachable (st0 : jobs) : jobs -> Prop :=
| JobsInit : jobs_reachable st0 st0
| JobsStep st st' : jobs_reachable st0 st -> jobs_step st st' -> jobs_reachable st0 st'.

(** The invariant of job control: groups do not span sessions; a process whose pid
    names a group is in the session of that group; session leaders are exactly the
    processes whose session bears their pid, and they lead their own group; pids are
    positive (group and session 0 belong to the boot process). *)
Definition jobs_inv (st : jobs) : Prop :=
  (forall i j p q, procs st !! i = Some p -> procs st !! j = Some q ->
     p_pgrp p = p_pgrp q -> p_session p = p_session q) /\
  (forall i j p q, procs st !! i = Some p -> procs st !! j = Some q ->
     p_pgrp q = i -> p_session q = p_session p) /\
  (forall i p, procs st !! i = Some p -> p_leader p = true <-> p_session p = i) /\
  (forall i p, procs st !! i = Some p -> p_leader p = true -> p_pgrp p = i) /\
  (forall i p, procs st !! i = Some p -> 0 < i).

Lemma group_member_spec pgid st :
  match group_member pgid st with
  | Some g => exists i, procs st !! i = Some g /\ p_pgrp g = pgid
  | None => forall i q, procs st !! i = Some q -> p_pgrp q <> pgid
  end.
Proof.
  unfold group_member.
  destruct (filter _ _) as [|g l] eqn:Ef; cbn [head].
  - intros i q Hi Hq.
    assert (Hin : q ∈ filter (fun q => p_pgrp q = pgid) (map_to_list (procs st)).*2).
    { apply list_elem_of_filter. split; [done|]. apply list_elem_of_fmap.
      exists (i, q). split; [done|]. by apply elem_of_map_to_list. }
    rewrite Ef in Hin. by apply not_elem_of_nil in Hin.
  - assert (Hin : g ∈ filter (fun q => p_pgrp q = pgid) (map_to_list (procs st)).*2)
      by (rewrite Ef; apply list_elem_of_here).
    apply list_elem_of_filter in Hin as [Hg Hin]. apply list_elem_of_fmap in Hin as ([i q] & -> & Hin).
    apply elem_of_map_to_list in Hin. by exists i.
Qed.

(** Changing the group of one process within its session keeps the invariant when
    every holder of the new group number is in that session. *)
Lemma inv_set_proc pid p p' st :
  jobs_inv st -> procs st !! pid = Some p ->
  p_session p' = p_session p -> p_leader p' = p_leader p ->
  (p_leader p = true -> p_pgrp p' = pid) ->
  (forall j q, procs st !! j = Some q -> p_pgrp q = p_pgrp p' -> p_session q = p_session p) ->
  (forall q, procs st !! p_pgrp p' = Some q -> p_session q = p_session p) ->
  jobs_inv (set_proc pid p' st).
Proof.
  intros (I1 & I2 & I3 & I4 & I5) Hp Hs Hl Hlead Hmem Hpid.
  unfold jobs_inv, set_proc. cbn [procs].
  repeat split.
  - intros i j q r Hi Hj Heq. rewrite lookup_insert_Some in Hi, Hj.
    destruct Hi as [[<- <-]|[Hni Hi]], Hj as [[<- <-]|[Hnj Hj]]; [done| | |by eapply I1].
    + rewrite Hs. symmetry. by eapply Hmem.
    + rewrite Hs. by eapply Hmem.
  - intros i j q r Hi Hj Heq. rewrite lookup_insert_Some in Hi, Hj.
    destruct Hi as [[<- <-]|[Hni Hi]], Hj as [[<- <-]|[Hnj Hj]]; [done| | |by eapply I2].
    + rewrite Hs. by eapply I2.
    + rewrite Hs. symmetry. apply Hpid. by rewrite Heq.
  - intros Hld. rewrite lookup_insert_Some in H. destruct H as [[<- <-]|[Hni Hi]]; [|by apply (I3 _ _ Hi)].
    rewrite Hs. apply (I3 _ _ Hp). congruence.
  - intros Hse. rewrite lookup_insert_Some in H. destruct H as [[<- <-]|[Hni Hi]]; [|by apply (I3 _ _ Hi)].
    rewrite Hl. apply (I3 _ _ Hp). congruence.
  - intros i q Hi Hld. rewrite lookup_insert_Some in Hi. destruct Hi as [[<- <-]|[Hni Hi]]; [|by eapply I4].
    apply Hlead. congruence.
  - intros i q Hi. rewrite lookup_insert_Some in Hi. destruct Hi as [[<- <-]|[Hni Hi]]; eauto.
Qed.

(** Steps that leave group, session and leadership of a process alone. *)
Lemma inv_same_group pid p p' st :
  jobs_inv st -> procs st !! pid = Some p ->
  p_session p' = p_session p -> p_leader p' = p_leader p -> p_pgrp p' = p_pgrp p ->
  jobs_inv (set_proc pid p' st).
Proof.
  intros Hinv Hp Hs Hl Hg. pose proof Hinv as (I1 & I2 & I3 & I4 & I5).
  eapply inv_set_proc; try eassumption; rewrite ?Hg.
  - by apply I4.
  - intros j q Hj Hq. by eapply I1.
  - intros q Hq. symmetry. by eapply I2.
Qed.

Lemma setpgid_inv me pid pgid st : jobs_inv st -> jobs_inv (sys_setpgid me pid pgid st).2.
Proof.
  intros Hinv. pose proof Hinv as (I1 & I2 & I3 & I4 & I5). unfold sys_setpgid. cbv zeta.
  set (pid' := if negb (c_true pid) then me else pid).
  set (pgid' := if negb (c_true pgid) then pid' else pgid).
  case_if; [done|]. destruct (threads st !! pid'); [|done]. case_if; [done|].
  destruct (procs st !! pid') as [p|] eqn:Hp; [|done].
  destruct (procs st !! me) as [gl|] eqn:Hme; [|done].
  destruct (setpgid_checks _ _ _ _ _ _) eqn:Hck; [done|]. case_if; [done|].
  cbn [snd]. case_if; [|done].
  unfold setpgid_checks in Hck.
  assert (Hsess : p_session p = p_session gl).
  { case_if_in Hck; [|case_if_in Hck; [done|]; bool_hyps; congruence].
    case_if_in Hck; [done|]. by bool_hyps. }
  destruct (if p_parent p =? me then _ else _); [done|].
  destruct (p_leader p) eqn:Hld; [done|].
  eapply inv_set_proc; try done; cbn [change_pgrp p_pgrp p_session p_leader].
  - intros ?. congruence.
  - intros j q Hj Hq. case_if_in Hck.
    + pose proof (group_member_spec pgid' st) as Hg. destruct (group_member pgid' st) as [g|]; [|done].
      case_if_in Hck; [done|]. bool_hyps. destruct Hg as (i & Hi & Hig).
      rewrite (I1 _ _ _ _ Hj Hi) by congruence. congruence.
    + bool_hyps. eapply I2; [exact Hp|exact Hj|congruence].
  - intros q Hq. case_if_in Hck.
    + pose proof (group_member_spec pgid' st) as Hg. destruct (group_member pgid' st) as [g|]; [|done].
      case_if_in Hck; [done|]. bool_hyps. destruct Hg as (i & Hi & Hig).
      rewrite <- (I2 _ _ _ _ Hq Hi) by congruence. congruence.
    + bool_hyps. congruence.
Qed.

Lemma special_pids me gl :
  proc_clear_tty (set_special_pids me (set_leader gl)) =
  {| p_pgrp := me; p_session := me; p_parent := p_parent gl; p_leader := true;
     p_forknoexec := p_forknoexec gl; p_tty := false |}.
Proof.
  destruct gl as [g s pa l f t]. unfold set_special_pids. cbn [set_leader p_session p_pgrp].
  destruct (Z.eqb_spec s me) as [->|], (Z.eqb_spec g me) as [->|]; cbn;
    rewrite ?Z.eqb_refl; try done; destruct (Z.eqb_spec g me); done.
Qed.

Lemma setsid_inv me st : jobs_inv st -> jobs_inv (ksys_setsid me st).2.
Proof.
  intros (I1 & I2 & I3 & I4 & I5). unfold ksys_setsid.
  destruct (procs st !! me) as [gl|] eqn:Hme; [|done]. case_if; [done|].
  pose proof (group_member_spec me st) as Hg. destruct (group_member me st); [done|].
  cbn [snd]. rewrite special_pids. unfold jobs_inv, set_proc. cbn [procs].
  split; [|split; [|split; [|split]]].
  - intros i j q r Hi Hj Heq. rewrite lookup_insert_Some in Hi, Hj.
    destruct Hi as [[<- <-]|[Hni Hi]], Hj as [[<- <-]|[Hnj Hj]]; cbn in *; [done| | |by eapply I1].
    + by destruct (Hg _ _ Hj).
    + by destruct (Hg _ _ Hi).
  - intros i j q r Hi Hj Heq. rewrite lookup_insert_Some in Hi, Hj.
    destruct Hi as [[<- <-]|[Hni Hi]], Hj as [[<- <-]|[Hnj Hj]]; cbn in *; [done| |done|by eapply I2].
    by destruct (Hg _ _ Hj).
  - intros i q Hi. rewrite lookup_insert_Some in Hi. destruct Hi as [[<- <-]|[Hni Hi]]; [done|by apply I3].
  - intros i q Hi Hld. rewrite lookup_insert_Some in Hi. destruct Hi as [[<- <-]|[Hni Hi]]; [done|by eapply I4].
  - intros i q Hi. rewrite lookup_insert_Some in Hi. destruct Hi as [[<- <-]|[Hni Hi]]; eauto.
Qed.

Lemma fork_inv parent p child st q th :
  jobs_inv st -> procs st !! parent = Some p -> pid_free child st ->
  p_pgrp q = p_pgrp p -> p_session q = p_session p -> p_leader q = false ->
  jobs_inv {| procs := <[child := q]> (procs st); threads := th |}.
Proof.
  intros (I1 & I2 & I3 & I4 & I5) Hp (Hpos & _ & Hnone & Hfree) Hg Hs Hl.
  destruct (Hfree parent p Hp) as [Hf1 Hf2].
  unfold jobs_inv. cbn [procs]. split; [|split; [|split; [|split]]].
  - intros i j a b Hi Hj Heq. rewrite lookup_insert_Some in Hi, Hj.
    destruct Hi as [[<- <-]|[Hni Hi]], Hj as [[<- <-]|[Hnj Hj]]; [done| | |by eapply I1].
    + rewrite Hs. eapply I1; [exact Hp|exact Hj|congruence].
    + rewrite Hs. eapply I1; [exact Hi|exact Hp|congruence].
  - intros i j a b Hi Hj Heq. rewrite lookup_insert_Some in Hi, Hj.
    destruct Hi as [[<- <-]|[Hni Hi]], Hj as [[<- <-]|[Hnj Hj]]; [done| | |by eapply I2].
    + by destruct (Hfree j b Hj).
    + rewrite Hs. eapply I2; [exact Hi|exact Hp|congruence].
  - intros i a Hi. rewrite lookup_insert_Some in Hi. destruct Hi as [[<- <-]|[Hni Hi]]; [|by apply I3].
    rewrite Hl, Hs. split; [done|congruence].
  - intros i a Hi Hld. rewrite lookup_insert_Some in Hi. destruct Hi as [[<- <-]|[Hni Hi]]; [congruence|by eapply I4].
  - intros i a Hi. rewrite lookup_insert_Some in Hi. destruct Hi as [[<- <-]|[Hni Hi]]; eauto.
Qed.

Lemma exit_inv tg st th : jobs_inv st -> jobs_inv {| procs := delete tg (procs st); threads := th |}.
Proof.
  intros (I1 & I2 & I3 & I4 & I5). unfold jobs_inv. cbn [procs].
  repeat setoid_rewrite lookup_delete_Some.
  split; [|split; [|split; [|split]]]; intros; destruct_and?; eauto.
Qed.

Lemma jobs_step_inv st st' : jobs_step st st' -> jobs_inv st -> jobs_inv st'.
Proof.
  destruct 1; intros Hinv.
  - by apply setpgid_inv.
  - by apply setsid_inv.
  - by eapply fork_inv.
  - exact Hinv.
  - by eapply inv_same_group.
  - by eapply inv_same_group.
  - by apply exit_inv.
Qed.

(** C16: the job-control invariant holds in every reachable process table: however
    setpgid and setsid calls of any processes are interleaved with the creation,
    exec, reparenting and exit of processes and threads, no process group spans two
    sessions, a process whose pid names a group is in that group's session, and the
    session leaders are exactly the processes whose session bears their pid, each
    leading its own group. *)
Theorem jobs_invariant st0 st : jobs_inv st0 -> jobs_reachable st0 st -> jobs_inv st.
Proof. intros H0. induction 1; eauto using jobs_step_inv. Qed.

(** Setsid and the calls after it: from a state of the invariant, setsid answers
    the caller's pid exactly when the caller is no session leader and its pid names
    no group, and it then is the only member of the new session's group, leads it
    without a terminal, getsid and getpgid report its pid, and both a second setsid
    and any setpgid it makes on itself fail (EPERM, or EACCES for a process that is
    its own parent) without changing anything. *)
Theorem setsid_contract me st st' r :
  jobs_inv st -> threads st !! me = Some me -> is_Some (procs st !! me) ->
  ksys_setsid me st = (r, st') ->
  (r = - EPERM /\ st' = st) \/
  (r = me /\
   (forall j q, procs st' !! j = Some q -> p_pgrp q = me -> j = me) /\
   (exists p, procs st' !! me = Some p /\ p_leader p = true /\ p_tty p = false) /\
   sys_getsid me 0 st' = me /\ sys_getpgrp me st' = me /\
   ksys_setsid me st' = (- EPERM, st') /\
   forall pgid, 0 <= pgid -> (sys_setpgid me me pgid st').2 = st' /\
     ((sys_setpgid me me pgid st').1 = - EPERM \/ (sys_setpgid me me pgid st').1 = - EACCES)).
Proof.
  intros (I1 & I2 & I3 & I4 & I5) Hth [gl Hgl] H. pose proof (I5 _ _ Hgl) as Hpos.
  unfold ksys_setsid in H. rewrite Hgl in H. case_if_in H; [left; by injection H|].
  pose proof (group_member_spec me st) as Hg. destruct (group_member me st); [left; by injection H|].
  rewrite special_pids in H. injection H as <- <-. right.
  set (p := {| p_pgrp := me |}).
  assert (Hp : procs (set_proc me p st) !! me = Some p) by apply lookup_insert_eq.
  split; [done|]. split; [|split; [by exists p|split; [|split; [|split]]]].
  - intros j q Hj Hq. cbn in Hj. rewrite lookup_insert_Some in Hj.
    destruct Hj as [[<- _]|[_ Hj]]; [done|]. by destruct (Hg _ _ Hj).
  - unfold sys_getsid. change (c_true 0) with false. cbn [negb]. by rewrite Hp.
  - unfold sys_getpgrp, do_getpgid. change (c_true 0) with false. cbn [negb]. by rewrite Hp.
  - unfold ksys_setsid. by rewrite Hp.
  - intros pgid Hpgid. unfold sys_setpgid. cbv zeta.
    assert (Hme : c_true me = true) by (apply c_true_true; lia). rewrite Hme. cbn [negb].
    case_if; [case_if_in Hif0; lia|]. change (threads (set_proc me p st)) with (threads st).
    rewrite Hth, Z.eqb_refl. cbn [negb]. rewrite Hp. unfold setpgid_checks.
    rewrite !Z.eqb_refl. cbn [negb]. destruct (p_parent p =? me); [destruct (p_forknoexec p)|]; cbn; auto.
Qed.

End history.

(** ** A concrete history *)

Definition demo_jobs_env : JobsEnv := {|
  security_task_setpgid := fun _ _ => 0; security_task_getpgid := fun _ => 0;
  security_task_getsid := fun _ => 0
|}.

Definition demo_init : jobs :=
  {| procs := {[1 := {| p_pgrp := 1; p_session := 1; p_parent := 0; p_leader := true;
                        p_forknoexec := false; p_tty := false |}]};
     threads := {[1 := 1]} |}.

Definition demo_child : jobs :=
  {| procs := <[2 := {| p_pgrp := 1; p_session := 1; p_parent := 1; p_leader := false;
                        p_forknoexec := true; p_tty := false |}]> (procs demo_init);
     threads := <[2 := 2]> (threads demo_init) |}.

Lemma demo_init_inv : jobs_inv demo_init.
Proof.
  unfold jobs_inv, demo_init. cbn [procs].
  setoid_rewrite lookup_singleton_Some.
  split; [|split; [|split; [|split]]]; intros; destruct_and?; simplify_eq/=; done.
Qed.

Lemma demo_fork : jobs_step (E := demo_jobs_env) demo_init demo_child.
Proof.
  apply (StepFork (E := demo_jobs_env) 1 {| p_pgrp := 1; p_session := 1; p_parent := 0; p_leader := true;
                        p_forknoexec := false; p_tty := false |} 2); [done|].
  split; [lia|]. split; [done|]. split; [done|].
  apply map_Forall_singleton. cbn. lia.
Qed.

Lemma jobs_invariant_witness :
  jobs_inv (ksys_setsid 2 (sys_setpgid (E := demo_jobs_env) 1 2 2 demo_child).2).2.
Proof.
  apply (jobs_invariant (E := demo_jobs_env) demo_init).
  - exact demo_init_inv.
  - eapply JobsStep; [|apply StepSetsid].
    eapply JobsStep; [|apply StepSetpgid; vm_compute; eauto].
    eapply JobsStep; [apply JobsInit|exact demo_fork].
    vm_compute; eauto.
Defined.

Lemma demo_child_inv : jobs_inv demo_child.
Proof. exact (jobs_step_inv (E := demo_jobs_env) _ _ demo_fork demo_init_inv). Qed.

Lemma setsid_contract_witness :
  sys_getpgrp (E := demo_jobs_env) 2 (ksys_setsid 2 demo_child).2 = 2.
Proof.
  destruct (setsid_contract (E := demo_jobs_env) 2 demo_child (ksys_setsid 2 demo_child).2 2 demo_child_inv)
    as [[H _]|(_ & _ & _ & _ & H & _)]; [reflexivity|vm_compute; eauto|vm_compute; reflexivity| |exact H].
  discriminate H.
Defined.

(** A process that calls setsid with success leads a session and a group of its own
    number, keeps its parent, and has no terminal; every other process is as before. *)
Lemma setsid_success `{JobsEnv} me st r st' :
  0 < me -> ksys_setsid me st = (r, st') -> 0 < r ->
  r = sys_getpid me /\ sys_getpgrp me st' = sys_getpid me /\ sys_getsid me 0 st' = sys_getpid me /\
  sys_getppid me st' = sys_getppid me st /\
  (exists p, procs st' !! me = Some p /\ p_leader p = true /\ p_tty p = false) /\
  forall q, q <> me -> procs st' !! q = procs st !! q.
Proof.
  intros Hme Hs Hr. unfold ksys_setsid in Hs.
  destruct (procs st !! me) as [gl|] eqn:Eg; [|injection Hs as <- _; unfold EPERM in Hr; lia].
  destruct (p_leader gl); [injection Hs as <- _; unfold EPERM in Hr; lia|].
  destruct (group_member me st); [injection Hs as <- _; unfold EPERM in Hr; lia|].
  injection Hs as <- <-. unfold sys_getpgrp, do_getpgid, sys_getsid, sys_getppid, sys_getpid.
  change (c_true 0) with false. cbn [negb set_proc procs]. rewrite !lookup_insert_eq, Eg.
  unfold set_special_pids. cbn [set_leader p_session p_pgrp].
  split; [done|]. split; [|split; [|split; [|split]]].
  1-3: repeat case_if; cbn [proc_clear_tty change_pgrp change_sid p_pgrp p_session p_parent set_leader] in *; try done;
       repeat match goal with H : negb _ = false |- _ => apply negb_false_iff, Z.eqb_eq in H end; done.
  - eexists. split; [done|]. repeat case_if; done.
  - intros q Hq. by rewrite lookup_insert_ne.
Qed.
