(* ===== verification/Prio.v ===== *)
(** * Scheduling priority (kernel/sys.c: setpriority, getpriority)

    The state is the nice value of every thread and the references taken on user
    structures.  The enumeration of threads, their credentials, [can_nice], the
    security hook and [find_user] are parameters (class [PrioEnv]). *)
From S2P Require Import Prelude Cred.

Definition PRIO_PROCESS := 0.
Definition PRIO_PGRP := 1.
Definition PRIO_USER := 2.
Definition MIN_NICE := -20.
Definition MAX_NICE := 19.
Definition CAP_SYS_NICE := 23.

Record prio_state := { task_nice : Z -> Z; user_refs : Z }.

Class PrioEnv := {
  prio_current : Z;
  prio_cred : Z -> cred;
  prio_find_task : Z -> option Z;
  prio_find_vpid : Z -> option Z;
  prio_task_pgrp : Z -> option Z;
  pgrp_threads : Z -> list Z;
  all_threads : list Z;
  task_pid_vnr : Z -> Z;
  prio_make_kuid : Z -> Z -> Z;
  find_user : Z -> option Z;
  prio_ns_capable : Z -> Z -> bool;
  can_nice : Z -> Z -> bool;
  security_task_setnice : Z -> Z -> Z
}.

Definition set_user_nice (p niceval : Z) (st : prio_state) : prio_state :=
  {| task_nice := fun q => if q =? p then niceval else task_nice st q; user_refs := user_refs st |}.

Definition add_user_ref (d : Z) (st : prio_state) : prio_state :=
  {| task_nice := task_nice st; user_refs := user_refs st + d |}.

(** linux/sched/prio.h *)
Definition nice_to_rlimit (nice : Z) : Z := MAX_NICE - nice + 1.

Section syscalls.
Context {E : PrioEnv}.

Definition set_one_prio_perm (p : Z) : bool :=
  let cred := prio_cred prio_current in
  let pcred := prio_cred p in
  (uid pcred =? euid cred) || (euid pcred =? euid cred) || prio_ns_capable (user_ns pcred) CAP_SYS_NICE.

Definition set_one_prio (p niceval error : Z) (st : prio_state) : Z * prio_state :=
  if negb (set_one_prio_perm p) then (- EPERM, st)
  else if (niceval <? task_nice st p) && negb (can_nice p niceval) then (- EACCES, st)
  else
    let no_nice := security_task_setnice p niceval in
    if c_true no_nice then (no_nice, st)
    else
      let error := if error =? - ESRCH then 0 else error in
      (error, set_user_nice p niceval st).

(** The loops over the threads of a group or a user. *)
Fixpoint set_prio_each (ps : list Z) (niceval error : Z) (st : prio_state) : Z * prio_state :=
  match ps with
  | [] => (error, st)
  | p :: ps' => let '(error, st) := set_one_prio p niceval error st in set_prio_each ps' niceval error st
  end.

Definition clamp_nice (niceval : Z) : Z :=
  let niceval := if niceval <? MIN_NICE then MIN_NICE else niceval in
  if MAX_NICE <? niceval then MAX_NICE else niceval.

(** The process group the call addresses; none of its threads for a NULL pid. *)
Definition prio_group (who : Z) : list Z :=
  match if c_true who then prio_find_vpid who else prio_task_pgrp prio_current with
  | Some pgrp => pgrp_threads pgrp
  | None => []
  end.

(** The uid of PRIO_USER, and the user structure found for it: [None] when
    [find_user] failed. *)
Definition prio_user (who : Z) : Z * option bool :=
  let cred := prio_cred prio_current in
  let kuid := prio_make_kuid (user_ns cred) who in
  if negb (c_true who) then (uid cred, Some false)
  else if negb (kuid =? uid cred) then
    match find_user kuid with Some _ => (kuid, Some true) | None => (kuid, None) end
  else (kuid, Some false).

Definition user_threads (kuid : Z) : list Z :=
  filter (fun p => (uid (prio_cred p) =? kuid) && c_true (task_pid_vnr p) = true) all_threads.

Definition sys_setpriority (which who niceval : Z) (st : prio_state) : Z * prio_state :=
  if (PRIO_USER <? which) || (which <? PRIO_PROCESS) then (- EINVAL, st)
  else
    let error := - ESRCH in
    let niceval := clamp_nice niceval in
    if which =? PRIO_PROCESS then
      match if c_true who then prio_find_task who else Some prio_current with
      | Some p => set_one_prio p niceval error st
      | None => (error, st)
      end
    else if which =? PRIO_PGRP then set_prio_each (prio_group who) niceval error st
    else
      let cred := prio_cred prio_current in
      match prio_user who with
      | (kuid, None) => (error, st)
      | (kuid, Some found) =>
          let st := if found then add_user_ref 1 st else st in
          let '(error, st) := set_prio_each (user_threads kuid) niceval error st in
          (error, if negb (kuid =? uid cred) then add_user_ref (-1) st else st)
      end.

Fixpoint max_prio (ps : list Z) (retval : Z) (st : prio_state) : Z :=
  match ps with
  | [] => retval
  | p :: ps' =>
      let niceval := nice_to_rlimit (task_nice st p) in
      max_prio ps' (if retval <? niceval then niceval else retval) st
  end.

Definition sys_getpriority (which who : Z) (st : prio_state) : Z * prio_state :=
  if (PRIO_USER <? which) || (which <? PRIO_PROCESS) then (- EINVAL, st)
  else
    let retval := - ESRCH in
    if which =? PRIO_PROCESS then
      match if c_true who then prio_find_task who else Some prio_current with
      | Some p => (max_prio [p] retval st, st)
      | None => (retval, st)
      end
    else if which =? PRIO_PGRP then (max_prio (prio_group who) retval st, st)
    else
      let cred := prio_cred prio_current in
      match prio_user who with
      | (kuid, None) => (retval, st)
      | (kuid, Some found) =>
          let st := if found then add_user_ref 1 st else st in
          let retval := max_prio (user_threads kuid) retval st in
          (retval, if negb (kuid =? uid cred) then add_user_ref (-1) st else st)
      end.

End syscalls.

(** ** Reference behaviour *)

Section theorems.
Context {E : PrioEnv}.

(** The threads a [which]/[who] pair addresses. *)
Definition prio_targets (which who : Z) : list Z :=
  if which =? PRIO_PROCESS then
    match if c_true who then prio_find_task who else Some prio_current with Some p => [p] | None => [] end
  else if which =? PRIO_PGRP then prio_group who
  else match prio_user who with (kuid, Some _) => user_threads kuid | (_, None) => [] end.

Definition prio_wf (st : prio_state) : Prop := forall p, MIN_NICE <= task_nice st p <= MAX_NICE.

Lemma clamp_nice_range v : MIN_NICE <= clamp_nice v <= MAX_NICE.
Proof.
  unfold clamp_nice, MIN_NICE, MAX_NICE. cbv zeta.
  destruct (Z.ltb_spec v (-20)); destruct (Z.ltb_spec 19 v); cbn; try case_if; lia.
Qed.

Lemma set_prio_one p v error st : set_prio_each [p] v error st = set_one_prio p v error st.
Proof. cbn. by destruct (set_one_prio p v error st). Qed.

Lemma set_one_prio_nice p v error st q :
  task_nice (set_one_prio p v error st).2 q = task_nice st q \/
  (q = p /\ task_nice (set_one_prio p v error st).2 q = v).
Proof.
  unfold set_one_prio. case_if; [by left|]. case_if; [by left|]. cbv zeta. case_if; [by left|].
  cbn. case_if; [right|by left]. split; [lia|done].
Qed.

Lemma set_one_prio_refs p v error st : user_refs (set_one_prio p v error st).2 = user_refs st.
Proof. unfold set_one_prio. by repeat case_if. Qed.

Lemma set_prio_each_spec ps v error st q :
  user_refs (set_prio_each ps v error st).2 = user_refs st /\
  (task_nice (set_prio_each ps v error st).2 q = task_nice st q \/
   (q ∈ ps /\ task_nice (set_prio_each ps v error st).2 q = v)).
Proof.
  revert error st. induction ps as [|p ps IH]; intros error st; cbn [set_prio_each]; [auto|].
  pose proof (set_one_prio_nice p v error st q) as Hn.
  pose proof (set_one_prio_refs p v error st) as Hr.
  destruct (set_one_prio p v error st) as [e st1]. cbn [snd] in *.
  destruct (IH e st1) as [Hr1 [Hn1|[Hin Hn1]]]; (split; [congruence|]).
  - destruct Hn as [Hn|[-> Hn]]; [left; congruence|right]. split; [apply list_elem_of_here|congruence].
  - right. split; [by apply list_elem_of_further|done].
Qed.

(** An error, once recorded, stays: only the initial "no such process" is
    replaced by success. *)
Lemma set_prio_each_zero ps v error st :
  (forall p x, security_task_setnice p x <> - ESRCH) ->
  (set_prio_each ps v error st).1 = 0 -> error = - ESRCH \/ error = 0.
Proof.
  intros Hhook. revert error st. induction ps as [|p ps IH]; intros error st H; [by right|].
  cbn [set_prio_each] in H. destruct (set_one_prio p v error st) as [e st1] eqn:Eo.
  apply IH in H. unfold set_one_prio in Eo. specialize (Hhook p v).
  case_if_in Eo; [injection Eo as <- <-; by destruct H|].
  case_if_in Eo; [injection Eo as <- <-; by destruct H|]. cbv zeta in Eo.
  case_if_in Eo; injection Eo as <- <-.
  - apply c_true_true in Hif1. destruct H; congruence.
  - case_if_in H; bool_hyps; tauto.
Qed.

Lemma set_prio_each_success ps v error st :
  (forall p x, security_task_setnice p x <> - ESRCH) ->
  (set_prio_each ps v error st).1 = 0 ->
  (error = - ESRCH -> ps <> []) /\
  forall p, p ∈ ps -> task_nice (set_prio_each ps v error st).2 p = v.
Proof.
  intros Hhook. revert error st. induction ps as [|p ps IH]; intros error st H.
  { cbn in H. subst. split; [done|]. intros p Hp. by apply not_elem_of_nil in Hp. }
  split; [done|]. intros q Hq. cbn [set_prio_each] in *.
  destruct (set_one_prio p v error st) as [e st1] eqn:Eo.
  destruct (IH e st1 H) as [_ Hrest]. pose proof (set_prio_each_zero ps v e st1 Hhook H) as He.
  destruct (set_prio_each_spec ps v e st1 q) as [_ [Hsame|[Hin Hv]]]; [|done].
  apply elem_of_cons in Hq as [->|Hq]; [|by apply Hrest]. rewrite Hsame.
  unfold set_one_prio in Eo. specialize (Hhook p v).
  case_if_in Eo; [injection Eo as <- <-; by destruct He|].
  case_if_in Eo; [injection Eo as <- <-; by destruct He|]. cbv zeta in Eo.
  case_if_in Eo; injection Eo as <- <-.
  - apply c_true_true in Hif1. destruct He; congruence.
  - cbn. by rewrite Z.eqb_refl.
Qed.

Lemma set_prio_each_refs ps v error d st :
  set_prio_each ps v error (add_user_ref d st) =
  ((set_prio_each ps v error st).1, add_user_ref d (set_prio_each ps v error st).2).
Proof.
  revert error st. induction ps as [|p ps IH]; intros error st; [done|]. cbn [set_prio_each].
  assert (H1 : set_one_prio p v error (add_user_ref d st) =
    ((set_one_prio p v error st).1, add_user_ref d (set_one_prio p v error st).2)).
  { unfold set_one_prio. cbn [task_nice add_user_ref]. cbv zeta. by repeat case_if. }
  rewrite H1. destruct (set_one_prio p v error st) as [e st1]. apply IH.
Qed.

(** Whether [find_user] was used decides whether [free_uid] is. *)
Lemma prio_user_found who kuid found :
  prio_user who = (kuid, Some found) -> found = negb (kuid =? uid (prio_cred prio_current)).
Proof.
  unfold prio_user. cbv zeta. case_if; [intros [= <- <-]; by rewrite Z.eqb_refl|].
  case_if; [destruct (find_user _)|]; intros [= <- <-]; by rewrite Hif0.
Qed.

(** All three kinds of request are the loop over their targets, and the reference on
    the user structure is dropped again. *)
Lemma setpriority_loop which who v st :
  PRIO_PROCESS <= which <= PRIO_USER ->
  let r := set_prio_each (prio_targets which who) (clamp_nice v) (- ESRCH) st in
  let r' := sys_setpriority which who v st in
  r'.1 = r.1 /\ task_nice r'.2 = task_nice r.2 /\ user_refs r'.2 = user_refs st.
Proof.
  intros Hw. cbv zeta. unfold sys_setpriority, prio_targets.
  case_if; [unfold PRIO_PROCESS, PRIO_USER in *; lia|]. clear Hif. cbv zeta. case_if.
  { destruct (if c_true who then _ else _) as [p|]; [|done].
    rewrite set_prio_one. by rewrite set_one_prio_refs. }
  case_if; [by pose proof (set_prio_each_spec (prio_group who) (clamp_nice v) (- ESRCH) st 0) as [Hr _]|].
  destruct (prio_user who) as [kuid [found|]] eqn:Hu; [|done]. apply prio_user_found in Hu as ->.
  pose proof (set_prio_each_spec (user_threads kuid) (clamp_nice v) (- ESRCH) st 0) as [Hr _].
  destruct (negb _).
  - rewrite set_prio_each_refs. cbn. repeat split. lia.
  - by destruct (set_prio_each _ _ _ st).
Qed.

(** Setpriority on a process, a group or a user: nice values stay in -20..19 for
    every thread of the system, only addressed threads change, each to the requested
    value limited to that range, the user structure looked up is released, and when
    the call answers 0 it addressed at least one thread and every addressed thread
    now has that value (one refusal makes the whole call answer an error). *)
Theorem setpriority_contract which who v st :
  prio_wf st -> PRIO_PROCESS <= which <= PRIO_USER ->
  (forall p x, security_task_setnice p x <> - ESRCH) ->
  let '(r, st') := sys_setpriority which who v st in
  prio_wf st' /\ user_refs st' = user_refs st /\
  (forall p, task_nice st' p = task_nice st p \/
     p ∈ prio_targets which who /\ task_nice st' p = clamp_nice v) /\
  (r = 0 -> prio_targets which who <> [] /\
     forall p, p ∈ prio_targets which who -> task_nice st' p = clamp_nice v).
Proof.
  intros Hwf Hw Hhook. pose proof (setpriority_loop which who v st Hw) as Hl. cbv zeta in Hl.
  destruct (sys_setpriority which who v st) as [r st']. cbn [fst snd] in Hl. destruct Hl as (-> & Hn & Hr).
  assert (Hch : forall p, task_nice st' p = task_nice st p \/
     p ∈ prio_targets which who /\ task_nice st' p = clamp_nice v).
  { intros p. rewrite Hn. apply set_prio_each_spec. }
  repeat split; try done.
  1,2: destruct (Hch p) as [->|[_ ->]]; [apply Hwf|apply clamp_nice_range].
  - by apply (set_prio_each_success _ _ _ _ Hhook) in H as [? _]; auto.
  - rewrite Hn. by apply (set_prio_each_success _ _ _ _ Hhook) in H as [_ ?]; auto.
Qed.

Lemma max_prio_spec ps r st :
  (max_prio ps r st = r \/ exists p, p ∈ ps /\ max_prio ps r st = nice_to_rlimit (task_nice st p)) /\
  r <= max_prio ps r st /\ forall p, p ∈ ps -> nice_to_rlimit (task_nice st p) <= max_prio ps r st.
Proof.
  revert r. induction ps as [|p ps IH]; intros r; cbn [max_prio].
  { split; [auto|]. split; [lia|]. intros p Hp. by apply not_elem_of_nil in Hp. }
  set (r' := if r <? _ then _ else _).
  assert (Hr' : r <= r' /\ nice_to_rlimit (task_nice st p) <= r' /\
                (r' = r \/ r' = nice_to_rlimit (task_nice st p)))
    by (unfold r'; case_if; lia).
  destruct (IH r') as ([H|(q & Hq & H)] & Hle & Hall); rewrite ?H in *.
  - split; [destruct Hr' as (_ & _ & [->| ->]); [auto|right; exists p; split; [apply list_elem_of_here|done]]|].
    split; [lia|]. intros q Hq. apply elem_of_cons in Hq as [->|Hq]; [lia|]. specialize (Hall q Hq). lia.
  - split; [right; exists q; split; [by apply list_elem_of_further|done]|].
    split; [lia|]. intros x Hx. apply elem_of_cons in Hx as [->|Hx]; [lia|]. by apply Hall.
Qed.

(** Getpriority answers the highest priority among the addressed threads, as 20
    minus the nice value, a number from 1 to 40, and ESRCH exactly when it addresses
    no thread; it changes nothing. *)
Theorem getpriority_is_maximum which who st :
  prio_wf st -> PRIO_PROCESS <= which <= PRIO_USER ->
  let '(r, st') := sys_getpriority which who st in
  task_nice st' = task_nice st /\ user_refs st' = user_refs st /\
  (prio_targets which who = [] -> r = - ESRCH) /\
  (prio_targets which who <> [] -> 1 <= r <= 40 /\
     (exists p, p ∈ prio_targets which who /\ r = 20 - task_nice st p) /\
     forall p, p ∈ prio_targets which who -> 20 - task_nice st p <= r).
Proof.
  intros Hwf Hw.
  assert (Hmain : forall ps, (ps = [] -> max_prio ps (- ESRCH) st = - ESRCH) /\
    (ps <> [] -> 1 <= max_prio ps (- ESRCH) st <= 40 /\
     (exists p, p ∈ ps /\ max_prio ps (- ESRCH) st = 20 - task_nice st p) /\
     forall p, p ∈ ps -> 20 - task_nice st p <= max_prio ps (- ESRCH) st)).
  { intros ps. split; [intros ->; done|]. intros Hne. destruct ps as [|q ps]; [done|].
    destruct (max_prio_spec (q :: ps) (- ESRCH) st) as (Hmax & _ & Hall).
    unfold nice_to_rlimit, MAX_NICE in *. pose proof (Hall q (list_elem_of_here _ _)) as Hq.
    unfold prio_wf, MIN_NICE, MAX_NICE in Hwf. pose proof (Hwf q).
    destruct Hmax as [Hm|(p & Hp & Hm)]; [change (- ESRCH) with (-3) in *; lia|].
    pose proof (Hwf p). split; [lia|]. split; [exists p; split; [done|lia]|].
    intros x Hx. specialize (Hall x Hx). lia. }
  unfold sys_getpriority, prio_targets. case_if; [unfold PRIO_PROCESS, PRIO_USER in *; lia|].
  clear Hif. cbv zeta. case_if; [destruct (if c_true who then _ else _) as [p|]; auto|].
  case_if; [auto|].
  destruct (prio_user who) as [kuid [found|]] eqn:Hu; [|auto]. apply prio_user_found in Hu as ->.
  destruct (negb _); [|auto]. cbn.
  assert (Hst : forall ps r, max_prio ps r (add_user_ref 1 st) = max_prio ps r st).
  { induction ps as [|p ps IH]; intros r; [done|]. apply IH. }
  rewrite Hst. repeat split; try lia; apply Hmain; done.
Qed.

End theorems.

(** ** A concrete system: threads 1 and 2, the caller is 1 *)

Definition demo_prio_env : PrioEnv := {|
  prio_current := 1; prio_cred := fun _ => cur (demo_cred 1000 1000 1000);
  prio_find_task := fun p => if (p =? 1) || (p =? 2) then Some p else None;
  prio_find_vpid := fun p => Some p; prio_task_pgrp := fun _ => Some 1;
  pgrp_threads := fun _ => [1; 2]; all_threads := [1; 2]; task_pid_vnr := fun p => p;
  prio_make_kuid := fun _ x => x; find_user := fun _ => Some 0;
  prio_ns_capable := fun _ _ => false; can_nice := fun _ _ => false;
  security_task_setnice := fun _ _ => 0
|}.

Definition demo_prio : prio_state := {| task_nice := fun p => if p =? 1 then 0 else 5; user_refs := 0 |}.

Lemma demo_prio_wf : prio_wf demo_prio.
Proof. intros p. unfold demo_prio, MIN_NICE, MAX_NICE. cbn. case_if; lia. Qed.

Lemma setpriority_contract_witness :
  let '(r, st') := sys_setpriority (E := demo_prio_env) PRIO_PGRP 0 100 demo_prio in
  r = 0 /\ task_nice st' 2 = 19.
Proof.
  pose proof (setpriority_contract (E := demo_prio_env) PRIO_PGRP 0 100 demo_prio demo_prio_wf) as H.
  assert (H1 : PRIO_PROCESS <= PRIO_PGRP <= PRIO_USER) by (split; discriminate).
  assert (H2 : forall p x, security_task_setnice (PrioEnv := demo_prio_env) p x <> - ESRCH) by discriminate.
  specialize (H H1 H2).
  destruct (sys_setpriority PRIO_PGRP 0 100 demo_prio) as [r st'] eqn:Es.
  assert (r = 0) as -> by (vm_compute in Es; by injection Es).
  split; [done|]. destruct H as (_ & _ & _ & H). destruct (H eq_refl) as [_ Hall].
  apply (Hall 2). vm_compute. apply list_elem_of_further, list_elem_of_here.
Defined.

Lemma getpriority_is_maximum_witness :
  (sys_getpriority (E := demo_prio_env) PRIO_PGRP 0 demo_prio).1 = 20.
Proof.
  pose proof (getpriority_is_maximum (E := demo_prio_env) PRIO_PGRP 0 demo_prio demo_prio_wf) as H.
  assert (H1 : PRIO_PROCESS <= PRIO_PGRP <= PRIO_USER) by (split; discriminate).
  specialize (H H1). cbv beta iota zeta delta [sys_getpriority] in H. destruct H as (_ & _ & _ & H).
  destruct H as (_ & (p & _ & Hr) & Hall); [discriminate|].
  reflexivity.
Defined.
