(* ===== verification/Usage.v ===== *)
(** * Resource reports (kernel/sys.c: times, getrusage, umask, getcpu, sysinfo)

    Counters are unsigned 64-bit words.  Clock conversion, the cputime accounting,
    [si_meminfo]/[si_swapinfo], the processor id and the layouts of the structures of
    the native ABI are code outside the repository: parameters of the operations that
    use them.  The 32-bit sysinfo structure is declared in sys.c and is laid out byte
    by byte. *)
From S2P Require Import Prelude UserMem.

(** ** CPU times *)

Record tms := { tms_utime : Z; tms_stime : Z; tms_cutime : Z; tms_cstime : Z }.

Class ClockEnv := {
  nsec_to_clock_t : Z -> Z;
  jiffies_64_to_clock_t : Z -> Z;
  clock_t_to_jiffies : Z -> Z;
  compat_jiffies_to_clock_t : Z -> Z;
  get_jiffies_64 : Z;
  (** [thread_group_cputime_adjusted(current)] and [task_cputime_adjusted(current)] *)
  thread_group_cputime : Z * Z;
  task_cputime : Z * Z;
  ns_to_timeval : Z -> Z * Z
}.

Section times.
Context {C : ClockEnv} {U : UserAccess}.

Definition do_sys_times (cutime cstime : Z) : tms :=
  let '(tgutime, tgstime) := thread_group_cputime in
  {| tms_utime := nsec_to_clock_t tgutime; tms_stime := nsec_to_clock_t tgstime;
     tms_cutime := nsec_to_clock_t cutime; tms_cstime := nsec_to_clock_t cstime |}.

Definition tms_bytes (t : tms) : list Z :=
  words_bytes [tms_utime t; tms_stime t; tms_cutime t; tms_cstime t].

Definition sys_times (tbuf cutime cstime : Z) (um : umem) : Z * umem :=
  let ok um := (i64 (jiffies_64_to_clock_t get_jiffies_64), um) in
  if c_true tbuf then
    let '(l, um) := copy_to_user tbuf (tms_bytes (do_sys_times cutime cstime)) um in
    if c_true l then (- EFAULT, um) else ok um
  else ok um.

Definition clock_t_to_compat_clock_t (x : Z) : Z := compat_jiffies_to_clock_t (clock_t_to_jiffies x).

Definition compat_sys_times (tbuf cutime cstime : Z) (um : umem) : Z * umem :=
  let ok um := (compat_jiffies_to_clock_t get_jiffies_64, um) in
  if c_true tbuf then
    let t := do_sys_times cutime cstime in
    let bs := le_bytes 4 (clock_t_to_compat_clock_t (tms_utime t))
              ++ le_bytes 4 (clock_t_to_compat_clock_t (tms_stime t))
              ++ le_bytes 4 (clock_t_to_compat_clock_t (tms_cutime t))
              ++ le_bytes 4 (clock_t_to_compat_clock_t (tms_cstime t)) in
    let '(l, um) := copy_to_user tbuf bs um in
    if c_true l then (- EFAULT, um) else ok um
  else ok um.

End times.

(** ** getrusage *)

Definition RUSAGE_SELF := 0.
Definition RUSAGE_CHILDREN := -1.
Definition RUSAGE_BOTH := -2.
Definition RUSAGE_THREAD := 1.

(** The six event counters of a thread, of a signal structure, of a report. *)
Record counters := { nvcsw : Z; nivcsw : Z; minflt : Z; majflt : Z; inblock : Z; oublock : Z }.

Definition zero_counters : counters :=
  {| nvcsw := 0; nivcsw := 0; minflt := 0; majflt := 0; inblock := 0; oublock := 0 |}.

Definition add_counters (a b : counters) : counters :=
  {| nvcsw := u64 (nvcsw a + nvcsw b); nivcsw := u64 (nivcsw a + nivcsw b);
     minflt := u64 (minflt a + minflt b); majflt := u64 (majflt a + majflt b);
     inblock := u64 (inblock a + inblock b); oublock := u64 (oublock a + oublock b) |}.

(** What [sig] holds: counters of exited threads and of reaped children, the live
    threads. *)
Record signal_stats := {
  own : counters; children : counters; live : list counters;
  maxrss : Z; cmaxrss : Z; cutime : Z; cstime : Z
}.

Record rusage := { ru : counters; ru_maxrss : Z; ru_utime : Z * Z; ru_stime : Z * Z }.

Definition accumulate_thread_rusage (t r : counters) : counters := add_counters r t.

(** The switch of getrusage: counters, utime, stime, maxrss. *)
Definition rusage_collect (who : Z) (sig : signal_stats) : counters * Z * Z * Z :=
  let '(r, utime, stime, rss) :=
    if (who =? RUSAGE_BOTH) || (who =? RUSAGE_CHILDREN)
    then (children sig, cutime sig, cstime sig, cmaxrss sig) else (zero_counters, 0, 0, 0) in
  if who =? RUSAGE_CHILDREN then (r, utime, stime, rss)
  else
    let r := add_counters r (own sig) in
    let rss := if rss <? maxrss sig then maxrss sig else rss in
    (fold_left (fun r t => accumulate_thread_rusage t r) (live sig) r, utime, stime, rss).

Section getrusage.
Context {C : ClockEnv}.

(** [thread]: the counters of [p]; [hiwater]: the peak of its mm, if it has one;
    [sig1] is what the optimistic pass read, [retry] what need_seqretry answered and
    [sig2] what the locked pass read. *)
Definition getrusage (who : Z) (thread : counters) (sig1 : signal_stats) (retry : bool)
    (sig2 : signal_stats) (hiwater : option Z) : rusage :=
  let finish '(r, utime, stime, rss) (with_mm : bool) :=
    let rss := match hiwater with
               | Some h => if with_mm && (rss <? h) then h else rss
               | None => rss
               end in
    {| ru := r; ru_maxrss := u64 (rss * (PAGE_SIZE / 1024));
       ru_utime := ns_to_timeval utime; ru_stime := ns_to_timeval stime |} in
  if who =? RUSAGE_THREAD then
    let '(utime, stime) := task_cputime in
    finish (accumulate_thread_rusage thread zero_counters, utime, stime, maxrss sig1) true
  else
    let '(r, utime, stime, rss) := rusage_collect who (if retry then sig2 else sig1) in
    if who =? RUSAGE_CHILDREN then finish (r, utime, stime, rss) false
    else
      let '(tgutime, tgstime) := thread_group_cputime in
      finish (r, u64 (utime + tgutime), u64 (stime + tgstime), rss) true.

Definition getrusage_valid (who : Z) : bool :=
  (who =? RUSAGE_SELF) || (who =? RUSAGE_CHILDREN) || (who =? RUSAGE_THREAD).

End getrusage.

(** [struct rusage] and [struct sysinfo] as the bytes of the native ABI, and
    [put_compat_rusage] (kernel/compat.c). *)
Class ReportAbi {C : ClockEnv} {U : UserAccess} (report : Type) := {
  rusage_bytes : rusage -> list Z;
  sysinfo_bytes : report -> list Z;
  put_compat_rusage : rusage -> Z -> umem -> Z * umem
}.

(** What the two getrusage calls have in common: the check of [who] before
    anything is read. *)
Definition getrusage_call `{ReportAbi report} (deliver : rusage -> umem -> Z * umem) (who : Z)
    (thread : counters) (sig1 : signal_stats) (retry : bool) (sig2 : signal_stats)
    (hiwater : option Z) (um : umem) : Z * umem :=
  if getrusage_valid who then deliver (getrusage who thread sig1 retry sig2 hiwater) um
  else (- EINVAL, um).

Definition sys_getrusage `{ReportAbi report} (who ru : Z) (thread : counters) (sig1 : signal_stats)
    (retry : bool) (sig2 : signal_stats) (hiwater : option Z) (um : umem) : Z * umem :=
  getrusage_call (fun r um => let '(l, um) := copy_to_user ru (rusage_bytes r) um in
                              ((if c_true l then - EFAULT else 0), um))
    who thread sig1 retry sig2 hiwater um.

Definition compat_sys_getrusage `{ReportAbi report} (who ru : Z) (thread : counters)
    (sig1 : signal_stats) (retry : bool) (sig2 : signal_stats) (hiwater : option Z)
    (um : umem) : Z * umem :=
  getrusage_call (fun r um => put_compat_rusage r ru um) who thread sig1 retry sig2 hiwater um.

(** ** umask and getcpu *)

Definition S_IRWXUGO := 511.

(** The new [fs->umask] and the answer. *)
Definition sys_umask (mask umask : Z) : Z * Z := (umask, Z.land mask S_IRWXUGO).

Definition sys_getcpu `{UserAccess} (cpup nodep cpu node : Z) (um : umem) : Z * umem :=
  let '(err, um) := if c_true cpup then put_user 4 cpu cpup um else (0, um) in
  let '(err2, um) := if c_true nodep then put_user 4 node nodep um else (0, um) in
  ((if c_true (Z.lor err err2) then - EFAULT else 0), um).

(** ** sysinfo *)

Record sysinfo := {
  uptime : Z; loads : list Z;
  totalram : Z; freeram : Z; sharedram : Z; bufferram : Z; totalswap : Z; freeswap : Z;
  si_procs : Z; totalhigh : Z; freehigh : Z; mem_unit : Z
}.

Definition map_mem (f : Z -> Z) (unit : Z) (i : sysinfo) : sysinfo :=
  {| uptime := uptime i; loads := loads i;
     totalram := f (totalram i); freeram := f (freeram i); sharedram := f (sharedram i);
     bufferram := f (bufferram i); totalswap := f (totalswap i); freeswap := f (freeswap i);
     si_procs := si_procs i; totalhigh := f (totalhigh i); freehigh := f (freehigh i);
     mem_unit := unit |}.

(** The shifting loop: the number of bits, or [None] when the total overflowed.
    [mem_unit] has 32 bits, so it reaches 1 after at most 31 halvings. *)
Fixpoint count_bits (fuel : nat) (unit mem_total bitcount : Z) : option Z :=
  match fuel with
  | O => None
  | S fuel' =>
      if 1 <? unit then
        let sav_total := mem_total in
        let mem_total := u64 (Z.shiftl mem_total 1) in
        if mem_total <? sav_total then None
        else count_bits fuel' (Z.shiftr unit 1) mem_total (bitcount + 1)
      else Some bitcount
  end.

(** [i] is the structure after si_meminfo and si_swapinfo. *)
Definition do_sysinfo (i : sysinfo) : sysinfo :=
  let mem_total := u64 (totalram i + totalswap i) in
  if (mem_total <? totalram i) || (mem_total <? totalswap i) then i
  else
    match count_bits 32 (mem_unit i) mem_total 0 with
    | None => i
    | Some bitcount => map_mem (fun v => u64 (Z.shiftl v bitcount)) 1 i
    end.

(** The first assignments of do_sysinfo. *)
Definition sysinfo_uptime (tv_sec tv_nsec : Z) : Z := tv_sec + (if c_true tv_nsec then 1 else 0).

(** compat: [while (s.mem_unit < PAGE_SIZE) { s.mem_unit <<= 1; bitcount++; }] *)
Fixpoint grow_unit (fuel : nat) (unit bitcount : Z) : Z * Z :=
  match fuel with
  | O => (unit, bitcount)
  | S fuel' =>
      if unit <? PAGE_SIZE then grow_unit fuel' (u32 (Z.shiftl unit 1)) (bitcount + 1)
      else (unit, bitcount)
  end.

Definition upper_32_bits (v : Z) : Z := Z.shiftr v 32.

Definition compat_scale (s : sysinfo) : sysinfo :=
  if c_true (upper_32_bits (totalram s)) || c_true (upper_32_bits (totalswap s)) then
    let '(unit, bitcount) := grow_unit 12 (mem_unit s) 0 in
    map_mem (fun v => Z.shiftr v bitcount) unit s
  else s.

(** The assignments to the 32-bit structure. *)
Definition compat_sysinfo (s : sysinfo) : sysinfo :=
  let s := compat_scale s in
  {| uptime := i32 (uptime s); loads := u32 <$> loads s;
     totalram := u32 (totalram s); freeram := u32 (freeram s); sharedram := u32 (sharedram s);
     bufferram := u32 (bufferram s); totalswap := u32 (totalswap s); freeswap := u32 (freeswap s);
     si_procs := u16 (si_procs s); totalhigh := u32 (totalhigh s); freehigh := u32 (freehigh s);
     mem_unit := mem_unit s |}.

Definition sys_sysinfo_compat (i : sysinfo) : sysinfo := compat_sysinfo (do_sysinfo i).

(** What do_sysinfo fills in before the scaling: [tp] the boot time, [avenrun] the
    three load averages as get_avenrun shifts them, [nr_threads] the number of
    threads (a u16 member); [meminfo] is si_meminfo followed by si_swapinfo. *)
Definition sysinfo_fill (meminfo : sysinfo -> sysinfo) (tp : Z * Z) (avenrun : list Z)
    (nr_threads : Z) : sysinfo :=
  meminfo {| uptime := sysinfo_uptime tp.1 tp.2; loads := avenrun;
             totalram := 0; freeram := 0; sharedram := 0; bufferram := 0; totalswap := 0;
             freeswap := 0; si_procs := u16 nr_threads; totalhigh := 0; freehigh := 0;
             mem_unit := 0 |}.

Definition sys_sysinfo `{ReportAbi sysinfo} (info : Z) (i : sysinfo) (um : umem) : Z * umem :=
  let '(l, um) := copy_to_user info (sysinfo_bytes (do_sysinfo i)) um in
  if c_true l then (- EFAULT, um) else (0, um).

(** [struct compat_sysinfo], in the order of its members: an s32, u32s, a u16 with
    its padding, u32s and the 8 bytes of [_f]. *)
Definition compat_sysinfo_bytes (s : sysinfo) : list Z :=
  le_bytes 4 (uptime s) ++ mjoin (le_bytes 4 <$> loads s)
  ++ le_bytes 4 (totalram s) ++ le_bytes 4 (freeram s) ++ le_bytes 4 (sharedram s)
  ++ le_bytes 4 (bufferram s) ++ le_bytes 4 (totalswap s) ++ le_bytes 4 (freeswap s)
  ++ le_bytes 2 (si_procs s) ++ le_bytes 2 0
  ++ le_bytes 4 (totalhigh s) ++ le_bytes 4 (freehigh s) ++ le_bytes 4 (mem_unit s) ++ repeat 0 8.

Definition compat_sys_sysinfo `{UserAccess} (info : Z) (i : sysinfo) (um : umem) : Z * umem :=
  let '(l, um) := copy_to_user info (compat_sysinfo_bytes (sys_sysinfo_compat i)) um in
  if c_true l then (- EFAULT, um) else (0, um).

(** ** Theorems on sysinfo *)

(** Every memory member lies between 0 and the total it is part of. *)
Definition sysinfo_wf (i : sysinfo) : Prop :=
  is_u 64 (totalram i) /\ is_u 64 (totalswap i) /\
  0 <= freeram i <= totalram i /\ 0 <= sharedram i <= totalram i /\
  0 <= bufferram i <= totalram i /\ 0 <= totalhigh i <= totalram i /\
  0 <= freehigh i <= totalram i /\ 0 <= freeswap i <= totalswap i.

Lemma count_bits_spec fuel k total b :
  (k < fuel)%nat -> is_u 64 total ->
  count_bits fuel (2 ^ Z.of_nat k) total b =
  if total * 2 ^ Z.of_nat k <? 2 ^ 64 then Some (b + Z.of_nat k) else None.
Proof.
  revert k total b. induction fuel as [|fuel IH]; intros k total b Hk Ht; [lia|].
  cbn [count_bits]. unfold is_u in Ht. destruct k as [|k].
  { change (2 ^ Z.of_nat 0) with 1. change (1 <? 1) with false. cbv iota. rewrite Z.mul_1_r.
    case_if; [f_equal; lia|lia]. }
  rewrite Nat2Z.inj_succ, Z.pow_succ_r by lia.
  assert (0 < 2 ^ Z.of_nat k) by lia. case_if; [|lia].
  rewrite Z.shiftl_mul_pow2, Z.shiftr_div_pow2 by lia. change (2 ^ 1) with 2.
  rewrite (Z.mul_comm 2 (2 ^ Z.of_nat k)), Z.div_mul by lia. cbv zeta.
  destruct (Z_lt_le_dec total (2 ^ 63)) as [Hs|Hb].
  - rewrite wrapU_id by (split; lia). case_if; [lia|]. rewrite IH by (try split; lia).
    replace (total * 2 * 2 ^ Z.of_nat k) with (total * (2 ^ Z.of_nat k * 2)) by ring.
    case_if; [f_equal; lia|done].
  - assert (u64 (total * 2) = total * 2 - 2 ^ 64) as ->
      by (unfold wrapU; symmetry; apply Z.mod_unique with 1; lia).
    case_if; [|lia]. case_if; [|done]. nia.
Qed.

(** Scaling to bytes, as the comment in do_sysinfo asks for: exactly when RAM plus
    swap in bytes fits an unsigned long. *)
Lemma do_sysinfo_spec k i :
  (k < 32)%nat -> mem_unit i = 2 ^ Z.of_nat k -> sysinfo_wf i ->
  do_sysinfo i =
  if (totalram i + totalswap i) * 2 ^ Z.of_nat k <? 2 ^ 64
  then map_mem (fun v => v * 2 ^ Z.of_nat k) 1 i else i.
Proof.
  intros Hk Hu (Hr & Hs & Hf). unfold do_sysinfo. cbv zeta. rewrite Hu.
  assert (0 < 2 ^ Z.of_nat k) by lia. unfold is_u in *.
  destruct (Z_lt_le_dec (totalram i + totalswap i) (2 ^ 64)) as [Hsm|Hbig].
  - rewrite wrapU_id by (split; lia). case_if; [lia|]. rewrite count_bits_spec by (try split; lia).
    case_if; [|done]. rewrite Z.add_0_l.
    assert (Hv : forall v, 0 <= v <= totalram i \/ 0 <= v <= totalswap i ->
                 u64 (Z.shiftl v (Z.of_nat k)) = v * 2 ^ Z.of_nat k).
    { intros v Hv. rewrite Z.shiftl_mul_pow2 by lia. apply wrapU_id. split; nia. }
    unfold map_mem. f_equal; apply Hv; lia.
  - assert (u64 (totalram i + totalswap i) = totalram i + totalswap i - 2 ^ 64) as ->
      by (unfold wrapU; symmetry; apply Z.mod_unique with 1; lia).
    case_if; [|lia]. case_if; [|done]. nia.
Qed.

Lemma u32_page_roundtrip v : 0 <= v < 2 ^ 32 -> u32 (Z.shiftr (v * 4096) 12) = v.
Proof.
  intros H. rewrite Z.shiftr_div_pow2 by lia. change (2 ^ 12) with 4096. rewrite Z.div_mul by lia.
  by apply wrapU_id.
Qed.

(** The members of the report that hold memory sizes. *)
Definition mem_fields (i : sysinfo) : list Z :=
  [totalram i; freeram i; sharedram i; bufferram i; totalswap i; freeswap i; totalhigh i; freehigh i].

(** Sysinfo in both word sizes: with memory counted in pages, the native call
    reports bytes in unit 1 exactly when RAM plus swap in bytes fits 64 bits and the
    page counts unchanged otherwise; and on a machine with less than 2^32 pages of
    RAM and of swap every memory figure the 32-bit call reports fits its member and,
    multiplied by the reported unit, is the exact number of bytes. *)
Theorem sysinfo_exact i :
  mem_unit i = PAGE_SIZE -> sysinfo_wf i ->
  do_sysinfo i = (if (totalram i + totalswap i) * PAGE_SIZE <? 2 ^ 64
                  then map_mem (fun v => v * PAGE_SIZE) 1 i else i) /\
  (totalram i < 2 ^ 32 -> totalswap i < 2 ^ 32 ->
   let c := sys_sysinfo_compat i in
   Forall (fun v => 0 <= v < 2 ^ 32) (mem_fields c) /\
   (fun v => v * mem_unit c) <$> mem_fields c = (fun v => v * PAGE_SIZE) <$> mem_fields i).
Proof.
  intros Hu Hwf. pose proof (do_sysinfo_spec 12 i ltac:(lia) Hu Hwf) as Hd.
  change (2 ^ Z.of_nat 12) with PAGE_SIZE in Hd. split; [exact Hd|].
  intros Hram Hswap. cbv zeta. destruct Hwf as (Hr & Hs & Hf). unfold is_u, PAGE_SIZE in *.
  assert (Hfit : ((totalram i + totalswap i) * 4096 <? 2 ^ 64) = true) by lia.
  rewrite Hfit in Hd. unfold sys_sysinfo_compat, compat_sysinfo, compat_scale. rewrite Hd.
  unfold upper_32_bits. rewrite !Z.shiftr_div_pow2 by lia. cbn [map_mem totalram totalswap mem_unit].
  case_if.
  - change (grow_unit 12 1 0) with (4096, 12). unfold mem_fields. cbn [map_mem totalram freeram sharedram
      bufferram totalswap freeswap totalhigh freehigh mem_unit fmap list_fmap].
    rewrite !u32_page_roundtrip by lia. split; [repeat constructor; lia|done].
  - apply orb_false_iff in Hif as [H1 H2]. apply c_true_false in H1, H2.
    assert (totalram i * 4096 < 2 ^ 32 /\ totalswap i * 4096 < 2 ^ 32) as [B1 B2] by zlia.
    unfold mem_fields. cbn [map_mem totalram freeram sharedram
      bufferram totalswap freeswap totalhigh freehigh mem_unit fmap list_fmap].
    rewrite !wrapU_id by (split; lia). split; [repeat constructor; lia|].
    by rewrite !Z.mul_1_r.
Qed.

(** The unit the 32-bit call reports. *)
Lemma compat_unit i :
  mem_unit i = PAGE_SIZE -> sysinfo_wf i -> totalram i < 2 ^ 32 -> totalswap i < 2 ^ 32 ->
  is_u 32 (mem_unit (sys_sysinfo_compat i)).
Proof.
  intros Hu Hwf Hr Hs. pose proof (do_sysinfo_spec 12 i ltac:(lia) Hu Hwf) as Hd.
  destruct Hwf as (Hr0 & Hs0 & _). unfold is_u in *.
  assert (((totalram i + totalswap i) * 2 ^ Z.of_nat 12 <? 2 ^ 64) = true) as Hfit
    by (change (2 ^ Z.of_nat 12) with 4096; lia).
  rewrite Hfit in Hd. unfold sys_sysinfo_compat, compat_sysinfo, compat_scale. rewrite Hd.
  cbn [map_mem mem_unit totalram totalswap]. change (grow_unit 12 1 0) with (4096, 12). cbv iota beta.
  case_if; cbn [map_mem mem_unit]; lia.
Qed.

(** 16 GiB of RAM, 2 GiB of swap, in 4 KiB pages. *)
Definition demo_sysinfo : sysinfo := {|
  uptime := 100; loads := [1; 2; 3]; totalram := 4194304; freeram := 1000; sharedram := 5; bufferram := 6;
  totalswap := 524288; freeswap := 0; si_procs := 200; totalhigh := 0; freehigh := 0; mem_unit := 4096 |}.

Lemma sysinfo_exact_witness :
  (fun v => v * mem_unit (sys_sysinfo_compat demo_sysinfo)) <$> mem_fields (sys_sysinfo_compat demo_sysinfo)
  = [17179869184; 4096000; 20480; 24576; 2147483648; 0; 0; 0].
Proof.
  refine (proj2 (proj2 (sysinfo_exact demo_sysinfo eq_refl _) eq_refl eq_refl)).
  unfold sysinfo_wf, is_u. cbn. lia.
Defined.

(** ** getrusage: both is children plus self *)

Lemma add_counters_assoc a b c :
  add_counters (add_counters a b) c = add_counters a (add_counters b c).
Proof.
  unfold add_counters. cbn. f_equal; rewrite wrapU_add, (Z.add_comm _ (u64 _)), wrapU_add; f_equal; lia.
Qed.

Lemma fold_add_counters ts r :
  fold_left (fun r t => accumulate_thread_rusage t r) ts r =
  match ts with
  | [] => r
  | t :: ts' => add_counters r (fold_left (fun r t => accumulate_thread_rusage t r) ts' t)
  end.
Proof.
  destruct ts as [|t ts]; [done|]. cbn [fold_left]. unfold accumulate_thread_rusage at 2.
  revert r t. induction ts as [|t' ts IH]; intros r t; [done|]. cbn [fold_left].
  unfold accumulate_thread_rusage at 2 4. rewrite add_counters_assoc. apply IH.
Qed.

(** On one snapshot of the counters, what RUSAGE_BOTH counts is what
    RUSAGE_CHILDREN and RUSAGE_SELF count together, modulo the word size, with the
    larger of the two resident-set peaks. *)
Theorem rusage_both_is_sum sig :
  let '(rb, _, _, mb) := rusage_collect RUSAGE_BOTH sig in
  let '(rc, _, _, mc) := rusage_collect RUSAGE_CHILDREN sig in
  let '(rs, _, _, ms) := rusage_collect RUSAGE_SELF sig in
  rb = add_counters rc rs /\ mb = Z.max mc (maxrss sig) /\ ms = Z.max 0 (maxrss sig).
Proof.
  unfold rusage_collect. cbn [Z.eqb RUSAGE_BOTH RUSAGE_CHILDREN RUSAGE_SELF orb Pos.eqb].
  split; [|split; [case_if; lia|case_if; lia]].
  rewrite (fold_add_counters _ (add_counters (children sig) _)), (fold_add_counters _ (add_counters zero_counters _)).
  assert (Hz : forall c d, add_counters d (add_counters zero_counters c) = add_counters d c).
  { intros c d. rewrite <- add_counters_assoc. unfold add_counters. cbn.
    f_equal; rewrite Z.add_0_r, wrapU_add; done. }
  destruct (live sig) as [|t ts]; [by rewrite Hz|].
  by rewrite (add_counters_assoc zero_counters), Hz, add_counters_assoc.
Qed.

(** ** The reports in user memory *)

(** An unknown [who] is refused before the caller's memory or the counters are
    touched, in both calls. *)
Lemma getrusage_refuses `{ReportAbi report} who ru thread sig1 retry sig2 hiwater um :
  who <> RUSAGE_SELF -> who <> RUSAGE_CHILDREN -> who <> RUSAGE_THREAD ->
  sys_getrusage who ru thread sig1 retry sig2 hiwater um = (- EINVAL, um) /\
  compat_sys_getrusage who ru thread sig1 retry sig2 hiwater um = (- EINVAL, um).
Proof.
  intros H1 H2 H3. unfold sys_getrusage, compat_sys_getrusage, getrusage_call.
  assert (getrusage_valid who = false) as -> by (unfold getrusage_valid; lia). done.
Qed.

(** The 32-bit word at offset [off] of the report. *)
Definition word_at (off : nat) (bs : list Z) : Z := le_val (slice off 4 bs).

(** What a 32-bit program finds at the offsets of [struct compat_sysinfo]. *)
Definition compat_mem_words (bs : list Z) : list Z :=
  (fun off => word_at off bs) <$> [16; 20; 24; 28; 32; 36; 44; 48]%nat.

Lemma compat_layout s :
  length (loads s) = 3%nat -> Forall (is_u 32) (mem_fields s) -> is_u 32 (mem_unit s) ->
  length (compat_sysinfo_bytes s) = 64%nat /\
  compat_mem_words (compat_sysinfo_bytes s) = mem_fields s /\
  word_at 52 (compat_sysinfo_bytes s) = mem_unit s.
Proof.
  intros Hl Hm Hu. destruct s as [up ls a b c d e f pr g h u]. cbn in Hl.
  destruct ls as [|l1 [|l2 [|l3 [|]]]]; try done. cbn [mem_unit] in Hu.
  unfold mem_fields in *. cbn [totalram freeram sharedram bufferram totalswap freeswap totalhigh freehigh] in *.
  rewrite !Forall_cons in Hm. destruct Hm as (H1 & H2 & H3 & H4 & H5 & H6 & H7 & H8 & _).
  split; [done|]. split.
  - transitivity ((fun v => le_val (le_bytes 4 v)) <$> [a; b; c; d; e; f; g; h]); [reflexivity|].
    cbn [fmap list_fmap]. by rewrite !le_val_u32.
  - transitivity (le_val (le_bytes 4 u)); [reflexivity|by apply le_val_u32].
Qed.

(** The 32-bit report as its reader sees it: with memory counted in pages, on a
    machine with less than 2^32 pages of RAM and of swap, the call that succeeds
    leaves 64 bytes at [info], and the memory words at their offsets, multiplied by
    the unit at offset 52, are the exact sizes in bytes; a failure is EFAULT; memory
    outside the 64 bytes is not written in any case. *)
Lemma compat_sysinfo_delivered `{UserAccess} info i um r um' :
  mem_unit i = PAGE_SIZE -> sysinfo_wf i -> length (loads i) = 3%nat ->
  totalram i < 2 ^ 32 -> totalswap i < 2 ^ 32 ->
  compat_sys_sysinfo info i um = (r, um') ->
  (r = - EFAULT \/
   r = 0 /\ exists bs, uread um' info 64 = Some bs /\
     (fun v => v * word_at 52 bs) <$> compat_mem_words bs = (fun v => v * PAGE_SIZE) <$> mem_fields i) /\
  forall a, a < info \/ info + 64 <= a -> peek um' a = peek um a.
Proof.
  intros Hu Hwf Hl Hr Hs Hc.
  destruct (proj2 (sysinfo_exact i Hu Hwf) Hr Hs) as (Hf & Hx).
  pose proof (compat_unit i Hu Hwf Hr Hs) as Hm.
  set (c := sys_sysinfo_compat i) in *.
  destruct (compat_layout c) as (Hlen & Hwords & Hunit).
  { subst c. unfold sys_sysinfo_compat, compat_sysinfo. cbn [loads]. rewrite length_fmap.
    unfold compat_scale. case_if; [destruct (grow_unit _ _ _)|];
      unfold do_sysinfo; cbv zeta; repeat case_match; exact Hl. }
  { exact Hf. } { exact Hm. }
  unfold compat_sys_sysinfo in Hc. fold c in Hc.
  destruct (copy_to_user info (compat_sysinfo_bytes c) um) as [l um1] eqn:E.
  assert (um1 = um') as -> by (destruct (c_true l); congruence).
  split.
  - destruct (c_true l) eqn:El; [left; congruence|]. right. apply c_true_false in El. subst l.
    split; [congruence|]. exists (compat_sysinfo_bytes c). split.
    + rewrite <- Hlen. by apply copy_to_user_uread with um.
    + by rewrite Hwords, Hunit.
  - intros a Ha. apply (copy_to_user_frame _ _ _ _ _ _ E). by rewrite Hlen.
Qed.
