(* ===== verification/WalkTree.v ===== *)
(** * The process-tree walk (kernel/fork.c: walk_process_tree)

    The iterative walk over threads, their children and back up through
    [real_parent] and [group_leader], as a machine whose configurations are the
    local variables of the function, and its equivalence with a recursive
    depth-first traversal: the walk terminates, calls the visitor on the same
    processes in the same order and stops at the same point.  The visitor of
    kernel/sys.c, [propagate_has_child_subreaper], is an instance. *)
From S2P Require Import Prelude.

(** What [list_for_each_entry] visits after entry [x] of list [l]. *)
Fixpoint after (x : Z) (l : list Z) : list Z :=
  match l with
  | [] => []
  | y :: l' => if y =? x then l' else after x l'
  end.

(** The links of the task structures. *)
Class ProcTree := {
  threads_of : Z -> list Z;       (** for_each_thread(leader, _) *)
  children_of : Z -> list Z;      (** &parent->children *)
  real_parent : Z -> Z;
  group_leader_of : Z -> Z
}.

Section walk.
Context {T : ProcTree} {S : Type} (visitor : Z -> S -> Z * S) (top : Z).

(** At [Loop leader cs ts]: [cs] are the children of the current thread still to be
    visited, [ts] the threads of [leader] still to come. *)
Inductive config :=
| Loop (leader : Z) (cs ts : list Z) (s : S)
| Out (s : S).

Definition walk_step (c : config) : config :=
  match c with
  | Out s => Out s
  | Loop leader (child :: cs) ts s =>
      let '(res, s) := visitor child s in
      if c_true res then
        if res <? 0 then Out s
        else Loop child [] (threads_of child) s          (* leader = child; goto down *)
      else Loop leader cs ts s
  | Loop leader [] (parent :: ts) s => Loop leader (children_of parent) ts s
  | Loop leader [] [] s =>
      if negb (leader =? top) then                       (* goto up *)
        let child := leader in
        let parent := real_parent child in
        let leader := group_leader_of parent in
        Loop leader (after child (children_of parent)) (after parent (threads_of leader)) s
      else Out s
  end.

Fixpoint walk_loop (fuel : nat) (c : config) : option S :=
  match c with
  | Out s => Some s
  | _ => match fuel with O => None | Datatypes.S fuel' => walk_loop fuel' (walk_step c) end
  end.

(** ** The tree and its recursive traversal *)

(** The children of a process thread by thread: [NextThread t f] starts the list of
    thread [t], [Child c sub f] is a child with its own subtree [sub]. *)
Inductive forest :=
| Empty
| NextThread (t : Z) (f : forest)
| Child (c : Z) (sub : forest) (f : forest).

Fixpoint cur_kids (f : forest) : list Z :=
  match f with
  | Child c _ f' => c :: cur_kids f'
  | _ => []
  end.

Fixpoint rest_threads (f : forest) : list Z :=
  match f with
  | Empty => []
  | NextThread t f' => t :: rest_threads f'
  | Child _ _ f' => rest_threads f'
  end.

(** The links describe the forest [f] of process [p], seen from thread [t]. *)
Fixpoint represents (p t : Z) (f : forest) : Prop :=
  match f with
  | Empty => True
  | NextThread t' f' =>
      group_leader_of t' = p /\ children_of t' = cur_kids f' /\
      after t' (threads_of p) = rest_threads f' /\ represents p t' f'
  | Child c sub f' =>
      c <> top /\ real_parent c = t /\ group_leader_of t = p /\
      threads_of c = rest_threads sub /\ cur_kids sub = [] /\
      after c (children_of t) = cur_kids f' /\ after t (threads_of p) = rest_threads f' /\
      represents c c sub /\ represents p t f'
  end.

(** Depth first; [true]: the visitor asked to stop. *)
Fixpoint dfs (f : forest) (s : S) : bool * S :=
  match f with
  | Empty => (false, s)
  | NextThread _ f' => dfs f' s
  | Child c sub f' =>
      let '(res, s) := visitor c s in
      if c_true res then
        if res <? 0 then (true, s)
        else let '(stop, s) := dfs sub s in if stop then (true, s) else dfs f' s
      else dfs f' s
  end.

Fixpoint forest_size (f : forest) : nat :=
  match f with
  | Empty => 0
  | NextThread _ f' => 1 + forest_size f'
  | Child _ sub f' => 2 + forest_size sub + forest_size f'
  end.

(** [n] steps of the machine. *)
Fixpoint steps (n : nat) (c : config) : config :=
  match n with O => c | Datatypes.S n' => steps n' (walk_step c) end.

Lemma steps_add n m c : steps (n + m) c = steps m (steps n c).
Proof. revert c. induction n; intros; cbn; auto. Qed.

Lemma steps_out n s : steps n (Out s) = Out s.
Proof. induction n; cbn; auto. Qed.

Lemma walk_loop_steps n c s : steps n c = Out s -> forall m, (n <= m)%nat -> walk_loop m c = Some s.
Proof.
  revert c. induction n as [|n IH]; intros c H m Hm.
  - cbn in H. subst. by destruct m.
  - destruct m as [|m]; [lia|]. cbn in H.
    destruct c as [l cs ts s'|s']; cbn [walk_loop]; [apply IH; [done|lia]|].
    cbn in H. rewrite steps_out in H. congruence.
Qed.

(** From a position in [f], the machine gets to the end of the process [p], or out. *)
Lemma walk_forest f p t s :
  represents p t f ->
  exists n, (n <= forest_size f)%nat /\
    steps n (Loop p (cur_kids f) (rest_threads f) s) =
    let '(stop, s') := dfs f s in if stop then Out s' else Loop p [] [] s'.
Proof.
  revert p t s. induction f as [|t' f IH|c sub IHs f IH]; intros p t s H.
  - exists O. split; [cbn; lia|done].
  - destruct H as (Hg & Hc & _ & H). destruct (IH p t' s H) as (n & Hn & Hs).
    exists (Datatypes.S n). split; [cbn; lia|]. cbn [steps walk_step cur_kids rest_threads dfs].
    by rewrite Hc.
  - destruct H as (Htop & Hp & Hg & Ht & Hk & Hac & Hat & Hsub & H).
    cbn [cur_kids rest_threads dfs forest_size]. destruct (visitor c s) as [res s1] eqn:Ev.
    destruct (c_true res) eqn:Er; [|destruct (IH p t s1 H) as (n & Hn & Hs); exists (Datatypes.S n);
      split; [lia|cbn [steps walk_step]; by rewrite Ev, Er]].
    destruct (res <? 0) eqn:Eneg.
    { exists 1%nat. split; [lia|]. cbn [steps walk_step]. by rewrite Ev, Er, Eneg. }
    destruct (IHs c c s1 Hsub) as (n1 & Hn1 & Hs1). rewrite Hk in Hs1.
    destruct (dfs sub s1) as [stop s2]. destruct stop.
    { exists (Datatypes.S n1). split; [lia|]. cbn [steps walk_step]. by rewrite Ev, Er, Eneg, Ht. }
    destruct (IH p t s2 H) as (n2 & Hn2 & Hs2).
    exists (Datatypes.S (n1 + Datatypes.S n2)). split; [lia|].
    cbn [steps walk_step]. rewrite Ev, Er, Eneg, Ht, steps_add, Hs1. cbn [steps walk_step].
    destruct (Z.eqb_spec c top); [done|]. cbn [negb]. by rewrite Hp, Hg, Hac, Hat.
Qed.

Lemma walk_from_top f s :
  threads_of top = rest_threads f -> cur_kids f = [] -> represents top top f ->
  exists n, (n <= forest_size f + 1)%nat /\ steps n (Loop top [] (threads_of top) s) = Out (dfs f s).2.
Proof.
  intros Ht Hk H. destruct (walk_forest f top top s H) as (n & Hn & Hs).
  exists (n + 1)%nat. split; [lia|]. rewrite Ht, <- Hk, steps_add, Hs.
  destruct (dfs f s) as [stop s']. cbn [snd]. destruct stop; [done|].
  cbn [steps walk_step]. by rewrite Z.eqb_refl.
Qed.

End walk.

Section process_tree.
Context {T : ProcTree} {S : Type} (visitor : Z -> S -> Z * S).

(** [leader = top = top->group_leader]: the walk starts at the process of any of its threads. *)
Definition walk_process_tree (task : Z) (fuel : nat) (s : S) : option S :=
  let top := group_leader_of task in walk_loop visitor top fuel (Loop top [] (threads_of top) s).

(** C33: the iterative tree walk equals the recursive depth-first traversal: from any
    thread of a process at the top of a process tree whose links are consistent it
    terminates, within a number of loop iterations linear in the number of threads and
    processes, in the state the recursive traversal ends in, and more fuel does not change
    the result. *)
Theorem walk_is_dfs task f s fuel :
  let top := group_leader_of task in
  threads_of top = rest_threads f -> cur_kids f = [] -> represents top top top f ->
  (forest_size f + 1 <= fuel)%nat -> walk_process_tree task fuel s = Some (dfs visitor f s).2.
Proof.
  intros top Ht Hk H Hf. destruct (walk_from_top visitor top f s Ht Hk H) as (n & Hn & Hs).
  apply (walk_loop_steps _ _ n); [done|lia].
Qed.

End process_tree.

(** ** PR_SET_CHILD_SUBREAPER *)

Section subreaper.
Context (is_child_reaper : Z -> bool).

(** The state is the set of processes with [signal->has_child_subreaper]. *)
Definition propagate_has_child_subreaper (p : Z) (flagged : gset Z) : Z * gset Z :=
  if bool_decide (p ∈ flagged) || is_child_reaper p then (0, flagged) else (1, {[p]} ∪ flagged).

(** The descendants the walk can reach: not below a namespace's child reaper. *)
Fixpoint below (f : forest) : gset Z :=
  match f with
  | Empty => ∅
  | NextThread _ f' => below f'
  | Child c sub f' => (if is_child_reaper c then ∅ else {[c]} ∪ below sub) ∪ below f'
  end.

(** What the comment in the code relies on: below a flagged process everything
    reachable is flagged already. *)
Fixpoint flags_closed (f : forest) (flagged : gset Z) : Prop :=
  match f with
  | Empty => True
  | NextThread _ f' => flags_closed f' flagged
  | Child c sub f' =>
      (c ∈ flagged -> below sub ⊆ flagged) /\ flags_closed sub flagged /\ flags_closed f' flagged
  end.

(** Process ids of the forest, and that they are distinct. *)
Fixpoint pids (f : forest) : gset Z :=
  match f with
  | Empty => ∅
  | NextThread _ f' => pids f'
  | Child c sub f' => {[c]} ∪ pids sub ∪ pids f'
  end.

Fixpoint distinct (f : forest) : Prop :=
  match f with
  | Empty => True
  | NextThread _ f' => distinct f'
  | Child c sub f' => c ∉ pids sub /\ c ∉ pids f' /\ pids sub ## pids f' /\ distinct sub /\ distinct f'
  end.

Lemma below_pids f : below f ⊆ pids f.
Proof. induction f; cbn; [set_solver..|]. case_if; set_solver. Qed.

(** Flagging processes outside a forest does not affect it. *)
Lemma flags_closed_grow f s s' :
  s ⊆ s' -> s' ∩ pids f ⊆ s -> flags_closed f s -> flags_closed f s'.
Proof.
  induction f as [|t f IH|c sub IHs f IH]; cbn; intros Hle Hout H; [done|by apply IH|].
  destruct H as (H1 & H2 & H3). repeat split.
  - intros Hc. assert (c ∈ s) by set_solver. set_solver.
  - apply IHs; [done|set_solver|done].
  - apply IH; [done|set_solver|done].
Qed.

Lemma subreaper_dfs f s :
  distinct f -> flags_closed f s ->
  (dfs propagate_has_child_subreaper f s) = (false, s ∪ below f).
Proof.
  revert s. induction f as [|t f IH|c sub IHs f IH]; intros s Hd Hc; cbn [dfs below].
  - f_equal. set_solver.
  - by apply IH.
  - cbn in Hd, Hc. destruct Hd as (D1 & D2 & D3 & D4 & D5), Hc as (C1 & C2 & C3).
    unfold propagate_has_child_subreaper at 1. pose proof (below_pids sub).
    destruct (is_child_reaper c) eqn:Er.
    { rewrite orb_true_r. change (c_true 0) with false. cbv iota. rewrite IH by done. f_equal. set_solver. }
    rewrite orb_false_r. case_bool_decide.
    { change (c_true 0) with false. cbv iota. rewrite IH by done. f_equal. set_solver. }
    change (c_true 1) with true. change (1 <? 0) with false. cbv iota.
    rewrite IHs; [|done|apply (flags_closed_grow sub s); set_solver].
    rewrite IH; [f_equal; set_solver|done|]. apply (flags_closed_grow f s); set_solver.
Qed.

Context {T : ProcTree}.

(** PR_SET_CHILD_SUBREAPER: where the descendants of a flagged process are flagged
    already, the walk from the caller terminates with exactly the flags that were set
    and those of all descendants that are not separated from it by the init process
    of a pid namespace. *)
Theorem subreaper_flags_descendants task f s fuel :
  let top := group_leader_of task in
  threads_of top = rest_threads f -> cur_kids f = [] -> represents top top top f ->
  distinct f -> flags_closed f s -> (forest_size f + 1 <= fuel)%nat ->
  walk_process_tree propagate_has_child_subreaper task fuel s = Some (s ∪ below f).
Proof.
  intros top Ht Hk Hr Hd Hc Hf.
  destruct (walk_from_top propagate_has_child_subreaper top f s Ht Hk Hr) as (n & Hn & Hs).
  rewrite subreaper_dfs in Hs by done. apply (walk_loop_steps _ _ n); [done|lia].
Qed.

End subreaper.

(** ** A concrete tree: process 1 (threads 1 and 10) with children 2 (of thread 1),
    3 (of thread 10); 2 has a child 4 *)

Definition demo_tree : ProcTree := {|
  threads_of := fun p => if p =? 1 then [1; 10] else [p];
  children_of := fun t => if t =? 1 then [2] else if t =? 10 then [3] else if t =? 2 then [4] else [];
  real_parent := fun c => if c =? 2 then 1 else if c =? 3 then 10 else 2;
  group_leader_of := fun t => if t =? 10 then 1 else t
|}.

Definition demo_forest : forest :=
  NextThread 1 (Child 2 (NextThread 2 (Child 4 (NextThread 4 Empty) Empty))
                 (NextThread 10 (Child 3 (NextThread 3 Empty) Empty))).

(** A visitor that records the order of its calls and stops at process 4. *)
Definition demo_visitor (p : Z) (log : list Z) : Z * list Z := ((if p =? 4 then -1 else 1), log ++ [p]).

Lemma walk_is_dfs_witness :
  walk_process_tree (T := demo_tree) demo_visitor 10 20 [] = Some [2; 4].
Proof.
  apply (walk_is_dfs (T := demo_tree) demo_visitor 10 demo_forest [] 20); [done|done| |vm_compute; lia].
  cbn. repeat split; lia.
Defined.

Lemma subreaper_flags_descendants_witness :
  walk_process_tree (T := demo_tree) (propagate_has_child_subreaper (fun _ => false)) 1 20 {[4]} =
  Some ({[4]} ∪ below (fun _ => false) demo_forest).
Proof.
  apply (subreaper_flags_descendants (fun _ => false) (T := demo_tree) 1 demo_forest {[4]} 20);
    [done|done| | | |vm_compute; lia].
  - cbn. repeat split; lia.
  - cbn. set_solver by lia.
  - cbn. repeat split; set_solver by lia.
Defined.
