(* ===== verification/PrctlMm.v ===== *)
(** * Address-space bookkeeping through prctl (kernel/sys.c: prctl_set_mm and helpers)

    The state is the part of [mm_struct] these calls write: the eleven boundary
    addresses, the saved auxiliary vector and the executable file, with the count of
    file references held.  The address limits, the data-size limit, capability
    checks, the file table and [find_vma] are parameters (class [MmEnv]). *)
From S2P Require Import Prelude UserMem Rlimit.

Record mm_addrs := {
  start_code : Z; end_code : Z; start_data : Z; end_data : Z; start_brk : Z; brk : Z;
  start_stack : Z; arg_start : Z; arg_end : Z; env_start : Z; env_end : Z
}.

Record mm := { addrs : mm_addrs; saved_auxv : list Z; exe_file : Z; fd_refs : Z }.

(** struct prctl_mm_map *)
Record prctl_mm_map := { map_addrs : mm_addrs; auxv : Z; auxv_size : Z; exe_fd : Z }.

Definition PR_SET_MM_START_CODE := 1.
Definition PR_SET_MM_END_CODE := 2.
Definition PR_SET_MM_START_DATA := 3.
Definition PR_SET_MM_END_DATA := 4.
Definition PR_SET_MM_START_STACK := 5.
Definition PR_SET_MM_START_BRK := 6.
Definition PR_SET_MM_BRK := 7.
Definition PR_SET_MM_ARG_START := 8.
Definition PR_SET_MM_ARG_END := 9.
Definition PR_SET_MM_ENV_START := 10.
Definition PR_SET_MM_ENV_END := 11.
Definition PR_SET_MM_AUXV := 12.
Definition PR_SET_MM_EXE_FILE := 13.
Definition PR_SET_MM_MAP := 14.
Definition PR_SET_MM_MAP_SIZE := 15.
Definition NO_FD := 4294967295.
Definition MAY_EXEC := 1.

(** sizeof(struct prctl_mm_map) *)
Definition MM_MAP_SIZE := 104.

Class MmEnv := {
  TASK_SIZE : Z;
  mmap_min_addr : Z;
  AUXV_BYTES : nat;                         (** sizeof(mm->saved_auxv) *)
  auxv_room : (16 <= AUXV_BYTES)%nat;
  check_data_rlimit : Z -> Z -> Z -> Z -> Z;   (** brk, start_brk, end_data, start_data *)
  mm_capable : Z -> bool;
  checkpoint_restore_capable : bool;
  fdget : Z -> option Z;
  is_regular : Z -> bool;
  path_noexec : Z -> bool;
  file_permission : Z -> Z -> Z;
  replace_mm_exe_file : Z -> Z;
  find_vma : Z -> bool
}.

Definition addr_list (m : mm_addrs) : list Z :=
  [start_code m; end_code m; start_data m; end_data m; start_brk m; brk m;
   start_stack m; arg_start m; arg_end m; env_start m; env_end m].

Definition set_addrs (a : mm_addrs) (s : mm) : mm :=
  {| addrs := a; saved_auxv := saved_auxv s; exe_file := exe_file s; fd_refs := fd_refs s |}.
Definition set_auxv (v : list Z) (s : mm) : mm :=
  {| addrs := addrs s; saved_auxv := v; exe_file := exe_file s; fd_refs := fd_refs s |}.
Definition set_exe (f : Z) (s : mm) : mm :=
  {| addrs := addrs s; saved_auxv := saved_auxv s; exe_file := f; fd_refs := fd_refs s |}.
Definition add_fd_ref (d : Z) (s : mm) : mm :=
  {| addrs := addrs s; saved_auxv := saved_auxv s; exe_file := exe_file s; fd_refs := fd_refs s + d |}.

Section prctl_mm.
Context {E : MmEnv}.

Definition prctl_set_mm_exe_file (fd : Z) (s : mm) : Z * mm :=
  match fdget fd with
  | None => (- EBADF, s)
  | Some file =>
      let s := add_fd_ref 1 s in
      let '(err, s) :=
        if negb (is_regular file) || path_noexec file then (- EACCES, s)
        else
          let err := file_permission file MAY_EXEC in
          if c_true err then (err, s)
          else
            let err := replace_mm_exe_file file in
            (err, if c_true err then s else set_exe file s) in
      (err, add_fd_ref (-1) s)
  end.

(** The loop over [offsets]. *)
Fixpoint in_range (l : list Z) : bool :=
  match l with
  | [] => true
  | val :: l' => if (TASK_SIZE <=? val) || (val <? mmap_min_addr) then false else in_range l'
  end.

Definition check_order (b : bool) : Z := if b then 0 else - EINVAL.

Definition validate_prctl_map_addr (m : mm_addrs) : Z :=
  if negb (in_range (addr_list m)) then - EINVAL
  else
    let error := check_order (start_code m <? end_code m) in
    let error := Z.lor error (check_order (start_data m <=? end_data m)) in
    let error := Z.lor error (check_order (start_brk m <=? brk m)) in
    let error := Z.lor error (check_order (arg_start m <=? arg_end m)) in
    let error := Z.lor error (check_order (env_start m <=? env_end m)) in
    if c_true error then error
    else if c_true (check_data_rlimit (brk m) (start_brk m) (end_data m) (start_data m))
    then - EINVAL else 0.

(** [user_auxv[AT_VECTOR_SIZE - 2] = user_auxv[AT_VECTOR_SIZE - 1] = AT_NULL] *)
Definition terminate (v : list Z) : list Z := take (AUXV_BYTES - 16) v ++ replicate 16 0.

(** A zeroed array with the first bytes copied in. *)
Definition zero_padded (bs : list Z) : list Z := bs ++ replicate (AUXV_BYTES - length bs) 0.

Context {U : UserAccess}.

Definition decode_mm_map (bs : list Z) : prctl_mm_map :=
  let w n := le_val (slice (8 * n) 8 bs) in
  {| map_addrs := {| start_code := w 0%nat; end_code := w 1%nat; start_data := w 2%nat; end_data := w 3%nat;
                     start_brk := w 4%nat; brk := w 5%nat; start_stack := w 6%nat; arg_start := w 7%nat;
                     arg_end := w 8%nat; env_start := w 9%nat; env_end := w 10%nat |};
     auxv := w 11%nat; auxv_size := le_val (slice 96 4 bs); exe_fd := le_val (slice 100 4 bs) |}.

(** The new auxiliary vector of PR_SET_MM_MAP: unchanged, an error, or new bytes. *)
Definition map_auxv (m : prctl_mm_map) (um : umem) : Z + option (list Z) :=
  if c_true (auxv_size m) then
    if negb (c_true (auxv m)) || (Z.of_nat AUXV_BYTES <? auxv_size m) then inl (- EINVAL)
    else
      match copy_from_user (auxv m) (Z.to_nat (auxv_size m)) um with
      | None => inl (- EFAULT)
      | Some bs => inr (Some (terminate (zero_padded bs)))
      end
  else inr None.

Definition prctl_set_mm_map (opt addr data_size : Z) (s : mm) (um : umem) : Z * mm * umem :=
  if opt =? PR_SET_MM_MAP_SIZE then
    let '(r, um) := put_user 4 MM_MAP_SIZE addr um in (r, s, um)
  else if negb (data_size =? MM_MAP_SIZE) then (- EINVAL, s, um)
  else
    match copy_from_user addr (Z.to_nat MM_MAP_SIZE) um with
    | None => (- EFAULT, s, um)
    | Some bs =>
        let m := decode_mm_map bs in
        let error := validate_prctl_map_addr (map_addrs m) in
        if c_true error then (error, s, um)
        else
          match map_auxv m um with
          | inl e => (e, s, um)
          | inr v =>
              let '(error, s) :=
                if negb (exe_fd m =? NO_FD) then
                  if negb checkpoint_restore_capable then (- EPERM, s)
                  else prctl_set_mm_exe_file (exe_fd m) s
                else (0, s) in
              if c_true error then (error, s, um)
              else
                let s := set_addrs (map_addrs m) s in
                (0, (match v with Some v => set_auxv v s | None => s end), um)
          end
    end.

Definition prctl_set_auxv (addr len : Z) (s : mm) (um : umem) : Z * mm :=
  if Z.of_nat AUXV_BYTES <? len then (- EINVAL, s)
  else
    match copy_from_user addr (Z.to_nat len) um with
    | None => (- EFAULT, s)
    | Some bs =>
        let user_auxv := terminate (zero_padded bs) in
        (0, set_auxv (take (Z.to_nat len) user_auxv ++ drop (Z.to_nat len) (saved_auxv s)) s)
    end.

(** The switch over the options that name one address. *)
Definition set_one_addr (opt addr : Z) (m : mm_addrs) : option mm_addrs :=
  let mk a b c d e f g h i j k :=
    Some {| start_code := a; end_code := b; start_data := c; end_data := d; start_brk := e; brk := f;
            start_stack := g; arg_start := h; arg_end := i; env_start := j; env_end := k |} in
  let '(a, b, c, d, e) := (start_code m, end_code m, start_data m, end_data m, start_brk m) in
  let '(f, g, h, i, j, k) := (brk m, start_stack m, arg_start m, arg_end m, env_start m, env_end m) in
  if opt =? PR_SET_MM_START_CODE then mk addr b c d e f g h i j k
  else if opt =? PR_SET_MM_END_CODE then mk a addr c d e f g h i j k
  else if opt =? PR_SET_MM_START_DATA then mk a b addr d e f g h i j k
  else if opt =? PR_SET_MM_END_DATA then mk a b c addr e f g h i j k
  else if opt =? PR_SET_MM_START_STACK then mk a b c d e f addr h i j k
  else if opt =? PR_SET_MM_START_BRK then mk a b c d addr f g h i j k
  else if opt =? PR_SET_MM_BRK then mk a b c d e addr g h i j k
  else if opt =? PR_SET_MM_ARG_START then mk a b c d e f g addr i j k
  else if opt =? PR_SET_MM_ARG_END then mk a b c d e f g h addr j k
  else if opt =? PR_SET_MM_ENV_START then mk a b c d e f g h i addr k
  else if opt =? PR_SET_MM_ENV_END then mk a b c d e f g h i j addr
  else None.

Definition needs_vma (opt : Z) : bool :=
  (opt =? PR_SET_MM_START_STACK) || (opt =? PR_SET_MM_ARG_START) || (opt =? PR_SET_MM_ARG_END)
  || (opt =? PR_SET_MM_ENV_START) || (opt =? PR_SET_MM_ENV_END).

Definition prctl_set_mm (opt addr arg4 arg5 : Z) (s : mm) (um : umem) : Z * mm * umem :=
  if c_true arg5
     || (c_true arg4 && (negb (opt =? PR_SET_MM_AUXV) && negb (opt =? PR_SET_MM_MAP)
                         && negb (opt =? PR_SET_MM_MAP_SIZE)))
  then (- EINVAL, s, um)
  else if (opt =? PR_SET_MM_MAP) || (opt =? PR_SET_MM_MAP_SIZE)
  then prctl_set_mm_map opt addr arg4 s um
  else if negb (mm_capable CAP_SYS_RESOURCE) then (- EPERM, s, um)
  else if opt =? PR_SET_MM_EXE_FILE
  then let '(r, s) := prctl_set_mm_exe_file (u32 addr) s in (r, s, um)
  else if opt =? PR_SET_MM_AUXV
  then let '(r, s) := prctl_set_auxv addr arg4 s um in (r, s, um)
  else if (TASK_SIZE <=? addr) || (addr <? mmap_min_addr) then (- EINVAL, s, um)
  else
    let vma := find_vma addr in
    match set_one_addr opt addr (addrs s) with
    | None => (- EINVAL, s, um)
    | Some m =>
        let error := validate_prctl_map_addr m in
        if c_true error then (error, s, um)
        else if needs_vma opt && negb vma then (- EFAULT, s, um)
        else (0, set_addrs m s, um)
    end.

Definition prctl_get_auxv (addr len : Z) (s : mm) (um : umem) : Z * umem :=
  let size := Z.min (Z.of_nat AUXV_BYTES) len in
  if c_true size then
    let '(l, um) := copy_to_user addr (take (Z.to_nat size) (saved_auxv s)) um in
    if c_true l then (- EFAULT, um) else (Z.of_nat AUXV_BYTES, um)
  else (Z.of_nat AUXV_BYTES, um).

End prctl_mm.

(** ** The invariant *)

Section invariant.
Context {E : MmEnv} {U : UserAccess}.

Definition addrs_ok (m : mm_addrs) : Prop :=
  Forall (fun a => mmap_min_addr <= a < TASK_SIZE) (addr_list m) /\
  start_code m < end_code m /\ start_data m <= end_data m /\ start_brk m <= brk m /\
  arg_start m <= arg_end m /\ env_start m <= env_end m /\
  check_data_rlimit (brk m) (start_brk m) (end_data m) (start_data m) = 0.

(** The vector has its size and ends in an AT_NULL entry. *)
Definition auxv_ok (v : list Z) : Prop :=
  length v = AUXV_BYTES /\ drop (AUXV_BYTES - 16) v = replicate 16 0.

Definition mm_wf (s : mm) : Prop := addrs_ok (addrs s) /\ auxv_ok (saved_auxv s).

Lemma in_range_spec l : in_range l = true <-> Forall (fun a => mmap_min_addr <= a < TASK_SIZE) l.
Proof.
  induction l as [|a l IH]; cbn [in_range]; [done|]. rewrite Forall_cons. case_if.
  - split; [done|]. intros [? _]. lia.
  - rewrite IH. split; [intros ?; split; [lia|done]|tauto].
Qed.

Lemma check_order_zero b : check_order b = 0 <-> b = true.
Proof. by destruct b. Qed.

Lemma validate_spec m : validate_prctl_map_addr m = 0 <-> addrs_ok m.
Proof.
  unfold validate_prctl_map_addr, addrs_ok. rewrite <- in_range_spec. cbv zeta.
  destruct (in_range (addr_list m)); [|by split; [|intros [? _]]]. cbn [negb].
  destruct (c_true (Z.lor _ _)) eqn:Ho.
  - apply c_true_true in Ho. split; [done|]. intros (_ & A & B & C & D & F & _). destruct Ho.
    rewrite !Z.lor_eq_0_iff, !check_order_zero. lia.
  - apply c_true_false in Ho. rewrite !Z.lor_eq_0_iff, !check_order_zero in Ho.
    destruct (c_true (check_data_rlimit _ _ _ _)) eqn:Hc.
    + apply c_true_true in Hc. split; [done|tauto].
    + apply c_true_false in Hc. split; [|done]. intros _. repeat split; lia || done.
Qed.

Lemma exe_file_frame fd s r s' :
  prctl_set_mm_exe_file fd s = (r, s') ->
  addrs s' = addrs s /\ saved_auxv s' = saved_auxv s /\ fd_refs s' = fd_refs s /\ (r <> 0 -> s' = s).
Proof.
  assert (Hs : add_fd_ref (-1) (add_fd_ref 1 s) = s) by (destruct s; unfold add_fd_ref; cbn; f_equal; lia).
  unfold prctl_set_mm_exe_file. destruct (fdget fd) as [f|]; [|by intros [= <- <-]].
  case_if; [intros [= <- <-]; by rewrite Hs|]. case_if; [intros [= <- <-]; by rewrite Hs|]. cbv zeta.
  case_if; intros [= <- <-]; [by rewrite Hs|]. apply c_true_false in Hif1.
  repeat split; cbn; [lia|done].
Qed.

Lemma terminate_ok v : length v = AUXV_BYTES -> auxv_ok (terminate v).
Proof.
  intros Hl. pose proof auxv_room. unfold auxv_ok, terminate.
  rewrite length_app, length_take, length_replicate. split; [lia|].
  rewrite drop_app_length' by (rewrite length_take; lia). done.
Qed.

Lemma zero_padded_length bs : (length bs <= AUXV_BYTES)%nat -> length (zero_padded bs) = AUXV_BYTES.
Proof. intros. unfold zero_padded. rewrite length_app, length_replicate. lia. Qed.

(** Overwriting a prefix of a terminated vector with a prefix of another one. *)
Lemma splice_ok n v w : auxv_ok v -> auxv_ok w -> (n <= AUXV_BYTES)%nat -> auxv_ok (take n v ++ drop n w).
Proof.
  intros [Lv Tv] [Lw Tw] Hn. pose proof auxv_room. split.
  { rewrite length_app, length_take, length_drop. lia. }
  destruct (decide (n <= AUXV_BYTES - 16)%nat).
  - rewrite drop_app_ge by (rewrite length_take; lia). rewrite length_take, drop_drop.
    replace (n + (AUXV_BYTES - 16 - n `min` length v))%nat with (AUXV_BYTES - 16)%nat by lia. done.
  - rewrite drop_app_le by (rewrite length_take; lia).
    rewrite <- (take_drop (n - (AUXV_BYTES - 16)) (replicate 16 0)). f_equal.
    + rewrite <- Tv, take_drop_commute. do 2 f_equal. lia.
    + rewrite <- Tw, drop_drop. f_equal. lia.
Qed.

Lemma set_auxv_ok addr len s um r s' :
  0 <= len -> prctl_set_auxv addr len s um = (r, s') -> auxv_ok (saved_auxv s) ->
  auxv_ok (saved_auxv s') /\ addrs s' = addrs s /\ fd_refs s' = fd_refs s /\ (r <> 0 -> s' = s).
Proof.
  intros Hlen0 H Hok. unfold prctl_set_auxv in H. case_if_in H; [by injection H as <- <-|].
  destruct (copy_from_user _ _ _) as [bs|] eqn:Ec; [|by injection H as <- <-].
  apply copy_from_user_done in Ec as [Hl _]. injection H as <- <-. cbn.
  repeat split; try done; apply splice_ok; try done; try lia;
    apply terminate_ok, zero_padded_length; lia.
Qed.

Lemma map_auxv_ok m um v : map_auxv m um = inr (Some v) -> auxv_ok v.
Proof.
  unfold map_auxv. case_if; [|done]. case_if; [done|].
  destruct (copy_from_user _ _ _) as [bs|] eqn:Ec; [|done].
  apply copy_from_user_done in Ec as [Hl _]. intros [= <-].
  apply terminate_ok, zero_padded_length. lia.
Qed.

Lemma set_mm_map_inv opt addr size s um r s' um' :
  mm_wf s -> prctl_set_mm_map opt addr size s um = (r, s', um') ->
  mm_wf s' /\ fd_refs s' = fd_refs s /\ (r <> 0 -> s' = s).
Proof.
  intros [Ha Hv] H. unfold prctl_set_mm_map in H.
  case_if_in H; [destruct (put_user _ _ _ _); by injection H as <- <- <-|].
  case_if_in H; [by injection H as <- <- <-|].
  destruct (copy_from_user _ _ _) as [bs|]; [|by injection H as <- <- <-]. cbv zeta in H.
  set (m := decode_mm_map bs) in H.
  case_if_in H; [by injection H as <- <- <-|]. apply c_true_false, validate_spec in Hif1.
  destruct (map_auxv m um) as [e|v] eqn:Em; [by injection H as <- <- <-|].
  destruct (if negb (exe_fd m =? NO_FD) then _ else _) as [error s1] eqn:Ex.
  assert (Hx : saved_auxv s1 = saved_auxv s /\ fd_refs s1 = fd_refs s /\ (error <> 0 -> s1 = s)).
  { case_if_in Ex; [|by injection Ex as <- <-]. case_if_in Ex; [by injection Ex as <- <-|].
    by apply exe_file_frame in Ex as (_ & ? & ? & ?). }
  destruct Hx as (H1 & H2 & H3).
  case_if_in H; injection H as <- <- <-.
  - apply c_true_true in Hif2. by rewrite (H3 Hif2).
  - destruct v as [v|]; (split; [split; [exact Hif1|]|by split]); cbn;
      [by apply map_auxv_ok in Em|by rewrite H1].
Qed.

Lemma prctl_set_mm_inv opt addr arg4 arg5 s um r s' um' :
  mm_wf s -> 0 <= arg4 -> prctl_set_mm opt addr arg4 arg5 s um = (r, s', um') ->
  mm_wf s' /\ fd_refs s' = fd_refs s /\ (r <> 0 -> s' = s).
Proof.
  intros Hwf H4 H. pose proof Hwf as [Ha Hv]. unfold prctl_set_mm in H.
  case_if_in H; [by injection H as <- <- <-|].
  case_if_in H; [by eapply set_mm_map_inv|].
  case_if_in H; [by injection H as <- <- <-|].
  case_if_in H.
  { destruct (prctl_set_mm_exe_file (u32 addr) s) as [q s1] eqn:Ex. injection H as <- <- <-.
    apply exe_file_frame in Ex as (E1 & E2 & E3 & E4). unfold mm_wf. by rewrite E1, E2. }
  case_if_in H.
  { destruct (prctl_set_auxv addr arg4 s um) as [q s1] eqn:Ex. injection H as <- <- <-.
    apply set_auxv_ok in Ex as (E1 & E2 & E3 & E4); [|done..]. unfold mm_wf. by rewrite E2. }
  case_if_in H; [by injection H as <- <- <-|]. cbv zeta in H.
  destruct (set_one_addr opt addr (addrs s)) as [m|]; [|by injection H as <- <- <-].
  case_if_in H; [by injection H as <- <- <-|].
  case_if_in H; injection H as <- <- <-; [done|].
  apply c_true_false, validate_spec in Hif5. split; [by split|by split].
Qed.

(** A sequence of requests, each with the user memory of its moment. *)
Fixpoint mm_run (reqs : list (Z * Z * Z * Z * umem)) (s : mm) : mm :=
  match reqs with
  | [] => s
  | (opt, addr, arg4, arg5, um) :: reqs' => mm_run reqs' (prctl_set_mm opt addr arg4 arg5 s um).1.2
  end.

(** C34: the bookkeeping of an address space stays consistent under prctl: after any
    sequence of PR_SET_MM requests with whatever user memory, failing ones included,
    the eleven boundaries are inside the user address space, in order and within the
    data-size limit, the auxiliary vector has its size and its terminating AT_NULL
    entry, and no reference on a file is left. *)
Theorem prctl_mm_invariant reqs s :
  mm_wf s -> Forall (fun r => 0 <= r.1.1.2) reqs ->
  mm_wf (mm_run reqs s) /\ fd_refs (mm_run reqs s) = fd_refs s.
Proof.
  intros Hwf Hall. revert s Hwf. induction Hall as [|[[[[opt addr] arg4] arg5] um] reqs H4 _ IH];
    intros s Hwf; [done|]. cbn [mm_run].
  destruct (prctl_set_mm opt addr arg4 arg5 s um) as [[r s'] um'] eqn:Es.
  apply prctl_set_mm_inv in Es as (H1 & H2 & _); [|done..].
  destruct (IH s' H1) as [H3 H4']. split; [exact H3|]. cbn [fst snd]. congruence.
Qed.

(** Reading back a vector that leaves room for the terminator. *)
Lemma auxv_roundtrip addr len q bs s s' um um2 r :
  length (saved_auxv s) = AUXV_BYTES -> 0 < len <= Z.of_nat AUXV_BYTES - 16 ->
  copy_from_user addr (Z.to_nat len) um = Some bs ->
  prctl_set_auxv addr len s um = (0, s') -> prctl_get_auxv q len s' um = (r, um2) -> r <> - EFAULT ->
  uread um2 q (Z.to_nat len) = Some bs /\ r = Z.of_nat AUXV_BYTES.
Proof.
  intros Hlen Hl Hc Hset Hget Hr. unfold prctl_set_auxv in Hset. rewrite Hc in Hset.
  apply copy_from_user_done in Hc as [Hb _]. pose proof auxv_room.
  case_if_in Hset; [done|]. injection Hset as <-. unfold prctl_get_auxv in Hget. cbv zeta in Hget.
  rewrite Z.min_r in Hget by lia.
  case_if_in Hget; [|apply c_true_false in Hif0; lia].
  cbn [set_auxv saved_auxv] in Hget.
  assert (Ht : take (Z.to_nat len) (terminate (zero_padded bs)) = bs).
  { unfold terminate, zero_padded. rewrite take_app_le, take_take by (rewrite length_take, length_app, length_replicate; lia).
    rewrite take_app_le by lia. apply take_ge. lia. }
  rewrite Ht, take_app_length' in Hget by lia.
  destruct (copy_to_user q bs um) as [l m1] eqn:Ec. case_if_in Hget; injection Hget as <- <-; [done|].
  apply c_true_false in Hif1 as ->. apply copy_to_user_uread in Ec. by rewrite Hb in Ec.
Qed.

End invariant.

(** ** A concrete address space *)

#[local, refine] Instance demo_mm_env : MmEnv := {
  TASK_SIZE := 140737488351232; mmap_min_addr := 65536; AUXV_BYTES := 416;
  check_data_rlimit _ _ _ _ := 0; mm_capable _ := true; checkpoint_restore_capable := false;
  fdget _ := None; is_regular _ := true; path_noexec _ := false; file_permission _ _ := 0;
  replace_mm_exe_file _ := 0; find_vma _ := true
}.
Proof. apply Nat.leb_le. reflexivity. Defined.

Definition demo_mm : mm := {|
  addrs := {| start_code := 4194304; end_code := 4198400; start_data := 6291456; end_data := 6295552;
              start_brk := 7340032; brk := 7344128; start_stack := 140737488347136;
              arg_start := 140737488347200; arg_end := 140737488347300;
              env_start := 140737488347300; env_end := 140737488347400 |};
  saved_auxv := replicate 416 0; exe_file := 9; fd_refs := 0 |}.

Lemma demo_mm_wf : mm_wf demo_mm.
Proof.
  split; [|by vm_compute]. unfold addrs_ok, addr_list. cbn.
  repeat split; try lia. repeat constructor; lia.
Qed.

Lemma prctl_mm_invariant_witness :
  mm_wf (mm_run (U := last_copy)
    [(PR_SET_MM_BRK, 7348224, 0, 0, (fun _ => None)); (PR_SET_MM_END_CODE, 1, 0, 0, (fun _ => None));
     (PR_SET_MM_AUXV, 100, 24, 0, (fun _ => Some 1))] demo_mm).
Proof.
  apply (prctl_mm_invariant (U := last_copy)); [exact demo_mm_wf|]. repeat constructor; cbn; lia.
Defined.
