(* ===== verification/Prctl.v ===== *)
(** * Process control (kernel/sys.c: the prctl system call)

    The switch of prctl, one definition per group of options, over the members of
    the task and of its mm that prctl itself reads and writes.  Options that only
    call code outside the repository (architecture macros, seccomp, perf, core
    scheduling, KSM, syscall user dispatch) answer through the parameter
    [external_prctl]; the macros that sys.c itself defines as -EINVAL are covered by
    it too.  [security_task_prctl] comes first and ends the call unless it answers
    -ENOSYS. *)
From S2P Require Import Prelude UserMem Rlimit Uts WalkTree PrctlMm.

Record task := {
  pdeath_signal : Z; dumpable : Z; comm : list Z;
  timer_slack_ns : Z; default_timer_slack_ns : Z;
  pflags : Z;                              (** current->flags *)
  is_child_subreaper : bool; flagged : gset Z;   (** has_child_subreaper, all processes *)
  no_new_privs : bool; clear_child_tid : Z;
  thp_disabled : bool; mdwe : bool; mdwe_no_inherit : bool;   (** mm->flags *)
  task_mm : mm
}.

Definition PR_SET_PDEATHSIG := 1.
Definition PR_GET_PDEATHSIG := 2.
Definition PR_GET_DUMPABLE := 3.
Definition PR_SET_DUMPABLE := 4.
Definition PR_GET_TIMING := 13.
Definition PR_SET_TIMING := 14.
Definition PR_SET_NAME := 15.
Definition PR_GET_NAME := 16.
Definition PR_SET_TIMERSLACK := 29.
Definition PR_GET_TIMERSLACK := 30.
Definition PR_MCE_KILL := 33.
Definition PR_MCE_KILL_GET := 34.
Definition PR_SET_MM := 35.
Definition PR_SET_CHILD_SUBREAPER := 36.
Definition PR_GET_CHILD_SUBREAPER := 37.
Definition PR_SET_NO_NEW_PRIVS := 38.
Definition PR_GET_NO_NEW_PRIVS := 39.
Definition PR_GET_TID_ADDRESS := 40.
Definition PR_SET_THP_DISABLE := 41.
Definition PR_GET_THP_DISABLE := 42.
Definition PR_MPX_ENABLE_MANAGEMENT := 43.
Definition PR_MPX_DISABLE_MANAGEMENT := 44.
Definition PR_GET_SPECULATION_CTRL := 52.
Definition PR_SET_SPECULATION_CTRL := 53.
Definition PR_PAC_RESET_KEYS := 54.
Definition PR_SET_TAGGED_ADDR_CTRL := 55.
Definition PR_GET_TAGGED_ADDR_CTRL := 56.
Definition PR_SET_IO_FLUSHER := 57.
Definition PR_GET_IO_FLUSHER := 58.
Definition PR_PAC_SET_ENABLED_KEYS := 60.
Definition PR_PAC_GET_ENABLED_KEYS := 61.
Definition PR_SET_MDWE := 65.
Definition PR_GET_MDWE := 66.
Definition PR_SET_MEMORY_MERGE := 67.
Definition PR_GET_MEMORY_MERGE := 68.
Definition PR_SET_VMA := 1398164801.
Definition PR_GET_AUXV := 1096112214.

(** Options without a check of their own: SET/GET_UNALIGN, FPEMU, FPEXC, ENDIAN,
    SECCOMP, TSC, PERF_EVENTS, FP_MODE, SVE, SME, USER_DISPATCH, SCHED_CORE, RISCV_V. *)
Definition external_options : list Z :=
  [5; 6; 9; 10; 11; 12; 19; 20; 21; 22; 25; 26; 31; 32; 45; 46; 50; 51; 63; 64; 59; 62; 69; 70].

Definition PF_MCE_PROCESS := 128.
Definition PF_MCE_EARLY := 134217728.
Definition PR_IO_FLUSHER := 1572864.    (** PF_MEMALLOC_NOIO | PF_LOCAL_THROTTLE *)
Definition PR_MCE_KILL_CLEAR := 0.
Definition PR_MCE_KILL_SET := 1.
Definition PR_MCE_KILL_LATE := 0.
Definition PR_MCE_KILL_EARLY := 1.
Definition PR_MCE_KILL_DEFAULT := 2.
Definition PR_MDWE_REFUSE_EXEC_GAIN := 1.
Definition PR_MDWE_NO_INHERIT := 2.
Definition PR_SET_VMA_ANON_NAME := 0.
Definition TASK_COMM_LEN := 16%nat.

Class PrctlEnv := {
  security_task_prctl : Z -> Z -> Z -> Z -> Z -> Z;
  external_prctl : Z -> Z -> Z -> Z -> Z -> Z;
  (** strncpy_from_user: the string before its terminator, [None] on a fault *)
  strncpy_from_user : forall {U : UserAccess}, Z -> nat -> umem -> option (list Z);
  (** strndup_user: an error or the string *)
  strndup_user : forall {U : UserAccess}, Z -> Z -> umem -> Z + list Z;
  anon_vma_name_alloc : list Z -> bool;
  madvise_set_anon_name : Z -> Z -> option (list Z) -> Z;
  mmap_write_lock_killed : bool;
  me : Z;
  prctl_child_reaper : Z -> bool;
  walk_fuel : nat
}.

(** Record updates *)
Definition upd_flags (v : Z) (t : task) : task :=
  {| pdeath_signal := pdeath_signal t; dumpable := dumpable t; comm := comm t;
     timer_slack_ns := timer_slack_ns t; default_timer_slack_ns := default_timer_slack_ns t; pflags := v;
     is_child_subreaper := is_child_subreaper t; flagged := flagged t; no_new_privs := no_new_privs t;
     clear_child_tid := clear_child_tid t; thp_disabled := thp_disabled t; mdwe := mdwe t;
     mdwe_no_inherit := mdwe_no_inherit t; task_mm := task_mm t |}.

Definition upd_basic (sig dump slack : Z) (name : list Z) (t : task) : task :=
  {| pdeath_signal := sig; dumpable := dump; comm := name;
     timer_slack_ns := slack; default_timer_slack_ns := default_timer_slack_ns t; pflags := pflags t;
     is_child_subreaper := is_child_subreaper t; flagged := flagged t; no_new_privs := no_new_privs t;
     clear_child_tid := clear_child_tid t; thp_disabled := thp_disabled t; mdwe := mdwe t;
     mdwe_no_inherit := mdwe_no_inherit t; task_mm := task_mm t |}.

Definition upd_subreaper (b : bool) (fl : gset Z) (t : task) : task :=
  {| pdeath_signal := pdeath_signal t; dumpable := dumpable t; comm := comm t;
     timer_slack_ns := timer_slack_ns t; default_timer_slack_ns := default_timer_slack_ns t; pflags := pflags t;
     is_child_subreaper := b; flagged := fl; no_new_privs := no_new_privs t;
     clear_child_tid := clear_child_tid t; thp_disabled := thp_disabled t; mdwe := mdwe t;
     mdwe_no_inherit := mdwe_no_inherit t; task_mm := task_mm t |}.

Definition upd_bits (nnp thp md mdni : bool) (t : task) : task :=
  {| pdeath_signal := pdeath_signal t; dumpable := dumpable t; comm := comm t;
     timer_slack_ns := timer_slack_ns t; default_timer_slack_ns := default_timer_slack_ns t; pflags := pflags t;
     is_child_subreaper := is_child_subreaper t; flagged := flagged t; no_new_privs := nnp;
     clear_child_tid := clear_child_tid t; thp_disabled := thp; mdwe := md;
     mdwe_no_inherit := mdni; task_mm := task_mm t |}.

Definition upd_mm (m : mm) (t : task) : task :=
  {| pdeath_signal := pdeath_signal t; dumpable := dumpable t; comm := comm t;
     timer_slack_ns := timer_slack_ns t; default_timer_slack_ns := default_timer_slack_ns t; pflags := pflags t;
     is_child_subreaper := is_child_subreaper t; flagged := flagged t; no_new_privs := no_new_privs t;
     clear_child_tid := clear_child_tid t; thp_disabled := thp_disabled t; mdwe := mdwe t;
     mdwe_no_inherit := mdwe_no_inherit t; task_mm := m |}.

Section prctl.
Context {P : PrctlEnv} {M : MmEnv} {T : ProcTree} {U : UserAccess}.

Definition ret : Type := Z * task * umem.
Definition any (l : list Z) : bool := existsb c_true l.
Definition bool_z (b : bool) : Z := if b then 1 else 0.

(** PR_SET_PDEATHSIG .. PR_SET_DUMPABLE *)
Definition prctl_signal (option arg2 : Z) (t : task) (um : umem) : ret :=
  if option =? PR_SET_PDEATHSIG then
    if negb (arg2 <=? 64) then (- EINVAL, t, um)
    else (0, upd_basic arg2 (dumpable t) (timer_slack_ns t) (comm t) t, um)
  else if option =? PR_GET_PDEATHSIG then
    let '(r, um) := put_user 4 (pdeath_signal t) arg2 um in (r, t, um)
  else if option =? PR_GET_DUMPABLE then (dumpable t, t, um)
  else if negb (arg2 =? 0) && negb (arg2 =? 1) then (- EINVAL, t, um)
  else (0, upd_basic (pdeath_signal t) arg2 (timer_slack_ns t) (comm t) t, um).

(** PR_GET_TIMING .. PR_GET_NAME *)
Definition prctl_name (option arg2 : Z) (t : task) (um : umem) : ret :=
  if option =? PR_GET_TIMING then (0, t, um)
  else if option =? PR_SET_TIMING then ((if negb (arg2 =? 0) then - EINVAL else 0), t, um)
  else if option =? PR_SET_NAME then
    match strncpy_from_user arg2 (TASK_COMM_LEN - 1) um with
    | None => (- EFAULT, t, um)
    | Some s =>
        (0, upd_basic (pdeath_signal t) (dumpable t) (timer_slack_ns t) (pad TASK_COMM_LEN (take 15 s)) t, um)
    end
  else
    let '(l, um) := copy_to_user arg2 (comm t) um in
    ((if c_true l then - EFAULT else 0), t, um).

Definition prctl_timerslack (option arg2 : Z) (t : task) : Z * task :=
  if option =? PR_GET_TIMERSLACK then (i64 (timer_slack_ns t), t)
  else
    (0, upd_basic (pdeath_signal t) (dumpable t)
          (if arg2 <=? 0 then default_timer_slack_ns t else arg2) (comm t) t).

Definition prctl_mce_kill (arg2 arg3 arg4 arg5 : Z) (t : task) : Z * task :=
  if c_true (Z.lor arg4 arg5) then (- EINVAL, t)
  else if arg2 =? PR_MCE_KILL_CLEAR then
    if negb (arg3 =? 0) then (- EINVAL, t)
    else (0, upd_flags (clear (pflags t) PF_MCE_PROCESS) t)
  else if arg2 =? PR_MCE_KILL_SET then
    let t := upd_flags (Z.lor (pflags t) PF_MCE_PROCESS) t in
    if arg3 =? PR_MCE_KILL_EARLY then (0, upd_flags (Z.lor (pflags t) PF_MCE_EARLY) t)
    else if arg3 =? PR_MCE_KILL_LATE then (0, upd_flags (clear (pflags t) PF_MCE_EARLY) t)
    else if arg3 =? PR_MCE_KILL_DEFAULT
    then (0, upd_flags (clear (pflags t) (Z.lor PF_MCE_EARLY PF_MCE_PROCESS)) t)
    else (- EINVAL, t)
  else (- EINVAL, t).

Definition prctl_mce_kill_get (arg2 arg3 arg4 arg5 : Z) (t : task) : Z :=
  if c_true (Z.lor (Z.lor (Z.lor arg2 arg3) arg4) arg5) then - EINVAL
  else if has (pflags t) PF_MCE_PROCESS then
    if has (pflags t) PF_MCE_EARLY then PR_MCE_KILL_EARLY else PR_MCE_KILL_LATE
  else PR_MCE_KILL_DEFAULT.

(** PR_SET/GET_CHILD_SUBREAPER, PR_SET/GET_NO_NEW_PRIVS *)
Definition prctl_subreaper (option arg2 : Z) (t : task) (um : umem) : ret :=
  if option =? PR_SET_CHILD_SUBREAPER then
    if negb (c_true arg2) then (0, upd_subreaper false (flagged t) t, um)
    else
      let fl := match walk_process_tree (propagate_has_child_subreaper prctl_child_reaper) me walk_fuel (flagged t)
                with Some fl => fl | None => flagged t end in
      (0, upd_subreaper true fl t, um)
  else
    let '(r, um) := put_user 4 (bool_z (is_child_subreaper t)) arg2 um in (r, t, um).

Definition prctl_nnp (option arg2 arg3 arg4 arg5 : Z) (t : task) : Z * task :=
  if option =? PR_SET_NO_NEW_PRIVS then
    if negb (arg2 =? 1) || any [arg3; arg4; arg5] then (- EINVAL, t)
    else (0, upd_bits true (thp_disabled t) (mdwe t) (mdwe_no_inherit t) t)
  else if any [arg2; arg3; arg4; arg5] then (- EINVAL, t)
  else (bool_z (no_new_privs t), t).

Definition prctl_thp (option arg2 arg3 arg4 arg5 : Z) (t : task) : Z * task :=
  if option =? PR_GET_THP_DISABLE then
    if any [arg2; arg3; arg4; arg5] then (- EINVAL, t) else (bool_z (thp_disabled t), t)
  else if any [arg3; arg4; arg5] then (- EINVAL, t)
  else if mmap_write_lock_killed then (- EINTR, t)
  else (0, upd_bits (no_new_privs t) (c_true arg2) (mdwe t) (mdwe_no_inherit t) t).

(** Options whose unused arguments must be zero, then code outside. *)
Definition prctl_arch (option arg2 arg3 arg4 arg5 : Z) : Z :=
  if (option =? PR_MPX_ENABLE_MANAGEMENT) || (option =? PR_MPX_DISABLE_MANAGEMENT) then - EINVAL
  else if ((option =? PR_GET_SPECULATION_CTRL) || (option =? PR_PAC_RESET_KEYS)
           || (option =? PR_SET_TAGGED_ADDR_CTRL)) && any [arg3; arg4; arg5] then - EINVAL
  else if ((option =? PR_SET_SPECULATION_CTRL) || (option =? PR_PAC_SET_ENABLED_KEYS)) && any [arg4; arg5]
  then - EINVAL
  else if ((option =? PR_PAC_GET_ENABLED_KEYS) || (option =? PR_GET_TAGGED_ADDR_CTRL))
          && any [arg2; arg3; arg4; arg5] then - EINVAL
  else external_prctl option arg2 arg3 arg4 arg5.

Definition prctl_io_flusher (option arg2 arg3 arg4 arg5 : Z) (t : task) : Z * task :=
  if negb (mm_capable CAP_SYS_RESOURCE) then (- EPERM, t)
  else if option =? PR_SET_IO_FLUSHER then
    if any [arg3; arg4; arg5] then (- EINVAL, t)
    else if arg2 =? 1 then (0, upd_flags (Z.lor (pflags t) PR_IO_FLUSHER) t)
    else if negb (c_true arg2) then (0, upd_flags (clear (pflags t) PR_IO_FLUSHER) t)
    else (- EINVAL, t)
  else if any [arg2; arg3; arg4; arg5] then (- EINVAL, t)
  else (bool_z (Z.land (pflags t) PR_IO_FLUSHER =? PR_IO_FLUSHER), t).

Definition get_current_mdwe (t : task) : Z :=
  let ret := 0 in
  let ret := if mdwe t then Z.lor ret PR_MDWE_REFUSE_EXEC_GAIN else ret in
  if mdwe_no_inherit t then Z.lor ret PR_MDWE_NO_INHERIT else ret.

Definition prctl_set_mdwe (bits arg3 arg4 arg5 : Z) (t : task) : Z * task :=
  if any [arg3; arg4; arg5] then (- EINVAL, t)
  else if c_true (clear bits (Z.lor PR_MDWE_REFUSE_EXEC_GAIN PR_MDWE_NO_INHERIT)) then (- EINVAL, t)
  else if has bits PR_MDWE_NO_INHERIT && negb (has bits PR_MDWE_REFUSE_EXEC_GAIN) then (- EINVAL, t)
  else
    let current_bits := get_current_mdwe t in
    if c_true current_bits && negb (current_bits =? bits) then (- EPERM, t)
    else
      let t := if has bits PR_MDWE_NO_INHERIT
               then upd_bits (no_new_privs t) (thp_disabled t) (mdwe t) true t else t in
      let t := if has bits PR_MDWE_REFUSE_EXEC_GAIN
               then upd_bits (no_new_privs t) (thp_disabled t) true (mdwe_no_inherit t) t else t in
      (0, t).

Definition prctl_get_mdwe (arg2 arg3 arg4 arg5 : Z) (t : task) : Z :=
  if any [arg2; arg3; arg4; arg5] then - EINVAL else get_current_mdwe t.

(** ANON_VMA_NAME_INVALID_CHARS: backslash, backquote, dollar, brackets *)
Definition is_valid_name_char (ch : Z) : bool :=
  (31 <? ch) && (ch <? 127) && negb (existsb (Z.eqb ch) [92; 96; 36; 91; 93]).

Definition prctl_set_vma (opt addr size arg : Z) (um : umem) : Z :=
  if opt =? PR_SET_VMA_ANON_NAME then
    if c_true arg then
      match strndup_user arg 80 um with
      | inl e => e
      | inr name =>
          if negb (forallb is_valid_name_char name) then - EINVAL
          else if negb (anon_vma_name_alloc name) then - ENOMEM
          else madvise_set_anon_name addr size (Some name)
      end
    else madvise_set_anon_name addr size None
  else - EINVAL.

Definition prctl_get_tid_address (arg2 : Z) (t : task) (um : umem) : Z * umem :=
  put_user 8 (clear_child_tid t) arg2 um.

(** PR_SET/GET_MEMORY_MERGE: the checks, then KSM. *)
Definition prctl_ksm (option arg2 arg3 arg4 arg5 : Z) : Z :=
  if option =? PR_SET_MEMORY_MERGE then
    if any [arg3; arg4; arg5] then - EINVAL
    else if mmap_write_lock_killed then - EINTR
    else external_prctl option arg2 arg3 arg4 arg5
  else if any [arg2; arg3; arg4; arg5] then - EINVAL
  else external_prctl option arg2 arg3 arg4 arg5.

Definition one_of (x : Z) (l : list Z) : bool := existsb (Z.eqb x) l.

Definition sys_prctl (option arg2 arg3 arg4 arg5 : Z) (t : task) (um : umem) : ret :=
  let error := security_task_prctl option arg2 arg3 arg4 arg5 in
  if negb (error =? - ENOSYS) then (error, t, um)
  else if one_of option [PR_SET_PDEATHSIG; PR_GET_PDEATHSIG; PR_GET_DUMPABLE; PR_SET_DUMPABLE]
  then prctl_signal option arg2 t um
  else if one_of option external_options then (external_prctl option arg2 arg3 arg4 arg5, t, um)
  else if one_of option [PR_GET_TIMING; PR_SET_TIMING; PR_SET_NAME; PR_GET_NAME]
  then prctl_name option arg2 t um
  else if one_of option [PR_SET_TIMERSLACK; PR_GET_TIMERSLACK]
  then let '(r, t) := prctl_timerslack option arg2 t in (r, t, um)
  else if option =? PR_MCE_KILL then let '(r, t) := prctl_mce_kill arg2 arg3 arg4 arg5 t in (r, t, um)
  else if option =? PR_MCE_KILL_GET then (prctl_mce_kill_get arg2 arg3 arg4 arg5 t, t, um)
  else if option =? PR_SET_MM
  then let '(r, m, um) := prctl_set_mm (i32 arg2) arg3 arg4 arg5 (task_mm t) um in (r, upd_mm m t, um)
  else if option =? PR_GET_TID_ADDRESS
  then let '(r, um) := prctl_get_tid_address arg2 t um in (r, t, um)
  else if one_of option [PR_SET_CHILD_SUBREAPER; PR_GET_CHILD_SUBREAPER]
  then prctl_subreaper option arg2 t um
  else if one_of option [PR_SET_NO_NEW_PRIVS; PR_GET_NO_NEW_PRIVS]
  then let '(r, t) := prctl_nnp option arg2 arg3 arg4 arg5 t in (r, t, um)
  else if one_of option [PR_GET_THP_DISABLE; PR_SET_THP_DISABLE]
  then let '(r, t) := prctl_thp option arg2 arg3 arg4 arg5 t in (r, t, um)
  else if one_of option [PR_MPX_ENABLE_MANAGEMENT; PR_MPX_DISABLE_MANAGEMENT; PR_GET_SPECULATION_CTRL;
                         PR_SET_SPECULATION_CTRL; PR_PAC_RESET_KEYS; PR_PAC_SET_ENABLED_KEYS;
                         PR_PAC_GET_ENABLED_KEYS; PR_SET_TAGGED_ADDR_CTRL; PR_GET_TAGGED_ADDR_CTRL]
  then (prctl_arch option arg2 arg3 arg4 arg5, t, um)
  else if one_of option [PR_SET_IO_FLUSHER; PR_GET_IO_FLUSHER]
  then let '(r, t) := prctl_io_flusher option arg2 arg3 arg4 arg5 t in (r, t, um)
  else if option =? PR_SET_MDWE then let '(r, t) := prctl_set_mdwe arg2 arg3 arg4 arg5 t in (r, t, um)
  else if option =? PR_GET_MDWE then (prctl_get_mdwe arg2 arg3 arg4 arg5 t, t, um)
  else if option =? PR_SET_VMA then (prctl_set_vma arg2 arg3 arg4 arg5 um, t, um)
  else if option =? PR_GET_AUXV then
    if any [arg4; arg5] then (- EINVAL, t, um)
    else let '(r, um) := prctl_get_auxv arg2 arg3 (task_mm t) um in (r, t, um)
  else if one_of option [PR_SET_MEMORY_MERGE; PR_GET_MEMORY_MERGE]
  then (prctl_ksm option arg2 arg3 arg4 arg5, t, um)
  else (- EINVAL, t, um).

End prctl.

(** ** Theorems *)

Section theorems.
Context {P : PrctlEnv} {M : MmEnv} {T : ProcTree} {U : UserAccess}.

(** The mode bits that prctl only ever turns on. *)
Definition lockdown_le (t t' : task) : Prop :=
  (no_new_privs t = true -> no_new_privs t' = true) /\
  (get_current_mdwe t <> 0 -> get_current_mdwe t' = get_current_mdwe t).

Lemma lockdown_refl t t' :
  no_new_privs t' = no_new_privs t -> mdwe t' = mdwe t -> mdwe_no_inherit t' = mdwe_no_inherit t ->
  lockdown_le t t'.
Proof. intros H1 H2 H3. unfold lockdown_le, get_current_mdwe. by rewrite H1, H2, H3. Qed.

Lemma lockdown_trans a b c : lockdown_le a b -> lockdown_le b c -> lockdown_le a c.
Proof.
  intros [A1 A2] [B1 B2]. split; [auto|]. intros H. rewrite B2; [by apply A2|by rewrite A2].
Qed.

(** Setting the same mode again changes nothing. *)
Lemma set_mdwe_le bits arg3 arg4 arg5 t : lockdown_le t (prctl_set_mdwe bits arg3 arg4 arg5 t).2.
Proof.
  unfold prctl_set_mdwe. do 3 (case_if; [by apply lockdown_refl|]). cbv zeta.
  case_if; [by apply lockdown_refl|]. cbn [snd]. split.
  { intros Hn. by destruct (has bits PR_MDWE_NO_INHERIT), (has bits PR_MDWE_REFUSE_EXEC_GAIN). }
  intros Hc. apply c_true_true in Hc. rewrite Hc in Hif2. cbn [andb] in Hif2. bool_hyps. subst bits.
  destruct t as [a b c d e f g h nn i j md mn k]. unfold get_current_mdwe in *. cbn [mdwe mdwe_no_inherit] in *.
  destruct md, mn; cbn in *; done.
Qed.

Lemma sys_prctl_le option arg2 arg3 arg4 arg5 t um :
  lockdown_le t (sys_prctl option arg2 arg3 arg4 arg5 t um).1.2.
Proof.
  unfold sys_prctl. cbv zeta.
  repeat match goal with
  | |- lockdown_le t (if ?b then _ else _).1.2 => destruct b
  end; try by apply lockdown_refl.
  - unfold prctl_signal. repeat case_if; try by apply lockdown_refl. by destruct (put_user _ _ _ _).
  - unfold prctl_name. repeat case_if; try by apply lockdown_refl.
    + destruct (strncpy_from_user _ _ _); by apply lockdown_refl.
    + by destruct (copy_to_user _ _ _).
  - unfold prctl_timerslack. case_if; by apply lockdown_refl.
  - unfold prctl_mce_kill. cbv zeta. repeat case_if; by apply lockdown_refl.
  - destruct (prctl_set_mm _ _ _ _ _ _) as [[? ?] ?]. by apply lockdown_refl.
  - by destruct (prctl_get_tid_address _ _ _).
  - unfold prctl_subreaper. repeat case_if; try by apply lockdown_refl. by destruct (put_user _ _ _ _).
  - unfold prctl_nnp. repeat case_if; first [by apply lockdown_refl|by split].
  - unfold prctl_thp. repeat case_if; by apply lockdown_refl.
  - unfold prctl_io_flusher. repeat case_if; by apply lockdown_refl.
  - pose proof (set_mdwe_le arg2 arg3 arg4 arg5 t). by destruct (prctl_set_mdwe _ _ _ _ _).
  - by destruct (prctl_get_auxv _ _ _ _).
Qed.

Fixpoint prctl_run (calls : list (Z * Z * Z * Z * Z * umem)) (t : task) : task :=
  match calls with
  | [] => t
  | (o, a2, a3, a4, a5, um) :: calls' => prctl_run calls' (sys_prctl o a2 a3 a4 a5 t um).1.2
  end.

(** Hardening is permanent: no sequence of prctl calls clears no_new_privs once it
    is set, and once any memory-deny-write-execute mode is in force no sequence of
    calls changes it ("Cannot unset the flags"). *)
Theorem prctl_lockdown_permanent calls t : lockdown_le t (prctl_run calls t).
Proof.
  revert t. induction calls as [|[[[[[o a2] a3] a4] a5] um] calls IH]; intros t; [by apply lockdown_refl|].
  cbn [prctl_run]. eapply lockdown_trans; [apply sys_prctl_le|apply IH].
Qed.

Lemma upd_mm_same t : upd_mm (task_mm t) t = t.
Proof. by destruct t. Qed.

(** A prctl call that answers an error leaves the task and its address space as
    they were, with one exception: PR_MCE_KILL_SET with an unknown policy answers
    EINVAL after it has already set PF_MCE_PROCESS. *)
Theorem prctl_error_atomic option arg2 arg3 arg4 arg5 t um r t' um' :
  mm_wf (task_mm t) -> 0 <= arg4 -> sys_prctl option arg2 arg3 arg4 arg5 t um = (r, t', um') -> r < 0 ->
  t' = t \/
  (option = PR_MCE_KILL /\ arg2 = PR_MCE_KILL_SET /\ r = - EINVAL /\
   ~ In arg3 [PR_MCE_KILL_LATE; PR_MCE_KILL_EARLY; PR_MCE_KILL_DEFAULT] /\
   t' = upd_flags (Z.lor (pflags t) PF_MCE_PROCESS) t).
Proof.
  intros Hwf H4 H Hr. unfold sys_prctl in H. cbv zeta in H.
  repeat match type of H with
  | (if ?b then _ else _) = _ => let Hb := fresh "Ho" in destruct b eqn:Hb
  end; try (left; injection H; congruence).
  - unfold prctl_signal in H. repeat case_if_in H; try (injection H as <- <- <-; (by left) || lia).
    destruct (put_user _ _ _ _). left. congruence.
  - unfold prctl_name in H. repeat case_if_in H; try (injection H as <- <- <-; (by left) || lia).
    + destruct (strncpy_from_user _ _ _); injection H as <- <- <-; [lia|by left].
    + destruct (copy_to_user _ _ _). left. congruence.
  - unfold prctl_timerslack in H. case_if_in H; injection H as <- <- <-; [by left|lia].
  - unfold prctl_mce_kill in H. cbv zeta in H.
    repeat case_if_in H; injection H as <- <- <-; try (by left); try lia.
    right. bool_hyps. repeat split; try done. cbn. intuition.
  - destruct (prctl_set_mm _ _ _ _ _ _) as [[q m] um1] eqn:Em. injection H as <- <- <-.
    apply prctl_set_mm_inv in Em as (_ & _ & Em); [|done..]. rewrite Em by lia. left. apply upd_mm_same.
  - destruct (prctl_get_tid_address _ _ _). left. congruence.
  - unfold prctl_subreaper in H. repeat case_if_in H; try (injection H as <- <- <-; lia).
    destruct (put_user _ _ _ _). left. congruence.
  - unfold prctl_nnp in H. repeat case_if_in H; injection H as <- <- <-; (by left) || lia.
  - unfold prctl_thp in H. repeat case_if_in H; injection H as <- <- <-; (by left) || lia.
  - unfold prctl_io_flusher in H. repeat case_if_in H; injection H as <- <- <-; (by left) || lia.
  - unfold prctl_set_mdwe in H. cbv zeta in H. do 4 (case_if_in H; [injection H as <- <- <-; by left|]).
    injection H as <- _ _. lia.
  - destruct (prctl_get_auxv _ _ _ _). left. congruence.
Qed.

End theorems.

(** ** A concrete task *)

Definition demo_prctl_env : PrctlEnv := {|
  security_task_prctl := fun _ _ _ _ _ => - ENOSYS; external_prctl := fun _ _ _ _ _ => - EINVAL;
  strncpy_from_user := fun _ p n um => copy_from_user p n um;
  strndup_user := fun _ _ _ _ => inl (- EFAULT); anon_vma_name_alloc := fun _ => true;
  madvise_set_anon_name := fun _ _ _ => 0; mmap_write_lock_killed := false; me := 1;
  prctl_child_reaper := fun _ => false; walk_fuel := 20 |}.

Definition demo_task : task := {|
  pdeath_signal := 0; dumpable := 1; comm := replicate 16 0; timer_slack_ns := 50000;
  default_timer_slack_ns := 50000; pflags := 0; is_child_subreaper := false; flagged := ∅;
  no_new_privs := false; clear_child_tid := 0; thp_disabled := false; mdwe := false;
  mdwe_no_inherit := false; task_mm := demo_mm |}.

(** prctl(PR_MCE_KILL, PR_MCE_KILL_SET, 7, 0, 0) *)
Lemma prctl_error_atomic_witness :
  (sys_prctl (P := demo_prctl_env) (M := demo_mm_env) (T := demo_tree) (U := last_copy)
     PR_MCE_KILL PR_MCE_KILL_SET 7 0 0 demo_task (fun _ => None)).1
  = (- EINVAL, upd_flags PF_MCE_PROCESS demo_task).
Proof.
  destruct (prctl_error_atomic (P := demo_prctl_env) (M := demo_mm_env) (T := demo_tree) (U := last_copy)
              PR_MCE_KILL PR_MCE_KILL_SET 7 0 0 demo_task (fun _ => None) (- EINVAL)
              (upd_flags PF_MCE_PROCESS demo_task) (fun _ => None) demo_mm_wf) as [H|(_ & _ & _ & _ & H)];
    [lia|reflexivity|reflexivity|discriminate H|]. reflexivity.
Defined.
