(* ===== verification/Unshare.v ===== *)
(** * Unsharing process context (kernel/fork.c: ksys_unshare and its helpers)

    The structures a task shares (filesystem information, descriptor table,
    credentials, namespace proxy) are reference-counted objects; the state is the
    four references of the calling task and the count of every object.  Whether an
    allocation succeeds and what the namespace code answers are parameters
    (class [UnshareEnv]). *)
From S2P Require Import Prelude.

(** ** Flags (uapi/linux/sched.h) *)

Definition CSIGNAL := 255.
Definition CLONE_NEWTIME := 128.
Definition CLONE_VM := 256.
Definition CLONE_FS := 512.
Definition CLONE_FILES := 1024.
Definition CLONE_SIGHAND := 2048.
Definition CLONE_PIDFD := 4096.
Definition CLONE_PTRACE := 8192.
Definition CLONE_VFORK := 16384.
Definition CLONE_PARENT := 32768.
Definition CLONE_THREAD := 65536.
Definition CLONE_NEWNS := 131072.
Definition CLONE_SYSVSEM := 262144.
Definition CLONE_SETTLS := 524288.
Definition CLONE_PARENT_SETTID := 1048576.
Definition CLONE_CHILD_CLEARTID := 2097152.
Definition CLONE_DETACHED := 4194304.
Definition CLONE_UNTRACED := 8388608.
Definition CLONE_CHILD_SETTID := 16777216.
Definition CLONE_NEWCGROUP := 33554432.
Definition CLONE_NEWUTS := 67108864.
Definition CLONE_NEWIPC := 134217728.
Definition CLONE_NEWUSER := 268435456.
Definition CLONE_NEWPID := 536870912.
Definition CLONE_NEWNET := 1073741824.
Definition CLONE_IO := 2147483648.
Definition CLONE_CLEAR_SIGHAND := 4294967296.
Definition CLONE_INTO_CGROUP := 8589934592.

(** [a|b|...] *)
Definition flags_or (l : list Z) : Z := foldr Z.lor 0 l.

(** ** State *)

Record context := {
  fs : option Z; files : option Z; ctx_cred : Z; nsproxy : Z;     (** current->... *)
  refs : Z -> Z;                                   (** users/count of each object *)
  next_obj : Z;                                    (** the allocator *)
  sem_exits : Z; shm_exits : Z                     (** exit_sem, exit_shm calls *)
}.

Class UnshareEnv := {
  thread_group_empty : bool;
  sighand_count : Z;
  single_threaded : bool;
  copy_fs_ok : bool;
  dup_fd_error : Z;                        (** 0: dup_fd succeeds *)
  unshare_userns : Z -> Z * bool;          (** error, and whether *new_cred was set *)
  unshare_nsproxy : Z -> Z * bool;         (** error, and whether *new_nsp was set *)
  ucounts_error : Z
}.

Definition add_ref (obj d : Z) (c : context) : context :=
  {| fs := fs c; files := files c; ctx_cred := ctx_cred c; nsproxy := nsproxy c;
     refs := fun o => if o =? obj then refs c o + d else refs c o;
     next_obj := next_obj c; sem_exits := sem_exits c; shm_exits := shm_exits c |}.

(** A new object with one reference, held by the local variable. *)
Definition alloc (c : context) : Z * context :=
  (next_obj c,
   {| fs := fs c; files := files c; ctx_cred := ctx_cred c; nsproxy := nsproxy c;
      refs := fun o => if o =? next_obj c then 1 else refs c o;
      next_obj := next_obj c + 1; sem_exits := sem_exits c; shm_exits := shm_exits c |}).

Definition set_ctx (f fd : option Z) (cr ns : Z) (c : context) : context :=
  {| fs := f; files := fd; ctx_cred := cr; nsproxy := ns; refs := refs c;
     next_obj := next_obj c; sem_exits := sem_exits c; shm_exits := shm_exits c |}.

Definition add_exits (sem shm : Z) (c : context) : context :=
  {| fs := fs c; files := files c; ctx_cred := ctx_cred c; nsproxy := nsproxy c; refs := refs c;
     next_obj := next_obj c; sem_exits := sem_exits c + sem; shm_exits := shm_exits c + shm |}.

(** put_cred, put_files_struct, free_fs_struct, put_nsproxy on a local variable. *)
Definition put (o : option Z) (c : context) : context :=
  match o with Some obj => add_ref obj (-1) c | None => c end.

Definition is_set (o : option Z) : bool := match o with Some _ => true | None => false end.

Section syscalls.
Context {E : UnshareEnv}.

Definition unshare_known : Z :=
  flags_or [CLONE_THREAD; CLONE_FS; CLONE_NEWNS; CLONE_SIGHAND; CLONE_VM; CLONE_FILES; CLONE_SYSVSEM;
            CLONE_NEWUTS; CLONE_NEWIPC; CLONE_NEWNET; CLONE_NEWUSER; CLONE_NEWPID; CLONE_NEWCGROUP;
            CLONE_NEWTIME].

Definition check_unshare_flags (f : Z) : Z :=
  if c_true (clear f unshare_known) then - EINVAL
  else if has f (flags_or [CLONE_THREAD; CLONE_SIGHAND; CLONE_VM]) && negb thread_group_empty then - EINVAL
  else if has f (flags_or [CLONE_SIGHAND; CLONE_VM]) && (1 <? sighand_count) then - EINVAL
  else if has f CLONE_VM && negb single_threaded then - EINVAL
  else 0.

(** The error and the new structure, if one was needed. *)
Definition unshare_fs (f : Z) (c : context) : Z * option Z * context :=
  match fs c with
  | Some cur =>
      if negb (has f CLONE_FS) then (0, None, c)
      else if refs c cur =? 1 then (0, None, c)
      else if copy_fs_ok then let '(obj, c) := alloc c in (0, Some obj, c)
      else (- ENOMEM, None, c)
  | None => (0, None, c)
  end.

Definition unshare_fd (f : Z) (c : context) : Z * option Z * context :=
  match files c with
  | Some cur =>
      if has f CLONE_FILES && (1 <? refs c cur) then
        if c_true dup_fd_error then (dup_fd_error, None, c)
        else let '(obj, c) := alloc c in (0, Some obj, c)
      else (0, None, c)
  | None => (0, None, c)
  end.

(** The two functions of the namespace code allocate in the same way. *)
Definition unshare_ext (r : Z * bool) (c : context) : Z * option Z * context :=
  let '(err, made) := r in
  if made then let '(obj, c) := alloc c in (err, Some obj, c) else (err, None, c).

Definition imply_flags (f : Z) : Z :=
  let f := if has f CLONE_NEWUSER then Z.lor f (Z.lor CLONE_THREAD CLONE_FS) else f in
  let f := if has f CLONE_VM then Z.lor f CLONE_SIGHAND else f in
  let f := if has f CLONE_SIGHAND then Z.lor f CLONE_THREAD else f in
  if has f CLONE_NEWNS then Z.lor f CLONE_FS else f.

(** The block that switches the task over; it hands back what is left to release. *)
Definition install (f : Z) (do_sysvsem : bool) (new_fs new_fd new_cred new_nsproxy : option Z)
    (c : context) : option Z * option Z * option Z * context :=
  if is_set new_fs || is_set new_fd || do_sysvsem || is_set new_cred || is_set new_nsproxy then
    let c := if do_sysvsem then add_exits 1 0 c else c in
    let c := if has f CLONE_NEWIPC then add_exits 0 1 c else c in
    let c := match new_nsproxy with
             | Some ns => add_ref (nsproxy c) (-1) (set_ctx (fs c) (files c) (ctx_cred c) ns c)
             | None => c
             end in
    let '(new_fs, c) :=
      match new_fs, fs c with
      | Some nfs, Some old =>
          let c := set_ctx (Some nfs) (files c) (ctx_cred c) (nsproxy c) c in
          (* --fs->users: when others still use it nothing is freed; when this was the
             last user the structure itself is freed at the end *)
          let users := refs c old - 1 in
          if c_true users then (None, add_ref old (-1) c) else (Some old, c)
      | _, _ => (new_fs, c)
      end in
    let '(new_fd, c) :=
      match new_fd with
      | Some nfd => (files c, set_ctx (fs c) (Some nfd) (ctx_cred c) (nsproxy c) c)
      | None => (None, c)
      end in
    let '(new_cred, c) :=
      match new_cred with
      | Some ncr => (None, add_ref (ctx_cred c) (-1) (set_ctx (fs c) (files c) ncr (nsproxy c) c))
      | None => (None, c)
      end in
    (new_fs, new_fd, new_cred, c)
  else (new_fs, new_fd, new_cred, c).

Definition ksys_unshare (flags : Z) (c : context) : Z * context :=
  let f := imply_flags flags in
  let err := check_unshare_flags f in
  if c_true err then (err, c)
  else
    let do_sysvsem := has f (Z.lor CLONE_NEWIPC CLONE_SYSVSEM) in
    let '(err, new_fs, c) := unshare_fs f c in
    if c_true err then (err, c)
    else
      let '(err, new_fd, c) := unshare_fd f c in
      if c_true err then (err, put new_fs c)
      else
        let '(err, new_cred, c) := unshare_ext (unshare_userns f) c in
        if c_true err then (err, put new_fs (put new_fd c))
        else
          let '(err, new_nsproxy, c) := unshare_ext (unshare_nsproxy f) c in
          if c_true err then (err, put new_fs (put new_fd (put new_cred c)))
          else
            let err := if is_set new_cred then ucounts_error else 0 in
            if c_true err then (err, put new_fs (put new_fd (put new_cred c)))
            else
              let '(new_fs, new_fd, new_cred, c) :=
                install f do_sysvsem new_fs new_fd new_cred new_nsproxy c in
              (0, put new_fs (put new_fd (put new_cred c))).

(** exec's variant *)
Definition unshare_files (c : context) : Z * context :=
  let '(err, copy, c) := unshare_fd CLONE_FILES c in
  match copy with
  | None => (err, c)
  | Some obj =>
      if c_true err then (err, c)
      else
        let old := files c in
        (0, put old (set_ctx (fs c) (Some obj) (ctx_cred c) (nsproxy c) c))
  end.

End syscalls.

(** ** Reference accounting *)

Definition delta (x o : Z) : Z := if o =? x then 1 else 0.
Definition odelta (x : option Z) (o : Z) : Z := match x with Some x => delta x o | None => 0 end.

(** The references the task itself holds on [o], and those of everybody else
    (a leaked object shows up as a reference of nobody). *)
Definition held (c : context) (o : Z) : Z :=
  odelta (fs c) o + odelta (files c) o + delta (ctx_cred c) o + delta (nsproxy c) o.
Definition foreign (c : context) (o : Z) : Z := refs c o - held c o.

Definition same_slots (a b : context) : Prop :=
  fs a = fs b /\ files a = files b /\ ctx_cred a = ctx_cred b /\ nsproxy a = nsproxy b.

(** Object numbers from [next_obj] on are unused. *)
Definition fresh_above (c : context) : Prop := forall o, next_obj c <= o -> refs c o = 0.

Lemma refs_add_ref obj d c o : refs (add_ref obj d c) o = refs c o + d * delta obj o.
Proof. cbn. unfold delta. case_if; lia. Qed.

Lemma alloc_spec c obj c' :
  fresh_above c -> alloc c = (obj, c') ->
  (next_obj c <= next_obj c' /\ obj = next_obj c) /\ fresh_above c' /\ same_slots c' c /\ forall o, foreign c' o = foreign c o + delta obj o.
Proof.
  intros Hf [= <- <-]. split; [cbn; lia|]. split; [|split; [by repeat split|]].
  - intros o Ho. cbn in *. case_if; [lia|]. apply Hf. lia.
  - intros o. unfold foreign, held, delta. cbn. destruct (Z.eqb_spec o (next_obj c)) as [->|]; [|lia].
    rewrite (Hf (next_obj c)) by lia. lia.
Qed.

Lemma put_foreign x c o : foreign (put x c) o = foreign c o - odelta x o.
Proof. destruct x; unfold foreign, held; cbn [put odelta]; [rewrite refs_add_ref; cbn|]; lia. Qed.

Lemma put_slots x c : same_slots (put x c) c.
Proof. destruct x; by repeat split. Qed.

Lemma same_slots_trans a b c : same_slots a b -> same_slots b c -> same_slots a c.
Proof. unfold same_slots. intuition congruence. Qed.

Section accounting.
Context {E : UnshareEnv}.

(** What each of the four preparation steps does. *)
Definition prepared (c : context) (r : Z * option Z * context) : Prop :=
  let '(err, x, c') := r in
  (next_obj c <= next_obj c' /\ forall obj, x = Some obj -> next_obj c <= obj) /\
  fresh_above c' /\ same_slots c' c /\ (err <> 0 -> x = None) /\
  forall o, foreign c' o = foreign c o + odelta x o.

Lemma prepared_none c err : fresh_above c -> prepared c (err, None, c).
Proof. intros H. split; [split; [lia|done]|]. repeat split; try done. intros o. cbn. lia. Qed.

Lemma prepared_alloc c : fresh_above c -> prepared c (let '(obj, c) := alloc c in (0, Some obj, c)).
Proof.
  intros H. destruct (alloc c) as [obj c'] eqn:Ea. apply alloc_spec in Ea as ((H0 & ->) & H1 & H2 & H3); [|done].
  split; [split; [done|intros ? [= <-]; lia]|]. by repeat split; try apply H2.
Qed.

Lemma unshare_fs_prepared f c : fresh_above c -> prepared c (unshare_fs f c).
Proof.
  intros H. unfold unshare_fs. destruct (fs c); [|by apply prepared_none].
  repeat (case_if; try by apply prepared_none). by apply prepared_alloc.
Qed.

Lemma unshare_fs_some f c e x c' : unshare_fs f c = (e, Some x, c') -> is_Some (fs c).
Proof. unfold unshare_fs. destruct (fs c); [eauto|done]. Qed.

Lemma unshare_fd_prepared f c : fresh_above c -> prepared c (unshare_fd f c).
Proof.
  intros H. unfold unshare_fd. destruct (files c); [|by apply prepared_none].
  repeat (case_if; try by apply prepared_none). by apply prepared_alloc.
Qed.

Lemma unshare_ext_prepared r c :
  fresh_above c -> (r.1 <> 0 -> r.2 = false) -> prepared c (unshare_ext r c).
Proof.
  intros H Hr. unfold unshare_ext. destruct r as [err made]. cbn [fst snd] in Hr.
  destruct made; [|by apply prepared_none].
  assert (err = 0) as -> by (destruct (Z.eq_dec err 0); [done|by specialize (Hr n)]).
  by apply prepared_alloc.
Qed.

Ltac account := unfold foreign, held in *; repeat rewrite refs_add_ref in *;
  cbn [fs files ctx_cred nsproxy refs set_ctx add_ref add_exits odelta] in *.

(** The switch-over moves the four prepared references into the task and hands the
    old ones out. *)
Lemma install_foreign f b nf nd nc nn c nf' nd' nc' c' :
  (is_Some nf -> is_Some (fs c)) ->
  install f b nf nd nc nn c = (nf', nd', nc', c') ->
  forall o, foreign c' o - odelta nf' o - odelta nd' o - odelta nc' o =
            foreign c o - odelta nf o - odelta nd o - odelta nc o - odelta nn o.
Proof.
  intros Hfs H o. unfold install in H. case_if_in H.
  2: { injection H as <- <- <- <-. bool_hyps. destruct nn; [done|]. cbn [odelta]. lia. }
  clear Hif.
  set (c1 := if b then add_exits 1 0 c else c) in H.
  set (c2 := if has f CLONE_NEWIPC then add_exits 0 1 c1 else c1) in H.
  assert (H12 : same_slots c2 c /\ refs c2 = refs c)
    by (subst c2 c1; destruct b, (has f CLONE_NEWIPC); by repeat split).
  clearbody c2. clear c1. destruct H12 as [(S1 & S2 & S3 & S4) S5].
  set (c3 := match nn with Some _ => _ | None => _ end) in H.
  assert (H3 : foreign c3 o = foreign c o - odelta nn o /\ fs c3 = fs c).
  { subst c3. destruct nn; account; rewrite ?S1, ?S2, ?S3, ?S4, ?S5; split; (lia || done). }
  clearbody c3. destruct H3 as [H3 F3].
  destruct (match nf with Some _ => _ | None => _ end) as [nf2 c4] eqn:E4.
  assert (H4 : foreign c4 o - odelta nf2 o = foreign c3 o - odelta nf o).
  { destruct nf as [nfs|]; [|by injection E4 as <- <-]. rewrite F3 in E4.
    destruct (fs c) as [old|] eqn:Ef; [|destruct (Hfs (mk_is_Some _ _ eq_refl)); done].
    case_if_in E4; injection E4 as <- <-; account; rewrite F3; cbn [odelta]; lia. }
  clear E4 F3.
  destruct (match nd with Some _ => _ | None => _ end) as [nd2 c5] eqn:E5.
  assert (H5 : foreign c5 o - odelta nd2 o = foreign c4 o - odelta nd o).
  { destruct nd; injection E5 as <- <-; account; lia. }
  clear E5. destruct nc as [ncr|]; injection H as <- <- <- <-; [account|cbn [odelta]]; lia.
Qed.

(** C18: reference accounting of unshare: on every path, successful or failing at any
    step, what everybody else holds on every object of the system is unchanged (so
    each structure that was prepared is either installed in the task or released and
    each replaced one is released), and a failing call leaves the task with the
    structures it had -- with one exception: when set_cred_ucounts fails after a new
    namespace proxy was made, that proxy stays allocated with nobody holding it. *)
Theorem unshare_balance flags c r c' :
  fresh_above c ->
  ((unshare_userns (imply_flags flags)).1 <> 0 -> (unshare_userns (imply_flags flags)).2 = false) ->
  ((unshare_nsproxy (imply_flags flags)).1 <> 0 -> (unshare_nsproxy (imply_flags flags)).2 = false) ->
  ksys_unshare flags c = (r, c') ->
  (r <> 0 -> same_slots c' c) /\
  ((forall o, foreign c' o = foreign c o) \/
   (r = ucounts_error /\ r <> 0 /\ exists leaked, refs c leaked = 0 /\
      forall o, foreign c' o = foreign c o + delta leaked o)).
Proof.
  intros Hfr Hu Hn H. unfold ksys_unshare in H. set (f := imply_flags flags) in *. cbv zeta in H.
  case_if_in H; [injection H as <- <-; split; [by repeat split|by left]|]. clear Hif.
  pose proof (unshare_fs_prepared f c Hfr) as P1. pose proof (unshare_fs_some f c) as Psome.
  destruct (unshare_fs f c) as [[e1 nf] c1] eqn:E1. destruct P1 as ([O1 X1] & F1 & S1 & N1 & B1).
  case_if_in H.
  { apply c_true_true in Hif. rewrite (N1 Hif) in B1. injection H as <- <-. split; [done|].
    left. intros o. rewrite B1. cbn. lia. }
  clear Hif. pose proof (unshare_fd_prepared f c1 F1) as P2.
  destruct (unshare_fd f c1) as [[e2 nd] c2]. destruct P2 as ([O2 X2] & F2 & S2 & N2 & B2).
  case_if_in H.
  { apply c_true_true in Hif. rewrite (N2 Hif) in B2. injection H as <- <-.
    split; [intros _; eauto using put_slots, same_slots_trans|].
    left. intros o. rewrite put_foreign, B2, B1. cbn. lia. }
  clear Hif. pose proof (unshare_ext_prepared (unshare_userns f) c2 F2 Hu) as P3.
  destruct (unshare_ext (unshare_userns f) c2) as [[e3 nc] c3]. destruct P3 as ([O3 X3] & F3 & S3 & N3 & B3).
  case_if_in H.
  { apply c_true_true in Hif. rewrite (N3 Hif) in B3. injection H as <- <-.
    split; [intros _; eauto 6 using put_slots, same_slots_trans|].
    left. intros o. rewrite !put_foreign, B3, B2, B1. cbn. lia. }
  clear Hif. pose proof (unshare_ext_prepared (unshare_nsproxy f) c3 F3 Hn) as P4.
  destruct (unshare_ext (unshare_nsproxy f) c3) as [[e4 nn] c4] eqn:E4. destruct P4 as ([O4 X4] & F4 & S4 & N4 & B4).
  case_if_in H.
  { apply c_true_true in Hif. rewrite (N4 Hif) in B4. injection H as <- <-.
    split; [intros _; eauto 10 using put_slots, same_slots_trans|].
    left. intros o. rewrite !put_foreign, B4, B3, B2, B1. cbn. lia. }
  clear Hif.
  case_if_in H.
  { apply c_true_true in Hif. injection H as <- <-.
    split; [intros _; eauto 10 using put_slots, same_slots_trans|].
    destruct nn as [leaked|]; [right|left; intros o; rewrite !put_foreign, B4, B3, B2, B1; cbn; lia].
    destruct nc; [|done]. cbn [is_set] in *. split; [done|]. split; [done|]. exists leaked. split.
    - apply Hfr. specialize (X4 leaked eq_refl). lia.
    - intros o. rewrite !put_foreign, B4, B3, B2, B1. cbn. lia. }
  clear Hif. destruct (install _ _ _ _ _ _ _) as [[[nf' nd'] nc'] c5] eqn:Ei. injection H as <- <-.
  split; [done|left]. intros o. rewrite !put_foreign.
  assert (Hsome : is_Some nf -> is_Some (fs c4)).
  { intros [x ->]. destruct S1 as [S1 _], S2 as [S2 _], S3 as [S3 _], S4 as [S4 _].
    rewrite S4, S3, S2, S1. by eapply Psome. }
  pose proof (install_foreign _ _ _ _ _ _ _ _ _ _ _ Hsome Ei o) as Hi.
  rewrite B4, B3, B2, B1 in Hi. lia.
Qed.

End accounting.

(** ** The leak, and a run without one *)

Definition demo_unshare_env (ucounts : Z) : UnshareEnv := {|
  thread_group_empty := true; sighand_count := 1; single_threaded := true; copy_fs_ok := true;
  dup_fd_error := 0; unshare_userns := fun f => (0, has f CLONE_NEWUSER);
  unshare_nsproxy := fun f => (0, has f (flags_or [CLONE_NEWNS; CLONE_NEWUTS; CLONE_NEWIPC]));
  ucounts_error := ucounts
|}.

(** A task that shares its fs structure (object 1) and descriptor table (2). *)
Definition demo_context : context := {|
  fs := Some 1; files := Some 2; ctx_cred := 3; nsproxy := 4;
  refs := fun o => if (o =? 1) || (o =? 2) then 2 else if (o =? 3) || (o =? 4) then 5 else 0;
  next_obj := 5; sem_exits := 0; shm_exits := 0 |}.

Lemma demo_fresh : fresh_above demo_context.
Proof. intros o Ho. cbn in *. repeat case_if; lia. Qed.

(** unshare(CLONE_NEWUSER | CLONE_NEWNS | CLONE_FILES) *)
Lemma unshare_balance_witness :
  let c' := (ksys_unshare (E := demo_unshare_env (- EAGAIN)) (CLONE_NEWUSER + CLONE_NEWNS + CLONE_FILES)
               demo_context).2 in
  (foreign c' 8 = 1 /\ foreign demo_context 8 = 0) /\ same_slots c' demo_context.
Proof.
  destruct (unshare_balance (E := demo_unshare_env (- EAGAIN)) (CLONE_NEWUSER + CLONE_NEWNS + CLONE_FILES)
              demo_context _ _ demo_fresh (fun H => False_ind _ (H eq_refl))
              (fun H => False_ind _ (H eq_refl)) (surjective_pairing _)) as [Hs _].
  split; [split; vm_compute; reflexivity|]. apply Hs. vm_compute. discriminate.
Defined.

(** The closure of the flag set: every sharing the code says must go together. *)
Lemma imply_flags_closed flags :
  let f := imply_flags flags in
  (has f CLONE_NEWUSER = true -> has f CLONE_THREAD = true /\ has f CLONE_FS = true) /\
  (has f CLONE_VM = true -> has f CLONE_SIGHAND = true) /\
  (has f CLONE_SIGHAND = true -> has f CLONE_THREAD = true) /\
  (has f CLONE_NEWNS = true -> has f CLONE_FS = true).
Proof.
  cbv zeta. unfold imply_flags. cbv zeta. rewrite !has_if_lor.
  generalize (has flags CLONE_NEWUSER) (has flags CLONE_VM) (has flags CLONE_SIGHAND)
    (has flags CLONE_NEWNS) (has flags CLONE_THREAD) (has flags CLONE_FS).
  intros [] [] [] [] [] []; vm_compute; tauto.
Qed.
