(* ===== verification/Clone.v ===== *)
(** * Process creation entry points (kernel/fork.c: kernel_clone, clone, clone3 ...)

    The part of process creation in front of and behind [copy_process]: decoding and
    validating the arguments of clone, clone3, fork, vfork and kernel threads, the
    consistency checks on the flags at the head of [copy_process], and what
    [kernel_clone] does around it, as a log of effects.  The construction of the new
    task itself is a parameter. *)
From S2P Require Import Prelude UserMem Unshare Track.

Record kernel_clone_args := {
  flags : Z; pidfd : Z; child_tid : Z; parent_tid : Z; exit_signal : Z;
  stack : Z; stack_size : Z; tls : Z; set_tid : list Z; set_tid_size : Z; cgroup : Z;
  kthread : bool
}.

Definition no_args : kernel_clone_args :=
  {| flags := 0; pidfd := 0; child_tid := 0; parent_tid := 0; exit_signal := 0; stack := 0;
     stack_size := 0; tls := 0; set_tid := []; set_tid_size := 0; cgroup := 0; kthread := false |}.

Definition E2BIG := 7.
Definition SIGCHLD := 17.
Definition NSIG := 64.
Definition INT_MAX := 2147483647.
Definition MAX_PID_NS_LEVEL := 32.
Definition CLONE_ARGS_SIZE_VER0 := 64.
Definition CLONE_ARGS_SIZE_VER1 := 80.
Definition CLONE_ARGS_SIZE_VER2 := 88.
Definition CLONE_LEGACY_FLAGS := 4294967295.
Definition PTRACE_EVENT_FORK := 1.
Definition PTRACE_EVENT_VFORK := 2.
Definition PTRACE_EVENT_CLONE := 3.
Definition PTRACE_EVENT_VFORK_DONE := 5.

(** linux/signal.h: [valid_signal(sig)] is [sig <= _NSIG]. *)
Definition valid_signal (sig : Z) : bool := sig <=? NSIG.

(** What kernel_clone does outside its local variables, in order. *)
Inductive effect :=
| Copied (task : Z)               (** copy_process made this task *)
| GetPid (task : Z) | PutPid (task : Z)
| StoreTid (addr nr : Z)
| GetTask (task : Z) | PutTask (task : Z)
| Wake (task : Z)
| PtraceEvent (event task : Z)
| WaitVfork (task : Z).

Class CloneEnv := {
  (** the rest of copy_process: an error or the new task *)
  copy_process_rest : kernel_clone_args -> Z -> Z + Z;
  signal_unkillable : bool;
  pid_ns_for_children_differs : bool;
  ptrace_event_enabled : Z -> bool;
  pid_vnr : Z -> Z;
  vfork_killed : bool;              (** the wait for the child was interrupted *)
  access_ok : Z -> Z -> bool;
  (** [copy_struct_from_user(&args, 88, uargs, usize)]: an error or the 88 bytes *)
  copy_struct_from_user : forall {U : UserAccess}, nat -> Z -> Z -> umem -> Z + list Z;
  copy_struct_len : forall {U : UserAccess} n p sz um bs,
    copy_struct_from_user n p sz um = inr bs -> length bs = n
}.

Section clone.
Context {E : CloneEnv}.

(** The checks at the head of copy_process. *)
Definition copy_process_checks (f : Z) : Z :=
  if Z.land f (Z.lor CLONE_NEWNS CLONE_FS) =? Z.lor CLONE_NEWNS CLONE_FS then - EINVAL
  else if Z.land f (Z.lor CLONE_NEWUSER CLONE_FS) =? Z.lor CLONE_NEWUSER CLONE_FS then - EINVAL
  else if has f CLONE_THREAD && negb (has f CLONE_SIGHAND) then - EINVAL
  else if has f CLONE_SIGHAND && negb (has f CLONE_VM) then - EINVAL
  else if has f CLONE_PARENT && signal_unkillable then - EINVAL
  else if has f CLONE_THREAD
          && (has f (Z.lor CLONE_NEWUSER CLONE_NEWPID) || pid_ns_for_children_differs) then - EINVAL
  else if has f CLONE_PIDFD && has f (Z.lor CLONE_DETACHED CLONE_THREAD) then - EINVAL
  else 0.

Definition copy_process (trace : Z) (args : kernel_clone_args) : Z + Z :=
  let err := copy_process_checks (flags args) in
  if c_true err then inl err else copy_process_rest args trace.

Definition clone_trace (args : kernel_clone_args) : Z :=
  if negb (has (flags args) CLONE_UNTRACED) then
    let trace :=
      if has (flags args) CLONE_VFORK then PTRACE_EVENT_VFORK
      else if negb (exit_signal args =? SIGCHLD) then PTRACE_EVENT_CLONE
      else PTRACE_EVENT_FORK in
    if ptrace_event_enabled trace then trace else 0
  else 0.

Definition kernel_clone (args : kernel_clone_args) : Z * list effect :=
  if has (flags args) CLONE_PIDFD && has (flags args) CLONE_PARENT_SETTID
     && (pidfd args =? parent_tid args)
  then (- EINVAL, [])
  else
    let trace := clone_trace args in
    match copy_process trace args with
    | inl err => (err, [])
    | inr p =>
        let nr := pid_vnr p in
        let vfork := has (flags args) CLONE_VFORK in
        (nr,
         [Copied p; GetPid p]
         ++ (if has (flags args) CLONE_PARENT_SETTID then [StoreTid (parent_tid args) nr] else [])
         ++ (if vfork then [GetTask p] else [])
         ++ [Wake p]
         ++ (if c_true trace then [PtraceEvent trace p] else [])
         ++ (if vfork then
               [WaitVfork p; PutTask p]
               ++ (if negb vfork_killed then [PtraceEvent PTRACE_EVENT_VFORK_DONE p] else [])
             else [])
         ++ [PutPid p])
    end.

Definition lower_32_bits (x : Z) : Z := u32 x.

Definition kernel_thread_args (f : Z) (is_kthread : bool) : kernel_clone_args :=
  {| flags := clear (Z.lor (Z.lor (lower_32_bits f) CLONE_VM) CLONE_UNTRACED) CSIGNAL;
     pidfd := 0; child_tid := 0; parent_tid := 0;
     exit_signal := Z.land (lower_32_bits f) CSIGNAL; stack := 0; stack_size := 0; tls := 0;
     set_tid := []; set_tid_size := 0; cgroup := 0; kthread := is_kthread |}.

Definition kernel_thread (f : Z) : Z * list effect := kernel_clone (kernel_thread_args f true).
Definition user_mode_thread (f : Z) : Z * list effect := kernel_clone (kernel_thread_args f false).

Definition fork_args : kernel_clone_args :=
  {| flags := 0; pidfd := 0; child_tid := 0; parent_tid := 0; exit_signal := SIGCHLD; stack := 0;
     stack_size := 0; tls := 0; set_tid := []; set_tid_size := 0; cgroup := 0; kthread := false |}.

Definition sys_fork : Z * list effect := kernel_clone fork_args.

Definition vfork_args : kernel_clone_args :=
  {| flags := Z.lor CLONE_VFORK CLONE_VM; pidfd := 0; child_tid := 0; parent_tid := 0;
     exit_signal := SIGCHLD; stack := 0; stack_size := 0; tls := 0; set_tid := []; set_tid_size := 0;
     cgroup := 0; kthread := false |}.

Definition sys_vfork : Z * list effect := kernel_clone vfork_args.

Definition clone_args (clone_flags newsp parent_tidptr child_tidptr tls_ : Z) : kernel_clone_args :=
  {| flags := clear (lower_32_bits clone_flags) CSIGNAL; pidfd := parent_tidptr;
     child_tid := child_tidptr; parent_tid := parent_tidptr;
     exit_signal := Z.land (lower_32_bits clone_flags) CSIGNAL; stack := newsp; stack_size := 0;
     tls := tls_; set_tid := []; set_tid_size := 0; cgroup := 0; kthread := false |}.

(** The clone syscall of this kernel counts itself first; [None]: the counter access
    was out of bounds. *)
Definition sys_clone (now : timespec64) (clone_flags newsp parent_tidptr child_tidptr tls_ : Z)
    (tr : track_state) : option (Z * list effect * track_state) :=
  match track_syscall now NR_clone tr with
  | None => None
  | Some tr =>
      let '(r, log) := kernel_clone (clone_args clone_flags newsp parent_tidptr child_tidptr tls_) in
      Some (r, log, tr)
  end.

(** *** clone3 *)

Definition clone3_stack_valid (a : kernel_clone_args) : option kernel_clone_args :=
  if stack a =? 0 then if 0 <? stack_size a then None else Some a
  else if stack_size a =? 0 then None
  else if negb (access_ok (stack a) (stack_size a)) then None
  else
    Some {| flags := flags a; pidfd := pidfd a; child_tid := child_tid a; parent_tid := parent_tid a;
            exit_signal := exit_signal a; stack := u64 (stack a + stack_size a);
            stack_size := stack_size a; tls := tls a; set_tid := set_tid a;
            set_tid_size := set_tid_size a; cgroup := cgroup a; kthread := kthread a |}.

(** [None]: invalid; otherwise the arguments with the stack adjusted. *)
Definition clone3_args_valid (a : kernel_clone_args) : option kernel_clone_args :=
  if c_true (clear (flags a) (Z.lor (Z.lor CLONE_LEGACY_FLAGS CLONE_CLEAR_SIGHAND) CLONE_INTO_CGROUP)) then None
  else if has (flags a) (Z.lor CLONE_DETACHED (clear CSIGNAL CLONE_NEWTIME)) then None
  else if Z.land (flags a) (Z.lor CLONE_SIGHAND CLONE_CLEAR_SIGHAND)
          =? Z.lor CLONE_SIGHAND CLONE_CLEAR_SIGHAND then None
  else if has (flags a) (Z.lor CLONE_THREAD CLONE_PARENT) && c_true (exit_signal a) then None
  else clone3_stack_valid a.

Context {U : UserAccess}.

(** struct clone_args: eleven 64-bit members. *)
Definition copy_clone_args_from_user (uargs usize : Z) (um : umem) : Z + kernel_clone_args :=
  if PAGE_SIZE <? usize then inl (- E2BIG)
  else if usize <? CLONE_ARGS_SIZE_VER0 then inl (- EINVAL)
  else
    match copy_struct_from_user 88 uargs usize um with
    | inl err => inl err
    | inr bs =>
        let w n := le_val (slice (8 * n) 8 bs) in
        let u_flags := w 0%nat in
        let u_exit_signal := w 4%nat in
        let u_set_tid := w 8%nat in
        let u_set_tid_size := w 9%nat in
        let u_cgroup := w 10%nat in
        if MAX_PID_NS_LEVEL <? u_set_tid_size then inl (- EINVAL)
        else if negb (c_true u_set_tid) && (0 <? u_set_tid_size) then inl (- EINVAL)
        else if c_true u_set_tid && (u_set_tid_size =? 0) then inl (- EINVAL)
        else if c_true (clear u_exit_signal CSIGNAL) || negb (valid_signal u_exit_signal) then inl (- EINVAL)
        else if has u_flags CLONE_INTO_CGROUP
                && ((INT_MAX <? u_cgroup) || (usize <? CLONE_ARGS_SIZE_VER2)) then inl (- EINVAL)
        else
          let mk tids :=
            {| flags := u_flags; pidfd := w 1%nat; child_tid := w 2%nat; parent_tid := w 3%nat;
               exit_signal := u_exit_signal; stack := w 5%nat; stack_size := w 6%nat; tls := w 7%nat;
               set_tid := tids; set_tid_size := u_set_tid_size; cgroup := u_cgroup; kthread := false |} in
          if c_true u_set_tid then
            match copy_from_user u_set_tid (Z.to_nat (u_set_tid_size * 4)) um with
            | None => inl (- EFAULT)
            | Some tids => inr (mk tids)
            end
          else inr (mk [])
    end.

Definition sys_clone3 (uargs size : Z) (um : umem) : Z * list effect :=
  match copy_clone_args_from_user uargs size um with
  | inl err => (err, [])
  | inr kargs =>
      match clone3_args_valid kargs with
      | None => (- EINVAL, [])
      | Some kargs => kernel_clone kargs
      end
  end.

End clone.

(** The limit on the number of threads (set_max_threads). *)
Definition MIN_THREADS := 20.
Definition MAX_THREADS := 1073741823.
Definition THREAD_SIZE := 16384.

(** fls64: position of the highest set bit, counted from 1. *)
Definition fls64 (x : Z) : Z := if x =? 0 then 0 else Z.log2 x + 1.

Definition set_max_threads (max_threads_suggested nr_pages : Z) : Z :=
  let threads :=
    if 64 <? fls64 nr_pages + fls64 PAGE_SIZE then MAX_THREADS
    else u64 (nr_pages * PAGE_SIZE) / (THREAD_SIZE * 8) in
  let threads := if max_threads_suggested <? threads then max_threads_suggested else threads in
  i32 (Z.max MIN_THREADS (Z.min threads MAX_THREADS)).

(** ** Theorems *)

Section theorems.
Context {E : CloneEnv}.

(** Threads share handlers, sharers of handlers share memory, and so on. *)
Definition flags_consistent (f : Z) : Prop :=
  (has f CLONE_THREAD = true -> has f CLONE_SIGHAND = true /\ has f CLONE_VM = true /\
     has f CLONE_NEWUSER = false /\ has f CLONE_NEWPID = false /\ has f CLONE_PIDFD = false) /\
  (has f CLONE_SIGHAND = true -> has f CLONE_VM = true) /\
  (has f CLONE_NEWNS = true -> has f CLONE_FS = false) /\
  (has f CLONE_NEWUSER = true -> has f CLONE_FS = false).

Lemma copy_process_checks_ok f : copy_process_checks f = 0 -> flags_consistent f.
Proof.
  unfold copy_process_checks, flags_consistent. intros H.
  destruct (Z.eqb_spec (Z.land f (Z.lor CLONE_NEWNS CLONE_FS)) (Z.lor CLONE_NEWNS CLONE_FS)) as [|H1]; [done|].
  destruct (Z.eqb_spec (Z.land f (Z.lor CLONE_NEWUSER CLONE_FS)) (Z.lor CLONE_NEWUSER CLONE_FS)) as [|H2]; [done|].
  do 5 (case_if_in H; [done|]). clear H. rewrite (Z.lor_comm CLONE_NEWUSER CLONE_NEWPID) in *.
  rewrite !has_lor_r in *. bool_hyps.
  assert (Hns : has f CLONE_NEWNS = true -> has f CLONE_FS = false).
  { intros Ha. destruct (has f CLONE_FS) eqn:Hb; [|done]. destruct H1.
    apply has_land_both; [done..|power 17|power 9]. }
  assert (Hus : has f CLONE_NEWUSER = true -> has f CLONE_FS = false).
  { intros Ha. destruct (has f CLONE_FS) eqn:Hb; [|done]. destruct H2.
    apply has_land_both; [done..|power 28|power 9]. }
  split; [|split; [|done]].
  - intros Ht. rewrite Ht in *. rewrite orb_true_r in *.
    destruct (has f CLONE_SIGHAND), (has f CLONE_VM), (has f CLONE_NEWUSER), (has f CLONE_NEWPID),
      (has f CLONE_PIDFD); cbn [andb orb negb] in *; solve [done | exfalso; intuition discriminate].
  - intros Hs. rewrite Hs in *. destruct (has f CLONE_VM); [done|]. cbn in *. intuition discriminate.
Qed.

Lemma copy_process_flags trace args p : copy_process trace args = inr p -> flags_consistent (flags args).
Proof.
  unfold copy_process. cbv zeta. case_if; [done|]. intros _.
  apply c_true_false in Hif. by apply copy_process_checks_ok.
Qed.

Lemma kernel_clone_flags args r log :
  kernel_clone args = (r, log) -> log <> [] -> flags_consistent (flags args).
Proof.
  unfold kernel_clone. case_if; [by intros [= <- <-]|]. cbv zeta.
  destruct (copy_process (clone_trace args) args) eqn:Ec; [by intros [= <- <-]|].
  intros _ _. exact (copy_process_flags _ _ _ Ec).
Qed.

(** What a log must look like: the identifier is stored before the child can run,
    references are paired, the vfork wait comes after the wake-up. *)
Definition count_effects (P : effect -> bool) (log : list effect) : nat := length (List.filter P log).
Definition is_get_task (e : effect) : bool := match e with GetTask _ => true | _ => false end.
Definition is_put_task (e : effect) : bool := match e with PutTask _ => true | _ => false end.
Definition is_get_pid (e : effect) : bool := match e with GetPid _ => true | _ => false end.
Definition is_put_pid (e : effect) : bool := match e with PutPid _ => true | _ => false end.
Definition is_wait (e : effect) : bool := match e with WaitVfork _ => true | _ => false end.
Definition is_store (e : effect) : bool := match e with StoreTid _ _ => true | _ => false end.

(** The protocol of kernel_clone: either nothing happens and an error is
    returned, or exactly one task is made, with a consistent flag set; its number is
    the result and, when CLONE_PARENT_SETTID asks for it, is stored in the parent
    before the child is woken; with CLONE_VFORK the parent waits for the child after
    waking it; every reference taken on the task and its pid is dropped. *)
Theorem kernel_clone_protocol args :
  let '(r, log) := kernel_clone args in
  log = [] \/
  exists p before after_, r = pid_vnr p /\ copy_process (clone_trace args) args = inr p /\
    flags_consistent (flags args) /\ log = before ++ Wake p :: after_ /\
    (In (StoreTid (parent_tid args) r) before <-> has (flags args) CLONE_PARENT_SETTID = true) /\
    count_effects is_store after_ = 0%nat /\
    (In (WaitVfork p) after_ <-> has (flags args) CLONE_VFORK = true) /\
    count_effects is_wait before = 0%nat /\
    count_effects is_get_task log = count_effects is_put_task log /\
    count_effects is_get_pid log = count_effects is_put_pid log.
Proof.
  unfold kernel_clone. case_if; [by left|]. cbv zeta.
  destruct (copy_process (clone_trace args) args) as [|p] eqn:Ec; [by left|]. right.
  pose proof (copy_process_flags _ _ _ Ec) as Hf.
  exists p, ([Copied p; GetPid p]
     ++ (if has (flags args) CLONE_PARENT_SETTID then [StoreTid (parent_tid args) (pid_vnr p)] else [])
     ++ (if has (flags args) CLONE_VFORK then [GetTask p] else [])). eexists.
  split; [done|]. split; [done|]. split; [done|]. split; [rewrite <- !app_assoc; reflexivity|].
  destruct (has (flags args) CLONE_PARENT_SETTID), (has (flags args) CLONE_VFORK),
    (c_true (clone_trace args)), vfork_killed; cbn; intuition discriminate.
Qed.

(** Splitting the legacy flag word loses nothing. *)
Lemma clone_flags_split f :
  Z.lor (flags (clone_args f 0 0 0 0)) (exit_signal (clone_args f 0 0 0 0)) = lower_32_bits f /\
  Z.land (flags (clone_args f 0 0 0 0)) (exit_signal (clone_args f 0 0 0 0)) = 0 /\
  0 <= exit_signal (clone_args f 0 0 0 0) <= 255.
Proof.
  cbn. unfold clear. repeat split.
  - apply Z.bits_inj'. intros n Hn. rewrite Z.lor_spec, Z.land_spec, Z.ldiff_spec.
    by destruct (Z.testbit (lower_32_bits f) n), (Z.testbit CSIGNAL n).
  - apply Z.bits_inj'. intros n Hn. rewrite Z.bits_0, !Z.land_spec, Z.ldiff_spec.
    by destruct (Z.testbit (lower_32_bits f) n), (Z.testbit CSIGNAL n).
  - apply Z.land_nonneg. right. done.
  - change CSIGNAL with (Z.ones 8). rewrite Z.land_ones by lia.
    pose proof (Z.mod_pos_bound (lower_32_bits f) (2 ^ 8)). lia.
Qed.

(** The thread limit: no overflow in the computation, and a result that keeps the
    kernel stacks of all threads within an eighth of memory unless the minimum
    applies. *)
Lemma set_max_threads_bounds suggested nr_pages :
  0 <= suggested < 2 ^ 32 -> 0 <= nr_pages < 2 ^ 64 ->
  let m := set_max_threads suggested nr_pages in
  MIN_THREADS <= m <= MAX_THREADS /\
  (MIN_THREADS < m -> m <= suggested /\ m * THREAD_SIZE * 8 <= nr_pages * PAGE_SIZE).
Proof.
  intros Hs Hn. cbv zeta. unfold set_max_threads. cbv zeta.
  set (t := if 64 <? _ then _ else _).
  assert (Ht : 0 <= t /\ Z.min t MAX_THREADS * THREAD_SIZE * 8 <= nr_pages * PAGE_SIZE).
  { unfold t, fls64, MAX_THREADS, THREAD_SIZE, PAGE_SIZE. change (4096 =? 0) with false. cbv iota.
    change (Z.log2 4096) with 12. destruct (Z.eqb_spec nr_pages 0) as [->|Hnz]; [split; vm_compute; discriminate|].
    pose proof (Z.log2_spec nr_pages ltac:(lia)) as [Hl Hl2].
    case_if.
    - split; [lia|].
      assert (2 ^ 51 <= nr_pages).
      { apply Z.le_trans with (2 ^ Z.log2 nr_pages); [apply Z.pow_le_mono_r; lia|done]. }
      lia.
    - assert (nr_pages < 2 ^ 52).
      { apply Z.lt_le_trans with (2 ^ Z.succ (Z.log2 nr_pages)); [done|apply Z.pow_le_mono_r; lia]. }
      rewrite wrapU_id by (split; lia). split; zlia. }
  clearbody t. unfold MIN_THREADS, MAX_THREADS, THREAD_SIZE, PAGE_SIZE in *.
  rewrite wrapS_id by (lia || (unfold is_s; case_if; lia)). case_if; split; try lia.
Qed.

Context {U : UserAccess}.

(** What clone3 lets through: when it makes a task, the 88 bytes it read satisfy
    the documented rules: no unknown flag, no CLONE_DETACHED and no signal bits in the
    flags, handlers not both shared and cleared, an exit signal that is a signal and
    that is absent for threads and siblings, set_tid and its size both or neither and
    at most 32 levels, a complete stack or none (and then the child's stack pointer is
    the end of the area), and a flag set consistent for copy_process. *)
Theorem clone3_contract uargs size um r log :
  sys_clone3 uargs size um = (r, log) -> log <> [] ->
  exists bs kargs,
    CLONE_ARGS_SIZE_VER0 <= size <= PAGE_SIZE /\
    copy_struct_from_user 88 uargs size um = inr bs /\ length bs = 88%nat /\
    let w n := le_val (slice (8 * n) 8 bs) in
    kernel_clone kargs = (r, log) /\ flags kargs = w 0%nat /\ exit_signal kargs = w 4%nat /\
    flags_consistent (w 0%nat) /\
    clear (w 0%nat) (Z.lor (Z.lor CLONE_LEGACY_FLAGS CLONE_CLEAR_SIGHAND) CLONE_INTO_CGROUP) = 0 /\
    has (w 0%nat) CLONE_DETACHED = false /\
    (has (w 0%nat) CLONE_THREAD = true -> w 4%nat = 0) /\ (has (w 0%nat) CLONE_PARENT = true -> w 4%nat = 0) /\
    w 4%nat <= NSIG /\ w 9%nat <= MAX_PID_NS_LEVEL /\
    (w 5%nat = 0 /\ w 6%nat <= 0 /\ stack kargs = 0 \/
     w 5%nat <> 0 /\ w 6%nat <> 0 /\ access_ok (w 5%nat) (w 6%nat) = true /\
     stack kargs = u64 (w 5%nat + w 6%nat)).
Proof.
  intros H Hlog. unfold sys_clone3 in H.
  destruct (copy_clone_args_from_user uargs size um) as [|k0] eqn:Ec; [injection H as <- <-; done|].
  destruct (clone3_args_valid k0) as [k|] eqn:Ev; [|injection H as <- <-; done].
  unfold copy_clone_args_from_user in Ec. case_if_in Ec; [done|]. case_if_in Ec; [done|].
  destruct (copy_struct_from_user 88 uargs size um) as [|bs] eqn:Es; [done|]. cbv zeta in Ec.
  do 5 (case_if_in Ec; [done|]). exists bs, k.
  assert (Hk0 : flags k0 = le_val (slice (8 * 0) 8 bs) /\ exit_signal k0 = le_val (slice (8 * 4) 8 bs) /\
                stack k0 = le_val (slice (8 * 5) 8 bs) /\ stack_size k0 = le_val (slice (8 * 6) 8 bs)).
  { case_if_in Ec; [destruct (copy_from_user _ _ _); [|done]|]; by injection Ec as <-. }
  clear Ec. destruct Hk0 as (K0 & K4 & K5 & K6).
  assert (Hv : flags k = flags k0 /\ exit_signal k = exit_signal k0 /\
    (stack k0 = 0 /\ stack_size k0 <= 0 /\ stack k = 0 \/
     stack k0 <> 0 /\ stack_size k0 <> 0 /\ access_ok (stack k0) (stack_size k0) = true /\
     stack k = u64 (stack k0 + stack_size k0)) /\
    c_true (clear (flags k0) (Z.lor (Z.lor CLONE_LEGACY_FLAGS CLONE_CLEAR_SIGHAND) CLONE_INTO_CGROUP)) = false /\
    has (flags k0) (Z.lor CLONE_DETACHED (clear CSIGNAL CLONE_NEWTIME)) = false /\
    has (flags k0) (Z.lor CLONE_THREAD CLONE_PARENT) && c_true (exit_signal k0) = false).
  { unfold clone3_args_valid in Ev. do 4 (case_if_in Ev; [done|]). unfold clone3_stack_valid in Ev.
    destruct (Z.eqb_spec (stack k0) 0).
    - case_if_in Ev; [done|]. injection Ev as <-. repeat split; try done. left. lia.
    - case_if_in Ev; [done|]. case_if_in Ev; [done|]. injection Ev as <-. cbn.
      repeat split; try done. right. bool_hyps. by repeat split. }
  destruct Hv as (F1 & F2 & F3 & F4 & F5 & F6). rewrite K0, K4, K5, K6 in *.
  rewrite !has_lor_r in *. pose proof (kernel_clone_flags k r log H Hlog) as Hcons. rewrite F1 in Hcons.
  assert (Hsig : has (le_val (slice (8 * 0) 8 bs)) CLONE_THREAD = true \/
                 has (le_val (slice (8 * 0) 8 bs)) CLONE_PARENT = true ->
                 le_val (slice (8 * 4) 8 bs) = 0).
  { intros Hor. apply c_true_false. apply andb_false_iff in F6 as [F6|F6]; [|done].
    apply orb_false_iff in F6 as [? ?]. destruct Hor; congruence. }
  clear F6. unfold valid_signal in *. apply c_true_false in F4. bool_hyps.
  split; [lia|]. split; [done|]. split; [by eapply copy_struct_len|].
  do 6 (split; [done|]). split; [tauto|]. split; [tauto|]. split; [lia|]. split; [lia|]. done.
Qed.

End theorems.

(** ** A concrete clone3: a thread with its own stack *)

#[local, refine] Instance demo_clone_env : CloneEnv := {
  copy_process_rest _ _ := inr 4242; signal_unkillable := false; pid_ns_for_children_differs := false;
  ptrace_event_enabled _ := false; pid_vnr p := p; vfork_killed := false; access_ok _ _ := true;
  copy_struct_from_user U n p sz um := match copy_from_user p n um with Some bs => inr bs | None => inl (- EFAULT) end
}.
Proof.
  intros U n p sz um bs. destruct (copy_from_user p n um) eqn:Ec; [|done]. intros [= <-].
  by apply copy_from_user_done in Ec as [? _].
Defined.

Definition demo_thread_flags := 68352.    (* CLONE_VM | CLONE_FS | CLONE_SIGHAND | CLONE_THREAD *)

Definition demo_clone_um : Z -> option Z :=
  fun a => (words_bytes [demo_thread_flags; 0; 0; 0; 0; 65536; 8192; 0; 0; 0; 0]) !! Z.to_nat a.

Lemma clone3_contract_witness :
  exists bs kargs, copy_struct_from_user (U := last_copy) 88 0 88 demo_clone_um = inr bs /\
    stack kargs = u64 (le_val (slice 40 8 bs) + le_val (slice 48 8 bs)) /\
    flags_consistent demo_thread_flags.
Proof.
  destruct (clone3_contract (U := last_copy) 0 88 demo_clone_um 4242
              (sys_clone3 (U := last_copy) 0 88 demo_clone_um).2)
    as (bs & k & _ & Hbs & _ & H); [vm_compute; reflexivity|vm_compute; discriminate|].
  exists bs, k. cbv zeta in H. destruct H as (_ & _ & _ & Hc & _ & _ & _ & _ & _ & _ & Hs).
  split; [done|]. vm_compute in Hbs. injection Hbs as <-. split; [|exact Hc].
  destruct Hs as [[H0 _]|(_ & _ & _ & Hs)]; [vm_compute in H0; discriminate|exact Hs].
Defined.
