(* ===== verification/ForkCopy.v ===== *)
(** * The construction of a task (kernel/fork.c: copy_process and its helpers)

    copy_process takes some thirty things in turn and gives back what it has when a
    step fails, through a ladder of labels that fall through to each other; a label
    here is a function that calls the next one.  The state counts every reference,
    allocation and lock held for the new task; the new task itself starts as a copy
    of the parent, so its pointers first point to the parent's objects without a
    reference.  The functions of other files answer by parameters, with nothing held
    when they fail, as they document.  Links into the process lists, the pid tables and
    the terminal, made when nothing can fail any more, are not part of the state. *)
From S2P Require Import Prelude Unshare Clone.

(** ** What can be held *)

Inductive kind := Files | Fs | Sighand | Signal | MM | Nsproxy | IoContext.

Inductive res :=
  | TaskMem | StackMem | StackAccount | ShadowStack | UserCpus | KthreadStruct
  | Creds | NprocCount | Delayacct | Mempolicy | Perf | Audit | Security | Semundo
  | Old (k : kind)                      (** a reference on the parent's object *)
  | New (k : kind)                      (** an object of the new task's own *)
  | Thread | PidRef | UnusedFd | PidFile | InstalledFd | Cgroup | CoreCookie | Filter
  | SigLock | TasklistLock.

#[export] Instance kind_eq_dec : EqDecision kind.
Proof. solve_decision. Defined.
#[export] Instance res_eq_dec : EqDecision res.
Proof. solve_decision. Defined.

(** A pointer of the new task: nothing, the parent's object, or one of its own. *)
Inductive ptr := Null | Parents | Own.

Inductive real_parent := Current | ParentOfCurrent.

Record task := {
  t_flags : Z; t_dead : bool; t_stack_refs : Z; t_kthread_struct : bool; t_mempolicy : bool;
  t_files : ptr; t_fs : ptr; t_sighand : ptr; t_signal : ptr; t_mm : ptr; t_nsproxy : ptr; t_io_context : ptr;
  t_set_child_tid : Z; t_clear_child_tid : Z;
  t_pid : Z; t_tgid : Z; t_own_group : bool; t_parent : real_parent; t_exit_signal : Z
}.

Record fork_state := {
  held : res -> Z;
  delayed_queued : bool;                (** delayed.node on the multiprocess list *)
  current_flags : Z;
  nr_threads : Z; total_forks : Z; process_counts : Z;
  group_threads : Z; group_quick : Z; group_live : Z     (** nr_threads, quick_threads and live of current->signal *)
}.

(** The calls whose answer is a number. *)
Inductive fork_call :=
  | ArchDup | AllocStack | ScsPrepare | CopyCreds | MpolDup | SchedFork | PerfInit | AuditAlloc | SecurityAlloc
  | CopySemundo | DupFd | CopyNamespaces | CopyIo | CopyThread | AllocPid | GetUnusedFd | AnonFile | PutUser | CgroupCanFork.

Class ForkEnv := {
  ans : fork_call -> Z;
  alloc_task : bool; alloc_sighand : bool; alloc_signal : bool; dup_mm_ok : bool; set_kthread_struct : bool;
  copy_fs_struct_ok : bool; fs_in_exec : bool;
  sigpending : bool; nproc_refused : bool; max_threads : Z;
  parent_has_files : bool; parent_has_mm : bool; parent_mempolicy : bool; parent_io_context : ptr;
  new_namespaces : Z -> bool; io_context_of : Z -> ptr;
  pid_adding : bool; fatal_pending : bool; new_pid : Z; parent_filter : bool;
  current_tgid : Z; leader_exit_signal : Z       (** of current, and of its group leader *)
}.

Definition PF_IDLE := 2.
Definition PF_IO_WORKER := 16.
Definition PF_WQ_WORKER := 32.
Definition PF_FORKNOEXEC := 64.
Definition PF_SUPERPRIV := 256.
Definition PF_NPROC_EXCEEDED := 4096.
Definition PF_USER_WORKER := 16384.
Definition PF_KTHREAD := 2097152.
Definition PF_NO_SETAFFINITY := 67108864.

(** ** The ledger *)

Definition delta (r q : res) : Z := if decide (q = r) then 1 else 0.

Definition set_held (h : res -> Z) (s : fork_state) : fork_state :=
  {| held := h; delayed_queued := delayed_queued s; current_flags := current_flags s; nr_threads := nr_threads s;
     total_forks := total_forks s; process_counts := process_counts s; group_threads := group_threads s;
     group_quick := group_quick s; group_live := group_live s |}.

Definition hold (d : Z) (r : res) (s : fork_state) : fork_state := set_held (fun q => held s q + d * delta r q) s.
Abbreviation take_ref := (hold 1).
Abbreviation drop_ref := (hold (-1)).

(** What a pointer to an object of kind [k] stands for. *)
Definition ptr_ref (k : kind) (p : ptr) (q : res) : Z :=
  match p with Null => 0 | Parents => delta (Old k) q | Own => delta (New k) q end.
Definition get_ptr (k : kind) (p : ptr) (s : fork_state) : fork_state :=
  match p with Null => s | Parents => take_ref (Old k) s | Own => take_ref (New k) s end.
Definition put_ptr (k : kind) (p : ptr) (s : fork_state) : fork_state :=
  match p with Null => s | Parents => drop_ref (Old k) s | Own => drop_ref (New k) s end.

Definition set_queued (b : bool) (s : fork_state) : fork_state :=
  {| held := held s; delayed_queued := b; current_flags := current_flags s; nr_threads := nr_threads s;
     total_forks := total_forks s; process_counts := process_counts s; group_threads := group_threads s;
     group_quick := group_quick s; group_live := group_live s |}.
Definition set_current_flags (f : Z) (s : fork_state) : fork_state :=
  {| held := held s; delayed_queued := delayed_queued s; current_flags := f; nr_threads := nr_threads s;
     total_forks := total_forks s; process_counts := process_counts s; group_threads := group_threads s;
     group_quick := group_quick s; group_live := group_live s |}.
Definition add_counts (nt tf pc gt gq gl : Z) (s : fork_state) : fork_state :=
  {| held := held s; delayed_queued := delayed_queued s; current_flags := current_flags s; nr_threads := nr_threads s + nt;
     total_forks := total_forks s + tf; process_counts := process_counts s + pc; group_threads := group_threads s + gt;
     group_quick := group_quick s + gq; group_live := group_live s + gl |}.

(** ** Members of the task *)

Definition with_run (flags : Z) (dead : bool) (srefs : Z) (ks mp : bool) (p : task) : task :=
  {| t_flags := flags; t_dead := dead; t_stack_refs := srefs; t_kthread_struct := ks; t_mempolicy := mp; t_files := t_files p;
     t_fs := t_fs p; t_sighand := t_sighand p; t_signal := t_signal p; t_mm := t_mm p; t_nsproxy := t_nsproxy p;
     t_io_context := t_io_context p; t_set_child_tid := t_set_child_tid p; t_clear_child_tid := t_clear_child_tid p;
     t_pid := t_pid p; t_tgid := t_tgid p; t_own_group := t_own_group p; t_parent := t_parent p;
     t_exit_signal := t_exit_signal p |}.
Definition with_ptr (k : kind) (x : ptr) (p : task) : task :=
  {| t_flags := t_flags p; t_dead := t_dead p; t_stack_refs := t_stack_refs p; t_kthread_struct := t_kthread_struct p;
     t_mempolicy := t_mempolicy p;
     t_files := match k with Files => x | _ => t_files p end; t_fs := match k with Fs => x | _ => t_fs p end;
     t_sighand := match k with Sighand => x | _ => t_sighand p end; t_signal := match k with Signal => x | _ => t_signal p end;
     t_mm := match k with MM => x | _ => t_mm p end; t_nsproxy := match k with Nsproxy => x | _ => t_nsproxy p end;
     t_io_context := match k with IoContext => x | _ => t_io_context p end;
     t_set_child_tid := t_set_child_tid p; t_clear_child_tid := t_clear_child_tid p; t_pid := t_pid p; t_tgid := t_tgid p;
     t_own_group := t_own_group p; t_parent := t_parent p; t_exit_signal := t_exit_signal p |}.
Definition with_tids (sct cct : Z) (p : task) : task :=
  {| t_flags := t_flags p; t_dead := t_dead p; t_stack_refs := t_stack_refs p; t_kthread_struct := t_kthread_struct p;
     t_mempolicy := t_mempolicy p; t_files := t_files p; t_fs := t_fs p; t_sighand := t_sighand p; t_signal := t_signal p;
     t_mm := t_mm p; t_nsproxy := t_nsproxy p; t_io_context := t_io_context p; t_set_child_tid := sct; t_clear_child_tid := cct;
     t_pid := t_pid p; t_tgid := t_tgid p; t_own_group := t_own_group p; t_parent := t_parent p; t_exit_signal := t_exit_signal p |}.
Definition with_ids (pid tgid : Z) (own : bool) (par : real_parent) (sig : Z) (p : task) : task :=
  {| t_flags := t_flags p; t_dead := t_dead p; t_stack_refs := t_stack_refs p; t_kthread_struct := t_kthread_struct p;
     t_mempolicy := t_mempolicy p; t_files := t_files p; t_fs := t_fs p; t_sighand := t_sighand p; t_signal := t_signal p;
     t_mm := t_mm p; t_nsproxy := t_nsproxy p; t_io_context := t_io_context p; t_set_child_tid := t_set_child_tid p;
     t_clear_child_tid := t_clear_child_tid p; t_pid := pid; t_tgid := tgid; t_own_group := own; t_parent := par; t_exit_signal := sig |}.

(** Arguments of copy_process beyond those of the syscalls. *)
Record fork_extra := { user_worker : bool; io_thread : bool; no_files : bool; init_struct_pid : bool }.

Section fork.
Context {E : ForkEnv}.

(** ** The helpers *)

(** [*dst = *src]: every pointer is the parent's, and no reference is held yet. *)
Definition copy_of_current (flags : Z) : task :=
  {| t_flags := flags; t_dead := false; t_stack_refs := 1; t_kthread_struct := false; t_mempolicy := parent_mempolicy;
     t_files := if parent_has_files then Parents else Null; t_fs := Parents; t_sighand := Parents; t_signal := Parents;
     t_mm := if parent_has_mm then Parents else Null; t_nsproxy := Parents; t_io_context := parent_io_context;
     t_set_child_tid := 0; t_clear_child_tid := 0; t_pid := 0; t_tgid := current_tgid; t_own_group := false;
     t_parent := ParentOfCurrent; t_exit_signal := 0 |}.

(** The new task, if there is memory: a copy of current with a stack of its own. *)
Definition dup_task_struct (s : fork_state) : option task * fork_state :=
  if negb alloc_task then (None, s)
  else
    let s := take_ref TaskMem s in
    if c_true (ans ArchDup) then (None, drop_ref TaskMem s)
    else if c_true (ans AllocStack) then (None, drop_ref TaskMem s)
    else
      let s := take_ref StackAccount (take_ref StackMem s) in
      if c_true (ans ScsPrepare) then (None, drop_ref TaskMem (drop_ref StackMem (drop_ref StackAccount s)))
      else
        let s := take_ref UserCpus (take_ref ShadowStack s) in
        (Some (copy_of_current (current_flags s)), s).

(** The next six answer the number, the pointer of the new task, and the state. *)
Definition copy_files (flags : Z) (nofiles : bool) (p : ptr) (s : fork_state) : Z * ptr * fork_state :=
  if negb parent_has_files then (0, p, s)
  else if nofiles then (0, Null, s)
  else if has flags CLONE_FILES then (0, p, take_ref (Old Files) s)
  else if c_true (ans DupFd) then (ans DupFd, p, s)
  else (0, Own, take_ref (New Files) s).

Definition copy_fs (flags : Z) (p : ptr) (s : fork_state) : Z * ptr * fork_state :=
  if has flags CLONE_FS then
    if fs_in_exec then (- EAGAIN, p, s) else (0, p, take_ref (Old Fs) s)
  else if negb copy_fs_struct_ok then (- ENOMEM, Null, s)
  else (0, Own, take_ref (New Fs) s).

Definition copy_sighand (flags : Z) (p : ptr) (s : fork_state) : Z * ptr * fork_state :=
  if has flags CLONE_SIGHAND then (0, p, take_ref (Old Sighand) s)
  else if negb alloc_sighand then (- ENOMEM, Null, s)
  else (0, Own, take_ref (New Sighand) s).

Definition copy_signal (flags : Z) (p : ptr) (s : fork_state) : Z * ptr * fork_state :=
  if has flags CLONE_THREAD then (0, p, s)
  else if negb alloc_signal then (- ENOMEM, Null, s)
  else (0, Own, take_ref (New Signal) s).

Definition copy_mm (flags : Z) (s : fork_state) : Z * ptr * fork_state :=
  if negb parent_has_mm then (0, Null, s)
  else if has flags CLONE_VM then (0, Parents, take_ref (Old MM) s)
  else if negb dup_mm_ok then (- ENOMEM, Null, s)
  else (0, Own, take_ref (New MM) s).

Definition copy_namespaces (flags : Z) (p : ptr) (s : fork_state) : Z * ptr * fork_state :=
  if c_true (ans CopyNamespaces) then (ans CopyNamespaces, p, s)
  else let p := if new_namespaces flags then Own else Parents in (0, p, get_ptr Nsproxy p s).

Definition copy_io (flags : Z) (p : ptr) (s : fork_state) : Z * ptr * fork_state :=
  if c_true (ans CopyIo) then (ans CopyIo, p, s)
  else (0, io_context_of flags, get_ptr IoContext (io_context_of flags) s).

(** A reserved descriptor or an error, and the file with its reference on the pid. *)
Definition pidfd_prepare_ (s : fork_state) : Z * fork_state :=
  if ans GetUnusedFd <? 0 then (ans GetUnusedFd, s)
  else
    let s := take_ref UnusedFd s in
    if ans AnonFile <? 0 then (ans AnonFile, drop_ref UnusedFd s)
    else (ans GetUnusedFd, take_ref PidRef (take_ref PidFile s)).

(** ** Giving back *)

Definition put_task_stack (p : task) (s : fork_state) : task * fork_state :=
  let p := with_run (t_flags p) (t_dead p) (t_stack_refs p - 1) (t_kthread_struct p) (t_mempolicy p) p in
  if t_stack_refs p =? 0 then
    if negb (t_dead p) then (p, s) else (p, drop_ref StackMem s)
  else (p, s).

Definition free_task (p : task) (s : fork_state) : fork_state :=
  let s := drop_ref ShadowStack (drop_ref UserCpus s) in
  let s := if has (t_flags p) PF_KTHREAD && t_kthread_struct p then drop_ref KthreadStruct s else s in
  drop_ref TaskMem s.

Definition fork_out (retval : Z) (s : fork_state) : (Z + task) * fork_state :=
  (inl retval, drop_ref SigLock (set_queued false (take_ref SigLock s))).

Definition bad_fork_free (retval : Z) (p : task) (s : fork_state) : (Z + task) * fork_state :=
  let p := with_run (t_flags p) true (t_stack_refs p) (t_kthread_struct p) (t_mempolicy p) p in
  let s := drop_ref StackAccount s in
  let '(p, s) := put_task_stack p s in
  fork_out retval (free_task p s).

Definition bad_fork_cleanup_count (retval : Z) (p : task) (s : fork_state) : (Z + task) * fork_state :=
  bad_fork_free retval p (drop_ref Creds (drop_ref NprocCount s)).

Definition bad_fork_cleanup_delayacct (retval : Z) (p : task) (s : fork_state) : (Z + task) * fork_state :=
  bad_fork_cleanup_count retval p (drop_ref Delayacct s).

Definition bad_fork_cleanup_policy (retval : Z) (p : task) (s : fork_state) : (Z + task) * fork_state :=
  bad_fork_cleanup_delayacct retval p (if t_mempolicy p then drop_ref Mempolicy s else s).

Definition bad_fork_cleanup_perf (retval : Z) (p : task) (s : fork_state) : (Z + task) * fork_state :=
  bad_fork_cleanup_policy retval p (drop_ref Perf s).

Definition bad_fork_cleanup_audit (retval : Z) (p : task) (s : fork_state) : (Z + task) * fork_state :=
  bad_fork_cleanup_perf retval p (drop_ref Audit s).

Definition bad_fork_cleanup_security (retval : Z) (p : task) (s : fork_state) : (Z + task) * fork_state :=
  bad_fork_cleanup_audit retval p (drop_ref Security s).

Definition bad_fork_cleanup_semundo (retval : Z) (p : task) (s : fork_state) : (Z + task) * fork_state :=
  bad_fork_cleanup_security retval p (drop_ref Semundo s).

Definition bad_fork_cleanup_files (retval : Z) (p : task) (s : fork_state) : (Z + task) * fork_state :=
  bad_fork_cleanup_semundo retval p (put_ptr Files (t_files p) s).

Definition bad_fork_cleanup_fs (retval : Z) (p : task) (s : fork_state) : (Z + task) * fork_state :=
  bad_fork_cleanup_files retval p (put_ptr Fs (t_fs p) s).

Definition bad_fork_cleanup_sighand (retval : Z) (p : task) (s : fork_state) : (Z + task) * fork_state :=
  bad_fork_cleanup_fs retval p (put_ptr Sighand (t_sighand p) s).

Definition bad_fork_cleanup_signal (flags retval : Z) (p : task) (s : fork_state) : (Z + task) * fork_state :=
  bad_fork_cleanup_sighand retval p (if negb (has flags CLONE_THREAD) then put_ptr Signal (t_signal p) s else s).

Definition bad_fork_cleanup_mm (flags retval : Z) (p : task) (s : fork_state) : (Z + task) * fork_state :=
  bad_fork_cleanup_signal flags retval p (put_ptr MM (t_mm p) s).

Definition bad_fork_cleanup_namespaces (flags retval : Z) (p : task) (s : fork_state) : (Z + task) * fork_state :=
  bad_fork_cleanup_mm flags retval p (put_ptr Nsproxy (t_nsproxy p) s).

Definition bad_fork_cleanup_io (flags retval : Z) (p : task) (s : fork_state) : (Z + task) * fork_state :=
  bad_fork_cleanup_namespaces flags retval p (put_ptr IoContext (t_io_context p) s).

Definition bad_fork_cleanup_thread (flags retval : Z) (p : task) (s : fork_state) : (Z + task) * fork_state :=
  bad_fork_cleanup_io flags retval p (drop_ref Thread s).

Definition bad_fork_free_pid (flags : Z) (idle : bool) (retval : Z) (p : task) (s : fork_state) : (Z + task) * fork_state :=
  bad_fork_cleanup_thread flags retval p (if negb idle then drop_ref PidRef s else s).

(** fput of the pidfd file gives back its reference on the pid. *)
Definition bad_fork_put_pidfd (flags : Z) (idle : bool) (retval : Z) (p : task) (s : fork_state) : (Z + task) * fork_state :=
  bad_fork_free_pid flags idle retval p
    (if has flags CLONE_PIDFD then drop_ref UnusedFd (drop_ref PidRef (drop_ref PidFile s)) else s).

Definition bad_fork_cancel_cgroup (flags : Z) (idle : bool) (retval : Z) (p : task) (s : fork_state) : (Z + task) * fork_state :=
  bad_fork_put_pidfd flags idle retval p
    (drop_ref Cgroup (drop_ref TasklistLock (drop_ref SigLock (drop_ref CoreCookie s)))).

(** ** The steps of copy_process *)

Definition result : Type := (Z + task) * fork_state.

(** Signals, memory for the task, flags, credentials and limits. *)
Definition fork_prepare (flags ctid : Z) (kthread : bool) (x : fork_extra) (s : fork_state) (next : task -> fork_state -> result) : result :=
  let s := take_ref SigLock s in
  let s := if negb (has flags CLONE_THREAD) then set_queued true s else s in
  let s := drop_ref SigLock s in
  if sigpending then fork_out (- ERESTARTNOINTR) s
  else
    let '(p, s) := dup_task_struct s in
    match p with
    | None => fork_out (- ENOMEM) s
    | Some p =>
        let fl := clear (t_flags p) PF_KTHREAD in
        let fl := if kthread then Z.lor fl PF_KTHREAD else fl in
        let fl := if user_worker x then Z.lor fl PF_USER_WORKER else fl in
        let fl := if io_thread x then Z.lor fl PF_IO_WORKER else fl in
        let p := with_run fl (t_dead p) (t_stack_refs p) (t_kthread_struct p) (t_mempolicy p) p in
        let p := with_tids (if has flags CLONE_CHILD_SETTID then ctid else 0)
                           (if has flags CLONE_CHILD_CLEARTID then ctid else 0) p in
        if ans CopyCreds <? 0 then bad_fork_free (ans CopyCreds) p s
        else
          let s := take_ref NprocCount (take_ref Creds s) in
          if nproc_refused then bad_fork_cleanup_count (- EAGAIN) p s
          else
            let s := set_current_flags (clear (current_flags s) PF_NPROC_EXCEEDED) s in
            if max_threads <=? nr_threads s then bad_fork_cleanup_count (- EAGAIN) p s
            else
              let s := take_ref Delayacct s in
              let fl := Z.lor (clear (t_flags p) (PF_SUPERPRIV + PF_WQ_WORKER + PF_IDLE + PF_NO_SETAFFINITY)) PF_FORKNOEXEC in
              let p := with_run fl (t_dead p) (t_stack_refs p) (t_kthread_struct p) (t_mempolicy p) p in
              let p := with_ptr IoContext Null p in
              next p s
    end.

(** The kernel thread structure and the memory policy. *)
Definition fork_policy (kthread : bool) (p : task) (s : fork_state) (next : task -> fork_state -> result) : result :=
  if kthread && negb set_kthread_struct then bad_fork_cleanup_delayacct (- EAGAIN) p s
  else
    let s := if kthread then take_ref KthreadStruct s else s in
    let p := with_run (t_flags p) (t_dead p) (t_stack_refs p) kthread (t_mempolicy p) p in
    if t_mempolicy p && (ans MpolDup <? 0) then
      bad_fork_cleanup_delayacct (ans MpolDup) (with_run (t_flags p) (t_dead p) (t_stack_refs p) (t_kthread_struct p) false p) s
    else next p (if t_mempolicy p then take_ref Mempolicy s else s).

(** Scheduler, performance events, audit, security and semaphore undo. *)
Definition fork_subsystems (p : task) (s : fork_state) (next : task -> fork_state -> result) : result :=
  if c_true (ans SchedFork) then bad_fork_cleanup_policy (ans SchedFork) p s
  else if c_true (ans PerfInit) then bad_fork_cleanup_policy (ans PerfInit) p s
  else
    let s := take_ref Perf s in
    if c_true (ans AuditAlloc) then bad_fork_cleanup_perf (ans AuditAlloc) p s
    else
      let s := take_ref Audit s in
      if c_true (ans SecurityAlloc) then bad_fork_cleanup_audit (ans SecurityAlloc) p s
      else
        let s := take_ref Security s in
        if c_true (ans CopySemundo) then bad_fork_cleanup_security (ans CopySemundo) p s
        else next p (take_ref Semundo s).

(** The objects a task shares or copies. *)
Definition fork_objects (flags : Z) (x : fork_extra) (p : task) (s : fork_state) (next : task -> fork_state -> result) : result :=
  let '(r, q, s) := copy_files flags (no_files x) (t_files p) s in
  let p := with_ptr Files q p in
  if c_true r then bad_fork_cleanup_semundo r p s
  else
    let '(r, q, s) := copy_fs flags (t_fs p) s in
    let p := with_ptr Fs q p in
    if c_true r then bad_fork_cleanup_files r p s
    else
      let '(r, q, s) := copy_sighand flags (t_sighand p) s in
      let p := with_ptr Sighand q p in
      if c_true r then bad_fork_cleanup_fs r p s
      else
        let '(r, q, s) := copy_signal flags (t_signal p) s in
        let p := with_ptr Signal q p in
        if c_true r then bad_fork_cleanup_sighand r p s
        else
          let '(r, q, s) := copy_mm flags s in
          let p := with_ptr MM q p in
          if c_true r then bad_fork_cleanup_signal flags r p s
          else
            let '(r, q, s) := copy_namespaces flags (t_nsproxy p) s in
            let p := with_ptr Nsproxy q p in
            if c_true r then bad_fork_cleanup_mm flags r p s
            else
              let '(r, q, s) := copy_io flags (t_io_context p) s in
              let p := with_ptr IoContext q p in
              if c_true r then bad_fork_cleanup_namespaces flags r p s
              else if c_true (ans CopyThread) then bad_fork_cleanup_io flags (ans CopyThread) p s
              else next p (take_ref Thread s).

(** The process number, the descriptor for it, and the consent of the control groups. *)
Definition fork_pid (flags : Z) (x : fork_extra) (p : task) (s : fork_state) (next : task -> fork_state -> result) : result :=
  let idle := init_struct_pid x in
  if negb idle && (ans AllocPid <? 0) then bad_fork_cleanup_thread flags (ans AllocPid) p s
  else
    let s := if negb idle then take_ref PidRef s else s in
    let prepared (s : fork_state) : result :=
      let pid := if idle then 0 else new_pid in
      let thread := has flags CLONE_THREAD in
      let p := with_ids pid (if thread then current_tgid else pid) (negb thread) (t_parent p) (t_exit_signal p) p in
      if c_true (ans CgroupCanFork) then bad_fork_put_pidfd flags idle (ans CgroupCanFork) p s
      else next p (take_ref Cgroup s) in
    if has flags CLONE_PIDFD then
      let '(r, s) := pidfd_prepare_ s in
      if r <? 0 then bad_fork_free_pid flags idle r p s
      else if c_true (ans PutUser) then bad_fork_put_pidfd flags idle (ans PutUser) p s
      else prepared s
    else prepared s.

(** Under the task list lock: parent, last refusals, and making the task visible. *)
Definition fork_publish (flags exit_signal : Z) (x : fork_extra) (p : task) (s : fork_state) : result :=
  let idle := init_struct_pid x in
  let thread := has flags CLONE_THREAD in
  let s := take_ref TasklistLock s in
  let '(parent, sig) :=
    if has flags (Z.lor CLONE_PARENT CLONE_THREAD)
    then (ParentOfCurrent, if thread then -1 else leader_exit_signal)
    else (Current, exit_signal) in
  let p := with_ids (t_pid p) (t_tgid p) (t_own_group p) parent sig p in
  let s := take_ref SigLock (take_ref CoreCookie s) in
  if negb pid_adding then bad_fork_cancel_cgroup flags idle (- ENOMEM) p s
  else if fatal_pending then bad_fork_cancel_cgroup flags idle (- EINTR) p s
  else
    let s := if parent_filter then take_ref Filter s else s in
    let s :=
      if c_true (t_pid p) then
        let s := if t_own_group p then add_counts 0 0 1 0 0 0 s else take_ref (Old Signal) (add_counts 0 0 0 1 1 1 s) in
        add_counts 1 0 0 0 0 0 s
      else s in
    let s := set_queued false (add_counts 0 1 0 0 0 0 s) in
    let s := drop_ref TasklistLock (drop_ref SigLock s) in
    let s := if has flags CLONE_PIDFD then take_ref InstalledFd (drop_ref PidFile (drop_ref UnusedFd s)) else s in
    (inr p, s).

(** copy_process after its flag checks. *)
Definition copy_process_body (args : kernel_clone_args) (x : fork_extra) (s : fork_state) : result :=
  let f := flags args in
  fork_prepare f (child_tid args) (kthread args) x s (fun p s =>
  fork_policy (kthread args) p s (fun p s =>
  fork_subsystems p s (fun p s =>
  fork_objects f x p s (fun p s =>
  fork_pid f x p s (fun p s =>
  fork_publish f (exit_signal args) x p s))))).

(** The whole of copy_process. *)
Definition copy_process_full {C : CloneEnv} (args : kernel_clone_args) (x : fork_extra) (s : fork_state) : result :=
  let err := copy_process_checks (flags args) in
  if c_true err then (inl err, s) else copy_process_body args x s.

(** ** Its other callers *)

Definition idle_args : kernel_clone_args :=
  {| flags := CLONE_VM; pidfd := 0; child_tid := 0; parent_tid := 0; exit_signal := 0; stack := 0; stack_size := 0; tls := 0;
     set_tid := []; set_tid_size := 0; cgroup := 0; kthread := true |}.

(** The idle task of a processor; its pid is init_struct_pid in every type. *)
Definition fork_idle {C : CloneEnv} (s : fork_state) : result :=
  copy_process_full idle_args {| user_worker := false; io_thread := false; no_files := false; init_struct_pid := true |} s.

Definition io_thread_args : kernel_clone_args :=
  let f := Z.lor (Z.lor (Z.lor (Z.lor CLONE_FS CLONE_FILES) CLONE_SIGHAND) CLONE_THREAD) CLONE_IO in
  {| flags := clear (Z.lor (Z.lor (lower_32_bits f) CLONE_VM) CLONE_UNTRACED) CSIGNAL; pidfd := 0; child_tid := 0; parent_tid := 0;
     exit_signal := Z.land (lower_32_bits f) CSIGNAL; stack := 0; stack_size := 0; tls := 0; set_tid := []; set_tid_size := 0;
     cgroup := 0; kthread := false |}.

(** A worker of io_uring: an inactive thread of the caller. *)
Definition create_io_thread {C : CloneEnv} (s : fork_state) : result :=
  copy_process_full io_thread_args {| user_worker := true; io_thread := true; no_files := false; init_struct_pid := false |} s.
End fork.

(** ** The ledger along the ladder *)

#[local] Opaque delta.

Section accounting.
Context {E : ForkEnv}.

(** Since [s0], [d] more is held, and nothing else has changed but the queueing of
    delayed signals and one flag of the parent. *)
Definition inv (d : res -> Z) (s0 s : fork_state) : Prop :=
  (forall q, held s q = held s0 q + d q) /\
  (current_flags s = current_flags s0 \/ current_flags s = clear (current_flags s0) PF_NPROC_EXCEEDED) /\
  nr_threads s = nr_threads s0 /\ total_forks s = total_forks s0 /\ process_counts s = process_counts s0 /\
  group_threads s = group_threads s0 /\ group_quick s = group_quick s0 /\ group_live s = group_live s0.

(** Nothing is left of a fork that failed. *)
Definition failed (s0 : fork_state) (ret : Z) (r : result) : Prop :=
  r.1 = inl ret /\ inv (fun _ => 0) s0 r.2 /\ delayed_queued r.2 = false.

Definition task_ok (p : task) : Prop :=
  t_stack_refs p = 1 /\ t_dead p = false /\ (t_kthread_struct p = true -> has (t_flags p) PF_KTHREAD = true).

(** What each label gives back. *)
Definition owed_free (p : task) (q : res) : Z :=
  delta TaskMem q + delta StackMem q + delta StackAccount q + delta ShadowStack q + delta UserCpus q +
  (if t_kthread_struct p then delta KthreadStruct q else 0).
Definition owed_count (p : task) (q : res) : Z := owed_free p q + delta Creds q + delta NprocCount q.
Definition owed_delayacct (p : task) (q : res) : Z := owed_count p q + delta Delayacct q.
Definition owed_policy (p : task) (q : res) : Z := owed_delayacct p q + (if t_mempolicy p then delta Mempolicy q else 0).
Definition owed_semundo (p : task) (q : res) : Z :=
  owed_policy p q + delta Perf q + delta Audit q + delta Security q + delta Semundo q.
Definition owed_files (p : task) (q : res) : Z := owed_semundo p q + ptr_ref Files (t_files p) q.
Definition owed_fs (p : task) (q : res) : Z := owed_files p q + ptr_ref Fs (t_fs p) q.
Definition owed_sighand (p : task) (q : res) : Z := owed_fs p q + ptr_ref Sighand (t_sighand p) q.
Definition owed_signal (f : Z) (p : task) (q : res) : Z :=
  owed_sighand p q + (if negb (has f CLONE_THREAD) then ptr_ref Signal (t_signal p) q else 0).
Definition owed_mm (f : Z) (p : task) (q : res) : Z := owed_signal f p q + ptr_ref MM (t_mm p) q.
Definition owed_namespaces (f : Z) (p : task) (q : res) : Z := owed_mm f p q + ptr_ref Nsproxy (t_nsproxy p) q.
Definition owed_io (f : Z) (p : task) (q : res) : Z := owed_namespaces f p q + ptr_ref IoContext (t_io_context p) q.
Definition owed_thread (f : Z) (p : task) (q : res) : Z := owed_io f p q + delta Thread q.
Definition owed_pid (f : Z) (idle : bool) (p : task) (q : res) : Z :=
  owed_thread f p q + (if negb idle then delta PidRef q else 0).
Definition owed_pidfd (f : Z) (idle : bool) (p : task) (q : res) : Z :=
  owed_pid f idle p q + (if has f CLONE_PIDFD then delta UnusedFd q + delta PidRef q + delta PidFile q else 0).
Definition owed_cgroup (f : Z) (idle : bool) (p : task) (q : res) : Z := owed_pidfd f idle p q + delta Cgroup q.

#[local] Strategy expand [owed_free owed_count owed_delayacct owed_policy owed_semundo owed_files owed_fs owed_sighand
  owed_signal owed_mm owed_namespaces owed_io owed_thread owed_pid owed_pidfd owed_cgroup].
#[local] Strategy 1000 [Z.add Z.mul Z.sub ptr_ref].

Lemma held_put_ptr k p s q : held (put_ptr k p s) q = held s q - ptr_ref k p q.
Proof. destruct p; cbn; lia. Qed.

Lemma held_get_ptr k p s q : held (get_ptr k p s) q = held s q + ptr_ref k p q.
Proof. destruct p; cbn; lia. Qed.

(** Moving a state along changes of the ledger only. *)
Lemma inv_move d d' s0 s s' : inv d s0 s -> (forall q, held s' q - held s q = d' q - d q) ->
  current_flags s' = current_flags s -> nr_threads s' = nr_threads s -> total_forks s' = total_forks s ->
  process_counts s' = process_counts s -> group_threads s' = group_threads s -> group_quick s' = group_quick s ->
  group_live s' = group_live s -> inv d' s0 s'.
Proof.
  intros (H1 & H2 & H3 & H4 & H5 & H6 & H7 & H8) Hh Hc E1 E2 E3 E4 E5 E6. split.
  - intros q. specialize (H1 q). specialize (Hh q). lia.
  - rewrite Hc, E1, E2, E3, E4, E5, E6. auto 10.
Qed.

Lemma put_ptr_rest k p s : current_flags (put_ptr k p s) = current_flags s /\ nr_threads (put_ptr k p s) = nr_threads s /\
  total_forks (put_ptr k p s) = total_forks s /\ process_counts (put_ptr k p s) = process_counts s /\
  group_threads (put_ptr k p s) = group_threads s /\ group_quick (put_ptr k p s) = group_quick s /\
  group_live (put_ptr k p s) = group_live s.
Proof. by destruct p. Qed.

Lemma inv_put d k p s0 s : inv (fun q => d q + ptr_ref k p q) s0 s -> inv d s0 (put_ptr k p s).
Proof.
  intros H. destruct (put_ptr_rest k p s) as (R1 & R2 & R3 & R4 & R5 & R6 & R7). eapply inv_move; [exact H| |done..].
  intros q. rewrite held_put_ptr. lia.
Qed.

Lemma get_ptr_rest k p s : current_flags (get_ptr k p s) = current_flags s /\ nr_threads (get_ptr k p s) = nr_threads s /\
  total_forks (get_ptr k p s) = total_forks s /\ process_counts (get_ptr k p s) = process_counts s /\
  group_threads (get_ptr k p s) = group_threads s /\ group_quick (get_ptr k p s) = group_quick s /\
  group_live (get_ptr k p s) = group_live s.
Proof. by destruct p. Qed.

Lemma inv_get d k p s0 s : inv d s0 s -> inv (fun q => d q + ptr_ref k p q) s0 (get_ptr k p s).
Proof.
  intros H. destruct (get_ptr_rest k p s) as (R1 & R2 & R3 & R4 & R5 & R6 & R7). eapply inv_move; [exact H| |done..].
  intros q. rewrite held_get_ptr. lia.
Qed.

Lemma ledger_ext d d' s0 s : inv d s0 s -> (forall q, d' q = d q) -> inv d' s0 s.
Proof. intros H Hd. eapply inv_move; [exact H| |done..]. intros q. rewrite Hd. lia. Qed.

Lemma inv_hold e r d s0 s : inv d s0 s -> inv (fun q => d q + e * delta r q) s0 (hold e r s).
Proof. intros (H1 & H2). split; [|exact H2]. intros q. cbn. rewrite H1. lia. Qed.

Lemma inv_queued b d s0 s : inv d s0 s -> inv d s0 (set_queued b s).
Proof. intros (H1 & H2). split; [exact H1|exact H2]. Qed.

(** Takes and drops in the ledger. *)
Ltac ledger H :=
  eapply ledger_ext; [repeat first [apply inv_hold | apply inv_queued]; exact H|intros q; cbv beta iota; lia].

(** One label of the ladder, by its defining equation. *)
Ltac label L :=
  match goal with |- failed ?s0 _ ?x => let y := eval unfold L in x in replace x with y by reflexivity end.

Lemma fork_out_failed ret s0 s : inv (fun _ => 0) s0 s -> failed s0 ret (fork_out ret s).
Proof. intros H. split; [done|]. split; [|reflexivity]. cbn [snd fork_out]. ledger H. Qed.

Lemma free_failed ret p s0 s : task_ok p -> inv (owed_free p) s0 s -> failed s0 ret (bad_fork_free ret p s).
Proof.
  intros (Hr & Hd & Hk) H. label bad_fork_free. unfold put_task_stack. cbn [t_stack_refs with_run t_dead]. rewrite Hr.
  change (1 - 1 =? 0) with true. cbn [negb]. apply fork_out_failed. unfold free_task. cbn [with_run t_flags t_kthread_struct].
  unfold owed_free in H. destruct (t_kthread_struct p); [rewrite (Hk eq_refl)|rewrite andb_false_r]; cbn [andb]; ledger H.
Qed.

Lemma count_failed ret p s0 s : task_ok p -> inv (owed_count p) s0 s -> failed s0 ret (bad_fork_cleanup_count ret p s).
Proof. intros Hp H. label bad_fork_cleanup_count. apply free_failed; [done|]. unfold owed_count in H. ledger H. Qed.

Lemma delayacct_failed ret p s0 s : task_ok p -> inv (owed_delayacct p) s0 s -> failed s0 ret (bad_fork_cleanup_delayacct ret p s).
Proof. intros Hp H. label bad_fork_cleanup_delayacct. apply count_failed; [done|]. unfold owed_delayacct in H. ledger H. Qed.

Lemma policy_failed ret p s0 s : task_ok p -> inv (owed_policy p) s0 s -> failed s0 ret (bad_fork_cleanup_policy ret p s).
Proof. intros Hp H. label bad_fork_cleanup_policy. apply delayacct_failed; [done|]. unfold owed_policy in H. destruct (t_mempolicy p); ledger H. Qed.

Lemma semundo_failed ret p s0 s : task_ok p -> inv (owed_semundo p) s0 s -> failed s0 ret (bad_fork_cleanup_semundo ret p s).
Proof.
  intros Hp H. label bad_fork_cleanup_semundo. label bad_fork_cleanup_security. label bad_fork_cleanup_audit.
  label bad_fork_cleanup_perf.
  apply policy_failed; [done|]. unfold owed_semundo in H. ledger H.
Qed.

Lemma files_failed ret p s0 s : task_ok p -> inv (owed_files p) s0 s -> failed s0 ret (bad_fork_cleanup_files ret p s).
Proof. intros Hp H. label bad_fork_cleanup_files. apply semundo_failed; [done|]. apply inv_put. exact H. Qed.

Lemma fs_failed ret p s0 s : task_ok p -> inv (owed_fs p) s0 s -> failed s0 ret (bad_fork_cleanup_fs ret p s).
Proof. intros Hp H. label bad_fork_cleanup_fs. apply files_failed; [done|]. apply inv_put. exact H. Qed.

Lemma sighand_failed ret p s0 s : task_ok p -> inv (owed_sighand p) s0 s -> failed s0 ret (bad_fork_cleanup_sighand ret p s).
Proof. intros Hp H. label bad_fork_cleanup_sighand. apply fs_failed; [done|]. apply inv_put. exact H. Qed.

Lemma signal_failed f ret p s0 s : task_ok p -> inv (owed_signal f p) s0 s -> failed s0 ret (bad_fork_cleanup_signal f ret p s).
Proof.
  intros Hp H. label bad_fork_cleanup_signal. apply sighand_failed; [done|]. unfold owed_signal in H.
  destruct (negb (has f CLONE_THREAD)); [apply inv_put; exact H|ledger H].
Qed.

Lemma mm_failed f ret p s0 s : task_ok p -> inv (owed_mm f p) s0 s -> failed s0 ret (bad_fork_cleanup_mm f ret p s).
Proof. intros Hp H. label bad_fork_cleanup_mm. apply signal_failed; [done|]. apply inv_put. exact H. Qed.

Lemma namespaces_failed f ret p s0 s : task_ok p -> inv (owed_namespaces f p) s0 s ->
  failed s0 ret (bad_fork_cleanup_namespaces f ret p s).
Proof. intros Hp H. label bad_fork_cleanup_namespaces. apply mm_failed; [done|]. apply inv_put. exact H. Qed.

Lemma io_failed f ret p s0 s : task_ok p -> inv (owed_io f p) s0 s -> failed s0 ret (bad_fork_cleanup_io f ret p s).
Proof. intros Hp H. label bad_fork_cleanup_io. apply namespaces_failed; [done|]. apply inv_put. exact H. Qed.

Lemma thread_failed f ret p s0 s : task_ok p -> inv (owed_thread f p) s0 s -> failed s0 ret (bad_fork_cleanup_thread f ret p s).
Proof. intros Hp H. label bad_fork_cleanup_thread. apply io_failed; [done|]. unfold owed_thread in H. ledger H. Qed.

Lemma pid_failed f idle ret p s0 s : task_ok p -> inv (owed_pid f idle p) s0 s -> failed s0 ret (bad_fork_free_pid f idle ret p s).
Proof. intros Hp H. label bad_fork_free_pid. apply thread_failed; [done|]. unfold owed_pid in H. destruct idle; cbn [negb] in *; ledger H. Qed.

Lemma pidfd_failed f idle ret p s0 s : task_ok p -> inv (owed_pidfd f idle p) s0 s -> failed s0 ret (bad_fork_put_pidfd f idle ret p s).
Proof. intros Hp H. label bad_fork_put_pidfd. apply pid_failed; [done|]. unfold owed_pidfd in H. destruct (has f CLONE_PIDFD); ledger H. Qed.

(** ** What the new task shares, and which step refuses first *)

Definition files_ptr (f : Z) (x : fork_extra) : ptr :=
  if parent_has_files then if no_files x then Null else if has f CLONE_FILES then Parents else Own else Null.
Definition fs_ptr (f : Z) : ptr := if has f CLONE_FS then Parents else Own.
Definition sighand_ptr (f : Z) : ptr := if has f CLONE_SIGHAND then Parents else Own.
Definition signal_ptr (f : Z) : ptr := if has f CLONE_THREAD then Parents else Own.
Definition mm_ptr (f : Z) : ptr := if parent_has_mm then if has f CLONE_VM then Parents else Own else Null.
Definition nsproxy_ptr (f : Z) : ptr := if new_namespaces f then Own else Parents.

Definition files_err (f : Z) (x : fork_extra) : Z :=
  if parent_has_files && negb (no_files x) && negb (has f CLONE_FILES) then ans DupFd else 0.
Definition fs_err (f : Z) : Z :=
  if has f CLONE_FS then if fs_in_exec then - EAGAIN else 0 else if copy_fs_struct_ok then 0 else - ENOMEM.
Definition sighand_err (f : Z) : Z := if has f CLONE_SIGHAND || alloc_sighand then 0 else - ENOMEM.
Definition signal_err (f : Z) : Z := if has f CLONE_THREAD || alloc_signal then 0 else - ENOMEM.
Definition mm_err (f : Z) : Z := if parent_has_mm && negb (has f CLONE_VM) && negb dup_mm_ok then - ENOMEM else 0.

(** The refusals of each stage in order, with the error each one gives. *)
Definition refuse (e : Z) : bool * Z := (c_true e, e).
Definition prepare_checks (s : fork_state) : list (bool * Z) :=
  [(sigpending, - ERESTARTNOINTR);
   (negb alloc_task || c_true (ans ArchDup) || c_true (ans AllocStack) || c_true (ans ScsPrepare), - ENOMEM);
   (ans CopyCreds <? 0, ans CopyCreds); (nproc_refused, - EAGAIN); (max_threads <=? nr_threads s, - EAGAIN)].
Definition policy_checks (k : bool) : list (bool * Z) :=
  [(k && negb set_kthread_struct, - EAGAIN); (parent_mempolicy && (ans MpolDup <? 0), ans MpolDup)].
Definition subsystem_checks : list (bool * Z) :=
  [refuse (ans SchedFork); refuse (ans PerfInit); refuse (ans AuditAlloc); refuse (ans SecurityAlloc); refuse (ans CopySemundo)].
Definition object_checks (f : Z) (x : fork_extra) : list (bool * Z) :=
  [refuse (files_err f x); refuse (fs_err f); refuse (sighand_err f); refuse (signal_err f); refuse (mm_err f);
   refuse (ans CopyNamespaces); refuse (ans CopyIo); refuse (ans CopyThread)].
Definition pid_checks (f : Z) (x : fork_extra) : list (bool * Z) :=
  [(negb (init_struct_pid x) && (ans AllocPid <? 0), ans AllocPid);
   (has f CLONE_PIDFD && (ans GetUnusedFd <? 0), ans GetUnusedFd); (has f CLONE_PIDFD && (ans AnonFile <? 0), ans AnonFile);
   (has f CLONE_PIDFD && c_true (ans PutUser), ans PutUser); refuse (ans CgroupCanFork)].
Definition publish_checks : list (bool * Z) := [(negb pid_adding, - ENOMEM); (fatal_pending, - EINTR)].

Fixpoint first_error (l : list (bool * Z)) : option Z :=
  match l with [] => None | (b, e) :: l => if b then Some e else first_error l end.

(** A copying helper: with a number nothing is held, with 0 what the pointer stands for. *)
Definition copies (k : kind) (d : res -> Z) (want : ptr) (err : Z) (s0 : fork_state) (y : Z * ptr * fork_state) : Prop :=
  let '(r, p, s) := y in
  r = err /\ if c_true err then inv d s0 s else p = want /\ inv (fun q => d q + ptr_ref k want q) s0 s.

Lemma copies_null k d s0 s : inv d s0 s -> copies k d Null 0 s0 (0, Null, s).
Proof. intros H. cbn. split; [done|]. split; [done|]. apply (inv_get d k Null s0 s H). Qed.

Lemma copies_err k d want e p s0 s : e <> 0 -> inv d s0 s -> copies k d want e s0 (e, p, s).
Proof. intros He H. cbn. by apply c_true_true in He as ->. Qed.

Lemma copies_got k d want s0 s : inv d s0 s -> copies k d want 0 s0 (0, want, get_ptr k want s).
Proof. intros H. cbn. split; [done|]. split; [done|]. by apply inv_get. Qed.

Lemma copies_answer k d want a p s0 s : inv d s0 s ->
  copies k d want a s0 (if c_true a then (a, p, s) else (0, want, get_ptr k want s)).
Proof.
  intros H. destruct (c_true a) eqn:Ha; [apply copies_err; [by apply c_true_true|done]|].
  apply c_true_false in Ha as ->. by apply copies_got.
Qed.

Lemma copy_files_copies f x d s0 s : inv d s0 s ->
  copies Files d (files_ptr f x) (files_err f x) s0 (copy_files f (no_files x) (if parent_has_files then Parents else Null) s).
Proof.
  intros H. unfold copy_files, files_ptr, files_err. destruct parent_has_files; cbn [negb andb]; [|by apply copies_null].
  destruct (no_files x); cbn [negb andb]; [by apply copies_null|].
  destruct (has f CLONE_FILES); cbn [negb]; [by apply (copies_got Files d Parents)|by apply (copies_answer Files d Own)].
Qed.

Lemma copy_fs_copies f d s0 s : inv d s0 s -> copies Fs d (fs_ptr f) (fs_err f) s0 (copy_fs f Parents s).
Proof.
  intros H. unfold copy_fs, fs_ptr, fs_err. destruct (has f CLONE_FS).
  - destruct fs_in_exec; [by apply copies_err|by apply (copies_got Fs d Parents)].
  - destruct copy_fs_struct_ok; [by apply (copies_got Fs d Own)|by apply copies_err].
Qed.

Lemma copy_sighand_copies f d s0 s : inv d s0 s -> copies Sighand d (sighand_ptr f) (sighand_err f) s0 (copy_sighand f Parents s).
Proof.
  intros H. unfold copy_sighand, sighand_ptr, sighand_err. destruct (has f CLONE_SIGHAND); [by apply (copies_got Sighand d Parents)|].
  destruct alloc_sighand; [by apply (copies_got Sighand d Own)|by apply copies_err].
Qed.

(** A thread uses the signal structure of its group, counted only when it becomes visible. *)
Lemma copy_signal_copies f d s0 s : inv d s0 s ->
  let '(r, p, s') := copy_signal f Parents s in
  r = signal_err f /\
  if c_true (signal_err f) then inv d s0 s'
  else p = signal_ptr f /\ inv (fun q => d q + (if negb (has f CLONE_THREAD) then ptr_ref Signal (signal_ptr f) q else 0)) s0 s'.
Proof.
  intros H. unfold copy_signal, signal_ptr, signal_err. destruct (has f CLONE_THREAD); cbn [negb orb].
  - split; [done|]. split; [done|]. ledger H.
  - destruct alloc_signal; [exact (copies_got Signal d Own s0 s H)|split; [done|exact H]].
Qed.

Lemma copy_mm_copies f d s0 s : inv d s0 s -> copies MM d (mm_ptr f) (mm_err f) s0 (copy_mm f s).
Proof.
  intros H. unfold copy_mm, mm_ptr, mm_err. destruct parent_has_mm; cbn [negb andb]; [|by apply copies_null].
  destruct (has f CLONE_VM); cbn [negb andb]; [by apply (copies_got MM d Parents)|].
  destruct dup_mm_ok; [by apply (copies_got MM d Own)|by apply copies_err].
Qed.

Lemma copy_namespaces_copies f p d s0 s : inv d s0 s ->
  copies Nsproxy d (nsproxy_ptr f) (ans CopyNamespaces) s0 (copy_namespaces f p s).
Proof. apply copies_answer. Qed.

Lemma copy_io_copies f p d s0 s : inv d s0 s -> copies IoContext d (io_context_of f) (ans CopyIo) s0 (copy_io f p s).
Proof. apply copies_answer. Qed.

(** ** The stages *)

Section stages.
Context (s0 : fork_state) (S : result -> Prop).

(** The first refusal of the list is answered with nothing left; without one, [S]. *)
Definition outcome (l : list (bool * Z)) (r : result) : Prop :=
  match first_error l with Some e => failed s0 e r | None => S r end.

Lemma outcome_if b e l x y : (b = true -> failed s0 e x) -> (b = false -> outcome l y) -> outcome ((b, e) :: l) (if b then x else y).
Proof. intros Hx Hy. unfold outcome. cbn [first_error]. destruct b; [by apply Hx|by apply Hy]. Qed.

Lemma outcome_skip e l r : outcome l r -> outcome ((false, e) :: l) r.
Proof. done. Qed.

(** A step that refuses, its refusal, then the rest. *)
Tactic Notation "refused" "by" tactic3(t) := apply outcome_if; [intros _; t|intros _].

Lemma subsystems_ok l p s next : task_ok p -> inv (owed_policy p) s0 s ->
  (forall s', inv (owed_semundo p) s0 s' -> outcome l (next p s')) -> outcome (subsystem_checks ++ l) (fork_subsystems p s next).
Proof.
  intros Hp H Hn. unfold fork_subsystems, subsystem_checks. cbn [app]. unfold refuse.
  refused by (apply policy_failed; [done|exact H]).
  refused by (apply policy_failed; [done|exact H]).
  refused by (label bad_fork_cleanup_perf; apply policy_failed; [done|ledger H]).
  refused by (label bad_fork_cleanup_audit; label bad_fork_cleanup_perf; apply policy_failed; [done|ledger H]).
  refused by (label bad_fork_cleanup_security; label bad_fork_cleanup_audit; label bad_fork_cleanup_perf;
              apply policy_failed; [done|ledger H]).
  apply Hn. unfold owed_semundo. ledger H.
Qed.

(** The task after its objects are copied. *)
Definition with_objects (f : Z) (x : fork_extra) (p : task) : task :=
  with_ptr IoContext (io_context_of f) (with_ptr Nsproxy (nsproxy_ptr f) (with_ptr MM (mm_ptr f)
    (with_ptr Signal (signal_ptr f) (with_ptr Sighand (sighand_ptr f) (with_ptr Fs (fs_ptr f) (with_ptr Files (files_ptr f x) p)))))).

(** The pointers of a fresh copy. *)
Definition fresh (p : task) : Prop :=
  t_files p = (if parent_has_files then Parents else Null) /\ t_fs p = Parents /\ t_sighand p = Parents /\
  t_signal p = Parents /\ t_nsproxy p = Parents.

(** A task that differs in pointers from [p] owes the same up to the semaphores. *)
Definition same_run (p p' : task) : Prop :=
  t_flags p' = t_flags p /\ t_dead p' = t_dead p /\ t_stack_refs p' = t_stack_refs p /\
  t_kthread_struct p' = t_kthread_struct p /\ t_mempolicy p' = t_mempolicy p.

Lemma same_run_ok p p' : same_run p p' -> task_ok p -> task_ok p'.
Proof. intros (H1 & H2 & H3 & H4 & H5) (K1 & K2 & K3). unfold task_ok. by rewrite H1, H2, H3, H4. Qed.

Lemma same_run_owed p p' q : same_run p p' -> owed_semundo p' q = owed_semundo p q.
Proof.
  intros (H1 & H2 & H3 & H4 & H5). unfold owed_semundo, owed_policy, owed_delayacct, owed_count, owed_free. by rewrite H4, H5.
Qed.

(** What is owed by a task that differs from [p] in its pointers. *)
Ltac owes p C :=
  eapply ledger_ext; [exact C|]; intros r';
  unfold owed_thread, owed_io, owed_namespaces, owed_mm, owed_signal, owed_sighand, owed_fs, owed_files;
  rewrite (same_run_owed p) by (by repeat split);
  cbn [with_ptr t_files t_fs t_sighand t_signal t_mm t_nsproxy t_io_context]; cbv beta; lia.
(** One copying step: its error goes to the label whose lemma is [fail]. *)
Tactic Notation "copy_step" constr(p) hyp(C) constr(fail) ident(s') :=
  let q := fresh "q" in let b := fresh "Hb" in
  match type of C with
  | copies _ _ _ _ _ ?y => destruct y as [[? q] s']; cbn [copies] in C
  | _ => match type of C with context [copy_signal ?f ?x ?z] => destruct (copy_signal f x z) as [[? q] s'] end
  end;
  destruct C as [-> C]; cbv zeta; apply outcome_if; intros b; rewrite b in C;
  [apply fail; [by apply (same_run_ok p); [repeat split|]|owes p C]|destruct C as [-> C]].

Lemma objects_ok l f x p s next : task_ok p -> fresh p -> inv (owed_semundo p) s0 s ->
  (forall s', inv (owed_thread f (with_objects f x p)) s0 s' -> outcome l (next (with_objects f x p) s')) ->
  outcome (object_checks f x ++ l) (fork_objects f x p s next).
Proof.
  intros Hp (F1 & F2 & F3 & F4 & F5) H Hn. unfold fork_objects, object_checks. cbn [app]. unfold refuse. rewrite F1.
  pose proof (copy_files_copies f x _ s0 s H) as C1. copy_step p C1 semundo_failed s1.
  cbn [with_ptr t_fs]. rewrite F2.
  pose proof (copy_fs_copies f _ s0 s1 C1) as C2. clear C1. copy_step p C2 files_failed s2.
  cbn [with_ptr t_sighand]. rewrite F3.
  pose proof (copy_sighand_copies f _ s0 s2 C2) as C3. clear C2. copy_step p C3 fs_failed s3.
  cbn [with_ptr t_signal]. rewrite F4.
  pose proof (copy_signal_copies f _ s0 s3 C3) as C4. clear C3. copy_step p C4 sighand_failed s4.
  pose proof (copy_mm_copies f _ s0 s4 C4) as C5. clear C4. copy_step p C5 signal_failed s5.
  cbn [with_ptr t_nsproxy]. rewrite F5.
  pose proof (copy_namespaces_copies f Parents _ s0 s5 C5) as C6. clear C5. copy_step p C6 mm_failed s6.
  cbn [with_ptr t_io_context].
  pose proof (copy_io_copies f (t_io_context p) _ s0 s6 C6) as C7. clear C6. copy_step p C7 namespaces_failed s7.
  refused by (apply io_failed; [by apply (same_run_ok p); [repeat split|]|owes p C7]).
  apply Hn. apply (inv_hold 1 Thread) in C7. unfold with_objects. owes p C7.
Qed.

(** The flags of the new task. *)
Definition child_flags (k : bool) (x : fork_extra) (fl : Z) : Z :=
  Z.lor (clear (let fl := clear fl PF_KTHREAD in
                let fl := if k then Z.lor fl PF_KTHREAD else fl in
                let fl := if user_worker x then Z.lor fl PF_USER_WORKER else fl in
                if io_thread x then Z.lor fl PF_IO_WORKER else fl)
           (PF_SUPERPRIV + PF_WQ_WORKER + PF_IDLE + PF_NO_SETAFFINITY)) PF_FORKNOEXEC.

(** The task after the first stage. *)
Definition prepared (f ctid : Z) (k : bool) (x : fork_extra) : task :=
  with_ptr IoContext Null
    (with_tids (if has f CLONE_CHILD_SETTID then ctid else 0) (if has f CLONE_CHILD_CLEARTID then ctid else 0)
       (copy_of_current (child_flags k x (current_flags s0)))).

Lemma dup_task_inv s p s' : inv (fun _ => 0) s0 s -> dup_task_struct s = (p, s') ->
  if negb alloc_task || c_true (ans ArchDup) || c_true (ans AllocStack) || c_true (ans ScsPrepare)
  then p = None /\ inv (fun _ => 0) s0 s'
  else p = Some (copy_of_current (current_flags s)) /\ inv (owed_free (copy_of_current (current_flags s))) s0 s'.
Proof.
  intros H. unfold dup_task_struct. destruct alloc_task; cbn [negb orb]; [|by intros [= <- <-]].
  destruct (c_true (ans ArchDup)); cbn [orb]; [intros [= <- <-]; split; [done|ledger H]|].
  destruct (c_true (ans AllocStack)); cbn [orb]; [intros [= <- <-]; split; [done|ledger H]|].
  destruct (c_true (ans ScsPrepare)); [intros [= <- <-]; split; [done|ledger H]|].
  intros [= <- <-]. split; [done|]. unfold owed_free. cbn [copy_of_current t_kthread_struct]. ledger H.
Qed.

(** The kernel-thread flag survives the other changes of the flags. *)
Lemma kthread_flag k x fl : has (child_flags k x fl) PF_KTHREAD = k.
Proof.
  unfold child_flags. cbv zeta. rewrite has_lor, has_clear.
  change (has PF_FORKNOEXEC PF_KTHREAD) with false. rewrite orb_false_r.
  change (clear PF_KTHREAD (PF_SUPERPRIV + PF_WQ_WORKER + PF_IDLE + PF_NO_SETAFFINITY)) with PF_KTHREAD.
  rewrite !has_if_lor, has_clear. change (clear PF_KTHREAD PF_KTHREAD) with 0. rewrite has_zero.
  change (has PF_KTHREAD PF_KTHREAD) with true. change (has PF_USER_WORKER PF_KTHREAD) with false.
  change (has PF_IO_WORKER PF_KTHREAD) with false. by destruct k, (user_worker x), (io_thread x).
Qed.

Lemma prepare_ok l f ctid k x next : delayed_queued s0 = false ->
  (forall s, inv (owed_delayacct (prepared f ctid k x)) s0 s -> outcome l (next (prepared f ctid k x) s)) ->
  outcome (prepare_checks s0 ++ l) (fork_prepare f ctid k x s0 next).
Proof.
  intros Hq Hn. unfold fork_prepare, prepare_checks. cbn [app].
  set (s1 := hold (-1) SigLock _).
  assert (H1 : inv (fun _ => 0) s0 s1).
  { assert (H0 : inv (fun _ => 0) s0 s0) by (split; [intros; lia|auto 10]). subst s1.
    destruct (negb (has f CLONE_THREAD)); ledger H0. }
  assert (Hf : current_flags s1 = current_flags s0) by (subst s1; by destruct (negb (has f CLONE_THREAD))).
  clearbody s1. cbv zeta. refused by (by apply fork_out_failed).
  destruct (dup_task_struct s1) as [o s2] eqn:Hd. apply dup_task_inv in Hd; [|done]. rewrite Hf in Hd.
  set (b := negb alloc_task || _ || _ || _) in *. clearbody b.
  destruct b; destruct Hd as [-> H2]; [unfold outcome; cbn [first_error]; by apply fork_out_failed|].
  apply outcome_skip. cbv zeta. set (p := with_tids _ _ _).
  assert (Hok : task_ok p) by (split; [done|]; split; [done|]; intros; discriminate).
  assert (H3 : inv (owed_free p) s0 s2) by exact H2. clear H2.
  refused by (apply free_failed; [done|exact H3]).
  assert (H4 : inv (owed_count p) s0 (hold 1 NprocCount (hold 1 Creds s2))) by (unfold owed_count; ledger H3).
  set (s3 := hold 1 NprocCount (hold 1 Creds s2)) in *. clearbody s3.
  refused by (apply count_failed; [done|exact H4]).
  set (s4 := set_current_flags _ s3).
  assert (H5 : inv (owed_count p) s0 s4).
  { destruct H4 as (A1 & A2 & A3). split; [exact A1|]. split; [|exact A3]. cbn. destruct A2 as [-> | ->]; [by right|].
    right. apply clear_clear. }
  clearbody s4. rewrite (proj1 (proj2 (proj2 H5))). refused by (apply count_failed; [done|exact H5]).
  refine (Hn _ _). eapply ledger_ext; [apply (inv_hold 1 Delayacct); exact H5|]. intros q. unfold owed_delayacct, owed_count. cbv beta.
  change (owed_free (prepared _ _ _ _) q) with (owed_free p q). lia.
Qed.

(** The task after the second stage. *)
Definition with_kthread (k : bool) (p : task) : task := with_run (t_flags p) (t_dead p) (t_stack_refs p) k (t_mempolicy p) p.

Lemma policy_ok l f ctid k x s next : let p := prepared f ctid k x in let p' := with_kthread k p in
  inv (owed_delayacct p) s0 s ->
  (forall s', task_ok p' -> inv (owed_policy p') s0 s' -> outcome l (next p' s')) ->
  outcome (policy_checks k ++ l) (fork_policy k p s next).
Proof.
  intros p p' H Hn. unfold fork_policy, policy_checks. cbv zeta. cbn [app].
  assert (Hok : task_ok p) by (split; [done|]; split; [done|]; intros; discriminate).
  assert (Hok' : task_ok p') by (split; [done|]; split; [done|]; intros; cbn; rewrite kthread_flag; done).
  refused by (apply delayacct_failed; [done|exact H]). fold (with_kthread k p). fold p'.
  set (s1 := if k then hold 1 KthreadStruct s else s).
  assert (H1 : inv (owed_delayacct p') s0 s1).
  { subst s1. unfold owed_delayacct, owed_count, owed_free in *. change (t_kthread_struct p') with k.
    change (t_kthread_struct p) with false in H. destruct k; ledger H. }
  clearbody s1. change (t_mempolicy p') with parent_mempolicy.
  refused by (apply delayacct_failed; [apply Hok'|exact H1]).
  apply Hn; [done|]. unfold owed_policy. change (t_mempolicy p') with parent_mempolicy. destruct parent_mempolicy; ledger H1.
Qed.

(** The task after the fifth stage. *)
Definition with_pid (f : Z) (x : fork_extra) (p : task) : task :=
  let pid := if init_struct_pid x then 0 else new_pid in
  with_ids pid (if has f CLONE_THREAD then current_tgid else pid) (negb (has f CLONE_THREAD)) (t_parent p) (t_exit_signal p) p.

Lemma pid_ok l f x p s next : task_ok p -> inv (owed_thread f p) s0 s ->
  (forall s', inv (owed_cgroup f (init_struct_pid x) p) s0 s' -> outcome l (next (with_pid f x p) s')) ->
  outcome (pid_checks f x ++ l) (fork_pid f x p s next).
Proof.
  intros Hp H Hn. unfold fork_pid, pid_checks, refuse. cbv zeta. cbn [app]. fold (with_pid f x p).
  refused by (apply thread_failed; [done|exact H]).
  set (idle := init_struct_pid x) in *. set (s1 := if negb idle then _ else _).
  assert (H1 : inv (owed_pid f idle p) s0 s1) by (subst s1; unfold owed_pid; destruct idle; cbn [negb]; ledger H).
  clearbody s1. clear H.
  assert (Hlast : forall s2, inv (owed_pidfd f idle p) s0 s2 ->
    outcome ((c_true (ans CgroupCanFork), ans CgroupCanFork) :: l)
      (if c_true (ans CgroupCanFork) then bad_fork_put_pidfd f idle (ans CgroupCanFork) (with_pid f x p) s2
       else next (with_pid f x p) (hold 1 Cgroup s2))).
  { intros s2 H2. refused by (apply pidfd_failed; [exact Hp|exact H2]). apply Hn. unfold owed_cgroup. ledger H2. }
  destruct (has f CLONE_PIDFD) eqn:Hpf; cbn [andb].
  - unfold pidfd_prepare_. destruct (ans GetUnusedFd <? 0) eqn:Hfd.
    { rewrite Hfd. unfold outcome. cbn [first_error]. apply pid_failed; [done|exact H1]. }
    apply outcome_skip. cbv zeta. destruct (ans AnonFile <? 0) eqn:Ha.
    { rewrite Ha. unfold outcome. cbn [first_error]. apply pid_failed; [done|ledger H1]. }
    apply outcome_skip. rewrite Hfd. set (s2 := hold 1 PidRef _).
    assert (H2 : inv (owed_pidfd f idle p) s0 s2) by (subst s2; unfold owed_pidfd; rewrite Hpf; ledger H1).
    clearbody s2. refused by (apply pidfd_failed; [done|exact H2]). by apply Hlast.
  - do 3 apply outcome_skip. apply Hlast. unfold owed_pidfd. rewrite Hpf. ledger H1.
Qed.

Lemma cgroup_failed f idle ret p s : task_ok p ->
  inv (fun q => owed_cgroup f idle p q + delta TasklistLock q + delta SigLock q + delta CoreCookie q) s0 s ->
  failed s0 ret (bad_fork_cancel_cgroup f idle ret p s).
Proof. intros Hp H. label bad_fork_cancel_cgroup. apply pidfd_failed; [done|]. unfold owed_cgroup in H. ledger H. Qed.
End stages.

(** ** The new task *)

(** The parent and the exit signal. *)
Definition with_parent (args : kernel_clone_args) (p : task) : task :=
  let f := flags args in
  let '(parent, sig) :=
    if has f (Z.lor CLONE_PARENT CLONE_THREAD) then (ParentOfCurrent, if has f CLONE_THREAD then -1 else leader_exit_signal)
    else (Current, exit_signal args) in
  with_ids (t_pid p) (t_tgid p) (t_own_group p) parent sig p.

Definition child (args : kernel_clone_args) (x : fork_extra) (s : fork_state) : task :=
  let f := flags args in
  let pid := if init_struct_pid x then 0 else new_pid in
  {| t_flags := child_flags (kthread args) x (current_flags s); t_dead := false; t_stack_refs := 1;
     t_kthread_struct := kthread args; t_mempolicy := parent_mempolicy;
     t_files := files_ptr f x; t_fs := fs_ptr f; t_sighand := sighand_ptr f; t_signal := signal_ptr f; t_mm := mm_ptr f;
     t_nsproxy := nsproxy_ptr f; t_io_context := io_context_of f;
     t_set_child_tid := if has f CLONE_CHILD_SETTID then child_tid args else 0;
     t_clear_child_tid := if has f CLONE_CHILD_CLEARTID then child_tid args else 0;
     t_pid := pid; t_tgid := if has f CLONE_THREAD then current_tgid else pid; t_own_group := negb (has f CLONE_THREAD);
     t_parent := if has f (Z.lor CLONE_PARENT CLONE_THREAD) then ParentOfCurrent else Current;
     t_exit_signal := if has f (Z.lor CLONE_PARENT CLONE_THREAD) then if has f CLONE_THREAD then -1 else leader_exit_signal
                      else exit_signal args |}.

(** All that is held for a new task: its own structures, the objects its pointers stand
    for, its pid, and the descriptor installed for its parent; no lock, no reservation. *)
Definition child_holds (args : kernel_clone_args) (x : fork_extra) (q : res) : Z :=
  let f := flags args in
  delta TaskMem q + delta StackMem q + delta StackAccount q + delta ShadowStack q + delta UserCpus q +
  (if kthread args then delta KthreadStruct q else 0) + delta Creds q + delta NprocCount q + delta Delayacct q +
  (if parent_mempolicy then delta Mempolicy q else 0) +
  delta Perf q + delta Audit q + delta Security q + delta Semundo q + ptr_ref Files (files_ptr f x) q + ptr_ref Fs (fs_ptr f) q +
  ptr_ref Sighand (sighand_ptr f) q + ptr_ref Signal (signal_ptr f) q + ptr_ref MM (mm_ptr f) q +
  ptr_ref Nsproxy (nsproxy_ptr f) q + ptr_ref IoContext (io_context_of f) q + delta Thread q +
  (if init_struct_pid x then 0 else delta PidRef q) + (if has f CLONE_PIDFD then delta PidRef q + delta InstalledFd q else 0) +
  delta Cgroup q + delta CoreCookie q + (if parent_filter then delta Filter q else 0).

(** The task is made, everything it is entitled to is held, and the counters know it. *)
Definition succeeded (args : kernel_clone_args) (x : fork_extra) (s0 : fork_state) (r : result) : Prop :=
  let s := r.2 in let one (b : bool) := if b then 1 else 0 in
  let idle := init_struct_pid x in let thread := has (flags args) CLONE_THREAD in
  r.1 = inr (child args x s0) /\ (forall q, held s q = held s0 q + child_holds args x q) /\ delayed_queued s = false /\
  nr_threads s = nr_threads s0 + one (negb idle) /\ total_forks s = total_forks s0 + 1 /\
  process_counts s = process_counts s0 + one (negb idle && negb thread) /\
  group_threads s = group_threads s0 + one thread /\ group_quick s = group_quick s0 + one thread /\
  group_live s = group_live s0 + one thread.

Definition fork_checks (args : kernel_clone_args) (x : fork_extra) (s : fork_state) : list (bool * Z) :=
  let f := flags args in
  prepare_checks s ++ policy_checks (kthread args) ++ subsystem_checks ++ object_checks f x ++ pid_checks f x ++ publish_checks.

(** The task in front of the last stage. *)
Definition nearly (args : kernel_clone_args) (x : fork_extra) (s0 : fork_state) : task :=
  let f := flags args in
  with_pid f x (with_objects f x (with_kthread (kthread args) (prepared s0 f (child_tid args) (kthread args) x))).

(** What is counted when the task becomes visible. *)
Definition count_child (p : task) (s : fork_state) : fork_state :=
  let s := if parent_filter then take_ref Filter s else s in
  let s :=
    if c_true (t_pid p) then
      let s := if t_own_group p then add_counts 0 0 1 0 0 0 s else take_ref (Old Signal) (add_counts 0 0 0 1 1 1 s) in
      add_counts 1 0 0 0 0 0 s
    else s in
  set_queued false (add_counts 0 1 0 0 0 0 s).

Lemma publish_ok S args x s0 p s : task_ok p -> inv (owed_cgroup (flags args) (init_struct_pid x) p) s0 s ->
  (forall s', inv (fun q => owed_cgroup (flags args) (init_struct_pid x) p q + delta TasklistLock q + delta SigLock q +
                            delta CoreCookie q) s0 s' ->
     S (inr (with_parent args p),
        let s := drop_ref TasklistLock (drop_ref SigLock (count_child p s')) in
        if has (flags args) CLONE_PIDFD then take_ref InstalledFd (drop_ref PidFile (drop_ref UnusedFd s)) else s)) ->
  outcome s0 S publish_checks (fork_publish (flags args) (exit_signal args) x p s).
Proof.
  intros Hp H Hn. unfold fork_publish, publish_checks, with_parent, count_child in *. cbv zeta in *.
  set (s1 := hold 1 SigLock _).
  assert (H1 : inv (fun q => owed_cgroup (flags args) (init_struct_pid x) p q + delta TasklistLock q + delta SigLock q +
    delta CoreCookie q) s0 s1) by (subst s1; ledger H).
  clearbody s1. clear H. apply Hn in H1 as Hs. clear Hn.
  destruct (if has _ (Z.lor _ _) then _ else _) as [par sig].
  assert (Hq : task_ok (with_ids (t_pid p) (t_tgid p) (t_own_group p) par sig p)).
  { by apply (same_run_ok p); [repeat split|]. }
  apply outcome_if; [intros _; apply cgroup_failed; [exact Hq|exact H1]|intros _].
  apply outcome_if; [intros _; apply cgroup_failed; [exact Hq|exact H1]|intros _].
  exact Hs.
Qed.

Lemma count_child_counts p s : let one (b : bool) := if b then 1 else 0 in
  let visible := c_true (t_pid p) in let s' := count_child p s in
  (forall q, held s' q = held s q + (if parent_filter then delta Filter q else 0) +
                         (if visible && negb (t_own_group p) then delta (Old Signal) q else 0)) /\
  delayed_queued s' = false /\ nr_threads s' = nr_threads s + one visible /\ total_forks s' = total_forks s + 1 /\
  process_counts s' = process_counts s + one (visible && t_own_group p) /\
  group_threads s' = group_threads s + one (visible && negb (t_own_group p)) /\
  group_quick s' = group_quick s + one (visible && negb (t_own_group p)) /\
  group_live s' = group_live s + one (visible && negb (t_own_group p)).
Proof.
  unfold count_child. destruct parent_filter, (c_true (t_pid p)), (t_own_group p);
    cbn [andb negb held hold set_held set_queued add_counts delayed_queued nr_threads total_forks process_counts group_threads
      group_quick group_live]; repeat split; intros; lia.
Qed.

(** What the new task owes to the ladder, in its own terms. *)
Lemma owed_nearly args x s0 q : owed_cgroup (flags args) (init_struct_pid x) (nearly args x s0) q =
  child_holds args x q - (if has (flags args) CLONE_THREAD then delta (Old Signal) q else 0) -
  (if has (flags args) CLONE_PIDFD then delta InstalledFd q else 0) +
  (if has (flags args) CLONE_PIDFD then delta UnusedFd q + delta PidFile q else 0) - delta CoreCookie q -
  (if parent_filter then delta Filter q else 0).
Proof.
  unfold owed_cgroup, owed_pidfd, owed_pid, owed_thread, owed_io, owed_namespaces, owed_mm, owed_signal, owed_sighand, owed_fs,
    owed_files, owed_semundo, owed_policy, owed_delayacct, owed_count, owed_free, child_holds, nearly, with_pid, with_objects,
    with_kthread, prepared, signal_ptr. cbv zeta.
  cbn [with_ids with_run with_ptr with_tids copy_of_current t_files t_fs t_sighand t_signal t_mm t_nsproxy t_io_context
    t_kthread_struct t_mempolicy].
  destruct (has (flags args) CLONE_THREAD), (has (flags args) CLONE_PIDFD), (init_struct_pid x); cbn [negb ptr_ref]; lia.
Qed.

Lemma child_nearly args x s0 : with_parent args (nearly args x s0) = child args x s0.
Proof. unfold with_parent, child. cbv zeta. by destruct (has (flags args) (Z.lor CLONE_PARENT CLONE_THREAD)). Qed.

Lemma success_ok args x s0 s : new_pid <> 0 -> (init_struct_pid x = true -> has (flags args) CLONE_THREAD = false) ->
  inv (fun q => owed_cgroup (flags args) (init_struct_pid x) (nearly args x s0) q + delta TasklistLock q + delta SigLock q +
                delta CoreCookie q) s0 s ->
  succeeded args x s0
    (inr (with_parent args (nearly args x s0)),
     let s := drop_ref TasklistLock (drop_ref SigLock (count_child (nearly args x s0) s)) in
     if has (flags args) CLONE_PIDFD then take_ref InstalledFd (drop_ref PidFile (drop_ref UnusedFd s)) else s).
Proof.
  intros Hpid Hidle (Hh & _ & N1 & N2 & N3 & N4 & N5 & N6). rewrite child_nearly.
  pose proof (count_child_counts (nearly args x s0) s) as (C0 & C1 & C2 & C3 & C4 & C5 & C6 & C7).
  set (s' := count_child (nearly args x s0) s) in *. clearbody s'.
  change (t_pid (nearly args x s0)) with (if init_struct_pid x then 0 else new_pid) in *.
  change (t_own_group (nearly args x s0)) with (negb (has (flags args) CLONE_THREAD)) in *.
  assert (Hv : c_true (if init_struct_pid x then 0 else new_pid) = negb (init_struct_pid x)).
  { destruct (init_struct_pid x); [done|]. by apply c_true_true. }
  rewrite Hv in *. rewrite negb_involutive in *.
  assert (Ht : negb (init_struct_pid x) && has (flags args) CLONE_THREAD = has (flags args) CLONE_THREAD).
  { destruct (init_struct_pid x); [by rewrite Hidle|done]. }
  rewrite Ht in *. unfold succeeded. cbv zeta. cbn [fst snd].
  destruct (has (flags args) CLONE_PIDFD) eqn:Hf;
    cbn [hold set_held held delayed_queued nr_threads total_forks process_counts group_threads group_quick group_live];
    (split; [done|]; split; [intros q; rewrite C0, Hh, owed_nearly, Hf; lia|];
     rewrite C1, C2, C3, C4, C5, C6, C7, N1, N2, N3, N4, N5, N6; auto 10).
Qed.

Lemma body_ok args x s0 : delayed_queued s0 = false -> new_pid <> 0 ->
  (init_struct_pid x = true -> has (flags args) CLONE_THREAD = false) ->
  outcome s0 (succeeded args x s0) (fork_checks args x s0) (copy_process_body args x s0).
Proof.
  intros Hq Hpid Hidle. unfold copy_process_body, fork_checks. cbv zeta.
  apply prepare_ok; [done|]. intros s1 H1. apply policy_ok; [exact H1|]. intros s2 Hok H2.
  apply subsystems_ok; [exact Hok|exact H2|]. intros s3 H3. apply objects_ok; [exact Hok|by repeat split|exact H3|].
  intros s4 H4. set (p4 := with_objects _ _ _) in *.
  assert (Hok4 : task_ok p4) by (by apply (same_run_ok (with_kthread (kthread args) (prepared s0 (flags args) (child_tid args) (kthread args) x))); [repeat split|]).
  apply pid_ok; [exact Hok4|exact H4|]. intros s5 H5. fold (nearly args x s0).
  apply publish_ok; [by apply (same_run_ok p4); [repeat split|]|exact H5|]. intros s6 H6. by apply success_ok.
Qed.

(** C5: copy_process refuses with the error of the first step that refuses, in the order
    of the code, and then every reference, allocation, count and lock taken so far has
    been given back exactly once and the delayed signals are no longer queued.  When no
    step refuses, the new task has exactly the pointers, numbers, parent and exit signal
    its flags ask for, exactly the references its pointers stand for are held, no lock
    and no reserved descriptor is left, and the thread, process and group counters have
    grown by what the task is: nothing but total_forks for the idle task. *)
Theorem copy_process_contract {C : CloneEnv} args x s : delayed_queued s = false -> new_pid <> 0 ->
  (init_struct_pid x = true -> has (flags args) CLONE_THREAD = false) ->
  match first_error (refuse (copy_process_checks (flags args)) :: fork_checks args x s) with
  | Some e => failed s e (copy_process_full args x s)
  | None => succeeded args x s (copy_process_full args x s)
  end.
Proof.
  intros Hq Hpid Hidle. unfold copy_process_full. cbv zeta. apply (outcome_if s (succeeded args x s)); intros Hc.
  - split; [done|]. split; [|done]. cbn. split; [intros; lia|auto 10].
  - by apply body_ok.
Qed.
End accounting.

(** The task of the idle loop is never counted; a worker of io_uring is a thread of its
    creator that shares all its objects and is never reaped. *)
Lemma fork_idle_uncounted {E : ForkEnv} {C : CloneEnv} s p : delayed_queued s = false -> new_pid <> 0 ->
  (fork_idle s).1 = inr p -> t_pid p = 0 /\ nr_threads (fork_idle s).2 = nr_threads s /\ process_counts (fork_idle s).2 = process_counts s.
Proof.
  intros Hq Hpid H. unfold fork_idle in *. set (x := {| user_worker := false |}) in *.
  pose proof (body_ok idle_args x s Hq Hpid (fun _ => eq_refl)) as Hc. unfold copy_process_full in *. cbv zeta in *.
  destruct (c_true _); [done|]. unfold outcome in Hc. destruct (first_error _); [destruct Hc as [Hc _]; congruence|].
  destruct Hc as (Hr & _ & _ & Hn & _ & Hp & _). rewrite H in Hr. injection Hr as ->. rewrite Hn, Hp. cbn. lia.
Qed.

Lemma io_thread_shares {E : ForkEnv} {C : CloneEnv} s p : delayed_queued s = false -> new_pid <> 0 ->
  (create_io_thread s).1 = inr p ->
  t_tgid p = current_tgid /\ t_own_group p = false /\ t_exit_signal p = -1 /\ t_parent p = ParentOfCurrent /\
  t_fs p = Parents /\ t_sighand p = Parents /\ t_signal p = Parents /\
  t_files p = (if parent_has_files then Parents else Null) /\ t_mm p = (if parent_has_mm then Parents else Null) /\
  group_threads (create_io_thread s).2 = group_threads s + 1.
Proof.
  intros Hq Hpid H. unfold create_io_thread in *. set (x := {| user_worker := true |}) in *.
  pose proof (body_ok io_thread_args x s Hq Hpid (fun e => ltac:(discriminate e))) as Hc. unfold copy_process_full in *. cbv zeta in *.
  destruct (c_true _); [done|]. unfold outcome in Hc. destruct (first_error _); [destruct Hc as [Hc _]; congruence|].
  destruct Hc as (Hr & _ & _ & _ & _ & _ & Hg & _). rewrite H in Hr. injection Hr as ->. rewrite Hg.
  change (has (flags io_thread_args) CLONE_THREAD) with true. by repeat split.
Qed.

(** The entry points, which take the rest of copy_process as a parameter, run on this one. *)
Lemma copy_process_rest_full {E : ForkEnv} {C : CloneEnv} args trace x s :
  let number (r : result) := match r.1 with inl e => inl e | inr p => inr (t_pid p) end in
  copy_process_rest args trace = number (copy_process_body args x s) ->
  copy_process trace args = number (copy_process_full args x s).
Proof. cbv zeta. intros H. unfold copy_process, copy_process_full. cbv zeta. by destruct (c_true _). Qed.

(** ** An example *)

Definition demo_fork_env : ForkEnv :=
  {| ans c := match c with GetUnusedFd => 5 | _ => 0 end; alloc_task := true; alloc_sighand := true; alloc_signal := true;
     dup_mm_ok := true; set_kthread_struct := true; copy_fs_struct_ok := true; fs_in_exec := false; sigpending := false;
     nproc_refused := false; max_threads := 100; parent_has_files := true; parent_has_mm := true; parent_mempolicy := true;
     parent_io_context := Parents; new_namespaces _ := false; io_context_of _ := Null; pid_adding := true; fatal_pending := true;
     new_pid := 42; parent_filter := false; current_tgid := 7; leader_exit_signal := 17 |}.

Definition demo_fork_state : fork_state :=
  {| held _ := 0; delayed_queued := false; current_flags := 0; nr_threads := 10; total_forks := 3; process_counts := 5;
     group_threads := 1; group_quick := 1; group_live := 1 |}.

(** A process with a pidfd, killed at the last moment, by a parent with a policy. *)
Lemma copy_process_contract_witness :
  let e := demo_fork_env in let c := demo_clone_env in
  let args := clone_args (Z.lor CLONE_PIDFD CLONE_FS) 0 4096 0 0 in
  let x := {| user_worker := false; io_thread := false; no_files := false; init_struct_pid := false |} in
  failed demo_fork_state (- EINTR) (copy_process_full args x demo_fork_state).
Proof.
  exact (@copy_process_contract demo_fork_env demo_clone_env (clone_args (Z.lor CLONE_PIDFD CLONE_FS) 0 4096 0 0)
    {| user_worker := false; io_thread := false; no_files := false; init_struct_pid := false |} demo_fork_state
    eq_refl ltac:(discriminate) ltac:(intros; discriminate)).
Defined.
