(* ===== verification/Vfork.v ===== *)
(** * Handing the address space back (kernel/fork.c: mm_release, complete_vfork_done,
      wait_for_vfork_done)

    vfork keeps the completion its child signals on the stack of the parent.  The parent
    may be killed while it waits and then withdraws the pointer; the child may be reading
    it at that moment.  The two run here as a machine whose steps are the single accesses
    of the code, so every interleaving is an execution of it; [bad] records a touch of the
    completion after the parent's frame is gone or of the child after it was freed. *)
From S2P Require Import Prelude.

(** ** mm_release *)

Inductive release_effect := FutexExit | FutexExec | FreeUtask | DeactivateMm | PutUserZero (addr : Z) | FutexWake (addr : Z) | CompleteVfork.

(** What the end of the use of an address space does, and the address left in clear_child_tid. *)
Definition mm_release (clear_child_tid mm_users : Z) (vfork_done : bool) : list release_effect * Z :=
  ([FreeUtask; DeactivateMm]
   ++ (if c_true clear_child_tid then
         if 1 <? mm_users then [PutUserZero clear_child_tid; FutexWake clear_child_tid] else []
       else [])
   ++ (if vfork_done then [CompleteVfork] else []),
   if c_true clear_child_tid then 0 else clear_child_tid).

(** The two callers: the futexes the task owns are released first, in the way of an exit
    or of an exec. *)
Definition exit_mm_release (clear_child_tid mm_users : Z) (vfork_done : bool) : list release_effect * Z :=
  let '(log, tid) := mm_release clear_child_tid mm_users vfork_done in (FutexExit :: log, tid).

Definition exec_mm_release (clear_child_tid mm_users : Z) (vfork_done : bool) : list release_effect * Z :=
  let '(log, tid) := mm_release clear_child_tid mm_users vfork_done in (FutexExec :: log, tid).

(** The parent gets its address space back last: after a vfork, when everything that still
    touches user memory is done, and only then. *)
Lemma vfork_completed_last tid users v :
  ((exit_mm_release tid users v).1, (exec_mm_release tid users v).1) =
  (let log := FreeUtask :: DeactivateMm :: (if c_true tid && (1 <? users) then [PutUserZero tid; FutexWake tid] else [])
              ++ (if v then [CompleteVfork] else []) in
   (FutexExit :: log, FutexExec :: log)).
Proof.
  unfold exit_mm_release, exec_mm_release, mm_release.
  by destruct (c_true tid); [destruct (1 <? users)|]; destruct v.
Qed.

(** A released task never announces its end twice, and only to somebody who can hear. *)
Lemma mm_release_once tid users v : let '(log, tid') := mm_release tid users v in
  tid' = 0 /\ (forall a, PutUserZero a ∈ log -> a = tid /\ 1 < users) /\ forall a, PutUserZero a ∉ (mm_release tid' users v).1.
Proof.
  unfold mm_release. destruct (c_true tid) eqn:Ht; cbn [c_true Z.eqb negb].
  - split; [done|]. change (c_true 0) with false. split; intros a; destruct (1 <? users) eqn:Hu, v; set_unfold; bool_hyps; naive_solver lia.
  - apply c_true_false in Ht as ->. split; [done|]. change (c_true 0) with false.
    split; intros a; destruct v; set_unfold; naive_solver.
Qed.

(** ** Parent and child *)

Inductive who := Parent | Child.

(** The parent in kernel_clone and wait_for_vfork_done; the flag is the answer "killed". *)
Inductive parent_pc :=
  | PInit | PArmed | PWoken | PWaiting | PKilled | PLocked | PCleared | PPut (killed : bool) | PReturned (killed : bool).

(** The child between releases ([CRun]) and in complete_vfork_done. *)
Inductive child_pc := CNew | CRun | CSaw | CLocked | CRead (vfork : bool) | CCleared | CCompleted | CDead.

Record vstate := {
  vfork_done : bool;                    (** child->vfork_done is the completion, not NULL *)
  done_ : nat;                          (** the counter in the completion *)
  completions : nat;                    (** calls of complete so far *)
  frame : bool;                         (** the stack frame with the completion exists *)
  task_lock : option who;               (** alloc_lock of the child *)
  usage : Z;                            (** references on the child *)
  ppc : parent_pc; cpc : child_pc;
  bad : bool
}.

Definition vfork_start : vstate :=
  {| vfork_done := false; done_ := 0; completions := 0; frame := true; task_lock := None; usage := 1; ppc := PInit; cpc := CNew;
     bad := false |}.

Definition parent_at (pc : parent_pc) (s : vstate) : vstate :=
  {| vfork_done := vfork_done s; done_ := done_ s; completions := completions s; frame := frame s; task_lock := task_lock s;
     usage := usage s; ppc := pc; cpc := cpc s; bad := bad s |}.
Definition child_at (pc : child_pc) (s : vstate) : vstate :=
  {| vfork_done := vfork_done s; done_ := done_ s; completions := completions s; frame := frame s; task_lock := task_lock s;
     usage := usage s; ppc := ppc s; cpc := pc; bad := bad s |}.
Definition set_vfork (v : bool) (s : vstate) : vstate :=
  {| vfork_done := v; done_ := done_ s; completions := completions s; frame := frame s; task_lock := task_lock s;
     usage := usage s; ppc := ppc s; cpc := cpc s; bad := bad s |}.
Definition set_lock (o : option who) (s : vstate) : vstate :=
  {| vfork_done := vfork_done s; done_ := done_ s; completions := completions s; frame := frame s; task_lock := o;
     usage := usage s; ppc := ppc s; cpc := cpc s; bad := bad s |}.
Definition add_usage (d : Z) (s : vstate) : vstate :=
  {| vfork_done := vfork_done s; done_ := done_ s; completions := completions s; frame := frame s; task_lock := task_lock s;
     usage := usage s + d; ppc := ppc s; cpc := cpc s; bad := bad s |}.
(** The parent touches the task of the child. *)
Definition touch (s : vstate) : vstate :=
  {| vfork_done := vfork_done s; done_ := done_ s; completions := completions s; frame := frame s; task_lock := task_lock s;
     usage := usage s; ppc := ppc s; cpc := cpc s; bad := bad s || (usage s <=? 0) |}.
Definition complete (s : vstate) : vstate :=
  {| vfork_done := vfork_done s; done_ := S (done_ s); completions := S (completions s); frame := frame s;
     task_lock := task_lock s; usage := usage s; ppc := ppc s; cpc := cpc s; bad := bad s || negb (frame s) |}.
Definition consume (s : vstate) : vstate :=
  {| vfork_done := vfork_done s; done_ := Nat.pred (done_ s); completions := completions s; frame := frame s;
     task_lock := task_lock s; usage := usage s; ppc := ppc s; cpc := cpc s; bad := bad s |}.
Definition end_frame (s : vstate) : vstate :=
  {| vfork_done := vfork_done s; done_ := done_ s; completions := completions s; frame := false; task_lock := task_lock s;
     usage := usage s; ppc := ppc s; cpc := cpc s; bad := bad s |}.

(** The label tells a fatal signal of the parent from everything else. *)
Inductive vlabel := Tau | Killed.

Inductive parent_step : vlabel -> vstate -> vstate -> Prop :=
  | p_arm s : ppc s = PInit -> parent_step Tau s (parent_at PArmed (add_usage 1 (set_vfork true s)))
  | p_wake s : ppc s = PArmed -> cpc s = CNew -> parent_step Tau s (child_at CRun (parent_at PWoken s))
  | p_wait s : ppc s = PWoken -> parent_step Tau s (parent_at PWaiting s)
  | p_done s : ppc s = PWaiting -> (0 < done_ s)%nat -> parent_step Tau s (parent_at (PPut false) (consume s))
  | p_kill s : ppc s = PWaiting -> done_ s = 0%nat -> parent_step Killed s (parent_at PKilled s)
  | p_lock s : ppc s = PKilled -> task_lock s = None -> parent_step Tau s (parent_at PLocked (set_lock (Some Parent) (touch s)))
  | p_clear s : ppc s = PLocked -> parent_step Tau s (parent_at PCleared (set_vfork false (touch s)))
  | p_unlock s : ppc s = PCleared -> parent_step Tau s (parent_at (PPut true) (set_lock None (touch s)))
  | p_return s k : ppc s = PPut k -> parent_step Tau s (parent_at (PReturned k) (end_frame (add_usage (-1) (touch s)))).

(** A child releases its address space any number of times (exec, then exit) and is gone
    only after a release in which it saw no completion. *)
Inductive child_step : vstate -> vstate -> Prop :=
  | c_see s : cpc s = CRun -> vfork_done s = true -> child_step s (child_at CSaw s)
  | c_lock s : cpc s = CSaw -> task_lock s = None -> child_step s (child_at CLocked (set_lock (Some Child) s))
  | c_read s : cpc s = CLocked -> child_step s (child_at (CRead (vfork_done s)) s)
  | c_clear s : cpc s = CRead true -> child_step s (child_at CCleared (set_vfork false s))
  | c_complete s : cpc s = CCleared -> child_step s (child_at CCompleted (complete s))
  | c_unlock s : cpc s = CCompleted \/ cpc s = CRead false -> child_step s (child_at CRun (set_lock None s))
  | c_exit s : cpc s = CRun -> vfork_done s = false -> child_step s (child_at CDead (add_usage (-1) s)).

Inductive vstep (l : vlabel) (s s' : vstate) : Prop :=
  | v_parent : parent_step l s s' -> vstep l s s'
  | v_child : l = Tau -> child_step s s' -> vstep l s s'.

Definition any_step (s s' : vstate) : Prop := exists l, vstep l s s'.

(** ** What holds at every moment *)

(** The combinations of pointer, completions and places that occur. *)
Definition consistent (v : bool) (c : nat) (pp : parent_pc) (cc : child_pc) : bool :=
  match pp, cc, c with
  | PInit, CNew, 0%nat => negb v
  | PArmed, CNew, 0%nat => v
  | (PWoken | PWaiting | PKilled | PLocked), (CRun | CSaw), 0%nat => v
  | (PWoken | PWaiting | PKilled | PLocked), (CRun | CDead), 1%nat => negb v
  | (PWoken | PWaiting | PKilled), (CLocked | CRead true), 0%nat => v
  | (PWoken | PWaiting | PKilled), CCleared, 0%nat | (PWoken | PWaiting | PKilled), CCompleted, 1%nat => negb v
  | PCleared, (CRun | CSaw | CDead), (0 | 1)%nat => negb v
  | (PPut true | PReturned true), (CRun | CSaw | CLocked | CRead false | CDead), (0 | 1)%nat => negb v
  | (PPut false | PReturned false), (CRun | CCompleted | CDead), 1%nat => negb v
  | _, _, _ => false
  end.

Definition lock_of (pp : parent_pc) (cc : child_pc) : option who :=
  match pp, cc with
  | (PLocked | PCleared), _ => Some Parent
  | _, (CLocked | CRead _ | CCleared | CCompleted) => Some Child
  | _, _ => None
  end.
Definition usage_of (pp : parent_pc) (cc : child_pc) : Z :=
  match pp with PInit | PReturned _ => 0 | _ => 1 end + match cc with CDead => 0 | _ => 1 end.
Definition returned (pp : parent_pc) : bool := match pp with PReturned _ => true | _ => false end.
Definition heard (pp : parent_pc) : bool := match pp with PPut false | PReturned false => true | _ => false end.

Definition vinv (s : vstate) : Prop :=
  consistent (vfork_done s) (completions s) (ppc s) (cpc s) = true /\ bad s = false /\ task_lock s = lock_of (ppc s) (cpc s) /\
  frame s = negb (returned (ppc s)) /\ usage s = usage_of (ppc s) (cpc s) /\
  done_ s = if heard (ppc s) then 0%nat else completions s.

(** All the cases of a state that satisfies the invariant. *)
Ltac vcases :=
  lazymatch goal with s : vstate |- _ =>
    let c := fresh "c" in let C := fresh "C" in let I := fresh "I" in
    intros I; destruct s as [? ? c ? ? ? ? ? ?]; destruct I as (C & ? & ? & ? & ? & ?); cbn in * |-; subst;
    repeat match goal with x : parent_pc |- _ => destruct x | x : child_pc |- _ => destruct x end;
    repeat match goal with x : bool |- _ => destruct x end;
    destruct c as [|[|c]]; cbn in * |-; try discriminate C; clear C; subst; try discriminate; try lia
  end.

Lemma vinv_parent l s s' : parent_step l s s' -> vinv s -> vinv s'.
Proof. intros []; vcases; by repeat split. Qed.

Lemma vinv_child s s' : child_step s s' -> vinv s -> vinv s'.
Proof. intros []; try destruct H as [H | H]; vcases; by repeat split. Qed.

Lemma vinv_start : vinv vfork_start.
Proof. by repeat split. Qed.

Lemma vinv_reach s : rtc any_step vfork_start s -> vinv s.
Proof.
  intros H. refine (rtc_ind_r (R := any_step) (fun s => vinv s) vfork_start vinv_start _ s H).
  intros s1 s2 _ [l [Hp | -> Hc]] I; [by eapply vinv_parent|by eapply vinv_child].
Qed.

(** ** A fair continuation *)

Definition parent_next (s : vstate) : option vstate :=
  match ppc s with
  | PInit => Some (parent_at PArmed (add_usage 1 (set_vfork true s)))
  | PArmed => match cpc s with CNew => Some (child_at CRun (parent_at PWoken s)) | _ => None end
  | PWoken => Some (parent_at PWaiting s)
  | PWaiting => if (0 <? done_ s)%nat then Some (parent_at (PPut false) (consume s)) else None
  | PKilled => match task_lock s with None => Some (parent_at PLocked (set_lock (Some Parent) (touch s))) | _ => None end
  | PLocked => Some (parent_at PCleared (set_vfork false (touch s)))
  | PCleared => Some (parent_at (PPut true) (set_lock None (touch s)))
  | PPut k => Some (parent_at (PReturned k) (end_frame (add_usage (-1) (touch s))))
  | PReturned _ => None
  end.

Definition child_next (s : vstate) : option vstate :=
  match cpc s with
  | CRun => if vfork_done s then Some (child_at CSaw s) else None
  | CSaw => match task_lock s with None => Some (child_at CLocked (set_lock (Some Child) s)) | _ => None end
  | CLocked => Some (child_at (CRead (vfork_done s)) s)
  | CRead true => Some (child_at CCleared (set_vfork false s))
  | CCleared => Some (child_at CCompleted (complete s))
  | CCompleted | CRead false => Some (child_at CRun (set_lock None s))
  | CNew | CDead => None
  end.

(** The parent while it can move, the child otherwise. *)
Definition move (s : vstate) : vstate := default s (match parent_next s with Some s' => Some s' | None => child_next s end).
Fixpoint moves (n : nat) (s : vstate) : vstate := match n with O => s | S n => moves n (move s) end.

Lemma move_tau s : move s = s \/ vstep Tau s (move s).
Proof.
  unfold move. destruct (parent_next s) as [s'|] eqn:Hp; cbn; [|destruct (child_next s) as [s'|] eqn:Hc; cbn; [|by left]]; right.
  - apply v_parent. unfold parent_next in Hp. destruct (ppc s) eqn:Hpp; try discriminate Hp.
    4: destruct (0 <? done_ s)%nat eqn:Hd; [apply Nat.ltb_lt in Hd|discriminate Hp].
    4: injection Hp as <-; by constructor.
    4: destruct (task_lock s) eqn:Ht; [discriminate Hp|].
    2: destruct (cpc s) eqn:Hcc; try discriminate Hp.
    all: injection Hp as <-; by constructor.
  - apply v_child; [done|]. unfold child_next in Hc. destruct (cpc s) eqn:Hcc; try discriminate Hc.
    1: destruct (vfork_done s) eqn:Hv; [|discriminate Hc].
    2: destruct (task_lock s) eqn:Ht; [discriminate Hc|].
    4: destruct vfork.
    all: injection Hc as <-; constructor; auto.
Qed.

Lemma moves_tau n s : rtc (vstep Tau) s (moves n s).
Proof.
  revert s. induction n as [|n IH]; intros s; cbn; [done|].
  destruct (move_tau s) as [-> | H]; [apply IH|eapply rtc_l; [exact H|apply IH]].
Qed.

(** The parent was killed. *)
Definition killed_path (pp : parent_pc) : bool :=
  match pp with PKilled | PLocked | PCleared | PPut true | PReturned true => true | _ => false end.

Lemma moves_return s : vinv s -> ppc (moves 13 s) = PReturned (killed_path (ppc s)).
Proof. vcases; vm_compute; reflexivity. Qed.

(** C8: under every interleaving of the parent of a vfork, which may be killed at any
    moment of its wait, with a child that releases its address space any number of
    times: nobody touches the completion after the frame that holds it is gone, nor the
    child after its last reference; the completion is signalled at most once, exactly
    once when the parent reports success, and never after it withdrew the pointer; and
    when the parent has returned, the pointer is NULL and only the child's own reference
    is left.  The parent can always return: without a signal, with success. *)
Theorem vfork_handover s : rtc any_step vfork_start s ->
  bad s = false /\ (completions s <= 1)%nat /\
  (forall k, ppc s = PReturned k ->
     vfork_done s = false /\ (k = false -> completions s = 1%nat) /\ usage s = match cpc s with CDead => 0 | _ => 1 end) /\
  exists s', rtc (vstep Tau) s s' /\ ppc s' = PReturned (killed_path (ppc s)).
Proof.
  intros H. apply vinv_reach in H as I.
  split; [apply I|]. split; [by clear H; revert I; vcases; cbn; lia|].
  split; [clear H; intros k Hk; revert I; vcases; simplify_eq; by repeat split|].
  exists (moves 13 s). split; [apply moves_tau|by apply moves_return].
Qed.

(** A child that hands the address space back to a parent nobody kills. *)
Lemma vfork_handover_witness :
  bad (moves 13 vfork_start) = false /\ (completions (moves 13 vfork_start) <= 1)%nat /\ ppc (moves 13 vfork_start) = PReturned false.
Proof.
  assert (H : rtc any_step vfork_start (moves 13 vfork_start)).
  { eapply rtc_subrel; [|apply moves_tau]. intros s s' Hs. by exists Tau. }
  split; [exact (proj1 (vfork_handover _ H))|]. split; [exact (proj1 (proj2 (vfork_handover _ H)))|reflexivity].
Defined.
