(* ===== verification/MmLife.v ===== *)
(** * The life of an address space (kernel/fork.c: mm_init to mm_access, __mmdrop)

    An mm_struct has two counts: mm_users, the tasks and borrowers that use the address
    space, and mm_count, the references on the structure, of which all users together
    hold one.  The last user closes the mappings, the executable and the binary format;
    the last reference frees the structure, at once or through the one work item it
    embeds.  The executable of an mm is a file that nobody may write: i_writecount of its
    inode is kept negative.  A function here answers [None] where the code would touch a
    freed structure, run into one of its BUG checks, or arm a work item that is pending. *)
From S2P Require Import Prelude.

(** ** The store *)

Inductive mm_res := MmMem | Pgd | MmContext | Cid | Counters | UserNs.

(** What is counted: references on a file, denials of writing on an inode (the opposite of
    its i_writecount), references on a module, and the parts of an mm. *)
Inductive key := FileRef (f : nat) | Denied (i : nat) | ModRef (b : nat) | Res (r : mm_res).

#[export] Instance mm_res_eq_dec : EqDecision mm_res.
Proof. solve_decision. Defined.
#[export] Instance key_eq_dec : EqDecision key.
Proof. solve_decision. Defined.

Inductive work_fn := MmputFn | MmdropFn.

#[export] Instance work_fn_eq_dec : EqDecision work_fn.
Proof. solve_decision. Defined.

Record mm_struct := {
  mm_users : Z; mm_count : Z;
  exe_file : option nat;
  on_mmlist : bool;
  binfmt : option nat;                  (** the module of the binary format *)
  mm_owner : bool;                      (** owner is not NULL *)
  mflags : Z; def_flags : Z;
  async_put_work : option work_fn       (** pending, with this function *)
}.

Record store := { mms : gmap nat mm_struct; counter : key -> Z }.

Definition set_mm (m : nat) (mm : mm_struct) (st : store) : store := {| mms := <[m := mm]> (mms st); counter := counter st |}.
Definition drop_mm (m : nat) (st : store) : store := {| mms := delete m (mms st); counter := counter st |}.
Definition add (d : Z) (k : key) (st : store) : store :=
  {| mms := mms st; counter := fun q => counter st q + (if decide (q = k) then d else 0) |}.

Definition with_users (u : Z) (mm : mm_struct) : mm_struct :=
  {| mm_users := u; mm_count := mm_count mm; exe_file := exe_file mm; on_mmlist := on_mmlist mm; binfmt := binfmt mm;
     mm_owner := mm_owner mm; mflags := mflags mm; def_flags := def_flags mm; async_put_work := async_put_work mm |}.
Definition with_count (c : Z) (mm : mm_struct) : mm_struct :=
  {| mm_users := mm_users mm; mm_count := c; exe_file := exe_file mm; on_mmlist := on_mmlist mm; binfmt := binfmt mm;
     mm_owner := mm_owner mm; mflags := mflags mm; def_flags := def_flags mm; async_put_work := async_put_work mm |}.
Definition with_exe (x : option nat) (mm : mm_struct) : mm_struct :=
  {| mm_users := mm_users mm; mm_count := mm_count mm; exe_file := x; on_mmlist := on_mmlist mm; binfmt := binfmt mm;
     mm_owner := mm_owner mm; mflags := mflags mm; def_flags := def_flags mm; async_put_work := async_put_work mm |}.
Definition with_mmlist (l : bool) (mm : mm_struct) : mm_struct :=
  {| mm_users := mm_users mm; mm_count := mm_count mm; exe_file := exe_file mm; on_mmlist := l; binfmt := binfmt mm;
     mm_owner := mm_owner mm; mflags := mflags mm; def_flags := def_flags mm; async_put_work := async_put_work mm |}.
Definition with_binfmt (b : option nat) (o : bool) (mm : mm_struct) : mm_struct :=
  {| mm_users := mm_users mm; mm_count := mm_count mm; exe_file := exe_file mm; on_mmlist := on_mmlist mm; binfmt := b;
     mm_owner := o; mflags := mflags mm; def_flags := def_flags mm; async_put_work := async_put_work mm |}.
Definition with_work (w : option work_fn) (mm : mm_struct) : mm_struct :=
  {| mm_users := mm_users mm; mm_count := mm_count mm; exe_file := exe_file mm; on_mmlist := on_mmlist mm; binfmt := binfmt mm;
     mm_owner := mm_owner mm; mflags := mflags mm; def_flags := def_flags mm; async_put_work := w |}.

Definition EBUSY := 16.
(** The address space of the boot processor, never freed. *)
Definition init_mm : nat := 0.
Definition VM_INIT_DEF_MASK := 1073741824.
Definition MMF_DUMP_FILTER_SHIFT := 2.
Definition MMF_DUMP_FILTER_MASK := 2044.

(** The coredump_filter= boot parameter, from the number it holds. *)
Definition coredump_filter_setup (v : Z) : Z := Z.land (u64 (Z.shiftl v MMF_DUMP_FILTER_SHIFT)) MMF_DUMP_FILTER_MASK.

Class MmWorld := {
  inode_of : nat -> nat;                (** the inode of a file *)
  path_of : nat -> nat;                 (** its path, as path_equal compares it *)
  mmf_init_flags : Z -> Z;              (** linux/sched/coredump.h *)
  default_dump_filter : Z
}.

Section mm.
Context {W : MmWorld}.

(** linux/fs.h: writing is denied unless somebody writes; a denial is taken back; a
    writer is admitted unless writing is denied. *)
Definition get_file (f : nat) (st : store) : store := add 1 (FileRef f) st.
Definition fput (f : nat) (st : store) : store := add (-1) (FileRef f) st.
Definition deny_write_access (f : nat) (st : store) : Z * store :=
  if counter st (Denied (inode_of f)) <? 0 then (- ETXTBSY, st) else (0, add 1 (Denied (inode_of f)) st).
Definition allow_write_access (f : nat) (st : store) : store := add (-1) (Denied (inode_of f)) st.
Definition get_write_access (i : nat) (st : store) : Z * store :=
  if 0 <? counter st (Denied i) then (- ETXTBSY, st) else (0, add (-1) (Denied i) st).

(** ** Making one *)

Record init_answers := { pgd_ok : bool; context_err : Z; cid_err : Z; counters_err : Z }.

Definition free_mm (st : store) : store := add (-1) (Res MmMem) st.
Definition mm_free_pgd (st : store) : store := add (-1) (Res Pgd) st.
Definition destroy_context (st : store) : store := add (-1) (Res MmContext) st.
Definition mm_destroy_cid (st : store) : store := add (-1) (Res Cid) st.

(** The new structure in slot [m], whose memory was allocated; [cur] is current->mm. *)
Definition mm_init (a : init_answers) (cur : option mm_struct) (fmt : option nat) (m : nat) (st : store) : bool * store :=
  let mm := {| mm_users := 1; mm_count := 1; exe_file := None; on_mmlist := false; binfmt := fmt; mm_owner := true;
               mflags := match cur with Some c => mmf_init_flags (mflags c) | None => default_dump_filter end;
               def_flags := match cur with Some c => Z.land (def_flags c) VM_INIT_DEF_MASK | None => 0 end;
               async_put_work := None |} in
  if negb (pgd_ok a) then (false, free_mm st)
  else
    let st := add 1 (Res Pgd) st in
    if c_true (context_err a) then (false, free_mm (mm_free_pgd st))
    else
      let st := add 1 (Res MmContext) st in
      if c_true (cid_err a) then (false, free_mm (mm_free_pgd (destroy_context st)))
      else
        let st := add 1 (Res Cid) st in
        if c_true (counters_err a) then (false, free_mm (mm_free_pgd (destroy_context (mm_destroy_cid st))))
        else (true, set_mm m mm (add 1 (Res UserNs) (add 1 (Res Counters) st))).

Definition current_mm (cur : option nat) (st : store) : option mm_struct := match cur with Some c => mms st !! c | None => None end.

Definition mm_alloc (mem : bool) (a : init_answers) (cur : option nat) (m : nat) (st : store) : bool * store :=
  if negb mem then (false, st) else mm_init a (current_mm cur st) None m (add 1 (Res MmMem) st).

(** ** The executable *)

Definition set_mm_exe_file (m : nat) (new : option nat) (st : store) : option (Z * store) :=
  match mms st !! m with
  | None => None
  | Some mm =>
      let old := exe_file mm in
      let swap (st : store) : store :=
        let st := set_mm m (with_exe new mm) st in
        match old with Some f => fput f (allow_write_access f st) | None => st end in
      match new with
      | Some f =>
          let '(err, st) := deny_write_access f st in
          if c_true err then Some (- EACCES, st) else Some (0, swap (get_file f st))
      | None => Some (0, swap st)
      end
  end.

(** A reference on the executable, if there is one. *)
Definition get_mm_exe_file (m : nat) (st : store) : option (option nat * store) :=
  match mms st !! m with
  | None => None
  | Some mm => Some (exe_file mm, match exe_file mm with Some f => get_file f st | None => st end)
  end.

(** [vmas] are the files mapped in the address space. *)
Definition replace_mm_exe_file (m new : nat) (vmas : list (option nat)) (st : store) : option (Z * store) :=
  match get_mm_exe_file m st with
  | None => None
  | Some (old, st) =>
      let busy := match old with
                  | Some f => existsb (fun v => match v with Some g => (path_of g =? path_of f)%nat | None => false end) vmas
                  | None => false
                  end in
      let st := match old with Some f => fput f st | None => st end in
      if busy then Some (- EBUSY, st)
      else
        let '(err, st) := deny_write_access new st in
        if c_true err then Some (- EACCES, st)
        else
          let st := get_file new st in
          match mms st !! m with
          | None => None
          | Some mm =>
              let st := set_mm m (with_exe (Some new) mm) st in
              Some (0, match exe_file mm with Some f => fput f (allow_write_access f st) | None => st end)
          end
  end.

(** The answer tells whether the warning is printed. *)
Definition dup_mm_exe_file (m old : nat) (st : store) : option (bool * store) :=
  match get_mm_exe_file old st with
  | None => None
  | Some (x, st) =>
      match mms st !! m with
      | None => None
      | Some mm =>
          let st := set_mm m (with_exe x mm) st in
          match x with
          | Some f => let '(err, st) := deny_write_access f st in Some (c_true err, st)
          | None => Some (false, st)
          end
      end
  end.

(** ** Giving up *)

Definition __mmdrop (m : nat) (st : store) : option store :=
  if (m =? init_mm)%nat then None
  else
    match mms st !! m with
    | None => None
    | Some _ =>
        let st := mm_destroy_cid (add (-1) (Res UserNs) (destroy_context (mm_free_pgd st))) in
        Some (drop_mm m (free_mm (add (-1) (Res Counters) st)))
    end.

(** linux/sched/mm.h *)
Definition mmdrop (m : nat) (st : store) : option store :=
  match mms st !! m with
  | None => None
  | Some mm =>
      let st := set_mm m (with_count (mm_count mm - 1) mm) st in
      if mm_count mm - 1 =? 0 then __mmdrop m st else Some st
  end.

(** INIT_WORK and schedule_work on the item of the mm. *)
Definition schedule (fn : work_fn) (m : nat) (st : store) : option store :=
  match mms st !! m with
  | Some mm => match async_put_work mm with None => Some (set_mm m (with_work (Some fn) mm) st) | Some _ => None end
  | None => None
  end.

Definition mmdrop_async (m : nat) (st : store) : option store :=
  match mms st !! m with
  | None => None
  | Some mm =>
      let st := set_mm m (with_count (mm_count mm - 1) mm) st in
      if mm_count mm - 1 =? 0 then schedule MmdropFn m st else Some st
  end.

Definition __mmput (m : nat) (st : store) : option store :=
  match mms st !! m with
  | None => None
  | Some mm =>
      if c_true (mm_users mm) then None
      else
        match set_mm_exe_file m None st with
        | None => None
        | Some (_, st) =>
            match mms st !! m with
            | None => None
            | Some mm =>
                let st := if on_mmlist mm then set_mm m (with_mmlist false mm) st else st in
                let st := match binfmt mm with Some b => add (-1) (ModRef b) st | None => st end in
                mmdrop m st
            end
        end
  end.

Definition mmput (m : nat) (st : store) : option store :=
  match mms st !! m with
  | None => None
  | Some mm =>
      let st := set_mm m (with_users (mm_users mm - 1) mm) st in
      if mm_users mm - 1 =? 0 then __mmput m st else Some st
  end.

Definition mmput_async (m : nat) (st : store) : option store :=
  match mms st !! m with
  | None => None
  | Some mm =>
      let st := set_mm m (with_users (mm_users mm - 1) mm) st in
      if mm_users mm - 1 =? 0 then schedule MmputFn m st else Some st
  end.

(** The kernel worker runs the pending function. *)
Definition run_work (m : nat) (st : store) : option store :=
  match mms st !! m with
  | None => None
  | Some mm =>
      let st' := set_mm m (with_work None mm) st in
      match async_put_work mm with
      | None => Some st
      | Some MmputFn => __mmput m st'
      | Some MmdropFn => __mmdrop m st'
      end
  end.

(** ** Borrowing *)

Record mm_task := { task_mm : option nat; task_kthread : bool }.

Definition mmget (m : nat) (st : store) : option store :=
  match mms st !! m with Some mm => Some (set_mm m (with_users (mm_users mm + 1) mm) st) | None => None end.
Definition mmgrab (m : nat) (st : store) : option store :=
  match mms st !! m with Some mm => Some (set_mm m (with_count (mm_count mm + 1) mm) st) | None => None end.

Definition get_task_mm (t : mm_task) (st : store) : option (option nat * store) :=
  match task_mm t with
  | Some m =>
      if task_kthread t then Some (None, st)
      else match mmget m st with Some st => Some (Some m, st) | None => None end
  | None => Some (None, st)
  end.

Definition get_task_exe_file (t : mm_task) (st : store) : option (option nat * store) :=
  match task_mm t with
  | Some m => if negb (task_kthread t) then get_mm_exe_file m st else Some (None, st)
  | None => Some (None, st)
  end.

(** [lock_err] is the answer of down_read_killable, [access] of ptrace_may_access. *)
Definition mm_access (lock_err : Z) (access : bool) (cur : option nat) (t : mm_task) (st : store) : option ((Z + option nat) * store) :=
  if c_true lock_err then Some (inl lock_err, st)
  else
    match get_task_mm t st with
    | None => None
    | Some (Some m, st) =>
        if negb (bool_decide (cur = Some m)) && negb access then
          match mmput m st with Some st => Some (inl (- EACCES), st) | None => None end
        else Some (inr (Some m), st)
    | Some (None, st) => Some (inr None, st)
    end.

(** From elsewhere in the kernel: exec sets the binary format, which is a module
    reference; swapping links the address space into mmlist. *)
Definition set_binfmt (m b : nat) (st : store) : option store :=
  match mms st !! m with
  | None => None
  | Some mm =>
      let st := match binfmt mm with Some o => add (-1) (ModRef o) st | None => st end in
      Some (add 1 (ModRef b) (set_mm m (with_binfmt (Some b) (mm_owner mm) mm) st))
  end.
Definition add_mmlist (m : nat) (st : store) : option store :=
  match mms st !! m with Some mm => Some (set_mm m (with_mmlist true mm) st) | None => None end.

(** ** A copy *)

(** [lock_killed]: mmap_write_lock_killable was interrupted; [vmas_err]: the answer of
    the rest of dup_mmap; [module_ok]: of try_module_get. *)
Record dup_answers := { dup_mem : bool; dup_init : init_answers; lock_killed : bool; vmas_err : Z; module_ok : bool }.

Definition dup_mmap_exe (a : dup_answers) (m old : nat) (st : store) : option (Z * store) :=
  if lock_killed a then Some (- EINTR, st)
  else match dup_mm_exe_file m old st with Some (_, st) => Some (vmas_err a, st) | None => None end.

Definition free_pt (m : nat) (st : store) : option (bool * store) :=
  match mms st !! m with
  | None => None
  | Some mm => match mmput m (set_mm m (with_binfmt None false mm) st) with Some st => Some (false, st) | None => None end
  end.

Definition dup_mm (a : dup_answers) (cur : option nat) (m old : nat) (st : store) : option (bool * store) :=
  match mms st !! old with
  | None => None
  | Some omm =>
      if negb (dup_mem a) then Some (false, st)
      else
        let st := add 1 (Res MmMem) st in
        let '(ok, st) := mm_init (dup_init a) (current_mm cur st) (binfmt omm) m st in
        if negb ok then Some (false, st)
        else
          match dup_mmap_exe a m old st with
          | None => None
          | Some (err, st) =>
              if c_true err then free_pt m st
              else
                match binfmt omm with
                | Some b => if module_ok a then Some (true, add 1 (ModRef b) st) else free_pt m st
                | None => Some (true, st)
                end
          end
  end.
End mm.

(** ** What everybody else holds *)

(** The shares outside the store: users and references of tasks, borrowers and the
    scheduler, file references, writers and other denials of writing, module references. *)
Record clients := {
  c_users : nat -> Z; c_grabs : nat -> Z; c_files : nat -> Z; c_writers : nat -> Z; c_denies : nat -> Z; c_mods : nat -> Z
}.

Definition shift (d : Z) (k : nat) (f : nat -> Z) (q : nat) : Z := f q + if decide (q = k) then d else 0.
Definition add_users (d : Z) (m : nat) (g : clients) : clients :=
  {| c_users := shift d m (c_users g); c_grabs := c_grabs g; c_files := c_files g; c_writers := c_writers g;
     c_denies := c_denies g; c_mods := c_mods g |}.
Definition add_grabs (d : Z) (m : nat) (g : clients) : clients :=
  {| c_users := c_users g; c_grabs := shift d m (c_grabs g); c_files := c_files g; c_writers := c_writers g;
     c_denies := c_denies g; c_mods := c_mods g |}.
Definition add_files (d : Z) (f : nat) (g : clients) : clients :=
  {| c_users := c_users g; c_grabs := c_grabs g; c_files := shift d f (c_files g); c_writers := c_writers g;
     c_denies := c_denies g; c_mods := c_mods g |}.
Definition add_writers (d : Z) (i : nat) (g : clients) : clients :=
  {| c_users := c_users g; c_grabs := c_grabs g; c_files := c_files g; c_writers := shift d i (c_writers g);
     c_denies := c_denies g; c_mods := c_mods g |}.
Definition add_denies (d : Z) (i : nat) (g : clients) : clients :=
  {| c_users := c_users g; c_grabs := c_grabs g; c_files := c_files g; c_writers := c_writers g;
     c_denies := shift d i (c_denies g); c_mods := c_mods g |}.

Section invariant.
Context {W : MmWorld}.

(** The users' reference has not been given back: there is a user, or the last one left
    the closing to the worker. *)
Definition live (mm : mm_struct) : bool := (0 <? mm_users mm) || bool_decide (async_put_work mm = Some MmputFn).
Definition b2z (b : bool) : Z := if b then 1 else 0.

(** What one address space holds. *)
Definition holds (k : key) (mm : mm_struct) : Z :=
  match k with
  | FileRef f => b2z (bool_decide (exe_file mm = Some f))
  | Denied i => match exe_file mm with Some f => b2z (inode_of f =? i)%nat | None => 0 end
  | ModRef b => b2z (live mm && bool_decide (binfmt mm = Some b))
  | Res _ => 1
  end.

Definition others (g : clients) (k : key) : Z :=
  match k with FileRef f => c_files g f | Denied i => c_denies g i - c_writers g i | ModRef b => c_mods g b | Res _ => 0 end.

(** The two counts of one address space are exactly what its holders hold, it is pending
    for the worker at most once and for the right reason, and it keeps nothing open when
    its users are gone. *)
Definition mm_wf (g : clients) (m : nat) (mm : mm_struct) : Prop :=
  mm_users mm = c_users g m /\ mm_count mm = c_grabs g m + b2z (live mm) /\
  (async_put_work mm = Some MmputFn -> mm_users mm = 0) /\
  (async_put_work mm = Some MmdropFn <-> mm_count mm = 0) /\
  (live mm = false -> exe_file mm = None /\ on_mmlist mm = false).

Record mm_inv (st : store) (g : clients) : Prop := {
  i_pos : forall n, 0 <= c_users g n /\ 0 <= c_grabs g n /\ 0 <= c_files g n /\ 0 <= c_writers g n /\ 0 <= c_denies g n;
  i_mm : forall m mm, mms st !! m = Some mm -> mm_wf g m mm;
  i_none : forall m, mms st !! m = None -> c_users g m = 0 /\ c_grabs g m = 0;
  i_init : mms st !! init_mm = None;
  i_count : forall k, counter st k = others g k + csum (holds k) (mms st);
  i_write : forall i, c_writers g i = 0 \/ c_denies g i + csum (holds (Denied i)) (mms st) = 0
}.

Lemma holds_nonneg k mm : 0 <= holds k mm.
Proof.
  destruct k; cbn; try lia.
  - by destruct (bool_decide _).
  - destruct (exe_file mm) as [f|]; [|lia]. by destruct (inode_of f =? i)%nat.
  - by destruct (live mm && _).
Qed.

Lemma csum_holds_nonneg k M : 0 <= csum (holds k) M.
Proof. apply csum_nonneg, holds_nonneg. Qed.

(** *** Changing one slot *)

Definition pos (g : clients) : Prop :=
  forall n, 0 <= c_users g n /\ 0 <= c_grabs g n /\ 0 <= c_files g n /\ 0 <= c_writers g n /\ 0 <= c_denies g n.

Definition elsewhere (m : nat) (g g' : clients) : Prop :=
  forall n, n <> m -> c_users g' n = c_users g n /\ c_grabs g' n = c_grabs g n.

Lemma mm_wf_elsewhere m g g' n mm : elsewhere m g g' -> n <> m -> mm_wf g n mm -> mm_wf g' n mm.
Proof. intros He Hn. unfold mm_wf. by destruct (He n Hn) as [-> ->]. Qed.

Lemma inv_set st g st' g' m mm mm' :
  mm_inv st g -> mms st !! m = Some mm -> mms st' = <[m := mm']> (mms st) -> elsewhere m g g' -> pos g' -> mm_wf g' m mm' ->
  (forall k, counter st' k = counter st k + (others g' k - others g k) + (holds k mm' - holds k mm)) ->
  (forall i, c_writers g' i = 0 \/ c_denies g' i + csum (holds (Denied i)) (mms st) - holds (Denied i) mm + holds (Denied i) mm' = 0) ->
  mm_inv st' g'.
Proof.
  intros I Hm Hs He Hp Hw Hc Hx. constructor; rewrite ?Hs; [exact Hp| | | | |].
  - intros n x. destruct (decide (n = m)) as [-> |Hn]; [rewrite lookup_insert_eq; by intros [= <-]|].
    rewrite lookup_insert_ne by done. intros Hl. eapply mm_wf_elsewhere; [done..|by apply I].
  - intros n. destruct (decide (n = m)) as [-> |Hn]; [by rewrite lookup_insert_eq|].
    rewrite lookup_insert_ne by done. destruct (He n Hn) as [-> ->]. apply I.
  - rewrite lookup_insert_ne; [apply I|]. intros ->. by rewrite (i_init _ _ I) in Hm.
  - intros k. rewrite Hc, (i_count _ _ I), (csum_insert _ _ _ _ _ Hm). lia.
  - intros i. rewrite (csum_insert _ _ _ _ _ Hm). destruct (Hx i); [by left|right; lia].
Qed.

Lemma inv_del st g st' g' m mm :
  mm_inv st g -> mms st !! m = Some mm -> mms st' = delete m (mms st) -> elsewhere m g g' -> pos g' ->
  c_users g' m = 0 -> c_grabs g' m = 0 ->
  (forall k, counter st' k = counter st k + (others g' k - others g k) - holds k mm) ->
  (forall i, c_writers g' i = 0 \/ c_denies g' i + csum (holds (Denied i)) (mms st) - holds (Denied i) mm = 0) ->
  mm_inv st' g'.
Proof.
  intros I Hm Hs He Hp Hu Hg Hc Hx. constructor; rewrite ?Hs; [exact Hp| | | | |].
  - intros n x. destruct (decide (n = m)) as [-> |Hn]; [by rewrite lookup_delete_eq|].
    rewrite lookup_delete_ne by done. intros Hl. eapply mm_wf_elsewhere; [done..|by apply I].
  - intros n. destruct (decide (n = m)) as [-> |Hn]; [done|]. rewrite lookup_delete_ne by done.
    destruct (He n Hn) as [-> ->]. apply I.
  - rewrite lookup_delete_ne; [apply I|]. intros ->. by rewrite (i_init _ _ I) in Hm.
  - intros k. rewrite Hc, (i_count _ _ I), (csum_delete _ _ _ _ Hm). lia.
  - intros i. rewrite (csum_delete _ _ _ _ Hm). destruct (Hx i); [by left|right; lia].
Qed.

Lemma inv_new st g st' g' m mm :
  mm_inv st g -> mms st !! m = None -> m <> init_mm -> mms st' = <[m := mm]> (mms st) -> elsewhere m g g' -> pos g' -> mm_wf g' m mm ->
  (forall k, counter st' k = counter st k + (others g' k - others g k) + holds k mm) ->
  (forall i, c_writers g' i = 0 \/ c_denies g' i + csum (holds (Denied i)) (mms st) + holds (Denied i) mm = 0) ->
  mm_inv st' g'.
Proof.
  intros I Hm Hi Hs He Hp Hw Hc Hx. constructor; rewrite ?Hs; [exact Hp| | | | |].
  - intros n x. destruct (decide (n = m)) as [-> |Hn]; [rewrite lookup_insert_eq; by intros [= <-]|].
    rewrite lookup_insert_ne by done. intros Hl. eapply mm_wf_elsewhere; [done..|by apply I].
  - intros n. destruct (decide (n = m)) as [-> |Hn]; [by rewrite lookup_insert_eq|].
    rewrite lookup_insert_ne by done. destruct (He n Hn) as [-> ->]. apply I.
  - rewrite lookup_insert_ne by done. apply I.
  - intros k. rewrite Hc, (i_count _ _ I), (csum_new _ _ _ _ Hm). lia.
  - intros i. rewrite (csum_new _ _ _ _ Hm). destruct (Hx i); [by left|right; lia].
Qed.

(** The counts change, nothing that is held does. *)
Lemma inv_counts st g g' m mm mm' :
  mm_inv st g -> mms st !! m = Some mm -> elsewhere m g g' -> pos g' -> mm_wf g' m mm' -> live mm' = live mm ->
  exe_file mm' = exe_file mm -> binfmt mm' = binfmt mm ->
  c_files g' = c_files g -> c_writers g' = c_writers g -> c_denies g' = c_denies g -> c_mods g' = c_mods g ->
  mm_inv (set_mm m mm' st) g'.
Proof.
  intros I Hm He Hp Hw Hl Hx Hb F1 F2 F3 F4.
  assert (Hh : forall k, holds k mm' = holds k mm) by (intros k; unfold holds; by rewrite Hl, Hx, Hb).
  assert (Ho : forall k, others g' k = others g k) by (intros k; unfold others; by rewrite F1, F2, F3, F4).
  eapply inv_set; [exact I|exact Hm|done|done|done|done| |].
  - intros k. rewrite Hh, Ho. cbn. lia.
  - intros i. rewrite Hh, F2, F3. destruct (i_write _ _ I i); [by left|right; lia].
Qed.

Lemma elsewhere_users d m g : elsewhere m g (add_users d m g).
Proof. intros n Hn. cbn. unfold shift. by rewrite decide_False, Z.add_0_r. Qed.

Lemma elsewhere_grabs d m g : elsewhere m g (add_grabs d m g).
Proof. intros n Hn. cbn. unfold shift. by rewrite decide_False, Z.add_0_r. Qed.

Lemma shift_eq d k f : shift d k f k = f k + d.
Proof. unfold shift. by rewrite decide_True. Qed.

Lemma pos_users d m g : pos g -> 0 <= c_users g m + d -> pos (add_users d m g).
Proof. intros Hp Hd n. specialize (Hp n). cbn. unfold shift. case_decide; subst; lia. Qed.

Lemma pos_grabs d m g : pos g -> 0 <= c_grabs g m + d -> pos (add_grabs d m g).
Proof. intros Hp Hd n. specialize (Hp n). cbn. unfold shift. case_decide; subst; lia. Qed.

Hint Resolve elsewhere_users elsewhere_grabs : core.

(** A holder keeps the structure in its slot. *)
Lemma held_lookup st g m : mm_inv st g -> 0 < c_users g m + c_grabs g m -> exists mm, mms st !! m = Some mm /\ mm_wf g m mm.
Proof.
  intros I H. destruct (mms st !! m) as [mm|] eqn:Hm; [exists mm; split; [done|by apply I]|].
  apply (i_none _ _ I) in Hm as [Hu Hg]. lia.
Qed.

Lemma user_live g m mm : pos g -> mm_wf g m mm -> 0 < c_users g m -> live mm = true /\ async_put_work mm = None.
Proof.
  intros Hp (Hu & Hc & Ha & Hd & _) H. assert (Hl : live mm = true) by (unfold live; rewrite Hu; by apply Z.ltb_lt in H as ->).
  split; [done|]. rewrite Hl in Hc. cbn [b2z] in Hc. specialize (Hp m).
  destruct (async_put_work mm) as [[]|]; [specialize (Ha eq_refl); lia|destruct Hd as [Hd _]; specialize (Hd eq_refl); lia|done].
Qed.

Lemma live_users u mm : 0 < u -> live (with_users u mm) = true.
Proof. intros H. unfold live. cbn. by apply Z.ltb_lt in H as ->. Qed.

(** *** Taking references *)

Lemma mmget_inv st g m : mm_inv st g -> 0 < c_users g m -> exists st', mmget m st = Some st' /\ mm_inv st' (add_users 1 m g).
Proof.
  intros I H. pose proof (i_pos _ _ I) as Hp. destruct (held_lookup st g m I) as (mm & Hm & Hw); [specialize (Hp m); lia|].
  unfold mmget. rewrite Hm. eexists; split; [done|]. destruct (user_live g m mm Hp Hw H) as [Hl Ha].
  destruct Hw as (Hu & Hc & _ & Hd & He).
  eapply inv_counts; [exact I|exact Hm|auto|apply pos_users; [done|lia]| |by rewrite live_users by lia|done..].
  unfold mm_wf. rewrite live_users by lia. cbn. rewrite shift_eq, Ha in *. rewrite Hl in Hc. split; [lia|]. split; [done|].
  by repeat split; try discriminate; apply Hd.
Qed.

Lemma mmgrab_inv st g m : mm_inv st g -> 0 < c_users g m + c_grabs g m ->
  exists st', mmgrab m st = Some st' /\ mm_inv st' (add_grabs 1 m g).
Proof.
  intros I H. pose proof (i_pos _ _ I) as Hp. destruct (held_lookup st g m I H) as (mm & Hm & Hw).
  unfold mmgrab. rewrite Hm. eexists; split; [done|]. destruct Hw as (Hu & Hc & Ha & Hd & He).
  assert (Hlv : 0 < mm_count mm).
  { specialize (Hp m). rewrite Hc. unfold live. rewrite Hu. destruct (0 <? c_users g m) eqn:Hz; cbn [orb b2z]; [lia|].
    apply Z.ltb_ge in Hz. destruct (bool_decide _); cbn [b2z]; lia. }
  eapply inv_counts; [exact I|exact Hm|auto|apply pos_grabs; [done|specialize (Hp m); lia]| |done..].
  unfold mm_wf. cbn. rewrite shift_eq. change (live (with_count _ mm)) with (live mm). split; [done|]. split; [lia|]. split; [done|].
  split; [split; [intros E; apply Hd in E; lia|lia]|done].
Qed.

(** *** The last reference *)

Lemma holds_closed k mm : live mm = false -> exe_file mm = None -> holds k mm = match k with Res _ => 1 | _ => 0 end.
Proof. intros Hl Hx. unfold holds. rewrite Hl, Hx. by destruct k. Qed.

Lemma mmdrop_fn_inv st g m mm st1 mm1 : mm_inv st g -> mms st !! m = Some mm -> mm_count mm = 0 ->
  mms st1 = <[m := mm1]> (mms st) -> counter st1 = counter st -> exists st', __mmdrop m st1 = Some st' /\ mm_inv st' g.
Proof.
  intros I Hm H0 Hs Hk. pose proof (i_mm _ _ I _ _ Hm) as (Hu & Hc & Ha & Hd & He). pose proof (i_pos _ _ I) as Hp.
  assert (Hl : live mm = false).
  { specialize (Hp m). destruct (live mm); cbn [b2z] in Hc; [lia|done]. }
  destruct (He Hl) as [Hx Hlist]. rewrite Hl in Hc. cbn [b2z] in Hc.
  assert (Hz : c_users g m = 0).
  { unfold live in Hl. apply orb_false_iff in Hl as [Hl _]. apply Z.ltb_ge in Hl. specialize (Hp m). lia. }
  unfold __mmdrop. destruct (Nat.eqb_spec m init_mm) as [-> |Hi]; [by rewrite (i_init _ _ I) in Hm|].
  rewrite Hs, lookup_insert_eq. eexists; split; [done|].
  eapply inv_del; [exact I|exact Hm|cbn; by rewrite Hs, delete_insert_eq|done|exact Hp|done|lia| |].
  - intros k. unfold free_mm, mm_free_pgd, destroy_context, mm_destroy_cid. cbn [counter add drop_mm]. rewrite Hk.
    rewrite (holds_closed k mm Hl Hx). destruct k as [f|i|b|[]]; repeat case_decide; try congruence; lia.
  - intros i. cbn. rewrite Hx. destruct (i_write _ _ I i); [by left|right; lia].
Qed.

(** A reference is given back; [w] is the work item then. *)
Lemma drop_wf g m mm : pos g -> mm_wf g m mm -> 0 < c_grabs g m ->
  mm_wf (add_grabs (-1) m g) m (with_work (if mm_count mm - 1 =? 0 then Some MmdropFn else async_put_work mm) (with_count (mm_count mm - 1) mm)) /\
  (mm_count mm - 1 = 0 -> async_put_work mm = None) /\
  live (with_work (if mm_count mm - 1 =? 0 then Some MmdropFn else async_put_work mm) (with_count (mm_count mm - 1) mm)) = live mm.
Proof.
  intros Hp (Hu & Hc & Ha & Hd & He) H. specialize (Hp m).
  assert (Hge : 1 <= mm_count mm) by (rewrite Hc; destruct (live mm); cbn; lia).
  assert (Hn : mm_count mm - 1 = 0 -> async_put_work mm = None).
  { intros E. destruct (async_put_work mm) as [[]|] eqn:Hw; [|destruct Hd as [Hd _]; specialize (Hd eq_refl); lia|done].
    unfold live in Hc. rewrite Hw, bool_decide_eq_true_2, orb_true_r in Hc by done. cbn [b2z] in Hc. lia. }
  assert (Hl : live (with_work (if mm_count mm - 1 =? 0 then Some MmdropFn else async_put_work mm) (with_count (mm_count mm - 1) mm)) = live mm).
  { unfold live. cbn. destruct (Z.eqb_spec (mm_count mm - 1) 0) as [E|E]; [|done]. by rewrite (Hn E). }
  split; [|done]. unfold mm_wf. rewrite Hl. cbn. rewrite shift_eq. split; [done|]. split; [lia|].
  destruct (Z.eqb_spec (mm_count mm - 1) 0) as [E|E]; (split; [auto; discriminate|]; split; [|done]).
  - done.
  - split; [intros E'; apply Hd in E'|intros E']; exfalso; lia.
Qed.

Lemma mmdrop_async_inv st g m : mm_inv st g -> 0 < c_grabs g m ->
  exists st', mmdrop_async m st = Some st' /\ mm_inv st' (add_grabs (-1) m g).
Proof.
  intros I H. pose proof (i_pos _ _ I) as Hp. destruct (held_lookup st g m I) as (mm & Hm & Hw); [specialize (Hp m); lia|].
  destruct (drop_wf g m mm Hp Hw H) as (Hw' & Hn & Hl). unfold mmdrop_async, schedule. rewrite Hm. cbv zeta.
  assert (I' : forall x, x = with_work (if mm_count mm - 1 =? 0 then Some MmdropFn else async_put_work mm) (with_count (mm_count mm - 1) mm) ->
    mm_inv (set_mm m x st) (add_grabs (-1) m g)).
  { intros x ->. eapply inv_counts; [exact I|exact Hm|auto|apply pos_grabs; [done|lia]|exact Hw'|exact Hl|done..]. }
  destruct (Z.eqb_spec (mm_count mm - 1) 0) as [E|E].
  - cbn. rewrite lookup_insert_eq. cbn. rewrite (Hn E). eexists; split; [done|].
    unfold set_mm. cbn. rewrite insert_insert_eq. by apply I'.
  - eexists; split; [done|]. apply I'. by destruct mm.
Qed.

Lemma mmdrop_inv st g m : mm_inv st g -> 0 < c_grabs g m -> exists st', mmdrop m st = Some st' /\ mm_inv st' (add_grabs (-1) m g).
Proof.
  intros I H. pose proof (i_pos _ _ I) as Hp. destruct (held_lookup st g m I) as (mm & Hm & Hw); [specialize (Hp m); lia|].
  destruct (mmdrop_async_inv st g m I H) as (st0 & E0 & I0). unfold mmdrop, mmdrop_async, schedule in *. rewrite Hm in *. cbv zeta in *.
  destruct (Z.eqb_spec (mm_count mm - 1) 0) as [E|E]; [|by exists st0].
  cbn in E0. rewrite lookup_insert_eq in E0. cbn in E0. destruct (async_put_work mm); [done|]. injection E0 as <-.
  eapply mmdrop_fn_inv; [exact I0|cbn; by rewrite lookup_insert_eq|done|cbn; by rewrite !insert_insert_eq|done].
Qed.

(** *** The last user *)

(** An address space its users have left, after the closing. *)
Definition closed (mm : mm_struct) : mm_struct := with_mmlist false (with_exe None (with_work None mm)).
(** What the closing gives back. *)
Definition given (k : key) (mm : mm_struct) : Z := match k with Res _ => 0 | _ => holds k mm end.

Lemma close_inv st g m mm st1 : mm_inv st g -> mms st !! m = Some mm -> async_put_work mm = Some MmputFn ->
  mms st1 = <[m := with_work (if mm_count mm - 1 =? 0 then Some MmdropFn else None) (with_count (mm_count mm - 1) (closed mm))]> (mms st) ->
  (forall k, counter st1 k = counter st k - given k mm) -> mm_inv st1 g.
Proof.
  intros I Hm Hw Hs Hk. pose proof (i_mm _ _ I _ _ Hm) as (Hu & Hc & Ha & Hd & He). pose proof (i_pos _ _ I) as Hp.
  specialize (Ha Hw). set (mm' := with_work _ _) in *.
  assert (Hl : live mm = true) by (unfold live; by rewrite Hw, bool_decide_eq_true_2, orb_true_r).
  assert (Hl' : live mm' = false) by (unfold live; subst mm'; cbn; rewrite Ha; by destruct (mm_count mm - 1 =? 0)).
  assert (Hx : forall k, holds k mm' - holds k mm = - given k mm).
  { intros k. rewrite (holds_closed k mm') by done. destruct k; cbn; lia. }
  eapply inv_set; [exact I|exact Hm|exact Hs|done|exact Hp| | |].
  - unfold mm_wf. rewrite Hl'. rewrite Hl in Hc. cbn in *. split; [done|]. split; [lia|].
    split; [by destruct (mm_count mm - 1 =? 0)|]. split; [|done].
    destruct (Z.eqb_spec (mm_count mm - 1) 0); split; [done..|lia].
  - intros k. rewrite Hk, Hx. lia.
  - intros i. specialize (Hx (Denied i)). change (given (Denied i) mm) with (holds (Denied i) mm) in Hx. destruct (i_write _ _ I i); [by left|right].
    pose proof (csum_member (holds (Denied i)) _ _ _ (holds_nonneg _) Hm). pose proof (holds_nonneg (Denied i) mm).
    pose proof (holds_nonneg (Denied i) mm'). specialize (Hp i). lia.
Qed.

(** What the executable stands for. *)
Definition held_exe (k : key) (x : option nat) : Z :=
  match x with
  | Some f => (if decide (k = FileRef f) then 1 else 0) + (if decide (k = Denied (inode_of f)) then 1 else 0)
  | None => 0
  end.

Lemma holds_exe k mm : match k with FileRef _ | Denied _ => holds k mm | _ => 0 end = held_exe k (exe_file mm).
Proof.
  unfold holds, held_exe. destruct (exe_file mm) as [f|]; [|by destruct k].
  destruct k as [f'|i|b|r]; repeat case_decide; try congruence; try done.
  - destruct (Nat.eqb_spec (inode_of f) i); [done|congruence].
  - destruct (Nat.eqb_spec (inode_of f) i); [congruence|done].
Qed.

(** The executable is closed. *)
Lemma clear_exe st m mm : mms st !! m = Some mm -> exists st',
  set_mm_exe_file m None st = Some (0, st') /\ mms st' = <[m := with_exe None mm]> (mms st) /\
  forall k, counter st' k = counter st k - held_exe k (exe_file mm).
Proof.
  intros Hm. unfold set_mm_exe_file. rewrite Hm. eexists; split; [done|]. destruct (exe_file mm) as [f|].
  - split; [done|]. intros k. unfold fput, allow_write_access, held_exe. cbn [counter add set_mm]. repeat case_decide; lia.
  - split; [done|]. intros k. cbn. lia.
Qed.

Lemma given_split k mm : async_put_work mm = Some MmputFn ->
  given k mm = held_exe k (exe_file mm) + match binfmt mm with Some b => if decide (k = ModRef b) then 1 else 0 | None => 0 end.
Proof.
  intros Hw. rewrite <- holds_exe. unfold given.
  assert (Hl : live mm = true) by (unfold live; by rewrite Hw, bool_decide_eq_true_2, orb_true_r).
  destruct k as [f|i|b|r]; try (destruct (binfmt mm); [case_decide; [congruence|]|]; lia).
  unfold holds. rewrite Hl. cbn [andb]. destruct (binfmt mm) as [b'|]; [|done].
  case_decide; simplify_eq; [by rewrite bool_decide_eq_true_2|by rewrite bool_decide_eq_false_2 by congruence].
Qed.

Lemma mmput_fn_inv st g m mm st1 : mm_inv st g -> mms st !! m = Some mm -> async_put_work mm = Some MmputFn ->
  mms st1 = <[m := with_work None mm]> (mms st) -> counter st1 = counter st -> exists st', __mmput m st1 = Some st' /\ mm_inv st' g.
Proof.
  intros I Hm Hw Hs Hk. pose proof (i_mm _ _ I _ _ Hm) as (Hu & _ & Ha & _). specialize (Ha Hw).
  assert (Hm1 : mms st1 !! m = Some (with_work None mm)) by (by rewrite Hs, lookup_insert_eq).
  unfold __mmput. rewrite Hm1. cbn [mm_users with_work]. rewrite Ha. change (c_true 0) with false.
  destruct (clear_exe st1 m _ Hm1) as (st2 & E2 & Hs2 & Hk2). rewrite E2, Hs2, lookup_insert_eq.
  cbn [on_mmlist binfmt with_exe with_work].
  set (st3 := if on_mmlist mm then _ else st2).
  assert (Hs3 : mms st3 = <[m := closed mm]> (mms st) /\ counter st3 = counter st2).
  { subst st3. destruct (on_mmlist mm) eqn:Hl; cbn; rewrite Hs2, Hs, !insert_insert_eq; (split; [|done]); [done|].
    f_equal. unfold closed. cbn. by destruct mm; cbn in *; subst. }
  destruct Hs3 as [Hs3 Hk3]. clearbody st3. set (st4 := match binfmt mm with Some b => _ | None => _ end).
  assert (Hs4 : mms st4 = <[m := closed mm]> (mms st)) by (subst st4; by destruct (binfmt mm)).
  assert (Hk4 : forall k, counter st4 k = counter st k - given k mm).
  { intros k. rewrite <- Hk. subst st4. destruct (binfmt mm) as [b|] eqn:Hb; cbn [add counter]; rewrite Hk3, Hk2, given_split, Hb by done;
      cbn [exe_file with_work]; try case_decide; lia. }
  clearbody st4. unfold mmdrop. rewrite Hs4, lookup_insert_eq. cbn [mm_count closed with_mmlist with_exe with_work]. cbv zeta.
  destruct (Z.eqb_spec (mm_count mm - 1) 0) as [E|E].
  - set (mm' := with_work (Some MmdropFn) (with_count (mm_count mm - 1) (closed mm))).
    eapply (mmdrop_fn_inv (set_mm m mm' st4) g m mm').
    + eapply close_inv; [exact I|exact Hm|exact Hw|cbn; rewrite Hs4, insert_insert_eq; by rewrite (proj2 (Z.eqb_eq _ _) E)|exact Hk4].
    + cbn. by rewrite lookup_insert_eq.
    + done.
    + cbn. by rewrite insert_insert_eq.
    + done.
  - eexists; split; [done|]. eapply close_inv; [exact I|exact Hm|exact Hw| |exact Hk4].
    cbn. by rewrite Hs4, insert_insert_eq, (proj2 (Z.eqb_neq _ _) E).
Qed.

Lemma mmput_async_inv st g m : mm_inv st g -> 0 < c_users g m ->
  exists st', mmput_async m st = Some st' /\ mm_inv st' (add_users (-1) m g).
Proof.
  intros I H. pose proof (i_pos _ _ I) as Hp. destruct (held_lookup st g m I) as (mm & Hm & Hw); [specialize (Hp m); lia|].
  destruct (user_live g m mm Hp Hw H) as [Hl Ha]. destruct Hw as (Hu & Hc & _ & Hd & He). rewrite Hl in Hc. cbn [b2z] in Hc.
  unfold mmput_async, schedule. rewrite Hm. cbv zeta. specialize (Hp m) as Hpm. destruct (Z.eqb_spec (mm_users mm - 1) 0) as [E|E].
  - cbn. rewrite lookup_insert_eq. cbn. rewrite Ha. eexists; split; [done|]. unfold set_mm. cbn. rewrite insert_insert_eq.
    apply (inv_counts st g _ m mm); [done|done|auto|apply pos_users; [done|lia]| |by rewrite Hl; unfold live; cbn; rewrite orb_true_r|done..].
    unfold mm_wf, live. cbn. rewrite orb_true_r, shift_eq. cbn. split; [lia|]. split; [done|]. split; [done|]. split; [split; [done|lia]|done].
  - eexists; split; [done|]. apply (inv_counts st g _ m mm); [done|done|auto|apply pos_users; [done|lia]| |by rewrite live_users by lia|done..].
    unfold mm_wf. rewrite live_users by lia. cbn. rewrite shift_eq, Ha in *. split; [lia|]. split; [done|]. split; [done|].
    split; [split; [done|lia]|done].
Qed.

Lemma mmput_inv st g m : mm_inv st g -> 0 < c_users g m -> exists st', mmput m st = Some st' /\ mm_inv st' (add_users (-1) m g).
Proof.
  intros I H. pose proof (i_pos _ _ I) as Hp. destruct (held_lookup st g m I) as (mm & Hm & Hw); [specialize (Hp m); lia|].
  destruct (user_live g m mm Hp Hw H) as [Hl Ha].
  destruct (mmput_async_inv st g m I H) as (st0 & E0 & I0). unfold mmput, mmput_async, schedule in *. rewrite Hm in *. cbv zeta in *.
  destruct (Z.eqb_spec (mm_users mm - 1) 0) as [E|E]; [|by exists st0].
  cbn in E0. rewrite lookup_insert_eq in E0. cbn in E0. rewrite Ha in E0. injection E0 as <-.
  eapply mmput_fn_inv; [exact I0|cbn; by rewrite lookup_insert_eq|done| |done].
  cbn. rewrite !insert_insert_eq. f_equal. by destruct mm; cbn in *; subst.
Qed.

Lemma run_work_inv st g m mm : mm_inv st g -> mms st !! m = Some mm -> exists st', run_work m st = Some st' /\ mm_inv st' g.
Proof.
  intros I Hm. unfold run_work. rewrite Hm. pose proof (i_mm _ _ I _ _ Hm) as (_ & _ & _ & Hd & _).
  destruct (async_put_work mm) as [[]|] eqn:Hw; [by eapply mmput_fn_inv| |by exists st].
  eapply mmdrop_fn_inv; [exact I|exact Hm|by apply Hd|done|done].
Qed.

(** *** The executable *)

(** A live address space gets the executable [x], its reference and denial taken. *)
Lemma exe_inv st g st' m mm x : mm_inv st g -> mms st !! m = Some mm -> live mm = true ->
  mms st' = <[m := with_exe x mm]> (mms st) ->
  (forall k, counter st' k = counter st k + held_exe k x - held_exe k (exe_file mm)) ->
  (forall f, x = Some f -> 0 <= counter st (Denied (inode_of f))) -> mm_inv st' g.
Proof.
  intros I Hm Hl Hs Hk Hx. pose proof (i_mm _ _ I _ _ Hm) as (Hu & Hc & Ha & Hd & He). pose proof (i_pos _ _ I) as Hp.
  assert (Hh : forall k, holds k (with_exe x mm) - holds k mm = held_exe k x - held_exe k (exe_file mm)).
  { intros k. rewrite <- holds_exe. change (held_exe k x) with (held_exe k (exe_file (with_exe x mm))). rewrite <- holds_exe.
    destruct k; try lia; cbn; change (live (with_exe x mm)) with (live mm); lia. }
  eapply inv_set; [exact I|exact Hm|exact Hs|done|exact Hp| | |].
  - unfold mm_wf. change (live (with_exe x mm)) with (live mm). rewrite Hl in *. cbn. done.
  - intros k. rewrite Hk. specialize (Hh k). lia.
  - intros i. specialize (Hh (Denied i)). pose proof (csum_member (holds (Denied i)) _ _ _ (holds_nonneg _) Hm).
    pose proof (holds_nonneg (Denied i) (with_exe x mm)). pose proof (holds_nonneg (Denied i) mm). specialize (Hp i).
    destruct (i_write _ _ I i) as [Hi|Hi]; [by left|].
    destruct (decide (c_writers g i = 0)) as [|Hn]; [by left|right].
    assert (Hz : held_exe (Denied i) x = 0).
    { destruct x as [f|]; [|done]. specialize (Hx f eq_refl). unfold held_exe. rewrite decide_False by done. case_decide; [|done].
      simplify_eq. rewrite (i_count _ _ I) in Hx. cbn [others] in Hx. lia. }
    assert (Hz' : 0 <= held_exe (Denied i) (exe_file mm)).
    { unfold held_exe. destruct (exe_file mm); [|lia]. repeat case_decide; lia. }
    lia.
Qed.

Lemma deny_spec f st : let '(e, st') := deny_write_access f st in
  if c_true e then e = - ETXTBSY /\ st' = st
  else mms st' = mms st /\ 0 <= counter st (Denied (inode_of f)) /\
       forall k, counter st' k = counter st k + if decide (k = Denied (inode_of f)) then 1 else 0.
Proof.
  unfold deny_write_access. destruct (Z.ltb_spec (counter st (Denied (inode_of f))) 0); [done|]. by split_and!.
Qed.

Lemma set_exe_inv st g m new : mm_inv st g -> 0 < c_users g m ->
  exists e st', set_mm_exe_file m new st = Some (e, st') /\ mm_inv st' g /\ (e = 0 \/ e = - EACCES /\ st' = st).
Proof.
  intros I H. pose proof (i_pos _ _ I) as Hp. destruct (held_lookup st g m I) as (mm & Hm & Hw); [specialize (Hp m); lia|].
  destruct (user_live g m mm Hp Hw H) as [Hl _]. destruct new as [f|].
  - unfold set_mm_exe_file. rewrite Hm. cbv zeta. pose proof (deny_spec f st) as Hd. destruct (deny_write_access f st) as [e st1].
    destruct (c_true e); [destruct Hd as [-> ->]; exists (- EACCES), st; split; [done|]; split; [done|by right]|]. destruct Hd as (Hs & Hnn & Hk).
    eexists _, _. split; [done|]. split; [|by left].
    apply (exe_inv st g _ m mm (Some f)); [exact I|exact Hm|exact Hl| | |by intros f' [= <-]].
    + destruct (exe_file mm); cbn; by rewrite Hs.
    + intros k. unfold held_exe. destruct (exe_file mm); unfold fput, allow_write_access, get_file; cbn [counter add set_mm]; rewrite Hk;
        repeat case_decide; lia.
  - destruct (clear_exe st m mm Hm) as (st' & -> & Hs & Hk). eexists _, _. split; [done|]. split; [|by left].
    eapply exe_inv; [exact I|exact Hm|exact Hl|exact Hs| |done]. intros k. rewrite Hk. cbn. lia.
Qed.

(** No slot changes. *)
Lemma inv_env st g st' g' : mm_inv st g -> mms st' = mms st -> c_users g' = c_users g -> c_grabs g' = c_grabs g -> pos g' ->
  (forall k, counter st' k = counter st k + (others g' k - others g k)) ->
  (forall i, c_writers g' i = 0 \/ c_denies g' i + csum (holds (Denied i)) (mms st) = 0) -> mm_inv st' g'.
Proof.
  intros I Hs Hu Hg Hp Hc Hx. constructor; rewrite ?Hs; [exact Hp| | |apply I| |exact Hx].
  - intros m mm Hm. apply (i_mm _ _ I) in Hm. unfold mm_wf. by rewrite Hu, Hg.
  - intros m Hm. rewrite Hu, Hg. by apply I.
  - intros k. rewrite Hc, (i_count _ _ I). lia.
Qed.

Lemma inv_ext st g st' : mm_inv st g -> mms st' = mms st -> (forall k, counter st' k = counter st k) -> mm_inv st' g.
Proof. intros I Hs Hk. eapply inv_env; [exact I|done..|exact (i_pos _ _ I)| |apply I]. intros k. rewrite Hk. lia. Qed.

Lemma files_inv d f st g : mm_inv st g -> 0 <= c_files g f + d -> mm_inv (add d (FileRef f) st) (add_files d f g).
Proof.
  intros I Hd. eapply inv_env; [exact I|done..| | |apply I].
  - intros n. pose proof (i_pos _ _ I n). cbn. unfold shift. case_decide; subst; lia.
  - intros k. cbn [counter add]. destruct k as [f'|i|b|r]; cbn [others]; cbn [add_files c_files c_denies c_writers c_mods];
      unfold shift; repeat case_decide; try congruence; lia.
Qed.

Lemma get_exe_inv st g m : mm_inv st g -> 0 < c_users g m + c_grabs g m ->
  exists x st', get_mm_exe_file m st = Some (x, st') /\
    mm_inv st' (match x with Some f => add_files 1 f g | None => g end).
Proof.
  intros I H. destruct (held_lookup st g m I H) as (mm & Hm & _). unfold get_mm_exe_file. rewrite Hm.
  eexists _, _; split; [done|]. destruct (exe_file mm) as [f|]; [|done]. apply files_inv; [done|]. pose proof (i_pos _ _ I f). lia.
Qed.

Lemma replace_exe_inv st g m new vmas : mm_inv st g -> 0 < c_users g m ->
  exists e st', replace_mm_exe_file m new vmas st = Some (e, st') /\ mm_inv st' g /\
    (e = 0 /\ (exists mm, mms st' !! m = Some mm /\ exe_file mm = Some new) \/ e = - EBUSY \/ e = - EACCES).
Proof.
  intros I H. pose proof (i_pos _ _ I) as Hp. destruct (held_lookup st g m I) as (mm & Hm & Hw); [specialize (Hp m); lia|].
  destruct (user_live g m mm Hp Hw H) as [Hl _]. unfold replace_mm_exe_file, get_mm_exe_file. rewrite Hm.
  set (busy := match exe_file mm with Some f => existsb _ _ | None => false end). clearbody busy. cbv zeta.
  set (st1 := match exe_file mm with Some f => fput f _ | None => _ end).
  assert (Hs1 : mms st1 = mms st) by (subst st1; by destruct (exe_file mm)).
  assert (Hk1 : forall k, counter st1 k = counter st k).
  { intros k. subst st1. destruct (exe_file mm); [|done]. unfold fput, get_file. cbn [counter add]. case_decide; lia. }
  clearbody st1. destruct busy; [exists (- EBUSY), st1; split; [done|]; split; [by eapply inv_ext|auto]|].
  pose proof (deny_spec new st1) as Hd. destruct (deny_write_access new st1) as [e st2].
  destruct (c_true e); [destruct Hd as [-> ->]; exists (- EACCES), st1; split; [done|]; split; [by eapply inv_ext|auto]|].
  destruct Hd as (Hs2 & Hnn & Hk2). cbn [get_file mms add]. rewrite Hs2, Hs1, Hm. eexists _, _. split; [done|]. split.
  - apply (exe_inv st g _ m mm (Some new)); [exact I|exact Hm|exact Hl| | |].
    + destruct (exe_file mm); cbn; by rewrite Hs2, Hs1.
    + intros k. unfold held_exe. destruct (exe_file mm); unfold fput, allow_write_access, get_file; cbn [counter add set_mm];
        rewrite Hk2, Hk1; repeat case_decide; lia.
    + intros f [= <-]. by rewrite <- Hk1.
  - left. split; [done|]. exists (with_exe (Some new) mm). split; [|done].
    destruct (exe_file mm); cbn; by rewrite lookup_insert_eq.
Qed.

(** *** Making one *)

Definition fresh_mm (cur : option mm_struct) (fmt : option nat) : mm_struct :=
  {| mm_users := 1; mm_count := 1; exe_file := None; on_mmlist := false; binfmt := fmt; mm_owner := true;
     mflags := match cur with Some c => mmf_init_flags (mflags c) | None => default_dump_filter end;
     def_flags := match cur with Some c => Z.land (def_flags c) VM_INIT_DEF_MASK | None => 0 end;
     async_put_work := None |}.

Lemma mm_init_spec a cur fmt m st : let '(ok, st') := mm_init a cur fmt m (add 1 (Res MmMem) st) in
  if ok then mms st' = <[m := fresh_mm cur fmt]> (mms st) /\ forall k, counter st' k = counter st k + match k with Res _ => 1 | _ => 0 end
  else mms st' = mms st /\ forall k, counter st' k = counter st k.
Proof.
  unfold mm_init, free_mm, mm_free_pgd, destroy_context, mm_destroy_cid.
  destruct (pgd_ok a), (c_true (context_err a)), (c_true (cid_err a)), (c_true (counters_err a)); cbn [negb];
    (split; [done|intros k; cbn [counter add set_mm]; destruct k as [| | |[]]; repeat case_decide; try congruence; lia]).
Qed.

Lemma fresh_wf g m cur fmt : c_users g m = 1 -> c_grabs g m = 0 -> mm_wf g m (fresh_mm cur fmt).
Proof. intros Hu Hg. unfold mm_wf. cbn. rewrite Hu, Hg. by repeat split. Qed.

(** The new address space before it owes a module. *)
Lemma init_inv st g m cur st' o : mm_inv st g -> mms st !! m = None -> m <> init_mm ->
  mms st' = <[m := with_binfmt None o (fresh_mm cur None)]> (mms st) ->
  (forall k, counter st' k = counter st k + match k with Res _ => 1 | _ => 0 end) -> mm_inv st' (add_users 1 m g).
Proof.
  intros I Hm Hi Hs Hk. destruct (i_none _ _ I m Hm) as [Hu Hg]. pose proof (i_pos _ _ I) as Hp.
  eapply inv_new; [exact I|exact Hm|exact Hi|exact Hs|auto|apply pos_users; [done|lia]| | |].
  - apply (fresh_wf (add_users 1 m g) m cur None); [cbn; rewrite shift_eq; lia|done].
  - intros k. rewrite Hk. replace (holds k _) with (match k with Res _ => 1 | _ => 0 end) by (by destruct k).
    change (others (add_users 1 m g) k) with (others g k). lia.
  - intros i. cbn. destruct (i_write _ _ I i); [by left|right; lia].
Qed.

Lemma mm_alloc_inv mem a cur m st g : mm_inv st g -> mms st !! m = None -> m <> init_mm ->
  let '(ok, st') := mm_alloc mem a cur m st in mm_inv st' (if ok then add_users 1 m g else g).
Proof.
  intros I Hm Hi. unfold mm_alloc. destruct mem; [|done]. cbn [negb].
  pose proof (mm_init_spec a (current_mm cur st) None m st) as Hs. destruct (mm_init _ _ _ _ _) as [[] st'].
  - eapply (init_inv st g m (current_mm cur st) st' true); [done..|apply Hs|apply Hs].
  - destruct Hs. by eapply inv_ext.
Qed.

(** *** A copy *)

(** The copy owes no module until the end: the invariant holds of the store in which its
    binary format is not set. *)
Definition unbound (m : nat) (mm : mm_struct) (st : store) : store := set_mm m (with_binfmt None false mm) st.

Lemma binfmt_owner st g m mm o : mm_inv (unbound m mm st) g -> mm_inv (set_mm m (with_binfmt None o mm) st) g.
Proof.
  intros I. pose proof (i_mm _ _ I m (with_binfmt None false mm)) as Hw. cbn in Hw. rewrite lookup_insert_eq in Hw. specialize (Hw eq_refl).
  replace (set_mm m (with_binfmt None o mm) st) with (set_mm m (with_binfmt None o mm) (unbound m mm st)).
  - eapply inv_counts; [exact I|cbn; by rewrite lookup_insert_eq|done|exact (i_pos _ _ I)|exact Hw|done..].
  - unfold set_mm. cbn. by rewrite insert_insert_eq.
Qed.

Lemma dup_exe_inv st g m old mm omm : mm_inv (unbound m mm st) g -> mms st !! m = Some mm -> mms st !! old = Some omm -> m <> old ->
  live mm = true -> exe_file mm = None -> exists st', dup_mm_exe_file m old st = Some (false, st') /\
    mms st' !! m = Some (with_exe (exe_file omm) mm) /\ mm_inv (unbound m (with_exe (exe_file omm) mm) st') g.
Proof.
  intros I Hm Ho Hn Hl Hx. unfold dup_mm_exe_file, get_mm_exe_file. rewrite Ho.
  replace (mms (match exe_file omm with Some f => get_file f st | None => st end)) with (mms st) by (by destruct (exe_file omm)).
  rewrite Hm.
  assert (Hnn : forall f, exe_file omm = Some f -> 0 <= counter st (Denied (inode_of f))).
  { intros f Hf. change (counter st) with (counter (unbound m mm st)). rewrite (i_count _ _ I). cbn [others].
    pose proof (csum_member (holds (Denied (inode_of f))) (mms (unbound m mm st)) old omm (holds_nonneg _)) as Hc.
    cbn [unbound set_mm mms] in *. rewrite lookup_insert_ne in Hc by done. specialize (Hc Ho). unfold holds at 1 in Hc.
    rewrite Hf, Nat.eqb_refl in Hc. cbn [b2z] in Hc. pose proof (i_pos _ _ I (inode_of f)).
    destruct (i_write _ _ I (inode_of f)) as [Hz|Hz]; cbn [unbound set_mm mms] in *; lia. }
  assert (Hu : forall st', mms st' = <[m := with_exe (exe_file omm) mm]> (mms st) ->
    (forall k, counter st' k = counter st k + held_exe k (exe_file omm)) ->
    mms st' !! m = Some (with_exe (exe_file omm) mm) /\ mm_inv (unbound m (with_exe (exe_file omm) mm) st') g).
  { intros st' Hs Hk. split; [by rewrite Hs, lookup_insert_eq|].
    apply (exe_inv (unbound m mm st) g _ m (with_binfmt None false mm) (exe_file omm));
      [exact I|cbn; by rewrite lookup_insert_eq|exact Hl|cbn; by rewrite Hs, !insert_insert_eq| |].
    - intros k. cbn. rewrite Hk, Hx. cbn. lia.
    - exact Hnn. }
  destruct (exe_file omm) as [f|] eqn:Hf.
  - pose proof (deny_spec f (set_mm m (with_exe (Some f) mm) (get_file f st))) as Hd.
    specialize (Hnn f eq_refl).
    unfold deny_write_access in *. cbn [counter set_mm get_file add] in *.
    assert (Hz : (counter st (Denied (inode_of f)) + (if decide (Denied (inode_of f) = FileRef f) then 1 else 0) <? 0) = false).
    { apply Z.ltb_ge. case_decide; lia. }
    rewrite Hz in *. destruct Hd as (Hs & _ & Hk). eexists. split; [done|]. apply Hu; [exact Hs|].
    intros k. rewrite Hk. unfold held_exe. lia.
  - eexists. split; [done|]. apply Hu; [done|]. intros k. cbn. lia.
Qed.

Lemma free_pt_inv st g m mm : mm_inv (unbound m mm st) g -> mms st !! m = Some mm -> 0 < c_users g m ->
  exists st', free_pt m st = Some (false, st') /\ mm_inv st' (add_users (-1) m g).
Proof.
  intros I Hm H. unfold free_pt. rewrite Hm. destruct (mmput_inv _ g m I H) as (st' & E & I').
  unfold unbound in E. rewrite E. by exists st'.
Qed.

(** The shares after a copy; giving back the only share of a new one changes nothing. *)
Lemma inv_shares st g g' : mm_inv st g -> (forall n, c_users g' n = c_users g n) -> c_grabs g' = c_grabs g -> c_files g' = c_files g ->
  c_writers g' = c_writers g -> c_denies g' = c_denies g -> c_mods g' = c_mods g -> mm_inv st g'.
Proof.
  intros I Hu Hg Hf Hw Hd Hm. constructor.
  - intros n. rewrite Hu, Hg, Hf, Hw, Hd. apply I.
  - intros m mm H. apply (i_mm _ _ I) in H. unfold mm_wf. by rewrite Hu, Hg.
  - intros m H. rewrite Hu, Hg. by apply I.
  - apply I.
  - intros k. rewrite (i_count _ _ I). unfold others. by rewrite Hf, Hw, Hd, Hm.
  - intros i. rewrite Hw, Hd. apply I.
Qed.

Lemma holds_binfmt k mm b o : live mm = true -> binfmt mm = Some b ->
  holds k mm - holds k (with_binfmt None o mm) = if decide (k = ModRef b) then 1 else 0.
Proof.
  intros Hl Hb. destruct k as [f|i|b'|r]; try (rewrite decide_False by done; cbn; lia).
  unfold holds. change (live (with_binfmt None o mm)) with (live mm). rewrite Hl, Hb.
  change (bool_decide (binfmt (with_binfmt None o mm) = Some b')) with false. cbn [andb b2z].
  case_decide; simplify_eq; [by rewrite bool_decide_eq_true_2|by rewrite bool_decide_eq_false_2 by congruence].
Qed.

Lemma dup_mm_inv a cur m old st g : mm_inv st g -> mms st !! m = None -> m <> init_mm -> 0 < c_users g old ->
  exists ok st', dup_mm a cur m old st = Some (ok, st') /\ mm_inv st' (if ok then add_users 1 m g else g).
Proof.
  intros I Hm Hi H. pose proof (i_pos _ _ I) as Hp. destruct (held_lookup st g old I) as (omm & Ho & _); [specialize (Hp old); lia|].
  assert (Hn : m <> old) by congruence. unfold dup_mm. rewrite Ho. destruct (dup_mem a); cbn [negb]; [|by eexists _, _].
  cbv zeta. pose proof (mm_init_spec (dup_init a) (current_mm cur (add 1 (Res MmMem) st)) (binfmt omm) m st) as Hs.
  set (mm := fresh_mm _ _) in Hs. destruct (mm_init _ _ _ _ _) as [[] st1]; destruct Hs as [Hs Hk]; cbn [negb].
  2: { eexists _, _; split; [done|]. by eapply inv_ext. }
  assert (I1 : mm_inv (unbound m mm st1) (add_users 1 m g)).
  { eapply (init_inv st g m (current_mm cur (add 1 (Res MmMem) st)) _ false); [done..|cbn; by rewrite Hs, insert_insert_eq|exact Hk]. }
  assert (Hu : 0 < c_users (add_users 1 m g) m) by (cbn; rewrite shift_eq; specialize (Hp m); lia).
  assert (Hfail : forall st2 mm2, mms st2 !! m = Some mm2 -> mm_inv (unbound m mm2 st2) (add_users 1 m g) ->
    exists ok st', free_pt m st2 = Some (ok, st') /\ mm_inv st' (if ok then add_users 1 m g else g)).
  { intros st2 mm2 Hm2 I2. destruct (free_pt_inv st2 _ m mm2 I2 Hm2 Hu) as (st' & E & I'). exists false, st'. split; [done|].
    eapply inv_shares; [exact I'| |done..]. intros n. cbn. unfold shift. case_decide; lia. }
  unfold dup_mmap_exe. destruct (lock_killed a); [cbn; apply (Hfail _ mm); [by rewrite Hs, lookup_insert_eq|done]|].
  assert (Hm1 : mms st1 !! m = Some mm) by (by rewrite Hs, lookup_insert_eq).
  destruct (dup_exe_inv st1 _ m old mm omm I1 Hm1) as (st2 & E2 & Hm2 & I2);
    [by rewrite Hs, lookup_insert_ne|done|done|done|]. rewrite E2.
  destruct (c_true (vmas_err a)); [by eapply Hfail|].
  destruct (binfmt omm) as [b|] eqn:Hb; [destruct (module_ok a); [|by eapply Hfail]|]; eexists _, _; (split; [done|]).
  - set (mm2 := with_exe (exe_file omm) mm) in *.
    pose proof (i_mm _ _ I2 m (with_binfmt None false mm2)) as Hw. cbn in Hw. rewrite lookup_insert_eq in Hw. specialize (Hw eq_refl).
    apply (inv_set _ (add_users 1 m g) _ _ m (with_binfmt None false mm2) mm2 I2);
      [cbn; by rewrite lookup_insert_eq|cbn; by rewrite insert_insert_eq, (insert_id (mms st2) m mm2)|done|exact (i_pos _ _ I2)|exact Hw| |].
    + intros k. cbn [counter add unbound set_mm].
      pose proof (holds_binfmt k mm2 b false eq_refl eq_refl).
      case_decide; lia.
    + intros i. pose proof (i_write _ _ I2 i) as Hx. change (holds (Denied i) (with_binfmt None false mm2)) with (holds (Denied i) mm2).
      destruct Hx; [by left|right; lia].
  - set (mm2 := with_exe (exe_file omm) mm) in *. apply (binfmt_owner _ _ _ _ true) in I2.
    eapply inv_ext; [exact I2| |done]. cbn. rewrite (insert_id (mms st2) m); [done|]. rewrite Hm2. f_equal.
Qed.

(** *** Borrowing *)

Lemma get_task_mm_inv t st g : mm_inv st g -> (forall m, task_mm t = Some m -> 0 < c_users g m) ->
  exists x st', get_task_mm t st = Some (x, st') /\ mm_inv st' (match x with Some m => add_users 1 m g | None => g end) /\
    (forall m, x = Some m -> task_mm t = Some m).
Proof.
  intros I H. unfold get_task_mm. destruct (task_mm t) as [m|]; [|by eexists _, _].
  destruct (task_kthread t); [by eexists _, _|]. destruct (mmget_inv st g m I (H m eq_refl)) as (st' & -> & I'). by eexists _, _.
Qed.

Lemma get_task_exe_inv t st g : mm_inv st g -> (forall m, task_mm t = Some m -> 0 < c_users g m) ->
  exists x st', get_task_exe_file t st = Some (x, st') /\ mm_inv st' (match x with Some f => add_files 1 f g | None => g end).
Proof.
  intros I H. unfold get_task_exe_file. destruct (task_mm t) as [m|]; [|by eexists _, _].
  destruct (task_kthread t); cbn [negb]; [by eexists _, _|]. apply get_exe_inv; [done|].
  specialize (H m eq_refl). pose proof (i_pos _ _ I m). lia.
Qed.

Lemma mm_access_inv e acc cur t st g : mm_inv st g -> (forall m, task_mm t = Some m -> 0 < c_users g m) ->
  exists r st', mm_access e acc cur t st = Some (r, st') /\
    mm_inv st' (match r with inr (Some m) => add_users 1 m g | _ => g end) /\
    (forall m, r = inr (Some m) -> task_mm t = Some m /\ (cur = Some m \/ acc = true)).
Proof.
  intros I H. unfold mm_access. destruct (c_true e); [by eexists _, _|].
  destruct (get_task_mm_inv t st g I H) as (x & st1 & -> & I1 & Hx). destruct x as [m|]; [|by eexists _, _].
  specialize (Hx m eq_refl). destruct (bool_decide (cur = Some m)) eqn:Hc; cbn [negb andb].
  - apply bool_decide_eq_true in Hc. eexists _, _; split; [done|]. split; [done|]. intros n [= <-]. auto.
  - destruct acc; cbn [negb].
    + eexists _, _; split; [done|]. split; [done|]. intros n [= <-]. auto.
    + destruct (mmput_inv st1 (add_users 1 m g) m I1) as (st2 & -> & I2).
      { cbn. rewrite shift_eq. specialize (H m Hx). lia. }
      eexists _, _; split; [done|]. split; [|done]. eapply inv_shares; [exact I2| |done..].
      intros n. cbn [add_users c_users]. unfold shift. repeat case_decide; lia.
Qed.

Lemma add_mmlist_inv st g m : mm_inv st g -> 0 < c_users g m -> exists st', add_mmlist m st = Some st' /\ mm_inv st' g.
Proof.
  intros I H. pose proof (i_pos _ _ I) as Hp. destruct (held_lookup st g m I) as (mm & Hm & Hw); [specialize (Hp m); lia|].
  destruct (user_live g m mm Hp Hw H) as [Hl _]. unfold add_mmlist. rewrite Hm. eexists; split; [done|].
  eapply inv_counts; [exact I|exact Hm|done|exact Hp| |done..]. destruct Hw as (Hu & Hc & Ha & Hd & _).
  unfold mm_wf. change (live (with_mmlist true mm)) with (live mm). rewrite Hl in *. by split_and!.
Qed.

Lemma set_binfmt_inv st g m b : mm_inv st g -> 0 < c_users g m -> exists st', set_binfmt m b st = Some st' /\ mm_inv st' g.
Proof.
  intros I H. pose proof (i_pos _ _ I) as Hp. destruct (held_lookup st g m I) as (mm & Hm & Hw); [specialize (Hp m); lia|].
  destruct (user_live g m mm Hp Hw H) as [Hl _]. unfold set_binfmt. rewrite Hm. eexists; split; [done|].
  set (mm' := with_binfmt (Some b) (mm_owner mm) mm).
  assert (Hh : forall k, holds k mm' - holds k mm = (if decide (k = ModRef b) then 1 else 0) -
    match binfmt mm with Some o => if decide (k = ModRef o) then 1 else 0 | None => 0 end).
  { intros k. pose proof (holds_binfmt k mm' b (mm_owner mm) Hl eq_refl) as H1.
    change (with_binfmt None (mm_owner mm) mm') with (with_binfmt None (mm_owner mm) mm) in H1.
    destruct (binfmt mm) as [o|] eqn:Ho; [pose proof (holds_binfmt k mm o (mm_owner mm) Hl Ho); lia|].
    replace (holds k (with_binfmt None (mm_owner mm) mm)) with (holds k mm) in H1 by (destruct mm; cbn in *; by subst). lia. }
  eapply (inv_set st g _ g m mm mm'); [exact I|exact Hm|by destruct (binfmt mm)|done|exact Hp|exact Hw| |].
  - intros k. specialize (Hh k). destruct (binfmt mm); cbn [counter add set_mm]; repeat case_decide; lia.
  - intros i. specialize (Hh (Denied i)). destruct (i_write _ _ I i) as [|Hz]; [by left|right].
    change (holds (Denied i) mm') with (holds (Denied i) mm). lia.
Qed.

(** ** Every history *)

Inductive mm_op :=
  | MmAlloc (mem : bool) (a : init_answers) (cur : option nat) (m : nat) | DupMm (a : dup_answers) (cur : option nat) (m old : nat)
  | Mmget (m : nat) | Mmput (m : nat) | MmputAsync (m : nat) | Mmgrab (m : nat) | Mmdrop (m : nat) | MmdropAsync (m : nat)
  | RunWork (m : nat)
  | SetExe (m : nat) (new : option nat) | ReplaceExe (m new : nat) (vmas : list (option nat))
  | GetTaskExe (t : mm_task) | GetTaskMm (t : mm_task) | MmAccess (e : Z) (acc : bool) (cur : option nat) (t : mm_task)
  | OpenFile (f : nat) | Fput (f : nat) | OpenForWrite (i : nat) | CloseWriter (i : nat)
  | SetBinfmt (m b : nat) | AddMmlist (m : nat).

(** Everybody gives back only what they hold, uses only what they hold, and the worker
    runs what is pending; a task that is looked at has its own share. *)
Definition allowed (op : mm_op) (st : store) (g : clients) : Prop :=
  match op with
  | MmAlloc _ _ _ m => mms st !! m = None /\ m <> init_mm
  | DupMm _ _ m old => mms st !! m = None /\ m <> init_mm /\ 0 < c_users g old
  | Mmget m | Mmput m | MmputAsync m | SetExe m _ | ReplaceExe m _ _ | SetBinfmt m _ | AddMmlist m => 0 < c_users g m
  | Mmgrab m => 0 < c_users g m + c_grabs g m
  | Mmdrop m | MmdropAsync m => 0 < c_grabs g m
  | RunWork m => exists mm, mms st !! m = Some mm /\ async_put_work mm <> None
  | GetTaskExe t | GetTaskMm t | MmAccess _ _ _ t => forall m, task_mm t = Some m -> 0 < c_users g m
  | OpenFile _ | OpenForWrite _ => True
  | Fput f => 0 < c_files g f
  | CloseWriter i => 0 < c_writers g i
  end.

(** One operation, with the shares its caller has afterwards. *)
Definition run_op (op : mm_op) (st : store) (g : clients) : option (store * clients) :=
  let keep (r : option store) (g' : clients) := match r with Some st' => Some (st', g') | None => None end in
  match op with
  | MmAlloc mem a cur m => let '(ok, st') := mm_alloc mem a cur m st in Some (st', if ok then add_users 1 m g else g)
  | DupMm a cur m old => match dup_mm a cur m old st with Some (ok, st') => Some (st', if ok then add_users 1 m g else g) | None => None end
  | Mmget m => keep (mmget m st) (add_users 1 m g)
  | Mmput m => keep (mmput m st) (add_users (-1) m g)
  | MmputAsync m => keep (mmput_async m st) (add_users (-1) m g)
  | Mmgrab m => keep (mmgrab m st) (add_grabs 1 m g)
  | Mmdrop m => keep (mmdrop m st) (add_grabs (-1) m g)
  | MmdropAsync m => keep (mmdrop_async m st) (add_grabs (-1) m g)
  | RunWork m => keep (run_work m st) g
  | SetExe m new => match set_mm_exe_file m new st with Some (_, st') => Some (st', g) | None => None end
  | ReplaceExe m new vmas => match replace_mm_exe_file m new vmas st with Some (_, st') => Some (st', g) | None => None end
  | GetTaskExe t =>
      match get_task_exe_file t st with
      | Some (x, st') => Some (st', match x with Some f => add_files 1 f g | None => g end)
      | None => None
      end
  | GetTaskMm t =>
      match get_task_mm t st with
      | Some (x, st') => Some (st', match x with Some m => add_users 1 m g | None => g end)
      | None => None
      end
  | MmAccess e acc cur t =>
      match mm_access e acc cur t st with
      | Some (r, st') => Some (st', match r with inr (Some m) => add_users 1 m g | _ => g end)
      | None => None
      end
  | OpenFile f => Some (get_file f st, add_files 1 f g)
  | Fput f => Some (fput f st, add_files (-1) f g)
  | OpenForWrite i => let '(e, st') := get_write_access i st in Some (st', if c_true e then g else add_writers 1 i g)
  | CloseWriter i => Some (add 1 (Denied i) st, add_writers (-1) i g)
  | SetBinfmt m b => keep (set_binfmt m b st) g
  | AddMmlist m => keep (add_mmlist m st) g
  end.

Lemma writers_inv d i st g : mm_inv st g -> 0 <= c_writers g i + d ->
  (0 < d -> c_denies g i + csum (holds (Denied i)) (mms st) = 0) -> mm_inv (add (- d) (Denied i) st) (add_writers d i g).
Proof.
  intros I Hd Hz. pose proof (i_pos _ _ I) as Hp. eapply inv_env; [exact I|done..| | |].
  - intros n. specialize (Hp n). cbn. unfold shift. case_decide; subst; lia.
  - intros k. cbn [counter add]. destruct k as [f|j|b|r]; cbn [others]; cbn [add_writers c_files c_denies c_writers c_mods];
      unfold shift; repeat case_decide; try congruence; lia.
  - intros j. cbn. unfold shift. pose proof (i_write _ _ I j) as Hj. specialize (Hp i). case_decide; subst; [|by rewrite Z.add_0_r].
    destruct Hj as [Hj|Hj]; [|by right]. destruct (decide (0 < d)); [right; auto|left; lia].
Qed.

Lemma run_op_inv op st g : mm_inv st g -> allowed op st g -> exists st' g', run_op op st g = Some (st', g') /\ mm_inv st' g'.
Proof.
  intros I H. destruct op; cbn [allowed run_op] in *.
  - destruct H as [Hm Hi]. pose proof (mm_alloc_inv mem a cur m st g I Hm Hi). destruct (mm_alloc _ _ _ _ _). by eexists _, _.
  - destruct H as (Hm & Hi & Ho). destruct (dup_mm_inv a cur m old st g I Hm Hi Ho) as (? & ? & -> & ?). by eexists _, _.
  - destruct (mmget_inv st g m I H) as (? & -> & ?). by eexists _, _.
  - destruct (mmput_inv st g m I H) as (? & -> & ?). by eexists _, _.
  - destruct (mmput_async_inv st g m I H) as (? & -> & ?). by eexists _, _.
  - destruct (mmgrab_inv st g m I H) as (? & -> & ?). by eexists _, _.
  - destruct (mmdrop_inv st g m I H) as (? & -> & ?). by eexists _, _.
  - destruct (mmdrop_async_inv st g m I H) as (? & -> & ?). by eexists _, _.
  - destruct H as (mm & Hm & _). destruct (run_work_inv st g m mm I Hm) as (? & -> & ?). by eexists _, _.
  - destruct (set_exe_inv st g m new I H) as (? & ? & -> & ? & _). by eexists _, _.
  - destruct (replace_exe_inv st g m new vmas I H) as (? & ? & -> & ? & _). by eexists _, _.
  - destruct (get_task_exe_inv t st g I H) as (? & ? & -> & ?). by eexists _, _.
  - destruct (get_task_mm_inv t st g I H) as (? & ? & -> & ? & _). by eexists _, _.
  - destruct (mm_access_inv e acc cur t st g I H) as (? & ? & -> & ? & _). by eexists _, _.
  - eexists _, _; split; [done|]. apply files_inv; [done|]. pose proof (i_pos _ _ I f). lia.
  - eexists _, _; split; [done|]. apply files_inv; [done|]. lia.
  - unfold get_write_access. destruct (Z.ltb_spec 0 (counter st (Denied i))) as [Hc|Hc]; eexists _, _; (split; [done|]); [done|].
    apply (writers_inv 1); [done|pose proof (i_pos _ _ I i); lia|]. intros _.
    rewrite (i_count _ _ I) in Hc. cbn [others] in Hc. pose proof (csum_holds_nonneg (Denied i) (mms st)). pose proof (i_pos _ _ I i).
    destruct (i_write _ _ I i); lia.
  - eexists _, _; split; [done|]. apply (writers_inv (-1)); [done|lia|lia].
  - destruct (set_binfmt_inv st g m b I H) as (? & -> & ?). by eexists _, _.
  - destruct (add_mmlist_inv st g m I H) as (? & -> & ?). by eexists _, _.
Qed.

(** The beginning: no address space, nobody holds anything. *)
Definition mm_start : store := {| mms := ∅; counter _ := 0 |}.
Definition nobody : clients :=
  {| c_users _ := 0; c_grabs _ := 0; c_files _ := 0; c_writers _ := 0; c_denies _ := 0; c_mods _ := 0 |}.

Inductive mm_reachable : store -> clients -> Prop :=
  | reach_start : mm_reachable mm_start nobody
  | reach_op op st g st' g' : mm_reachable st g -> allowed op st g -> run_op op st g = Some (st', g') -> mm_reachable st' g'.

Lemma reachable_inv st g : mm_reachable st g -> mm_inv st g.
Proof.
  induction 1 as [|op st g st' g' _ I Ha Hr].
  - constructor; cbn; try done; [|by left]. intros k. by destruct k.
  - destruct (run_op_inv op st g I Ha) as (st1 & g1 & E & I1). rewrite E in Hr. by injection Hr as <- <-.
Qed.

(** C7: along every history of making, copying, borrowing and giving back address spaces
    and their executables, in which everybody gives back only what they hold: no
    operation touches a freed structure, hits a BUG check or arms the pending work item
    again; a structure whose work is not pending exists exactly while somebody holds it;
    no executable of an address space can be opened for writing; and when nobody holds
    anything and no work is pending, no structure, page directory, context or counter
    is left and every file reference is a client's. *)
Theorem mm_lifetimes st g : mm_reachable st g ->
  (forall op, allowed op st g -> exists r, run_op op st g = Some r) /\
  (forall m, 0 < c_users g m + c_grabs g m -> is_Some (mms st !! m)) /\
  (forall m mm, mms st !! m = Some mm -> async_put_work mm = None -> 0 < c_users g m + c_grabs g m) /\
  (forall m mm f, mms st !! m = Some mm -> exe_file mm = Some f -> get_write_access (inode_of f) st = (- ETXTBSY, st)) /\
  ((forall m, c_users g m = 0 /\ c_grabs g m = 0) -> (forall m mm, mms st !! m = Some mm -> async_put_work mm = None) ->
   mms st = ∅ /\ (forall r, counter st (Res r) = 0) /\ (forall f, counter st (FileRef f) = c_files g f) /\
   forall b, counter st (ModRef b) = c_mods g b).
Proof.
  intros H. apply reachable_inv in H as I. clear H. pose proof (i_pos _ _ I) as Hp.
  assert (Hheld : forall m mm, mms st !! m = Some mm -> async_put_work mm = None -> 0 < c_users g m + c_grabs g m).
  { intros m mm Hm Hw. destruct (i_mm _ _ I _ _ Hm) as (Hu & Hc & _ & Hd & _). specialize (Hp m).
    assert (mm_count mm <> 0) by (intros E; apply Hd in E; congruence).
    unfold live in Hc. rewrite Hw, Hu in Hc. cbn in Hc. rewrite orb_false_r in Hc. destruct (Z.ltb_spec 0 (c_users g m)); cbn in Hc; lia. }
  split_and!.
  - intros op Ha. destruct (run_op_inv op st g I Ha) as (st' & g' & E & _). by eexists.
  - intros m H. destruct (held_lookup st g m I H) as (mm & -> & _). done.
  - exact Hheld.
  - intros m mm f Hm Hf. unfold get_write_access.
    assert (Hc : 0 < counter st (Denied (inode_of f))); [|by apply Z.ltb_lt in Hc as ->].
    rewrite (i_count _ _ I). cbn [others]. pose proof (csum_member (holds (Denied (inode_of f))) _ _ _ (holds_nonneg _) Hm) as Hs.
    unfold holds at 1 in Hs. rewrite Hf, Nat.eqb_refl in Hs. cbn [b2z] in Hs. specialize (Hp (inode_of f)).
    destruct (i_write _ _ I (inode_of f)); lia.
  - intros Hn Hw. assert (He : mms st = ∅).
    { apply map_empty. intros m. destruct (mms st !! m) as [mm|] eqn:Hm; [|done]. specialize (Hheld m mm Hm (Hw m mm Hm)).
      specialize (Hn m). lia. }
    split; [done|]. split_and!; intros; rewrite (i_count _ _ I), He; cbn; unfold csum; rewrite map_fold_empty; lia.
Qed.
End invariant.

(** ** An example *)

Definition demo_world : MmWorld :=
  {| inode_of f := f; path_of f := f; mmf_init_flags f := f; default_dump_filter := 204 |}.
Definition demo_init : init_answers := {| pgd_ok := true; context_err := 0; cid_err := 0; counters_err := 0 |}.
Definition demo_dup : dup_answers := {| dup_mem := true; dup_init := demo_init; lock_killed := false; vmas_err := 0; module_ok := true |}.

Definition allowedb (op : mm_op) (st : store) (g : clients) : bool :=
  let task (t : mm_task) := match task_mm t with Some m => 0 <? c_users g m | None => true end in
  let free (m : nat) := match mms st !! m with None => negb (m =? init_mm)%nat | Some _ => false end in
  match op with
  | MmAlloc _ _ _ m => free m
  | DupMm _ _ m old => free m && (0 <? c_users g old)
  | Mmget m | Mmput m | MmputAsync m | SetExe m _ | ReplaceExe m _ _ | SetBinfmt m _ | AddMmlist m => 0 <? c_users g m
  | Mmgrab m => 0 <? c_users g m + c_grabs g m
  | Mmdrop m | MmdropAsync m => 0 <? c_grabs g m
  | RunWork m => match mms st !! m with Some mm => bool_decide (async_put_work mm <> None) | None => false end
  | GetTaskExe t | GetTaskMm t | MmAccess _ _ _ t => task t
  | OpenFile _ | OpenForWrite _ => true
  | Fput f => 0 <? c_files g f
  | CloseWriter i => 0 <? c_writers g i
  end.

Lemma allowedb_allowed op st g : allowedb op st g = true -> allowed op st g.
Proof.
  assert (Hfree : forall m, match mms st !! m with None => negb (m =? init_mm)%nat | Some _ => false end = true ->
    mms st !! m = None /\ m <> init_mm).
  { intros m. destruct (mms st !! m); [done|]. intros H. apply negb_true_iff, Nat.eqb_neq in H. done. }
  destruct op; cbn; rewrite ?andb_true_iff, ?Z.ltb_lt; try done; try (intros [H ?]; apply Hfree in H as []; auto); try (by apply Hfree).
  1: destruct (mms st !! m) as [mm|]; [|done]; intros H%bool_decide_eq_true; by exists mm.
  all: destruct (task_mm t); [|done]; intros H%Z.ltb_lt m [= <-]; done.
Qed.

Fixpoint run_ops {W : MmWorld} (ops : list mm_op) (st : store) (g : clients) : option (store * clients) :=
  match ops with
  | [] => Some (st, g)
  | op :: ops => if allowedb op st g then match run_op op st g with Some (st', g') => run_ops ops st' g' | None => None end else None
  end.

Lemma run_ops_reachable {W : MmWorld} ops st g st' g' : mm_reachable st g -> run_ops ops st g = Some (st', g') -> mm_reachable st' g'.
Proof.
  revert st g. induction ops as [|op ops IH]; intros st g H; cbn; [by intros [= <- <-]|].
  destruct (allowedb op st g) eqn:Ha; [|done]. destruct (run_op op st g) as [[st1 g1]|] eqn:Hr; [|done].
  apply IH. eapply reach_op; [exact H|by apply allowedb_allowed|exact Hr].
Qed.

(** A process whose program is file 5 forks and leaves its address space to the child. *)
Definition demo_ops : list mm_op :=
  [MmAlloc true demo_init None 1; OpenFile 5; SetExe 1 (Some 5%nat); SetBinfmt 1 9; DupMm demo_dup (Some 1%nat) 2 1; MmputAsync 1].

Lemma mm_lifetimes_witness :
  exists st g, run_ops (W := demo_world) demo_ops mm_start nobody = Some (st, g) /\ get_write_access 5 st = (- ETXTBSY, st).
Proof.
  assert (Hd : match run_ops (W := demo_world) demo_ops mm_start nobody with
               | Some (st, _) => match mms st !! 2%nat with Some mm => exe_file mm = Some 5%nat | None => False end
               | None => False
               end) by (vm_compute; reflexivity).
  destruct (run_ops (W := demo_world) demo_ops mm_start nobody) as [[st g]|] eqn:Hr; [|destruct Hd].
  exists st, g. split; [done|]. destruct (mms st !! 2%nat) as [mm|] eqn:Hm; [|destruct Hd].
  exact (proj1 (proj2 (proj2 (proj2 (mm_lifetimes (W := demo_world) st g (run_ops_reachable _ _ _ _ _ reach_start Hr))))) 2%nat mm 5%nat Hm Hd).
Defined.
