(* ===== verification/TaskLife.v ===== *)
(** * The life of a task (kernel/fork.c: copy_signal, copy_sighand, __put_task_struct)

    A task_struct points to two shared structures: the signal_struct of its thread group,
    counted by the task_structs of the group ([sigcnt]), and the sighand_struct with the
    signal handlers, counted by the tasks that have not been reaped.  This file models the
    three structures while copy_process builds a task in the steps it takes, while a fork
    fails half way, and while the rest of the kernel lets tasks exit, reaps them and gives
    references back.  The signal_struct may hold a reference on the address space of an OOM
    victim, which free_signal_struct gives back through mmdrop_async: the address spaces
    are those of MmLife.  A function here answers [None] where the code would touch a freed
    structure, queue an rcu_head twice, or run into one of its WARN checks. *)
From S2P Require Import Prelude Unshare Rlimit MmLife.

(** ** The store *)

(** How far copy_process has come with a task: [current] copied itself with these flags;
    then the handlers, then the group are there; then the task is visible to all; or the
    fork failed and the memory waits for a grace period. *)
Inductive stage := Copied | HasSighand | HasSignal.
Inductive progress := Building (current : nat) (clone_flags : Z) (s : stage) | Attached | Failed.

(** What waits for a grace period in the rcu_head of a task. *)
Inductive rcu_fn := DelayedFreeTask | DelayedPutTask | PutTaskCb.

#[export] Instance stage_eq_dec : EqDecision stage.
Proof. solve_decision. Defined.
#[export] Instance progress_eq_dec : EqDecision progress.
Proof. solve_decision. Defined.
#[export] Instance rcu_fn_eq_dec : EqDecision rcu_fn.
Proof. solve_decision. Defined.

Record task_struct := {
  t_signal : option nat; t_sighand : option nat;
  usage : Z;                            (** references on the task_struct *)
  rcu_users : Z;                        (** the scheduler, and whoever reaps; all hold one usage *)
  stack_refcount : Z;                   (** the stack: held while the task may run *)
  exit_state : bool;                    (** not zero *)
  t_rcu : option rcu_fn;
  t_progress : progress
}.

Record signal_struct := {
  sigcnt : Z; sig_live : Z; nr_threads : Z; quick_threads : Z;
  thread_head : list nat;               (** the threads, in the order of the list *)
  curr_target : nat;
  sig_rlim : list rlimit;
  cpu_timer_limit : Z;                  (** given to posix_cputimers_group_init *)
  oom_score_adj : Z; oom_score_adj_min : Z;
  oom_mm : option nat
}.

Record sighand_struct := { hand_count : Z; hand_action : list Z }.

Record world := {
  tasks : gmap nat task_struct;
  signals : gmap nat signal_struct;
  sighands : gmap nat sighand_struct;
  mem : store
}.

Definition with_tasks (M : gmap nat task_struct) (w : world) : world :=
  {| tasks := M; signals := signals w; sighands := sighands w; mem := mem w |}.
Definition with_signals (M : gmap nat signal_struct) (w : world) : world :=
  {| tasks := tasks w; signals := M; sighands := sighands w; mem := mem w |}.
Definition with_sighands (M : gmap nat sighand_struct) (w : world) : world :=
  {| tasks := tasks w; signals := signals w; sighands := M; mem := mem w |}.
Definition with_mem (m : store) (w : world) : world :=
  {| tasks := tasks w; signals := signals w; sighands := sighands w; mem := m |}.

Definition set_task (t : nat) (o : option task_struct) (w : world) : world := with_tasks (put_slot t o (tasks w)) w.
Definition set_signal (s : nat) (o : option signal_struct) (w : world) : world := with_signals (put_slot s o (signals w)) w.
Definition set_sighand (h : nat) (o : option sighand_struct) (w : world) : world := with_sighands (put_slot h o (sighands w)) w.

Definition to_signal (s : option nat) (t : task_struct) : task_struct :=
  {| t_signal := s; t_sighand := t_sighand t; usage := usage t; rcu_users := rcu_users t; stack_refcount := stack_refcount t;
     exit_state := exit_state t; t_rcu := t_rcu t; t_progress := t_progress t |}.
Definition to_sighand (h : option nat) (t : task_struct) : task_struct :=
  {| t_signal := t_signal t; t_sighand := h; usage := usage t; rcu_users := rcu_users t; stack_refcount := stack_refcount t;
     exit_state := exit_state t; t_rcu := t_rcu t; t_progress := t_progress t |}.
Definition to_counts (u r k : Z) (t : task_struct) : task_struct :=
  {| t_signal := t_signal t; t_sighand := t_sighand t; usage := u; rcu_users := r; stack_refcount := k;
     exit_state := exit_state t; t_rcu := t_rcu t; t_progress := t_progress t |}.
Definition to_exit (t : task_struct) : task_struct :=
  {| t_signal := t_signal t; t_sighand := t_sighand t; usage := usage t; rcu_users := rcu_users t; stack_refcount := stack_refcount t;
     exit_state := true; t_rcu := t_rcu t; t_progress := t_progress t |}.
Definition to_rcu (f : option rcu_fn) (t : task_struct) : task_struct :=
  {| t_signal := t_signal t; t_sighand := t_sighand t; usage := usage t; rcu_users := rcu_users t; stack_refcount := stack_refcount t;
     exit_state := exit_state t; t_rcu := f; t_progress := t_progress t |}.
Definition to_progress (p : progress) (t : task_struct) : task_struct :=
  {| t_signal := t_signal t; t_sighand := t_sighand t; usage := usage t; rcu_users := rcu_users t; stack_refcount := stack_refcount t;
     exit_state := exit_state t; t_rcu := t_rcu t; t_progress := p |}.

(** The counts and the threads of a group. *)
Definition sig_counts (cnt live nr quick : Z) (l : list nat) (s : signal_struct) : signal_struct :=
  {| sigcnt := cnt; sig_live := live; nr_threads := nr; quick_threads := quick; thread_head := l; curr_target := curr_target s;
     sig_rlim := sig_rlim s; cpu_timer_limit := cpu_timer_limit s; oom_score_adj := oom_score_adj s;
     oom_score_adj_min := oom_score_adj_min s; oom_mm := oom_mm s |}.
Definition sig_oom (m : option nat) (s : signal_struct) : signal_struct :=
  {| sigcnt := sigcnt s; sig_live := sig_live s; nr_threads := nr_threads s; quick_threads := quick_threads s;
     thread_head := thread_head s; curr_target := curr_target s;
     sig_rlim := sig_rlim s; cpu_timer_limit := cpu_timer_limit s; oom_score_adj := oom_score_adj s;
     oom_score_adj_min := oom_score_adj_min s; oom_mm := m |}.

(** Kernel configuration, and kernel/signal.c. *)
Class TaskEnv := {
  config_memcg : bool;
  flush_signal_handlers : list Z -> list Z
}.

Section ops.
Context {E : TaskEnv}.

(** ** Giving structures back *)

Definition free_signal_struct (s : nat) (w : world) : option world :=
  sig ← signals w !! s;
  m ← match oom_mm sig with Some m => mmdrop_async m (mem w) | None => Some (mem w) end;
  Some (set_signal s None (with_mem m w)).

Definition put_signal_struct (s : nat) (w : world) : option world :=
  sig ← signals w !! s;
  let n := sigcnt sig - 1 in
  let w := set_signal s (Some (sig_counts n (sig_live sig) (nr_threads sig) (quick_threads sig) (thread_head sig) sig)) w in
  if n =? 0 then free_signal_struct s w else Some w.

Definition __cleanup_sighand (h : nat) (w : world) : option world :=
  hand ← sighands w !! h;
  let n := hand_count hand - 1 in
  Some (set_sighand h (if n =? 0 then None else Some {| hand_count := n; hand_action := hand_action hand |}) w).

Definition put_task_stack (t : nat) (w : world) : option world :=
  tk ← tasks w !! t;
  Some (set_task t (Some (to_counts (usage tk) (rcu_users tk) (stack_refcount tk - 1) tk)) w).

Definition free_task (t : nat) (w : world) : option world :=
  tk ← tasks w !! t;
  if c_true (stack_refcount tk) then None else Some (set_task t None w).

Definition call_rcu (t : nat) (f : rcu_fn) (w : world) : option world :=
  tk ← tasks w !! t;
  match t_rcu tk with Some _ => None | None => Some (set_task t (Some (to_rcu (Some f) tk)) w) end.

Definition __delayed_free_task (t : nat) (w : world) : option world := free_task t w.

Definition delayed_free_task (t : nat) (w : world) : option world :=
  if config_memcg then call_rcu t DelayedFreeTask w else free_task t w.

(** [cur] is the task that runs the code. *)
Definition __put_task_struct (cur t : nat) (w : world) : option world :=
  tk ← tasks w !! t;
  if negb (exit_state tk) || c_true (usage tk) || (t =? cur)%nat then None
  else
    s ← t_signal tk;
    w ← put_signal_struct s w;
    free_task t w.

Definition __put_task_struct_rcu_cb (cur t : nat) (w : world) : option world := __put_task_struct cur t w.

(** ** Building a task *)

(** The counters of dup_task_struct; everything else is a copy. *)
Definition dup_task_struct (cur p : nat) (clone_flags : Z) (w : world) : option world :=
  c ← tasks w !! cur;
  Some (set_task p (Some {| t_signal := t_signal c; t_sighand := t_sighand c; usage := 1; rcu_users := 2; stack_refcount := 1;
                            exit_state := exit_state c; t_rcu := None; t_progress := Building cur clone_flags Copied |}) w).

(** [alloc]: where kmem_cache_alloc puts the new structure. *)
Definition copy_sighand (alloc : option nat) (cur : nat) (clone_flags : Z) (p : nat) (w : world) : option (Z * world) :=
  c ← tasks w !! cur;
  tk ← tasks w !! p;
  ch ← t_sighand c;
  hand ← sighands w !! ch;
  if has clone_flags CLONE_SIGHAND then
    Some (0, set_sighand ch (Some {| hand_count := hand_count hand + 1; hand_action := hand_action hand |}) w)
  else
    let w := set_task p (Some (to_sighand alloc tk)) w in
    match alloc with
    | None => Some (- ENOMEM, w)
    | Some h =>
        let act := if has clone_flags CLONE_CLEAR_SIGHAND then flush_signal_handlers (hand_action hand) else hand_action hand in
        Some (0, set_sighand h (Some {| hand_count := 1; hand_action := act |}) w)
    end.

Definition cpu_rlim (l : list rlimit) : Z := match l !! Z.to_nat RLIMIT_CPU with Some r => rlim_cur r | None => 0 end.

(** posix_cpu_timers_init_group hands the limit on CPU time to the timers. *)
Definition posix_cpu_timers_init_group (sig : signal_struct) : signal_struct :=
  {| sigcnt := sigcnt sig; sig_live := sig_live sig; nr_threads := nr_threads sig; quick_threads := quick_threads sig;
     thread_head := thread_head sig; curr_target := curr_target sig; sig_rlim := sig_rlim sig;
     cpu_timer_limit := cpu_rlim (sig_rlim sig);
     oom_score_adj := oom_score_adj sig; oom_score_adj_min := oom_score_adj_min sig; oom_mm := oom_mm sig |}.

Definition copy_signal (alloc : option nat) (cur : nat) (clone_flags : Z) (p : nat) (w : world) : option (Z * world) :=
  if has clone_flags CLONE_THREAD then Some (0, w)
  else
    c ← tasks w !! cur;
    tk ← tasks w !! p;
    cs ← t_signal c;
    csig ← signals w !! cs;
    let w := set_task p (Some (to_signal alloc tk)) w in
    match alloc with
    | None => Some (- ENOMEM, w)
    | Some s =>
        let sig := {| sigcnt := 1; sig_live := 1; nr_threads := 1; quick_threads := 1; thread_head := [p]; curr_target := p;
                      sig_rlim := sig_rlim csig; cpu_timer_limit := 0; oom_score_adj := oom_score_adj csig;
                      oom_score_adj_min := oom_score_adj_min csig; oom_mm := None |} in
        Some (0, set_signal s (Some (posix_cpu_timers_init_group sig)) w)
    end.

(** The point after which the fork cannot fail: a new thread enters the group of the
    caller, a new process has its own. *)
Definition attach_task (cur : nat) (clone_flags : Z) (p : nat) (w : world) : option world :=
  w ← (if negb (has clone_flags CLONE_THREAD) then Some w
       else
         c ← tasks w !! cur;
         cs ← t_signal c;
         sig ← signals w !! cs;
         let w := set_signal cs (Some (sig_counts (sigcnt sig + 1) (sig_live sig + 1) (nr_threads sig + 1) (quick_threads sig + 1)
                                          (thread_head sig) sig)) w in
         tk ← tasks w !! p;
         s ← t_signal tk;
         sig ← signals w !! s;
         Some (set_signal s (Some (sig_counts (sigcnt sig) (sig_live sig) (nr_threads sig) (quick_threads sig)
                                     (thread_head sig ++ [p]) sig)) w));
  tk ← tasks w !! p;
  Some (set_task p (Some (to_progress Attached tk)) w).

(** The last labels of copy_process, for the structures of this file. *)
Definition bad_fork_free (p : nat) (w : world) : option world :=
  w ← put_task_stack p w;
  tk ← tasks w !! p;
  delayed_free_task p (set_task p (Some (to_progress Failed tk)) w).

Definition bad_fork_cleanup_sighand (p : nat) (w : world) : option world :=
  tk ← tasks w !! p;
  h ← t_sighand tk;
  w ← __cleanup_sighand h w;
  bad_fork_free p w.

Definition bad_fork_cleanup_signal (clone_flags : Z) (p : nat) (w : world) : option world :=
  tk ← tasks w !! p;
  w ← (if negb (has clone_flags CLONE_THREAD) then s ← t_signal tk; free_signal_struct s w else Some w);
  bad_fork_cleanup_sighand p w.

Definition advance (p : nat) (cur : nat) (f : Z) (s : stage) (w : world) : option world :=
  tk ← tasks w !! p;
  Some (set_task p (Some (to_progress (Building cur f s) tk)) w).

(** The next step of the copy_process that builds [p]; [alloc] is the answer of the
    allocator, [fail] says that one of the calls between the group and the end failed. *)
Definition fork_step (p : nat) (alloc : option nat) (fail : bool) (w : world) : option world :=
  tk ← tasks w !! p;
  match t_progress tk with
  | Building cur f Copied =>
      if fail then bad_fork_free p w
      else
        '(err, w) ← copy_sighand alloc cur f p w;
        if c_true err then bad_fork_free p w else advance p cur f HasSighand w
  | Building cur f HasSighand =>
      '(err, w) ← copy_signal alloc cur f p w;
      if c_true err then bad_fork_cleanup_sighand p w else advance p cur f HasSignal w
  | Building cur f HasSignal => if fail then bad_fork_cleanup_signal f p w else attach_task cur f p w
  | _ => None
  end.

(** ** The rest of the kernel *)

(** linux/sched/task.h: the last reference frees the task, through an rcu_head where the
    caller may not sleep ([defer]). *)
Definition put_task_struct (cur t : nat) (defer : bool) (w : world) : option world :=
  tk ← tasks w !! t;
  let n := usage tk - 1 in
  let w := set_task t (Some (to_counts n (rcu_users tk) (stack_refcount tk) tk)) w in
  if n =? 0 then (if defer then call_rcu t PutTaskCb w else __put_task_struct cur t w) else Some w.

Definition get_task_struct (t : nat) (w : world) : option world :=
  tk ← tasks w !! t;
  Some (set_task t (Some (to_counts (usage tk + 1) (rcu_users tk) (stack_refcount tk) tk)) w).

Definition put_task_struct_rcu_user (t : nat) (w : world) : option world :=
  tk ← tasks w !! t;
  let n := rcu_users tk - 1 in
  let w := set_task t (Some (to_counts (usage tk) n (stack_refcount tk) tk)) w in
  if n =? 0 then call_rcu t DelayedPutTask w else Some w.

(** The grace period is over: the function that waits in the rcu_head runs. *)
Definition run_rcu (cur t : nat) (defer : bool) (w : world) : option world :=
  tk ← tasks w !! t;
  let w := set_task t (Some (to_rcu None tk)) w in
  match t_rcu tk with
  | Some DelayedFreeTask => __delayed_free_task t w
  | Some DelayedPutTask => put_task_struct cur t defer w
  | Some PutTaskCb => __put_task_struct_rcu_cb cur t w
  | None => None
  end.

(** A thread exits: it no longer counts as a live one. *)
Definition thread_exits (t : nat) (w : world) : option world :=
  tk ← tasks w !! t;
  s ← t_signal tk;
  sig ← signals w !! s;
  let w := set_signal s (Some (sig_counts (sigcnt sig) (sig_live sig - 1) (nr_threads sig) (quick_threads sig - 1) (thread_head sig) sig)) w in
  Some (set_task t (Some (to_exit tk)) w).

(** It is reaped: it leaves the list of its group and gives up its handlers. *)
Definition reap (t : nat) (w : world) : option world :=
  tk ← tasks w !! t;
  s ← t_signal tk;
  sig ← signals w !! s;
  h ← t_sighand tk;
  let w := set_signal s (Some (sig_counts (sigcnt sig) (sig_live sig) (nr_threads sig - 1) (quick_threads sig)
                                 (filter (.≠ t) (thread_head sig)) sig)) w in
  let w := set_task t (Some (to_sighand None tk)) w in
  w ← __cleanup_sighand h w;
  put_task_struct_rcu_user t w.

(** The scheduler switches away from it for the last time. *)
Definition last_switch (t : nat) (w : world) : option world :=
  w ← put_task_stack t w;
  put_task_struct_rcu_user t w.

(** The OOM killer chooses the group of [t], whose address space is [m]. *)
Definition oom_victim (t m : nat) (w : world) : option world :=
  tk ← tasks w !! t;
  s ← t_signal tk;
  sig ← signals w !! s;
  match oom_mm sig with
  | Some _ => Some w
  | None => st ← mmgrab m (mem w); Some (set_signal s (Some (sig_oom (Some m) sig)) (with_mem st w))
  end.
End ops.

(** ** Exact counts *)

(** What everybody else holds: references on tasks, and shares of address spaces. *)
Record holders := { c_refs : nat -> Z; c_mm : clients }.

Definition is_own (f : Z) : bool := negb (has f CLONE_THREAD).
Definition counted (tk : task_struct) : bool :=
  match t_progress tk with Attached => true | Building _ f HasSignal => is_own f | _ => false end.
Definition has_hand (tk : task_struct) : bool :=
  match t_progress tk with Attached | Building _ _ HasSighand | Building _ _ HasSignal => true | _ => false end.

(** The task counts in group [s]; it is alive there; it is in the list of threads; it
    counts for the handlers [h]; it is built by [c]; group [sig] pins address space [m]. *)
Definition in_signal (s : nat) (tk : task_struct) : bool := counted tk && bool_decide (t_signal tk = Some s).
Definition on_signal (s : nat) (tk : task_struct) : Z := b2z (in_signal s tk).
Definition alive (s : nat) (tk : task_struct) : Z := b2z (in_signal s tk && negb (exit_state tk)).
Definition in_group (s : nat) (tk : task_struct) : bool := in_signal s tk && bool_decide (t_sighand tk <> None).
Definition on_sighand (h : nat) (tk : task_struct) : Z := b2z (has_hand tk && bool_decide (t_sighand tk = Some h)).
Definition built_by (c : nat) (tk : task_struct) : Z :=
  match t_progress tk with Building cur _ _ => b2z (cur =? c)%nat | _ => 0 end.
Definition oom_grab (m : nat) (sig : signal_struct) : Z := b2z (bool_decide (oom_mm sig = Some m)).

Definition sig_ok (T : gmap nat task_struct) (s : nat) (o : option signal_struct) : Prop :=
  match o with
  | None => csum (on_signal s) T = 0
  | Some sig =>
      sigcnt sig = csum (on_signal s) T /\ 0 < sigcnt sig /\ sig_live sig = csum (alive s) T /\ quick_threads sig = sig_live sig /\
      nr_threads sig = Z.of_nat (length (thread_head sig)) /\ NoDup (thread_head sig) /\
      forall t, t ∈ thread_head sig <-> exists tk, T !! t = Some tk /\ in_group s tk = true
  end.

Definition hand_ok (T : gmap nat task_struct) (h : nat) (o : option sighand_struct) : Prop :=
  match o with
  | None => csum (on_sighand h) T = 0
  | Some x => hand_count x = csum (on_sighand h) T /\ 0 < hand_count x
  end.

(** The builder of a task runs, so what the copied pointers point to is there. *)
Definition parent_ok (o : option task_struct) (tk : task_struct) (f : Z) (st : stage) : Prop :=
  exists c, o = Some c /\ t_progress c = Attached /\ exit_state c = false /\
    (st = Copied -> t_sighand tk = t_sighand c) /\ (st <> HasSignal \/ is_own f = false -> t_signal tk = t_signal c).

Definition attached_ok (refs : Z) (tk : task_struct) : Prop :=
  is_Some (t_signal tk) /\ (exit_state tk = false -> is_Some (t_sighand tk) /\ stack_refcount tk = 1) /\
  0 <= stack_refcount tk <= 1 /\ rcu_users tk = stack_refcount tk + b2z (bool_decide (t_sighand tk <> None)) /\
  usage tk = refs + b2z ((0 <? rcu_users tk) || bool_decide (t_rcu tk = Some DelayedPutTask)) /\
  (t_rcu tk = Some DelayedPutTask -> rcu_users tk = 0) /\ (t_rcu tk = Some PutTaskCb <-> usage tk = 0) /\
  t_rcu tk <> Some DelayedFreeTask.

Definition task_ok (T : gmap nat task_struct) (refs : Z) (tk : task_struct) : Prop :=
  match t_progress tk with
  | Building cur f st =>
      usage tk = 1 /\ rcu_users tk = 2 /\ stack_refcount tk = 1 /\ exit_state tk = false /\ t_rcu tk = None /\ refs = 0 /\
      is_Some (t_signal tk) /\ is_Some (t_sighand tk) /\ parent_ok (T !! cur) tk f st
  | Failed => refs = 0 /\ stack_refcount tk = 0 /\ t_rcu tk = Some DelayedFreeTask
  | Attached => attached_ok refs tk
  end.

(** A process that is being built is alone in its group. *)
Definition alone (T : gmap nat task_struct) (p s : nat) : Prop := forall u x, T !! u = Some x -> in_signal s x = true -> u = p.
Definition own_group (tk : task_struct) : option nat :=
  match t_progress tk with Building _ f HasSignal => if is_own f then t_signal tk else None | _ => None end.

(** Everybody's shares of the address spaces: the others', and those of the groups. *)
Definition all_shares (g : holders) (S : gmap nat signal_struct) : clients :=
  {| c_users := c_users (c_mm g); c_grabs m := c_grabs (c_mm g) m + csum (oom_grab m) S; c_files := c_files (c_mm g);
     c_writers := c_writers (c_mm g); c_denies := c_denies (c_mm g); c_mods := c_mods (c_mm g) |}.

Record task_inv {W : MmWorld} (w : world) (g : holders) : Prop := {
  ti_task : forall t tk, tasks w !! t = Some tk -> task_ok (tasks w) (c_refs g t) tk;
  ti_none : forall t, tasks w !! t = None -> c_refs g t = 0;
  ti_refs : forall t, 0 <= c_refs g t;
  ti_own : forall p tk s, tasks w !! p = Some tk -> own_group tk = Some s -> alone (tasks w) p s;
  ti_sig : forall s, sig_ok (tasks w) s (signals w !! s);
  ti_hand : forall h, hand_ok (tasks w) h (sighands w !! h);
  ti_pos : pos (c_mm g);
  ti_mm : mm_inv (mem w) (all_shares g (signals w))
}.

(** *** Changing one slot of each table *)

Definition grouped (s : nat) (tk : task_struct) : Z := b2z (in_group s tk).

(** The slot counts in group [s], or for handlers [h], as before. *)
Definition same_in (s : nat) (o o' : option task_struct) : Prop :=
  part (on_signal s) o' = part (on_signal s) o /\ part (alive s) o' = part (alive s) o /\ part (grouped s) o' = part (grouped s) o.
Definition same_hand (h : nat) (o o' : option task_struct) : Prop := part (on_sighand h) o' = part (on_sighand h) o.

(** What the others see of a task. *)
Definition face (tk : task_struct) : progress * option nat * option nat * bool :=
  (t_progress tk, t_signal tk, t_sighand tk, exit_state tk).

Lemma face_inv x y : face x = face y ->
  t_progress x = t_progress y /\ t_signal x = t_signal y /\ t_sighand x = t_sighand y /\ exit_state x = exit_state y.
Proof. unfold face. by intros [= -> -> -> ->]. Qed.

Lemma same_in_face s x y : face y = face x -> same_in s (Some x) (Some y).
Proof.
  intros (Hp & Hs & Hh & He)%face_inv. unfold same_in, part, on_signal, alive, grouped, in_group, in_signal, counted.
  by rewrite Hp, Hs, Hh, He.
Qed.

Lemma same_hand_face h x y : face y = face x -> same_hand h (Some x) (Some y).
Proof. intros (Hp & Hs & Hh & He)%face_inv. unfold same_hand, part, on_sighand, has_hand. by rewrite Hp, Hh. Qed.

Lemma part_grouped s o : part (grouped s) o = 1 <-> exists x, o = Some x /\ in_group s x = true.
Proof.
  unfold grouped. destruct o as [x|]; cbn; [|split; [done|by intros (? & ? & _)]].
  destruct (in_group s x) eqn:Hx; cbn; split; try done; [eauto|by intros (? & [= <-] & ?); congruence].
Qed.

Section frame.
Context (T : gmap nat task_struct) (t : nat) (o : option task_struct).

Lemma sig_frame s x : same_in s (T !! t) o -> sig_ok T s x -> sig_ok (put_slot t o T) s x.
Proof.
  intros (H1 & H2 & H3) H. destruct x as [sig|]; cbn in *; rewrite !csum_slot, H1, ?H2; [|lia].
  destruct H as (Hc & Hp & Hl & Hq & Hn & Hd & Hm). split_and!; try done; try lia. intros u. rewrite Hm.
  destruct (decide (u = t)) as [-> |Hu]; [|by rewrite lookup_slot_ne].
  rewrite lookup_slot, <- !part_grouped. by rewrite H3.
Qed.

Lemma hand_frame h x : same_hand h (T !! t) o -> hand_ok T h x -> hand_ok (put_slot t o T) h x.
Proof. unfold same_hand. intros H1 H. destruct x as [hd|]; cbn in *; rewrite !csum_slot, H1; lia. Qed.

(** A builder stays one. *)
Definition keeps : Prop := forall ptk f st, (exists p, T !! p = Some ptk) -> t_progress ptk = Building t f st ->
  parent_ok (T !! t) ptk f st -> parent_ok o ptk f st.

Lemma keeps_face x y : T !! t = Some x -> o = Some y -> face y = face x -> keeps.
Proof.
  intros Hx Hy (Hp & Hs & Hh & He)%face_inv ptk f st _ _ (c & Hc & H). rewrite Hx in Hc. injection Hc as <-.
  exists y. by rewrite Hp, Hs, Hh, He.
Qed.

Lemma keeps_other : (forall x, T !! t = Some x -> t_progress x = Attached -> exit_state x = true) -> keeps.
Proof. intros H ptk f st _ _ (c & Hc & Hp & He & _). specialize (H c Hc Hp). congruence. Qed.

Lemma keeps_idle : csum (built_by t) T = 0 -> keeps.
Proof.
  intros H ptk f st (p & Hp) Hb _. assert (Hm : built_by t ptk <= 0).
  { rewrite <- H. apply (csum_member _ _ p); [|done]. intros x. unfold built_by. destruct (t_progress x); try lia. by destruct (_ =? _)%nat. }
  unfold built_by in Hm. rewrite Hb, Nat.eqb_refl in Hm. by cbn in Hm.
Qed.
End frame.

(** The slot joins no group whose process is still being built. *)
Definition adds (T : gmap nat task_struct) (t : nat) (o : option task_struct) : Prop := forall x s, o = Some x -> in_signal s x = true ->
  (exists y, T !! t = Some y /\ in_signal s y = true) \/ (exists c y, T !! c = Some y /\ t_progress y = Attached /\ in_signal s y = true) \/
  csum (on_signal s) T = 0.

Lemma own_group_in s x : own_group x = Some s -> in_signal s x = true /\ t_progress x <> Attached.
Proof.
  unfold own_group, in_signal, counted. destruct (t_progress x) as [c f []| |]; try done. destruct (is_own f); [|done].
  intros ->. by rewrite bool_decide_eq_true_2.
Qed.

Lemma on_signal_nonneg s x : 0 <= on_signal s x.
Proof. unfold on_signal. by destruct (in_signal s x). Qed.

Lemma in_signal_sum T t x s : T !! t = Some x -> in_signal s x = true -> 0 < csum (on_signal s) T.
Proof. intros Hx Hs. pose proof (csum_member _ _ t x (on_signal_nonneg s) Hx) as H. unfold on_signal at 1 in H. rewrite Hs in H. cbn in H. lia. Qed.

Lemma alone_frame T t o p tk s : T !! p = Some tk -> own_group tk = Some s -> p <> t -> adds T t o -> alone T p s -> alone (put_slot t o T) p s.
Proof.
  intros Hp Ho Hn Ha H u x. apply own_group_in in Ho as [Hi Hb]. destruct (decide (u = t)) as [-> |Hu]; [|rewrite lookup_slot_ne by done; apply H].
  rewrite lookup_slot. intros -> Hx. destruct (Ha x s eq_refl Hx) as [(y & Hy & Hs)|[(c & y & Hy & Hat & Hs)|H0]].
  - by eapply H.
  - pose proof (H c y Hy Hs) as ->. congruence.
  - pose proof (in_signal_sum T p tk s Hp Hi). lia.
Qed.

Lemma adds_face T t x y : T !! t = Some x -> face y = face x -> adds T t (Some y).
Proof.
  intros Hx (Hp & Hs & Hh & He)%face_inv z s [= <-] Hi. left. exists x. split; [done|]. unfold in_signal, counted in *. by rewrite <- Hp, <- Hs.
Qed.

Lemma adds_none T t o : (forall x, o = Some x -> counted x = false) -> adds T t o.
Proof. intros H x s -> Hi. unfold in_signal in Hi. by rewrite (H x eq_refl) in Hi. Qed.

(** All groups, all handlers, when at most one of them changes. *)
Lemma sigs_same T t o (S : gmap nat signal_struct) : (forall s, sig_ok T s (S !! s)) -> (forall s, same_in s (T !! t) o) -> forall s, sig_ok (put_slot t o T) s (S !! s).
Proof. intros H Hs s. by apply sig_frame. Qed.

Lemma sigs_set T t o (S : gmap nat signal_struct) s0 x : (forall s, sig_ok T s (S !! s)) -> (forall s, s <> s0 -> same_in s (T !! t) o) ->
  sig_ok (put_slot t o T) s0 x -> forall s, sig_ok (put_slot t o T) s (put_slot s0 x S !! s).
Proof.
  intros H Hs H0 s. destruct (decide (s = s0)) as [-> |Hn]; [by rewrite lookup_slot|]. rewrite lookup_slot_ne by done.
  by apply sig_frame; auto.
Qed.

Lemma hands_same T t o (S : gmap nat sighand_struct) : (forall h, hand_ok T h (S !! h)) -> (forall h, same_hand h (T !! t) o) -> forall h, hand_ok (put_slot t o T) h (S !! h).
Proof. intros H Hs h. by apply hand_frame. Qed.

Lemma hands_set T t o (S : gmap nat sighand_struct) h0 x : (forall h, hand_ok T h (S !! h)) -> (forall h, h <> h0 -> same_hand h (T !! t) o) ->
  hand_ok (put_slot t o T) h0 x -> forall h, hand_ok (put_slot t o T) h (put_slot h0 x S !! h).
Proof.
  intros H Hs H0 h. destruct (decide (h = h0)) as [-> |Hn]; [by rewrite lookup_slot|]. rewrite lookup_slot_ne by done.
  by apply hand_frame; auto.
Qed.

Section invariant.
Context {W : MmWorld}.

Lemma inv_change w g w' g' t o : task_inv w g -> tasks w' = put_slot t o (tasks w) ->
  (forall s, sig_ok (tasks w') s (signals w' !! s)) -> (forall h, hand_ok (tasks w') h (sighands w' !! h)) ->
  (forall u, u <> t -> c_refs g' u = c_refs g u) -> 0 <= c_refs g' t ->
  match o with Some tk => task_ok (tasks w') (c_refs g' t) tk | None => c_refs g' t = 0 end ->
  keeps (tasks w) t o -> adds (tasks w) t o -> (forall x s, o = Some x -> own_group x = Some s -> alone (tasks w') t s) ->
  c_mm g' = c_mm g -> mm_inv (mem w') (all_shares g (signals w')) -> task_inv w' g'.
Proof.
  intros I Ht Hs Hh Hr H0 Ho Hk Ha Hw Hc Hm. constructor; [| | | |done|done|rewrite Hc; apply I|].
  - intros u tk. destruct (decide (u = t)) as [-> |Hu]; [rewrite Ht, lookup_slot; by intros ->; rewrite <- Ht|].
    rewrite Ht, lookup_slot_ne by done. intros Hl. rewrite (Hr u Hu). pose proof (ti_task _ _ I u tk Hl) as H. unfold task_ok in *.
    destruct (t_progress tk) as [cur f st| |] eqn:Hp; [|done..]. destruct H as (? & ? & ? & ? & ? & ? & ? & ? & H). split_and!; try done.
    destruct (decide (cur = t)) as [-> |Hn]; [|by rewrite lookup_slot_ne]. rewrite lookup_slot. by eapply Hk; eauto.
  - intros u. destruct (decide (u = t)) as [-> |Hu]; [rewrite Ht, lookup_slot; by intros ->|]. rewrite Ht, lookup_slot_ne, Hr by done. apply I.
  - intros u. destruct (decide (u = t)) as [-> |Hu]; [done|]. rewrite Hr by done. apply I.
  - intros p tk s. destruct (decide (p = t)) as [-> |Hu]; [rewrite Ht, lookup_slot, <- Ht; apply Hw|].
    rewrite Ht, lookup_slot_ne by done. intros Hp Hg. eapply alone_frame; [exact Hp|exact Hg|done..|]. by eapply I.
  - destruct g, g'; cbn in *; subst. exact Hm.
Qed.

(** Only the counts of a task change. *)
Lemma inv_count w g w' g' t x y : task_inv w g -> tasks w !! t = Some x -> w' = set_task t (Some y) w -> face y = face x ->
  (forall u, u <> t -> c_refs g' u = c_refs g u) -> 0 <= c_refs g' t -> task_ok (tasks w') (c_refs g' t) y -> c_mm g' = c_mm g ->
  task_inv w' g'.
Proof.
  intros I Hx -> Hf Hr H0 Ho Hc. eapply inv_change; [exact I|reflexivity| | |exact Hr|exact H0|exact Ho| | | |exact Hc|apply I].
  - apply sigs_same; [apply I|]. intros s. rewrite Hx. by apply same_in_face.
  - apply hands_same; [apply I|]. intros h. rewrite Hx. by apply same_hand_face.
  - by eapply keeps_face.
  - by eapply adds_face.
  - intros z s [= <-] Hg. assert (Hg' : own_group x = Some s).
    { apply face_inv in Hf as (Hp & Hs & _). unfold own_group in *. by rewrite <- Hp, <- Hs. }
    intros u v Hu Hv. cbn [tasks set_task with_tasks] in Hu. destruct (decide (u = t)) as [|Hn]; [done|]. rewrite lookup_slot_ne in Hu by done.
    eapply I; [exact Hx|exact Hg'|exact Hu|exact Hv].
Qed.

(** *** The address spaces *)

Lemma mm_inv_shares m g g' : mm_inv m g -> (forall n, c_users g' n = c_users g n) -> (forall n, c_grabs g' n = c_grabs g n) ->
  (forall n, c_files g' n = c_files g n) -> (forall n, c_writers g' n = c_writers g n) -> (forall n, c_denies g' n = c_denies g n) ->
  (forall n, c_mods g' n = c_mods g n) -> mm_inv m g'.
Proof.
  intros [] H1 H2 H3 H4 H5 H6. constructor; try done.
  - intros n. by rewrite H1, H2, H3, H4, H5.
  - intros n mm Hn. unfold mm_wf. rewrite H1, H2. by apply i_mm.
  - intros n. rewrite H1, H2. apply i_none.
  - intros k. rewrite i_count. unfold others. destruct k; by rewrite ?H3, ?H4, ?H5, ?H6.
  - intros i. by rewrite H4, H5.
Qed.

Lemma shares_same m g S S' : mm_inv m (all_shares g S) -> (forall n, csum (oom_grab n) S' = csum (oom_grab n) S) ->
  mm_inv m (all_shares g S').
Proof. intros I H. eapply mm_inv_shares; [exact I|try done..]. intros n. cbn. by rewrite H. Qed.

Lemma shares_set m g S s sig sig' : mm_inv m (all_shares g S) -> S !! s = Some sig -> oom_mm sig' = oom_mm sig ->
  mm_inv m (all_shares g (put_slot s (Some sig') S)).
Proof.
  intros I Hs Ho. apply (shares_same _ _ _ _ I). intros n. rewrite csum_slot, Hs. cbn. unfold oom_grab. rewrite Ho. lia.
Qed.

Lemma shares_new m g S s sig' : mm_inv m (all_shares g S) -> S !! s = None -> oom_mm sig' = None ->
  mm_inv m (all_shares g (put_slot s (Some sig') S)).
Proof.
  intros I Hs Ho. apply (shares_same _ _ _ _ I). intros n. rewrite csum_slot, Hs. cbn. unfold oom_grab. rewrite Ho.
  rewrite bool_decide_eq_false_2 by done. cbn. lia.
Qed.

Lemma oom_grab_nonneg n x : 0 <= oom_grab n x.
Proof. unfold oom_grab. by destruct (bool_decide _). Qed.

(** Freeing a group gives its reference on an address space back. *)
Lemma shares_free m g S s sig : pos (c_mm g) -> mm_inv m (all_shares g S) -> S !! s = Some sig ->
  exists m', match oom_mm sig with Some n => mmdrop_async n m | None => Some m end = Some m' /\
    mm_inv m' (all_shares g (put_slot s None S)).
Proof.
  intros Hp I Hs. destruct (oom_mm sig) as [n|] eqn:Ho.
  - destruct (mmdrop_async_inv m _ n I) as (m' & Hd & I').
    { cbn. pose proof (csum_member (oom_grab n) S s sig) as Hm. unfold oom_grab at 2 in Hm. rewrite Ho, bool_decide_eq_true_2 in Hm by done.
      specialize (Hp n). specialize (Hm (oom_grab_nonneg n) Hs). cbn in *. lia. }
    exists m'. split; [done|]. eapply mm_inv_shares; [exact I'|try done..]. intros k. cbn [c_grabs all_shares add_grabs]. unfold shift. rewrite csum_slot, Hs. cbn [part].
    unfold oom_grab at 2. rewrite Ho. case_decide; subst; [rewrite bool_decide_eq_true_2 by done|rewrite bool_decide_eq_false_2 by congruence]; cbn; lia.
  - exists m. split; [done|]. apply (shares_same _ _ _ _ I). intros n. rewrite csum_slot, Hs. cbn. unfold oom_grab at 2.
    rewrite Ho, bool_decide_eq_false_2 by done. cbn. lia.
Qed.

(** *** Groups and handlers of one task *)

Lemma on_sighand_nonneg h x : 0 <= on_sighand h x.
Proof. unfold on_sighand. by destruct (_ && _). Qed.

Lemma in_signal_at s x : counted x = true -> in_signal s x = bool_decide (t_signal x = Some s).
Proof. intros H. unfold in_signal. by rewrite H. Qed.

Lemma group_there w g t x s : task_inv w g -> tasks w !! t = Some x -> counted x = true -> t_signal x = Some s ->
  exists sig, signals w !! s = Some sig /\ sig_ok (tasks w) s (Some sig).
Proof.
  intros I Hx Hc Hs. pose proof (ti_sig _ _ I s) as H. destruct (signals w !! s) as [sig|]; [by exists sig|]. cbn in H.
  pose proof (csum_member _ _ t x (on_signal_nonneg s) Hx) as Hm. unfold on_signal at 1 in Hm.
  rewrite in_signal_at, Hs, bool_decide_eq_true_2 in Hm by done. cbn in Hm. lia.
Qed.

Lemma hand_there w g t x h : task_inv w g -> tasks w !! t = Some x -> has_hand x = true -> t_sighand x = Some h ->
  exists hd, sighands w !! h = Some hd /\ hand_ok (tasks w) h (Some hd).
Proof.
  intros I Hx Hc Hs. pose proof (ti_hand _ _ I h) as H. destruct (sighands w !! h) as [hd|]; [by exists hd|]. cbn in H.
  pose proof (csum_member _ _ t x (on_sighand_nonneg h) Hx) as Hm. unfold on_sighand at 1 in Hm.
  rewrite Hc, Hs, bool_decide_eq_true_2 in Hm by done. cbn in Hm. lia.
Qed.

(** A task counts nowhere but in its group. *)
Lemma same_in_else s s0 (o o' : option task_struct) :
  (forall x, o = Some x -> counted x = true -> t_signal x = Some s0) -> (forall x, o' = Some x -> counted x = true -> t_signal x = Some s0) ->
  s <> s0 -> same_in s o o'.
Proof.
  assert (Hz : forall (q : option task_struct), (forall x, q = Some x -> counted x = true -> t_signal x = Some s0) -> s <> s0 ->
    part (on_signal s) q = 0 /\ part (alive s) q = 0 /\ part (grouped s) q = 0).
  { intros [x|] H Hn; [|done]. cbn. unfold on_signal, alive, grouped, in_group. assert (in_signal s x = false) as ->; [|done].
    unfold in_signal. destruct (counted x) eqn:Hc; [|done]. by rewrite (H x eq_refl Hc), bool_decide_eq_false_2 by congruence. }
  intros H H' Hn. destruct (Hz o H Hn) as (? & ? & ?), (Hz o' H' Hn) as (? & ? & ?). unfold same_in. split_and!; congruence.
Qed.

Lemma same_hand_else h h0 (o o' : option task_struct) :
  (forall x, o = Some x -> has_hand x = true -> t_sighand x = Some h0 \/ t_sighand x = None) ->
  (forall x, o' = Some x -> has_hand x = true -> t_sighand x = Some h0 \/ t_sighand x = None) -> h <> h0 -> same_hand h o o'.
Proof.
  assert (Hz : forall (q : option task_struct), (forall x, q = Some x -> has_hand x = true -> t_sighand x = Some h0 \/ t_sighand x = None) -> h <> h0 ->
    part (on_sighand h) q = 0).
  { intros [x|] H Hn; [|done]. cbn. unfold on_sighand. destruct (has_hand x) eqn:Hc; [|done].
    destruct (H x eq_refl Hc) as [-> | ->]; by rewrite bool_decide_eq_false_2 by congruence. }
  intros H H' Hn. unfold same_hand. by rewrite (Hz o H Hn), (Hz o' H' Hn).
Qed.


(** *** References on a task *)

Context {E : TaskEnv}.

Lemma task_at t o w : tasks (set_task t o w) !! t = o.
Proof. apply lookup_slot. Qed.

Definition add_ref (d : Z) (t : nat) (g : holders) : holders := {| c_refs := shift d t (c_refs g); c_mm := c_mm g |}.

Lemma add_ref_else d t g u : u <> t -> c_refs (add_ref d t g) u = c_refs g u.
Proof. intros H. cbn. unfold shift. rewrite decide_False by done. lia. Qed.

Lemma add_ref_at d t g : c_refs (add_ref d t g) t = c_refs g t + d.
Proof. cbn. apply shift_eq. Qed.

Lemma attached w g t x : task_inv w g -> tasks w !! t = Some x -> t_progress x = Attached -> attached_ok (c_refs g t) x.
Proof. intros I Hx Hp. pose proof (ti_task _ _ I t x Hx) as H. unfold task_ok in H. by rewrite Hp in H. Qed.

Lemma task_ok_attached T r x : t_progress x = Attached -> attached_ok r x -> task_ok T r x.
Proof. intros Hp H. unfold task_ok. by rewrite Hp. Qed.

Lemma get_task_inv w g t x : task_inv w g -> tasks w !! t = Some x -> t_progress x = Attached -> 0 < usage x ->
  exists w', get_task_struct t w = Some w' /\ task_inv w' (add_ref 1 t g).
Proof.
  intros I Hx Hp Hu. pose proof (attached w g t x I Hx Hp) as H. pose proof (ti_refs _ _ I t) as Hr.
  unfold get_task_struct. rewrite Hx. eexists; split; [done|].
  eapply inv_count; [exact I|exact Hx|reflexivity|done|apply add_ref_else|rewrite add_ref_at; lia| |done].
  rewrite add_ref_at. apply task_ok_attached; [done|]. destruct H as (? & ? & ? & ? & ? & ? & Hcb & ?).
  unfold attached_ok. cbn. split_and!; try done; try lia. split; [intros Hc; apply Hcb in Hc; lia|lia].
Qed.

(** A reference or a share of the stack keeps the task. *)
Lemma referenced w g t : task_inv w g -> 0 < c_refs g t -> exists x, tasks w !! t = Some x /\ t_progress x = Attached.
Proof.
  intros I Hr. destruct (tasks w !! t) as [x|] eqn:Hx; [|rewrite (ti_none _ _ I t Hx) in Hr; lia]. exists x. split; [done|].
  pose proof (ti_task _ _ I t x Hx) as H. unfold task_ok in H. destruct (t_progress x); [|done|]; lia.
Qed.

(** The task [cur] that runs is on its stack. *)
Definition on_cpu (cur : nat) (w : world) : Prop := exists c, tasks w !! cur = Some c /\ 0 < stack_refcount c.

(** Nothing is left of a task whose usage is zero but its place in its group. *)
Lemma unused_task r x : 0 <= r -> attached_ok r x -> usage x = 0 ->
  r = 0 /\ stack_refcount x = 0 /\ t_sighand x = None /\ exit_state x = true /\ t_rcu x = Some PutTaskCb.
Proof.
  intros Hr (Hs & He & Hk & Hu & Hc & Hd & Hcb & Hf) H0.
  assert (Hz : (0 <? rcu_users x) = false /\ r = 0).
  { destruct (_ || _) eqn:Hb in Hc; cbn in Hc; [lia|]. apply orb_false_iff in Hb as [Hb _]. split; [done|lia]. }
  destruct Hz as [Hz ->]. apply Z.ltb_ge in Hz. assert (Hsh : t_sighand x = None /\ stack_refcount x = 0).
  { destruct (bool_decide (t_sighand x <> None)) eqn:Hb in Hu; cbn in Hu; [lia|]. apply bool_decide_eq_false in Hb.
    split; [by destruct (t_sighand x); [destruct Hb|]|lia]. }
  destruct Hsh as [Hh Hst]. split_and!; try done; [|by apply Hcb].
  destruct (exit_state x); [done|]. destruct (He eq_refl) as [[h Hh'] _]. congruence.
Qed.

Definition dec_sig (sig : signal_struct) : signal_struct :=
  sig_counts (sigcnt sig - 1) (sig_live sig) (nr_threads sig) (quick_threads sig) (thread_head sig) sig.

Lemma put_signal_spec w g s sig : pos (c_mm g) -> mm_inv (mem w) (all_shares g (signals w)) -> signals w !! s = Some sig ->
  exists w', put_signal_struct s w = Some w' /\ tasks w' = tasks w /\ sighands w' = sighands w /\
    signals w' = put_slot s (if sigcnt sig - 1 =? 0 then None else Some (dec_sig sig)) (signals w) /\
    mm_inv (mem w') (all_shares g (signals w')).
Proof.
  intros Hp I Hs. unfold put_signal_struct. rewrite Hs. cbn [mbind option_bind]. destruct (sigcnt sig - 1 =? 0).
  - unfold free_signal_struct. cbn [set_signal with_signals signals mem]. rewrite lookup_slot. cbn [mbind option_bind oom_mm sig_counts].
    destruct (shares_free (mem w) g (signals w) s sig Hp I Hs) as (m' & -> & I'). eexists; split; [done|]. cbn. by rewrite !delete_insert_eq.
  - eexists; split; [done|]. split_and!; [done..|]. by eapply shares_set.
Qed.

(** The last put frees the task, and the group with the last of its tasks. *)
Lemma put_last w g cur t x y : task_inv w g -> on_cpu cur w -> tasks w !! t = Some x -> t_progress x = Attached -> usage x = 0 ->
  exit_state y = exit_state x -> usage y = 0 -> stack_refcount y = stack_refcount x -> t_signal y = t_signal x ->
  exists w', __put_task_struct cur t (set_task t (Some y) w) = Some w' /\ task_inv w' g.
Proof.
  intros I (c & Hc & Hst) Hx Hp Hu Ey Uy Sy Gy.
  destruct (unused_task _ x (ti_refs _ _ I t) (attached w g t x I Hx Hp) Hu) as (Hr & Hk & Hh & He & _).
  destruct (attached w g t x I Hx Hp) as ([s Hs] & _). assert (Hco : counted x = true) by (unfold counted; by rewrite Hp).
  destruct (group_there w g t x s I Hx Hco Hs) as (sig & Hsig & Hok).
  unfold __put_task_struct. rewrite task_at. cbn [mbind option_bind]. rewrite Ey, He, Uy.
  destruct (Nat.eqb_spec t cur) as [-> |Hn]; [rewrite Hx in Hc; injection Hc as <-; lia|]. cbn [negb c_true Z.eqb orb]. rewrite Gy, Hs. cbn [mbind option_bind].
  destruct (put_signal_spec (set_task t (Some y) w) g s sig (ti_pos _ _ I) (ti_mm _ _ I) Hsig) as (w1 & -> & Ht & Hhd & Hg & Hm).
  cbn [mbind option_bind]. unfold free_task. rewrite Ht, task_at. cbn [mbind option_bind]. rewrite Sy, Hk.
  cbn [c_true Z.eqb negb]. eexists; split; [done|].
  assert (Ht' : tasks (set_task t None w1) = put_slot t None (tasks w)) by (cbn; rewrite Ht; cbn; by rewrite delete_insert_eq).
  assert (Hin : on_signal s x = 1) by (unfold on_signal; by rewrite in_signal_at, Hs, bool_decide_eq_true_2).
  eapply inv_change; [exact I|exact Ht'| | |done|lia|done| | | |done|exact Hm].
  - rewrite Ht'. cbn [signals set_task with_tasks]. rewrite Hg. apply sigs_set; [apply I| |].
    + intros s' Hs'. eapply same_in_else; [|done|exact Hs']. rewrite Hx. by intros ? [= <-].
    + destruct Hok as (H1 & H2 & H3 & H4 & H5 & H6 & H7).
      assert (Hz : csum (on_signal s) (put_slot t None (tasks w)) = sigcnt sig - 1) by (rewrite csum_slot, Hx; cbn [part]; lia).
      destruct (Z.eqb_spec (sigcnt sig - 1) 0) as [E0|E0]; cbn [sig_ok dec_sig sig_counts sigcnt sig_live quick_threads nr_threads thread_head]; [lia|].
      split_and!; try done; try lia.
      * rewrite csum_slot, Hx. cbn [part]. unfold alive at 2. rewrite He, andb_false_r. cbn. lia.
      * intros u. rewrite H7. destruct (decide (u = t)) as [-> |Hu']; [|by rewrite lookup_slot_ne]. rewrite lookup_slot, Hx.
        split; [|by intros (? & ? & _)]. intros (? & [= <-] & Hg'). unfold in_group in Hg'. by rewrite Hh, andb_false_r in Hg'.
  - rewrite Ht'. cbn [sighands set_task with_tasks]. rewrite Hhd. apply hands_same; [apply I|]. intros h. rewrite Hx. unfold same_hand, part, on_sighand.
    by rewrite Hh, andb_false_r.
  - apply keeps_other. rewrite Hx. by intros ? [= <-].
  - by apply adds_none.
  - done.
Qed.


Lemma set_task_twice t o o' w : set_task t o (set_task t o' w) = set_task t o w.
Proof. unfold set_task, with_tasks. cbn [tasks signals sighands mem]. by rewrite slot_slot. Qed.

Lemma set_task_id p x w : tasks w !! p = Some x -> set_task p (Some x) w = w.
Proof. intros H. destruct w. unfold set_task, with_tasks. cbn in *. by rewrite insert_id. Qed.

Lemma on_cpu_set cur w t x y : on_cpu cur w -> tasks w !! t = Some x -> stack_refcount y = stack_refcount x -> on_cpu cur (set_task t (Some y) w).
Proof.
  intros (c & Hc & H) Hx Hs. unfold on_cpu. destruct (decide (cur = t)) as [-> |Hn]; [exists y; rewrite task_at; split; [done|congruence]|].
  exists c. split; [|done]. cbn. by rewrite lookup_insert_ne.
Qed.

(** Giving a reference up, when [y] is what the slot holds by now. *)
Lemma put_inv w g g' cur t x y defer : task_inv w g -> on_cpu cur w -> tasks w !! t = Some x -> t_progress x = Attached -> face y = face x ->
  stack_refcount y = stack_refcount x -> (forall u, u <> t -> c_refs g' u = c_refs g u) -> 0 <= c_refs g' t -> c_mm g' = c_mm g ->
  (usage y - 1 <> 0 -> attached_ok (c_refs g' t) (to_counts (usage y - 1) (rcu_users y) (stack_refcount y) y)) ->
  (usage y - 1 = 0 -> t_rcu y = None /\ attached_ok (c_refs g' t) (to_rcu (Some PutTaskCb) (to_counts 0 (rcu_users y) (stack_refcount y) y))) ->
  exists w', put_task_struct cur t defer (set_task t (Some y) w) = Some w' /\ task_inv w' g'.
Proof.
  intros I Hcpu Hx Hp Hf Hst Hr H0 Hc Hn Hz. assert (Hpy : t_progress y = Attached) by (apply face_inv in Hf as (-> & _); done).
  unfold put_task_struct. rewrite task_at. cbn [mbind option_bind]. rewrite set_task_twice. destruct (Z.eqb_spec (usage y - 1) 0) as [E0|E0].
  - destruct (Hz E0) as [Hrcu Hok]. rewrite E0. clear Hn Hz. set (z := to_rcu (Some PutTaskCb) _) in Hok.
    assert (I' : task_inv (set_task t (Some z) w) g').
    { eapply (inv_count w g _ g' t x z); [exact I|exact Hx|done|exact Hf|done|done|by apply task_ok_attached|done]. }
    destruct defer.
    + unfold call_rcu. rewrite task_at. cbn [mbind option_bind t_rcu to_counts]. rewrite Hrcu, set_task_twice. by eexists.
    + destruct (put_last (set_task t (Some z) w) g' cur t z (to_counts 0 (rcu_users y) (stack_refcount y) y)) as (w' & E' & I2); try done.
      * eapply on_cpu_set; [done|exact Hx|exact Hst].
      * apply task_at.
      * exists w'. by rewrite set_task_twice in E'.
  - eexists; split; [done|]. eapply (inv_count w g _ g' t x); [exact I|exact Hx|done|exact Hf|done|done| |done]. apply task_ok_attached; [done|auto].
Qed.

Lemma put_task_inv w g cur t defer : task_inv w g -> on_cpu cur w -> 0 < c_refs g t ->
  exists w', put_task_struct cur t defer w = Some w' /\ task_inv w' (add_ref (-1) t g).
Proof.
  intros I Hcpu Hr. destruct (referenced w g t I Hr) as (x & Hx & Hp).
  rewrite <- (set_task_id t x w Hx). pose proof (attached w g t x I Hx Hp) as (H1 & H2 & H3 & H4 & H5 & H6 & H7 & H8).
  assert (Hpu : 0 < usage x) by (destruct (_ || _) in H5; cbn in H5; lia).
  eapply put_inv; [exact I|done|exact Hx|done..|apply add_ref_else|rewrite add_ref_at; lia|done| |]; rewrite add_ref_at; intros Hu.
  - unfold attached_ok. cbn. split_and!; try done; try lia. split; [intros Hcb; apply H7 in Hcb; lia|lia].
  - assert (Hn : (0 <? rcu_users x) || bool_decide (t_rcu x = Some DelayedPutTask) = false).
    { destruct (_ || _); [cbn in H5; lia|done]. }
    pose proof Hn as [Hn1 Hn2]%orb_false_iff. rewrite Hn in H5. cbn in H5. apply bool_decide_eq_false in Hn2.
    split; [destruct (t_rcu x) as [[]|] eqn:Er; try done; pose proof (proj1 H7 eq_refl); lia|].
    unfold attached_ok. cbn. rewrite Hn1, (bool_decide_eq_false_2 (Some PutTaskCb = _)) by done. cbn. split_and!; try done; lia.
Qed.

(** The scheduler or whoever reaps gives its part of the usage up. *)
Definition drop_user (y : task_struct) : task_struct :=
  to_rcu (if rcu_users y - 1 =? 0 then Some DelayedPutTask else None) (to_counts (usage y) (rcu_users y - 1) (stack_refcount y) y).

Lemma rcu_user_spec w t y r : 0 <= r -> t_rcu y = None -> usage y = r + 1 -> is_Some (t_signal y) -> 0 <= stack_refcount y <= 1 ->
  (exit_state y = false -> is_Some (t_sighand y) /\ stack_refcount y = 1) ->
  rcu_users y - 1 = stack_refcount y + b2z (bool_decide (t_sighand y <> None)) ->
  put_task_struct_rcu_user t (set_task t (Some y) w) = Some (set_task t (Some (drop_user y)) w) /\ attached_ok r (drop_user y).
Proof.
  intros Hr Hrc Hu Hs Hst He Heq. unfold put_task_struct_rcu_user, drop_user. rewrite task_at. cbn [mbind option_bind]. rewrite set_task_twice. split.
  - destruct (rcu_users y - 1 =? 0).
    + unfold call_rcu. rewrite task_at. cbn [mbind option_bind t_rcu to_counts]. by rewrite Hrc, set_task_twice.
    + do 3 f_equal. unfold to_rcu, to_counts. cbn. by rewrite Hrc.
  - unfold attached_ok. cbn. assert (Hp : 0 <= rcu_users y - 1) by (destruct (bool_decide _); cbn in Heq; lia).
    destruct (Z.eqb_spec (rcu_users y - 1) 0) as [E0|E0].
    + rewrite (bool_decide_eq_true_2 (Some DelayedPutTask = _)), orb_true_r by done. cbn. split_and!; try done; try lia; split; [done|lia].
    + rewrite (proj2 (Z.ltb_lt 0 (rcu_users y - 1))) by lia. cbn. split_and!; try done; try lia; split; [done|lia].
Qed.

(** What an attached task with a user left looks like. *)
Lemma attached_used r x : 0 <= r -> attached_ok r x -> 0 < rcu_users x -> t_rcu x = None /\ usage x = r + 1.
Proof.
  intros Hr (H1 & H2 & H3 & H4 & H5 & H6 & H7 & H8) Hp. assert (Hz : (0 <? rcu_users x) = true) by lia. rewrite Hz in H5. cbn in H5.
  split; [|done]. destruct (t_rcu x) as [[]|] eqn:Er; try done; [specialize (H6 eq_refl); lia|]. pose proof (proj1 H7 eq_refl). lia.
Qed.

Lemma last_switch_inv w g t x : task_inv w g -> tasks w !! t = Some x -> t_progress x = Attached -> exit_state x = true ->
  0 < stack_refcount x -> exists w', last_switch t w = Some w' /\ task_inv w' g.
Proof.
  intros I Hx Hp He Hst. pose proof (attached w g t x I Hx Hp) as H. pose proof H as (H1 & H2 & H3 & H4 & _).
  assert (Hu : 0 < rcu_users x) by (destruct (bool_decide _); cbn in H4; lia).
  destruct (attached_used _ x (ti_refs _ _ I t) H Hu) as [Hrc Hus].
  unfold last_switch, put_task_stack. rewrite Hx. cbn [mbind option_bind].
  set (y := to_counts (usage x) (rcu_users x) (stack_refcount x - 1) x).
  destruct (rcu_user_spec w t y (c_refs g t) (ti_refs _ _ I t)) as [-> Hok]; try done; cbn; [lia|congruence|lia|].
  eexists; split; [done|]. eapply (inv_count w g _ g t x); [exact I|exact Hx|done..|apply I| |done]. by apply task_ok_attached.
Qed.


Lemma run_rcu_inv w g cur t x f defer : task_inv w g -> on_cpu cur w -> tasks w !! t = Some x -> t_rcu x = Some f ->
  exists w', run_rcu cur t defer w = Some w' /\ task_inv w' g.
Proof.
  intros I Hcpu Hx Hf. pose proof (ti_task _ _ I t x Hx) as H. unfold run_rcu. rewrite Hx. cbn [mbind option_bind]. rewrite Hf. unfold task_ok in H.
  destruct (t_progress x) as [c fl st| |] eqn:Hp.
  - destruct H as (_ & _ & _ & _ & Hn & _). congruence.
  - pose proof H as (H1 & H2 & H3 & H4 & H5 & H6 & H7 & H8). pose proof (ti_refs _ _ I t) as Hr. destruct f; [congruence| |].
    + specialize (H6 Hf). rewrite H6, bool_decide_eq_true_2 in H5 by done. cbn in H5.
      eapply (put_inv w g g cur t x); [exact I|done|exact Hx|done..| |]; unfold attached_ok; cbn; rewrite H6; intros Hu.
      * rewrite (bool_decide_eq_false_2 (None = _)) by done. cbn. split_and!; try done; lia.
      * split; [done|]. rewrite (bool_decide_eq_false_2 (Some PutTaskCb = _)) by done. cbn. split_and!; try done; lia.
    + apply (put_last w g cur t x); try done; by apply H7.
  - destruct H as (Hr & Hst & Hn). rewrite Hf in Hn. injection Hn as ->. unfold __delayed_free_task, free_task. rewrite task_at. cbn [mbind option_bind stack_refcount to_rcu].
    rewrite Hst. cbn. eexists; split; [done|]. rewrite set_task_twice.
    eapply inv_change; [exact I|reflexivity| | |done|lia|done| | | |done|apply I].
    + apply sigs_same; [apply I|]. intros s. rewrite Hx. unfold same_in, part, on_signal, alive, grouped, in_group, in_signal, counted. by rewrite Hp.
    + apply hands_same; [apply I|]. intros h. rewrite Hx. unfold same_hand, part, on_sighand, has_hand. by rewrite Hp.
    + apply keeps_other. rewrite Hx. intros ? [= <-]. congruence.
    + by apply adds_none.
    + done.
Qed.

(** *** Exit *)

Lemma thread_exits_inv w g t x : task_inv w g -> tasks w !! t = Some x -> t_progress x = Attached -> exit_state x = false ->
  csum (built_by t) (tasks w) = 0 -> exists w', thread_exits t w = Some w' /\ task_inv w' g.
Proof.
  intros I Hx Hp He Hb. pose proof (attached w g t x I Hx Hp) as H. pose proof H as ([s Hs] & H2 & H3 & H4).
  assert (Hc : counted x = true) by (unfold counted; by rewrite Hp).
  destruct (group_there w g t x s I Hx Hc Hs) as (sig & Hsig & K1 & K2 & K3 & K4 & K5 & K6 & K7).
  unfold thread_exits. rewrite Hx. cbn [mbind option_bind]. rewrite Hs. cbn [mbind option_bind]. rewrite Hsig. cbn [mbind option_bind].
  assert (Hin : in_signal s x = true) by (by rewrite in_signal_at, Hs, bool_decide_eq_true_2).
  eexists; split; [done|]. eapply (inv_change _ _ _ g t (Some (to_exit x))); [exact I|reflexivity| | |done|apply I| | | | |done|].
  - change (tasks _) with (put_slot t (Some (to_exit x)) (tasks w)). cbn [signals set_task set_signal with_tasks with_signals].
    apply sigs_set; [apply I| |].
    + intros s' Hs'. eapply same_in_else; [|by intros ? [= <-]|exact Hs']. rewrite Hx. by intros ? [= <-].
    + cbn [sig_ok sig_counts sigcnt sig_live quick_threads nr_threads thread_head]. rewrite !csum_slot, Hx. cbn [part].
      assert (on_signal s (to_exit x) = on_signal s x) as -> by done.
      unfold alive at 2 3. change (in_signal s (to_exit x)) with (in_signal s x). rewrite Hin, He. cbn [exit_state to_exit negb andb b2z].
      split_and!; try done; try lia. intros u. rewrite K7. destruct (decide (u = t)) as [-> |Hu]; [|by rewrite lookup_slot_ne].
      rewrite lookup_slot, Hx. split; intros (? & [= <-] & Hg); eauto.
  - apply (hands_same (tasks w)); [apply I|]. intros h. by rewrite Hx.
  - apply task_ok_attached; [done|]. destruct H as (? & ? & ? & ? & ? & ? & ? & ?). unfold attached_ok. cbn. split_and!; try done; lia.
  - by apply keeps_idle.
  - intros y s' [= <-] Hi. left. by exists x.
  - intros y s' [= <-]. unfold own_group. cbn. by rewrite Hp.
  - cbn. by eapply shares_set; [apply I|exact Hsig|].
Qed.

Lemma filter_ne_id (t : nat) (l : list nat) : t ∉ l -> filter (.≠ t) l = l.
Proof.
  induction l as [|u l IH]; [done|]. intros [Hn Hl]%not_elem_of_cons. rewrite filter_cons_True by congruence. by rewrite IH.
Qed.

Lemma length_filter_ne (t : nat) (l : list nat) : NoDup l -> t ∈ l -> Z.of_nat (length (filter (.≠ t) l)) = Z.of_nat (length l) - 1.
Proof.
  induction 1 as [|u l Hu Hn IH]; [by intros ?%not_elem_of_nil|]. intros [-> |Ht]%elem_of_cons.
  - rewrite filter_cons_False by (by intros []). rewrite filter_ne_id by done. cbn. lia.
  - rewrite filter_cons_True by (by intros ->). cbn [length]. specialize (IH Ht). lia.
Qed.

Lemma cleanup_sighand_spec w h hd : sighands w !! h = Some hd ->
  __cleanup_sighand h w = Some (set_sighand h (if hand_count hd - 1 =? 0 then None else Some {| hand_count := hand_count hd - 1; hand_action := hand_action hd |}) w).
Proof. intros H. unfold __cleanup_sighand. by rewrite H. Qed.

(** A task gives its handlers up. *)
Lemma hand_dropped T t o h x hd : T !! t = Some x -> on_sighand h x = 1 -> part (on_sighand h) o = 0 -> hand_ok T h (Some hd) ->
  hand_ok (put_slot t o T) h (if hand_count hd - 1 =? 0 then None else Some {| hand_count := hand_count hd - 1; hand_action := hand_action hd |}).
Proof.
  intros Hx H1 H0 [Hc Hp]. assert (Hs : csum (on_sighand h) (put_slot t o T) = hand_count hd - 1) by (rewrite csum_slot, Hx, H0; cbn [part]; lia).
  destruct (Z.eqb_spec (hand_count hd - 1) 0); cbn; rewrite Hs; lia.
Qed.


Lemma reap_inv w g t x : task_inv w g -> tasks w !! t = Some x -> t_progress x = Attached -> exit_state x = true ->
  is_Some (t_sighand x) -> exists w', reap t w = Some w' /\ task_inv w' g.
Proof.
  intros I Hx Hp He [h Hh]. pose proof (attached w g t x I Hx Hp) as H. pose proof H as ([s Hs] & H2 & H3 & H4 & _).
  assert (Hc : counted x = true) by (unfold counted; by rewrite Hp). assert (Hd : has_hand x = true) by (unfold has_hand; by rewrite Hp).
  destruct (group_there w g t x s I Hx Hc Hs) as (sig & Hsig & K1 & K2 & K3 & K4 & K5 & K6 & K7).
  destruct (hand_there w g t x h I Hx Hd Hh) as (hd & Hhd & Khd).
  assert (Hin : in_signal s x = true) by (by rewrite in_signal_at, Hs, bool_decide_eq_true_2).
  rewrite Hh, bool_decide_eq_true_2 in H4 by done. cbn in H4.
  destruct (attached_used _ x (ti_refs _ _ I t) H ltac:(lia)) as [Hrc Hus].
  unfold reap. rewrite Hx. cbn [mbind option_bind]. rewrite Hs. cbn [mbind option_bind]. rewrite Hsig. cbn [mbind option_bind]. rewrite Hh. cbn [mbind option_bind].
  set (w1 := set_signal s _ w). rewrite (cleanup_sighand_spec _ h hd) by done. cbn [mbind option_bind].
  set (w2 := set_sighand h _ (set_task t _ w1)). assert (Hw2 : w2 = set_task t (Some (to_sighand None x)) (set_sighand h (sighands w2 !! h) w1)).
  { subst w2 w1. unfold set_task, set_sighand, set_signal, with_tasks, with_sighands, with_signals. cbn [tasks sighands signals mem]. by rewrite lookup_slot. }
  rewrite Hw2. set (y := to_sighand None x). destruct (rcu_user_spec (set_sighand h (sighands w2 !! h) w1) t y (c_refs g t) (ti_refs _ _ I t)) as [-> Hok];
    try done; cbn; [congruence|lia|].
  eexists; split; [done|]. eapply (inv_change _ _ _ g t (Some (drop_user y))); [exact I|reflexivity| | |done|apply I| | | | |done|].
  - change (tasks _) with (put_slot t (Some (drop_user y)) (tasks w)). change (signals _) with (put_slot s (Some (sig_counts (sigcnt sig) (sig_live sig)
      (nr_threads sig - 1) (quick_threads sig) (filter (.≠ t) (thread_head sig)) sig)) (signals w)). apply sigs_set; [apply I| |].
    + intros s' Hs'. eapply same_in_else; [|by intros ? [= <-]|exact Hs']. rewrite Hx. by intros ? [= <-].
    + cbn [sig_ok sig_counts sigcnt sig_live quick_threads nr_threads thread_head]. rewrite !csum_slot, Hx. cbn [part].
      assert (on_signal s (drop_user y) = on_signal s x) as -> by done.
      assert (alive s (drop_user y) = alive s x) as -> by done.
      assert (Ht : t ∈ thread_head sig).
      { apply K7. exists x. split; [done|]. unfold in_group. by rewrite Hin, Hh, bool_decide_eq_true_2. }
      split_and!; try done; try lia.
      * rewrite length_filter_ne by done. lia.
      * by apply NoDup_filter.
      * intros u. rewrite list_elem_of_filter, K7. destruct (decide (u = t)) as [-> |Hu]; [|by rewrite lookup_slot_ne; naive_solver].
        rewrite lookup_slot. split; [by intros []|]. intros (? & [= <-] & Hg). unfold in_group in Hg. cbn in Hg. by rewrite andb_false_r in Hg.
  - change (tasks _) with (put_slot t (Some (drop_user y)) (tasks w)). cbn [sighands set_task set_sighand with_sighands with_tasks]. subst w2.
    cbn [sighands set_task set_sighand set_signal with_sighands with_tasks with_signals w1]. rewrite lookup_slot.
    apply hands_set; [apply I| |].
    + intros h' Hh'. eapply same_hand_else; [rewrite Hx; intros ? [= <-] _; by left|intros ? [= <-] _; by right|exact Hh'].
    + eapply hand_dropped; [exact Hx| | |exact Khd].
      * unfold on_sighand. by rewrite Hd, Hh, bool_decide_eq_true_2.
      * cbn. unfold on_sighand. by rewrite bool_decide_eq_false_2, andb_false_r.
  - by apply task_ok_attached.
  - apply keeps_other. rewrite Hx. by intros ? [= <-].
  - intros z s' [= <-] Hi. left. by exists x.
  - intros z s' [= <-]. unfold own_group. cbn. by rewrite Hp.
  - cbn. by eapply shares_set; [apply I|exact Hsig|].
Qed.

(** *** Fork *)

Lemma fork_dup_inv w g cur p f c : task_inv w g -> tasks w !! cur = Some c -> t_progress c = Attached -> exit_state c = false ->
  tasks w !! p = None -> exists w', dup_task_struct cur p f w = Some w' /\ task_inv w' g.
Proof.
  intros I Hc Hp He Hn. unfold dup_task_struct. rewrite Hc. cbn [mbind option_bind]. eexists; split; [done|].
  pose proof (attached w g cur c I Hc Hp) as (Hs & H2 & _). destruct (H2 He) as [Hh _].
  eapply inv_change; [exact I|reflexivity| | |done|apply I| | | | |done|apply I].
  - apply sigs_same; [apply I|]. intros s. by rewrite Hn.
  - apply hands_same; [apply I|]. intros h. by rewrite Hn.
  - unfold task_ok. cbn [t_progress]. cbn. split_and!; try done; [by apply I|]. exists c. rewrite lookup_insert_ne by congruence. by split_and!.
  - apply keeps_other. by rewrite Hn.
  - apply adds_none. by intros ? [= <-].
  - by intros ? ? [= <-].
Qed.


(** What is left of a task whose fork failed. *)
Definition gone (x : task_struct) : option task_struct :=
  if config_memcg then Some (to_rcu (Some DelayedFreeTask) (to_progress Failed (to_counts (usage x) (rcu_users x) 0 x))) else None.

Lemma bad_fork_free_spec w p x : tasks w !! p = Some x -> stack_refcount x = 1 -> t_rcu x = None ->
  bad_fork_free p w = Some (set_task p (gone x) w).
Proof.
  intros Hx Hs Hr. unfold bad_fork_free, put_task_stack, gone, delayed_free_task. rewrite Hx. cbn [mbind option_bind]. rewrite task_at.
  cbn [mbind option_bind]. rewrite set_task_twice, Hs. destruct config_memcg.
  - unfold call_rcu. rewrite task_at. cbn [mbind option_bind t_rcu to_progress to_counts]. by rewrite Hr, set_task_twice.
  - unfold free_task. rewrite task_at. cbn [mbind option_bind]. by rewrite set_task_twice.
Qed.

Lemma gone_part phi x : (forall y, t_progress y = Failed -> phi y = 0) -> part phi (gone x) = 0.
Proof. intros H. unfold gone. destruct config_memcg; cbn; [by apply H|done]. Qed.

Lemma gone_counted x y : gone x = Some y -> counted y = false.
Proof. unfold gone. destruct config_memcg; [|done]. by intros [= <-]. Qed.

Lemma failed_zero y : t_progress y = Failed ->
  forall k, on_signal k y = 0 /\ alive k y = 0 /\ grouped k y = 0 /\ on_sighand k y = 0.
Proof. intros H k. unfold on_signal, alive, grouped, in_group, in_signal, counted, on_sighand, has_hand. by rewrite H. Qed.

Lemma gone_else s x o : (forall y, o = Some y -> in_signal s y = false) -> same_in s o (gone x).
Proof.
  intros H. unfold same_in. rewrite !(gone_part _ x) by (intros y Hy; by apply (failed_zero y Hy)).
  destruct o as [y|]; [|done]. cbn. unfold on_signal, alive, grouped, in_group. by rewrite (H y eq_refl).
Qed.

(** The fork of [p] has failed. *)
Lemma inv_gone w g w' p x y cur f st : task_inv w g -> tasks w !! p = Some x -> t_progress x = Building cur f st ->
  tasks w' = put_slot p (gone y) (tasks w) -> (forall s, sig_ok (tasks w') s (signals w' !! s)) ->
  (forall h, hand_ok (tasks w') h (sighands w' !! h)) -> mm_inv (mem w') (all_shares g (signals w')) -> task_inv w' g.
Proof.
  intros I Hx Hp Ht Hs Hh Hm. pose proof (ti_task _ _ I p x Hx) as H. unfold task_ok in H. rewrite Hp in H.
  destruct H as (_ & _ & _ & _ & _ & Hr & _). eapply inv_change; [exact I|exact Ht|exact Hs|exact Hh|done|apply I| | | | |done|exact Hm].
  - unfold gone. by destruct config_memcg.
  - apply keeps_other. rewrite Hx. intros ? [= <-]. congruence.
  - apply adds_none. apply gone_counted.
  - intros z s Hz Ho. apply own_group_in in Ho as [Ho _]. unfold in_signal in Ho. by rewrite (gone_counted _ _ Hz) in Ho.
Qed.

(** A step of the fork of [p] that goes well. *)
Lemma inv_built w g w' p x y cur f st : task_inv w g -> tasks w !! p = Some x -> t_progress x = Building cur f st ->
  tasks w' = put_slot p (Some y) (tasks w) -> (forall s, sig_ok (tasks w') s (signals w' !! s)) ->
  (forall h, hand_ok (tasks w') h (sighands w' !! h)) -> task_ok (tasks w) 0 y ->
  (match t_progress y with Building c _ _ => c <> p | _ => True end) -> adds (tasks w) p (Some y) ->
  (forall s, own_group y = Some s -> alone (tasks w') p s) -> mm_inv (mem w') (all_shares g (signals w')) -> task_inv w' g.
Proof.
  intros I Hx Hp Ht Hs Hh Hok Hcp Ha Ho Hm. pose proof (ti_task _ _ I p x Hx) as H. unfold task_ok in H. rewrite Hp in H.
  destruct H as (_ & _ & _ & _ & _ & Hr & _). eapply inv_change; [exact I|exact Ht|exact Hs|exact Hh|done|apply I| | |exact Ha| |done|exact Hm].
  - rewrite Hr. unfold task_ok in *. destruct (t_progress y) as [c fl s| |]; [|done..]. rewrite Ht, lookup_slot_ne by done. done.
  - apply keeps_other. rewrite Hx. intros ? [= <-]. congruence.
  - intros z s [= <-]. apply Ho.
Qed.


Lemma building w g p x cur f st : task_inv w g -> tasks w !! p = Some x -> t_progress x = Building cur f st ->
  stack_refcount x = 1 /\ t_rcu x = None /\ is_Some (t_signal x) /\ is_Some (t_sighand x) /\
  exists c, tasks w !! cur = Some c /\ cur <> p /\ t_progress c = Attached /\ exit_state c = false /\
    (st = Copied -> t_sighand x = t_sighand c) /\ (st <> HasSignal \/ is_own f = false -> t_signal x = t_signal c).
Proof.
  intros I Hx Hp. pose proof (ti_task _ _ I p x Hx) as H. unfold task_ok in H. rewrite Hp in H.
  destruct H as (_ & _ & ? & _ & ? & _ & ? & ? & c & Hc & Ha & He & H1 & H2). split_and!; try done. exists c. split_and!; try done. intros ->. congruence.
Qed.

(** The task [x] that is being built, further on. *)
Lemma task_ok_advance T x y cur f st f' st' : t_progress x = Building cur f st -> task_ok T 0 x -> t_progress y = Building cur f' st' ->
  usage y = usage x -> rcu_users y = rcu_users x -> stack_refcount y = stack_refcount x -> exit_state y = exit_state x -> t_rcu y = t_rcu x ->
  is_Some (t_signal y) -> is_Some (t_sighand y) -> (forall c, T !! cur = Some c -> parent_ok (Some c) x f st -> parent_ok (Some c) y f' st') -> task_ok T 0 y.
Proof.
  intros Hx H Hy E1 E2 E3 E4 E5 Hs Hh Hpar. unfold task_ok in *. rewrite Hx in H. rewrite Hy, E1, E2, E3, E4, E5.
  destruct H as (? & ? & ? & ? & ? & ? & _ & _ & Hp). split_and!; try done. pose proof Hp as (c & Hc & _). rewrite Hc in *. by apply Hpar.
Qed.

Lemma building_ok w g p x cur f st : task_inv w g -> tasks w !! p = Some x -> t_progress x = Building cur f st -> task_ok (tasks w) 0 x.
Proof.
  intros I Hx Hp. pose proof (ti_task _ _ I p x Hx) as H. unfold task_ok in *. rewrite Hp in *. by destruct H as (? & ? & ? & ? & ? & _ & ?).
Qed.

Lemma hand_added T p x y h hd : T !! p = Some x -> on_sighand h x = 0 -> on_sighand h y = 1 -> hand_ok T h (Some hd) ->
  hand_ok (put_slot p (Some y) T) h (Some {| hand_count := hand_count hd + 1; hand_action := hand_action hd |}).
Proof. intros Hx H0 H1 [Hc Hp]. cbn [hand_ok hand_count]. rewrite csum_slot, Hx. cbn [part]. lia. Qed.

Lemma hand_fresh T p x y h a : T !! p = Some x -> on_sighand h x = 0 -> on_sighand h y = 1 -> hand_ok T h None ->
  hand_ok (put_slot p (Some y) T) h (Some {| hand_count := 1; hand_action := a |}).
Proof. intros Hx H0 H1 Hc. cbn [hand_ok hand_count] in *. rewrite csum_slot, Hx. cbn [part]. lia. Qed.

Lemma zero_hand x h : has_hand x = false -> on_sighand h x = 0.
Proof. intros H. unfold on_sighand. by rewrite H. Qed.
Lemma one_hand x h : has_hand x = true -> t_sighand x = Some h -> on_sighand h x = 1.
Proof. intros H Hh. unfold on_sighand. by rewrite H, Hh, bool_decide_eq_true_2. Qed.

Lemma same_in_uncounted s x y : counted x = false -> counted y = false -> same_in s (Some x) (Some y).
Proof. intros H H'. unfold same_in, part, on_signal, alive, grouped, in_group, in_signal. by rewrite H, H'. Qed.

(** Before the handlers are there nothing is counted. *)
Lemma gone_early w g w' p x y cur f : task_inv w g -> tasks w !! p = Some x -> t_progress x = Building cur f Copied ->
  w' = set_task p (gone y) w -> task_inv w' g.
Proof.
  intros I Hx Hp ->. eapply inv_gone; [exact I|exact Hx|exact Hp|reflexivity| | |apply I].
  - apply sigs_same; [apply I|]. intros s. apply gone_else. rewrite Hx. intros ? [= <-]. unfold in_signal, counted. by rewrite Hp.
  - apply hands_same; [apply I|]. intros h. unfold same_hand. rewrite (gone_part _ y) by (intros z Hz; by apply (failed_zero z Hz)).
    rewrite Hx. symmetry. apply zero_hand. unfold has_hand. by rewrite Hp.
Qed.

Lemma advance_spec w p x cur f st : tasks w !! p = Some x -> advance p cur f st w = Some (set_task p (Some (to_progress (Building cur f st) x)) w).
Proof. intros H. unfold advance. by rewrite H. Qed.

(** The handlers are there, shared or new. *)
Lemma has_sighand_inv w g w' p x y cur f h o : task_inv w g -> tasks w !! p = Some x -> t_progress x = Building cur f Copied ->
  y = to_progress (Building cur f HasSighand) (to_sighand (Some h) x) ->
  tasks w' = put_slot p (Some y) (tasks w) -> signals w' = signals w -> sighands w' = put_slot h (Some o) (sighands w) -> mem w' = mem w ->
  hand_ok (tasks w') h (Some o) -> task_inv w' g.
Proof.
  intros I Hx Hp -> Ht Hs Hh Hm Ho. destruct (building w g p x cur f Copied I Hx Hp) as (Hst & Hrc & Hsig & _ & c & Hc & Hcp & Hca & Hce & _ & Hcs).
  eapply inv_built; [exact I|exact Hx|exact Hp|exact Ht| | | |done| | |rewrite Hs, Hm; apply I].
  - rewrite Ht, Hs. apply sigs_same; [apply I|]. intros s. rewrite Hx. apply same_in_uncounted; unfold counted; [by rewrite Hp|done].
  - rewrite Ht, Hh. apply hands_set; [apply I| |by rewrite <- Ht]. intros h' Hn. eapply same_hand_else; [| |exact Hn].
    + rewrite Hx. intros ? [= <-]. unfold has_hand. by rewrite Hp.
    + intros ? [= <-] _. by left.
  - eapply (task_ok_advance _ x); [exact Hp|by eapply building_ok|done..|]. cbn. intros c' Hc'. rewrite Hc in Hc'. injection Hc' as <-.
    intros _. exists c. split_and!; try done. intros _. apply Hcs. by left.
  - apply adds_none. by intros ? [= <-].
  - done.
Qed.

Lemma fork_sighand_inv w g p x cur f alloc : task_inv w g -> tasks w !! p = Some x -> t_progress x = Building cur f Copied ->
  (forall h, alloc = Some h -> sighands w !! h = None) ->
  exists w', ('(err, w) ← copy_sighand alloc cur f p w; if c_true err then bad_fork_free p w else advance p cur f HasSighand w) = Some w' /\ task_inv w' g.
Proof.
  intros I Hx Hp Hal. destruct (building w g p x cur f Copied I Hx Hp) as (Hst & Hrc & Hsig & _ & c & Hc & Hcp & Hca & Hce & Hsh & Hcs).
  specialize (Hsh eq_refl). pose proof (attached w g cur c I Hc Hca) as (_ & Hah & _). destruct (Hah Hce) as [[h Hh] _].
  assert (Hhc : has_hand c = true) by (unfold has_hand; by rewrite Hca). assert (Hhx : has_hand x = false) by (unfold has_hand; by rewrite Hp).
  destruct (hand_there w g cur c h I Hc Hhc Hh) as (hd & Hhd & Khd). unfold copy_sighand. rewrite Hc, Hx. cbn [mbind option_bind]. rewrite Hh. cbn [mbind option_bind].
  rewrite Hhd. cbn [mbind option_bind]. destruct (has f CLONE_SIGHAND).
  - cbn [mbind option_bind]. change (c_true 0) with false. cbv beta iota. rewrite (advance_spec _ p x) by done. eexists; split; [done|].
    assert (Hy : to_sighand (Some h) x = x) by (rewrite <- Hh, <- Hsh; by destruct x).
    eapply (has_sighand_inv w g _ p x _ cur f h); [exact I|exact Hx|exact Hp|reflexivity|cbn; by rewrite Hy|done..|].
    eapply hand_added; [exact Hx|by apply zero_hand|apply one_hand; [done|cbn; congruence]|done].
  - destruct alloc as [h'|].
    + cbn [mbind option_bind]. change (c_true 0) with false. cbv beta iota. rewrite (advance_spec _ p (to_sighand (Some h') x)) by (cbn; apply lookup_insert_eq).
      eexists; split; [done|]. eapply (has_sighand_inv w g _ p x _ cur f h'); [exact I|exact Hx|exact Hp|reflexivity| |done..|].
      * cbn. by rewrite insert_insert_eq.
      * pose proof (ti_hand _ _ I h') as Hz. rewrite (Hal h' eq_refl) in Hz. cbn [tasks set_task set_sighand with_tasks with_sighands].
        rewrite slot_slot. eapply hand_fresh; [exact Hx|by apply zero_hand|by apply one_hand|done].
    + cbn [mbind option_bind]. change (c_true (- ENOMEM)) with true. cbv beta iota. rewrite (bad_fork_free_spec _ p (to_sighand None x)) by (done || apply task_at).
      eexists; split; [done|]. eapply gone_early; [exact I|exact Hx|exact Hp|by rewrite set_task_twice].
Qed.


(** The end of a fork that fails after the handlers are there; [w1] may have lost the
    group already. *)
Lemma cleanup_gone w g w1 p x y cur f st : task_inv w g -> tasks w !! p = Some x -> t_progress x = Building cur f st -> st <> Copied ->
  tasks w1 = put_slot p (Some y) (tasks w) -> sighands w1 = sighands w -> t_sighand y = t_sighand x -> stack_refcount y = 1 -> t_rcu y = None ->
  (forall s, sig_ok (put_slot p (gone y) (tasks w)) s (signals w1 !! s)) -> mm_inv (mem w1) (all_shares g (signals w1)) ->
  exists w', bad_fork_cleanup_sighand p w1 = Some w' /\ task_inv w' g.
Proof.
  intros I Hx Hp Hne Ht Hh Ey Es Er Hs Hm. destruct (building w g p x cur f st I Hx Hp) as (_ & _ & _ & [h Hxh] & _).
  assert (Hxx : has_hand x = true) by (unfold has_hand; rewrite Hp; by destruct st).
  destruct (hand_there w g p x h I Hx Hxx Hxh) as (hd & Hhd & Khd).
  assert (Hy : tasks w1 !! p = Some y) by (by rewrite Ht, lookup_slot).
  unfold bad_fork_cleanup_sighand. rewrite Hy. cbn [mbind option_bind]. rewrite Ey, Hxh. cbn [mbind option_bind].
  rewrite (cleanup_sighand_spec w1 h hd) by congruence. cbn [mbind option_bind]. rewrite (bad_fork_free_spec _ p y) by done.
  eexists; split; [done|]. assert (Ht' : put_slot p (gone y) (tasks w1) = put_slot p (gone y) (tasks w)) by (by rewrite Ht, slot_slot).
  eapply inv_gone; [exact I|exact Hx|exact Hp|exact Ht'| | |exact Hm]; cbn [tasks set_task set_sighand with_tasks with_sighands signals sighands]; rewrite Ht'.
  - exact Hs.
  - rewrite Hh. apply hands_set; [apply I| |].
    + intros h' Hn. eapply same_hand_else; [| |exact Hn]; [rewrite Hx; intros ? [= <-] _; by left|]. intros z Hz Hhz. unfold gone in Hz.
      destruct config_memcg; [|done]. by injection Hz as <-.
    + eapply hand_dropped; [exact Hx|by apply one_hand| |done]. apply gone_part. intros z Hz. by apply (failed_zero z Hz).
Qed.

Lemma uncounted_else s x : counted x = false -> in_signal s x = false.
Proof. intros H. unfold in_signal. by rewrite H. Qed.

(** A group that nobody counts in has one member after [p] joined it. *)
Lemma alone_new T p x y s : T !! p = Some x -> csum (on_signal s) T = 0 -> alone (put_slot p (Some y) T) p s.
Proof.
  intros Hx H0 u z Hu Hz. destruct (decide (u = p)) as [|Hn]; [done|]. rewrite lookup_slot_ne in Hu by done.
  pose proof (in_signal_sum T u z s Hu Hz). lia.
Qed.

Lemma not_grouped_zero T s : csum (on_signal s) T = 0 -> forall u z, T !! u = Some z -> in_signal s z = false.
Proof. intros H u z Hu. destruct (in_signal s z) eqn:Hz; [|done]. pose proof (in_signal_sum T u z s Hu Hz). lia. Qed.

Lemma alive_zero T s : csum (on_signal s) T = 0 -> csum (alive s) T = 0.
Proof.
  intros H. apply csum_zero; [intros z; unfold alive; by destruct (_ && _)|]. intros u z Hu. unfold alive. by rewrite (not_grouped_zero T s H u z Hu).
Qed.

(** [p] founds group [s]. *)
Lemma sig_new T p x y s sig : T !! p = Some x -> counted x = false -> csum (on_signal s) T = 0 -> in_group s y = true -> exit_state y = false ->
  sigcnt sig = 1 -> sig_live sig = 1 -> nr_threads sig = 1 -> quick_threads sig = 1 -> thread_head sig = [p] ->
  sig_ok (put_slot p (Some y) T) s (Some sig).
Proof.
  intros Hx Hcx H0 Hg He E1 E2 E3 E4 E5. pose proof Hg as [Hi Hh]%andb_true_iff. cbn [sig_ok]. rewrite !csum_slot, Hx, H0, (alive_zero T s H0). cbn [part].
  unfold on_signal, alive. rewrite (uncounted_else s x Hcx), Hi, He, E1, E2, E3, E4, E5. cbn. split_and!; try done; [apply NoDup_singleton|].
  intros u. rewrite list_elem_of_singleton. split; [intros ->; exists y; by rewrite lookup_insert_eq|]. intros (z & Hz & Hgz).
  destruct (decide (u = p)) as [|Hn]; [done|]. rewrite lookup_insert_ne in Hz by done. apply andb_true_iff in Hgz as [Hgz _].
  by rewrite (not_grouped_zero T s H0 u z Hz) in Hgz.
Qed.

Lemma fork_signal_inv w g p x cur f alloc : task_inv w g -> tasks w !! p = Some x -> t_progress x = Building cur f HasSighand ->
  (forall s, alloc = Some s -> signals w !! s = None) ->
  exists w', ('(err, w) ← copy_signal alloc cur f p w; if c_true err then bad_fork_cleanup_sighand p w else advance p cur f HasSignal w) = Some w' /\
    task_inv w' g.
Proof.
  intros I Hx Hp Hal. destruct (building w g p x cur f _ I Hx Hp) as (Hst & Hrc & Hsig & Hhand & c & Hc & Hcp & Hca & Hce & _ & Hcs).
  specialize (Hcs ltac:(by left)). assert (Hcx : counted x = false) by (unfold counted; by rewrite Hp).
  assert (Hcc : counted c = true) by (unfold counted; by rewrite Hca).
  unfold copy_signal. destruct (has f CLONE_THREAD) eqn:Hf.
  - cbn [mbind option_bind]. change (c_true 0) with false. cbv beta iota. rewrite (advance_spec _ p x) by done. eexists; split; [done|].
    set (y := to_progress _ x). assert (Hcy : counted y = false) by (cbn; unfold is_own; by rewrite Hf).
    eapply inv_built; [exact I|exact Hx|exact Hp|reflexivity| | | |done|apply adds_none; by intros ? [= <-]| |apply I].
    + apply sigs_same; [apply I|]. intros s. rewrite Hx. by apply same_in_uncounted.
    + apply hands_same; [apply I|]. intros h. rewrite Hx. unfold same_hand, part, on_sighand, has_hand. by rewrite Hp.
    + eapply (task_ok_advance _ x); [exact Hp|by eapply building_ok|done..|]. intros c' Hc'. rewrite Hc in Hc'. injection Hc' as <-.
      intros _. exists c. by split_and!.
    + intros s [Ho _]%own_group_in. by rewrite (uncounted_else s y Hcy) in Ho.
  - pose proof Hsig as [cs Hcs']. rewrite Hcs in Hcs'. destruct (group_there w g cur c cs I Hc Hcc Hcs') as (csig & Hcsig & _).
    rewrite Hc, Hx. cbn [mbind option_bind]. rewrite Hcs'. cbn [mbind option_bind]. rewrite Hcsig. destruct alloc as [s|].
    + cbn [mbind option_bind]. change (c_true 0) with false. cbv beta iota.
      rewrite (advance_spec _ p (to_signal (Some s) x)) by (cbn; apply lookup_insert_eq). eexists; split; [done|].
      set (y := to_progress _ _). assert (Hg : in_group s y = true).
      { unfold in_group, in_signal. cbn. unfold is_own. rewrite Hf, bool_decide_eq_true_2 by done. cbn. destruct Hhand as [h ->]. by apply bool_decide_eq_true_2. }
      pose proof (ti_sig _ _ I s) as H0. rewrite (Hal s eq_refl) in H0. cbn [sig_ok] in H0.
      assert (Ht : put_slot p (Some y) (put_slot p (Some (to_signal (Some s) x)) (tasks w)) = put_slot p (Some y) (tasks w)) by apply slot_slot.
      eapply inv_built; [exact I|exact Hx|exact Hp|exact Ht| | | |done| | |].
      * cbn [tasks set_task set_signal with_tasks with_signals signals]. rewrite Ht. apply sigs_set; [apply I| |].
        -- intros s' Hn. eapply same_in_else; [| |exact Hn]; [rewrite Hx; intros ? [= <-]; congruence|by intros ? [= <-]].
        -- eapply sig_new; try done. pose proof (building_ok w g p x cur f _ I Hx Hp) as Hb. unfold task_ok in Hb. rewrite Hp in Hb. apply Hb.
      * cbn [tasks set_task set_signal with_tasks with_signals sighands]. rewrite Ht. apply hands_same; [apply I|]. intros h. rewrite Hx.
        unfold same_hand, part, on_sighand, has_hand. by rewrite Hp.
      * eapply (task_ok_advance _ x); [exact Hp|by eapply building_ok|done..|]. intros c' Hc'. rewrite Hc in Hc'. injection Hc' as <-.
        intros _. exists c. split_and!; try done. intros [|Ho]; [done|]. unfold is_own in Ho. by rewrite Hf in Ho.
      * intros z s' [= <-] Hi. right. right. unfold in_signal in Hi. apply andb_true_iff in Hi as [_ Hi]. apply bool_decide_eq_true in Hi.
        cbn in Hi. by injection Hi as <-.
      * intros s' Ho. unfold own_group in Ho. cbn in Ho. unfold is_own in Ho. rewrite Hf in Ho. injection Ho as <-.
        cbn [tasks set_task set_signal with_tasks with_signals]. rewrite Ht. by eapply alone_new.
      * cbn. apply shares_new; [apply I|by apply Hal|done].
    + cbn [mbind option_bind]. change (c_true (- ENOMEM)) with true. cbv beta iota. eapply (cleanup_gone w g _ p x (to_signal None x)); [exact I|exact Hx|exact Hp|done..| |apply I].
      apply sigs_same; [apply I|]. intros s. apply gone_else. rewrite Hx. intros ? [= <-]. by apply uncounted_else.
Qed.


Lemma signal_at s o w : signals (set_signal s o w) !! s = o.
Proof. apply lookup_slot. Qed.
Lemma tasks_set_signal s o w : tasks (set_signal s o w) = tasks w.
Proof. done. Qed.

Lemma fork_fail_inv w g p x cur f : task_inv w g -> tasks w !! p = Some x -> t_progress x = Building cur f HasSignal ->
  exists w', bad_fork_cleanup_signal f p w = Some w' /\ task_inv w' g.
Proof.
  intros I Hx Hp. destruct (building w g p x cur f _ I Hx Hp) as (Hst & Hrc & [s Hs] & _).
  unfold bad_fork_cleanup_signal. rewrite Hx. cbn [mbind option_bind]. destruct (has f CLONE_THREAD) eqn:Hf; cbn [negb mbind option_bind].
  - eapply (cleanup_gone w g w p x x); [exact I|exact Hx|exact Hp|done|cbn; by rewrite insert_id|done..| |apply I].
    apply sigs_same; [apply I|]. intros s'. apply gone_else. rewrite Hx. intros ? [= <-]. apply uncounted_else. unfold counted, is_own. by rewrite Hp, Hf.
  - assert (Ho : own_group x = Some s) by (unfold own_group, is_own; by rewrite Hp, Hf). pose proof (ti_own _ _ I p x s Hx Ho) as Hal.
    assert (Hc : counted x = true) by (unfold counted, is_own; by rewrite Hp, Hf).
    rewrite Hs. cbn [mbind option_bind]. destruct (group_there w g p x s I Hx Hc Hs) as (sig & Hsig & _). unfold free_signal_struct. rewrite Hsig. cbn [mbind option_bind].
    destruct (shares_free (mem w) g (signals w) s sig (ti_pos _ _ I) (ti_mm _ _ I) Hsig) as (m' & -> & Hm). cbn [mbind option_bind].
    eapply (cleanup_gone w g _ p x x); [exact I|exact Hx|exact Hp|done|cbn; by rewrite insert_id|done..| |exact Hm].
    cbn [signals set_signal with_signals with_mem]. apply sigs_set; [apply I| |].
    + intros s' Hn. eapply same_in_else; [| |exact Hn]; [rewrite Hx; by intros ? [= <-]|]. intros z Hz Hcz. by rewrite (gone_counted _ _ Hz) in Hcz.
    + cbn [sig_ok]. apply csum_zero; [apply on_signal_nonneg|]. intros u z Hu. unfold on_signal. destruct (decide (u = p)) as [-> |Hn].
      * rewrite lookup_slot in Hu. by rewrite (uncounted_else s z (gone_counted _ _ Hu)).
      * rewrite lookup_slot_ne in Hu by done. destruct (in_signal s z) eqn:Hz; [|done]. by destruct Hn; eapply Hal.
Qed.

Lemma attached_new x : usage x = 1 -> rcu_users x = 2 -> stack_refcount x = 1 -> t_rcu x = None -> is_Some (t_signal x) -> is_Some (t_sighand x) ->
  attached_ok 0 x.
Proof.
  intros H1 H2 H3 H4 H5 [h H6]. unfold attached_ok. rewrite H1, H2, H3, H4, H6, (bool_decide_eq_true_2 (Some h <> None)) by done. cbn.
  split_and!; try done; lia.
Qed.

Lemma fork_attach_inv w g p x cur f : task_inv w g -> tasks w !! p = Some x -> t_progress x = Building cur f HasSignal ->
  exists w', attach_task cur f p w = Some w' /\ task_inv w' g.
Proof.
  intros I Hx Hp. destruct (building w g p x cur f _ I Hx Hp) as (Hst & Hrc & [s Hs] & Hhand & c & Hc & Hcp & Hca & Hce & _ & Hcs).
  pose proof (building_ok w g p x cur f _ I Hx Hp) as Hb. unfold task_ok in Hb. rewrite Hp in Hb. destruct Hb as (B1 & B2 & B3 & B4 & B5 & _ & _ & _ & _).
  set (y := to_progress Attached x). assert (Hok : task_ok (tasks w) 0 y) by (apply task_ok_attached; [done|by apply attached_new; try done; exists s]).
  assert (Hhands : forall h, hand_ok (put_slot p (Some y) (tasks w)) h (sighands w !! h)).
  { apply hands_same; [apply I|]. intros h. rewrite Hx. unfold same_hand, part, on_sighand, has_hand. by rewrite Hp. }
  unfold attach_task. destruct (has f CLONE_THREAD) eqn:Hf; cbn [negb].
  - specialize (Hcs ltac:(right; unfold is_own; by rewrite Hf)). rewrite Hcs in Hs. assert (Hcc : counted c = true) by (unfold counted; by rewrite Hca).
    assert (Hcx : counted x = false) by (unfold counted, is_own; by rewrite Hp, Hf).
    destruct (group_there w g cur c s I Hc Hcc Hs) as (sig & Hsig & K1 & K2 & K3 & K4 & K5 & K6 & K7).
    rewrite Hc. cbn [mbind option_bind]. rewrite Hs. cbn [mbind option_bind]. rewrite Hsig. cbn [mbind option_bind]. rewrite tasks_set_signal, Hx.
    cbn [mbind option_bind]. rewrite Hcs, Hs. cbn [mbind option_bind]. rewrite signal_at. cbn [mbind option_bind]. rewrite !tasks_set_signal, Hx.
    cbn [mbind option_bind]. eexists; split; [done|].
    assert (Hiy : in_signal s y = true) by (unfold in_signal; cbn; by rewrite Hcs, Hs, bool_decide_eq_true_2).
    assert (Hgy : in_group s y = true) by (unfold in_group; rewrite Hiy; cbn; destruct Hhand as [h ->]; by apply bool_decide_eq_true_2).
    assert (Hnp : p ∉ thread_head sig).
    { rewrite K7. intros (z & Hz & Hgz). rewrite Hx in Hz. injection Hz as <-. unfold in_group in Hgz. by rewrite uncounted_else in Hgz. }
    eapply inv_built; [exact I|exact Hx|exact Hp|reflexivity| |exact Hhands|exact Hok|done| |done|].
    + change (tasks _) with (put_slot p (Some y) (tasks w)). cbn [signals set_task set_signal with_tasks with_signals]. rewrite slot_slot.
      apply sigs_set; [apply I| |].
      * intros s' Hn. eapply same_in_else; [| |exact Hn]; [rewrite Hx; intros ? [= <-]; congruence|intros ? [= <-] _; cbn; congruence].
      * cbn [sig_ok sig_counts sigcnt sig_live quick_threads nr_threads thread_head]. rewrite !csum_slot, Hx. cbn [part].
        unfold on_signal at 2 3, alive at 2 3. rewrite (uncounted_else s x Hcx), Hiy. change (exit_state y) with (exit_state x). rewrite B4. cbn [negb andb b2z].
        rewrite length_app. cbn [length]. split_and!; try done; try lia.
        -- apply NoDup_app. split_and!; [done|intros u Hu ->%list_elem_of_singleton; done|apply NoDup_singleton].
        -- intros u. rewrite elem_of_app, list_elem_of_singleton, K7. destruct (decide (u = p)) as [-> |Hn].
           ++ rewrite lookup_slot. split; [intros _; by exists y|by right].
           ++ rewrite lookup_slot_ne by done. split; [by intros [|]|by left].
    + intros z s' [= <-] Hi. right. left. exists cur, c. split_and!; try done. unfold in_signal in *. rewrite Hcc. apply andb_true_iff in Hi as [_ Hi].
      cbn in Hi. by rewrite <- Hcs.
    + cbn [signals set_task set_signal with_tasks with_signals mem]. rewrite slot_slot. by eapply shares_set; [apply I|exact Hsig|].
  - cbn [mbind option_bind]. rewrite Hx. cbn [mbind option_bind]. eexists; split; [done|].
    assert (Hin : forall k, in_signal k y = in_signal k x) by (intros k; unfold in_signal, counted, is_own; by rewrite Hp, Hf).
    eapply inv_built; [exact I|exact Hx|exact Hp|reflexivity| |exact Hhands|exact Hok|done| |done|apply I].
    + apply sigs_same; [apply I|]. intros k. rewrite Hx. unfold same_in, part, on_signal, alive, grouped, in_group. by rewrite Hin.
    + intros z k [= <-] Hi. left. exists x. by rewrite <- Hin.
Qed.


(** The allocators hand out free slots. *)
Definition fresh_for (st : stage) (alloc : option nat) (w : world) : Prop :=
  match st, alloc with
  | Copied, Some h => sighands w !! h = None
  | HasSighand, Some s => signals w !! s = None
  | _, _ => True
  end.

Lemma fork_step_inv w g p x cur f st alloc fail : task_inv w g -> tasks w !! p = Some x -> t_progress x = Building cur f st ->
  fresh_for st alloc w -> exists w', fork_step p alloc fail w = Some w' /\ task_inv w' g.
Proof.
  intros I Hx Hp Hf. unfold fork_step. rewrite Hx. cbn [mbind option_bind]. rewrite Hp. destruct st; cbn [fresh_for] in Hf.
  - destruct fail.
    + destruct (building w g p x cur f _ I Hx Hp) as (Hst & Hrc & _). rewrite (bad_fork_free_spec _ p x) by done. eexists; split; [done|].
      by eapply gone_early.
    + apply (fork_sighand_inv w g p x); try done. by intros h ->.
  - apply (fork_signal_inv w g p x); try done. by intros s ->.
  - destruct fail; [by eapply fork_fail_inv|by eapply fork_attach_inv].
Qed.

Lemma oom_victim_inv w g t x m : task_inv w g -> tasks w !! t = Some x -> t_progress x = Attached -> 0 < c_users (c_mm g) m ->
  exists w', oom_victim t m w = Some w' /\ task_inv w' g.
Proof.
  intros I Hx Hp Hu. pose proof (attached w g t x I Hx Hp) as ([s Hs] & _). assert (Hc : counted x = true) by (unfold counted; by rewrite Hp).
  destruct (group_there w g t x s I Hx Hc Hs) as (sig & Hsig & Hok). unfold oom_victim. rewrite Hx. cbn [mbind option_bind]. rewrite Hs.
  cbn [mbind option_bind]. rewrite Hsig. cbn [mbind option_bind]. destruct (oom_mm sig) eqn:Ho; [by exists w|].
  destruct (mmgrab_inv (mem w) (all_shares g (signals w)) m (ti_mm _ _ I)) as (m' & -> & I').
  { cbn. pose proof (ti_pos _ _ I m). pose proof (csum_nonneg _ (signals w) (oom_grab_nonneg m)). lia. }
  cbn [mbind option_bind]. eexists; split; [done|].
  constructor; cbn [tasks signals sighands mem set_signal with_signals with_mem]; try apply I.
  - intros k. destruct (decide (k = s)) as [-> |Hn]; [by rewrite lookup_slot|rewrite lookup_slot_ne by done; apply I].
  - eapply mm_inv_shares; [exact I'|try done..]. intros n. cbn [c_grabs all_shares add_grabs]. unfold shift. rewrite csum_slot, Hsig. cbn [part].
    unfold oom_grab at 2 3. rewrite Ho. cbn [oom_mm sig_oom]. rewrite (bool_decide_eq_false_2 (None = _)) by done.
    case_decide; subst; [rewrite bool_decide_eq_true_2 by done|rewrite bool_decide_eq_false_2 by congruence]; cbn; lia.
Qed.

(** What the others do with the address spaces, seen with everybody's shares. *)
Lemma allowed_lift op m g S : allowed op m (c_mm g) -> allowed op m (all_shares g S).
Proof.
  assert (Hn : forall n, 0 <= csum (oom_grab n) S) by (intros n; apply csum_nonneg, oom_grab_nonneg).
  destruct op; cbn in *; try done; specialize (Hn m0); lia.
Qed.

Lemma run_op_lift op m g S m' c' : run_op op m (all_shares g S) = Some (m', c') ->
  exists c, run_op op m (c_mm g) = Some (m', c) /\ (mm_inv m' c' -> mm_inv m' (all_shares {| c_refs := c_refs g; c_mm := c |} S)).
Proof.
  intros Hr. destruct op; cbn [run_op] in *; repeat case_match; simplify_eq; eexists; (split; [reflexivity|]); intros Hi; try exact Hi;
    (eapply mm_inv_shares; [exact Hi|intros n; cbn; unfold shift; try reflexivity; repeat case_decide; lia..]).
Qed.

(** Nobody's share of an address space gets negative. *)
Lemma run_op_pos op m c m' c' : pos c -> allowed op m c -> run_op op m c = Some (m', c') -> pos c'.
Proof.
  intros Hp Ha Hr. destruct op; cbn [run_op allowed] in *; repeat case_match; simplify_eq; try exact Hp; intros q; pose proof (Hp q); cbn; unfold shift;
    repeat case_decide; subst; lia.
Qed.


(** ** Histories *)

Inductive task_op :=
  | Fork (cur p : nat) (clone_flags : Z) | ForkStep (p : nat) (alloc : option nat) (fail : bool)
  | Exit (t : nat) | Reap (t : nat) | LastSwitch (t : nat)
  | GetTask (t : nat) | PutTask (cur t : nat) (defer : bool) | RunRcu (cur t : nat) (defer : bool)
  | OomVictim (t m : nat) | Mm (op : mm_op).

(** A running task forks; a fork goes on; a thread that builds nobody exits, is reaped
    once, and is switched away from once; references are taken on visible tasks that have
    one, and given back by who holds them; grace periods end; the address spaces are used
    as MmLife allows. *)
Definition task_allowed (op : task_op) (w : world) (g : holders) : Prop :=
  match op with
  | Fork cur p _ => tasks w !! p = None /\ exists c, tasks w !! cur = Some c /\ t_progress c = Attached /\ exit_state c = false
  | ForkStep p alloc _ => exists x cur f st, tasks w !! p = Some x /\ t_progress x = Building cur f st /\ fresh_for st alloc w
  | Exit t => csum (built_by t) (tasks w) = 0 /\ exists x, tasks w !! t = Some x /\ t_progress x = Attached /\ exit_state x = false
  | Reap t => exists x, tasks w !! t = Some x /\ t_progress x = Attached /\ exit_state x = true /\ is_Some (t_sighand x)
  | LastSwitch t => exists x, tasks w !! t = Some x /\ t_progress x = Attached /\ exit_state x = true /\ 0 < stack_refcount x
  | GetTask t => exists x, tasks w !! t = Some x /\ t_progress x = Attached /\ 0 < usage x
  | PutTask cur t _ => on_cpu cur w /\ 0 < c_refs g t
  | RunRcu cur t _ => on_cpu cur w /\ exists x f, tasks w !! t = Some x /\ t_rcu x = Some f
  | OomVictim t m => 0 < c_users (c_mm g) m /\ exists x, tasks w !! t = Some x /\ t_progress x = Attached
  | Mm op => allowed op (mem w) (c_mm g)
  end.

Definition task_run (op : task_op) (w : world) (g : holders) : option (world * holders) :=
  match op with
  | Fork cur p f => w ← dup_task_struct cur p f w; Some (w, g)
  | ForkStep p alloc fail => w ← fork_step p alloc fail w; Some (w, g)
  | Exit t => w ← thread_exits t w; Some (w, g)
  | Reap t => w ← reap t w; Some (w, g)
  | LastSwitch t => w ← last_switch t w; Some (w, g)
  | GetTask t => w ← get_task_struct t w; Some (w, add_ref 1 t g)
  | PutTask cur t defer => w ← put_task_struct cur t defer w; Some (w, add_ref (-1) t g)
  | RunRcu cur t defer => w ← run_rcu cur t defer w; Some (w, g)
  | OomVictim t m => w ← oom_victim t m w; Some (w, g)
  | Mm op => '(m, c) ← run_op op (mem w) (c_mm g); Some (with_mem m w, {| c_refs := c_refs g; c_mm := c |})
  end.

Lemma task_run_inv op w g : task_inv w g -> task_allowed op w g -> exists w' g', task_run op w g = Some (w', g') /\ task_inv w' g'.
Proof.
  intros I. destruct op; cbn [task_allowed task_run].
  - intros (Hn & c & Hc & Hp & He). destruct (fork_dup_inv w g cur p clone_flags c I Hc Hp He Hn) as (w' & -> & I'). by eexists _, _.
  - intros (x & cur & f & st & Hx & Hp & Hf). destruct (fork_step_inv w g p x cur f st alloc fail I Hx Hp Hf) as (w' & -> & I'). by eexists _, _.
  - intros (Hb & x & Hx & Hp & He). destruct (thread_exits_inv w g t x I Hx Hp He Hb) as (w' & -> & I'). by eexists _, _.
  - intros (x & Hx & Hp & He & Hh). destruct (reap_inv w g t x I Hx Hp He Hh) as (w' & -> & I'). by eexists _, _.
  - intros (x & Hx & Hp & He & Hh). destruct (last_switch_inv w g t x I Hx Hp He Hh) as (w' & -> & I'). by eexists _, _.
  - intros (x & Hx & Hp & Hu). destruct (get_task_inv w g t x I Hx Hp Hu) as (w' & -> & I'). by eexists _, _.
  - intros (Hc & Hr). destruct (put_task_inv w g cur t defer I Hc Hr) as (w' & -> & I'). by eexists _, _.
  - intros (Hc & x & f & Hx & Hf). destruct (run_rcu_inv w g cur t x f defer I Hc Hx Hf) as (w' & -> & I'). by eexists _, _.
  - intros (Hu & x & Hx & Hp). destruct (oom_victim_inv w g t x m I Hx Hp Hu) as (w' & -> & I'). by eexists _, _.
  - intros Ha. destruct (run_op_inv op _ _ (ti_mm _ _ I) (allowed_lift op _ g _ Ha)) as (m' & c' & Hr & Hi).
    destruct (run_op_lift _ _ _ _ _ _ Hr) as (c & Hc & Hm). rewrite Hc. cbn [mbind option_bind]. eexists _, _; split; [done|].
    constructor; try apply I; [eapply run_op_pos; [apply I|exact Ha|exact Hc]|auto].
Qed.

(** The beginning: one task, with these limits and handlers. *)
Definition first_task : task_struct :=
  {| t_signal := Some 0%nat; t_sighand := Some 0%nat; usage := 1; rcu_users := 2; stack_refcount := 1; exit_state := false; t_rcu := None;
     t_progress := Attached |}.
Definition first_world (l : list rlimit) (act : list Z) : world :=
  {| tasks := {[0%nat := first_task]};
     signals := {[0%nat := {| sigcnt := 1; sig_live := 1; nr_threads := 1; quick_threads := 1; thread_head := [0%nat]; curr_target := 0; sig_rlim := l;
                              cpu_timer_limit := cpu_rlim l; oom_score_adj := 0; oom_score_adj_min := 0; oom_mm := None |}]};
     sighands := {[0%nat := {| hand_count := 1; hand_action := act |}]};
     mem := mm_start |}.
Definition no_holders : holders := {| c_refs _ := 0; c_mm := nobody |}.

Inductive task_reachable : world -> holders -> Prop :=
  | task_start l act : task_reachable (first_world l act) no_holders
  | task_step op w g w' g' : task_reachable w g -> task_allowed op w g -> task_run op w g = Some (w', g') -> task_reachable w' g'.

Lemma csum_first {A} (phi : A -> Z) (x : A) : csum phi {[0%nat := x]} = phi x.
Proof. unfold csum. rewrite map_fold_singleton. lia. Qed.

Lemma task_reachable_inv w g : task_reachable w g -> task_inv w g.
Proof.
  induction 1 as [l act|op w g w' g' _ I Ha Hr].
  - constructor; cbn [tasks signals sighands mem first_world c_refs c_mm no_holders]; try done.
    + intros t tk [<- <-]%lookup_singleton_Some. by apply task_ok_attached, attached_new; try done; eexists.
    + intros p tk s [<- <-]%lookup_singleton_Some Ho. by apply own_group_in in Ho as [].
    + intros s. destruct (decide (s = 0%nat)) as [-> |Hn].
      * rewrite lookup_singleton_eq. cbn. rewrite !csum_first. split_and!; try done; [apply NoDup_singleton|]. intros t.
        rewrite list_elem_of_singleton. split; [intros ->; exists first_task; by rewrite lookup_singleton_eq|].
        by intros (tk & [<- _]%lookup_singleton_Some & _).
      * rewrite lookup_singleton_ne by done. cbn. rewrite csum_first. unfold on_signal, in_signal. cbn. by rewrite bool_decide_eq_false_2 by congruence.
    + intros h. destruct (decide (h = 0%nat)) as [-> |Hn].
      * rewrite lookup_singleton_eq. cbn. by rewrite !csum_first.
      * rewrite lookup_singleton_ne by done. cbn. rewrite csum_first. unfold on_sighand. cbn. by rewrite bool_decide_eq_false_2 by congruence.
    + by eapply mm_inv_shares; [apply reachable_inv, reach_start|..].
  - destruct (task_run_inv op w g I Ha) as (w1 & g1 & E1 & I1). rewrite E1 in Hr. by injection Hr as <- <-.
Qed.


(** A task that nobody holds, that is not built and that waits for nothing is not there. *)
Lemma unused_none w g : task_inv w g ->
  (forall t tk, tasks w !! t = Some tk ->
     (t_progress tk = Attached \/ t_progress tk = Failed) /\ stack_refcount tk = 0 /\ t_sighand tk = None /\ t_rcu tk = None /\ c_refs g t = 0) ->
  tasks w = ∅.
Proof.
  intros I Hq. apply map_empty. intros t. destruct (tasks w !! t) as [tk|] eqn:Ht; [|done]. exfalso.
  destruct (Hq t tk Ht) as ([Hp|Hp] & Hst & Hh & Hrcu & Hr).
  - destruct (attached w g t tk I Ht Hp) as (_ & _ & _ & Hu & Hc & _ & Hcb & _).
    rewrite Hst, Hh, bool_decide_eq_false_2 in Hu by (intros Hx; by apply Hx). rewrite Hr, Hu, Hrcu, bool_decide_eq_false_2 in Hc by done.
    apply Hcb in Hc. congruence.
  - pose proof (ti_task _ _ I t tk Ht) as H. unfold task_ok in H. rewrite Hp in H. destruct H as (_ & _ & H). congruence.
Qed.

(** With the last task every group and table is gone. *)
Lemma nothing_left w g : task_inv w g -> tasks w = ∅ -> tasks w = ∅ /\ signals w = ∅ /\ sighands w = ∅ /\ mm_inv (mem w) (c_mm g).
Proof.
  intros I He. assert (Hs : signals w = ∅).
  { apply map_empty. intros s. pose proof (ti_sig _ _ I s) as H. rewrite He in H. destruct (signals w !! s) as [sig|]; [|done].
    destruct H as (H1 & H2 & _). rewrite H1 in H2. done. }
  split_and!; [done..| |].
  - apply map_empty. intros h. pose proof (ti_hand _ _ I h) as H. rewrite He in H. destruct (sighands w !! h) as [hd|]; [|done].
    destruct H as (H1 & H2). rewrite H1 in H2. done.
  - pose proof (ti_mm _ _ I) as Hm. rewrite Hs in Hm. eapply mm_inv_shares; [exact Hm|try done..]. intros n. cbn [c_grabs all_shares].
    change (csum (oom_grab n) ∅) with 0. lia.
Qed.

(** C6: along every history in which tasks are forked step by step (shared or new handlers,
    threads or processes, failing anywhere), exit, are reaped and given back, in any order
    the callers' references permit: no operation touches a freed task, group or handler
    table, queues an rcu_head twice or runs into a WARN check.  The count of a visible task
    is the number of references others hold on it, and one more while it may run, has not
    been reaped or the end of its rcu_users waits for a grace period; a task whose count is
    zero, or whose fork failed, is there only while its memory waits for a grace period.  A
    group is there exactly while some task_struct counts in it, its sigcnt is the number of
    these, its live count those that have not exited, and its list holds each unreaped
    thread once, nr_threads of them; a handler table is there exactly while its count of
    tasks use it.  When no task is being built, may run, is unreaped, is referenced by
    anybody or waits for a grace period, no task is left at all, nor any group or table,
    and no address space is pinned by a group. *)
Theorem task_lifetimes w g : task_reachable w g ->
  (forall op, task_allowed op w g -> exists r, task_run op w g = Some r) /\
  (forall t tk, tasks w !! t = Some tk -> t_progress tk = Attached -> exists s sig, t_signal tk = Some s /\ signals w !! s = Some sig /\
     (t ∈ thread_head sig <-> t_sighand tk <> None) /\ (forall h, t_sighand tk = Some h -> is_Some (sighands w !! h))) /\
  (forall s sig, signals w !! s = Some sig ->
     0 < sigcnt sig /\ sigcnt sig = csum (on_signal s) (tasks w) /\ sig_live sig = csum (alive s) (tasks w) /\
     nr_threads sig = Z.of_nat (length (thread_head sig)) /\ NoDup (thread_head sig)) /\
  (forall h hd, sighands w !! h = Some hd -> 0 < hand_count hd /\ hand_count hd = csum (on_sighand h) (tasks w)) /\
  (forall t tk, tasks w !! t = Some tk -> t_progress tk = Attached ->
     rcu_users tk = stack_refcount tk + b2z (bool_decide (t_sighand tk <> None)) /\
     usage tk = c_refs g t + b2z ((0 <? rcu_users tk) || bool_decide (t_rcu tk = Some DelayedPutTask)) /\
     (usage tk = 0 -> t_rcu tk = Some PutTaskCb)) /\
  (forall t tk, tasks w !! t = Some tk -> t_progress tk = Failed -> t_rcu tk = Some DelayedFreeTask) /\
  ((forall t tk, tasks w !! t = Some tk ->
      (t_progress tk = Attached \/ t_progress tk = Failed) /\ stack_refcount tk = 0 /\ t_sighand tk = None /\ t_rcu tk = None /\ c_refs g t = 0) ->
   tasks w = ∅ /\ signals w = ∅ /\ sighands w = ∅ /\ mm_inv (mem w) (c_mm g)).
Proof.
  intros H. apply task_reachable_inv in H as I. clear H. split_and!.
  - intros op Ha. destruct (task_run_inv op w g I Ha) as (w' & g' & -> & _). by eexists.
  - intros t tk Ht Hp. pose proof (attached w g t tk I Ht Hp) as ([s Hs] & _).
    assert (Hc : counted tk = true) by (unfold counted; by rewrite Hp). assert (Hh : has_hand tk = true) by (unfold has_hand; by rewrite Hp).
    destruct (group_there w g t tk s I Ht Hc Hs) as (sig & Hsig & _ & _ & _ & _ & _ & _ & Hm). exists s, sig. split_and!; try done.
    + rewrite Hm. unfold in_group. split.
      * intros (x & Hx & [_ Hd%bool_decide_eq_true]%andb_true_iff). congruence.
      * intros Hd. exists tk. split; [done|]. by rewrite in_signal_at, Hs, !bool_decide_eq_true_2.
    + intros h Hth. destruct (hand_there w g t tk h I Ht Hh Hth) as (hd & -> & _). done.
  - intros s sig Hs. pose proof (ti_sig _ _ I s) as H. rewrite Hs in H. destruct H as (? & ? & ? & ? & ? & ? & ?). by split_and!.
  - intros h hd Hh. pose proof (ti_hand _ _ I h) as H. rewrite Hh in H. by destruct H.
  - intros t tk Ht Hp. destruct (attached w g t tk I Ht Hp) as (_ & _ & _ & Hu & Hc & _ & Hcb & _). split_and!; [done..|]. by apply Hcb.
  - intros t tk Ht Hp. pose proof (ti_task _ _ I t tk Ht) as H. unfold task_ok in H. rewrite Hp in H. apply H.
  - intros Hq. by apply nothing_left; [|eapply unused_none].
Qed.

(** ** A fork that fails *)

(** The steps of one fork, nobody else in between; the allocators hand out free slots. *)
Fixpoint fork_run (p : nat) (l : list (option nat * bool)) (w : world) : option world :=
  match l with
  | [] => Some w
  | (alloc, fail) :: l =>
      tk ← tasks w !! p;
      let free := match t_progress tk, alloc with
                  | Building _ _ Copied, Some h => bool_decide (sighands w !! h = None)
                  | Building _ _ HasSighand, Some s => bool_decide (signals w !! s = None)
                  | _, _ => true
                  end in
      if free then w ← fork_step p alloc fail w; fork_run p l w else None
  end.

(** One task less uses handlers [h]. *)
Definition unshare_hand (h : nat) (hd : sighand_struct) (H : gmap nat sighand_struct) : gmap nat sighand_struct :=
  put_slot h (if hand_count hd - 1 =? 0 then None else Some {| hand_count := hand_count hd - 1; hand_action := hand_action hd |}) H.

(** The handlers of the new task [x]: those of the caller, counted once more, or a table of
    its own with a copy of the actions, or with the flushed ones. *)
Definition hand_made (w : world) (ch : nat) (f : Z) (x : task_struct) (H : gmap nat sighand_struct) : Prop :=
  exists hd, sighands w !! ch = Some hd /\
    if has f CLONE_SIGHAND
    then t_sighand x = Some ch /\ H = <[ch := {| hand_count := hand_count hd + 1; hand_action := hand_action hd |}]> (sighands w)
    else exists h, t_sighand x = Some h /\ sighands w !! h = None /\
      H = <[h := {| hand_count := 1;
                    hand_action := if has f CLONE_CLEAR_SIGHAND then flush_signal_handlers (hand_action hd) else hand_action hd |}]> (sighands w).

(** The group of a new process [p]: alone in it, with the limits and the OOM score of the
    group of the caller. *)
Definition group_made (w : world) (cs p : nat) (x : task_struct) (S : gmap nat signal_struct) : Prop :=
  exists sig s, signals w !! cs = Some sig /\ t_signal x = Some s /\ signals w !! s = None /\
    S = <[s := {| sigcnt := 1; sig_live := 1; nr_threads := 1; quick_threads := 1; thread_head := [p]; curr_target := p;
                  sig_rlim := sig_rlim sig; cpu_timer_limit := cpu_rlim (sig_rlim sig); oom_score_adj := oom_score_adj sig;
                  oom_score_adj_min := oom_score_adj_min sig; oom_mm := None |}]> (signals w).

(** The group of the caller with the new thread [p] in it. *)
Definition group_joined (w : world) (cs p : nat) (x : task_struct) (S : gmap nat signal_struct) : Prop :=
  exists sig, signals w !! cs = Some sig /\ t_signal x = Some cs /\
    S = <[cs := sig_counts (sigcnt sig + 1) (sig_live sig + 1) (nr_threads sig + 1) (quick_threads sig + 1) (thread_head sig ++ [p]) sig]> (signals w).

(** What a finished fork made of [w]: one more task, of the kind its flags say. *)
Definition fork_made (w : world) (c : task_struct) (p : nat) (f : Z) (w' : world) : Prop :=
  exists x ch cs, tasks w' = <[p := x]> (tasks w) /\ t_sighand c = Some ch /\ t_signal c = Some cs /\
    t_progress x = Attached /\ usage x = 1 /\ rcu_users x = 2 /\ stack_refcount x = 1 /\ exit_state x = false /\ t_rcu x = None /\
    hand_made w ch f x (sighands w') /\
    (if has f CLONE_THREAD then group_joined w cs p x (signals w') else group_made w cs p x (signals w')) /\
    mem w' = mem w.

(** The world [w], with [p] half built in it by a task with handlers [ch]. *)
Record half_built (w : world) (ch cur : nat) (f : Z) (p : nat) (st : stage) (x : task_struct) (w1 : world) : Prop := {
  hb_progress : t_progress x = Building cur f st;
  hb_stack : stack_refcount x = 1;
  hb_rcu : t_rcu x = None;
  hb_tasks : tasks w1 = put_slot p (Some x) (tasks w);
  hb_mem : mem w1 = mem w;
  hb_copied : st = Copied -> t_sighand x = Some ch /\ sighands w1 = sighands w;
  hb_hand : st <> Copied -> exists h hd, t_sighand x = Some h /\ sighands w1 !! h = Some hd /\ unshare_hand h hd (sighands w1) = sighands w;
  hb_own : st = HasSignal -> is_own f = true ->
    exists s sig, t_signal x = Some s /\ signals w1 !! s = Some sig /\ oom_mm sig = None /\ put_slot s None (signals w1) = signals w;
  hb_signals : st <> HasSignal \/ is_own f = false -> signals w1 = signals w;
  hb_counts : usage x = 1 /\ rcu_users x = 2 /\ exit_state x = false;
  hb_made : st <> Copied -> hand_made w ch f x (sighands w1);
  hb_group : st <> HasSignal \/ is_own f = false -> tasks w !! cur ≫= t_signal = t_signal x;
  hb_founded : st = HasSignal -> is_own f = true -> exists cs, tasks w !! cur ≫= t_signal = Some cs /\ group_made w cs p x (signals w1)
}.

(** Nothing of [p] is left but memory that waits for a grace period. *)
Definition restored (w : world) (p : nat) (w1 : world) : Prop :=
  (exists x, tasks w1 = put_slot p (gone x) (tasks w)) /\ signals w1 = signals w /\ sighands w1 = sighands w /\ mem w1 = mem w.

Section failing.
Context (w : world) (cur p ch : nat) (f : Z) (c : task_struct) (chd : sighand_struct).
Context (Hc : tasks w !! cur = Some c) (Hcp : cur <> p) (Hch : t_sighand c = Some ch) (Hhd : sighands w !! ch = Some chd) (Hpos : 0 < hand_count chd).

Lemma half_cleanup st x y w1 : half_built w ch cur f p st x w1 -> st <> Copied -> forall w2, tasks w2 = put_slot p (Some y) (tasks w1) ->
  sighands w2 = sighands w1 -> t_sighand y = t_sighand x -> stack_refcount y = 1 -> t_rcu y = None -> signals w2 = signals w -> mem w2 = mem w ->
  exists w3, bad_fork_cleanup_sighand p w2 = Some w3 /\ restored w p w3.
Proof.
  intros B Hst w2 Ht Hh Ey Es Er Hs Hm. destruct (hb_hand _ _ _ _ _ _ _ _ B Hst) as (h & hd & Hxh & Hw1 & Hback).
  unfold bad_fork_cleanup_sighand. rewrite Ht, lookup_slot. cbn [mbind option_bind]. rewrite Ey, Hxh. cbn [mbind option_bind].
  rewrite (cleanup_sighand_spec w2 h hd) by congruence. cbn [mbind option_bind].
  rewrite (bad_fork_free_spec _ p y) by (try done; cbn; by rewrite Ht, lookup_slot). eexists; split; [done|]. split_and!; try done.
  - exists y. cbn [tasks set_task set_sighand with_tasks with_sighands]. by rewrite Ht, (hb_tasks _ _ _ _ _ _ _ _ B), !slot_slot.
  - cbn [sighands set_task set_sighand with_tasks with_sighands]. by rewrite Hh.
Qed.

Lemma half_copied x w1 alloc fail w2 : half_built w ch cur f p Copied x w1 -> (forall h, alloc = Some h -> sighands w1 !! h = None) ->
  fork_step p alloc fail w1 = Some w2 -> (exists y, half_built w ch cur f p HasSighand y w2) \/ restored w p w2.
Proof.
  intros B Hfr. destruct (hb_copied _ _ _ _ _ _ _ _ B eq_refl) as [Hxs Hsh]. pose proof (hb_tasks _ _ _ _ _ _ _ _ B) as Ht.
  assert (Hx : tasks w1 !! p = Some x) by (by rewrite Ht, lookup_slot). assert (Hc1 : tasks w1 !! cur = Some c) by (by rewrite Ht, lookup_slot_ne).
  pose proof (hb_signals _ _ _ _ _ _ _ _ B ltac:(by left)) as Hs. pose proof (hb_mem _ _ _ _ _ _ _ _ B) as Hm.
  unfold fork_step. rewrite Hx. cbn [mbind option_bind]. rewrite (hb_progress _ _ _ _ _ _ _ _ B). destruct fail.
  - rewrite (bad_fork_free_spec _ p x) by (done || apply B). intros [= <-]. right. split_and!; try done. exists x. cbn [tasks set_task with_tasks]. by rewrite Ht, slot_slot.
  - unfold copy_sighand. rewrite Hc1, Hx. cbn [mbind option_bind]. rewrite Hch. cbn [mbind option_bind]. rewrite Hsh, Hhd. cbn [mbind option_bind].
    destruct (has f CLONE_SIGHAND) eqn:Hsc.
    + cbn [mbind option_bind]. change (c_true 0) with false. cbv beta iota. rewrite (advance_spec _ p x) by done. intros [= <-]. left.
      exists (to_progress (Building cur f HasSighand) x).
      constructor; try done; try apply B; [cbn [tasks set_task set_sighand with_tasks with_sighands]; by rewrite Ht, slot_slot| | |].
      2:{ intros _. exists chd. rewrite Hsc. split; [done|]. split; [done|]. cbn. by rewrite Hsh. }
      2:{ intros _. by apply (hb_group _ _ _ _ _ _ _ _ B); left. }
      intros _. exists ch, {| hand_count := hand_count chd + 1; hand_action := hand_action chd |}. split_and!; [done|cbn; apply lookup_insert_eq|].
      unfold unshare_hand. cbn [hand_count hand_action sighands set_task set_sighand with_tasks with_sighands]. rewrite slot_slot, Hsh.
      replace (hand_count chd + 1 - 1) with (hand_count chd) by lia. rewrite (proj2 (Z.eqb_neq _ _)) by lia.
      rewrite <- (slot_id ch (sighands w)) at 2. rewrite Hhd. by destruct chd.
    + destruct alloc as [h|].
      * cbn [mbind option_bind]. change (c_true 0) with false. cbv beta iota. rewrite (advance_spec _ p (to_sighand (Some h) x)) by (cbn; apply lookup_insert_eq).
        intros [= <-]. left. exists (to_progress (Building cur f HasSighand) (to_sighand (Some h) x)). constructor; try done; try apply B.
        -- cbn [tasks set_task set_sighand with_tasks with_sighands]. by rewrite Ht, !slot_slot.
        -- intros _. eexists h, _. split_and!; [done|cbn; apply lookup_insert_eq|]. unfold unshare_hand. cbn [hand_count sighands set_task set_sighand with_tasks with_sighands].
           change (1 - 1 =? 0) with true. cbv iota. rewrite slot_slot. specialize (Hfr h eq_refl). rewrite Hsh in *. cbn. by apply delete_id.
        -- intros _. exists chd. rewrite Hsc. split; [done|]. exists h. specialize (Hfr h eq_refl). rewrite Hsh in Hfr. split_and!; [done..|]. cbn. by rewrite Hsh.
        -- intros _. by apply (hb_group _ _ _ _ _ _ _ _ B); left.
      * cbn [mbind option_bind]. change (c_true (- ENOMEM)) with true. cbv beta iota. rewrite (bad_fork_free_spec _ p (to_sighand None x)) by (apply B || apply task_at).
        intros [= <-]. right. split_and!; try done. exists (to_sighand None x). cbn [tasks set_task with_tasks]. by rewrite Ht, !slot_slot.
Qed.

Lemma half_sighand x w1 alloc fail w2 : half_built w ch cur f p HasSighand x w1 -> (forall s, alloc = Some s -> signals w1 !! s = None) ->
  fork_step p alloc fail w1 = Some w2 -> (exists y, half_built w ch cur f p HasSignal y w2) \/ restored w p w2.
Proof.
  intros B Hfr. pose proof (hb_tasks _ _ _ _ _ _ _ _ B) as Ht. destruct (hb_hand _ _ _ _ _ _ _ _ B ltac:(done)) as (h & hd & Hback).
  assert (Hx : tasks w1 !! p = Some x) by (by rewrite Ht, lookup_slot). assert (Hc1 : tasks w1 !! cur = Some c) by (by rewrite Ht, lookup_slot_ne).
  pose proof (hb_signals _ _ _ _ _ _ _ _ B ltac:(by left)) as Hs. pose proof (hb_mem _ _ _ _ _ _ _ _ B) as Hm.
  unfold fork_step. rewrite Hx. cbn [mbind option_bind]. rewrite (hb_progress _ _ _ _ _ _ _ _ B). unfold copy_signal. destruct (has f CLONE_THREAD) eqn:Hf.
  - cbn [mbind option_bind]. change (c_true 0) with false. cbv beta iota. rewrite (advance_spec _ p x) by done. intros [= <-]. left.
    exists (to_progress (Building cur f HasSignal) x). constructor; try done; try apply B.
    + cbn [tasks set_task with_tasks]. by rewrite Ht, slot_slot.
    + intros _. by exists h, hd.
    + intros _. unfold is_own. by rewrite Hf.
    + intros _. apply (hb_made _ _ _ _ _ _ _ _ B). done.
    + intros _. apply (hb_group _ _ _ _ _ _ _ _ B). by left.
    + intros _. unfold is_own. by rewrite Hf.
  - rewrite Hc1, Hx. cbn [mbind option_bind]. destruct (t_signal c) as [cs|] eqn:Hcs; [|done]. cbn [mbind option_bind].
    destruct (signals w1 !! cs) as [csig|] eqn:Hcsig; [|done]. cbn [mbind option_bind]. destruct alloc as [s|]; cbn [mbind option_bind].
    + change (c_true 0) with false. cbv beta iota. rewrite (advance_spec _ p (to_signal (Some s) x)) by (cbn; apply lookup_insert_eq).
      intros [= <-]. left. exists (to_progress (Building cur f HasSignal) (to_signal (Some s) x)). constructor; try done; try apply B.
      * cbn [tasks set_task set_signal with_tasks with_signals]. by rewrite Ht, !slot_slot.
      * intros _. by exists h, hd.
      * intros _ _. eexists s, _. split_and!; [done|cbn; apply lookup_insert_eq|done|]. cbn [signals set_task set_signal with_tasks with_signals].
        rewrite slot_slot, Hs. specialize (Hfr s eq_refl). rewrite Hs in Hfr. cbn. by apply delete_id.
      * intros [|Ho]; [done|]. unfold is_own in Ho. by rewrite Hf in Ho.
      * intros _. apply (hb_made _ _ _ _ _ _ _ _ B). done.
      * intros [|Ho]; [done|]. unfold is_own in Ho. by rewrite Hf in Ho.
      * intros _ _. exists cs. rewrite Hc. cbn [mbind option_bind]. split; [done|]. exists csig, s. specialize (Hfr s eq_refl). rewrite Hs in Hfr, Hcsig.
        split_and!; [done..|]. cbn. by rewrite Hs.
    + change (c_true (- ENOMEM)) with true. cbv beta iota. intros E2. right.
      destruct (half_cleanup HasSighand x (to_signal None x) w1 B ltac:(done) (set_task p (Some (to_signal None x)) w1)) as (w3 & E3 & R); try done; try apply B.
      by rewrite E3 in E2; injection E2 as <-.
Qed.

Lemma half_attach x w1 w2 : half_built w ch cur f p HasSignal x w1 -> attach_task cur f p w1 = Some w2 -> fork_made w c p f w2.
Proof.
  intros B. pose proof (hb_tasks _ _ _ _ _ _ _ _ B) as Ht. assert (Hx : tasks w1 !! p = Some x) by (by rewrite Ht, lookup_slot).
  assert (Hc1 : tasks w1 !! cur = Some c) by (by rewrite Ht, lookup_slot_ne). destruct (hb_counts _ _ _ _ _ _ _ _ B) as (Hu & Hru & He).
  pose proof (hb_made _ _ _ _ _ _ _ _ B ltac:(done)) as Hh. pose proof (hb_mem _ _ _ _ _ _ _ _ B) as Hm.
  unfold attach_task. destruct (has f CLONE_THREAD) eqn:Hf; cbn [negb].
  - pose proof (hb_group _ _ _ _ _ _ _ _ B ltac:(right; unfold is_own; by rewrite Hf)) as Hg. rewrite Hc in Hg. cbn [mbind option_bind] in Hg.
    pose proof (hb_signals _ _ _ _ _ _ _ _ B ltac:(right; unfold is_own; by rewrite Hf)) as Hs.
    rewrite Hc1. cbn [mbind option_bind]. destruct (t_signal c) as [cs|] eqn:Hcs; [|done]. cbn [mbind option_bind].
    destruct (signals w1 !! cs) as [sig|] eqn:Hsig; [|done]. cbn [mbind option_bind]. rewrite tasks_set_signal, Hx. cbn [mbind option_bind].
    rewrite <- Hg. cbn [mbind option_bind]. rewrite signal_at. cbn [mbind option_bind]. rewrite !tasks_set_signal, Hx. cbn [mbind option_bind].
    intros [= <-]. exists (to_progress Attached x), ch, cs. rewrite Hf. split_and!; try done; try apply B.
    + cbn [tasks set_task set_signal with_tasks with_signals]. by rewrite Ht, slot_slot.
    + rewrite Hs in Hsig. exists sig. split_and!; try done. cbn [signals set_task set_signal with_tasks with_signals]. by rewrite slot_slot, Hs.
  - cbn [mbind option_bind]. rewrite Hx. cbn [mbind option_bind]. intros [= <-].
    destruct (hb_founded _ _ _ _ _ _ _ _ B eq_refl ltac:(unfold is_own; by rewrite Hf)) as (cs & Hcs & Hg). rewrite Hc in Hcs. cbn [mbind option_bind] in Hcs.
    exists (to_progress Attached x), ch, cs. rewrite Hf. split_and!; try done; try apply B.
    cbn [tasks set_task with_tasks]. by rewrite Ht, slot_slot.
Qed.

Lemma half_signal x w1 alloc fail w2 : half_built w ch cur f p HasSignal x w1 -> fork_step p alloc fail w1 = Some w2 ->
  fork_made w c p f w2 \/ restored w p w2.
Proof.
  intros B. pose proof (hb_tasks _ _ _ _ _ _ _ _ B) as Ht. assert (Hx : tasks w1 !! p = Some x) by (by rewrite Ht, lookup_slot).
  unfold fork_step. rewrite Hx. cbn [mbind option_bind]. rewrite (hb_progress _ _ _ _ _ _ _ _ B).
  destruct fail.
  - unfold bad_fork_cleanup_signal. rewrite Hx. cbn [mbind option_bind]. intros E2. right.
    assert (Hid : put_slot p (Some x) (tasks w1) = tasks w1) by (by rewrite Ht, slot_slot).
    destruct (has f CLONE_THREAD) eqn:Hf; cbn [negb mbind option_bind] in E2.
    + destruct (half_cleanup HasSignal x x w1 B ltac:(done) w1) as (w3 & E3 & R);
        [by rewrite Hid|done|done|apply B|apply B|apply B; right; unfold is_own; by rewrite Hf|apply B|].
      rewrite E3 in E2. by injection E2 as <-.
    + assert (Ho : is_own f = true) by (unfold is_own; by rewrite Hf).
      destruct (hb_own _ _ _ _ _ _ _ _ B eq_refl Ho) as (s & sig & Hxs & Hsig & Hoom & Hback). rewrite Hxs in E2. cbn [mbind option_bind] in E2.
      unfold free_signal_struct in E2. rewrite Hsig in E2. cbn [mbind option_bind] in E2. rewrite Hoom in E2. cbn [mbind option_bind] in E2.
      destruct (half_cleanup HasSignal x x w1 B ltac:(done) (set_signal s None (with_mem (mem w1) w1))) as (w3 & E3 & R);
        [by symmetry|done|done|apply B|apply B|done|apply B|].
      rewrite E3 in E2. by injection E2 as <-.
  - intros E2. left. by apply (half_attach x w1).
Qed.
End failing.


(** What the world is after some steps of the fork: half built, or at the end. *)
Definition forked (w : world) (c : task_struct) (ch cur : nat) (f : Z) (p : nat) (w' : world) : Prop :=
  (exists x st, half_built w ch cur f p st x w') \/ fork_made w c p f w' \/ restored w p w'.

Lemma at_the_end w1 p l w' : (forall x c f st, tasks w1 !! p = Some x -> t_progress x <> Building c f st) -> fork_run p l w1 = Some w' -> w' = w1.
Proof.
  intros H. destruct l as [|[alloc fail] l]; [by intros [= <-]|]. cbn [fork_run]. destruct (tasks w1 !! p) as [x|] eqn:Hx; [|done]. cbn [mbind option_bind].
  unfold fork_step. rewrite Hx. cbn [mbind option_bind]. specialize (H x). destruct (t_progress x) as [c f st| |]; [by destruct (H c f st)|done..].
Qed.

Lemma fork_run_forked w cur p ch f c chd l : tasks w !! cur = Some c -> cur <> p -> t_sighand c = Some ch -> sighands w !! ch = Some chd ->
  0 < hand_count chd -> forall st x w1 w', half_built w ch cur f p st x w1 -> fork_run p l w1 = Some w' -> forked w c ch cur f p w'.
Proof.
  intros Hc Hcp Hch Hhd Hpos. induction l as [|[alloc fail] l IH]; intros st x w1 w' B; [intros [= <-]; left; by exists x, st|].
  cbn [fork_run]. assert (Hx : tasks w1 !! p = Some x) by (by rewrite (hb_tasks _ _ _ _ _ _ _ _ B), lookup_slot). rewrite Hx. cbn [mbind option_bind].
  rewrite (hb_progress _ _ _ _ _ _ _ _ B). case_if; [|done]. destruct (fork_step p alloc fail w1) as [w2|] eqn:E2; [|done]. cbn [mbind option_bind]. intros E3.
  assert (Hend : restored w p w2 -> forked w c ch cur f p w').
  { intros R. right. right. pose proof R as ((y & Hy) & _). rewrite (at_the_end w2 p l w'); [exact R| |exact E3].
    intros z c' f' st'. rewrite Hy, lookup_slot. unfold gone. destruct config_memcg; [|done]. by intros [= <-]. }
  destruct st.
  - destruct (half_copied w cur p ch f c chd Hc Hcp Hch Hhd Hpos x w1 alloc fail w2 B) as [[y By]|R]; [|done|by eapply IH|auto].
    intros h ->. by apply bool_decide_eq_true in Hif.
  - destruct (half_sighand w cur p ch f c Hc Hcp x w1 alloc fail w2 B) as [[y By]|R]; [|done|by eapply IH|auto].
    intros s ->. by apply bool_decide_eq_true in Hif.
  - destruct (half_signal w cur p ch f c Hc Hcp Hch x w1 alloc fail w2 B E2) as [M|R]; [|auto]. right. left.
    rewrite (at_the_end w2 p l w'); [exact M| |exact E3]. destruct M as (y & _ & _ & Hy & _ & _ & Ha & _).
    intros z c' f' st'. rewrite Hy, lookup_insert_eq. intros [= <-]. congruence.
Qed.

(** C13: what a fork comes to when it is run to its end with nobody in between.  If it
    fails, at any of its steps, whichever allocation or call was the one that failed and
    whatever was shared with the caller, every group, handler table, address space and task
    is as it was: the world is the one before, but for the memory of the new task where it
    waits for a grace period.  If it succeeds, exactly one task is added, of the kind its
    flags say: with CLONE_SIGHAND it uses the handlers of the caller, counted once more,
    otherwise a new table with the caller's actions, flushed with CLONE_CLEAR_SIGHAND; with
    CLONE_THREAD it is the last thread of the caller's group, all of whose counts grew by
    one, otherwise the only one of a new group with the caller's limits and OOM score. *)
Theorem fork_outcome w g cur (c : task_struct) p f l w' : task_reachable w g -> task_allowed (Fork cur p f) w g -> tasks w !! cur = Some c ->
  (w0 ← dup_task_struct cur p f w; fork_run p l w0) = Some w' ->
  ((forall tk, tasks w' !! p = Some tk -> t_progress tk = Failed) ->
     delete p (tasks w') = tasks w /\ signals w' = signals w /\ sighands w' = sighands w /\ mem w' = mem w /\
     forall tk, tasks w' !! p = Some tk -> t_rcu tk = Some DelayedFreeTask) /\
  (forall tk, tasks w' !! p = Some tk -> t_progress tk = Attached -> fork_made w c p f w').
Proof.
  intros Hr (Hn & c' & Hc & Hp & He) Hc' E0. rewrite Hc in Hc'. injection Hc' as <-. pose proof (task_reachable_inv w g Hr) as I.
  pose proof (attached w g cur c' I Hc Hp) as (_ & Hah & _). destruct (Hah He) as [[ch Hch] _].
  assert (Hhc : has_hand c' = true) by (unfold has_hand; by rewrite Hp). destruct (hand_there w g cur c' ch I Hc Hhc Hch) as (chd & Hhd & _ & Hpos).
  assert (Hcp : cur <> p) by congruence. unfold dup_task_struct in E0. rewrite Hc in E0. cbn [mbind option_bind] in E0.
  match type of E0 with fork_run _ _ (set_task _ (Some ?x) _) = _ => assert (B : half_built w ch cur f p Copied x (set_task p (Some x) w)) end.
  { constructor; try done. intros _. by rewrite Hc. }
  apply (fork_run_forked w cur p ch f c' chd l Hc Hcp Hch Hhd Hpos _ _ _ _ B) in E0. clear B.
  destruct E0 as [(x & st & B)|[M|((x & Hx) & Hs & Hh & Hm)]].
  - pose proof (hb_progress _ _ _ _ _ _ _ _ B) as Hb. assert (Hx : tasks w' !! p = Some x) by (by rewrite (hb_tasks _ _ _ _ _ _ _ _ B), lookup_slot).
    split; [intros Hf; by rewrite (Hf x Hx) in Hb|]. intros tk Htk Ha. congruence.
  - split; [|done]. intros Hf. pose proof M as (y & _ & _ & Hy & _ & _ & Ha & _). rewrite (Hf y) in Ha; [done|]. by rewrite Hy, lookup_insert_eq.
  - split.
    + intros _. split_and!; try done; [rewrite Hx; change (delete p ?M) with (put_slot p None M); rewrite slot_slot; cbn; by apply delete_id|].
      intros tk. rewrite Hx, lookup_slot. unfold gone. destruct config_memcg; [|done]. by intros [= <-].
    + intros tk. rewrite Hx, lookup_slot. unfold gone. destruct config_memcg; [|done]. by intros [= <-].
Qed.

End invariant.

(** ** Examples *)

Definition demo_env : TaskEnv := {| config_memcg := true; flush_signal_handlers l := l |}.

Definition on_cpub (cur : nat) (w : world) : bool := match tasks w !! cur with Some c => 0 <? stack_refcount c | None => false end.

Definition task_allowedb (op : task_op) (w : world) (g : holders) : bool :=
  let att (t : nat) (P : task_struct -> bool) :=
    match tasks w !! t with Some x => bool_decide (t_progress x = Attached) && P x | None => false end in
  match op with
  | Fork cur p _ => bool_decide (tasks w !! p = None) && att cur (fun c => negb (exit_state c))
  | ForkStep p alloc _ =>
      match tasks w !! p with
      | Some x => match t_progress x, alloc with
                  | Building _ _ Copied, Some h => match sighands w !! h with None => true | Some _ => false end
                  | Building _ _ HasSighand, Some s => match signals w !! s with None => true | Some _ => false end
                  | Building _ _ _, _ => true
                  | _, _ => false
                  end
      | None => false
      end
  | Exit t => (csum (built_by t) (tasks w) =? 0) && att t (fun x => negb (exit_state x))
  | Reap t => att t (fun x => exit_state x && bool_decide (t_sighand x <> None))
  | LastSwitch t => att t (fun x => exit_state x && (0 <? stack_refcount x))
  | GetTask t => att t (fun x => 0 <? usage x)
  | PutTask cur t _ => on_cpub cur w && (0 <? c_refs g t)
  | RunRcu cur t _ => on_cpub cur w && match tasks w !! t with Some x => bool_decide (t_rcu x <> None) | None => false end
  | OomVictim t m => (0 <? c_users (c_mm g) m) && att t (fun _ => true)
  | Mm op => allowedb op (mem w) (c_mm g)
  end.

Lemma on_cpub_true cur w : on_cpub cur w = true -> on_cpu cur w.
Proof. unfold on_cpub, on_cpu. destruct (tasks w !! cur) as [c|]; [|done]. intros H%Z.ltb_lt. by exists c. Qed.

Lemma task_allowedb_true op w g : task_allowedb op w g = true -> task_allowed op w g.
Proof.
  assert (Hatt : forall t P, match tasks w !! t with Some x => bool_decide (t_progress x = Attached) && P x | None => false end = true ->
    exists x, tasks w !! t = Some x /\ t_progress x = Attached /\ P x = true).
  { intros t P. destruct (tasks w !! t) as [x|]; [|done]. intros [H%bool_decide_eq_true HP]%andb_true_iff. by exists x. }
  destruct op; cbn [task_allowedb task_allowed].
  - intros [H%bool_decide_eq_true (x & ? & ? & ?%negb_true_iff)%Hatt]%andb_true_iff. eauto.
  - destruct (tasks w !! p) as [x|]; [|done]. destruct (t_progress x) as [c f st| |] eqn:Hp; [|done..]. intros H. exists x, c, f, st.
    split_and!; [done..|]. destruct st, alloc as [a|]; cbn; try done; [by destruct (sighands w !! a)|by destruct (signals w !! a)].
  - intros [H%Z.eqb_eq (x & ? & ? & ?%negb_true_iff)%Hatt]%andb_true_iff. eauto.
  - intros (x & ? & ? & [? H%bool_decide_eq_true]%andb_true_iff)%Hatt. exists x. split_and!; try done. destruct (t_sighand x); [by eexists|done].
  - intros (x & ? & ? & [? ?%Z.ltb_lt]%andb_true_iff)%Hatt. eauto.
  - intros (x & ? & ? & ?%Z.ltb_lt)%Hatt. eauto.
  - intros [?%on_cpub_true ?%Z.ltb_lt]%andb_true_iff. done.
  - intros [?%on_cpub_true H]%andb_true_iff. split; [done|]. destruct (tasks w !! t) as [x|]; [|done]. apply bool_decide_eq_true in H.
    destruct (t_rcu x) as [f|] eqn:Hf; [|done]. by exists x, f.
  - intros [?%Z.ltb_lt (x & ? & ? & _)%Hatt]%andb_true_iff. eauto.
  - apply allowedb_allowed.
Qed.

Fixpoint task_runs {W : MmWorld} {E : TaskEnv} (ops : list task_op) (w : world) (g : holders) : option (world * holders) :=
  match ops with
  | [] => Some (w, g)
  | op :: ops => if task_allowedb op w g then '(w, g) ← task_run op w g; task_runs ops w g else None
  end.

Lemma task_runs_reachable {W : MmWorld} {E : TaskEnv} ops w g w' g' : task_reachable w g -> task_runs ops w g = Some (w', g') -> task_reachable w' g'.
Proof.
  revert w g. induction ops as [|op ops IH]; intros w g H; cbn; [by intros [= <- <-]|]. destruct (task_allowedb op w g) eqn:Ha; [|done].
  destruct (task_run op w g) as [[w1 g1]|] eqn:Hr; [|done]. cbn. apply IH. eapply task_step; [exact H|by apply task_allowedb_true|exact Hr].
Qed.

(** A process with a thread; the process is chosen by the OOM killer; its leader exits and
    is reaped, and its memory freed while the thread lives on. *)
Definition demo_history : list task_op :=
  [Fork 0 1 0; ForkStep 1 (Some 1%nat) false; ForkStep 1 (Some 1%nat) false; ForkStep 1 None false;
   Fork 1 2 (Z.lor CLONE_THREAD CLONE_SIGHAND); ForkStep 2 None false; ForkStep 2 None false; ForkStep 2 None false;
   Mm (MmAlloc true demo_init None 1); OomVictim 1 1; Exit 1; LastSwitch 1; Reap 1; RunRcu 0 1 false].

Lemma task_lifetimes_witness : exists w g sig, task_runs (W := demo_world) (E := demo_env) demo_history (first_world [] []) no_holders = Some (w, g) /\
  tasks w !! 1%nat = None /\ signals w !! 1%nat = Some sig /\ thread_head sig = [2%nat] /\ sigcnt sig = csum (on_signal 1) (tasks w).
Proof.
  assert (Hd : match task_runs (W := demo_world) (E := demo_env) demo_history (first_world [] []) no_holders with
               | Some (w, _) => match tasks w !! 1%nat, signals w !! 1%nat with None, Some sig => bool_decide (thread_head sig = [2%nat]) | _, _ => false end
               | None => false
               end = true) by (vm_compute; reflexivity).
  destruct (task_runs _ _ _) as [[w g]|] eqn:Hr; [|done]. exists w, g. destruct (tasks w !! 1%nat) eqn:Ht; [done|].
  destruct (signals w !! 1%nat) as [sig|] eqn:Hs; [|done]. exists sig. apply bool_decide_eq_true in Hd. split_and!; try done.
  pose proof (task_lifetimes (W := demo_world) (E := demo_env) w g (task_runs_reachable _ _ _ _ _ (task_start [] []) Hr)) as (_ & _ & H & _).
  apply (H 1%nat sig Hs).
Defined.

(** A fork that fails at its last step, and one that makes a process. *)
Lemma fork_outcome_witness : exists w0 w1 w2, dup_task_struct 0 1 0 (first_world [] []) = Some w0 /\
  fork_run (E := demo_env) 1 [(Some 1%nat, false); (Some 1%nat, false); (None, true)] w0 = Some w1 /\ signals w1 = signals (first_world [] []) /\
  fork_run (E := demo_env) 1 [(Some 1%nat, false); (Some 1%nat, false); (None, false)] w0 = Some w2 /\
  fork_made (E := demo_env) (first_world [] []) first_task 1 0 w2.
Proof.
  assert (Hd : match (w0 ← dup_task_struct 0 1 0 (first_world [] []);
                      w1 ← fork_run (E := demo_env) 1 [(Some 1%nat, false); (Some 1%nat, false); (None, true)] w0;
                      w2 ← fork_run (E := demo_env) 1 [(Some 1%nat, false); (Some 1%nat, false); (None, false)] w0; Some (w1, w2)) with
               | Some (w1, w2) =>
                   bool_decide (t_progress <$> tasks w1 !! 1%nat = Some Failed) && bool_decide (t_progress <$> tasks w2 !! 1%nat = Some Attached)
               | None => false
               end = true) by (vm_compute; reflexivity).
  destruct (dup_task_struct 0 1 0 (first_world [] [])) as [w0|] eqn:E0; [|discriminate Hd]. cbn [mbind option_bind] in Hd.
  destruct (fork_run (E := demo_env) 1 [(Some 1%nat, false); (Some 1%nat, false); (None, true)] w0) as [w1|] eqn:E1; [|discriminate Hd].
  destruct (fork_run (E := demo_env) 1 [(Some 1%nat, false); (Some 1%nat, false); (None, false)] w0) as [w2|] eqn:E2; [|discriminate Hd].
  cbn [mbind option_bind] in Hd. apply andb_true_iff in Hd as [Hp1 Hp2]. apply bool_decide_eq_true in Hp1, Hp2.
  assert (Ha : task_allowed (Fork 0 1 0) (first_world [] []) no_holders) by (apply task_allowedb_true; vm_compute; reflexivity).
  exists w0, w1, w2. split; [reflexivity|]. split; [exact E1|]. split; [|split; [exact E2|]].
  - pose proof (fork_outcome (W := demo_world) (E := demo_env) (first_world [] []) no_holders 0%nat first_task 1%nat 0
      [(Some 1%nat, false); (Some 1%nat, false); (None, true)] w1 (task_start [] []) Ha eq_refl) as H.
    rewrite E0 in H. destruct (H E1) as [Hfail _]. apply Hfail. intros tk Htk. rewrite Htk in Hp1. by injection Hp1.
  - pose proof (fork_outcome (W := demo_world) (E := demo_env) (first_world [] []) no_holders 0%nat first_task 1%nat 0
      [(Some 1%nat, false); (Some 1%nat, false); (None, false)] w2 (task_start [] []) Ha eq_refl) as H.
    rewrite E0 in H. destruct (H E2) as [_ Hmade]. destruct (tasks w2 !! 1%nat) as [tk|]; [|discriminate Hp2]. injection Hp2 as Hp2.
    exact (Hmade tk eq_refl Hp2).
Defined.
