(* ===== verification/MmCopy.v ===== *)
(** * Copying the mappings of an address space (kernel/fork.c: dup_mmap)

    The maple tree of the child starts as an identical copy of the parent's, so its slots
    point to the parent's areas; the loop replaces them one by one, or removes those that
    are not to be copied.  When a step fails, the slot where it failed is marked with
    XA_ZERO_ENTRY, and exit_mmap, which takes the child apart afterwards, frees the areas
    in front of the mark only.  The tree is the list of its slots in address order; the
    state counts everything taken for the child. *)
From S2P Require Import Prelude MmLife.

Definition VM_SHARED := 8.
Definition VM_MAYWRITE := 32.
Definition VM_DONTCOPY := 131072.
Definition VM_ACCOUNT := 1048576.
Definition VM_WIPEONFORK := 33554432.
Definition VM_LOCKED_MASK := 8192 + 524288.

Inductive mm_side := OldMm | NewMm.

Record vma := {
  vm_start : Z; vm_end : Z; vm_flags : Z;
  vm_file : option nat;
  vm_mm : mm_side;
  anon_vma : bool;                      (** not NULL *)
  vm_policy : bool;                     (** has a memory policy *)
  vm_open : bool                        (** vm_ops->open exists *)
}.

Inductive slot := ParentVma (v : vma) | OwnVma (v : vma) | ZeroEntry.

Definition vma_pages (v : vma) : Z := Z.shiftr (vm_end v - vm_start v) PAGE_SHIFT.

(** Taken for the child. *)
Inductive copy_res := Pages | VmaMem | Policy | VmFile (f : nat) | Writable (f : nat) | Opened | InTree (f : nat).

#[export] Instance copy_res_eq_dec : EqDecision copy_res.
Proof. solve_decision. Defined.

(** The statistics of an address space, by the class of an area (mm/mmap.c). *)
Inductive stat := DataVm | ExecVm | StackVm | NoStat.

Record copy_state := {
  taken : copy_res -> Z;
  uf : Z;                               (** contexts on the list for userfaultfd *)
  map_count : Z; total_vm : Z; data_vm : Z; exec_vm : Z; stack_vm : Z;
  old_locked : bool; new_locked : bool; uprobe_dup : bool
}.

(** The answers for one area. *)
Record vma_answers := {
  clear_err : Z; fatal : bool; enough_err : Z; area_ok : bool; policy_err : Z; uffd_err : Z; uffd_ctx : Z; anon_err : Z; copy_err : Z
}.
Record mmap_answers := {
  killed : bool; ksm_err : Z; mt_dup_err : Z; arch_err : Z;
  at_vma : nat -> vma_answers;
  stat_of : Z -> stat                   (** of the flags *)
}.

Definition with_taken (h : copy_res -> Z) (s : copy_state) : copy_state :=
  {| taken := h; uf := uf s; map_count := map_count s; total_vm := total_vm s; data_vm := data_vm s; exec_vm := exec_vm s;
     stack_vm := stack_vm s; old_locked := old_locked s; new_locked := new_locked s; uprobe_dup := uprobe_dup s |}.
Definition take_n (n : Z) (r : copy_res) (s : copy_state) : copy_state :=
  with_taken (fun q => taken s q + if decide (q = r) then n else 0) s.
Definition with_uf (n : Z) (s : copy_state) : copy_state :=
  {| taken := taken s; uf := n; map_count := map_count s; total_vm := total_vm s; data_vm := data_vm s; exec_vm := exec_vm s;
     stack_vm := stack_vm s; old_locked := old_locked s; new_locked := new_locked s; uprobe_dup := uprobe_dup s |}.
Definition with_stats (mc tv dv ev sv : Z) (s : copy_state) : copy_state :=
  {| taken := taken s; uf := uf s; map_count := mc; total_vm := tv; data_vm := dv; exec_vm := ev; stack_vm := sv;
     old_locked := old_locked s; new_locked := new_locked s; uprobe_dup := uprobe_dup s |}.
Definition with_locks (o n u : bool) (s : copy_state) : copy_state :=
  {| taken := taken s; uf := uf s; map_count := map_count s; total_vm := total_vm s; data_vm := data_vm s; exec_vm := exec_vm s;
     stack_vm := stack_vm s; old_locked := o; new_locked := n; uprobe_dup := u |}.

(** mm/mmap.c: [n] pages more in the class of the flags. *)
Definition vm_stat_account (c : stat) (n : Z) (s : copy_state) : copy_state :=
  let one (d : stat) := match c, d with DataVm, DataVm | ExecVm, ExecVm | StackVm, StackVm => n | _, _ => 0 end in
  with_stats (map_count s) (total_vm s + n) (data_vm s + one DataVm) (exec_vm s + one ExecVm) (stack_vm s + one StackVm) s.

Definition vma_is_shared_maywrite (v : vma) : bool :=
  Z.land (vm_flags v) (Z.lor VM_SHARED VM_MAYWRITE) =? Z.lor VM_SHARED VM_MAYWRITE.

(** The area of the child. *)
Definition child_vma (v : vma) : vma :=
  {| vm_start := vm_start v; vm_end := vm_end v; vm_flags := clear (vm_flags v) VM_LOCKED_MASK; vm_file := vm_file v; vm_mm := NewMm;
     anon_vma := if has (vm_flags v) VM_WIPEONFORK then false else anon_vma v; vm_policy := vm_policy v; vm_open := vm_open v |}.

Section copy.
Context (a : mmap_answers).

(** fail_nomem with what it undoes before: the policy, the area, the charge. *)
Definition fail_nomem (charge : Z) (s : copy_state) : copy_state := take_n (- charge) Pages s.
Definition fail_nomem_policy (charge : Z) (s : copy_state) : copy_state := fail_nomem charge (take_n (-1) VmaMem s).
Definition fail_nomem_anon_vma_fork (charge : Z) (tmp : vma) (s : copy_state) : copy_state :=
  fail_nomem_policy charge (if vm_policy tmp then take_n (-1) Policy s else s).

(** What became of one area. *)
Inductive step_result :=
  | Cleared (s : copy_state)            (** removed from the tree *)
  | Copied (tmp : vma) (s : copy_state)
  | CopiedThenFailed (e : Z) (tmp : vma) (s : copy_state)
  | FailedAt (e : Z) (s : copy_state).

(** The area is linked to its file, if it has one. *)
Definition link_file (tmp : vma) (s : copy_state) : copy_state :=
  match vm_file tmp with
  | Some f =>
      let s := take_n 1 (VmFile f) s in
      let s := if vma_is_shared_maywrite tmp then take_n 1 (Writable f) s else s in
      take_n 1 (InTree f) s
  | None => s
  end.

(** One round of the loop, for the area [mpnt]. *)
Definition dup_vma (i : nat) (mpnt : vma) (s : copy_state) : step_result :=
  let r := at_vma a i in
  if has (vm_flags mpnt) VM_DONTCOPY then
    if c_true (clear_err r) then FailedAt (clear_err r) s
    else Cleared (vm_stat_account (stat_of a (vm_flags mpnt)) (- vma_pages mpnt) s)
  else if fatal r then FailedAt (- EINTR) s
  else
    let account := has (vm_flags mpnt) VM_ACCOUNT in
    if account && c_true (enough_err r) then FailedAt (- ENOMEM) (fail_nomem 0 s)
    else
      let charge := if account then vma_pages mpnt else 0 in
      let s := if account then take_n charge Pages s else s in
      if negb (area_ok r) then FailedAt (- ENOMEM) (fail_nomem charge s)
      else
        let s := take_n 1 VmaMem s in
        if c_true (policy_err r) then FailedAt (- ENOMEM) (fail_nomem_policy charge s)
        else
          let s := if vm_policy mpnt then take_n 1 Policy s else s in
          let tmp := {| vm_start := vm_start mpnt; vm_end := vm_end mpnt; vm_flags := vm_flags mpnt; vm_file := vm_file mpnt;
                        vm_mm := NewMm; anon_vma := anon_vma mpnt; vm_policy := vm_policy mpnt; vm_open := vm_open mpnt |} in
          if c_true (uffd_err r) then FailedAt (- ENOMEM) (fail_nomem_anon_vma_fork charge tmp s)
          else
            let s := with_uf (uf s + uffd_ctx r) s in
            let wipe := has (vm_flags tmp) VM_WIPEONFORK in
            if negb wipe && c_true (anon_err r) then FailedAt (- ENOMEM) (fail_nomem_anon_vma_fork charge tmp s)
            else
              let tmp := {| vm_start := vm_start tmp; vm_end := vm_end tmp; vm_flags := clear (vm_flags tmp) VM_LOCKED_MASK;
                            vm_file := vm_file tmp; vm_mm := vm_mm tmp; anon_vma := if wipe then false else anon_vma tmp;
                            vm_policy := vm_policy tmp; vm_open := vm_open tmp |} in
              let s := link_file tmp s in
              let s := with_stats (map_count s + 1) (total_vm s) (data_vm s) (exec_vm s) (stack_vm s) s in
              let retval := if negb (has (vm_flags tmp) VM_WIPEONFORK) then copy_err r else 0 in
              let s := if vm_open tmp then take_n 1 Opened s else s in
              if c_true retval then CopiedThenFailed retval tmp s else Copied tmp s.

(** for_each_vma over the slots not yet visited: the error, the slots as they are then,
    and whether an area was left unvisited at the failure ([mpnt] is not NULL). *)
Fixpoint dup_vmas (i : nat) (old : list vma) (s : copy_state) : Z * list slot * copy_state :=
  match old with
  | [] => (arch_err a, [], s)
  | mpnt :: rest =>
      let mark (l : list vma) : list slot := match l with [] => [] | _ :: l => ZeroEntry :: map ParentVma l end in
      match dup_vma i mpnt s with
      | Cleared s => dup_vmas (S i) rest s
      | Copied tmp s => let '(e, l, s) := dup_vmas (S i) rest s in (e, OwnVma tmp :: l, s)
      | CopiedThenFailed e tmp s => (e, OwnVma tmp :: mark rest, s)
      | FailedAt e s => (e, mark (mpnt :: rest), s)
      end
  end.

(** [stats]: the statistics of the parent, in the order of the assignments. *)
Definition dup_mmap (old : list vma) (stats : Z * Z * Z * Z) (s : copy_state) : Z * list slot * copy_state :=
  let s := with_locks (old_locked s) (new_locked s) true s in
  if killed a then (- EINTR, [], with_locks (old_locked s) (new_locked s) false s)
  else
    let s := with_locks true true (uprobe_dup s) s in
    let '(tv, dv, ev, sv) := stats in
    let s := with_stats (map_count s) tv dv ev sv s in
    let out (e : Z) (l : list slot) (s : copy_state) := (e, l, with_locks false false false (with_uf 0 s)) in
    if c_true (ksm_err a) then out (ksm_err a) [] s
    else if c_true (mt_dup_err a) then out (mt_dup_err a) [] s
    else let '(e, l, s) := dup_vmas 0 old s in out e l s.
End copy.

(** ** What the child's areas stand for *)

Definition vma_holds (v : vma) (r : copy_res) : Z :=
  match r with
  | Pages => if has (vm_flags v) VM_ACCOUNT then vma_pages v else 0
  | VmaMem => 1
  | Policy => if vm_policy v then 1 else 0
  | VmFile f | InTree f => if bool_decide (vm_file v = Some f) then 1 else 0
  | Writable f => if bool_decide (vm_file v = Some f) && vma_is_shared_maywrite v then 1 else 0
  | Opened => if vm_open v then 1 else 0
  end.

Fixpoint owed (vs : list vma) (r : copy_res) : Z := match vs with [] => 0 | v :: vs => vma_holds v r + owed vs r end.

Definition keep (v : vma) : bool := negb (has (vm_flags v) VM_DONTCOPY).
(** The areas of the child for a list of the parent's. *)
Definition copies (old : list vma) : list vma := map child_vma (List.filter keep old).
(** The pages that are left out. *)
Fixpoint left_out (c : stat -> bool) (st : Z -> stat) (old : list vma) : Z :=
  match old with
  | [] => 0
  | v :: old => (if negb (keep v) && c (st (vm_flags v)) then vma_pages v else 0) + left_out c st old
  end.
Definition in_stat (d c : stat) : bool := match c, d with DataVm, DataVm | ExecVm, ExecVm | StackVm, StackVm => true | _, _ => false end.
Definition any_stat (c : stat) : bool := true.

(** The slots after the first [k] areas were dealt with: copies, then the mark. *)
Definition slots (k : nat) (old : list vma) : list slot :=
  map OwnVma (copies (take k old)) ++ match drop k old with [] => [] | _ :: rest => ZeroEntry :: map ParentVma rest end.

Section proofs.
Context (a : mmap_answers).

(** [s'] differs from [s] by [d] taken, [n] areas and the pages left out of [old]. *)
Record moved (d : copy_res -> Z) (n : Z) (old : list vma) (s s' : copy_state) : Prop := {
  m_taken : forall r, taken s' r = taken s r + d r;
  m_count : map_count s' = map_count s + n;
  m_total : total_vm s' = total_vm s - left_out any_stat (stat_of a) old;
  m_data : data_vm s' = data_vm s - left_out (in_stat DataVm) (stat_of a) old;
  m_exec : exec_vm s' = exec_vm s - left_out (in_stat ExecVm) (stat_of a) old;
  m_stack : stack_vm s' = stack_vm s - left_out (in_stat StackVm) (stat_of a) old
}.

Lemma moved_refl s : moved (fun _ => 0) 0 [] s s.
Proof. constructor; cbn; intros; lia. Qed.

Lemma left_out_app c st l1 l2 : left_out c st (l1 ++ l2) = left_out c st l1 + left_out c st l2.
Proof. induction l1 as [|v l1 IH]; cbn; [done|]. rewrite IH. lia. Qed.

Lemma moved_trans d1 n1 l1 d2 n2 l2 s1 s2 s3 : moved d1 n1 l1 s1 s2 -> moved d2 n2 l2 s2 s3 ->
  moved (fun r => d1 r + d2 r) (n1 + n2) (l1 ++ l2) s1 s3.
Proof.
  intros [A1 A2 A3 A4 A5 A6] [B1 B2 B3 B4 B5 B6]. constructor; intros; rewrite ?left_out_app; [rewrite B1, A1| rewrite B2, A2|rewrite B3, A3|
    rewrite B4, A4|rewrite B5, A5|rewrite B6, A6]; cbv beta; lia.
Qed.

Lemma child_account v : has (vm_flags (child_vma v)) VM_ACCOUNT = has (vm_flags v) VM_ACCOUNT.
Proof. cbn. rewrite has_clear. reflexivity. Qed.

Lemma child_wipe f : has (clear f VM_LOCKED_MASK) VM_WIPEONFORK = has f VM_WIPEONFORK.
Proof. rewrite has_clear. reflexivity. Qed.

Lemma link_file_taken v s r : taken (link_file v s) r =
  taken s r + match r with VmFile _ | InTree _ | Writable _ => vma_holds v r | _ => 0 end.
Proof.
  unfold link_file, vma_holds. destruct (vm_file v) as [f|]; [|destruct r; rewrite ?bool_decide_eq_false_2 by done; cbn; lia].
  destruct (vma_is_shared_maywrite v); cbn [taken take_n with_taken]; destruct r as [| | |g|g| |g];
    repeat case_decide; try congruence; simplify_eq; rewrite ?bool_decide_eq_true_2, ?bool_decide_eq_false_2 by congruence; cbn; lia.
Qed.

Lemma link_file_rest v s : map_count (link_file v s) = map_count s /\ total_vm (link_file v s) = total_vm s /\
  data_vm (link_file v s) = data_vm s /\ exec_vm (link_file v s) = exec_vm s /\ stack_vm (link_file v s) = stack_vm s.
Proof. unfold link_file. destruct (vm_file v); [|done]. by destruct (vma_is_shared_maywrite v). Qed.

Definition delta (n : Z) (r q : copy_res) : Z := if decide (q = r) then n else 0.

Lemma moved_ext d d' n l s s' : moved d n l s s' -> (forall r, d' r = d r) -> moved d' n l s s'.
Proof. intros [A1 A2 A3 A4 A5 A6] H. constructor; try done. intros r. by rewrite H. Qed.

Lemma moved_take k r d n l s s' : moved d n l s s' -> moved (fun q => d q + delta k r q) n l s (take_n k r s').
Proof. intros [A1 A2 A3 A4 A5 A6]. constructor; try done. intros q. cbn. rewrite A1. unfold delta. lia. Qed.

Lemma moved_uf k d n l s s' : moved d n l s s' -> moved d n l s (with_uf k s').
Proof. intros [A1 A2 A3 A4 A5 A6]. by constructor. Qed.

Lemma moved_if (b : bool) k r d n l s s' : moved d n l s s' ->
  moved (fun q => d q + if b then delta k r q else 0) n l s (if b then take_n k r s' else s').
Proof. intros H. destruct b; [by apply moved_take|]. eapply moved_ext; [exact H|]. intros q. cbv beta. lia. Qed.

Lemma moved_link v d n l s s' : moved d n l s s' ->
  moved (fun q => d q + match q with VmFile _ | InTree _ | Writable _ => vma_holds v q | _ => 0 end) n l s (link_file v s').
Proof.
  intros [A1 A2 A3 A4 A5 A6]. destruct (link_file_rest v s') as (R2 & R3 & R4 & R5 & R6).
  constructor; rewrite ?R2, ?R3, ?R4, ?R5, ?R6; try done. intros q. rewrite link_file_taken, A1. lia.
Qed.

(** The sums agree at every resource. *)
Ltac ledger :=
  intros r'; unfold delta; cbv beta; destruct r'; repeat case_decide; try congruence;
  repeat match goal with |- context [if ?b then _ else _] => destruct b end; lia.
(** Everything taken before a failure was given back. *)
Ltac undone H :=
  split; [done|]; unfold fail_nomem_anon_vma_fork, fail_nomem_policy, fail_nomem; cbn [vm_policy];
  eapply moved_ext; [repeat first [apply moved_take | apply moved_uf | apply moved_if]; exact H|ledger].

Definition step_ok (v : vma) (s : copy_state) (x : step_result) : Prop :=
  match x with
  | Cleared s' => keep v = false /\ moved (fun _ => 0) 0 [v] s s'
  | Copied tmp s' => keep v = true /\ tmp = child_vma v /\ moved (vma_holds (child_vma v)) 1 [v] s s'
  | CopiedThenFailed e tmp s' => e <> 0 /\ keep v = true /\ tmp = child_vma v /\ moved (vma_holds (child_vma v)) 1 [v] s s'
  | FailedAt e s' => e <> 0 /\ moved (fun _ => 0) 0 [] s s'
  end.

Lemma dup_vma_ok i v s : step_ok v s (dup_vma a i v s).
Proof.
  unfold dup_vma. set (r := at_vma a i). clearbody r. cbv zeta.
  destruct (has (vm_flags v) VM_DONTCOPY) eqn:Hd.
  { destruct (c_true (clear_err r)) eqn:Hc; [split; [by apply c_true_true|apply moved_refl]|].
    assert (Hk : keep v = false) by (unfold keep; by rewrite Hd). split; [done|].
    constructor; cbn; rewrite ?Hk; intros; cbn; try (destruct (stat_of a (vm_flags v)); cbn); lia. }
  assert (Hk : keep v = true) by (unfold keep; by rewrite Hd).
  destruct (fatal r); [split; [done|apply moved_refl]|].
  pose proof (moved_refl s) as H0. destruct (has (vm_flags v) VM_ACCOUNT && c_true (enough_err r)); [undone H0|].
  set (charge := if has (vm_flags v) VM_ACCOUNT then vma_pages v else 0). set (s1 := if has (vm_flags v) VM_ACCOUNT then take_n charge Pages s else s).
  assert (H1 : moved (delta charge Pages) 0 [] s s1).
  { subst s1 charge. eapply moved_ext; [apply (moved_if _ _ Pages); exact H0|]. intros q. cbv beta. unfold delta.
    destruct (has (vm_flags v) VM_ACCOUNT); repeat case_decide; lia. }
  clearbody s1. clear H0. destruct (area_ok r); cbn [negb]; [|undone H1].
  destruct (c_true (policy_err r)); [undone H1|]. destruct (c_true (uffd_err r)); [undone H1|].
  cbn [vm_flags vm_start vm_end vm_file vm_mm anon_vma vm_policy vm_open].
  destruct (negb (has (vm_flags v) VM_WIPEONFORK) && c_true (anon_err r)); [undone H1|]. fold (child_vma v).
  set (s2 := if vm_policy v then _ else _). set (s3 := link_file (child_vma v) _).
  assert (H3 : moved (fun q => delta charge Pages q + delta 1 VmaMem q + (if vm_policy v then delta 1 Policy q else 0) +
    match q with VmFile _ | InTree _ | Writable _ => vma_holds (child_vma v) q | _ => 0 end) 0 [] s s3).
  { subst s3 s2. apply moved_link, moved_uf, moved_if, moved_take. exact H1. }
  clearbody s3. clear s2 H1. set (s4 := with_stats _ _ _ _ _ s3). set (s5 := if vm_open v then take_n 1 Opened s4 else s4).
  assert (H5 : moved (vma_holds (child_vma v)) 1 [v] s s5).
  { assert (H4 : moved (fun q => vma_holds (child_vma v) q - if vm_open v then delta 1 Opened q else 0) 1 [v] s s4).
    { destruct H3 as [A1 A2 A3 A4 A5 A6]. constructor; cbn -[vma_holds]; rewrite ?Hk; cbn -[vma_holds]; rewrite ?A2, ?A3, ?A4, ?A5, ?A6; cbn; try lia.
      intros q. rewrite A1. assert (Hp : vma_holds (child_vma v) Pages = charge) by (unfold vma_holds; by rewrite child_account).
      unfold delta. destruct q; rewrite ?Hp; repeat case_decide; try congruence; cbn; destruct (vm_open v), (vm_policy v); lia. }
    subst s5. eapply moved_ext; [apply (moved_if (vm_open v) 1 Opened); exact H4|]. intros q. cbv beta. lia. }
  clearbody s5. destruct (c_true _) eqn:Hc; [split; [by apply c_true_true|]|]; by split_and!.
Qed.

Lemma owed_app l1 l2 r : owed (l1 ++ l2) r = owed l1 r + owed l2 r.
Proof. induction l1 as [|v l1 IH]; cbn; [done|]. rewrite IH. lia. Qed.

Lemma slots_keep v k old : keep v = true -> slots (S k) (v :: old) = OwnVma (child_vma v) :: slots k old.
Proof. intros H. unfold slots, copies. cbn. by rewrite H. Qed.

Lemma slots_skip v k old : keep v = false -> slots (S k) (v :: old) = slots k old.
Proof. intros H. unfold slots, copies. cbn. by rewrite H. Qed.

(** The first [k] areas were dealt with. *)
Definition reached (k : nat) (old : list vma) (l : list slot) (s s' : copy_state) : Prop :=
  l = slots k old /\ moved (owed (copies (take k old))) (Z.of_nat (length (copies (take k old)))) (take k old) s s'.

Lemma reached_0 old s s' : moved (fun _ => 0) 0 [] s s' -> reached 0 old (slots 0 old) s s'.
Proof. by split. Qed.

Lemma reached_skip v k old l s s1 s' : keep v = false -> moved (fun _ => 0) 0 [v] s s1 -> reached k old l s1 s' ->
  reached (S k) (v :: old) l s s'.
Proof.
  intros Hk H [-> M]. split; [by rewrite slots_skip|]. unfold copies in *. cbn [take List.filter]. rewrite Hk.
  eapply moved_ext; [apply (moved_trans _ _ _ _ _ _ _ _ _ H M)|]. intros r. done.
Qed.

Lemma reached_keep v k old l s s1 s' : keep v = true -> moved (vma_holds (child_vma v)) 1 [v] s s1 -> reached k old l s1 s' ->
  reached (S k) (v :: old) (OwnVma (child_vma v) :: l) s s'.
Proof.
  intros Hk H [-> M]. split; [by rewrite slots_keep|]. unfold copies in *. cbn [take List.filter]. rewrite Hk. cbn [map length].
  rewrite Nat2Z.inj_succ, <- Z.add_1_l. eapply moved_ext; [apply (moved_trans _ _ _ _ _ _ _ _ _ H M)|]. intros r. done.
Qed.

Lemma dup_vmas_ok old i s : let '(e, l, s') := dup_vmas a i old s in
  exists k, (k <= length old)%nat /\ reached k old l s s' /\ (e = 0 -> k = length old).
Proof.
  revert i s. induction old as [|v old IH]; intros i s; cbn [dup_vmas].
  - exists 0%nat. split; [done|]. split; [|done]. apply reached_0, moved_refl.
  - pose proof (dup_vma_ok i v s) as Hv. destruct (dup_vma a i v s) as [s1|tmp s1|e tmp s1|e s1]; cbn [step_ok] in Hv.
    + destruct Hv as [Hk M]. specialize (IH (S i) s1). destruct (dup_vmas a (S i) old s1) as [[e l] s'].
      destruct IH as (k & Hl & Hr & He). exists (S k). cbn. split; [lia|]. split; [by eapply reached_skip|]. intros E. by rewrite (He E).
    + destruct Hv as (Hk & -> & M). specialize (IH (S i) s1). destruct (dup_vmas a (S i) old s1) as [[e l] s'].
      destruct IH as (k & Hl & Hr & He). exists (S k). cbn. split; [lia|]. split; [by eapply reached_keep|]. intros E. by rewrite (He E).
    + destruct Hv as (He & Hk & -> & M). exists 1%nat. cbn. split; [lia|]. split; [|done].
      eapply reached_keep; [done|exact M|]. apply (reached_0 old), moved_refl.
    + destruct Hv as (He & M). exists 0%nat. split; [lia|]. split; [|done]. by apply reached_0.
Qed.

(** C10: copying the mappings.  On success the child has, in order, one area of its own
    for every area of the parent that is not marked VM_DONTCOPY, unlocked, emptied if
    marked VM_WIPEONFORK, and its statistics are the parent's less the areas left out.
    In every case the tree is areas of the child, then, if some area was not reached,
    one mark and areas of the parent behind it; the pages charged, areas, policies, file
    references, mapping counts and opened areas are exactly those of the child's areas
    in front of the mark; and all locks are released and no userfaultfd context is
    left on the list. *)
Theorem dup_mmap_exact old tv dv ev sv s : let '(e, l, s') := dup_mmap a old (tv, dv, ev, sv) s in
  (l = [] /\ e <> 0 /\ (forall r, taken s' r = taken s r) /\ map_count s' = map_count s \/
   exists k, (k <= length old)%nat /\ l = slots k old /\ (e = 0 -> k = length old) /\
     (forall r, taken s' r = taken s r + owed (copies (take k old)) r) /\
     map_count s' = map_count s + Z.of_nat (length (copies (take k old))) /\
     total_vm s' = tv - left_out any_stat (stat_of a) (take k old) /\
     data_vm s' = dv - left_out (in_stat DataVm) (stat_of a) (take k old) /\
     exec_vm s' = ev - left_out (in_stat ExecVm) (stat_of a) (take k old) /\
     stack_vm s' = sv - left_out (in_stat StackVm) (stat_of a) (take k old)) /\
  uprobe_dup s' = false /\ (killed a = false -> uf s' = 0 /\ old_locked s' = false /\ new_locked s' = false).
Proof.
  unfold dup_mmap. destruct (killed a); [by split; [left|]|]. cbv zeta.
  destruct (c_true (ksm_err a)) eqn:Hk; [split; [left; split_and!; [done|by apply c_true_true|done..]|done]|].
  destruct (c_true (mt_dup_err a)) eqn:Hm; [split; [left; split_and!; [done|by apply c_true_true|done..]|done]|].
  set (s1 := with_stats _ _ _ _ _ _). pose proof (dup_vmas_ok old 0 s1) as H. destruct (dup_vmas a 0 old s1) as [[e l] s'].
  destruct H as (k & Hl & [-> [M1 M2 M3 M4 M5 M6]] & He). split; [|done]. right. exists k. by split_and!.
Qed.

(** On success every slot is an area of the child. *)
Lemma slots_all old : slots (length old) old = map OwnVma (copies old).
Proof. unfold slots. by rewrite firstn_all, drop_all, app_nil_r. Qed.
End proofs.
