(* ===== verification/VmArea.v ===== *)
(** * Memory of the mappings (kernel/fork.c: vm_area_alloc to vm_area_free)

    A vm_area_struct is made empty or as a copy of another, may fail for its own memory or
    for that of its lock, and is freed: with CONFIG_PER_VMA_LOCK only after a grace period,
    because a page fault may have found it without the lock of its address space and be
    trying its own lock.  Such a page fault runs in an RCU read-side section: the store
    keeps the sections that are open with the area each has found, and a queued area keeps
    the sections that were open when it was queued, which is what its grace period waits
    for.  The names of anonymous areas are counted; who makes, gives out and drops a name
    (prctl, mm/madvise.c) is part of the histories.  MmCopy counts the areas that dup_mmap
    makes this way; here are the areas themselves. *)
From S2P Require Import Prelude MmLife.

Record vm_area := {
  vm_mm : nat; vm_start : Z; vm_end : Z; area_flags : Z; area_file : option nat;
  vm_lock : option nat; vm_lock_seq : Z;
  anon_vma_chain : list nat;
  numab_state : option nat;
  anon_name : option nat;               (** a counted name *)
  vm_rcu : option (gset nat)            (** queued for freeing; the read-side sections open then *)
}.

Record area_store := {
  areas : gmap nat vm_area;
  locks : gmap nat Z;                   (** readers that hold the lock *)
  name_refs : nat -> Z;
  faults : gmap nat (option nat)        (** the page faults in a read-side section, with what they found *)
}.

Definition set_area (v : nat) (o : option vm_area) (s : area_store) : area_store :=
  {| areas := put_slot v o (areas s); locks := locks s; name_refs := name_refs s; faults := faults s |}.
Definition set_lock (l : nat) (o : option Z) (s : area_store) : area_store :=
  {| areas := areas s; locks := put_slot l o (locks s); name_refs := name_refs s; faults := faults s |}.
Definition add_name (d : Z) (n : option nat) (s : area_store) : area_store :=
  match n with
  | Some n => {| areas := areas s; locks := locks s; name_refs := shift d n (name_refs s); faults := faults s |}
  | None => s
  end.
Definition set_fault (p : nat) (o : option (option nat)) (s : area_store) : area_store :=
  {| areas := areas s; locks := locks s; name_refs := name_refs s; faults := put_slot p o (faults s) |}.

Definition with_lock (l : option nat) (seq : Z) (x : vm_area) : vm_area :=
  {| vm_mm := vm_mm x; vm_start := vm_start x; vm_end := vm_end x; area_flags := area_flags x; area_file := area_file x; vm_lock := l;
     vm_lock_seq := seq; anon_vma_chain := anon_vma_chain x; numab_state := numab_state x; anon_name := anon_name x; vm_rcu := vm_rcu x |}.
Definition with_rcu (b : option (gset nat)) (x : vm_area) : vm_area :=
  {| vm_mm := vm_mm x; vm_start := vm_start x; vm_end := vm_end x; area_flags := area_flags x; area_file := area_file x; vm_lock := vm_lock x;
     vm_lock_seq := vm_lock_seq x; anon_vma_chain := anon_vma_chain x; numab_state := numab_state x; anon_name := anon_name x; vm_rcu := b |}.

Definition with_name (n : option nat) (x : vm_area) : vm_area :=
  {| vm_mm := vm_mm x; vm_start := vm_start x; vm_end := vm_end x; area_flags := area_flags x; area_file := area_file x; vm_lock := vm_lock x;
     vm_lock_seq := vm_lock_seq x; anon_vma_chain := anon_vma_chain x; numab_state := numab_state x; anon_name := n; vm_rcu := vm_rcu x |}.

(** linux/mm.h: a zeroed area of [mm]. *)
Definition vma_init (mm : nat) : vm_area :=
  {| vm_mm := mm; vm_start := 0; vm_end := 0; area_flags := 0; area_file := None; vm_lock := None; vm_lock_seq := 0; anon_vma_chain := [];
     numab_state := None; anon_name := None; vm_rcu := None |}.

Class AreaConfig := { config_per_vma_lock : bool }.

Section ops.
Context {C : AreaConfig}.

(** [lk] is the answer of the lock's cache. *)
Definition vma_lock_alloc (lk : option nat) (x : vm_area) (s : area_store) : bool * vm_area * area_store :=
  if negb config_per_vma_lock then (true, x, s)
  else
    match lk with
    | None => (false, with_lock None (vm_lock_seq x) x, s)
    | Some l => (true, with_lock (Some l) (-1) x, set_lock l (Some 0) s)
    end.

Definition vma_lock_free (x : vm_area) (s : area_store) : area_store :=
  if config_per_vma_lock then match vm_lock x with Some l => set_lock l None s | None => s end else s.

(** [mem] and [lk] are the answers of the two caches. *)
Definition vm_area_alloc (mem lk : option nat) (mm : nat) (s : area_store) : option nat * area_store :=
  match mem with
  | None => (None, s)
  | Some v =>
      let '(ok, x, s) := vma_lock_alloc lk (vma_init mm) s in
      if negb ok then (None, s) else (Some v, set_area v (Some x) s)
  end.

Definition vm_area_dup (mem lk : option nat) (orig : vm_area) (s : area_store) : option nat * area_store :=
  match mem with
  | None => (None, s)
  | Some v =>
      let '(ok, x, s) := vma_lock_alloc lk orig s in
      if negb ok then (None, s)
      else
        let x := {| vm_mm := vm_mm x; vm_start := vm_start x; vm_end := vm_end x; area_flags := area_flags x; area_file := area_file x;
                    vm_lock := vm_lock x; vm_lock_seq := vm_lock_seq x; anon_vma_chain := []; numab_state := None; anon_name := anon_name orig;
                    vm_rcu := vm_rcu x |} in
        (Some v, set_area v (Some x) (add_name 1 (anon_name orig) s))
  end.

Definition __vm_area_free (v : nat) (s : area_store) : option area_store :=
  x ← areas s !! v;
  Some (set_area v None (vma_lock_free x (add_name (-1) (anon_name x) s))).

(** [None]: the lock is held, which the code takes for a bug, or nothing is queued. *)
Definition vm_area_free_rcu_cb (v : nat) (s : area_store) : option area_store :=
  x ← areas s !! v;
  l ← vm_lock x;
  r ← locks s !! l;
  if c_true r || bool_decide (vm_rcu x = None) then None else __vm_area_free v s.

Definition vm_area_free (v : nat) (s : area_store) : option area_store :=
  if config_per_vma_lock then
    x ← areas s !! v;
    match vm_rcu x with
    | Some _ => None
    | None => Some (set_area v (Some (with_rcu (Some (dom (faults s))) x)) s)
    end
  else __vm_area_free v s.

(** ** The rest of the kernel *)

(** A page fault tries the lock of the area it found: who frees the area has locked it for
    writing, so the try fails there; the area and its lock are read in either case. *)
Definition vma_start_read (v : nat) (s : area_store) : option area_store :=
  x ← areas s !! v;
  l ← vm_lock x;
  r ← locks s !! l;
  match vm_rcu x with Some _ => Some s | None => Some (set_lock l (Some (r + 1)) s) end.

(** It leaves the lock. *)
Definition vma_end_read (v : nat) (s : area_store) : option area_store :=
  x ← areas s !! v;
  l ← vm_lock x;
  r ← locks s !! l;
  Some (set_lock l (Some (r - 1)) s).

(** An area gets a name, or none: a reference on the new one, and the old one is dropped. *)
Definition replace_anon_vma_name (v : nat) (n : option nat) (s : area_store) : option area_store :=
  x ← areas s !! v;
  Some (set_area v (Some (with_name n x)) (add_name (-1) (anon_name x) (add_name 1 n s))).
End ops.

(** ** Every area has its lock *)

Definition owns (l : nat) (x : vm_area) : Z := b2z (bool_decide (vm_lock x = Some l)).
Definition named (n : nat) (x : vm_area) : Z := b2z (bool_decide (anon_name x = Some n)).
Definition there (o : option Z) : Z := match o with Some _ => 1 | None => 0 end.

Section invariant.
Context {C : AreaConfig}.

(** A lock belongs to exactly one area; the names are counted, [g] are the references of
    others; what is queued is unlocked; what a page fault found is there, and its grace
    period waits for that page fault. *)
Record area_inv (s : area_store) (g : nat -> Z) : Prop := {
  ai_lock : forall l, csum (owns l) (areas s) = there (locks s !! l);
  ai_has : forall v x, areas s !! v = Some x -> if config_per_vma_lock then is_Some (vm_lock x) else vm_lock x = None /\ vm_rcu x = None;
  ai_name : forall n, name_refs s n = g n + csum (named n) (areas s);
  ai_queued : forall v x l, areas s !! v = Some x -> is_Some (vm_rcu x) -> vm_lock x = Some l -> locks s !! l = Some 0;
  ai_readers : forall l r, locks s !! l = Some r -> 0 <= r;
  ai_found : forall p v, faults s !! p = Some (Some v) ->
    config_per_vma_lock = true /\ exists x, areas s !! v = Some x /\ forall w, vm_rcu x = Some w -> p ∈ w;
  ai_holders : forall n, 0 <= g n
}.

Lemma owns_nonneg l x : 0 <= owns l x.
Proof. unfold owns. by destruct (bool_decide _). Qed.
Lemma owns_at l x : vm_lock x = Some l -> owns l x = 1.
Proof. intros H. unfold owns. by rewrite bool_decide_eq_true_2. Qed.
Lemma owns_else l x : vm_lock x <> Some l -> owns l x = 0.
Proof. intros H. unfold owns. by rewrite bool_decide_eq_false_2. Qed.

Lemma unnamed n x : anon_name x = None -> named n x = 0.
Proof. intros H. unfold named. by rewrite H, bool_decide_eq_false_2. Qed.

Lemma lock_there s g v x l : area_inv s g -> areas s !! v = Some x -> vm_lock x = Some l -> is_Some (locks s !! l).
Proof.
  intros I Hx Hl. pose proof (ai_lock _ _ I l) as H. pose proof (csum_member _ _ v x (owns_nonneg l) Hx) as Hm. rewrite (owns_at l x Hl) in Hm.
  destruct (locks s !! l); [done|]. cbn in H. lia.
Qed.

Lemma lock_unique s g v v' x x' l : area_inv s g -> areas s !! v = Some x -> areas s !! v' = Some x' -> vm_lock x = Some l -> vm_lock x' = Some l -> v = v'.
Proof.
  intros I Hx Hx' Hl Hl'. destruct (decide (v = v')) as [|Hn]; [done|]. pose proof (ai_lock _ _ I l) as H.
  assert (Hd : delete v (areas s) !! v' = Some x') by (by rewrite lookup_delete_ne).
  pose proof (csum_member _ _ v' x' (owns_nonneg l) Hd) as Hm. rewrite (csum_delete _ _ v x Hx), (owns_at l x Hl), (owns_at l x' Hl') in Hm.
  destruct (locks s !! l); cbn in H; lia.
Qed.

(** A new area in slot [v], with a lock of its own where there are locks. *)
Lemma area_new_inv s g s' v x : area_inv s g -> areas s !! v = None -> areas s' = put_slot v (Some x) (areas s) -> vm_rcu x = None -> faults s' = faults s ->
  (if config_per_vma_lock then exists l, vm_lock x = Some l /\ locks s !! l = None /\ locks s' = put_slot l (Some 0) (locks s)
   else vm_lock x = None /\ locks s' = locks s) ->
  (forall n, name_refs s' n = name_refs s n + named n x) -> area_inv s' g.
Proof.
  intros I Hv Ha Hr Hfl Hl Hn.
  assert (Hfound : forall p u, faults s' !! p = Some (Some u) ->
    config_per_vma_lock = true /\ exists y, put_slot v (Some x) (areas s) !! u = Some y /\ forall w, vm_rcu y = Some w -> p ∈ w).
  { intros p u. rewrite Hfl. intros Hf. destruct (ai_found _ _ I p u Hf) as (Hc & y & Hy & Hw). split; [done|].
    exists y. rewrite lookup_slot_ne by congruence. done. }
  destruct config_per_vma_lock eqn:Hc; constructor; rewrite ?Ha; try (exact (ai_holders _ _ I));
    try (intros p u Hf; destruct (Hfound p u Hf) as [Hcc Hy]; split; [congruence|exact Hy]).
  - destruct Hl as (l & Hxl & Hfree & Hlk). intros k. rewrite csum_slot, Hv, Hlk, (ai_lock _ _ I). cbn [part].
    destruct (decide (k = l)) as [-> |Hk]; [by rewrite lookup_slot, Hfree, (owns_at l x Hxl)|]. rewrite lookup_slot_ne, (owns_else k x) by congruence. lia.
  - destruct Hl as (l & Hxl & _). intros u y. destruct (decide (u = v)) as [-> |Hu]; [rewrite lookup_slot; intros [= <-]; rewrite Hc; by exists l|].
    rewrite lookup_slot_ne by done. apply I.
  - intros n. rewrite Hn, csum_slot, Hv, (ai_name _ _ I). cbn [part]. lia.
  - destruct Hl as (l & Hxl & Hfree & Hlk). intros u y k. destruct (decide (u = v)) as [-> |Hu]; [rewrite lookup_slot; intros [= <-] [w Hw]; congruence|].
    rewrite lookup_slot_ne, Hlk by done. intros Hy Hq Hk. destruct (decide (k = l)) as [-> |Hkl]; [by rewrite lookup_slot|].
    rewrite lookup_slot_ne by done. by eapply I.
  - destruct Hl as (l & _ & _ & Hlk). intros k r. rewrite Hlk. destruct (decide (k = l)) as [-> |Hk]; [rewrite lookup_slot; by intros [= <-]|].
    rewrite lookup_slot_ne by done. apply I.
  - destruct Hl as (Hxl & Hlk). intros k. rewrite csum_slot, Hv, Hlk, (ai_lock _ _ I). cbn [part]. rewrite (owns_else k x) by congruence. lia.
  - destruct Hl as (Hxl & _). intros u y. destruct (decide (u = v)) as [-> |Hu]; [rewrite lookup_slot; intros [= <-]; by rewrite Hc|].
    rewrite lookup_slot_ne by done. apply I.
  - intros n. rewrite Hn, csum_slot, Hv, (ai_name _ _ I). cbn [part]. lia.
  - destruct Hl as (_ & Hlk). intros u y k. destruct (decide (u = v)) as [-> |Hu]; [rewrite lookup_slot; intros [= <-] [w Hw]; congruence|].
    rewrite lookup_slot_ne, Hlk by done. apply I.
  - destruct Hl as (_ & Hlk). rewrite Hlk. apply I.
Qed.

(** One area less, with its lock. *)
Lemma free_inv s g v x : area_inv s g -> areas s !! v = Some x -> (forall p, faults s !! p <> Some (Some v)) -> exists s', __vm_area_free v s = Some s' /\ area_inv s' g /\ areas s' = delete v (areas s).
Proof.
  intros I Hx Hnf. unfold __vm_area_free. rewrite Hx. cbn [mbind option_bind]. set (s1 := add_name _ _ s). eexists; split; [done|].
  assert (Ha1 : areas s1 = areas s /\ locks s1 = locks s /\ faults s1 = faults s) by (subst s1; unfold add_name; by destruct (anon_name x)).
  destruct Ha1 as (Ha1 & Hl1 & Hf1).
  assert (Hn1 : forall n, name_refs s1 n = name_refs s n - named n x).
  { intros n. subst s1. unfold add_name, named. destruct (anon_name x) as [k|]; cbn; [|rewrite bool_decide_eq_false_2 by done; cbn; lia].
    unfold shift. case_decide; subst; [rewrite bool_decide_eq_true_2 by done|rewrite bool_decide_eq_false_2 by congruence]; cbn; lia. }
  clearbody s1. set (s2 := vma_lock_free x s1).
  assert (H2 : areas s2 = areas s /\ name_refs s2 = name_refs s1 /\ faults s2 = faults s)
    by (subst s2; unfold vma_lock_free; by destruct config_per_vma_lock, (vm_lock x)).
  destruct H2 as (Ha2 & Hn2 & Hf2). assert (Hl2 : forall l, locks s2 !! l = if bool_decide (vm_lock x = Some l) then None else locks s !! l).
  { intros l. subst s2. unfold vma_lock_free. pose proof (ai_has _ _ I v x Hx) as Hh. destruct config_per_vma_lock.
    - destruct Hh as [k Hk]. rewrite Hk. cbn [set_lock locks]. rewrite Hl1. destruct (decide (l = k)) as [-> |Hn].
      + by rewrite lookup_slot, bool_decide_eq_true_2.
      + by rewrite lookup_slot_ne, bool_decide_eq_false_2 by congruence.
    - destruct Hh as [-> _]. by rewrite Hl1, bool_decide_eq_false_2. }
  split; [|cbn; by rewrite Ha2]. constructor; cbn [set_area areas locks name_refs faults]; rewrite ?Ha2, ?Hf2.
  - intros l. rewrite csum_slot, Hx, (ai_lock _ _ I), Hl2. cbn [part]. unfold owns. case_bool_decide as Hl; cbn; [|lia].
    destruct (lock_there s g v x l I Hx Hl) as [r ->]. cbn. lia.
  - intros u y. destruct (decide (u = v)) as [-> |Hu]; [by rewrite lookup_slot|]. rewrite lookup_slot_ne by done. apply I.
  - intros n. rewrite csum_slot, Hx, Hn2, Hn1, (ai_name _ _ I). cbn [part]. lia.
  - intros u y l. destruct (decide (u = v)) as [-> |Hu]; [by rewrite lookup_slot|]. rewrite lookup_slot_ne by done. intros Hy Hq Hl. rewrite Hl2.
    case_bool_decide as Hxl; [destruct Hu; by eapply lock_unique|by eapply I].
  - intros l r. rewrite Hl2. case_bool_decide; [done|apply I].
  - intros p u Hp. destruct (ai_found _ _ I p u Hp) as (Hc & y & Hy & Hw). split; [done|]. exists y. rewrite lookup_slot_ne; [done|].
    intros ->. by apply (Hnf p).
  - apply I.
Qed.

(** An area is queued for freeing. *)
Lemma queue_inv s g v x : area_inv s g -> config_per_vma_lock = true -> areas s !! v = Some x -> vm_rcu x = None ->
  (forall l, vm_lock x = Some l -> locks s !! l = Some 0) -> area_inv (set_area v (Some (with_rcu (Some (dom (faults s))) x)) s) g.
Proof.
  intros I Hc Hx Hr Hl. set (q := Some (dom (faults s))). constructor; cbn [set_area areas locks name_refs faults].
  - intros l. rewrite csum_slot, Hx, (ai_lock _ _ I). cbn [part]. change (owns l (with_rcu q x)) with (owns l x). lia.
  - intros u y. destruct (decide (u = v)) as [-> |Hu]; [|rewrite lookup_slot_ne by done; apply I]. rewrite lookup_slot. intros [= <-].
    pose proof (ai_has _ _ I v x Hx) as Hh. by rewrite Hc in *.
  - intros n. rewrite csum_slot, Hx, (ai_name _ _ I). cbn [part]. change (named n (with_rcu q x)) with (named n x). lia.
  - intros u y l. destruct (decide (u = v)) as [-> |Hu]; [|rewrite lookup_slot_ne by done; apply I]. rewrite lookup_slot. intros [= <-] _. apply Hl.
  - apply I.
  - intros p u Hp. destruct (ai_found _ _ I p u Hp) as (_ & y & Hy & Hw). split; [done|]. destruct (decide (u = v)) as [-> |Hu].
    + rewrite lookup_slot. eexists; split; [done|]. intros w [= <-]. apply elem_of_dom. by rewrite Hp.
    + rewrite lookup_slot_ne by done. by exists y.
  - apply I.
Qed.

(** The readers of a lock change. *)
Lemma readers_inv s g v x l r r' : area_inv s g -> areas s !! v = Some x -> vm_rcu x = None -> vm_lock x = Some l -> locks s !! l = Some r -> 0 <= r' ->
  area_inv (set_lock l (Some r') s) g.
Proof.
  intros I Hx Hq Hl Hr Hd. constructor; cbn [set_lock areas locks name_refs faults]; try apply I.
  - intros k. rewrite (ai_lock _ _ I). destruct (decide (k = l)) as [-> |Hk]; [by rewrite lookup_slot, Hr|by rewrite lookup_slot_ne].
  - intros u y k Hu Hy Hk. destruct (decide (k = l)) as [-> |Hn]; [|rewrite lookup_slot_ne by done; by eapply I].
    rewrite (lock_unique s g u v y x l I Hu Hx Hk Hl) in Hu. rewrite Hx in Hu. injection Hu as <-. rewrite Hq in Hy. by destruct Hy.
  - intros k q. destruct (decide (k = l)) as [-> |Hk]; [rewrite lookup_slot; by intros [= <-]|]. rewrite lookup_slot_ne by done. apply I.
Qed.

(** A page fault reads the area it found, which is there although it may be queued. *)
Lemma start_read_inv s g p v : area_inv s g -> faults s !! p = Some (Some v) -> exists s', vma_start_read v s = Some s' /\ area_inv s' g.
Proof.
  intros I Hp. destruct (ai_found _ _ I p v Hp) as (Hc & x & Hx & _). pose proof (ai_has _ _ I v x Hx) as Hh. rewrite Hc in Hh. destruct Hh as [l Hl].
  destruct (lock_there s g v x l I Hx Hl) as [r Hr]. pose proof (ai_readers _ _ I l r Hr). unfold vma_start_read. rewrite Hx. cbn [mbind option_bind].
  rewrite Hl. cbn [mbind option_bind]. rewrite Hr. cbn [mbind option_bind]. destruct (vm_rcu x) eqn:Hq; [by exists s|].
  eexists; split; [done|]. by apply (readers_inv s g v x l r); try done; lia.
Qed.

(** Read-side sections. *)
Lemma fault_inv s g p o : area_inv s g ->
  (forall v, o = Some (Some v) -> config_per_vma_lock = true /\ exists x, areas s !! v = Some x /\ vm_rcu x = None) -> area_inv (set_fault p o s) g.
Proof.
  intros I Ho. constructor; cbn [set_fault areas locks name_refs faults]; try apply I. intros q v. destruct (decide (q = p)) as [-> |Hq].
  - rewrite lookup_slot. intros ->. destruct (Ho v eq_refl) as (Hc & x & Hx & Hn). split; [done|]. exists x. split; [done|]. congruence.
  - rewrite lookup_slot_ne by done. apply I.
Qed.

(** *** Names *)

Lemma add_name_refs d o s n : name_refs (add_name d o s) n = name_refs s n + d * b2z (bool_decide (o = Some n)).
Proof.
  unfold add_name. destruct o as [k|]; cbn [name_refs]; [|rewrite bool_decide_eq_false_2 by done; cbn; lia].
  unfold shift. case_decide; subst; [rewrite bool_decide_eq_true_2 by done|rewrite bool_decide_eq_false_2 by congruence]; cbn; lia.
Qed.

Lemma add_name_else d o s : areas (add_name d o s) = areas s /\ locks (add_name d o s) = locks s /\ faults (add_name d o s) = faults s.
Proof. unfold add_name. by destruct o. Qed.

(** Others take and drop references on a name. *)
Lemma name_ref_inv s g d n : area_inv s g -> 0 <= g n + d -> area_inv (add_name d (Some n) s) (shift d n g).
Proof.
  intros I Hd. constructor; cbn [add_name areas locks name_refs faults]; try apply I.
  - intros k. unfold shift. pose proof (ai_name _ _ I k). case_decide; lia.
  - intros k. unfold shift. pose proof (ai_holders _ _ I k). case_decide; subst; lia.
Qed.

Lemma replace_name_inv s g v x n : area_inv s g -> areas s !! v = Some x -> exists s', replace_anon_vma_name v n s = Some s' /\ area_inv s' g.
Proof.
  intros I Hx. unfold replace_anon_vma_name. rewrite Hx. cbn [mbind option_bind]. eexists; split; [done|].
  set (s1 := add_name 1 n s). destruct (add_name_else (-1) (anon_name x) s1) as (Ha & Hl & Hf), (add_name_else 1 n s) as (Ha' & Hl' & Hf'). fold s1 in Ha', Hl', Hf'.
  constructor; cbn [set_area areas locks name_refs faults]; rewrite ?Ha, ?Ha', ?Hl, ?Hl', ?Hf, ?Hf'; try apply I.
  - intros l. rewrite csum_slot, Hx, (ai_lock _ _ I). cbn [part]. change (owns l (with_name n x)) with (owns l x). lia.
  - intros u y. destruct (decide (u = v)) as [-> |Hu]; [|rewrite lookup_slot_ne by done; apply I]. rewrite lookup_slot. intros [= <-]. exact (ai_has _ _ I v x Hx).
  - intros k. rewrite csum_slot, Hx. cbn [part]. unfold named at 2 3. cbn [with_name anon_name]. subst s1. rewrite !add_name_refs, (ai_name _ _ I). lia.
  - intros u y l. destruct (decide (u = v)) as [-> |Hu]; [|rewrite lookup_slot_ne by done; apply I]. rewrite lookup_slot. intros [= <-]. exact (ai_queued _ _ I v x l Hx).
  - intros p u Hp. destruct (ai_found _ _ I p u Hp) as (Hc & y & Hy & Hw). split; [done|]. destruct (decide (u = v)) as [-> |Hu].
    + rewrite lookup_slot. eexists; split; [done|]. rewrite Hx in Hy. by injection Hy as <-.
    + rewrite lookup_slot_ne by done. by exists y.
Qed.

(** *** Making *)

(** The caches hand out free slots. *)
Definition free_slots (mem lk : option nat) (s : area_store) : Prop :=
  (forall v, mem = Some v -> areas s !! v = None) /\ (forall l, lk = Some l -> locks s !! l = None).

Lemma alloc_inv mem lk mm s g : area_inv s g -> free_slots mem lk s ->
  let '(r, s') := vm_area_alloc mem lk mm s in area_inv s' g /\ (r = None -> s' = s).
Proof.
  intros I [Hm Hl]. unfold vm_area_alloc. destruct mem as [v|]; [|done]. specialize (Hm v eq_refl). unfold vma_lock_alloc.
  destruct config_per_vma_lock eqn:Hc; cbn [negb].
  - destruct lk as [l|]; cbn [negb]; [|done]. split; [|done]. eapply (area_new_inv s g _ v); [exact I|exact Hm|done|done|done|rewrite Hc; exists l; by auto|].
    intros n. rewrite unnamed by done. cbn. lia.
  - split; [|done]. eapply (area_new_inv s g _ v); [exact I|exact Hm|done|done|done|by rewrite Hc|].
    intros n. rewrite unnamed by done. cbn. lia.
Qed.

Lemma dup_inv mem lk orig s g : area_inv s g -> free_slots mem lk s -> vm_rcu orig = None -> (config_per_vma_lock = false -> vm_lock orig = None) ->
  let '(r, s') := vm_area_dup mem lk orig s in area_inv s' g /\ (r = None -> s' = s).
Proof.
  intros I [Hm Hl] Hr Hnl. unfold vm_area_dup. destruct mem as [v|]; [|done]. specialize (Hm v eq_refl). unfold vma_lock_alloc.
  assert (Hn : forall s' n, name_refs s' n = name_refs s n -> name_refs (add_name 1 (anon_name orig) s') n = name_refs s n + named n orig).
  { intros s' n <-. rewrite add_name_refs. unfold named. lia. }
  assert (Hk : forall s', areas (add_name 1 (anon_name orig) s') = areas s' /\ locks (add_name 1 (anon_name orig) s') = locks s' /\
    faults (add_name 1 (anon_name orig) s') = faults s') by (intros; apply add_name_else).
  destruct config_per_vma_lock eqn:Hc; cbn [negb].
  - destruct lk as [l|]; cbn [negb]; [|done]. split; [|done]. specialize (Hl l eq_refl).
    eapply (area_new_inv s g _ v); [exact I|exact Hm|cbn [set_area areas]; by rewrite (proj1 (Hk _))|done|cbn [set_area faults]; by rewrite (proj2 (proj2 (Hk _)))| |].
    + rewrite Hc. exists l. split_and!; [done..|]. cbn [set_area locks]. by rewrite (proj1 (proj2 (Hk _))).
    + intros n. cbn [set_area name_refs]. by rewrite Hn.
  - split; [|done]. eapply (area_new_inv s g _ v); [exact I|exact Hm|cbn [set_area areas]; by rewrite (proj1 (Hk _))|done|cbn [set_area faults]; by rewrite (proj2 (proj2 (Hk _)))| |].
    + rewrite Hc. split; [by apply Hnl|]. cbn [set_area locks]. by rewrite (proj1 (proj2 (Hk _))).
    + intros n. cbn [set_area name_refs]. by rewrite Hn.
Qed.


(** ** Histories *)

(** Mappings come, are copied and go; grace periods end; page faults enter a read-side
    section, find an area, try its lock, leave the section and the lock; names are made,
    given to areas and dropped. *)
Inductive area_op :=
  | AreaAlloc (mem lk : option nat) (mm : nat) | AreaDup (mem lk : option nat) (v : nat) | AreaFree (v : nat) | GraceEnds (v : nat)
  | FaultEnter (p : nat) | FaultFind (p v : nat) | FaultTry (p v : nat) | FaultLeave (p : nat) | ReadUnlock (v : nat)
  | NameGet (n : nat) | NamePut (n : nat) | NameArea (v : nat) (n : option nat).

Definition area_live (v : nat) (s : area_store) : Prop := exists x, areas s !! v = Some x /\ vm_rcu x = None.

(** An area is freed by who write-locked and detached it, so that nobody holds its lock and
    no page fault finds it any more, but page faults that found it before may still be about
    to try its lock.  A grace period ends when every read-side section that was open at its
    beginning is over.  A name is given by who holds a reference on it. *)
Definition area_allowed (op : area_op) (s : area_store) (g : nat -> Z) : Prop :=
  match op with
  | AreaAlloc mem lk _ => free_slots mem lk s
  | AreaDup mem lk v => free_slots mem lk s /\ area_live v s
  | AreaFree v => exists x, areas s !! v = Some x /\ vm_rcu x = None /\ forall l, vm_lock x = Some l -> locks s !! l = Some 0
  | GraceEnds v => exists x w, areas s !! v = Some x /\ vm_rcu x = Some w /\ forall p, p ∈ w -> faults s !! p = None
  | FaultEnter p => faults s !! p = None
  | FaultFind p v => config_per_vma_lock = true /\ faults s !! p = Some None /\ area_live v s
  | FaultTry p v => faults s !! p = Some (Some v)
  | FaultLeave p => is_Some (faults s !! p)
  | ReadUnlock v => exists x l r, areas s !! v = Some x /\ vm_rcu x = None /\ vm_lock x = Some l /\ locks s !! l = Some r /\ 0 < r
  | NameGet n => True
  | NamePut n => 0 < g n
  | NameArea v n => area_live v s /\ forall k, n = Some k -> 0 < g k
  end.

Definition area_run (op : area_op) (s : area_store) (g : nat -> Z) : option (area_store * (nat -> Z)) :=
  match op with
  | AreaAlloc mem lk mm => Some ((vm_area_alloc mem lk mm s).2, g)
  | AreaDup mem lk v => x ← areas s !! v; Some ((vm_area_dup mem lk x s).2, g)
  | AreaFree v => s ← vm_area_free v s; Some (s, g)
  | GraceEnds v => s ← vm_area_free_rcu_cb v s; Some (s, g)
  | FaultEnter p => Some (set_fault p (Some None) s, g)
  | FaultFind p v => Some (set_fault p (Some (Some v)) s, g)
  | FaultTry p v => s ← vma_start_read v s; Some (s, g)
  | FaultLeave p => Some (set_fault p None s, g)
  | ReadUnlock v => s ← vma_end_read v s; Some (s, g)
  | NameGet n => Some (add_name 1 (Some n) s, shift 1 n g)
  | NamePut n => Some (add_name (-1) (Some n) s, shift (-1) n g)
  | NameArea v n => s ← replace_anon_vma_name v n s; Some (s, g)
  end.

(** Nobody that found an area is left when its grace period is over. *)
Lemma grace_over s g v x w : area_inv s g -> areas s !! v = Some x -> vm_rcu x = Some w -> (forall p, p ∈ w -> faults s !! p = None) ->
  forall p, faults s !! p <> Some (Some v).
Proof. intros I Hx Hq Hw p Hp. destruct (ai_found _ _ I p v Hp) as (_ & y & Hy & Hin). rewrite Hx in Hy. injection Hy as <-. by rewrite Hw in Hp by auto. Qed.

Lemma area_run_inv op s g : area_inv s g -> area_allowed op s g -> exists s' g', area_run op s g = Some (s', g') /\ area_inv s' g'.
Proof.
  intros I. destruct op; cbn [area_allowed area_run].
  - intros Hf. pose proof (alloc_inv mem lk mm s g I Hf) as H. destruct (vm_area_alloc _ _ _ _). eexists _, _; split; [done|apply H].
  - intros (Hf & x & Hx & Hq). rewrite Hx. cbn [mbind option_bind]. assert (Hnl : config_per_vma_lock = false -> vm_lock x = None).
    { intros Hc. pose proof (ai_has _ _ I v x Hx) as Hh. rewrite Hc in Hh. apply Hh. }
    pose proof (dup_inv mem lk x s g I Hf Hq Hnl) as H. destruct (vm_area_dup _ _ _ _). eexists _, _; split; [done|apply H].
  - intros (x & Hx & Hq & Hl). unfold vm_area_free. destruct config_per_vma_lock eqn:Hc.
    + rewrite Hx. cbn [mbind option_bind]. rewrite Hq. eexists _, _; split; [done|]. by apply queue_inv.
    + destruct (free_inv s g v x I Hx) as (s' & -> & I' & _); [|by eexists _, _]. intros p Hp. destruct (ai_found _ _ I p v Hp). congruence.
  - intros (x & w & Hx & Hq & Hw). pose proof (ai_has _ _ I v x Hx) as Hh. unfold vm_area_free_rcu_cb. rewrite Hx. cbn [mbind option_bind].
    destruct config_per_vma_lock; [|destruct Hh; congruence]. destruct Hh as [l Hl]. rewrite Hl. cbn [mbind option_bind].
    rewrite (ai_queued _ _ I v x l Hx ltac:(by rewrite Hq) Hl). cbn [mbind option_bind]. rewrite Hq, bool_decide_eq_false_2 by done. cbn [c_true Z.eqb negb orb].
    destruct (free_inv s g v x I Hx) as (s' & -> & I' & _); [by eapply grace_over|]. by eexists _, _.
  - intros Hp. eexists _, _; split; [done|]. by apply fault_inv.
  - intros (Hc & Hp & Hv). eexists _, _; split; [done|]. apply fault_inv; [done|]. by intros u [= <-].
  - intros Hp. destruct (start_read_inv s g p v I Hp) as (s' & -> & I'). by eexists _, _.
  - intros _. eexists _, _; split; [done|]. by apply fault_inv.
  - intros (x & l & r & Hx & Hq & Hl & Hr & Hp). unfold vma_end_read. rewrite Hx. cbn [mbind option_bind]. rewrite Hl. cbn [mbind option_bind]. rewrite Hr.
    eexists _, _; split; [done|]. apply (readers_inv s g v x l r); try done; lia.
  - intros _. eexists _, _; split; [done|]. pose proof (ai_holders _ _ I n). apply name_ref_inv; [done|lia].
  - intros Hn. eexists _, _; split; [done|]. apply name_ref_inv; [done|lia].
  - intros ((x & Hx & _) & _). destruct (replace_name_inv s g v x n I Hx) as (s' & -> & I'). by eexists _, _.
Qed.

Definition no_areas : area_store := {| areas := ∅; locks := ∅; name_refs _ := 0; faults := ∅ |}.

Inductive area_reachable : area_store -> (nat -> Z) -> Prop :=
  | areas_start : area_reachable no_areas (fun _ => 0)
  | areas_step op s g s' g' : area_reachable s g -> area_allowed op s g -> area_run op s g = Some (s', g') -> area_reachable s' g'.

Lemma area_reachable_inv s g : area_reachable s g -> area_inv s g.
Proof.
  induction 1 as [|op s g s' g' _ I Ha Hr]; [by constructor|]. destruct (area_run_inv op s g I Ha) as (s1 & g1 & E1 & I1). rewrite E1 in Hr. by injection Hr as <- <-.
Qed.

(** What vm_area_dup makes: the same area, with its own lock, no anonymous memory of its
    own yet and a share of the name. *)
Definition copied_area (orig x : vm_area) : Prop :=
  vm_mm x = vm_mm orig /\ vm_start x = vm_start orig /\ vm_end x = vm_end orig /\ area_flags x = area_flags orig /\ area_file x = area_file orig /\
  anon_name x = anon_name orig /\ anon_vma_chain x = [] /\ numab_state x = None.

(** C11: along every history of making, copying, naming and freeing mappings, with page
    faults that find an area without the lock of its address space and try its own lock,
    also while the area is being freed: no operation touches a freed area or lock, or frees
    an area whose lock is held; an area a page fault has found is there until the fault has
    left its read-side section; with per-area locks every area has one, no two share it and
    no lock is left without its area, also while areas wait for the end of a grace period;
    a failed allocation changes nothing; and a copy is the original but for its lock, its
    anonymous memory and one more reference on its name, the count of which is the number
    of areas that carry it and of references others hold. *)
Theorem area_lifetimes s g : area_reachable s g ->
  (forall op, area_allowed op s g -> exists r, area_run op s g = Some r) /\
  (forall p v, faults s !! p = Some (Some v) -> is_Some (areas s !! v)) /\
  (config_per_vma_lock = true -> forall v x, areas s !! v = Some x -> exists l, vm_lock x = Some l /\ is_Some (locks s !! l) /\
     forall v' x', areas s !! v' = Some x' -> vm_lock x' = Some l -> v' = v) /\
  (forall l, is_Some (locks s !! l) -> exists v x, areas s !! v = Some x /\ vm_lock x = Some l) /\
  (forall n, name_refs s n = g n + csum (named n) (areas s)) /\
  (forall mem lk mm, free_slots mem lk s -> (vm_area_alloc mem lk mm s).1 = None -> (vm_area_alloc mem lk mm s).2 = s) /\
  (forall mem lk orig, (vm_area_dup mem lk orig s).1 = None -> (vm_area_dup mem lk orig s).2 = s) /\
  forall mem lk orig v, (vm_area_dup mem lk orig s).1 = Some v ->
    exists x, areas (vm_area_dup mem lk orig s).2 !! v = Some x /\ copied_area orig x /\ (config_per_vma_lock = true -> vm_lock x = lk).
Proof.
  intros H. apply area_reachable_inv in H as I. clear H. split_and!.
  - intros op Ha. destruct (area_run_inv op s g I Ha) as (s' & g' & E & _). eauto.
  - intros p v Hp. destruct (ai_found _ _ I p v Hp) as (_ & x & Hx & _). by exists x.
  - intros Hc v x Hx. pose proof (ai_has _ _ I v x Hx) as Hh. rewrite Hc in Hh. destruct Hh as [l Hl]. exists l. split_and!; [done|by eapply lock_there|].
    intros v' x' Hx' Hl'. by eapply lock_unique.
  - intros l [r Hr]. pose proof (ai_lock _ _ I l) as H. rewrite Hr in H. cbn in H. destruct (csum_pos (owns l) (areas s)) as (v & x & Hx & Ho); [lia|].
    exists v, x. split; [done|]. unfold owns in Ho. by case_bool_decide.
  - intros n. apply (ai_name _ _ I).
  - intros mem lk mm Hf. pose proof (alloc_inv mem lk mm s _ I Hf) as H. destruct (vm_area_alloc _ _ _ _). apply H.
  - intros mem lk orig. unfold vm_area_dup, vma_lock_alloc. destruct mem; [|done]. destruct config_per_vma_lock, lk; cbn; try done.
  - intros mem lk orig v. unfold vm_area_dup, vma_lock_alloc. destruct mem as [u|]; [|done]. destruct config_per_vma_lock eqn:Hc, lk as [l|]; cbn [negb fst snd]; try done;
      (intros [= ->]; eexists; (split; [apply lookup_slot|]); (split; [done|]); done).
Qed.

End invariant.

(** ** An example *)

Definition demo_area_config : AreaConfig := {| config_per_vma_lock := true |}.

(** A mapping with a name, its copy, a failed copy, a page fault that finds the original
    before it is freed and tries its lock afterwards, one that locks the copy, and the end
    of the grace period when the first is over. *)
Definition demo_area_ops : list area_op :=
  [AreaAlloc (Some 1%nat) (Some 10%nat) 5; NameGet 7; NameArea 1 (Some 7%nat); NamePut 7; AreaDup (Some 2%nat) (Some 11%nat) 1; AreaDup (Some 3%nat) None 1;
   FaultEnter 0; FaultFind 0 1; AreaFree 1; FaultTry 0 1; FaultEnter 1; FaultFind 1 2; FaultTry 1 2; FaultLeave 0; GraceEnds 1].

Definition free_slotsb (mem lk : option nat) (s : area_store) : bool :=
  match mem with Some v => match areas s !! v with None => true | Some _ => false end | None => true end &&
  match lk with Some l => match locks s !! l with None => true | Some _ => false end | None => true end.

Definition area_allowedb {C : AreaConfig} (op : area_op) (s : area_store) (g : nat -> Z) : bool :=
  let live (v : nat) := match areas s !! v with Some x => bool_decide (vm_rcu x = None) | None => false end in
  let readers (v : nat) := match areas s !! v with Some x => match vm_lock x with Some l => locks s !! l | None => None end | None => None end in
  match op with
  | AreaAlloc mem lk _ => free_slotsb mem lk s
  | AreaDup mem lk v => free_slotsb mem lk s && live v
  | AreaFree v => live v && bool_decide (readers v = Some 0)
  | GraceEnds v => match areas s !! v ≫= vm_rcu with Some w => bool_decide (set_Forall (fun p => faults s !! p = None) w) | None => false end
  | FaultEnter p => bool_decide (faults s !! p = None)
  | FaultFind p v => config_per_vma_lock && bool_decide (faults s !! p = Some None) && live v
  | FaultTry p v => bool_decide (faults s !! p = Some (Some v))
  | FaultLeave p => bool_decide (faults s !! p <> None)
  | ReadUnlock v => live v && match readers v with Some r => 0 <? r | None => false end
  | NameGet _ => true
  | NamePut n => 0 <? g n
  | NameArea v n => live v && match n with Some k => 0 <? g k | None => true end
  end.

Lemma free_slotsb_true mem lk s : free_slotsb mem lk s = true -> free_slots mem lk s.
Proof.
  unfold free_slotsb, free_slots. intros [H1 H2]%andb_true_iff. split; [intros v ->; by destruct (areas s !! v)|intros l ->; by destruct (locks s !! l)].
Qed.

Lemma area_allowedb_true {C : AreaConfig} op s g : area_allowedb op s g = true -> area_allowed op s g.
Proof.
  assert (Hlive : forall v, match areas s !! v with Some x => bool_decide (vm_rcu x = None) | None => false end = true -> area_live v s).
  { intros v. unfold area_live. destruct (areas s !! v) as [x|]; [|done]. intros H%bool_decide_eq_true. by exists x. }
  destruct op; cbn [area_allowedb area_allowed].
  - apply free_slotsb_true.
  - intros [?%free_slotsb_true ?%Hlive]%andb_true_iff. done.
  - intros [(x & Hx & Hq)%Hlive H%bool_decide_eq_true]%andb_true_iff. exists x. split_and!; try done. intros l Hl. by rewrite Hx, Hl in H.
  - destruct (areas s !! v) as [x|]; [|done]. cbn [mbind option_bind]. destruct (vm_rcu x) as [w|] eqn:Hq; [|done]. intros H%bool_decide_eq_true. by exists x, w.
  - apply bool_decide_eq_true.
  - intros [[? ?%bool_decide_eq_true]%andb_true_iff ?%Hlive]%andb_true_iff. done.
  - apply bool_decide_eq_true.
  - intros H%bool_decide_eq_true. by apply not_eq_None_Some.
  - intros [(x & Hx & Hq)%Hlive H]%andb_true_iff. rewrite Hx in H. destruct (vm_lock x) as [l|] eqn:Hl; [|done].
    destruct (locks s !! l) as [r|] eqn:Hr; [|done]. apply Z.ltb_lt in H. by exists x, l, r.
  - done.
  - apply Z.ltb_lt.
  - intros [?%Hlive H]%andb_true_iff. split; [done|]. intros k ->. by apply Z.ltb_lt.
Qed.

Fixpoint area_runs {C : AreaConfig} (ops : list area_op) (s : area_store) (g : nat -> Z) : option (area_store * (nat -> Z)) :=
  match ops with
  | [] => Some (s, g)
  | op :: ops => if area_allowedb op s g then '(s, g) ← area_run op s g; area_runs ops s g else None
  end.

Lemma area_runs_reachable {C : AreaConfig} ops s g s' g' : area_reachable s g -> area_runs ops s g = Some (s', g') -> area_reachable s' g'.
Proof.
  revert s g. induction ops as [|op ops IH]; intros s g H; cbn; [by intros [= <- <-]|]. destruct (area_allowedb op s g) eqn:Ha; [|done].
  destruct (area_run op s g) as [[s1 g1]|] eqn:Hr; [|done]. cbn. apply IH. eapply areas_step; [exact H|by apply area_allowedb_true|exact Hr].
Qed.

Lemma area_lifetimes_witness : exists s g, area_runs (C := demo_area_config) demo_area_ops no_areas (fun _ => 0) = Some (s, g) /\
  areas s !! 1%nat = None /\ locks s !! 11%nat = Some 1 /\ name_refs s 7 = 1 /\ name_refs s 7 = g 7%nat + csum (named 7) (areas s) /\
  exists v x, areas s !! v = Some x /\ vm_lock x = Some 11%nat.
Proof.
  assert (E : match area_runs (C := demo_area_config) demo_area_ops no_areas (fun _ => 0) with
              | Some (s, g) => (bool_decide (areas s !! 1%nat = None), locks s !! 11%nat, name_refs s 7%nat)
              | None => (false, None, 0)
              end = (true, Some 1, 1)) by (vm_compute; reflexivity).
  destruct (area_runs (C := demo_area_config) demo_area_ops no_areas (fun _ => 0)) as [[s g]|] eqn:Hs; [|discriminate E]. injection E as E1 E2 E3.
  apply bool_decide_eq_true in E1. exists s, g.
  destruct (area_lifetimes (C := demo_area_config) s g (area_runs_reachable _ _ _ _ _ areas_start Hs)) as (_ & _ & _ & H & Hn & _).
  split; [reflexivity|]. split; [exact E1|]. split; [exact E2|]. split; [exact E3|]. split; [exact (Hn 7%nat)|].
  apply (H 11%nat). by rewrite E2.
Defined.
