(* ===== verification/LazyTlb.v ===== *)
(** * Before an address space is freed (kernel/fork.c: cleanup_lazy_tlbs, check_mm)

    A kernel thread runs on the address space of whatever ran before it on its processor:
    its [active_mm], borrowed lazily.  With CONFIG_MMU_LAZY_TLB_SHOOTDOWN the borrowing is
    not counted, and the last mmdrop first makes every processor in mm_cpumask switch to
    init_mm by interprocessor calls.  Meanwhile the other processors go on switching
    between tasks, so the shootdown is modelled twice: as the function of the source, and
    as an interleaving of its calls with the scheduler.  switch_mm is the architecture's;
    the model uses that it loads the new page tables and sets the bit of the processor in
    the mask of the new address space. *)
From S2P Require Import Prelude MmLife.

(** ** Processors *)

Record cpu := {
  online : bool;
  cpu_mm : option nat;                  (** current->mm *)
  active_mm : nat;                      (** current->active_mm *)
  loaded_mm : nat                       (** whose page tables are loaded *)
}.

Record machine := {
  cpus : list cpu;
  mm_cpumask : nat -> nat -> bool;      (** address space, processor *)
  warnings : Z                          (** WARN_ON_ONCE that fired *)
}.

Definition set_cpu (i : nat) (c : cpu) (s : machine) : machine :=
  {| cpus := <[i := c]> (cpus s); mm_cpumask := mm_cpumask s; warnings := warnings s |}.
Definition set_mask (m i : nat) (b : bool) (s : machine) : machine :=
  {| cpus := cpus s; mm_cpumask n j := if bool_decide (n = m /\ j = i) then b else mm_cpumask s n j; warnings := warnings s |}.
Definition warn_on (b : bool) (s : machine) : machine :=
  {| cpus := cpus s; mm_cpumask := mm_cpumask s; warnings := warnings s + if b then 1 else 0 |}.

Definition switch_mm (i next : nat) (s : machine) : machine :=
  match cpus s !! i with
  | Some c => set_mask next i true (set_cpu i {| online := online c; cpu_mm := cpu_mm c; active_mm := active_mm c; loaded_mm := next |} s)
  | None => s
  end.

(** ** The calls, on processor [i] *)

Definition do_check_lazy_tlb (m i : nat) (s : machine) : machine :=
  match cpus s !! i with Some c => warn_on (active_mm c =? m)%nat s | None => s end.

Definition do_shoot_lazy_tlb (m i : nat) (s : machine) : machine :=
  match cpus s !! i with
  | Some c =>
      if (active_mm c =? m)%nat then
        let s := warn_on (bool_decide (cpu_mm c <> None)) s in
        let s := set_cpu i {| online := online c; cpu_mm := cpu_mm c; active_mm := init_mm; loaded_mm := loaded_mm c |} s in
        switch_mm i init_mm s
      else s
  | None => s
  end.

Definition is_online (s : machine) (i : nat) : bool := match cpus s !! i with Some c => online c | None => false end.

(** linux/smp.h: the online processors of a mask, and a call on each of them. *)
Definition targets (mask : nat -> bool) (s : machine) : list nat :=
  List.filter (fun i => is_online s i && mask i) (seq 0 (length (cpus s))).
Definition on_each_cpu_mask (mask : nat -> bool) (f : nat -> machine -> machine) (s : machine) : machine :=
  foldl (fun s i => f i s) s (targets mask s).
Definition on_each_cpu (f : nat -> machine -> machine) (s : machine) : machine := on_each_cpu_mask (fun _ => true) f s.

Class LazyConfig := { config_shootdown : bool; config_debug_shoot : bool }.

Section shootdown.
Context {C : LazyConfig}.

Definition cleanup_lazy_tlbs (m : nat) (s : machine) : machine :=
  if negb config_shootdown then s
  else
    let s := on_each_cpu_mask (mm_cpumask s m) (do_shoot_lazy_tlb m) s in
    if config_debug_shoot then on_each_cpu (do_check_lazy_tlb m) s else s.

(** The start of __mmdrop on processor [i], up to the freeing of the page tables. *)
Definition mmdrop_prologue (m i : nat) (s : machine) : option machine :=
  if (m =? init_mm)%nat then None
  else
    let on (P : cpu -> bool) s := match cpus s !! i with Some c => P c | None => false end in
    let s := warn_on (on (fun c => bool_decide (cpu_mm c = Some m)) s) s in
    let s := cleanup_lazy_tlbs m s in
    Some (warn_on (on (fun c => (active_mm c =? m)%nat) s) s).

(** ** Interleaved with the scheduler *)

Inductive phase := Shooting | Checking | Finished.

Record exec := { mach : machine; todo : list nat; at_phase : phase }.

Definition start (m : nat) (s : machine) : exec :=
  if config_shootdown then {| mach := s; todo := targets (mm_cpumask s m) s; at_phase := Shooting |}
  else {| mach := s; todo := []; at_phase := Finished |}.

(** A processor takes its call; the caller goes on when all have; a processor switches to
    a kernel thread, or to a task of another address space; a task gives its address space
    up and stays on it lazily; the architecture drops a stale bit of a mask. *)
Inductive event :=
  | Call (i : nat) | Proceed
  | ToKthread (i : nat) (drop : bool) | ToUser (i m : nat) | ExitMm (i : nat) | ClearBit (m i : nat).

Definition update (i : nat) (f : cpu -> cpu) (s : machine) : machine :=
  match cpus s !! i with Some c => set_cpu i (f c) s | None => s end.

Definition step (m : nat) (e : event) (x : exec) : option exec :=
  let env (s : machine) := Some {| mach := s; todo := todo x; at_phase := at_phase x |} in
  match e with
  | Call i =>
      if bool_decide (i ∈ todo x) then
        let rest := filter (.≠ i) (todo x) in
        match at_phase x with
        | Shooting => Some {| mach := do_shoot_lazy_tlb m i (mach x); todo := rest; at_phase := Shooting |}
        | Checking => Some {| mach := do_check_lazy_tlb m i (mach x); todo := rest; at_phase := Checking |}
        | Finished => None
        end
      else None
  | Proceed =>
      match todo x, at_phase x with
      | [], Shooting =>
          if config_debug_shoot then Some {| mach := mach x; todo := targets (fun _ => true) (mach x); at_phase := Checking |}
          else Some {| mach := mach x; todo := []; at_phase := Finished |}
      | [], Checking => Some {| mach := mach x; todo := []; at_phase := Finished |}
      | _, _ => None
      end
  | ToKthread i drop =>
      env (update i (fun c => {| online := online c; cpu_mm := None; active_mm := active_mm c;
                                 loaded_mm := if drop then init_mm else loaded_mm c |}) (mach x))
  | ToUser i n =>
      if (n =? m)%nat || negb (is_online (mach x) i) then None
      else env (switch_mm i n (update i (fun c => {| online := online c; cpu_mm := Some n; active_mm := n; loaded_mm := loaded_mm c |}) (mach x)))
  | ExitMm i => env (update i (fun c => {| online := online c; cpu_mm := None; active_mm := active_mm c; loaded_mm := loaded_mm c |}) (mach x))
  | ClearBit n i =>
      match cpus (mach x) !! i with
      | Some c => if (active_mm c =? n)%nat then None else env (set_mask n i false (mach x))
      | None => None
      end
  end.

Fixpoint steps (m : nat) (l : list event) (x : exec) : option exec :=
  match l with [] => Some x | e :: l => x ← step m e x; steps m l x end.
End shootdown.

(** ** No processor is left behind *)

Section safety.
Context {C : LazyConfig} (m : nat).

(** What the rest of the kernel keeps true of processor [i]: a task with an address space
    runs on it, and no other page tables than those of [active_mm] or init_mm are loaded;
    [m] itself has no user any more, so it is used only lazily. *)
Definition cpu_ok (c : cpu) : Prop :=
  cpu_mm c <> Some m /\ (forall n, cpu_mm c = Some n -> active_mm c = n) /\ (loaded_mm c = m -> active_mm c = m).

(** Where lazy use is not counted, the mask covers it and the processor is online; where it
    is counted, the last reference is gone and with it every lazy user. *)
Record ready (s : machine) : Prop := {
  rd_init : m <> init_mm;
  rd_cpu : forall i c, cpus s !! i = Some c -> cpu_ok c;
  rd_mask : config_shootdown = true -> forall i c, cpus s !! i = Some c -> active_mm c = m -> online c = true /\ mm_cpumask s m i = true;
  rd_counted : config_shootdown = false -> forall i c, cpus s !! i = Some c -> active_mm c <> m
}.

Record exec_inv (w0 : Z) (x : exec) : Prop := {
  xi_init : m <> init_mm;
  xi_cpu : forall i c, cpus (mach x) !! i = Some c -> cpu_ok c;
  xi_todo : forall i c, cpus (mach x) !! i = Some c -> active_mm c = m -> at_phase x = Shooting /\ i ∈ todo x;
  xi_warn : warnings (mach x) = w0
}.

Lemma elem_targets mask s i : i ∈ targets mask s <-> is_online s i = true /\ mask i = true.
Proof.
  unfold targets. rewrite list_elem_of_In, filter_In, in_seq, andb_true_iff. split; [by intros [_ H]|]. intros [Ho Hm]. split; [|done].
  unfold is_online in Ho. destruct (cpus s !! i) eqn:Hi; [|done]. apply lookup_lt_Some in Hi. lia.
Qed.

Lemma start_inv s : ready s -> exec_inv (warnings s) (start m s).
Proof.
  intros R. unfold start. destruct config_shootdown eqn:Hc; constructor; cbn; try done; try apply R.
  - intros i c Hi Ha. split; [done|]. destruct (rd_mask _ R Hc i c Hi Ha) as [Ho Hm]. apply elem_targets. split; [|done].
    unfold is_online. by rewrite Hi.
  - intros i c Hi Ha. by destruct (rd_counted _ R Hc i c Hi).
Qed.

(** Only processor [i] changes, and no processor starts to use [m]. *)
Lemma cpu_update_inv w0 x i c c' x' : exec_inv w0 x -> cpus (mach x) !! i = Some c -> cpus (mach x') = <[i := c']> (cpus (mach x)) -> cpu_ok c' ->
  (active_mm c' = m -> active_mm c = m /\ todo x' = todo x) -> at_phase x' = at_phase x -> (forall j, j <> i -> j ∈ todo x -> j ∈ todo x') ->
  warnings (mach x') = w0 -> exec_inv w0 x'.
Proof.
  intros I Hi Hs Hok Hact Hph Htd Hw. constructor; [apply I| | |done].
  - intros j d. rewrite Hs. destruct (decide (j = i)) as [-> |Hn].
    + rewrite list_lookup_insert_eq by (by eapply lookup_lt_Some). by intros [= <-].
    + rewrite list_lookup_insert_ne by done. apply I.
  - intros j d. rewrite Hs, Hph. destruct (decide (j = i)) as [-> |Hn].
    + rewrite list_lookup_insert_eq by (by eapply lookup_lt_Some). intros [= <-] Ha. destruct (Hact Ha) as [Ha' ->]. by eapply I.
    + rewrite list_lookup_insert_ne by done. intros Hj Ha. destruct (xi_todo _ _ I j d Hj Ha) as [-> Hin]. split; [done|auto].
Qed.

Lemma env_inv w0 x s : exec_inv w0 x -> cpus s = cpus (mach x) -> warnings s = warnings (mach x) ->
  exec_inv w0 {| mach := s; todo := todo x; at_phase := at_phase x |}.
Proof. intros I Hc Hw. constructor; cbn; rewrite ?Hc, ?Hw; apply I. Qed.

Lemma call_inv w0 x i x' : exec_inv w0 x -> step m (Call i) x = Some x' -> exec_inv w0 x'.
Proof.
  intros I. cbn [step]. case_bool_decide as Hin; [|done]. assert (Hkeep : forall j, j <> i -> j ∈ todo x -> j ∈ filter (.≠ i) (todo x)).
  { intros j Hj Hjt. by apply list_elem_of_filter. }
  destruct (at_phase x) eqn:Hp; [| |done]; intros [= <-].
  - unfold do_shoot_lazy_tlb. destruct (cpus (mach x) !! i) as [c|] eqn:Hi.
    + destruct (Nat.eqb_spec (active_mm c) m) as [Ha|Ha].
      * assert (Hnull : cpu_mm c = None).
        { destruct (xi_cpu _ _ I i c Hi) as (Hu & Hm & _). destruct (cpu_mm c) as [n|]; [|done]. specialize (Hm n eq_refl). congruence. }
        unfold switch_mm. cbn. rewrite list_lookup_insert_eq by (by eapply lookup_lt_Some). cbn.
        eapply (cpu_update_inv w0 x i c); [exact I|exact Hi|cbn; by rewrite list_insert_insert_eq| | |done|done|].
        -- unfold cpu_ok. cbn. rewrite Hnull. split_and!; try done.
        -- cbn. intros E. by destruct (xi_init _ _ I).
        -- cbn. rewrite Hnull, bool_decide_eq_false_2 by (by intros []). rewrite <- (xi_warn _ _ I). lia.
      * constructor; try apply I. intros j d Hj Hd. destruct (xi_todo _ _ I j d Hj Hd) as [_ Hjt]. split; [done|]. apply Hkeep; [|done]. intros ->. cbn in Hj. congruence.
    + constructor; try apply I. intros j d Hj Hd. destruct (xi_todo _ _ I j d Hj Hd) as [_ Hjt]. split; [done|]. apply Hkeep; [|done]. intros ->. cbn in Hj. congruence.
  - assert (Hno : forall j d, cpus (mach x) !! j = Some d -> active_mm d <> m).
    { intros j d Hj Hd. destruct (xi_todo _ _ I j d Hj Hd) as [Hs _]. congruence. }
    unfold do_check_lazy_tlb. destruct (cpus (mach x) !! i) as [c|] eqn:Hi.
    + constructor; cbn; try apply I; [intros j d Hj Hd; by destruct (Hno j d Hj)|].
      rewrite (proj2 (Nat.eqb_neq _ _) (Hno i c Hi)), <- (xi_warn _ _ I). lia.
    + constructor; cbn; try apply I. intros j d Hj Hd. by destruct (Hno j d Hj).
Qed.

Lemma step_inv w0 x e x' : exec_inv w0 x -> step m e x = Some x' -> exec_inv w0 x'.
Proof.
  intros I. destruct e as [i| |i drop|i n|i|n i]; [by apply call_inv|..]; cbn [step].
  - destruct (todo x) as [|] eqn:Ht; [|done]. assert (Hno : forall j d, cpus (mach x) !! j = Some d -> active_mm d <> m).
    { intros j d Hj Hd. destruct (xi_todo _ _ I j d Hj Hd) as [_ Hin]. rewrite Ht in Hin. by apply not_elem_of_nil in Hin. }
    destruct (at_phase x), config_debug_shoot; try done; intros [= <-]; (constructor; cbn; try apply I; intros j d Hj Hd; by destruct (Hno j d Hj)).
  - intros [= <-]. unfold update. destruct (cpus (mach x) !! i) as [c|] eqn:Hi; [|by apply env_inv].
    destruct (xi_cpu _ _ I i c Hi) as (Hu & Hm & Hl).
    eapply (cpu_update_inv w0 x i c); [exact I|exact Hi|done| |by cbn|done|done|apply I]. unfold cpu_ok. cbn. split_and!; try done.
    destruct drop; [|done]. intros E. by destruct (xi_init _ _ I).
  - destruct (Nat.eqb_spec n m) as [|Hn]; [done|]. destruct (is_online (mach x) i) eqn:Ho; cbn [orb negb]; [|done]. intros [= <-].
    unfold update. unfold is_online in Ho. destruct (cpus (mach x) !! i) as [c|] eqn:Hi; [|done]. unfold switch_mm. cbn.
    rewrite list_lookup_insert_eq by (by eapply lookup_lt_Some). cbn.
    eapply (cpu_update_inv w0 x i c); [exact I|exact Hi|cbn; by rewrite list_insert_insert_eq| |by cbn|done|done|apply I].
    unfold cpu_ok. cbn. split_and!; congruence.
  - intros [= <-]. unfold update. destruct (cpus (mach x) !! i) as [c|] eqn:Hi; [|by apply env_inv].
    destruct (xi_cpu _ _ I i c Hi) as (Hu & Hm & Hl).
    eapply (cpu_update_inv w0 x i c); [exact I|exact Hi|done| |by cbn|done|done|apply I]. unfold cpu_ok. cbn. by split_and!.
  - destruct (cpus (mach x) !! i); [|done]. destruct (_ =? _)%nat; [done|]. intros [= <-]. by apply env_inv.
Qed.

Lemma steps_inv w0 l x x' : exec_inv w0 x -> steps m l x = Some x' -> exec_inv w0 x'.
Proof.
  revert x. induction l as [|e l IH]; intros x I; cbn; [by intros [= <-]|]. destruct (step m e x) as [y|] eqn:E; [|done]. cbn.
  apply IH. by eapply step_inv.
Qed.

(** *** The function of the source is one of the interleavings *)

Definition call_of (ph : phase) : nat -> machine -> machine := match ph with Shooting => do_shoot_lazy_tlb m | _ => do_check_lazy_tlb m end.

Lemma filter_ne_notin (i : nat) (l : list nat) : i ∉ l -> filter (.≠ i) l = l.
Proof. induction l as [|j l IH]; [done|]. intros [Hn Hl]%not_elem_of_cons. rewrite filter_cons_True by congruence. by rewrite IH. Qed.

Lemma calls_run ph l s : ph <> Finished -> NoDup l ->
  steps m (map Call l) {| mach := s; todo := l; at_phase := ph |} = Some {| mach := foldl (fun s i => call_of ph i s) s l; todo := []; at_phase := ph |}.
Proof.
  intros Hp. revert s. induction l as [|i l IH]; intros s Hd; [done|]. apply NoDup_cons in Hd as [Hi Hd]. cbn [map steps step todo].
  rewrite bool_decide_eq_true_2 by (by left). cbn [at_phase mach]. rewrite filter_cons_False by (by intros []). rewrite filter_ne_notin by done.
  destruct ph; [| |done]; cbn [mbind option_bind]; rewrite IH by done; done.
Qed.

Lemma targets_NoDup mask s : NoDup (targets mask s).
Proof. unfold targets. apply NoDup_ListNoDup, List.NoDup_filter, seq_NoDup. Qed.

Lemma steps_app l l' x : steps m (l ++ l') x = (y ← steps m l x; steps m l' y).
Proof. revert x. induction l as [|e l IH]; intros x; [done|]. cbn. destruct (step m e x); [apply IH|done]. Qed.

Lemma cleanup_is_run s : exists l, steps m l (start m s) = Some {| mach := cleanup_lazy_tlbs m s; todo := []; at_phase := Finished |}.
Proof.
  unfold start, cleanup_lazy_tlbs. destruct config_shootdown; cbn [negb]; [|by exists []].
  set (s1 := on_each_cpu_mask _ _ s). destruct config_debug_shoot eqn:Hd.
  - exists (map Call (targets (mm_cpumask s m) s) ++ Proceed :: map Call (targets (fun _ => true) s1) ++ [Proceed]).
    rewrite steps_app, calls_run by (done || apply targets_NoDup). cbn [mbind option_bind steps step todo at_phase mach]. rewrite Hd. cbn [mbind option_bind].
    rewrite steps_app. change (foldl _ s _) with s1. rewrite calls_run by (done || apply targets_NoDup). done.
  - exists (map Call (targets (mm_cpumask s m) s) ++ [Proceed]). rewrite steps_app, calls_run by (done || apply targets_NoDup).
    cbn [mbind option_bind steps step todo at_phase mach]. by rewrite Hd.
Qed.

(** The calls that are still to be taken. *)
Definition remaining (x : exec) : nat :=
  match at_phase x with
  | Shooting => length (todo x) + length (cpus (mach x)) + 2
  | Checking => length (todo x) + 1
  | Finished => 0
  end.

Lemma shoot_length i s : length (cpus (do_shoot_lazy_tlb m i s)) = length (cpus s).
Proof.
  unfold do_shoot_lazy_tlb, switch_mm. destruct (cpus s !! i) as [c|]; [|done]. destruct (_ =? _)%nat; [|done]. cbn.
  destruct (<[i:=_]> (cpus s) !! i); cbn; by rewrite !length_insert.
Qed.

Lemma targets_length mask s : (length (targets mask s) <= length (cpus s))%nat.
Proof. unfold targets. rewrite <- (length_seq (length (cpus s)) 0) at 2. apply List.filter_length_le. Qed.

Lemma never_stuck x : at_phase x <> Finished -> exists e x', step m e x = Some x' /\ (remaining x' < remaining x)%nat.
Proof.
  destruct x as [s l ph]; cbn [at_phase]. intros Hp. destruct l as [|i l].
  - exists Proceed. cbn [step todo at_phase mach]. destruct ph; [| |done].
    + pose proof (targets_length (fun _ => true) s). destruct config_debug_shoot; eexists; (split; [done|]); cbn; lia.
    + eexists; split; [done|]. cbn. lia.
  - exists (Call i). cbn [step todo]. rewrite bool_decide_eq_true_2 by (by left). cbn [at_phase mach]. rewrite filter_cons_False by (by intros []).
    pose proof (length_filter (.≠ i) l) as Hlen. destruct ph; [| |done]; eexists; (split; [done|]); cbn; rewrite ?shoot_length; lia.
Qed.

(** C9: the last reference on an address space is gone and no task uses it. Under every
    interleaving of the calls of cleanup_lazy_tlbs with processors that switch tasks, drop
    their address space or enter lazy mode: no warning fires, here or in the debugging
    check, and when the calls are over no processor has the address space as its active
    one or its page tables loaded, so they can be freed. The calls always come to an end,
    and running them one processor after the other, as the code reads, is one of the
    interleavings. *)
Theorem shootdown_complete s : ready s ->
  (forall l x, steps m l (start m s) = Some x ->
     warnings (mach x) = warnings s /\
     (at_phase x = Finished -> forall i c, cpus (mach x) !! i = Some c -> active_mm c <> m /\ loaded_mm c <> m) /\
     (at_phase x <> Finished -> exists e x', step m e x = Some x' /\ (remaining x' < remaining x)%nat)) /\
  exists l, steps m l (start m s) = Some {| mach := cleanup_lazy_tlbs m s; todo := []; at_phase := Finished |}.
Proof.
  intros R. split; [|apply cleanup_is_run]. intros l x Hl. pose proof (steps_inv (warnings s) l _ x (start_inv s R) Hl) as I. split_and!.
  - apply I.
  - intros Hf i c Hi. assert (Ha : active_mm c <> m) by (intros E; destruct (xi_todo _ _ I i c Hi E) as [Hs _]; congruence).
    split; [done|]. intros E. by apply (xi_cpu _ _ I i c Hi) in E.
  - apply never_stuck.
Qed.

(** The whole start of __mmdrop: none of its three warnings fires. *)
Lemma mmdrop_prologue_silent s i : ready s -> exists s', mmdrop_prologue m i s = Some s' /\ warnings s' = warnings s /\ cpus s' = cpus (cleanup_lazy_tlbs m s) /\
  forall j c, cpus s' !! j = Some c -> active_mm c <> m /\ loaded_mm c <> m.
Proof.
  intros R. unfold mmdrop_prologue. rewrite (proj2 (Nat.eqb_neq _ _) (rd_init _ R)).
  assert (H1 : match cpus s !! i with Some c => bool_decide (cpu_mm c = Some m) | None => false end = false).
  { destruct (cpus s !! i) as [c|] eqn:Hi; [|done]. apply bool_decide_eq_false_2. apply (rd_cpu _ R i c Hi). }
  rewrite H1. assert (Hw : warn_on false s = s) by (destruct s; unfold warn_on; cbn; f_equal; lia). rewrite Hw.
  destruct (cleanup_is_run s) as [l Hl]. pose proof (steps_inv _ l _ _ (start_inv s R) Hl) as I.
  assert (Hno : forall j c, cpus (cleanup_lazy_tlbs m s) !! j = Some c -> active_mm c <> m).
  { intros j c Hj E. destruct (xi_todo _ _ I j c Hj E) as [Hs _]. discriminate Hs. }
  assert (H2 : match cpus (cleanup_lazy_tlbs m s) !! i with Some c => (active_mm c =? m)%nat | None => false end = false).
  { destruct (cpus (cleanup_lazy_tlbs m s) !! i) as [c|] eqn:Hi; [|done]. apply Nat.eqb_neq. by eapply Hno. }
  rewrite H2. eexists; split; [done|]. split_and!; [cbn; rewrite Z.add_0_r; apply I|done|]. cbn. intros j c Hj. split; [by eapply Hno|].
  intros E. apply (xi_cpu _ _ I j c Hj) in E. by eapply Hno.
Qed.
End safety.

(** ** The counters that should be zero by then *)

(** resident_page_types, in the order of the counters. *)
Inductive rss_type := MM_FILEPAGES | MM_ANONPAGES | MM_SWAPENTS | MM_SHMEMPAGES.
Definition resident_page_types : list rss_type := [MM_FILEPAGES; MM_ANONPAGES; MM_SWAPENTS; MM_SHMEMPAGES].

(** lib/percpu_counter.c: the count and what the processors have not yet added to it. *)
Record percpu_counter := { pc_count : Z; pc_cpu : list Z }.
Definition percpu_counter_sum (c : percpu_counter) : Z := pc_count c + foldr Z.add 0 (pc_cpu c).

Inductive alert := BadRss (t : rss_type) (v : Z) | BadPgtables (v : Z).

Fixpoint check_counters (types : list rss_type) (stat : list percpu_counter) : list alert :=
  match types, stat with
  | t :: types, c :: stat =>
      (if c_true (percpu_counter_sum c) then [BadRss t (percpu_counter_sum c)] else []) ++ check_counters types stat
  | _, _ => []
  end.

Definition check_mm (stat : list percpu_counter) (pgtables_bytes : Z) : list alert :=
  check_counters resident_page_types stat ++ (if c_true pgtables_bytes then [BadPgtables pgtables_bytes] else []).

(** Silent exactly when nothing is left. *)
Lemma check_mm_silent stat bytes : length stat = length resident_page_types ->
  check_mm stat bytes = [] <-> Forall (fun c => percpu_counter_sum c = 0) stat /\ bytes = 0.
Proof.
  intros Hl. unfold check_mm. assert (Hc : forall ts st, length st = length ts -> check_counters ts st = [] <-> Forall (fun c => percpu_counter_sum c = 0) st).
  { induction ts as [|t ts IH]; intros [|c st]; try done. intros [= H]. cbn. specialize (IH st H). rewrite Forall_cons, <- IH.
    destruct (c_true (percpu_counter_sum c)) eqn:E; [apply c_true_true in E|apply c_true_false in E]; naive_solver. }
  rewrite <- (Hc resident_page_types stat Hl). destruct (c_true bytes) eqn:E; [apply c_true_true in E|apply c_true_false in E].
  - split; [|by intros []]. by intros [_ ?]%app_eq_nil.
  - rewrite app_nil_r. naive_solver.
Qed.

(** ** An example *)

Definition demo_lazy : LazyConfig := {| config_shootdown := true; config_debug_shoot := true |}.
(** A kernel thread on address space 7, a user task on 3, an idle processor. *)
Definition demo_machine : machine :=
  {| cpus := [{| online := true; cpu_mm := None; active_mm := 7; loaded_mm := 7 |};
              {| online := true; cpu_mm := Some 3%nat; active_mm := 3; loaded_mm := 3 |};
              {| online := true; cpu_mm := None; active_mm := 7; loaded_mm := 0 |}];
     mm_cpumask n i := (n =? 7)%nat; warnings := 0 |}.

Lemma shootdown_complete_witness :
  warnings (cleanup_lazy_tlbs (C := demo_lazy) 7 demo_machine) = 0 /\
  map active_mm (cpus (cleanup_lazy_tlbs (C := demo_lazy) 7 demo_machine)) = [0%nat; 3%nat; 0%nat].
Proof.
  assert (R : ready (C := demo_lazy) 7 demo_machine).
  { constructor; [done| | |done].
    - intros [|[|[|i]]] c; cbn; try done; intros [= <-]; by (unfold cpu_ok; cbn; split_and!; try done; intros ? [= <-]).
    - intros _ [|[|[|i]]] c; cbn; try done; by intros [= <-]. }
  split; [|vm_compute; reflexivity].
  destruct (shootdown_complete (C := demo_lazy) 7 demo_machine R) as [H [l Hl]]. exact (proj1 (H l _ Hl)).
Defined.
