(* ===== verification/StackCache.v ===== *)
(** * Kernel stacks and their cache (kernel/fork.c: alloc_thread_stack_node and its kin)

    The stack of a task is a vmalloc area.  An area that is given up goes to one of two
    slots of the processor, from which the next task is served, or after a grace period
    to a slot or back to vmalloc.  The memory of a stack is charged to a control group
    while a task owns it, page by page, and only then.  [None] stands for a double free. *)
From S2P Require Import Prelude Clone.

Definition NR_CACHED_STACKS : nat := 2.
Definition stack_pages : nat := Z.to_nat (THREAD_SIZE / PAGE_SIZE).

Record stacks := {
  cached_stacks : list (list (option nat));   (** per processor *)
  stack_vm_area : gmap nat nat;               (** of a task *)
  rcu_pending : list nat;                     (** areas given to call_rcu *)
  areas : gset nat;                           (** areas vmalloc has handed out *)
  charged : nat -> Z;                         (** pages charged *)
  stale : nat -> bool;                        (** holds bytes of an earlier owner *)
  exited : gset nat                           (** tasks whose stack is no longer accounted for *)
}.

Definition with_cached (c : list (list (option nat))) (st : stacks) : stacks :=
  {| cached_stacks := c; stack_vm_area := stack_vm_area st; rcu_pending := rcu_pending st; areas := areas st; charged := charged st;
     stale := stale st; exited := exited st |}.
Definition with_owner (o : gmap nat nat) (st : stacks) : stacks :=
  {| cached_stacks := cached_stacks st; stack_vm_area := o; rcu_pending := rcu_pending st; areas := areas st; charged := charged st;
     stale := stale st; exited := exited st |}.
Definition with_rcu (l : list nat) (st : stacks) : stacks :=
  {| cached_stacks := cached_stacks st; stack_vm_area := stack_vm_area st; rcu_pending := l; areas := areas st; charged := charged st;
     stale := stale st; exited := exited st |}.
Definition with_areas (a : gset nat) (st : stacks) : stacks :=
  {| cached_stacks := cached_stacks st; stack_vm_area := stack_vm_area st; rcu_pending := rcu_pending st; areas := a;
     charged := charged st; stale := stale st; exited := exited st |}.
Definition charge (d : Z) (vm : nat) (st : stacks) : stacks :=
  {| cached_stacks := cached_stacks st; stack_vm_area := stack_vm_area st; rcu_pending := rcu_pending st; areas := areas st;
     charged := (fun q => charged st q + if decide (q = vm) then d else 0); stale := stale st; exited := exited st |}.
Definition set_stale (b : bool) (vm : nat) (st : stacks) : stacks :=
  {| cached_stacks := cached_stacks st; stack_vm_area := stack_vm_area st; rcu_pending := rcu_pending st; areas := areas st;
     charged := charged st; stale := (fun q => if decide (q = vm) then b else stale st q);
     exited := exited st |}.
Definition with_exited (e : gset nat) (st : stacks) : stacks :=
  {| cached_stacks := cached_stacks st; stack_vm_area := stack_vm_area st; rcu_pending := rcu_pending st; areas := areas st;
     charged := charged st; stale := stale st; exited := e |}.

Definition vfree (vm : nat) (st : stacks) : option stacks :=
  if decide (vm ∈ areas st) then Some (with_areas (areas st ∖ {[vm]}) st) else None.

(** this_cpu_cmpxchg(cached_stacks[i], NULL, vm) until a slot takes it. *)
Fixpoint release_slot (vm : nat) (l : list (option nat)) : option (list (option nat)) :=
  match l with
  | [] => None
  | None :: l => Some (Some vm :: l)
  | Some x :: l => match release_slot vm l with Some l' => Some (Some x :: l') | None => None end
  end.

Definition try_release_thread_stack_to_cache (cpu vm : nat) (st : stacks) : option stacks :=
  match cached_stacks st !! cpu with
  | Some l => match release_slot vm l with Some l' => Some (with_cached (<[cpu := l']> (cached_stacks st)) st) | None => None end
  | None => None
  end.

(** The callback of call_rcu for [vm]. *)
Definition thread_stack_free_rcu (cpu vm : nat) (st : stacks) : option stacks :=
  match try_release_thread_stack_to_cache cpu vm st with Some st' => Some st' | None => vfree vm st end.

Definition thread_stack_delayed_free (vm : nat) (st : stacks) : stacks := with_rcu (rcu_pending st ++ [vm]) st.

(** The slots of a processor that goes away, one after the other. *)
Fixpoint free_slots (l : list (option nat)) (st : stacks) : option stacks :=
  match l with
  | [] => Some st
  | None :: l => free_slots l st
  | Some vm :: l => match vfree vm st with Some st' => free_slots l st' | None => None end
  end.

Definition free_vm_stack_cache (cpu : nat) (st : stacks) : option stacks :=
  match cached_stacks st !! cpu with
  | Some l => free_slots l (with_cached (<[cpu := map (fun _ => None) l]> (cached_stacks st)) st)
  | None => None
  end.

(** [answers] are those of memcg_kmem_charge_page, page by page. *)
Fixpoint charge_loop (answers : nat -> Z) (i rest : nat) (vm : nat) (st : stacks) : Z * stacks :=
  match rest with
  | O => (0, st)
  | S rest =>
      let ret := answers i in
      if c_true ret then (ret, Nat.iter i (charge (-1) vm) st) else charge_loop answers (S i) rest vm (charge 1 vm st)
  end.

Definition memcg_charge_kernel_stack (answers : nat -> Z) (vm : nat) (st : stacks) : Z * stacks := charge_loop answers 0 stack_pages vm st.

(** this_cpu_xchg(cached_stacks[i], NULL) until a slot had one. *)
Fixpoint take_slot (l : list (option nat)) : option nat * list (option nat) :=
  match l with
  | [] => (None, [])
  | None :: l => let '(v, l') := take_slot l in (v, None :: l')
  | Some x :: l => (Some x, None :: l)
  end.

(** [fresh]: the area of __vmalloc_node_range, zeroed, if there is memory. *)
Definition alloc_thread_stack_node (cpu tsk : nat) (fresh : option nat) (answers : nat -> Z) (st : stacks) : option (Z * stacks) :=
  match cached_stacks st !! cpu with
  | None => None
  | Some l =>
      let assign (vm : nat) (st : stacks) : option (Z * stacks) :=
        let '(ret, st) := memcg_charge_kernel_stack answers vm st in
        if c_true ret then match vfree vm st with Some st => Some (- ENOMEM, st) | None => None end
        else Some (0, with_owner (<[tsk := vm]> (stack_vm_area st)) st) in
      match take_slot l with
      | (Some vm, l') => assign vm (set_stale false vm (with_cached (<[cpu := l']> (cached_stacks st)) st))
      | (None, l') =>
          let st := with_cached (<[cpu := l']> (cached_stacks st)) st in
          match fresh with
          | None => Some (- ENOMEM, st)
          | Some vm => assign vm (set_stale false vm (with_areas (areas st ∪ {[vm]}) st))
          end
      end
  end.

Definition free_thread_stack (cpu tsk : nat) (st : stacks) : option stacks :=
  match stack_vm_area st !! tsk with
  | None => None
  | Some vm =>
      let st := match try_release_thread_stack_to_cache cpu vm st with Some st' => st' | None => thread_stack_delayed_free vm st end in
      Some (with_owner (delete tsk (stack_vm_area st)) st)
  end.

(** The statistics apart, every page is uncharged. *)
Definition exit_task_stack_account (tsk : nat) (st : stacks) : option stacks :=
  match stack_vm_area st !! tsk with
  | None => None
  | Some vm => Some (Nat.iter stack_pages (charge (-1) vm) st)
  end.

(** ** The life of stacks *)

Inductive stack_op :=
  | NewTask (cpu tsk : nat) (fresh : option nat) (answers : nat -> Z)
  | RunTask (tsk : nat)                        (** leaves bytes on its stack *)
  | ExitTask (tsk : nat)                       (** do_exit, or a fork that fails *)
  | ReleaseStack (cpu tsk : nat)               (** the last reference to the stack, maybe much later *)
  | GracePeriod (cpu i : nat)                  (** the callback at place [i] runs *)
  | CpuDown (cpu : nat).

Definition stack_allowed (op : stack_op) (st : stacks) : Prop :=
  match op with
  | NewTask cpu tsk fresh _ =>
      (cpu < length (cached_stacks st))%nat /\ stack_vm_area st !! tsk = None /\ (forall vm, fresh = Some vm -> vm ∉ areas st)
  | RunTask tsk => is_Some (stack_vm_area st !! tsk)
  | ExitTask tsk => is_Some (stack_vm_area st !! tsk) /\ tsk ∉ exited st
  | ReleaseStack cpu tsk => (cpu < length (cached_stacks st))%nat /\ is_Some (stack_vm_area st !! tsk) /\ tsk ∈ exited st
  | GracePeriod cpu i => (cpu < length (cached_stacks st))%nat /\ (i < length (rcu_pending st))%nat
  | CpuDown cpu => (cpu < length (cached_stacks st))%nat
  end.

Definition run_stack_op (op : stack_op) (st : stacks) : option stacks :=
  match op with
  | NewTask cpu tsk fresh answers => match alloc_thread_stack_node cpu tsk fresh answers st with Some (_, st') => Some st' | None => None end
  | RunTask tsk => match stack_vm_area st !! tsk with Some vm => Some (set_stale true vm st) | None => None end
  | ExitTask tsk => match exit_task_stack_account tsk st with Some st' => Some (with_exited (exited st' ∪ {[tsk]}) st') | None => None end
  | ReleaseStack cpu tsk =>
      match free_thread_stack cpu tsk st with Some st' => Some (with_exited (exited st' ∖ {[tsk]}) st') | None => None end
  | GracePeriod cpu i =>
      match rcu_pending st !! i with
      | Some vm => thread_stack_free_rcu cpu vm (with_rcu (delete i (rcu_pending st)) st)
      | None => None
      end
  | CpuDown cpu => free_vm_stack_cache cpu st
  end.

(** ** Where an area is *)

Definition in_caches (c : list (list (option nat))) : list nat := omap id (concat c).
Definition owned (st : stacks) : list nat := (map_to_list (stack_vm_area st)).*2.
(** The areas of tasks whose stack is accounted for. *)
Definition paying (st : stacks) : list nat := (map_to_list (filter (fun p => p.1 ∉ exited st) (stack_vm_area st))).*2.
Definition places (st : stacks) : list nat := in_caches (cached_stacks st) ++ owned st ++ rcu_pending st.

(** Every area is in exactly one place; those of [hand] are in the hands of the code. *)
Definition accounted (hand : list nat) (st : stacks) : Prop := hand ++ places st ≡ₚ elements (areas st).

Lemma in_caches_app c1 c2 : in_caches (c1 ++ c2) = in_caches c1 ++ in_caches c2.
Proof. unfold in_caches. by rewrite concat_app, omap_app. Qed.

Lemma in_caches_insert c cpu l l' : c !! cpu = Some l -> in_caches (<[cpu := l']> c) ++ omap id l ≡ₚ in_caches c ++ omap id l'.
Proof.
  intros H. rewrite <- (take_drop_middle c cpu l H) at 2. apply lookup_lt_Some in H as Hlt.
  rewrite insert_take_drop by done. rewrite !in_caches_app. unfold in_caches. cbn [concat]. rewrite !omap_app.
  set (a := omap id (concat (take cpu c))). set (b := omap id (concat (drop (S cpu) c))). solve_Permutation.
Qed.

Lemma release_slot_perm vm l l' : release_slot vm l = Some l' -> omap id l' ≡ₚ vm :: omap id l /\ length l' = length l.
Proof.
  revert l'. induction l as [|[x|] l IH]; intros l'; cbn; [done| |by intros [= <-]].
  destruct (release_slot vm l) as [l1|]; [|done]. intros [= <-]. destruct (IH l1 eq_refl) as [Hp Hl]. cbn. split; [|by rewrite Hl].
  rewrite Hp. apply perm_swap.
Qed.

Lemma take_slot_perm l v l' : take_slot l = (v, l') -> omap id l ≡ₚ omap id [v] ++ omap id l' /\ length l' = length l.
Proof.
  revert v l'. induction l as [|[x|] l IH]; intros v l'; cbn; [by intros [= <- <-]|by intros [= <- <-]|].
  destruct (take_slot l) as [v1 l1]. intros [= <- <-]. destruct (IH v1 l1 eq_refl) as [Hp Hl]. cbn. split; [done|by rewrite Hl].
Qed.

Lemma accounted_release hand cpu vm st st' : accounted (vm :: hand) st -> try_release_thread_stack_to_cache cpu vm st = Some st' ->
  accounted hand st'.
Proof.
  unfold accounted, try_release_thread_stack_to_cache. intros H. destruct (cached_stacks st !! cpu) as [l|] eqn:Hl; [|done].
  destruct (release_slot vm l) as [l'|] eqn:Hr; [|done]. intros [= <-]. apply release_slot_perm in Hr as [Hp _].
  cbn [areas with_cached]. rewrite <- H. unfold places. cbn [cached_stacks with_cached rcu_pending owned stack_vm_area].
  pose proof (in_caches_insert _ cpu l l' Hl) as Hi. rewrite Hp in Hi.
  apply (Permutation_app_inv_r (omap id l)). change (owned (with_cached _ st)) with (owned st).
  rewrite <- !app_assoc. rewrite (Permutation_app_comm (rcu_pending st) (omap id l)).
  set (a := in_caches (<[cpu := l']> (cached_stacks st))) in *. set (b := in_caches (cached_stacks st)) in *.
  transitivity ((hand ++ owned st ++ rcu_pending st) ++ (a ++ omap id l)); [solve_Permutation|]. rewrite Hi. solve_Permutation.
Qed.

Lemma accounted_take hand cpu l v l' st : accounted hand st -> cached_stacks st !! cpu = Some l -> take_slot l = (v, l') ->
  accounted (omap id [v] ++ hand) (with_cached (<[cpu := l']> (cached_stacks st)) st).
Proof.
  unfold accounted. intros H Hl Ht. apply take_slot_perm in Ht as [Hp _]. cbn [areas with_cached]. rewrite <- H. unfold places.
  cbn [cached_stacks with_cached rcu_pending]. change (owned (with_cached _ st)) with (owned st).
  pose proof (in_caches_insert _ cpu l l' Hl) as Hi. rewrite Hp in Hi.
  set (a := in_caches (<[cpu := l']> (cached_stacks st))) in *. set (b := in_caches (cached_stacks st)) in *.
  apply (Permutation_app_inv_r (omap id l')). set (x := omap id [v]) in *. set (y := omap id l') in *.
  transitivity ((hand ++ owned st ++ rcu_pending st) ++ (a ++ x ++ y)); [solve_Permutation|]. rewrite Hi. solve_Permutation.
Qed.

Lemma accounted_vfree hand vm st : accounted (vm :: hand) st -> exists st', vfree vm st = Some st' /\ accounted hand st' /\
  cached_stacks st' = cached_stacks st /\ stack_vm_area st' = stack_vm_area st /\ charged st' = charged st /\ stale st' = stale st /\
  rcu_pending st' = rcu_pending st /\ exited st' = exited st.
Proof.
  unfold accounted, vfree. intros H. assert (Hin : vm ∈ areas st).
  { apply elem_of_elements. rewrite <- H. left. }
  rewrite decide_True by done. eexists; split; [done|]. split; [|done]. cbn [areas with_areas].
  change (places (with_areas _ st)) with (places st). apply (Permutation_cons_inv (a := vm)).
  change (vm :: hand ++ places st) with ((vm :: hand) ++ places st). rewrite H.
  rewrite (union_difference_L {[vm]} (areas st)) at 1 by set_solver.
  rewrite elements_disj_union by set_solver. by rewrite elements_singleton.
Qed.

Lemma accounted_rcu hand vm st : accounted (vm :: hand) st -> accounted hand (thread_stack_delayed_free vm st).
Proof.
  unfold accounted, places. cbn [areas rcu_pending cached_stacks thread_stack_delayed_free with_rcu]. intros <-.
  change (owned (with_rcu _ st)) with (owned st). set (x := in_caches _). solve_Permutation.
Qed.

Lemma accounted_fresh hand vm st : accounted hand st -> vm ∉ areas st -> accounted (vm :: hand) (with_areas (areas st ∪ {[vm]}) st).
Proof.
  unfold accounted. intros H Hn. cbn [areas with_areas]. change (places (with_areas _ st)) with (places st).
  rewrite (union_comm_L (areas st)), elements_disj_union, elements_singleton by set_solver. cbn. by rewrite <- H.
Qed.

Lemma accounted_own hand tsk vm st : accounted (vm :: hand) st -> stack_vm_area st !! tsk = None ->
  accounted hand (with_owner (<[tsk := vm]> (stack_vm_area st)) st).
Proof.
  unfold accounted, places, owned. intros H Hn. cbn [areas with_owner cached_stacks stack_vm_area rcu_pending]. rewrite <- H.
  rewrite map_to_list_insert by done. cbn [fmap list_fmap snd]. solve_Permutation.
Qed.

Lemma accounted_disown hand tsk vm st : accounted hand st -> stack_vm_area st !! tsk = Some vm ->
  accounted (vm :: hand) (with_owner (delete tsk (stack_vm_area st)) st).
Proof.
  unfold accounted, places, owned. intros H Ho. cbn [areas with_owner cached_stacks stack_vm_area rcu_pending]. rewrite <- H.
  rewrite <- (map_to_list_delete (stack_vm_area st) tsk vm Ho) at 1. cbn [fmap list_fmap snd]. solve_Permutation.
Qed.

Lemma iter_uncharge n vm st : let st' := Nat.iter n (charge (-1) vm) st in
  (forall v, charged st' v = charged st v - if decide (v = vm) then Z.of_nat n else 0) /\
  cached_stacks st' = cached_stacks st /\ stack_vm_area st' = stack_vm_area st /\ rcu_pending st' = rcu_pending st /\
  areas st' = areas st /\ stale st' = stale st /\ exited st' = exited st.
Proof.
  induction n as [|n IH]; cbn -[Z.of_nat]; [split; [intros v; case_decide; lia|done]|].
  destruct IH as (H1 & H2). split; [|exact H2]. intros v. cbn in H1. rewrite H1. case_decide; lia.
Qed.

(** The same areas in the same places. *)
Definition same_places (st st' : stacks) : Prop :=
  cached_stacks st' = cached_stacks st /\ stack_vm_area st' = stack_vm_area st /\ rcu_pending st' = rcu_pending st /\ areas st' = areas st /\
  exited st' = exited st.

Lemma accounted_same hand st st' : same_places st st' -> accounted hand st -> accounted hand st'.
Proof. unfold accounted, places, owned. intros (-> & -> & -> & -> & _). done. Qed.

(** A charge that fails leaves none, one that succeeds charges every page. *)
Lemma charge_loop_spec answers vm rest i st : let '(ret, st') := charge_loop answers i rest vm st in
  (forall v, charged st' v = charged st v +
     if decide (v = vm) then if c_true ret then - Z.of_nat i else Z.of_nat rest else 0) /\
  same_places st st' /\ stale st' = stale st.
Proof.
  revert i st. induction rest as [|rest IH]; intros i st; cbn [charge_loop].
  - change (c_true 0) with false. split; [intros v; case_decide; lia|done].
  - destruct (c_true (answers i)) eqn:Ha.
    + rewrite Ha. destruct (iter_uncharge i vm st) as (H1 & H2 & H3 & H4 & H5 & H6 & H7).
      split; [intros v; rewrite H1; case_decide; lia|done].
    + specialize (IH (S i) (charge 1 vm st)). destruct (charge_loop answers (S i) rest vm (charge 1 vm st)) as [ret st'].
      destruct IH as (H1 & H2 & H3). split; [|done]. intros v. rewrite H1. cbn [charged charge].
      destruct (c_true ret); case_decide; lia.
Qed.

(** ** The invariant *)

Record sinv (st : stacks) : Prop := {
  s_acc : accounted [] st;
  s_len : Forall (fun l => length l = NR_CACHED_STACKS) (cached_stacks st);
  s_charge : forall v, charged st v = if decide (v ∈ paying st) then Z.of_nat stack_pages else 0;
  s_exited : forall t, t ∈ exited st -> is_Some (stack_vm_area st !! t)
}.

Lemma places_nodup hand st : accounted hand st -> NoDup (hand ++ places st).
Proof. unfold accounted. intros H. rewrite H. apply NoDup_elements. Qed.

Lemma elem_of_owned st v : v ∈ owned st <-> exists t, stack_vm_area st !! t = Some v.
Proof.
  unfold owned. rewrite list_elem_of_fmap. split.
  - intros ([t v'] & -> & H). apply elem_of_map_to_list in H. by exists t.
  - intros [t H]. exists (t, v). split; [done|by apply elem_of_map_to_list].
Qed.

Lemma elem_of_paying st v : v ∈ paying st <-> exists t, stack_vm_area st !! t = Some v /\ t ∉ exited st.
Proof.
  unfold paying. rewrite list_elem_of_fmap. split.
  - intros ([t v'] & -> & H). apply elem_of_map_to_list, map_lookup_filter_Some in H as [H1 H2]. by exists t.
  - intros (t & H1 & H2). exists (t, v). split; [done|]. by apply elem_of_map_to_list, map_lookup_filter_Some.
Qed.

Lemma paying_owned st v : v ∈ paying st -> v ∈ owned st.
Proof. rewrite elem_of_paying, elem_of_owned. intros (t & H & _). by exists t. Qed.

(** An area in the code's hands belongs to no task. *)
Lemma hand_not_owned vm hand st : accounted (vm :: hand) st -> vm ∉ owned st.
Proof.
  intros H Hin. apply places_nodup in H. cbn in H. apply NoDup_cons in H as [H _]. apply H.
  apply elem_of_app. right. unfold places. apply elem_of_app. right. apply elem_of_app. by left.
Qed.

(** A charge for an area in hand, and what comes of it. *)
Lemma assign_ok vm tsk answers st : accounted [vm] st -> Forall (fun l => length l = NR_CACHED_STACKS) (cached_stacks st) ->
  (forall v, charged st v = if decide (v ∈ paying st) then Z.of_nat stack_pages else 0) ->
  (forall t, t ∈ exited st -> is_Some (stack_vm_area st !! t)) -> stack_vm_area st !! tsk = None -> stale st vm = false ->
  exists ret st', (let '(ret, st) := memcg_charge_kernel_stack answers vm st in
    if c_true ret then match vfree vm st with Some st => Some (- ENOMEM, st) | None => None end
    else Some (0, with_owner (<[tsk := vm]> (stack_vm_area st)) st)) = Some (ret, st') /\ sinv st' /\
    (ret = 0 /\ stack_vm_area st' = <[tsk := vm]> (stack_vm_area st) /\ stale st' vm = false \/
     ret = - ENOMEM /\ stack_vm_area st' = stack_vm_area st).
Proof.
  intros Ha Hl Hc He Ho Hs. pose proof (hand_not_owned vm [] st Ha) as Hn.
  assert (Hnp : vm ∉ paying st) by (intros ?%paying_owned; done). unfold memcg_charge_kernel_stack.
  pose proof (charge_loop_spec answers vm stack_pages 0 st) as H. destruct (charge_loop answers 0 stack_pages vm st) as [ret st1].
  destruct H as (H1 & Hp & H2). destruct Hp as (P1 & P2 & P3 & P4 & P5).
  assert (Ha1 : accounted [vm] st1) by (by apply (accounted_same _ st)).
  destruct (c_true ret).
  - destruct (accounted_vfree [] vm st1 Ha1) as (st2 & E & A & Q1 & Q2 & Q3 & Q4 & Q5 & Q6). rewrite E.
    eexists _, _; split; [done|]. split; [|right; by rewrite Q2, P2]. constructor; [exact A|by rewrite Q1, P1| |by rewrite Q6, Q2, P5, P2].
    intros v. rewrite Q3, H1. unfold paying. rewrite Q2, P2, Q6, P5. fold (paying st). rewrite Hc. repeat case_decide; lia.
  - eexists _, _; split; [done|]. split; [|left; cbn; rewrite P2, H2; by split_and!].
    assert (Ho1 : stack_vm_area st1 !! tsk = None) by (by rewrite P2).
    assert (Hnt : tsk ∉ exited st) by (intros [? Ht]%He; congruence).
    constructor; [by apply accounted_own|cbn; by rewrite P1| |].
    + intros v. cbn [charged with_owner]. rewrite H1, Hc. change (0 + ?x) with x.
      assert (Hv : v ∈ paying (with_owner (<[tsk := vm]> (stack_vm_area st1)) st1) <-> v = vm \/ v ∈ paying st).
      { rewrite !elem_of_paying. cbn [stack_vm_area with_owner exited]. rewrite P2, P5. split.
        - intros (t & Ht & Hx). destruct (decide (t = tsk)) as [-> |Htn];
            [rewrite lookup_insert_eq in Ht; left; congruence|rewrite lookup_insert_ne in Ht by done; right; eauto].
        - intros [-> |(t & Ht & Hx)]; [exists tsk; by rewrite lookup_insert_eq|exists t]. by rewrite lookup_insert_ne by congruence. }
      destruct (decide (v = vm)) as [-> |Hne].
      * rewrite (decide_False (P := vm ∈ paying st)) by done. rewrite decide_True by (apply Hv; by left). lia.
      * destruct (decide (v ∈ paying st)) as [Hin|Hin].
        -- rewrite decide_True by (apply Hv; by right). lia.
        -- rewrite decide_False by (rewrite Hv; tauto). lia.
    + cbn [exited stack_vm_area with_owner]. rewrite P5, P2. intros t Ht%He. destruct (decide (t = tsk)) as [-> |];
        [rewrite lookup_insert_eq; by eexists|by rewrite lookup_insert_ne].
Qed.

Lemma cpu_slots cpu (st : stacks) : (cpu < length (cached_stacks st))%nat -> exists l, cached_stacks st !! cpu = Some l.
Proof. intros H. by apply lookup_lt_is_Some in H. Qed.

Lemma alloc_ok cpu tsk fresh answers st : sinv st -> stack_allowed (NewTask cpu tsk fresh answers) st ->
  exists ret st', alloc_thread_stack_node cpu tsk fresh answers st = Some (ret, st') /\ sinv st' /\
    (ret = 0 /\ (exists vm, stack_vm_area st' = <[tsk := vm]> (stack_vm_area st) /\ stale st' vm = false) \/
     ret = - ENOMEM /\ stack_vm_area st' = stack_vm_area st).
Proof.
  intros [Ha Hl Hc He] (Hcpu & Ho & Hf). destruct (cpu_slots cpu st Hcpu) as [l Hcl]. unfold alloc_thread_stack_node. rewrite Hcl. cbv zeta.
  destruct (take_slot l) as [v l'] eqn:Ht. pose proof (accounted_take [] cpu l v l' st Ha Hcl Ht) as Ha1.
  assert (Hl1 : Forall (fun l => length l = NR_CACHED_STACKS) (<[cpu := l']> (cached_stacks st))).
  { apply Forall_insert; [done|]. apply take_slot_perm in Ht as [_ ->]. exact (Forall_lookup_1 _ _ _ _ Hl Hcl). }
  destruct v as [vm|].
  - destruct (assign_ok vm tsk answers (set_stale false vm (with_cached (<[cpu := l']> (cached_stacks st)) st))) as (ret & st' & E & I & R);
      [eapply accounted_same; [|exact Ha1]; done|done|exact Hc|exact He|done|cbn; by rewrite decide_True|].
    exists ret, st'. split; [exact E|]. split; [done|]. destruct R as [(-> & R1 & R2)|(-> & R1)]; [left|by right]. split; [done|]. by exists vm.
  - destruct fresh as [vm|].
    + cbn [omap list_omap id app] in Ha1.
      destruct (assign_ok vm tsk answers (set_stale false vm (with_areas (areas st ∪ {[vm]}) (with_cached (<[cpu := l']> (cached_stacks st)) st))))
        as (ret & st' & E & I & R); [|done|exact Hc|exact He|done|cbn; by rewrite decide_True|].
      { eapply accounted_same; [|apply (accounted_fresh [] vm _ Ha1); by apply Hf]. done. }
      exists ret, st'. split; [exact E|]. split; [done|]. destruct R as [(-> & R1 & R2)|(-> & R1)]; [left|by right]. split; [done|]. by exists vm.
    + eexists _, _; split; [done|]. split; [|by right]. by constructor.
Qed.

Lemma release_len cpu vm st st' : Forall (fun l => length l = NR_CACHED_STACKS) (cached_stacks st) ->
  try_release_thread_stack_to_cache cpu vm st = Some st' ->
  Forall (fun l => length l = NR_CACHED_STACKS) (cached_stacks st') /\ stack_vm_area st' = stack_vm_area st /\ charged st' = charged st /\ exited st' = exited st.
Proof.
  unfold try_release_thread_stack_to_cache. intros Hl. destruct (cached_stacks st !! cpu) as [l|] eqn:Hc; [|done].
  destruct (release_slot vm l) as [l'|] eqn:Hr; [|done]. intros [= <-]. split; [|done]. apply Forall_insert; [done|].
  apply release_slot_perm in Hr as [_ ->]. exact (Forall_lookup_1 _ _ _ _ Hl Hc).
Qed.

(** The slots of the task's processor do not know who owned the area. *)
Lemma release_owner cpu vm o st :
  try_release_thread_stack_to_cache cpu vm (with_owner o st) =
  match try_release_thread_stack_to_cache cpu vm st with Some st' => Some (with_owner o st') | None => None end.
Proof.
  unfold try_release_thread_stack_to_cache. cbn [cached_stacks with_owner]. destruct (cached_stacks st !! cpu) as [l|]; [|done].
  by destruct (release_slot vm l).
Qed.

(** One owner per area. *)
Lemma owner_unique st t t' v : accounted [] st -> stack_vm_area st !! t = Some v -> stack_vm_area st !! t' = Some v -> t = t'.
Proof.
  intros Ha H H'. destruct (decide (t = t')) as [|Hn]; [done|exfalso].
  apply (hand_not_owned v [] (with_owner (delete t (stack_vm_area st)) st)); [by apply accounted_disown|].
  apply elem_of_owned. exists t'. cbn. by rewrite lookup_delete_ne.
Qed.

Lemma exit_task_ok tsk st : sinv st -> stack_allowed (ExitTask tsk) st ->
  exists st', run_stack_op (ExitTask tsk) st = Some st' /\ sinv st'.
Proof.
  intros [Ha Hl Hc He] [[vm Ho] Hx]. cbn [run_stack_op]. unfold exit_task_stack_account. rewrite Ho.
  destruct (iter_uncharge stack_pages vm st) as (U1 & U2 & U3 & U4 & U5 & U6 & U7).
  set (st1 := Nat.iter stack_pages (charge (-1) vm) st) in *. cbv zeta in *. eexists; split; [done|].
  constructor; cbn [with_exited cached_stacks stack_vm_area charged exited]; [|by rewrite U2| |].
  - exact (accounted_same [] st st1 (conj U2 (conj U3 (conj U4 (conj U5 U7)))) Ha).
  - intros v. rewrite U1, Hc.
    assert (Hv : v ∈ paying (with_exited (exited st1 ∪ {[tsk]}) st1) <-> v <> vm /\ v ∈ paying st).
    { rewrite !elem_of_paying. cbn [stack_vm_area with_exited exited]. rewrite U3, U7. split.
      - intros (t & Ht & Hn). split; [intros ->; pose proof (owner_unique st t tsk vm Ha Ht Ho); set_solver|exists t; set_solver].
      - intros (Hne & t & Ht & Hn). exists t. split; [done|]. assert (t <> tsk) by congruence. set_solver. }
    assert (Hvm : vm ∈ paying st) by (apply elem_of_paying; eauto).
    destruct (decide (v = vm)) as [-> |Hne].
    + rewrite decide_True by done. rewrite decide_False by (rewrite Hv; tauto). lia.
    + destruct (decide (v ∈ paying st)); [rewrite decide_True by (by apply Hv)|rewrite decide_False by (rewrite Hv; tauto)]; lia.
  - rewrite U7, U3. intros t [Ht| ->%elem_of_singleton]%elem_of_union; [by apply He|by eexists].
Qed.

Lemma release_stack_ok cpu tsk st : sinv st -> stack_allowed (ReleaseStack cpu tsk) st ->
  exists st', run_stack_op (ReleaseStack cpu tsk) st = Some st' /\ sinv st'.
Proof.
  intros [Ha Hl Hc He] (Hcpu & [vm Ho] & Hx). cbn [run_stack_op]. unfold free_thread_stack. rewrite Ho. set (o := delete tsk (stack_vm_area st)).
  assert (Ha1 : accounted [vm] (with_owner o st)) by (by apply accounted_disown).
  assert (Hend : forall st', accounted [] (with_owner o st') ->
    Forall (fun l => length l = NR_CACHED_STACKS) (cached_stacks st') -> charged st' = charged st -> exited st' = exited st ->
    sinv (with_exited (exited (with_owner o st') ∖ {[tsk]}) (with_owner o st'))).
  { intros st' A L C X. constructor; cbn [with_exited with_owner cached_stacks charged stack_vm_area exited]; [exact A|done| |].
    - intros v. rewrite C, Hc. apply decide_ext. rewrite !elem_of_paying. cbn [with_exited with_owner stack_vm_area exited]. rewrite X. unfold o. split.
      + intros (t & Ht & Hn). exists t. assert (t <> tsk) by set_solver. rewrite lookup_delete_ne by done. set_solver.
      + intros (t & Ht & Hn). apply lookup_delete_Some in Ht as [Htn Ht]. exists t. set_solver.
    - rewrite X. intros t [Ht Hn]%elem_of_difference. unfold o. rewrite lookup_delete_ne by set_solver. by apply He. }
  pose proof (release_owner cpu vm o st) as Hro. destruct (try_release_thread_stack_to_cache cpu vm st) as [st2|] eqn:Hr.
  - destruct (release_len cpu vm st st2) as (L1 & L2 & L3 & L4); [done|done|].
    eexists; split; [done|]. rewrite L2. fold o. apply Hend; try done. by eapply accounted_release.
  - eexists; split; [done|]. cbn [stack_vm_area thread_stack_delayed_free with_rcu]. fold o. apply Hend; try done.
    exact (accounted_rcu [] vm _ Ha1).
Qed.

Lemma free_slots_ok l hand st : accounted (omap id l ++ hand) st -> exists st', free_slots l st = Some st' /\ accounted hand st' /\
  cached_stacks st' = cached_stacks st /\ stack_vm_area st' = stack_vm_area st /\ charged st' = charged st /\ exited st' = exited st.
Proof.
  revert st. induction l as [|[vm|] l IH]; intros st H; cbn in *; [by exists st| |by apply IH].
  destruct (accounted_vfree _ vm st H) as (st1 & -> & A & Q1 & Q2 & Q3 & _ & _ & Q6). destruct (IH st1 A) as (st' & -> & A' & R1 & R2 & R3 & R4).
  exists st'. by rewrite R1, R2, R3, R4.
Qed.

Lemma omap_none {A} (l : list A) : omap id (map (fun _ => @None nat) l) = [].
Proof. by induction l. Qed.

Lemma stack_op_ok op st : sinv st -> stack_allowed op st -> exists st', run_stack_op op st = Some st' /\ sinv st'.
Proof.
  intros I H. destruct op as [cpu tsk fresh answers|tsk|tsk|cpu tsk|cpu i|cpu].
  - destruct (alloc_ok cpu tsk fresh answers st I H) as (ret & st' & E & I' & _). cbn. rewrite E. by exists st'.
  - destruct H as [vm Hv]. cbn. rewrite Hv. eexists; split; [done|]. destruct I as [Ha Hl Hc He]. by constructor.
  - by apply exit_task_ok.
  - by apply release_stack_ok.
  - destruct H as [Hcpu Hi]. destruct I as [Ha Hl Hc He]. cbn. destruct (rcu_pending st !! i) as [vm|] eqn:Hv.
    2: { apply lookup_ge_None in Hv. lia. }
    assert (Ha1 : accounted [vm] (with_rcu (delete i (rcu_pending st)) st)).
    { unfold accounted, places in *. cbn [areas rcu_pending cached_stacks with_rcu app] in *. change (owned (with_rcu _ st)) with (owned st).
      pose proof (delete_Permutation _ _ _ Hv) as Hd. set (d := delete i _) in *. clearbody d. rewrite Hd in Ha. rewrite <- Ha.
      solve_Permutation. }
    unfold thread_stack_free_rcu. destruct (try_release_thread_stack_to_cache cpu vm _) as [st1|] eqn:Hr.
    + eexists; split; [done|]. destruct (release_len cpu vm (with_rcu (delete i (rcu_pending st)) st) st1 Hl Hr) as (L1 & L2 & L3 & L4). constructor; [by eapply accounted_release|done| |by rewrite L4, L2].
      intros v. rewrite L3. unfold paying. rewrite L2, L4. apply Hc.
    + destruct (accounted_vfree [] vm _ Ha1) as (st1 & E & A & Q1 & Q2 & Q3 & _ & _ & Q6). rewrite E. eexists; split; [done|].
      constructor; [done|by rewrite Q1| |by rewrite Q6, Q2]. intros v. rewrite Q3. unfold paying. rewrite Q2, Q6. apply Hc.
  - cbn in H |- *. destruct I as [Ha Hl Hc He]. destruct (cpu_slots cpu st H) as [l Hcl]. unfold free_vm_stack_cache. rewrite Hcl.
    destruct (free_slots_ok l [] (with_cached (<[cpu := map (fun _ => None) l]> (cached_stacks st)) st)) as (st' & E & A & Q1 & Q2 & Q3 & Q4).
    { rewrite app_nil_r. unfold accounted, places in *. cbn in *. rewrite <- Ha. change (owned (with_cached _ st)) with (owned st).
      pose proof (in_caches_insert _ cpu l (map (fun _ => None) l) Hcl) as Hi. rewrite omap_none, app_nil_r in Hi. rewrite <- Hi. solve_Permutation. }
    exists st'. split; [exact E|]. constructor; [done| | |by rewrite Q4, Q2].
    + rewrite Q1. cbn. apply Forall_insert; [done|]. rewrite length_map. exact (Forall_lookup_1 _ _ _ _ Hl Hcl).
    + intros v. rewrite Q3. unfold paying. rewrite Q2, Q4. apply Hc.
Qed.

Definition stacks_start (cpus : nat) : stacks :=
  {| cached_stacks := replicate cpus (replicate NR_CACHED_STACKS None); stack_vm_area := ∅; rcu_pending := []; areas := ∅;
     charged _ := 0; stale _ := false; exited := ∅ |}.

Inductive stacks_reachable (cpus : nat) : stacks -> Prop :=
  | stacks_init : stacks_reachable cpus (stacks_start cpus)
  | stacks_op op st st' : stacks_reachable cpus st -> stack_allowed op st -> run_stack_op op st = Some st' -> stacks_reachable cpus st'.

Lemma start_empty cpus : in_caches (replicate cpus (replicate NR_CACHED_STACKS None)) = [].
Proof. induction cpus as [|n IH]; [done|]. cbn. exact IH. Qed.

Lemma stacks_reachable_inv cpus st : stacks_reachable cpus st -> sinv st.
Proof.
  induction 1 as [|op st st' _ I Ha Hr].
  - constructor; cbn; [|by apply Forall_replicate|done|done]. unfold accounted, places. cbn [cached_stacks stacks_start].
    rewrite start_empty. cbn. by rewrite elements_empty.
  - destruct (stack_op_ok op st I Ha) as (st1 & E & I1). rewrite E in Hr. by injection Hr as <-.
Qed.

(** C12: along every history of tasks that are made, run, exit and give their stack up, maybe
    much later, on any processors, with grace periods and processors going down in between:
    no area is freed twice; every area is in exactly one place, a slot of a processor, a task,
    or a pending callback; no two tasks share one; exactly the stacks of tasks that have not
    exited are charged, all their pages; and a new task gets a stack without bytes of an
    earlier owner, or ENOMEM with nothing changed for any task. *)
Theorem stack_ownership cpus st : stacks_reachable cpus st ->
  (forall op, stack_allowed op st -> exists st', run_stack_op op st = Some st') /\
  NoDup (places st) /\ (forall v, v ∈ places st <-> v ∈ areas st) /\
  (forall t t' v, stack_vm_area st !! t = Some v -> stack_vm_area st !! t' = Some v -> t = t') /\
  (forall t v, stack_vm_area st !! t = Some v -> t ∉ exited st -> charged st v = 4) /\
  (forall v, (forall t, stack_vm_area st !! t = Some v -> t ∈ exited st) -> charged st v = 0) /\
  (forall cpu tsk fresh answers, stack_allowed (NewTask cpu tsk fresh answers) st ->
     exists ret st', alloc_thread_stack_node cpu tsk fresh answers st = Some (ret, st') /\
       (ret = 0 /\ (exists vm, stack_vm_area st' = <[tsk := vm]> (stack_vm_area st) /\ stale st' vm = false) \/
        ret = - ENOMEM /\ stack_vm_area st' = stack_vm_area st)).
Proof.
  intros H. apply stacks_reachable_inv in H as I. pose proof I as [Ha Hl Hc He]. split_and!.
  - intros op Hop. destruct (stack_op_ok op st I Hop) as (st' & E & _). by exists st'.
  - exact (places_nodup [] st Ha).
  - intros v. rewrite <- elem_of_elements. unfold accounted in Ha. by rewrite <- Ha.
  - intros t t' v. by apply owner_unique.
  - intros t v Hv Hn. rewrite Hc, decide_True; [reflexivity|]. apply elem_of_paying. by exists t.
  - intros v Hv. rewrite Hc, decide_False; [done|]. rewrite elem_of_paying. intros (t & Ht & Hn). by apply Hn, Hv.
  - intros cpu tsk fresh answers Hop. destruct (alloc_ok cpu tsk fresh answers st I Hop) as (ret & st' & E & _ & R). by exists ret, st'.
Qed.

(** ** An example *)

Definition stack_allowedb (op : stack_op) (st : stacks) : bool :=
  let cpu_ok (cpu : nat) := (cpu <? length (cached_stacks st))%nat in
  let has_stack (tsk : nat) := bool_decide (is_Some (stack_vm_area st !! tsk)) in
  match op with
  | NewTask cpu tsk fresh _ =>
      cpu_ok cpu && negb (has_stack tsk) && match fresh with Some vm => bool_decide (vm ∉ areas st) | None => true end
  | RunTask tsk => has_stack tsk
  | ExitTask tsk => has_stack tsk && bool_decide (tsk ∉ exited st)
  | ReleaseStack cpu tsk => cpu_ok cpu && (has_stack tsk && bool_decide (tsk ∈ exited st))
  | GracePeriod cpu i => cpu_ok cpu && (i <? length (rcu_pending st))%nat
  | CpuDown cpu => cpu_ok cpu
  end.

Lemma stack_allowedb_allowed op st : stack_allowedb op st = true -> stack_allowed op st.
Proof.
  destruct op as [cpu tsk fresh answers|tsk|tsk|cpu tsk|cpu i|cpu]; cbn.
  - intros [[H1 H2]%andb_prop H3]%andb_prop. apply Nat.ltb_lt in H1. apply negb_true_iff, bool_decide_eq_false in H2.
    split; [done|]. split; [by apply eq_None_not_Some|]. intros vm ->. by apply bool_decide_eq_true in H3.
  - by intros H%bool_decide_eq_true.
  - intros [H1%bool_decide_eq_true H2%bool_decide_eq_true]%andb_prop. done.
  - intros [H1%Nat.ltb_lt [H2%bool_decide_eq_true H3%bool_decide_eq_true]%andb_prop]%andb_prop. done.
  - intros [H1%Nat.ltb_lt H2%Nat.ltb_lt]%andb_prop. done.
  - by intros H%Nat.ltb_lt.
Qed.

Fixpoint run_stack_ops (ops : list stack_op) (st : stacks) : option stacks :=
  match ops with
  | [] => Some st
  | op :: ops => if stack_allowedb op st then match run_stack_op op st with Some st' => run_stack_ops ops st' | None => None end else None
  end.

Lemma run_stack_ops_reachable cpus ops st st' : stacks_reachable cpus st -> run_stack_ops ops st = Some st' -> stacks_reachable cpus st'.
Proof.
  revert st. induction ops as [|op ops IH]; intros st H; cbn; [by intros [= <-]|].
  destruct (stack_allowedb op st) eqn:Ha; [|done]. destruct (run_stack_op op st) as [st1|] eqn:Hr; [|done].
  apply IH. eapply stacks_op; [exact H|by apply stack_allowedb_allowed|exact Hr].
Qed.

(** Two tasks end; one stack waits in the cache for the next task of the processor. *)
Definition demo_stack_ops : list stack_op :=
  [NewTask 0 7 (Some 100%nat) (fun _ => 0); RunTask 7; NewTask 0 8 (Some 101%nat) (fun _ => 0); ExitTask 7; ExitTask 8;
   ReleaseStack 0 7; NewTask 0 9 None (fun _ => 0); ReleaseStack 0 8].

Lemma stack_ownership_witness : exists st, run_stack_ops demo_stack_ops (stacks_start 1) = Some st /\ NoDup (places st) /\
  (forall op, stack_allowed op st -> exists st', run_stack_op op st = Some st').
Proof.
  assert (Hd : match run_stack_ops demo_stack_ops (stacks_start 1) with Some _ => true | None => false end = true) by (vm_compute; reflexivity).
  destruct (run_stack_ops demo_stack_ops (stacks_start 1)) as [st|] eqn:E; [|discriminate Hd].
  exists st. split; [done|]. pose proof (run_stack_ops_reachable 1 _ _ _ (stacks_init 1) E) as H.
  split; [exact (proj1 (proj2 (stack_ownership 1 st H)))|exact (proj1 (stack_ownership 1 st H))].
Defined.
