(* ===== verification/PlainStack.v ===== *)
(** * Kernel stacks without vmalloc (kernel/fork.c: the other two configurations)

    Without CONFIG_VMAP_STACK a stack is a block of pages, or an object of a slab cache
    where a stack is smaller than a page.  There is no cache of free stacks: the first
    words of a stack serve as the rcu_head that frees it.  StackCache is the configuration
    with vmalloc. *)
From S2P Require Import Prelude Clone MmLife.

(** What differs between the two: whether a failed allocation is stored in the task. *)
Inductive stack_alloc := FromPages | FromSlab.

Record stack_task := { stk : option nat; ready : bool (** past alloc_thread_stack_node *) }.

Record stacks_state := {
  stack_tasks : gmap nat stack_task;
  stacks : gmap nat bool;               (** allocated; queued for freeing or not *)
  stack_kb : Z                          (** NR_KERNEL_STACK_KB *)
}.

Definition set_stask (t : nat) (x : option stack_task) (s : stacks_state) : stacks_state :=
  {| stack_tasks := put_slot t x (stack_tasks s); stacks := stacks s; stack_kb := stack_kb s |}.
Definition set_stack (k : nat) (x : option bool) (s : stacks_state) : stacks_state :=
  {| stack_tasks := stack_tasks s; stacks := put_slot k x (stacks s); stack_kb := stack_kb s |}.
Definition add_kb (d : Z) (s : stacks_state) : stacks_state := {| stack_tasks := stack_tasks s; stacks := stacks s; stack_kb := stack_kb s + d |}.

(** The kilobytes accounted for a stack: page by page with vmalloc, at once without. *)
Fixpoint account_pages (n : nat) (account : Z) : Z := match n with O => 0 | S n => account * (PAGE_SIZE / 1024) + account_pages n account end.
Definition account_kernel_stack (vmap : bool) (account : Z) : Z :=
  if vmap then account_pages (Z.to_nat (THREAD_SIZE / PAGE_SIZE)) account else account * (THREAD_SIZE / 1024).

Section ops.
Context (kind : stack_alloc).

Definition alloc_thread_stack_node (mem : option nat) (t : nat) (s : stacks_state) : option (Z * stacks_state) :=
  x ← stack_tasks s !! t;
  match kind, mem with
  | FromPages, Some k => Some (0, set_stask t (Some {| stk := Some k; ready := ready x |}) (set_stack k (Some false) s))
  | FromPages, None => Some (- ENOMEM, s)
  | FromSlab, Some k => Some (0, set_stask t (Some {| stk := Some k; ready := ready x |}) (set_stack k (Some false) s))
  | FromSlab, None => Some (- ENOMEM, set_stask t (Some {| stk := None; ready := ready x |}) s)
  end.

Definition thread_stack_delayed_free (t : nat) (s : stacks_state) : option stacks_state :=
  x ← stack_tasks s !! t;
  k ← stk x;
  q ← stacks s !! k;
  if (q : bool) then None else Some (set_stack k (Some true) s).

Definition free_thread_stack (t : nat) (s : stacks_state) : option stacks_state :=
  s ← thread_stack_delayed_free t s;
  x ← stack_tasks s !! t;
  Some (set_stask t (Some {| stk := None; ready := false |}) s).

(** The callback: [None] if nothing is queued. *)
Definition thread_stack_free_rcu (k : nat) (s : stacks_state) : option stacks_state :=
  q ← stacks s !! k;
  if (q : bool) then Some (set_stack k None s) else None.

(** dup_task_struct up to the stack: the copy points to the caller's stack until it has its
    own; if there is none its memory is freed. *)
Definition dup_stack (cur t : nat) (mem : option nat) (s : stacks_state) : option (bool * stacks_state) :=
  c ← stack_tasks s !! cur;
  let s := set_stask t (Some {| stk := stk c; ready := false |}) s in
  '(err, s) ← alloc_thread_stack_node mem t s;
  if c_true err then Some (false, set_stask t None s)
  else
    x ← stack_tasks s !! t;
    Some (true, add_kb (account_kernel_stack false 1) (set_stask t (Some {| stk := stk x; ready := true |}) s)).

(** exit_task_stack_account and the freeing, for a task that gives its stack up. *)
Definition give_stack (t : nat) (s : stacks_state) : option stacks_state :=
  let s := add_kb (account_kernel_stack false (-1)) s in
  s ← free_thread_stack t s;
  Some (set_stask t None s).

(** ** Every stack is one task's *)

Definition own (k : nat) (x : stack_task) : Z := b2z (ready x && bool_decide (stk x = Some k)).
Definition in_use (q : option bool) : Z := match q with Some false => 1 | _ => 0 end.

Record stacks_inv (s : stacks_state) : Prop := {
  si_task : forall t x, stack_tasks s !! t = Some x -> ready x = true /\ is_Some (stk x);
  si_own : forall k, csum (own k) (stack_tasks s) = in_use (stacks s !! k);
  si_kb : stack_kb s = THREAD_SIZE / 1024 * csum (fun _ => 1) (stack_tasks s)
}.

Lemma own_at k x : ready x = true -> stk x = Some k -> own k x = 1.
Proof. intros H1 H2. unfold own. by rewrite H1, H2, bool_decide_eq_true_2. Qed.
Lemma own_else k x : stk x <> Some k -> own k x = 0.
Proof. intros H. unfold own. by rewrite bool_decide_eq_false_2, andb_false_r. Qed.
Lemma own_nonneg k x : 0 <= own k x.
Proof. unfold own. by destruct (_ && _). Qed.

Lemma stask_at t x s : stack_tasks (set_stask t x s) !! t = x.
Proof. apply lookup_slot. Qed.
Lemma set_stask_twice t x y s : set_stask t x (set_stask t y s) = set_stask t x s.
Proof. unfold set_stask. cbn [stack_tasks stacks stack_kb]. by rewrite slot_slot. Qed.
Lemma set_stask_undo t s : stack_tasks s !! t = None -> set_stask t None s = s.
Proof. intros H. destruct s. unfold set_stask. cbn in *. by rewrite delete_id. Qed.
Lemma stack_stask_swap t x k q s : set_stask t x (set_stack k q s) = set_stack k q (set_stask t x s).
Proof. done. Qed.

Lemma new_stack_inv t k s : stacks_inv s -> stack_tasks s !! t = None -> stacks s !! k = None ->
  stacks_inv (add_kb (account_kernel_stack false 1) (set_stack k (Some false) (set_stask t (Some {| stk := Some k; ready := true |}) s))).
Proof.
  intros I Ht Hk. constructor; cbn [add_kb set_stask set_stack stack_tasks stacks stack_kb].
  - intros u x. destruct (decide (u = t)) as [-> |Hn]; [rewrite lookup_slot; intros [= <-]; by split; [|eexists]|]. rewrite lookup_slot_ne by done. apply I.
  - intros j. rewrite csum_slot, Ht, (si_own _ I). cbn [part]. destruct (decide (j = k)) as [-> |Hn].
    + rewrite lookup_slot, Hk, own_at by done. done.
    + rewrite lookup_slot_ne, own_else by (done || (cbn; congruence)). lia.
  - rewrite csum_slot, Ht, (si_kb _ I). cbn [part]. unfold account_kernel_stack. lia.
Qed.

Lemma dup_stack_inv cur t mem s c : stacks_inv s -> stack_tasks s !! cur = Some c -> stack_tasks s !! t = None -> (forall k, mem = Some k -> stacks s !! k = None) ->
  exists ok s', dup_stack cur t mem s = Some (ok, s') /\ stacks_inv s' /\
    (if ok then exists k, mem = Some k /\ stack_tasks s' !! t = Some {| stk := Some k; ready := true |} else mem = None /\ s' = s).
Proof.
  intros I Hc Ht Hm. unfold dup_stack, alloc_thread_stack_node. rewrite Hc. cbn [mbind option_bind]. rewrite stask_at. cbn [mbind option_bind ready].
  destruct mem as [k|].
  - pose proof (new_stack_inv t k s I Ht (Hm k eq_refl)) as I'. exists true. eexists. split; [|split; [exact I'|exists k; split; [done|apply lookup_slot]]].
    destruct kind; cbn [mbind option_bind]; change (c_true 0) with false; cbv beta iota; rewrite stask_at; cbn [mbind option_bind stk];
      by rewrite set_stask_twice, stack_stask_swap, set_stask_twice.
  - exists false, s. split; [|done].
    destruct kind; cbn [mbind option_bind]; change (c_true (- ENOMEM)) with true; cbv beta iota; by rewrite !set_stask_twice, set_stask_undo.
Qed.

Lemma give_stack_inv t x s : stacks_inv s -> stack_tasks s !! t = Some x -> exists s' k, give_stack t s = Some s' /\ stacks_inv s' /\ stk x = Some k /\ stacks s' !! k = Some true.
Proof.
  intros I Hx. destruct (si_task _ I t x Hx) as [Hr [k Hk]]. pose proof (si_own _ I k) as Ho.
  pose proof (csum_member _ _ t x (own_nonneg k) Hx) as Hm. rewrite (own_at k x Hr Hk) in Hm.
  assert (Hq : stacks s !! k = Some false) by (destruct (stacks s !! k) as [[]|]; cbn in Ho; [lia|done|lia]).
  unfold give_stack, free_thread_stack, thread_stack_delayed_free. cbn [add_kb stack_tasks stacks]. rewrite Hx. cbn [mbind option_bind]. rewrite Hk. cbn [mbind option_bind].
  rewrite Hq. cbn [mbind option_bind set_stack add_kb stack_tasks]. rewrite Hx. cbn [mbind option_bind]. eexists _, k. split; [done|].
  split; [|split; [done|cbn [set_stask set_stack stacks]; by rewrite lookup_slot]].
  constructor; cbn [add_kb set_stask set_stack stack_tasks stacks stack_kb]; rewrite slot_slot.
  - intros u y. destruct (decide (u = t)) as [-> |Hn]; [by rewrite lookup_slot|]. rewrite lookup_slot_ne by done. apply I.
  - intros j. rewrite csum_slot, Hx, (si_own _ I). cbn [part]. destruct (decide (j = k)) as [-> |Hn].
    + rewrite lookup_slot, Hq, own_at by done. done.
    + rewrite lookup_slot_ne, own_else by congruence. lia.
  - rewrite csum_slot, Hx, (si_kb _ I). cbn [part]. unfold account_kernel_stack. lia.
Qed.

Lemma free_rcu_inv k s : stacks_inv s -> stacks s !! k = Some true -> exists s', thread_stack_free_rcu k s = Some s' /\ stacks_inv s'.
Proof.
  intros I Hk. unfold thread_stack_free_rcu. rewrite Hk. cbn [mbind option_bind]. eexists; split; [done|]. constructor; cbn [set_stack stack_tasks stacks stack_kb]; try apply I.
  intros j. rewrite (si_own _ I). destruct (decide (j = k)) as [-> |Hn]; [by rewrite lookup_slot, Hk|by rewrite lookup_slot_ne].
Qed.

(** With and without vmalloc a stack is accounted with the same number of kilobytes. *)
Lemma account_agrees account : account_kernel_stack true account = account_kernel_stack false account.
Proof.
  unfold account_kernel_stack. change (Z.to_nat (THREAD_SIZE / PAGE_SIZE)) with 4%nat. cbn [account_pages].
  change (PAGE_SIZE / 1024) with 4. change (THREAD_SIZE / 1024) with 16. lia.
Qed.

(** ** Histories *)

Inductive stack_op := DupStack (cur t : nat) (mem : option nat) | GiveStack (t : nat) | FreeRcu (k : nat).

Definition stack_allowed (o : stack_op) (s : stacks_state) : Prop :=
  match o with
  | DupStack cur t mem => is_Some (stack_tasks s !! cur) /\ stack_tasks s !! t = None /\ forall k, mem = Some k -> stacks s !! k = None
  | GiveStack t => is_Some (stack_tasks s !! t)
  | FreeRcu k => stacks s !! k = Some true
  end.

Definition stack_run (o : stack_op) (s : stacks_state) : option stacks_state :=
  match o with
  | DupStack cur t mem => '(_, s) ← dup_stack cur t mem s; Some s
  | GiveStack t => give_stack t s
  | FreeRcu k => thread_stack_free_rcu k s
  end.

Definition boot_stacks : stacks_state :=
  {| stack_tasks := {[0%nat := {| stk := Some 0%nat; ready := true |}]}; stacks := {[0%nat := false]}; stack_kb := THREAD_SIZE / 1024 |}.

Inductive stack_reachable : stacks_state -> Prop :=
  | stacks_boot : stack_reachable boot_stacks
  | stacks_step o s s' : stack_reachable s -> stack_allowed o s -> stack_run o s = Some s' -> stack_reachable s'.

Lemma stack_run_inv o s : stacks_inv s -> stack_allowed o s -> exists s', stack_run o s = Some s' /\ stacks_inv s'.
Proof.
  intros I. destruct o; cbn [stack_allowed stack_run].
  - intros ([c Hc] & Ht & Hm). destruct (dup_stack_inv cur t mem s c I Hc Ht Hm) as (ok & s' & -> & I' & _). by eexists.
  - intros [x Hx]. destruct (give_stack_inv t x s I Hx) as (s' & k & -> & I' & _). by eexists.
  - intros Hk. by apply free_rcu_inv.
Qed.

Lemma stack_reachable_inv s : stack_reachable s -> stacks_inv s.
Proof.
  induction 1 as [|o s s' _ I Ha Hr].
  - constructor; cbn [stack_tasks stacks stack_kb boot_stacks].
    + intros t x [<- <-]%lookup_singleton_Some. by split; [|eexists].
    + intros k. unfold csum. rewrite map_fold_singleton. destruct (decide (k = 0%nat)) as [-> |Hn].
      * by rewrite lookup_singleton_eq, own_at.
      * by rewrite lookup_singleton_ne, own_else by (done || (cbn; congruence)).
    + unfold csum. by rewrite map_fold_singleton.
  - destruct (stack_run_inv o s I Ha) as (s1 & E1 & I1). congruence.
Qed.

(** Without vmalloc, in either configuration: along every history no stack is freed twice,
    used after it was freed or shared by two tasks, though a copy starts out pointing to
    the stack of its parent; a failed allocation changes nothing; and the kilobytes
    accounted are those of the stacks of tasks. *)
Lemma plain_stacks s : stack_reachable s ->
  (forall o, stack_allowed o s -> exists s', stack_run o s = Some s') /\
  (forall t u x y k, stack_tasks s !! t = Some x -> stack_tasks s !! u = Some y -> stk x = Some k -> stk y = Some k -> t = u /\ stacks s !! k = Some false) /\
  (forall cur t, is_Some (stack_tasks s !! cur) -> stack_tasks s !! t = None -> dup_stack cur t None s = Some (false, s)) /\
  stack_kb s = THREAD_SIZE / 1024 * csum (fun _ => 1) (stack_tasks s).
Proof.
  intros H. apply stack_reachable_inv in H as I. split_and!; [| | |apply I].
  - intros o Ha. destruct (stack_run_inv o s I Ha) as (s' & E & _). eauto.
  - intros t u x y k Hx Hy Hk Hk'. destruct (si_task _ I t x Hx) as [Hr _], (si_task _ I u y Hy) as [Hr' _]. pose proof (si_own _ I k) as Ho.
    destruct (decide (t = u)) as [-> |Hn].
    + split; [done|]. pose proof (csum_member _ _ u x (own_nonneg k) Hx) as Hm. rewrite (own_at k x Hr Hk) in Hm.
      destruct (stacks s !! k) as [[]|]; cbn in Ho; [lia|done|lia].
    + assert (Hd : delete t (stack_tasks s) !! u = Some y) by (by rewrite lookup_delete_ne). pose proof (csum_member _ _ u y (own_nonneg k) Hd) as Hm.
      rewrite (csum_delete _ _ t x Hx), (own_at k x Hr Hk), (own_at k y Hr' Hk') in Hm. destruct (stacks s !! k) as [[]|]; cbn in Ho; lia.
  - intros cur t [c Hc] Ht. destruct (dup_stack_inv cur t None s c I Hc Ht) as (ok & s' & -> & _ & Hok); [done|]. destruct ok; [by destruct Hok as (? & ? & _)|].
    by destruct Hok as [_ ->].
Qed.
End ops.
