(* ===== verification/ThreadLimits.v ===== *)
(** * The number of threads (kernel/fork.c: fork_init, nr_processes, sysctl_max_threads)

    How many threads there may be is set at boot from the size of memory (set_max_threads,
    in Clone) and later by a sysctl; copy_process compares it with [nr_threads] early and
    counts the new thread late, so callers that are in between all pass.  Processes are
    counted per processor, on whichever runs the fork or the exit. *)
From S2P Require Import Prelude Rlimit Unshare Clone.

(** ** At boot *)

(** [offset], [size]: the answer of arch_thread_struct_whitelist, relative to the thread
    member, which is at [thread_off] in task_struct. *)
Definition task_struct_whitelist (thread_off offset size : Z) : Z * Z :=
  if size =? 0 then (0, size) else (u64 (offset + thread_off), size).

Inductive ucount_rlimit := UCOUNT_RLIMIT_NPROC | UCOUNT_RLIMIT_MSGQUEUE | UCOUNT_RLIMIT_SIGPENDING | UCOUNT_RLIMIT_MEMLOCK.

Record fork_boot := {
  cache_align : Z; cache_useroffset : Z; cache_usersize : Z;    (** of the task_struct cache *)
  boot_max_threads : Z;
  init_nproc : rlimit; init_sigpending : rlimit;                (** limits of the init task *)
  ucount_max : list Z;                                          (** of the first user namespace *)
  userns_rlimit_max : ucount_rlimit -> Z
}.

Record boot_params := {
  p_l1_cache_bytes : Z; p_arch_min_taskalign : Z; p_thread_off : Z; p_wl_offset : Z; p_wl_size : Z;
  p_totalram_pages : Z; p_ucount_counts : nat
}.

Definition fork_init (b : boot_params) : fork_boot :=
  let align := Z.max (p_l1_cache_bytes b) (p_arch_min_taskalign b) in
  let '(useroffset, usersize) := task_struct_whitelist (p_thread_off b) (p_wl_offset b) (p_wl_size b) in
  let max_threads := set_max_threads MAX_THREADS (p_totalram_pages b) in
  let half := {| rlim_cur := max_threads / 2; rlim_max := max_threads / 2 |} in
  {| cache_align := align; cache_useroffset := useroffset; cache_usersize := usersize; boot_max_threads := max_threads;
     init_nproc := half; init_sigpending := half; ucount_max := replicate (p_ucount_counts b) (max_threads / 2);
     userns_rlimit_max _ := RLIM_INFINITY |}.

(** ** At run time *)

Record counters := {
  max_threads : Z; nr_threads : Z; total_forks : Z;
  process_counts : list Z;              (** per processor, unsigned long *)
  in_flight : nat                       (** callers between the check and the counting *)
}.

(** [ret] and [threads]: the answer of proc_dointvec_minmax and the value it left. *)
Definition sysctl_max_threads (write : bool) (ret threads : Z) (c : counters) : Z * counters :=
  if c_true ret || negb write then (ret, c)
  else (0, {| max_threads := threads; nr_threads := nr_threads c; total_forks := total_forks c; process_counts := process_counts c; in_flight := in_flight c |}).

(** [total += per_cpu(...)], an int and an unsigned long. *)
Definition nr_processes (c : counters) : Z := foldl (fun total n => i32 (u64 (u64 total + n))) 0 (process_counts c).

(** copy_process: the test, and the counting when the task is published on processor [cpu]
    (which the test and failures in between only precede). *)
Definition fork_check (c : counters) : Z * counters :=
  if max_threads c <=? nr_threads c then (- EAGAIN, c)
  else (0, {| max_threads := max_threads c; nr_threads := nr_threads c; total_forks := total_forks c; process_counts := process_counts c;
              in_flight := S (in_flight c) |}).

Definition count_cpu (d : Z) (cpu : nat) (l : list Z) : list Z := alter (fun n => u64 (n + d)) cpu l.

(** [pid]: the task has a number, that is, it is not an idle task of fork_idle. *)
Definition fork_count (cpu : nat) (pid leader : bool) (c : counters) : counters :=
  {| max_threads := max_threads c; nr_threads := if pid then i32 (nr_threads c + 1) else nr_threads c;
     total_forks := u64 (total_forks c + 1);
     process_counts := if pid && leader then count_cpu 1 cpu (process_counts c) else process_counts c;
     in_flight := pred (in_flight c) |}.

Definition fork_abandon (c : counters) : counters :=
  {| max_threads := max_threads c; nr_threads := nr_threads c; total_forks := total_forks c; process_counts := process_counts c;
     in_flight := pred (in_flight c) |}.

(** kernel/exit.c takes the same counts back. *)
Definition exit_count (cpu : nat) (leader : bool) (c : counters) : counters :=
  {| max_threads := max_threads c; nr_threads := nr_threads c - 1; total_forks := total_forks c;
     process_counts := if leader then count_cpu (-1) cpu (process_counts c) else process_counts c; in_flight := in_flight c |}.

(** ** Histories *)

Inductive count_op :=
  | ForkCheck | ForkCount (cpu : nat) (pid leader : bool) | ForkAbandon | ExitCount (cpu : nat) (leader : bool)
  | WriteMax (write : bool) (ret threads : Z).

(** The counts the kernel should have: threads and processes; and the largest limit so far. *)
Record truth := { threads_now : Z; processes_now : Z; largest_max : Z }.

(** At most [callers] tasks are inside copy_process; a fork is counted or abandoned once, a
    thread exits once; proc_dointvec_minmax keeps to the bounds it is given. *)
Definition count_allowed (callers ncpus : nat) (op : count_op) (c : counters) (g : truth) : Prop :=
  match op with
  | ForkCheck => (in_flight c < callers)%nat
  | ForkCount cpu _ _ => (0 < in_flight c)%nat /\ (cpu < ncpus)%nat
  | ForkAbandon => (0 < in_flight c)%nat
  | ExitCount cpu leader => 0 < threads_now g /\ (leader = true -> 0 < processes_now g) /\ (cpu < ncpus)%nat
  | WriteMax write ret threads => c_true ret = false -> write = true -> 1 <= threads <= MAX_THREADS
  end.

Definition count_run (op : count_op) (c : counters) (g : truth) : counters * truth :=
  match op with
  | ForkCheck => ((fork_check c).2, g)
  | ForkCount cpu pid leader =>
      (fork_count cpu pid leader c,
       {| threads_now := threads_now g + (if pid then 1 else 0);
          processes_now := processes_now g + (if pid && leader then 1 else 0); largest_max := largest_max g |})
  | ForkAbandon => (fork_abandon c, g)
  | ExitCount cpu leader =>
      (exit_count cpu leader c,
       {| threads_now := threads_now g - 1; processes_now := processes_now g - (if leader then 1 else 0); largest_max := largest_max g |})
  | WriteMax write ret threads =>
      let c := (sysctl_max_threads write ret threads c).2 in
      (c, {| threads_now := threads_now g; processes_now := processes_now g; largest_max := Z.max (largest_max g) (max_threads c) |})
  end.

(** After boot: one idle thread that does not count. *)
Definition count_start (b : boot_params) (ncpus : nat) : counters :=
  {| max_threads := boot_max_threads (fork_init b); nr_threads := 0; total_forks := 0; process_counts := replicate ncpus 0; in_flight := 0 |}.
Definition truth_start (b : boot_params) : truth := {| threads_now := 0; processes_now := 0; largest_max := boot_max_threads (fork_init b) |}.

Inductive count_reachable (b : boot_params) (callers ncpus : nat) : counters -> truth -> Prop :=
  | counts_start : count_reachable b callers ncpus (count_start b ncpus) (truth_start b)
  | counts_step op c g : count_reachable b callers ncpus c g -> count_allowed callers ncpus op c g ->
      count_reachable b callers ncpus (count_run op c g).1 (count_run op c g).2.

(** ** The counts are right and the limit holds, but for the callers in between *)

Definition sum (l : list Z) : Z := foldr Z.add 0 l.

Lemma count_cpu_length d cpu l : length (count_cpu d cpu l) = length l.
Proof. apply length_alter. Qed.

Lemma count_cpu_sum d cpu l : (cpu < length l)%nat -> (sum (count_cpu d cpu l)) mod 2 ^ 64 = (sum l + d) mod 2 ^ 64.
Proof.
  revert cpu. induction l as [|n l IH]; intros [|cpu] H; cbn in *; try lia.
  - unfold wrapU. rewrite Zplus_mod_idemp_l. f_equal. lia.
  - change (foldr Z.add 0 (alter _ cpu l)) with (sum (count_cpu d cpu l)). rewrite Zplus_mod, IH, <- Zplus_mod by lia. unfold sum. f_equal. lia.
Qed.

Lemma i32_mod x y : x mod 2 ^ 32 = y mod 2 ^ 32 -> i32 x = i32 y.
Proof. unfold wrapS. by intros ->. Qed.

Lemma mod_64_32 x : (x mod 2 ^ 64) mod 2 ^ 32 = x mod 2 ^ 32.
Proof. apply Z.mod_mod_divide. exists (2 ^ 32). reflexivity. Qed.

Lemma i32_mod_eq x : (i32 x) mod 2 ^ 32 = x mod 2 ^ 32.
Proof.
  unfold wrapS. cbv zeta. case_if; [by rewrite Z.mod_mod by lia|]. rewrite <- (Z.mod_add _ 1) by lia.
  replace (x mod 2 ^ 32 - 2 ^ 32 + 1 * 2 ^ 32) with (x mod 2 ^ 32) by lia. by rewrite Z.mod_mod by lia.
Qed.

(** The truncated sum is the truncated sum of the true values. *)
Lemma nr_processes_sum c : nr_processes c = i32 (sum (process_counts c)).
Proof.
  unfold nr_processes. assert (H : forall l t, foldl (fun total n => i32 (u64 (u64 total + n))) (i32 t) l = i32 (t + sum l)).
  { induction l as [|n l IH]; intros t; cbn; [f_equal; lia|]. transitivity (foldl (fun total n => i32 (u64 (u64 total + n))) (i32 (t + n)) l).
    - f_equal. apply i32_mod. unfold wrapU at 1. rewrite mod_64_32, <- Zplus_mod_idemp_l. unfold wrapU. rewrite mod_64_32, i32_mod_eq. apply Zplus_mod_idemp_l.
    - rewrite IH. unfold sum. f_equal. lia. }
  exact (H (process_counts c) 0).
Qed.

Section invariant.
Context (b : boot_params) (callers ncpus : nat).
Hypothesis Hpages : 0 <= p_totalram_pages b < 2 ^ 64.
(** There is room for the callers above the largest limit. *)
Hypothesis Hcallers : Z.of_nat callers < 2 ^ 30.

Record count_inv (c : counters) (g : truth) : Prop := {
  ci_max : 1 <= max_threads c <= MAX_THREADS;
  ci_large : max_threads c <= largest_max g <= MAX_THREADS;
  ci_callers : (in_flight c <= callers)%nat;
  ci_threads : nr_threads c = threads_now g /\ 0 <= threads_now g;
  ci_bound : threads_now g + Z.of_nat (in_flight c) <= largest_max g - 1 + Z.of_nat callers;
  ci_cpus : length (process_counts c) = ncpus;
  ci_procs : sum (process_counts c) mod 2 ^ 64 = processes_now g mod 2 ^ 64
}.

Lemma count_start_inv : count_inv (count_start b ncpus) (truth_start b).
Proof.
  pose proof (set_max_threads_bounds MAX_THREADS (p_totalram_pages b) ltac:(by vm_compute) Hpages) as [Hb _]. cbv zeta in Hb.
  assert (Hm : boot_max_threads (fork_init b) = set_max_threads MAX_THREADS (p_totalram_pages b)).
  { unfold fork_init. by destruct (task_struct_whitelist _ _ _). }
  assert (Hs : sum (replicate ncpus 0) = 0) by (clear; induction ncpus as [|n IH]; [done|exact IH]).
  unfold MIN_THREADS in Hb. constructor; cbn [max_threads largest_max in_flight nr_threads threads_now process_counts processes_now count_start truth_start];
    rewrite ?Hm, ?Hs; try lia; apply length_replicate.
Qed.

Lemma count_run_inv op c g : count_inv c g -> count_allowed callers ncpus op c g -> count_inv (count_run op c g).1 (count_run op c g).2.
Proof.
  intros I H. pose proof (ci_max _ _ I). pose proof (ci_large _ _ I). pose proof (ci_callers _ _ I). destruct (ci_threads _ _ I) as [Ht Hp].
  pose proof (ci_bound _ _ I). pose proof (ci_cpus _ _ I) as Hn. pose proof (ci_procs _ _ I) as Hs. unfold MAX_THREADS in *.
  assert (Hsum : forall d cpu, (cpu < ncpus)%nat -> sum (count_cpu d cpu (process_counts c)) mod 2 ^ 64 = (processes_now g + d) mod 2 ^ 64).
  { intros d cpu Hc. rewrite count_cpu_sum by lia. rewrite <- Zplus_mod_idemp_l, Hs. apply Zplus_mod_idemp_l. }
  destruct op; cbn [count_allowed count_run] in *.
  - unfold fork_check. destruct (Z.leb_spec (max_threads c) (nr_threads c)); cbn; [done|]. constructor; cbn; unfold MAX_THREADS; try lia; done.
  - destruct H as [H Hc]. constructor; cbn [fst snd fork_count max_threads largest_max in_flight nr_threads threads_now process_counts processes_now]; unfold MAX_THREADS; try lia.
    + destruct pid; [|lia]. rewrite wrapS_id; [lia|lia|]. unfold is_s. lia.
    + destruct pid; lia.
    + destruct (pid && leader); [by rewrite count_cpu_length|done].
    + destruct (pid && leader); [by apply Hsum|by rewrite Z.add_0_r].
  - constructor; cbn; unfold MAX_THREADS; try lia; done.
  - destruct H as (H & Hl & Hc). constructor; cbn [fst snd exit_count max_threads largest_max in_flight nr_threads threads_now process_counts processes_now]; unfold MAX_THREADS; try lia.
    + destruct leader; [by rewrite count_cpu_length|done].
    + destruct leader; [by apply (Hsum (-1))|by rewrite Z.sub_0_r].
  - unfold sysctl_max_threads. destruct (c_true ret) eqn:Hr; [|destruct write]; cbn [orb negb fst snd];
      (constructor; cbn; unfold MAX_THREADS in *; try done; try lia).
Qed.

Lemma count_reachable_inv c g : count_reachable b callers ncpus c g -> count_inv c g.
Proof. induction 1; [apply count_start_inv|by apply count_run_inv]. Qed.

(** C30: with at most [callers] tasks inside copy_process at a time, whatever they do and
    however the limit is changed: the limit stays between one and the maximum, the count
    of threads is exact, never negative and exceeds the largest limit that was set by less
    than the number of concurrent callers (the test comes too early to do better, as its
    comment says); and the sum over the processors is the number of processes, although
    single counters wrap below zero when a process exits elsewhere than it was made. *)
Theorem thread_counts c g : count_reachable b callers ncpus c g ->
  1 <= max_threads c <= MAX_THREADS /\
  nr_threads c = threads_now g /\ 0 <= nr_threads c /\
  (nr_threads c <= largest_max g - 1 + Z.of_nat callers) /\
  ((fork_check c).1 = - EAGAIN <-> max_threads c <= threads_now g) /\
  (0 <= processes_now g < 2 ^ 31 -> nr_processes c = processes_now g).
Proof.
  intros H. apply count_reachable_inv in H as I. destruct (ci_threads _ _ I) as [Ht Hp]. pose proof (ci_bound _ _ I). split_and!; try lia; try apply I.
  - rewrite <- Ht. unfold fork_check. destruct (Z.leb_spec (max_threads c) (nr_threads c)); cbn; split; intros; try lia; done.
  - intros Hr. rewrite nr_processes_sum. transitivity (i32 (processes_now g)); [|apply wrapS_id; [lia|unfold is_s; lia]].
    apply i32_mod. rewrite <- mod_64_32, (ci_procs _ _ I). apply mod_64_32.
Qed.
End invariant.

(** The part of a task_struct that may be copied to user space stays inside its thread
    member, which is [thread_size] bytes long. *)
Lemma whitelist_inside thread_off thread_size offset size :
  0 <= offset -> 0 <= size -> 0 <= thread_off -> offset + size <= thread_size -> thread_off + thread_size < 2 ^ 64 ->
  let '(o, n) := task_struct_whitelist thread_off offset size in n = 0 \/ (thread_off <= o /\ o + n <= thread_off + thread_size).
Proof.
  intros H1 H2 H3 H4 H5. unfold task_struct_whitelist. destruct (Z.eqb_spec size 0); [by left|]. right. rewrite wrapU_id by (lia || (unfold is_u; lia)). lia.
Qed.

(** ** An example *)

Definition demo_boot : boot_params :=
  {| p_l1_cache_bytes := 64; p_arch_min_taskalign := 0; p_thread_off := 4000; p_wl_offset := 64; p_wl_size := 512; p_totalram_pages := 1; p_ucount_counts := 12 |}.

Definition count_allowedb (callers ncpus : nat) (op : count_op) (c : counters) (g : truth) : bool :=
  match op with
  | ForkCheck => (in_flight c <? callers)%nat
  | ForkCount cpu _ _ => (0 <? in_flight c)%nat && (cpu <? ncpus)%nat
  | ForkAbandon => (0 <? in_flight c)%nat
  | ExitCount cpu leader => (0 <? threads_now g) && (negb leader || (0 <? processes_now g)) && (cpu <? ncpus)%nat
  | WriteMax _ _ threads => (1 <=? threads) && (threads <=? MAX_THREADS)
  end.

Lemma count_allowedb_true callers ncpus op c g : count_allowedb callers ncpus op c g = true -> count_allowed callers ncpus op c g.
Proof.
  destruct op; cbn [count_allowedb count_allowed]; rewrite ?andb_true_iff, ?orb_true_iff, ?Nat.ltb_lt, ?Z.ltb_lt, ?Z.leb_le; try done.
  intros ((H1 & H2) & H3). split_and!; try done. intros ->. by destruct H2.
Qed.

Fixpoint count_runs (callers ncpus : nat) (ops : list count_op) (c : counters) (g : truth) : option (counters * truth) :=
  match ops with
  | [] => Some (c, g)
  | op :: ops => if count_allowedb callers ncpus op c g then count_runs callers ncpus ops (count_run op c g).1 (count_run op c g).2 else None
  end.

Lemma count_runs_reachable b callers ncpus ops c g c' g' : count_reachable b callers ncpus c g ->
  count_runs callers ncpus ops c g = Some (c', g') -> count_reachable b callers ncpus c' g'.
Proof.
  revert c g. induction ops as [|op ops IH]; intros c g H; cbn; [by intros [= <- <-]|]. destruct (count_allowedb _ _ _ _ _) eqn:Ha; [|done].
  apply IH. apply counts_step; [done|by apply count_allowedb_true].
Qed.

(** Two callers, a limit of one: both pass, and there are two threads until the process
    exits on the other processor, whose counter wraps. *)
Definition demo_counts : list count_op := [WriteMax true 0 1; ForkCheck; ForkCheck; ForkCount 0 true true; ForkCount 0 true false; ExitCount 1 true].

Lemma thread_counts_witness : exists c g, count_runs 2 2 demo_counts (count_start demo_boot 2) (truth_start demo_boot) = Some (c, g) /\
  nr_threads c = 1 /\ process_counts c = [1; 2 ^ 64 - 1] /\ nr_processes c = processes_now g.
Proof.
  destruct (count_runs 2 2 demo_counts (count_start demo_boot 2) (truth_start demo_boot)) as [[c g]|] eqn:Hr; [|vm_compute in Hr; discriminate Hr].
  exists c, g. split; [reflexivity|]. assert (Hv : nr_threads c = 1 /\ process_counts c = [1; 2 ^ 64 - 1] /\ processes_now g = 0).
  { vm_compute in Hr. injection Hr as <- <-. split_and!; reflexivity. }
  destruct Hv as (H1 & H2 & H3). split_and!; [exact H1|exact H2|].
  apply (thread_counts demo_boot 2 2 ltac:(by vm_compute) ltac:(by vm_compute) c g (count_runs_reachable _ _ _ _ _ _ _ _ (counts_start demo_boot 2 2) Hr)).
  rewrite H3. by vm_compute.
Defined.
