(* ===== verification/Inherit.v ===== *)
(** * What a child takes over late (kernel/fork.c: copy_seccomp, copy_oom_score_adj)

    Most of a task is copied early in copy_process, and the caller's settings may change
    before the child can be seen by those who change them.  Two settings are therefore
    copied again at the end: the seccomp filters, under the lock that also publishes the
    child, and the OOM score, under the mutex that its writers hold.  Both are modelled
    with the writers interleaved. *)
From S2P Require Import Prelude Unshare MmLife.

Module Seccomp.

Definition SECCOMP_MODE_DISABLED := 0.
Definition SECCOMP_MODE_FILTER := 2.

(** A thread of one group: its filters (the newest first; a filter keeps the older ones),
    its mode, the no_new_privs bit, the flag that sends its syscalls through the filters,
    and whether it is in the thread list; else the thread that builds it. *)
Record thread := {
  filter : list nat; mode : Z; no_new_privs : bool; syscall_work : bool;
  built_for : option nat
}.

Record group := {
  threads : gmap nat thread;
  usage : nat -> Z                      (** references on a filter, by the newest of a chain *)
}.

Definition set_thread (t : nat) (x : option thread) (s : group) : group := {| threads := put_slot t x (threads s); usage := usage s |}.
Definition refer (d : Z) (l : list nat) (s : group) : group :=
  match l with f :: _ => {| threads := threads s; usage := shift d f (usage s) |} | [] => s end.

(** dup_task_struct: everything is copied but the filter, which is not counted yet. *)
Definition dup_seccomp (cur p : nat) (s : group) : option group :=
  c ← threads s !! cur;
  Some (set_thread p (Some {| filter := []; mode := mode c; no_new_privs := no_new_privs c; syscall_work := syscall_work c; built_for := Some cur |}) s).

Definition copy_seccomp (cur p : nat) (s : group) : option group :=
  c ← threads s !! cur;
  x ← threads s !! p;
  let s := refer 1 (filter c) s in
  let x := {| filter := filter c; mode := mode c; no_new_privs := no_new_privs x; syscall_work := syscall_work x; built_for := built_for x |} in
  let x := if no_new_privs c then {| filter := filter x; mode := mode x; no_new_privs := true; syscall_work := syscall_work x; built_for := built_for x |} else x in
  let x := if negb (mode x =? SECCOMP_MODE_DISABLED)
           then {| filter := filter x; mode := mode x; no_new_privs := no_new_privs x; syscall_work := true; built_for := built_for x |} else x in
  Some (set_thread p (Some x) s).

(** The lock is held until the thread is in the list. *)
Definition publish (p : nat) (s : group) : option group :=
  x ← threads s !! p;
  cur ← built_for x;
  s ← copy_seccomp cur p s;
  x ← threads s !! p;
  Some (set_thread p (Some {| filter := filter x; mode := mode x; no_new_privs := no_new_privs x; syscall_work := syscall_work x; built_for := None |}) s).

(** The fork failed: free_task warns if the task still has a filter. *)
Definition fail (p : nat) (s : group) : option group :=
  x ← threads s !! p;
  match filter x with [] => Some (set_thread p None s) | _ :: _ => None end.

(** ** kernel/seccomp.c, by what it documents *)

(** The bit of unprivileged callers; a filter of one's own; a filter for all threads, whose
    filters the caller's chain must extend. *)
Definition set_nnp (t : nat) (s : group) : option group :=
  x ← threads s !! t;
  Some (set_thread t (Some {| filter := filter x; mode := mode x; no_new_privs := true; syscall_work := syscall_work x; built_for := built_for x |}) s).

Definition filtered (l : list nat) (nnp : bool) (x : thread) : thread :=
  {| filter := l; mode := SECCOMP_MODE_FILTER; no_new_privs := no_new_privs x || nnp; syscall_work := true; built_for := built_for x |}.

Definition install (t f : nat) (s : group) : option group :=
  x ← threads s !! t;
  Some (set_thread t (Some (filtered (f :: filter x) (no_new_privs x) x)) (refer 1 [f] (refer (-1) (filter x) s))).

(** [tsync] writes the chain of [t], with [f] added, to every thread in the list. *)
Definition tsync_one (l : list nat) (nnp : bool) (x : thread) : thread := match built_for x with None => filtered l nnp x | Some _ => x end.
Definition heads (M : gmap nat thread) (f : nat) : Z := csum (fun x => match filter x with g :: _ => b2z (g =? f)%nat | [] => 0 end) M.
Definition tsync (t f : nat) (s : group) : option group :=
  x ← threads s !! t;
  let M := tsync_one (f :: filter x) (no_new_privs x) <$> threads s in
  Some {| threads := M; usage := fun g => usage s g + heads M g - heads (threads s) g |}.

(** ** No thread escapes *)

(** A filter that was installed: for all threads or for one, and whether its installer had
    given up new privileges. *)
Record installed := { i_filter : nat; i_all : bool; i_nnp : bool }.

(** [cap]: the caller has CAP_SYS_ADMIN in its user namespace. *)
Inductive op := Dup (cur p : nat) | Publish (p : nat) | Fail (p : nat) | Nnp (t : nat) | Install (t f : nat) (cap : bool) | Tsync (t f : nat) (cap : bool).

(** [H] is the history of installed filters. *)
Definition note (t f : nat) (all : bool) (s : group) (H : list installed) : list installed :=
  match threads s !! t with
  | Some x => {| i_filter := f; i_all := all; i_nnp := no_new_privs x |} :: H
  | None => H
  end.

Definition run (o : op) (s : group) (H : list installed) : option (group * list installed) :=
  match o with
  | Dup cur p => s ← dup_seccomp cur p s; Some (s, H)
  | Publish p => s ← publish p s; Some (s, H)
  | Fail p => s ← fail p s; Some (s, H)
  | Nnp t => s ← set_nnp t s; Some (s, H)
  | Install t f _ => s' ← install t f s; Some (s', note t f false s H)
  | Tsync t f _ => s' ← tsync t f s; Some (s', note t f true s H)
  end.

Definition listed (t : nat) (s : group) : Prop := exists x, threads s !! t = Some x /\ built_for x = None.

(** Only threads in the list run and fork.  A filter, a new one each time, is installed by
    who gave up new privileges or has CAP_SYS_ADMIN; a filter for all extends everybody's. *)
Definition allowed (o : op) (s : group) (H : list installed) : Prop :=
  match o with
  | Dup cur p => listed cur s /\ threads s !! p = None
  | Publish p | Fail p => exists x cur, threads s !! p = Some x /\ built_for x = Some cur
  | Nnp t => listed t s
  | Install t f cap => f ∉ i_filter <$> H /\ exists x, threads s !! t = Some x /\ built_for x = None /\ (no_new_privs x = true \/ cap = true)
  | Tsync t f cap => f ∉ i_filter <$> H /\ exists x, threads s !! t = Some x /\ built_for x = None /\ (no_new_privs x = true \/ cap = true) /\
      forall u y, threads s !! u = Some y -> built_for y = None -> suffix (filter y) (filter x)
  end.

(** What holds of the filters [l] and the no_new_privs bit [nnp] of a thread: it has those
    installed for all, only installed ones, and the bit if the installer of one had it. *)
Definition filters_ok (H : list installed) (l : list nat) (nnp : bool) : Prop :=
  (forall i, i ∈ H -> i_all i = true -> i_filter i ∈ l) /\ (forall f, f ∈ l -> f ∈ i_filter <$> H) /\
  (forall i, i ∈ H -> i_filter i ∈ l -> i_nnp i = true -> nnp = true).

Definition thread_ok (M : gmap nat thread) (H : list installed) (x : thread) : Prop :=
  match built_for x with
  | None => (mode x <> SECCOMP_MODE_DISABLED -> syscall_work x = true) /\ (filter x <> [] -> mode x <> SECCOMP_MODE_DISABLED) /\
      filters_ok H (filter x) (no_new_privs x)
  | Some cur => filter x = [] /\ exists c, M !! cur = Some c /\ built_for c = None
  end.

Record inv (s : group) (H : list installed) : Prop := {
  in_thread : forall t x, threads s !! t = Some x -> thread_ok (threads s) H x;
  in_usage : forall f, usage s f = heads (threads s) f
}.

Lemma filters_ok_nnp H l nnp : filters_ok H l nnp -> filters_ok H l true.
Proof. unfold filters_ok. naive_solver. Qed.

Lemma filters_ok_sub H l n n' : filters_ok H l n -> (n = true -> n' = true) -> filters_ok H l n'.
Proof. unfold filters_ok. naive_solver. Qed.

(** A new filter on top of the chain of its installer. *)
Lemma filters_ok_new H l nnp f all : filters_ok H l nnp -> f ∉ i_filter <$> H ->
  filters_ok ({| i_filter := f; i_all := all; i_nnp := nnp |} :: H) (f :: l) nnp.
Proof.
  intros (H1 & H2 & H3) Hf. split_and!.
  - intros i [-> |Hi]%elem_of_cons; [by left|]. right. auto.
  - intros k [-> |Hk]%elem_of_cons; [by left|]. right. auto.
  - intros i [-> |Hi]%elem_of_cons; [done|]. intros [Hk|Hk]%elem_of_cons; [|by eapply H3].
    destruct Hf. rewrite <- Hk. by apply list_elem_of_fmap_2.
Qed.

(** One that another thread installed for itself. *)
Lemma filters_ok_else H l nnp n f : filters_ok H l nnp -> f ∉ i_filter <$> H -> filters_ok ({| i_filter := f; i_all := false; i_nnp := n |} :: H) l nnp.
Proof.
  intros (H1 & H2 & H3) Hf. split_and!.
  - intros i [-> |Hi]%elem_of_cons; [done|]. auto.
  - intros k Hk. right. auto.
  - intros i [-> |Hi]%elem_of_cons; [|by apply H3]. cbn. intros Hk. by destruct Hf; apply H2.
Qed.

Lemma heads_slot M t o f : heads (put_slot t o M) f =
  heads M f - part (fun x => match filter x with g :: _ => b2z (g =? f)%nat | [] => 0 end) (M !! t) +
  part (fun x => match filter x with g :: _ => b2z (g =? f)%nat | [] => 0 end) o.
Proof. apply csum_slot. Qed.

Lemma usage_refer d l s f : usage (refer d l s) f = usage s f + match l with g :: _ => d * b2z (g =? f)%nat | [] => 0 end.
Proof.
  destruct l as [|g l]; cbn; [lia|]. unfold shift. destruct (Nat.eqb_spec g f) as [-> |Hn]; [rewrite decide_True by done|rewrite decide_False by congruence]; cbn; lia.
Qed.

Lemma threads_refer d l s : threads (refer d l s) = threads s.
Proof. by destruct l. Qed.

(** One thread changes and stays in the list if it was, so that who builds on it can; the
    others are as they were, with a history that may be longer. *)
Lemma inv_one s H s' H' t o : inv s H -> threads s' = put_slot t o (threads s) ->
  (forall x, threads s !! t = Some x -> built_for x = None -> exists y, o = Some y /\ built_for y = None) ->
  (forall l nnp, filters_ok H l nnp -> filters_ok H' l nnp) ->
  (forall y, o = Some y -> thread_ok (threads s') H' y) -> (forall f, usage s' f = heads (threads s') f) -> inv s' H'.
Proof.
  intros I Hs Hk Hh Hy Hu. constructor; [|done]. intros u x. rewrite Hs. destruct (decide (u = t)) as [-> |Hn]; [rewrite lookup_slot, <- Hs; apply Hy|].
  rewrite lookup_slot_ne by done. intros Hx. pose proof (in_thread _ _ I u x Hx) as Hok. unfold thread_ok in *. destruct (built_for x) as [cur|].
  - destruct Hok as (? & c & Hc & Hb). split; [done|]. destruct (decide (cur = t)) as [-> |Hcn]; [rewrite lookup_slot; by eapply Hk|].
    rewrite lookup_slot_ne by done. by exists c.
  - destruct Hok as (? & ? & ?). split_and!; auto.
Qed.

(** Every operation can run and keeps the invariant. *)
Definition keeps (o : op) : Prop := forall s H, inv s H -> allowed o s H -> exists s' H', run o s H = Some (s', H') /\ inv s' H'.

Lemma dup_keeps cur p : keeps (Dup cur p).
Proof.
  intros s H I. pose proof (in_usage _ _ I) as Hu. cbn [allowed run].
  intros ((c & Hc & Hb) & Hn). unfold dup_seccomp. rewrite Hc. cbn [mbind option_bind]. eexists _, _; split; [done|].
  eapply (inv_one s H _ H p); [exact I|done|by rewrite Hn|done| |].
  - intros y [= <-]. unfold thread_ok. cbn. split; [done|]. exists c. rewrite lookup_insert_ne by congruence. done.
  - intros f. cbn [usage set_thread threads]. rewrite heads_slot, Hn, Hu. cbn. lia.
Qed.

Lemma publish_keeps p : keeps (Publish p).
Proof.
  intros s H I. pose proof (in_usage _ _ I) as Hu. cbn [allowed run].
  intros (x & cur & Hx & Hb). pose proof (in_thread _ _ I p x Hx) as Hp. unfold thread_ok in Hp. rewrite Hb in Hp. destruct Hp as (Hf & c & Hc & Hcb).
  pose proof (in_thread _ _ I cur c Hc) as Hok. unfold thread_ok in Hok. rewrite Hcb in Hok. destruct Hok as (Hw & Hm & HF).
  unfold publish, copy_seccomp. rewrite Hx. cbn [mbind option_bind]. rewrite Hb. cbn [mbind option_bind]. rewrite Hc. cbn [mbind option_bind].
  set (y := if negb _ then _ else _). cbn [set_thread threads]. rewrite lookup_slot. cbn [mbind option_bind].
  assert (Hy : filter y = filter c /\ mode y = mode c /\ (no_new_privs c = true -> no_new_privs y = true) /\ (mode c <> SECCOMP_MODE_DISABLED -> syscall_work y = true)).
  { subst y. destruct (no_new_privs c); cbn [mode]; (destruct (Z.eqb_spec (mode c) SECCOMP_MODE_DISABLED); cbn; split_and!; done). }
  destruct Hy as (Y1 & Y2 & Y3 & Y4). clearbody y. eexists _, _; split; [done|].
  eapply (inv_one s H _ H p); [exact I|cbn [set_thread threads]; by rewrite slot_slot, threads_refer| |done| |].
  - rewrite Hx. intros z [= <-]. congruence.
  - intros z [= <-]. unfold thread_ok. cbn [built_for filter mode no_new_privs syscall_work]. rewrite Y1, Y2. split_and!; [done|done|].
    by eapply filters_ok_sub.
  - intros f. cbn [set_thread threads usage]. rewrite usage_refer, slot_slot, threads_refer, heads_slot, Hx, Hu. cbn [part filter]. rewrite Hf, Y1.
    destruct (filter c); lia.
Qed.

Lemma fail_keeps p : keeps (Fail p).
Proof.
  intros s H I. pose proof (in_usage _ _ I) as Hu. cbn [allowed run].
  intros (x & cur & Hx & Hb). pose proof (in_thread _ _ I p x Hx) as Hp. unfold thread_ok in Hp. rewrite Hb in Hp. destruct Hp as (Hf & _).
  unfold fail. rewrite Hx. cbn [mbind option_bind]. rewrite Hf. eexists _, _; split; [done|]. eapply (inv_one s H _ H p); [exact I|done| |done|done|].
  - rewrite Hx. intros z [= <-]. congruence.
  - intros f. cbn [set_thread threads usage]. rewrite heads_slot, Hx, Hu. cbn [part]. rewrite Hf. lia.
Qed.

Lemma nnp_keeps t : keeps (Nnp t).
Proof.
  intros s H I. pose proof (in_usage _ _ I) as Hu. cbn [allowed run].
  intros (x & Hx & Hb). pose proof (in_thread _ _ I t x Hx) as Hok. unfold thread_ok in Hok. rewrite Hb in Hok. destruct Hok as (Hw & Hm & HF).
  unfold set_nnp. rewrite Hx. cbn [mbind option_bind]. eexists _, _; split; [done|]. eapply (inv_one s H _ H t); [exact I|done|by intros; eexists|done| |].
  - intros z [= <-]. unfold thread_ok. cbn. rewrite Hb. split_and!; try done. by eapply filters_ok_nnp.
  - intros f. cbn [set_thread threads usage]. rewrite heads_slot, Hx, Hu. cbn [part filter]. lia.
Qed.

Lemma install_keeps t f cap : keeps (Install t f cap).
Proof.
  intros s H I. pose proof (in_usage _ _ I) as Hu. cbn [allowed run].
  intros (Hnew & x & Hx & Hb & _). pose proof (in_thread _ _ I t x Hx) as Hok. unfold thread_ok in Hok. rewrite Hb in Hok. destruct Hok as (Hw & Hm & HF).
  unfold install, note. rewrite Hx. cbn [mbind option_bind]. eexists _, _; split; [done|].
  eapply (inv_one s H _ _ t (Some (filtered (f :: filter x) (no_new_privs x) x))); [exact I| |by intros ? Hy ?; rewrite Hx in Hy; injection Hy as <-; eexists| | |].
  - cbn [set_thread threads]. by rewrite !threads_refer.
  - intros l nnp Hl. by apply filters_ok_else.
  - intros z [= <-]. unfold thread_ok. cbn [filtered built_for filter mode no_new_privs syscall_work]. rewrite Hb, orb_diag. split_and!; try done.
    by apply filters_ok_new.
  - intros k. cbn [set_thread threads usage]. rewrite !usage_refer, !threads_refer, heads_slot, Hx, Hu. cbn [part filter filtered]. destruct (filter x); lia.
Qed.

Lemma tsync_keeps t f cap : keeps (Tsync t f cap).
Proof.
  intros s H I. pose proof (in_usage _ _ I) as Hu. cbn [allowed run].
  intros (Hnew & x & Hx & Hb & _ & Hsuf). pose proof (in_thread _ _ I t x Hx) as Hok. unfold thread_ok in Hok. rewrite Hb in Hok. destruct Hok as (Hw & Hm & HF).
  unfold tsync, note. rewrite Hx. cbn [mbind option_bind]. eexists _, _; split; [done|]. constructor; cbn [threads usage]; [|intros k; rewrite Hu; lia].
  intros u y. rewrite lookup_fmap. destruct (threads s !! u) as [z|] eqn:Hz; [|done]. intros [= <-]. pose proof (in_thread _ _ I u z Hz) as Hok.
  unfold thread_ok in *. unfold tsync_one. destruct (built_for z) as [cur|] eqn:Hzb.
  - rewrite Hzb. destruct Hok as (? & c & Hc & Hcb). split; [done|]. exists (filtered (f :: filter x) (no_new_privs x) c). rewrite lookup_fmap, Hc. cbn.
    unfold tsync_one. by rewrite Hcb.
  - cbn [filtered built_for filter mode no_new_privs syscall_work]. rewrite Hzb. split_and!; try done.
    eapply filters_ok_sub; [by apply filters_ok_new|]. intros ->. apply orb_true_r.
Qed.

Lemma run_inv o s H : inv s H -> allowed o s H -> exists s' H', run o s H = Some (s', H') /\ inv s' H'.
Proof.
  revert s H. change (keeps o). destruct o; [apply dup_keeps|apply publish_keeps|apply fail_keeps|apply nnp_keeps|apply install_keeps|apply tsync_keeps].
Qed.

Definition first_group : group :=
  {| threads := {[0%nat := {| filter := []; mode := SECCOMP_MODE_DISABLED; no_new_privs := false; syscall_work := false; built_for := None |}]}; usage _ := 0 |}.

Inductive reachable : group -> list installed -> Prop :=
  | reach_start : reachable first_group []
  | reach_op o s H s' H' : reachable s H -> allowed o s H -> run o s H = Some (s', H') -> reachable s' H'.

Lemma seccomp_inv s H : reachable s H -> inv s H.
Proof.
  induction 1 as [|o s H s' H' _ I Ha Hr].
  - constructor; cbn.
    + intros t x [<- <-]%lookup_singleton_Some. unfold thread_ok. cbn. split_and!; [done|done|].
      split_and!; [by intros i ?%elem_of_nil|by intros f ?%elem_of_nil|by intros i ?%elem_of_nil].
    + intros f. unfold heads, csum. by rewrite map_fold_singleton.
  - destruct (run_inv o s H I Ha) as (s1 & F1 & E1 & I1). rewrite E1 in Hr. by injection Hr as <- <-.
Qed.

(** C14: whenever filters are installed, for one thread or for all, by threads that gave up
    new privileges or by privileged ones (CAP_SYS_ADMIN), while other threads fork: every
    thread in the list has each filter that was installed for all before or since, and its
    syscalls go through its filters; where the installer of one of its filters had given up
    new privileges, the thread has, too; a child that is not in the list holds no filter,
    so a failed fork has none to give back, and the references on a filter are the threads
    that hold it. *)
Theorem no_thread_escapes s H : reachable s H ->
  (forall t x, threads s !! t = Some x -> built_for x = None ->
     (forall i, i ∈ H -> i_all i = true -> i_filter i ∈ filter x) /\ (filter x <> [] -> syscall_work x = true) /\
     (forall i, i ∈ H -> i_filter i ∈ filter x -> i_nnp i = true -> no_new_privs x = true)) /\
  (forall p, (exists x cur, threads s !! p = Some x /\ built_for x = Some cur) -> is_Some (publish p s) /\ is_Some (fail p s)) /\
  forall f, usage s f = heads (threads s) f.
Proof.
  intros Hr. apply seccomp_inv in Hr as I. split_and!; [| |apply I].
  - intros t x Hx Hb. pose proof (in_thread _ _ I t x Hx) as Hok. unfold thread_ok in Hok. rewrite Hb in Hok. destruct Hok as (Hw & Hm & HF & _ & HN).
    split_and!; auto.
  - intros p Hp. destruct (run_inv (Publish p) s H I Hp) as (s1 & F1 & E1 & _), (run_inv (Fail p) s H I Hp) as (s2 & F2 & E2 & _). cbn in E1, E2.
    destruct (publish p s); [|done]. destruct (fail p s); [|done]. done.
Qed.

(** The privileged parent installs a filter of its own and gives up new privileges; a child
    is copied, then the parent installs a filter for all, then the child is published. *)
Definition demo_steps : list op := [Install 0 5 true; Nnp 0; Dup 0 1; Tsync 0 7 false; Publish 1].
Fixpoint run_all (l : list op) (s : group) (H : list installed) : option (group * list installed) :=
  match l with [] => Some (s, H) | o :: l => '(s, H) ← run o s H; run_all l s H end.
Definition demo_group (n : nat) : group := match run_all (take n demo_steps) first_group [] with Some (s, _) => s | None => first_group end.
Definition demo_installs : list installed := [{| i_filter := 7; i_all := true; i_nnp := true |}; {| i_filter := 5; i_all := false; i_nnp := false |}].

Lemma no_thread_escapes_witness : exists x, threads (demo_group 5) !! 1%nat = Some x /\ 7%nat ∈ filter x /\ no_new_privs x = true.
Proof.
  assert (R : reachable (demo_group 5) demo_installs).
  { apply (reach_op (Publish 1) (demo_group 4) demo_installs); [|eexists _, _; split; reflexivity|reflexivity].
    apply (reach_op (Tsync 0 7 false) (demo_group 3) (drop 1 demo_installs)); [|split; [by apply (bool_decide_eq_true_1 _)|];
      eexists; split_and!; [reflexivity|reflexivity|by left|]|reflexivity].
    - apply (reach_op (Dup 0 1) (demo_group 2) (drop 1 demo_installs)); [|split; [eexists; split; reflexivity|reflexivity]|reflexivity].
      apply (reach_op (Nnp 0) (demo_group 1) (drop 1 demo_installs)); [|eexists; split; reflexivity|reflexivity].
      apply (reach_op (Install 0 5 true) first_group []); [apply reach_start| |reflexivity].
      split; [by apply not_elem_of_nil|]. eexists; split_and!; [reflexivity..|by right].
    - intros u y Hy Hb. apply elem_of_map_to_list, list_elem_of_In in Hy.
      assert (Hf : forallb (fun k => match built_for k.2 with None => bool_decide (filter k.2 = [5%nat]) | _ => true end) (map_to_list (threads (demo_group 3))) = true)
        by (vm_compute; reflexivity).
      rewrite forallb_forall in Hf. specialize (Hf _ Hy). cbn in Hf. rewrite Hb in Hf. apply bool_decide_eq_true in Hf. rewrite Hf. done. }
  destruct (no_thread_escapes _ _ R) as [Hin _]. eexists. split; [reflexivity|].
  destruct (Hin 1%nat _ eq_refl eq_refl) as (Hall & _ & Hnn).
  assert (Hi : {| i_filter := 7; i_all := true; i_nnp := true |} ∈ demo_installs) by (by left).
  split; [exact (Hall _ Hi eq_refl)|exact (Hnn _ Hi (Hall _ Hi eq_refl) eq_refl)].
Defined.

End Seccomp.

Module OomAdj.

(** The processes that share one address space. *)
Record proc := {
  oom_score_adj : Z; oom_score_adj_min : Z;
  made_with : Z;                        (** its clone flags *)
  plain : bool;                         (** neither it nor an ancestor of it here is a vfork child *)
  visible : bool;                       (** in the task list *)
  settled : bool                        (** its fork is over: it may run *)
}.
Record sharing := { procs : gmap nat proc; multiprocess : bool (** MMF_MULTIPROCESS *) }.

Definition set_proc (p : nat) (x : option proc) (s : sharing) : sharing := {| procs := put_slot p x (procs s); multiprocess := multiprocess s |}.
Definition score (v m : Z) (x : proc) : proc :=
  {| oom_score_adj := v; oom_score_adj_min := m; made_with := made_with x; plain := plain x; visible := visible x; settled := settled x |}.
Definition stage (v b : bool) (x : proc) : proc :=
  {| oom_score_adj := oom_score_adj x; oom_score_adj_min := oom_score_adj_min x; made_with := made_with x; plain := plain x; visible := v; settled := b |}.

(** A vfork child has its vfork_done until it leaves the address space. *)
Definition vforked (x : proc) : bool := has (made_with x) CLONE_VFORK.

(** copy_signal takes the scores of the caller; the process becomes visible later. *)
Definition copy_signal_adj (clone_flags : Z) (cur p : nat) (s : sharing) : option sharing :=
  c ← procs s !! cur;
  Some (set_proc p (Some {| oom_score_adj := oom_score_adj c; oom_score_adj_min := oom_score_adj_min c; made_with := clone_flags;
                            plain := plain c && negb (has clone_flags CLONE_VFORK); visible := false; settled := false |}) s).

Definition make_visible (p : nat) (s : sharing) : option sharing :=
  x ← procs s !! p;
  Some (set_proc p (Some (stage true false x)) s).

Definition copies_score (clone_flags : Z) : bool :=
  Z.land clone_flags (Z.lor (Z.lor CLONE_VM CLONE_THREAD) CLONE_VFORK) =? CLONE_VM.

(** [has_mm]: the child is no kernel thread. *)
Definition copy_oom_score_adj (clone_flags : Z) (has_mm : bool) (cur p : nat) (s : sharing) : option sharing :=
  if negb has_mm then Some s
  else if negb (copies_score clone_flags) then Some s
  else
    let s := {| procs := procs s; multiprocess := true |} in
    c ← procs s !! cur;
    x ← procs s !! p;
    Some (set_proc p (Some (score (oom_score_adj c) (oom_score_adj_min c) x)) s).

(** The end of copy_process for a process that shares the address space. *)
Definition settle (cur p : nat) (s : sharing) : option sharing :=
  x ← procs s !! p;
  s ← copy_oom_score_adj (made_with x) true cur p s;
  x ← procs s !! p;
  Some (set_proc p (Some (stage (visible x) true x)) s).

(** fs/proc/base.c, by what it documents: the writer of one score writes it for all visible
    processes of the address space if it is marked, all under the mutex; vfork children
    keep a score of their own. *)
Definition set_oom_adj (t : nat) (v m : Z) (s : sharing) : option sharing :=
  x ← procs s !! t;
  Some (if multiprocess s && negb (vforked x)
        then {| procs := (fun y => if visible y && negb (vforked y) then score v m y else y) <$> procs s; multiprocess := true |}
        else set_proc t (Some (score v m x)) s).

Inductive op := Fork (cur p : nat) (clone_flags : Z) | Visible (p : nat) | Settle (cur p : nat) | SetAdj (t : nat) (v m : Z) | Exit (t : nat).

Definition run (o : op) (s : sharing) : option sharing :=
  match o with
  | Fork cur p f => copy_signal_adj f cur p s
  | Visible p => make_visible p s
  | Settle cur p => settle cur p s
  | SetAdj t v m => set_oom_adj t v m s
  | Exit t => x ← procs s !! t; Some (set_proc t None s)
  end.

Definition runs_now (t : nat) (s : sharing) : Prop := exists x, procs s !! t = Some x /\ settled x = true.
Definition hidden (p : nat) (s : sharing) : Prop := exists x, procs s !! p = Some x /\ visible x = false /\ settled x = false.
(** The child [p] of [cur] at the end of its fork: plain only if its parent is. *)
Definition shown (cur p : nat) (s : sharing) : Prop :=
  exists c x, procs s !! cur = Some c /\ settled c = true /\ procs s !! p = Some x /\ visible x = true /\ settled x = false /\ (plain x = true -> plain c = true).

(** Only processes whose fork is over run; a fork makes a process (no CLONE_THREAD) that
    shares the address space (CLONE_VM), by vfork or not; scores are written to visible
    processes. *)
Definition allowed (o : op) (s : sharing) : Prop :=
  match o with
  | Fork cur p f => runs_now cur s /\ procs s !! p = None /\ has f CLONE_VM = true /\ has f CLONE_THREAD = false
  | Visible p => hidden p s
  | Settle cur p => shown cur p s
  | SetAdj t _ _ => exists x, procs s !! t = Some x /\ visible x = true
  | Exit t => runs_now t s
  end.

(** The plain processes that run are visible, have one score, and are one if there is no
    mark; a plain process was made with flags that have its score copied. *)
Record inv (s : sharing) : Prop := {
  iv_visible : forall t x, procs s !! t = Some x -> settled x = true -> visible x = true;
  iv_flags : forall t x, procs s !! t = Some x -> plain x = true -> vforked x = false /\ (settled x = false -> copies_score (made_with x) = true);
  iv_agree : forall t u x y, procs s !! t = Some x -> procs s !! u = Some y -> settled x = true -> settled y = true -> plain x = true -> plain y = true ->
    oom_score_adj x = oom_score_adj y /\ oom_score_adj_min x = oom_score_adj_min y;
  iv_alone : multiprocess s = false -> forall t u x y, procs s !! t = Some x -> procs s !! u = Some y -> settled x = true -> settled y = true ->
    plain x = true -> plain y = true -> t = u
}.

(** The score of such a child is copied. *)
Lemma copies_score_true f : has f CLONE_VM = true -> has f CLONE_THREAD = false -> has f CLONE_VFORK = false -> copies_score f = true.
Proof.
  unfold has, c_true, copies_score. rewrite !Z.land_lor_distr_r. intros H1 H2%negb_false_iff%Z.eqb_eq H3%negb_false_iff%Z.eqb_eq.
  rewrite H2, H3, !Z.lor_0_r. change CLONE_VM with (2 ^ 8) in *. apply Z.eqb_eq.
  assert (Hb : Z.testbit f 8 = true) by (rewrite <- has_bit by done; exact H1).
  apply Z.bits_inj'. intros n Hn. rewrite Z.land_spec, Z.pow2_bits_eqb by done. destruct (Z.eqb_spec 8 n) as [<- |]; [by rewrite Hb|apply andb_false_r].
Qed.

(** A process that does not run or is not plain, or the only plain one that runs, may have
    any score. *)
Lemma proc_set_inv s p x : inv s -> (settled x = true -> visible x = true) ->
  (plain x = true -> vforked x = false /\ (settled x = false -> copies_score (made_with x) = true)) ->
  (settled x = true -> plain x = true -> multiprocess s = false /\ exists z, procs s !! p = Some z /\ settled z = true /\ plain z = true) -> inv (set_proc p (Some x) s).
Proof.
  intros I Hv Hf Hs. assert (Hno : settled x = true -> plain x = true -> forall u y, u <> p -> procs s !! u = Some y -> settled y = true -> plain y = true -> False).
  { intros Hx Hpx u y Hu Hy Hys Hyp. destruct (Hs Hx Hpx) as (Hm & z & Hz & Hzs & Hzp). apply Hu. by eapply (iv_alone _ I Hm). }
  constructor; cbn [set_proc procs multiprocess].
  - intros t y. destruct (decide (t = p)) as [-> |Hn]; [rewrite lookup_slot; by intros [= <-]|]. rewrite lookup_slot_ne by done. apply I.
  - intros t y. destruct (decide (t = p)) as [-> |Hn]; [rewrite lookup_slot; by intros [= <-]|]. rewrite lookup_slot_ne by done. apply I.
  - intros t u a b. destruct (decide (t = p)) as [-> |Hn], (decide (u = p)) as [-> |Hm]; rewrite ?lookup_slot, ?lookup_slot_ne by done.
    + by intros [= <-] [= <-].
    + intros [= <-] Hb Hxs Hbs Hxp Hbp. by destruct (Hno Hxs Hxp u b).
    + intros Ha [= <-] Has Hxs Hap Hxp. by destruct (Hno Hxs Hxp t a).
    + apply I.
  - intros Hmp t u a b. destruct (decide (t = p)) as [-> |Hn], (decide (u = p)) as [-> |Hm]; rewrite ?lookup_slot, ?lookup_slot_ne by done; [done| | |by apply I].
    + intros [= <-] Hb Hxs Hbs Hxp Hbp. by destruct (Hno Hxs Hxp u b).
    + intros Ha [= <-] Has Hxs Hap Hxp. by destruct (Hno Hxs Hxp t a).
Qed.

(** A plain child gets the score of its parent when its fork ends, and the mark is set. *)
Lemma settle_inv s cur p c x : inv s -> procs s !! cur = Some c -> settled c = true -> procs s !! p = Some x -> visible x = true -> settled x = false ->
  (plain x = true -> plain c = true) -> exists s', settle cur p s = Some s' /\ inv s'.
Proof.
  intros I Hc Hcs Hx Hxv Hxs Hpc. assert (Hcp : cur <> p) by congruence.
  unfold settle, copy_oom_score_adj. rewrite Hx. cbn [mbind option_bind negb]. destruct (copies_score (made_with x)) eqn:Hf; cbn [negb procs].
  - rewrite Hc, Hx. cbn [mbind option_bind procs set_proc]. rewrite lookup_slot. cbn [mbind option_bind]. eexists; split; [done|].
    constructor; cbn [set_proc procs multiprocess]; try done; rewrite slot_slot.
    + intros t y. destruct (decide (t = p)) as [-> |Hn]; [rewrite lookup_slot; by intros [= <-]|]. rewrite lookup_slot_ne by done. apply I.
    + intros t y. destruct (decide (t = p)) as [-> |Hn]; [rewrite lookup_slot; intros [= <-] Hpl; by destruct (iv_flags _ I p x Hx Hpl)|].
      rewrite lookup_slot_ne by done. apply I.
    + intros t u a b. destruct (decide (t = p)) as [-> |Hn], (decide (u = p)) as [-> |Hm]; rewrite ?lookup_slot, ?lookup_slot_ne by done; [by intros [= <-] [= <-]| | |apply I].
      * intros [= <-] Hb _ Hbs Hxp Hbp. cbn in *. apply (iv_agree _ I cur u c b); auto.
      * intros Ha [= <-] Has _ Hap Hxp. cbn in *. apply (iv_agree _ I t cur a c); auto.
  - cbn [mbind option_bind]. rewrite Hx. cbn [mbind option_bind]. eexists; split; [done|]. assert (Hnp : plain x = false).
    { destruct (plain x) eqn:Hp; [|done]. destruct (iv_flags _ I p x Hx Hp) as [_ H]. rewrite H in Hf by done. done. }
    apply proc_set_inv; cbn; [done|done|by rewrite Hnp|by rewrite Hnp].
Qed.

Lemma set_adj_inv s t x v m : inv s -> procs s !! t = Some x -> visible x = true -> exists s', set_oom_adj t v m s = Some s' /\ inv s'.
Proof.
  intros I Hx Hv. unfold set_oom_adj. rewrite Hx. cbn [mbind option_bind]. eexists; split; [done|]. case_if.
  - set (h := fun y => if visible y && negb (vforked y) then score v m y else y).
    assert (Hsame : forall y, visible (h y) = visible y /\ settled (h y) = settled y /\ plain (h y) = plain y /\ made_with (h y) = made_with y)
      by (intros y; unfold h; by destruct (visible y && negb (vforked y))).
    assert (Hl : forall u b, (h <$> procs s) !! u = Some b -> exists y, procs s !! u = Some y /\ b = h y).
    { intros u b. rewrite lookup_fmap. destruct (procs s !! u) as [y|]; [|done]. intros [= <-]. by exists y. }
    assert (Hp : forall u y, procs s !! u = Some y -> settled y = true -> plain y = true -> h y = score v m y).
    { intros u y Hy Hys Hyp. unfold h. rewrite (iv_visible _ I u y Hy Hys), (proj1 (iv_flags _ I u y Hy Hyp)). done. }
    constructor; cbn [procs multiprocess]; [| | |done].
    + intros u b (y & Hy & ->)%Hl. destruct (Hsame y) as (-> & -> & _). by apply (iv_visible _ I u y).
    + intros u b (y & Hy & ->)%Hl. unfold vforked. destruct (Hsame y) as (_ & -> & -> & ->). by apply (iv_flags _ I u y).
    + intros u u' a b (y & Hy & ->)%Hl (z & Hz & ->)%Hl. destruct (Hsame y) as (_ & -> & -> & _), (Hsame z) as (_ & -> & -> & _). intros.
      by rewrite (Hp u y), (Hp u' z) by done.
  - apply proc_set_inv; cbn [score settled plain visible made_with]; try done.
    + apply (iv_flags _ I t x Hx).
    + intros Hs Hpl. split; [|by exists x]. destruct (iv_flags _ I t x Hx Hpl) as [Hvf _]. by rewrite Hvf, andb_true_r in Hif.
Qed.

Lemma run_keeps o s : inv s -> allowed o s -> exists s', run o s = Some s' /\ inv s'.
Proof.
  intros I. destruct o as [cur p f|p|cur p|t v m|t]; cbn [allowed run].
  - intros ((c & Hc & Hcs) & Hp & Hvm & Hth). unfold copy_signal_adj. rewrite Hc. eexists; split; [done|]. apply proc_set_inv; cbn; try done.
    intros [_ Hvf%negb_true_iff]%andb_true_iff. split; [done|]. intros _. by apply copies_score_true.
  - intros (x & Hx & Hv & Hs). unfold make_visible. rewrite Hx. eexists; split; [done|]. apply proc_set_inv; cbn; try done.
    intros Hp. destruct (iv_flags _ I p x Hx Hp). auto.
  - intros (c & x & Hc & Hcs & Hx & Hv & Hs & Hp). by apply (settle_inv s cur p c x).
  - intros (x & Hx & Hv). by apply (set_adj_inv s t x).
  - intros (x & Hx & Hs). rewrite Hx. eexists; split; [done|]. assert (Hl : forall u b, put_slot t None (procs s) !! u = Some b -> procs s !! u = Some b).
    { intros u b. destruct (decide (u = t)) as [-> |Hn]; [by rewrite lookup_slot|by rewrite lookup_slot_ne]. }
    constructor; cbn [set_proc procs multiprocess].
    + intros u b Hb. apply (iv_visible _ I u b). auto.
    + intros u b Hb. apply (iv_flags _ I u b). auto.
    + intros u u' a b Ha Hb. apply (iv_agree _ I u u' a b); auto.
    + intros Hm u u' a b Ha Hb. apply (iv_alone _ I Hm u u' a b); auto.
Qed.

Definition first (v m : Z) : sharing :=
  {| procs := {[0%nat := {| oom_score_adj := v; oom_score_adj_min := m; made_with := 0; plain := true; visible := true; settled := true |}]}; multiprocess := false |}.

Inductive reachable (v m : Z) : sharing -> Prop :=
  | start : reachable v m (first v m)
  | step o s s' : reachable v m s -> allowed o s -> run o s = Some s' -> reachable v m s'.

Lemma oom_inv v m s : reachable v m s -> inv s.
Proof.
  induction 1 as [|o s s' _ I Ha Hr].
  - constructor; cbn [procs first]; [by intros t x [<- <-]%lookup_singleton_Some|by intros t x [<- <-]%lookup_singleton_Some|..].
    + by intros t u x y [<- <-]%lookup_singleton_Some [<- <-]%lookup_singleton_Some.
    + by intros _ t u x y [<- _]%lookup_singleton_Some [<- _]%lookup_singleton_Some.
  - destruct (run_keeps o s I Ha) as (s1 & E1 & I1). congruence.
Qed.

(** C31: processes that share an address space are made with CLONE_VM and without
    CLONE_THREAD, some of them by vfork.  Those of them that are plain (no vfork child is
    among them and the ancestors they share the address space with) always agree on their
    OOM score once their forks are over, however scores are written while they are forked:
    a write before the child is visible, between that and the last copy, or after it.  For
    a vfork child (CLONE_VFORK) no such agreement is meant: the end of its fork leaves the
    scores and the mark of the address space alone. *)
Theorem scores_agree v m s : reachable v m s ->
  (forall t u x y, procs s !! t = Some x -> procs s !! u = Some y -> settled x = true -> settled y = true -> plain x = true -> plain y = true ->
     oom_score_adj x = oom_score_adj y /\ oom_score_adj_min x = oom_score_adj_min y) /\
  (forall o, allowed o s -> is_Some (run o s)) /\
  (forall cur p x, allowed (Settle cur p) s -> procs s !! p = Some x -> has (made_with x) CLONE_VFORK = true ->
     settle cur p s = Some (set_proc p (Some (stage (visible x) true x)) s)).
Proof.
  intros H. apply oom_inv in H as I. split_and!; [apply I| |].
  - intros o Ho. destruct (run_keeps o s I Ho) as (s' & -> & _). done.
  - intros cur p x _ Hx Hv. unfold settle, copy_oom_score_adj. rewrite Hx. cbn [mbind option_bind negb].
    assert (copies_score (made_with x) = false) as ->; [|cbn [negb mbind option_bind]; by rewrite Hx].
    unfold copies_score. apply Z.eqb_neq. intros He. apply (f_equal (fun z => Z.testbit z 14)) in He. change CLONE_VFORK with (2 ^ 14) in *.
    rewrite has_bit in Hv by done. rewrite Z.land_spec, Hv in He. done.
Qed.

(** The parent's score is written while the child still has the old one; a vfork child
    keeps a score of its own. *)
Definition demo_ops : list op :=
  [Fork 0 1 CLONE_VM; SetAdj 0 500 0; Visible 1; Settle 0 1; Fork 0 2 (Z.lor CLONE_VM CLONE_VFORK); Visible 2; SetAdj 1 300 0; Settle 0 2].
Fixpoint run_all (l : list op) (s : sharing) : option sharing := match l with [] => Some s | o :: l => s ← run o s; run_all l s end.
Definition demo_sharing (n : nat) : sharing := match run_all (take n demo_ops) (first 0 0) with Some s => s | None => first 0 0 end.

Lemma scores_agree_witness : exists x y z, procs (demo_sharing 8) !! 0%nat = Some x /\ procs (demo_sharing 8) !! 1%nat = Some y /\
  procs (demo_sharing 8) !! 2%nat = Some z /\ oom_score_adj x = 300 /\ oom_score_adj z = 500 /\ oom_score_adj x = oom_score_adj y.
Proof.
  assert (R : reachable 0 0 (demo_sharing 8)).
  { apply (step _ _ (Settle 0 2) (demo_sharing 7)); [|eexists _, _; split_and!; reflexivity|reflexivity].
    apply (step _ _ (SetAdj 1 300 0) (demo_sharing 6)); [|eexists; split_and!; reflexivity|reflexivity].
    apply (step _ _ (Visible 2) (demo_sharing 5)); [|eexists; split_and!; reflexivity|reflexivity].
    apply (step _ _ (Fork 0 2 (Z.lor CLONE_VM CLONE_VFORK)) (demo_sharing 4)); [|split_and!; [eexists; split|..]; reflexivity|reflexivity].
    apply (step _ _ (Settle 0 1) (demo_sharing 3)); [|eexists _, _; split_and!; reflexivity|reflexivity].
    apply (step _ _ (Visible 1) (demo_sharing 2)); [|eexists; split_and!; reflexivity|reflexivity].
    apply (step _ _ (SetAdj 0 500 0) (demo_sharing 1)); [|eexists; split_and!; reflexivity|reflexivity].
    apply (step _ _ (Fork 0 1 CLONE_VM) (first 0 0)); [apply start|split_and!; [eexists; split|..]; reflexivity|reflexivity]. }
  eexists _, _, _. split; [reflexivity|]. split; [reflexivity|]. split; [reflexivity|]. split; [reflexivity|]. split; [reflexivity|].
  exact (proj1 (proj1 (scores_agree 0 0 _ R) 0%nat 1%nat _ _ eq_refl eq_refl eq_refl eq_refl eq_refl eq_refl)).
Defined.

End OomAdj.

Module PidLinks.

(** The pids of a task: its own in the task, those of its group in the signal_struct. *)
Inductive pid_type := PIDTYPE_PID | PIDTYPE_TGID | PIDTYPE_PGID | PIDTYPE_SID.
Definition pid_types : list pid_type := [PIDTYPE_PID; PIDTYPE_TGID; PIDTYPE_PGID; PIDTYPE_SID].

#[export] Instance pid_type_eq_dec : EqDecision pid_type.
Proof. solve_decision. Defined.

Record task := {
  thread_pid : option nat;
  linked : pid_type -> bool;            (** pid_links[type] is on a list *)
  clear_child_tid : Z;
  signal_pids : pid_type -> option nat  (** of its signal_struct *)
}.

Definition init_task_pid (type : pid_type) (pid : nat) (t : task) : task :=
  match type with
  | PIDTYPE_PID => {| thread_pid := Some pid; linked := linked t; clear_child_tid := clear_child_tid t; signal_pids := signal_pids t |}
  | _ => {| thread_pid := thread_pid t; linked := linked t; clear_child_tid := clear_child_tid t;
            signal_pids q := if decide (q = type) then Some pid else signal_pids t q |}
  end.

Definition unlink (type : pid_type) (t : task) : task :=
  {| thread_pid := thread_pid t; linked q := if decide (q = type) then false else linked t q; clear_child_tid := clear_child_tid t; signal_pids := signal_pids t |}.

Definition init_task_pid_links (t : task) : task := foldl (fun t type => unlink type t) t pid_types.

Definition init_idle_pids (init_struct_pid : nat) (idle : task) : task :=
  foldl (fun t type => init_task_pid type init_struct_pid (unlink type t)) idle pid_types.

(** attach_pid, for the list of one type. *)
Definition attach_pid (type : pid_type) (t : task) : task :=
  {| thread_pid := thread_pid t; linked q := if decide (q = type) then true else linked t q; clear_child_tid := clear_child_tid t; signal_pids := signal_pids t |}.

(** copy_process: [pgrp] and [session] are those of the caller. *)
Definition publish_pids (leader : bool) (pid pgrp session : nat) (t : task) : task :=
  let t := init_task_pid PIDTYPE_PID pid (init_task_pid_links t) in
  let t := if leader then
             let t := init_task_pid PIDTYPE_SID session (init_task_pid PIDTYPE_PGID pgrp (init_task_pid PIDTYPE_TGID pid t)) in
             attach_pid PIDTYPE_SID (attach_pid PIDTYPE_PGID (attach_pid PIDTYPE_TGID t))
           else t in
  attach_pid PIDTYPE_PID t.

(** The thread id as seen by the caller is [vnr]. *)
Definition set_tid_address (tidptr vnr : Z) (t : task) : Z * task :=
  (vnr, {| thread_pid := thread_pid t; linked := linked t; clear_child_tid := tidptr; signal_pids := signal_pids t |}).

(** A new process is on all four lists, in the group and the session of its parent and the
    first of its own thread group; a new thread is on the list of its own pid only and
    leaves the pids of its group alone; the idle task is on no list. *)
Lemma publish_pids_exact leader pid pgrp session t :
  let t' := publish_pids leader pid pgrp session t in
  thread_pid t' = Some pid /\ (forall q, linked t' q = bool_decide (q = PIDTYPE_PID) || leader) /\
  forall q, signal_pids t' q =
    if leader then match q with PIDTYPE_TGID => Some pid | PIDTYPE_PGID => Some pgrp | PIDTYPE_SID => Some session | PIDTYPE_PID => signal_pids t q end
    else signal_pids t q.
Proof. destruct leader; cbn; split_and!; try done; intros []; reflexivity. Qed.

Lemma idle_pids_exact pid t : let t' := init_idle_pids pid t in
  thread_pid t' = Some pid /\ (forall q, linked t' q = false) /\ forall q, q <> PIDTYPE_PID -> signal_pids t' q = Some pid.
Proof. cbn. split_and!; try done; intros []; done. Qed.

End PidLinks.
