(* ===== verification/PidFd.v ===== *)
(** * Process file descriptors (kernel/fork.c: pidfd_pid to pidfd_prepare)

    A pidfd is a file whose private data is a struct pid, on which it holds a reference.
    This file has what the code does with one: recognising it, describing it in
    /proc/<pid>/fdinfo, polling it, making it and releasing it.  The pid of a struct pid in
    a namespace (pid_nr_ns), the state of the tasks behind it and the allocation of
    descriptors and files are parameters. *)
From Stdlib Require Import String Ascii.
From S2P Require Import Prelude MmLife.

(** ** Pids and files *)

(** A namespace, with its depth; a struct pid has a number in its own and in every
    enclosing one, the outermost first. *)
Record pid_namespace := { ns_id : nat; ns_level : nat }.
Record upid := { nr : Z; upid_ns : pid_namespace }.
Record pid := { pid_level : nat; numbers : list upid }.

#[export] Instance pid_namespace_eq_dec : EqDecision pid_namespace.
Proof. solve_decision. Defined.

Definition pid_wf (p : pid) : Prop :=
  length (numbers p) = S (pid_level p) /\ forall i u, numbers p !! i = Some u -> ns_level (upid_ns u) = i /\ 0 < nr u.

Inductive fops := PidfdFops | OtherFops.
Record file := { f_op : fops; private_data : option nat; file_flags : Z }.

Definition O_RDWR := 2.
Definition O_NONBLOCK := 2048.
Definition O_CLOEXEC := 524288.
Definition EPOLLIN := 1.
Definition EPOLLRDNORM := 64.

Class PidEnv := {
  pid_nr_ns : pid -> pid_namespace -> Z;        (** kernel/pid.c *)
  config_pid_ns : bool
}.

(** What kernel/pid.c documents: the number seen from a namespace is the one the struct
    pid has there, and zero from where it is not visible. *)
Class PidLaws (E : PidEnv) := {
  pid_nr_seen : forall p ns u, numbers p !! ns_level ns = Some u -> upid_ns u = ns -> pid_nr_ns p ns = nr u;
  pid_nr_unseen : forall p ns, (forall u, numbers p !! ns_level ns = Some u -> upid_ns u <> ns) -> pid_nr_ns p ns = 0
}.

(** ** Operations on the file *)

Definition pidfd_pid (f : file) : Z + option nat :=
  match f_op f with PidfdFops => inr (private_data f) | OtherFops => inl (- EBADF) end.

(** What is written to the seq_file: numbers, each after a delimiter, and characters. *)
Definition tab : string := String (ascii_of_nat 9) EmptyString.
Definition newline : string := String (ascii_of_nat 10) EmptyString.
Definition pid_label : string := String.append "Pid:"%string tab.
Definition nspid_label : string := String.append newline (String.append "NSpid:"%string tab).

Inductive out := Num (delim : string) (v : Z) | Chr (c : string).

Section fdinfo.
Context {E : PidEnv}.

(** The loop over the deeper levels; [None] where it would read past the numbers. *)
Fixpoint show_levels (p : pid) (i n : nat) : option (list out) :=
  match n with
  | O => Some []
  | S n => u ← numbers p !! i; rest ← show_levels p (S i) n; Some (Num tab (nr u) :: rest)
  end.

(** [has_task]: the answer of pid_has_task; [ns]: the namespace of the procfs instance, read
    only if there is a task.  [None] where the code would read an uninitialised [ns] or out
    of bounds. *)
Definition pidfd_show_fdinfo (p : pid) (has_task : bool) (proc_ns : pid_namespace) : option (list out) :=
  let ns := if has_task then Some proc_ns else None in
  let n := match ns with Some ns => pid_nr_ns p ns | None => -1 end in
  deeper ← (if config_pid_ns then
              levels ← (if 0 <? n then ns ← ns; show_levels p (S (ns_level ns)) (S (pid_level p) - S (ns_level ns)) else Some []);
              Some (Num nspid_label n :: levels)
            else Some []);
  Some (Num pid_label n :: deeper ++ [Chr newline]).
End fdinfo.

Definition pidfd_poll (exited : bool) : Z := if exited then Z.lor EPOLLIN EPOLLRDNORM else 0.

(** ** Making and releasing one *)

Record fd_state := {
  fds : gmap Z (option nat);            (** reserved, or installed with a file *)
  files : gmap nat file;
  pid_refs : nat -> Z
}.

Definition with_fds (m : gmap Z (option nat)) (s : fd_state) : fd_state := {| fds := m; files := files s; pid_refs := pid_refs s |}.
Definition with_file (f : nat) (o : option file) (s : fd_state) : fd_state := {| fds := fds s; files := put_slot f o (files s); pid_refs := pid_refs s |}.
Definition add_pid (d : Z) (p : nat) (s : fd_state) : fd_state := {| fds := fds s; files := files s; pid_refs := shift d p (pid_refs s) |}.

(** [fd] is the answer of get_unused_fd_flags, [mem] that of anon_inode_getfile. *)
Definition __pidfd_prepare (fd : Z) (mem : Z + nat) (p : nat) (flags : Z) (s : fd_state) : Z * option nat * fd_state :=
  if c_true (clear flags (Z.lor (Z.lor O_NONBLOCK O_RDWR) O_CLOEXEC)) then (- EINVAL, None, s)
  else if fd <? 0 then (fd, None, s)
  else
    let s := with_fds (<[fd := None]> (fds s)) s in
    match mem with
    | inl err => (err, None, with_fds (delete fd (fds s)) s)
    | inr f =>
        let s := with_file f (Some {| f_op := PidfdFops; private_data := Some p; file_flags := Z.lor (Z.lor flags O_RDWR) O_CLOEXEC |}) s in
        (fd, Some f, add_pid 1 p s)
    end.

(** [tgid]: the pid is that of a thread group leader. *)
Definition pidfd_prepare (fd : Z) (mem : Z + nat) (p : option nat) (tgid : bool) (flags : Z) (s : fd_state) : Z * option nat * fd_state :=
  match p with
  | Some p => if negb tgid then (- EINVAL, None, s) else __pidfd_prepare fd mem p flags s
  | None => (- EINVAL, None, s)
  end.

Definition pidfd_release (f : nat) (s : fd_state) : option fd_state :=
  x ← files s !! f;
  p ← private_data x;
  Some (add_pid (-1) p (with_file f (Some {| f_op := f_op x; private_data := None; file_flags := file_flags x |}) s)).

(** The caller's duties: install the descriptor, or give both back; the last fput of a file
    releases it and frees its memory. *)
Definition fd_install (fd : Z) (f : nat) (s : fd_state) : fd_state := with_fds (<[fd := Some f]> (fds s)) s.
Definition put_unused_fd (fd : Z) (s : fd_state) : fd_state := with_fds (delete fd (fds s)) s.
Definition last_fput (f : nat) (s : fd_state) : option fd_state := s ← pidfd_release f s; Some (with_file f None s).
Definition close_fd (fd : Z) (s : fd_state) : option fd_state := o ← fds s !! fd; f ← o; last_fput f (put_unused_fd fd s).

(** ** What a reader sees *)

(** The entries of the NSpid line, from the namespace of the reader inwards. *)
Definition seen_numbers (p : pid) (ns : pid_namespace) : list Z := map nr (drop (ns_level ns) (numbers p)).
Definition visible (p : pid) (ns : pid_namespace) : bool :=
  match numbers p !! ns_level ns with Some u => bool_decide (upid_ns u = ns) | None => false end.

Definition nums (l : list Z) : list out := map (Num tab) l.

Section reader.
Context {E : PidEnv} {L : PidLaws E}.

Lemma show_levels_all p i n : (i + n = length (numbers p))%nat -> show_levels p i n = Some (nums (map nr (drop i (numbers p)))).
Proof.
  revert i. induction n as [|n IH]; intros i H; cbn [show_levels].
  - rewrite drop_ge by lia. done.
  - destruct (lookup_lt_is_Some_2 (numbers p) i) as [u Hu]; [lia|]. rewrite Hu. cbn [mbind option_bind]. rewrite IH by lia. cbn [mbind option_bind].
    by rewrite (drop_S _ _ _ Hu).
Qed.

(** What /proc/<pid>/fdinfo shows of a pidfd is what its comment promises, and no read is
    out of bounds or of an unset namespace: for a process that is gone, minus one in both
    lines; for one the procfs instance cannot see, zero and no other NSpid entry; otherwise
    its number in the namespace of the procfs instance, then its numbers in every
    namespace further in, down to its own, each once and in order. *)
Theorem fdinfo_as_documented p has_task ns : pid_wf p ->
  let line (l : list Z) := match l with n :: deeper => Some (Num pid_label n :: (if config_pid_ns then Num nspid_label n :: nums deeper else []) ++ [Chr newline]) | [] => None end in
  pidfd_show_fdinfo p has_task ns = line (if negb has_task then [-1] else if visible p ns then seen_numbers p ns else [0]).
Proof.
  intros [Hlen Hwf]. unfold pidfd_show_fdinfo, visible, seen_numbers. destruct has_task; cbn [negb].
  - destruct (numbers p !! ns_level ns) as [u|] eqn:Hu.
    + destruct (Hwf _ u Hu) as [Hl Hpos]. case_bool_decide as Hv.
      * rewrite (pid_nr_seen p ns u Hu Hv), (drop_S _ _ _ Hu). cbn [map]. rewrite (proj2 (Z.ltb_lt 0 (nr u)) Hpos). cbn [mbind option_bind].
        apply lookup_lt_Some in Hu. rewrite show_levels_all by lia. by destruct config_pid_ns.
      * rewrite (pid_nr_unseen p ns) by (rewrite Hu; by intros ? [= <-]). by destruct config_pid_ns.
    + rewrite (pid_nr_unseen p ns) by (by rewrite Hu). by destruct config_pid_ns.
  - by destruct config_pid_ns.
Qed.
End reader.

(** ** Nothing leaks *)

Section roundtrip.
Variables (fd : Z) (mem : Z + nat) (p : nat) (flags : Z) (s : fd_state).
Hypothesis Hfd : 0 <= fd -> fds s !! fd = None.
Hypothesis Herr : forall e, mem = inl e -> e < 0.
Hypothesis Hmem : forall f, mem = inr f -> files s !! f = None.

Lemma shift_back d k g q : shift (- d) k (shift d k g) q = g q.
Proof. unfold shift. case_decide; lia. Qed.

(** The same descriptors, files and counts. *)
Definition same_state (a b : fd_state) : Prop := fds a = fds b /\ files a = files b /\ forall q, pid_refs a q = pid_refs b q.

(** C32: pidfd_prepare fails and changes nothing, or reserves exactly the descriptor it
    answers, with a new pidfd for the process, close-on-exec and read-write, and one
    reference on its pid; both ways in which the caller is told to end it, giving the two
    back, or installing the descriptor which is closed later, restore the state. *)
Theorem pidfd_prepare_balanced tgid :
  let '(ret, f, s') := pidfd_prepare fd mem (Some p) tgid flags s in
  (ret < 0 /\ f = None /\ same_state s' s) \/
  exists n x, ret = fd /\ f = Some n /\ 0 <= fd /\ tgid = true /\ clear flags (Z.lor (Z.lor O_NONBLOCK O_RDWR) O_CLOEXEC) = 0 /\
    fds s' !! fd = Some None /\ files s' !! n = Some x /\ pidfd_pid x = inr (Some p) /\
    has (file_flags x) O_RDWR = true /\ has (file_flags x) O_CLOEXEC = true /\ pid_refs s' p = pid_refs s p + 1 /\
    (exists r, last_fput n (put_unused_fd fd s') = Some r /\ same_state r s) /\
    (exists r, close_fd fd (fd_install fd n s') = Some r /\ same_state r s).
Proof.
  unfold pidfd_prepare, __pidfd_prepare. destruct tgid; cbn [negb]; [|by left]. destruct (c_true (clear _ _)) eqn:Hc; [by left|].
  apply c_true_false in Hc. destruct (Z.ltb_spec fd 0) as [Hn|Hn]; [by left|]. specialize (Hfd Hn). destruct mem as [e|n].
  - left. specialize (Herr e eq_refl). split_and!; try done. unfold same_state. cbn. by rewrite delete_insert_id.
  - specialize (Hmem n eq_refl). right. eexists n, _. split_and!; try done.
    + cbn. apply lookup_insert_eq.
    + cbn. apply lookup_insert_eq.
    + done.
    + cbn [file_flags]. rewrite !has_lor. change (has O_RDWR O_RDWR) with true. by rewrite orb_true_r.
    + cbn [file_flags]. rewrite has_lor. change (has O_CLOEXEC O_CLOEXEC) with true. by rewrite orb_true_r.
    + cbn. apply shift_eq.
    + unfold last_fput, pidfd_release. cbn. rewrite lookup_insert_eq. cbn. eexists; split; [done|]. unfold same_state. cbn.
      rewrite delete_insert_id by done. split_and!; [done| |apply (shift_back 1)]. rewrite delete_insert_eq, delete_insert_id; done.
    + unfold close_fd, last_fput, pidfd_release. cbn. rewrite lookup_insert_eq. cbn. rewrite lookup_insert_eq. cbn. eexists; split; [done|]. unfold same_state. cbn.
      rewrite delete_insert_eq, delete_insert_id by done. split_and!; [done| |apply (shift_back 1)]. rewrite delete_insert_eq, delete_insert_id; done.
Qed.
End roundtrip.

(** ** An example *)

(** A process three namespaces deep, seen from the middle one. *)
Definition demo_ns (i : nat) : pid_namespace := {| ns_id := i; ns_level := i |}.
Definition demo_pid : pid := {| pid_level := 2; numbers := [{| nr := 4711; upid_ns := demo_ns 0 |}; {| nr := 33; upid_ns := demo_ns 1 |}; {| nr := 1; upid_ns := demo_ns 2 |}] |}.
Definition demo_pids : PidEnv :=
  {| pid_nr_ns p ns := match numbers p !! ns_level ns with Some u => if bool_decide (upid_ns u = ns) then nr u else 0 | None => 0 end;
     config_pid_ns := true |}.

Lemma demo_pid_laws : PidLaws demo_pids.
Proof.
  constructor; cbn.
  - intros p ns u -> Hu. by rewrite bool_decide_eq_true_2.
  - intros p ns H. destruct (numbers p !! ns_level ns) as [u|]; [|done]. by rewrite bool_decide_eq_false_2 by (by apply H).
Qed.

Lemma fdinfo_as_documented_witness : pidfd_show_fdinfo (E := demo_pids) demo_pid true (demo_ns 1) =
  Some [Num pid_label 33; Num nspid_label 33; Num tab 1; Chr newline].
Proof.
  rewrite (fdinfo_as_documented (E := demo_pids) (L := demo_pid_laws) demo_pid true (demo_ns 1)); [reflexivity|].
  split; [reflexivity|]. intros [|[|[|i]]] u; cbn; try done; by intros [= <-].
Defined.

Lemma pidfd_prepare_balanced_witness :
  let s := {| fds := ∅; files := ∅; pid_refs _ := 1 |} in
  exists r, close_fd 3 (fd_install 3 8 (pidfd_prepare 3 (inr 8%nat) (Some 5%nat) true O_NONBLOCK s).2) = Some r /\ same_state r s.
Proof.
  intros s. pose proof (pidfd_prepare_balanced 3 (inr 8%nat) 5 O_NONBLOCK s) as H.
  destruct (H ltac:(done) ltac:(done) ltac:(done) true) as [[Hneg _]|(n & x & _ & [= <-] & _ & _ & _ & _ & _ & _ & _ & _ & _ & _ & Hc)]; [done|exact Hc].
Defined.
