(* ===== verification/Seek.v ===== *)
(** * File positions (fs/read_write.c: the llseek family)

    A file as these functions see it: its mode bits, position and version.  Offsets
    are signed 64-bit words; the additions wrap, as they do in the kernel.  The size
    of the inode and the llseek method of the file are parameters. *)
From S2P Require Import Prelude UserMem.

Record file := { f_mode : Z; f_pos : Z; f_version : Z }.

Definition FMODE_READ := 1.
Definition FMODE_WRITE := 2.
Definition FMODE_LSEEK := 4.
Definition FMODE_PREAD := 8.
Definition FMODE_PWRITE := 16.
Definition FMODE_UNSIGNED_OFFSET := 8192.
Definition FMODE_CAN_READ := 131072.
Definition FMODE_CAN_WRITE := 262144.
Definition FMODE_STREAM := 2097152.

Definition SEEK_SET := 0.
Definition SEEK_CUR := 1.
Definition SEEK_END := 2.
Definition SEEK_DATA := 3.
Definition SEEK_HOLE := 4.
Definition SEEK_MAX := SEEK_HOLE.
Definition OFFSET_MAX := 9223372036854775807.

Definition unsigned_offsets (f : file) : bool := has (f_mode f) FMODE_UNSIGNED_OFFSET.

Definition set_pos (pos : Z) (f : file) : file := {| f_mode := f_mode f; f_pos := pos; f_version := f_version f |}.

(** [if (offset != file->f_pos) { file->f_pos = offset; file->f_version = 0; }] *)
Definition move_to (offset : Z) (f : file) : file :=
  if negb (offset =? f_pos f) then {| f_mode := f_mode f; f_pos := offset; f_version := 0 |} else f.

Definition vfs_setpos (f : file) (offset maxsize : Z) : Z * file :=
  if (offset <? 0) && negb (unsigned_offsets f) then (- EINVAL, f)
  else if maxsize <? offset then (- EINVAL, f)
  else (offset, move_to offset f).

(** The comparison [(unsigned long long)offset >= eof] is unsigned. *)
Definition generic_file_llseek_size (f : file) (offset whence maxsize eof : Z) : Z * file :=
  if whence =? SEEK_END then vfs_setpos f (i64 (offset + eof)) maxsize
  else if whence =? SEEK_CUR then
    if offset =? 0 then (f_pos f, f) else vfs_setpos f (i64 (f_pos f + offset)) maxsize
  else if whence =? SEEK_DATA then
    if u64 eof <=? u64 offset then (- ENXIO, f) else vfs_setpos f offset maxsize
  else if whence =? SEEK_HOLE then
    if u64 eof <=? u64 offset then (- ENXIO, f) else vfs_setpos f eof maxsize
  else vfs_setpos f offset maxsize.

Definition generic_file_llseek (s_maxbytes i_size : Z) (f : file) (offset whence : Z) : Z * file :=
  generic_file_llseek_size f offset whence s_maxbytes i_size.

Definition fixed_size_llseek (f : file) (offset whence size : Z) : Z * file :=
  if (whence =? SEEK_SET) || (whence =? SEEK_CUR) || (whence =? SEEK_END)
  then generic_file_llseek_size f offset whence size size else (- EINVAL, f).

Definition no_seek_end_llseek (f : file) (offset whence : Z) : Z * file :=
  if (whence =? SEEK_SET) || (whence =? SEEK_CUR)
  then generic_file_llseek_size f offset whence OFFSET_MAX 0 else (- EINVAL, f).

Definition no_seek_end_llseek_size (f : file) (offset whence size : Z) : Z * file :=
  if (whence =? SEEK_SET) || (whence =? SEEK_CUR)
  then generic_file_llseek_size f offset whence size 0 else (- EINVAL, f).

Definition noop_llseek (f : file) (offset whence : Z) : Z * file := (f_pos f, f).

(** Here the comparisons with the size are signed. *)
Definition default_llseek (i_size : Z) (f : file) (offset whence : Z) : Z * file :=
  let finish offset :=
    if (0 <=? offset) || unsigned_offsets f then (offset, move_to offset f) else (- EINVAL, f) in
  if whence =? SEEK_END then finish (i64 (offset + i_size))
  else if whence =? SEEK_CUR then if offset =? 0 then (f_pos f, f) else finish (i64 (offset + f_pos f))
  else if whence =? SEEK_DATA then if i_size <=? offset then (- ENXIO, f) else finish offset
  else if whence =? SEEK_HOLE then if i_size <=? offset then (- ENXIO, f) else finish i_size
  else finish offset.

(** The llseek methods of this file, by name. *)
Inductive llseek_op :=
| Generic (s_maxbytes i_size : Z) | FixedSize (size : Z) | NoSeekEnd | NoSeekEndSize (size : Z)
| Noop | Default (i_size : Z).

Definition call_llseek (op : llseek_op) (f : file) (offset whence : Z) : Z * file :=
  match op with
  | Generic m s => generic_file_llseek m s f offset whence
  | FixedSize s => fixed_size_llseek f offset whence s
  | NoSeekEnd => no_seek_end_llseek f offset whence
  | NoSeekEndSize s => no_seek_end_llseek_size f offset whence s
  | Noop => noop_llseek f offset whence
  | Default s => default_llseek s f offset whence
  end.

Definition vfs_llseek (op : llseek_op) (f : file) (offset whence : Z) : Z * file :=
  if negb (has (f_mode f) FMODE_LSEEK) then (- ESPIPE, f) else call_llseek op f offset whence.

(** [None]: the descriptor is not open. *)
Definition ksys_lseek (fd : option (llseek_op * file)) (offset whence : Z) : Z * option file :=
  match fd with
  | None => (- EBADF, None)
  | Some (op, f) =>
      if whence <=? SEEK_MAX then
        let '(res, f) := vfs_llseek op f offset whence in
        let retval := i64 res in
        ((if negb (res =? retval) then - EOVERFLOW else retval), Some f)
      else (- EINVAL, Some f)
  end.

(** [((loff_t) offset_high << 32) | offset_low] *)
Definition llseek_offset (offset_high offset_low : Z) : Z :=
  i64 (Z.lor (Z.shiftl offset_high 32) offset_low).

Definition sys_llseek `{UserAccess} (fd : option (llseek_op * file)) (offset_high offset_low result whence : Z)
    (um : umem) : Z * option file * umem :=
  match fd with
  | None => (- EBADF, None, um)
  | Some (op, f) =>
      if SEEK_MAX <? whence then (- EINVAL, Some f, um)
      else
        let '(offset, f) := vfs_llseek op f (llseek_offset offset_high offset_low) whence in
        if 0 <=? offset then
          let '(l, um) := copy_to_user result (le_bytes 8 offset) um in
          ((if c_true l then - EFAULT else 0), Some f, um)
        else (i32 offset, Some f, um)
  end.

(** ** Exactness *)

(** Where a seek goes, over the integers: the target, or an error. *)
Definition seek_target (pos offset whence eof : Z) : Z + Z :=
  if whence =? SEEK_END then inr (eof + offset)
  else if whence =? SEEK_CUR then inr (pos + offset)
  else if whence =? SEEK_DATA then
    if (0 <=? offset) && (offset <? eof) then inr offset else inl (- ENXIO)
  else if whence =? SEEK_HOLE then
    if (0 <=? offset) && (offset <? eof) then inr eof else inl (- ENXIO)
  else inr offset.

(** A target inside the file's limit becomes the position and the answer. *)
Definition seek_to (f : file) (target : Z + Z) (maxsize : Z) : Z * file :=
  match target with
  | inl e => (e, f)
  | inr t => if (0 <=? t) && (t <=? maxsize) then (t, move_to t f) else (- EINVAL, f)
  end.

Definition seekable (f : file) (maxsize : Z) : Prop :=
  unsigned_offsets f = false /\ 0 <= f_pos f <= maxsize /\ maxsize <= OFFSET_MAX.

Lemma move_to_same f : move_to (f_pos f) f = f.
Proof. unfold move_to. by rewrite Z.eqb_refl. Qed.

Lemma setpos_exact f t maxsize :
  unsigned_offsets f = false -> vfs_setpos f t maxsize = seek_to f (inr t) maxsize.
Proof.
  intros Hu. unfold vfs_setpos, seek_to. rewrite Hu. cbn [negb]. rewrite andb_true_r.
  repeat case_if; done || lia.
Qed.

(** A sum of a position and an offset that leaves the signed range is refused, as the
    exact sum would be. *)
Lemma setpos_wrapped f a b maxsize :
  unsigned_offsets f = false -> 0 <= a <= OFFSET_MAX -> is_s 64 b -> maxsize <= OFFSET_MAX ->
  vfs_setpos f (i64 (a + b)) maxsize = seek_to f (inr (a + b)) maxsize.
Proof.
  intros Hu Ha Hb Hm. rewrite setpos_exact by done. unfold seek_to, OFFSET_MAX, is_s in *.
  destruct (Z_lt_le_dec (a + b) (2 ^ 63)).
  - rewrite wrapS_id by (lia || (split; lia)). done.
  - assert (i64 (a + b) = a + b - 2 ^ 64) as ->.
    { unfold wrapS. cbv zeta. rewrite Z.mod_small by lia. case_if; lia. }
    repeat case_if; done || lia.
Qed.

Lemma generic_llseek_exact f offset whence maxsize eof :
  seekable f maxsize -> is_s 64 offset -> 0 <= eof <= OFFSET_MAX ->
  generic_file_llseek_size f offset whence maxsize eof = seek_to f (seek_target (f_pos f) offset whence eof) maxsize.
Proof.
  intros (Hu & Hp & Hm) Ho He. unfold generic_file_llseek_size, seek_target.
  unfold OFFSET_MAX, is_s in *.
  case_if; [rewrite (Z.add_comm offset); apply setpos_wrapped; unfold OFFSET_MAX; done || lia|].
  case_if.
  { destruct (Z.eqb_spec offset 0) as [->|].
    - rewrite Z.add_0_r. unfold seek_to. case_if; [|lia]. by rewrite move_to_same.
    - apply setpos_wrapped; unfold OFFSET_MAX; done || lia. }
  assert (Hcmp : (u64 eof <=? u64 offset) = negb ((0 <=? offset) && (offset <? eof))).
  { rewrite (wrapU_id 64 eof) by (split; lia). unfold wrapU.
    destruct (Z_lt_le_dec offset 0).
    - assert (offset mod 2 ^ 64 = offset + 2 ^ 64) as -> by (symmetry; apply Z.mod_unique with (-1); lia). lia.
    - rewrite Z.mod_small by lia. lia. }
  rewrite Hcmp. repeat (case_if; cbn [negb]); try done; by apply setpos_exact.
Qed.

(** The specification of every llseek method of this file for files with signed
    offsets. *)
Definition llseek_spec (op : llseek_op) (f : file) (offset whence : Z) : Z * file :=
  match op with
  | Generic m s => seek_to f (seek_target (f_pos f) offset whence s) m
  | FixedSize s =>
      if whence <=? SEEK_END then seek_to f (seek_target (f_pos f) offset whence s) s else (- EINVAL, f)
  | NoSeekEnd =>
      if whence <=? SEEK_CUR then seek_to f (seek_target (f_pos f) offset whence 0) OFFSET_MAX else (- EINVAL, f)
  | NoSeekEndSize s =>
      if whence <=? SEEK_CUR then seek_to f (seek_target (f_pos f) offset whence 0) s else (- EINVAL, f)
  | Noop => (f_pos f, f)
  | Default s =>
      (* negative offsets: SEEK_DATA refuses them with EINVAL, SEEK_HOLE finds the end *)
      seek_to f (if (whence =? SEEK_DATA) && (offset <? 0) then inl (- EINVAL)
                 else if (whence =? SEEK_HOLE) && (offset <? 0) then (if s <=? offset then inl (- ENXIO) else inr s)
                 else seek_target (f_pos f) offset whence s) OFFSET_MAX
  end.

Definition op_limit (op : llseek_op) : Z :=
  match op with
  | Generic m _ => m
  | FixedSize s | NoSeekEndSize s => s
  | NoSeekEnd | Noop | Default _ => OFFSET_MAX
  end.

Definition op_eof_ok (op : llseek_op) : Prop :=
  match op with Generic _ s | FixedSize s | Default s => 0 <= s <= OFFSET_MAX | _ => True end.

Lemma default_llseek_exact f offset whence s :
  seekable f OFFSET_MAX -> is_s 64 offset -> 0 <= s <= OFFSET_MAX -> 0 <= whence ->
  default_llseek s f offset whence = llseek_spec (Default s) f offset whence.
Proof.
  intros (Hu & Hp & Hm) Ho He Hw. unfold default_llseek, llseek_spec, seek_target. rewrite Hu. cbv zeta.
  assert (Hfin : forall t, is_s 64 t ->
    (if (0 <=? t) || false then (t, move_to t f) else (- EINVAL, f)) = seek_to f (inr t) OFFSET_MAX).
  { intros t Ht. unfold seek_to, OFFSET_MAX, is_s in *. rewrite orb_false_r. repeat case_if; done || lia. }
  assert (Hwrap : forall a, 0 <= a <= OFFSET_MAX ->
    (if (0 <=? i64 (offset + a)) || false then (i64 (offset + a), move_to (i64 (offset + a)) f) else (- EINVAL, f))
    = seek_to f (inr (a + offset)) OFFSET_MAX).
  { intros a Ha. rewrite Hfin by (apply wrapS_range; lia). rewrite <- setpos_exact by done.
    rewrite (Z.add_comm offset). by apply setpos_wrapped. }
  unfold OFFSET_MAX, is_s, SEEK_END, SEEK_CUR, SEEK_DATA, SEEK_HOLE in *.
  destruct (Z.eqb_spec whence 2) as [->|]; [by apply Hwrap|].
  destruct (Z.eqb_spec whence 1) as [->|].
  { cbn [Z.eqb Pos.eqb andb]. destruct (Z.eqb_spec offset 0) as [->|]; [|by apply Hwrap].
    rewrite Z.add_0_r. unfold seek_to. case_if; [|lia]. by rewrite move_to_same. }
  destruct (Z.eqb_spec whence 3) as [->|].
  { cbn [Z.eqb Pos.eqb andb]. unfold seek_to. repeat (case_if; cbv iota beta); done || lia. }
  destruct (Z.eqb_spec whence 4) as [->|].
  { cbn [Z.eqb Pos.eqb andb]. unfold seek_to. repeat (case_if; cbv iota beta); done || lia. }
  cbn [andb]. apply Hfin. lia.
Qed.

(** Every llseek method computes the position over the integers: for a file with
    signed offsets at a valid position, each of the six methods answers and sets
    exactly what the specification over unbounded integers says, so an overflow of the
    64-bit additions is never taken for a valid position, and the position stays
    within the limit of the method. *)
Theorem llseek_exact op f offset whence :
  seekable f (op_limit op) -> op_eof_ok op -> is_s 64 offset -> 0 <= whence <= SEEK_MAX ->
  call_llseek op f offset whence = llseek_spec op f offset whence /\
  seekable (call_llseek op f offset whence).2 (op_limit op).
Proof.
  intros Hs He Ho Hw.
  assert (Hto : forall t m, seekable f m -> seekable (seek_to f t m).2 m).
  { intros t m (H1 & H2 & H3). unfold seek_to. destruct t as [|t]; [done|]. case_if; [|done].
    unfold move_to. cbn. case_if; [|done]. repeat split; cbn; try done; lia. }
  assert (Heq : call_llseek op f offset whence = llseek_spec op f offset whence).
  { destruct op; cbn [call_llseek llseek_spec op_limit op_eof_ok] in *.
    - by apply generic_llseek_exact.
    - unfold fixed_size_llseek, SEEK_SET, SEEK_CUR, SEEK_END in *.
      repeat case_if; try lia; [|done]. by apply generic_llseek_exact.
    - unfold no_seek_end_llseek, SEEK_SET, SEEK_CUR in *.
      repeat case_if; try lia; [|done]. apply generic_llseek_exact; done || (unfold OFFSET_MAX; lia).
    - unfold no_seek_end_llseek_size, SEEK_SET, SEEK_CUR in *.
      repeat case_if; try lia; [|done]. apply generic_llseek_exact; done || (unfold OFFSET_MAX; lia).
    - done.
    - apply default_llseek_exact; done || lia. }
  split; [done|]. rewrite Heq. destruct op; cbn [llseek_spec op_limit] in *; try case_if; auto.
Qed.

Lemma llseek_exact_witness :
  call_llseek (Generic OFFSET_MAX 100) {| f_mode := FMODE_LSEEK; f_pos := 10; f_version := 1 |}
    OFFSET_MAX SEEK_CUR = (- EINVAL, {| f_mode := FMODE_LSEEK; f_pos := 10; f_version := 1 |}).
Proof.
  destruct (llseek_exact (Generic OFFSET_MAX 100) {| f_mode := FMODE_LSEEK; f_pos := 10; f_version := 1 |}
              OFFSET_MAX SEEK_CUR) as [-> _].
  - repeat split; cbn; unfold OFFSET_MAX; lia.
  - cbn. unfold OFFSET_MAX. lia.
  - unfold is_s, OFFSET_MAX. lia.
  - unfold SEEK_CUR, SEEK_MAX, SEEK_HOLE. lia.
  - reflexivity.
Defined.
