(* ===== verification/ReadWrite.v ===== *)
(** * Scalar file I/O (fs/read_write.c: read, write, pread64, pwrite64)

    The generic layer between the syscalls and the read/write methods of a file:
    mode and range checks, the 2 GiB limit, the file position protocol, freeze
    protection and the I/O accounting of the task.  The methods of the file, the
    security and notification hooks and access_ok are parameters (class [FileOps]);
    every invocation of a method is logged with its position and length.  read and
    write of this kernel count themselves first ([Track]). *)
From S2P Require Import Prelude UserMem Track Seek.

(** A method invocation: written to the device?, position (None for streams), length. *)
Record method_call := {
  mc_write : bool; mc_buf : Z; mc_pos : option Z; mc_count : Z;
  mc_ret : Z; mc_left : option Z                  (** what it answered and the position it left *)
}.

(** [method buf count pos dev]: result, new value of the position (a loff_t; not
    looked at when there is no position), new device state. *)
Definition method (dev : Type) : Type := Z -> Z -> option Z -> dev -> Z * Z * dev.

Class FileOps := {
  dev : Type;
  f_op_read : option (method dev);
  f_op_read_iter : option (method dev);
  f_op_write : option (method dev);
  f_op_write_iter : option (method dev);
  rw_access_ok : Z -> Z -> bool;
  security_file_permission : Z -> Z;
  fsnotify_file_area_perm : Z -> option Z -> Z -> Z
}.

Definition READ := 0.
Definition WRITE := 1.
Definition MAY_READ := 4.
Definition MAY_WRITE := 2.
Definition MAX_RW_COUNT := 2147479552.     (** INT_MAX & PAGE_MASK *)

Section rw.
Context {F : FileOps}.

Record io := {
  io_file : file; io_dev : dev;
  rchar : Z; wchar : Z; syscr : Z; syscw : Z;     (** current->ioac *)
  writers : Z;                                    (** file_start_write minus file_end_write *)
  calls : list method_call
}.

Definition upd_file (f : file) (s : io) : io :=
  {| io_file := f; io_dev := io_dev s; rchar := rchar s; wchar := wchar s; syscr := syscr s;
     syscw := syscw s; writers := writers s; calls := calls s |}.

Definition add_writers (d : Z) (s : io) : io :=
  {| io_file := io_file s; io_dev := io_dev s; rchar := rchar s; wchar := wchar s; syscr := syscr s;
     syscw := syscw s; writers := writers s + d; calls := calls s |}.

(** [add_rchar], [inc_syscr] and the write versions. *)
Definition account (r w cr cw : Z) (s : io) : io :=
  {| io_file := io_file s; io_dev := io_dev s; rchar := u64 (rchar s + r); wchar := u64 (wchar s + w);
     syscr := u64 (syscr s + cr); syscw := u64 (syscw s + cw); writers := writers s; calls := calls s |}.

Definition invoke (write : bool) (m : method dev) (buf count : Z) (pos : option Z) (s : io)
    : Z * option Z * io :=
  let '(ret, pos', d) := m buf count pos (io_dev s) in
  let pos' := match pos with Some _ => Some (i64 pos') | None => None end in
  (ret, pos',
   {| io_file := io_file s; io_dev := d; rchar := rchar s; wchar := wchar s; syscr := syscr s;
      syscw := syscw s; writers := writers s;
      calls := {| mc_write := write; mc_buf := buf; mc_pos := pos; mc_count := count; mc_ret := ret; mc_left := pos' |} :: calls s |}).

Definition rw_verify_area (read_write : Z) (f : file) (ppos : option Z) (count : Z) : Z :=
  let mask := if read_write =? READ then MAY_READ else MAY_WRITE in
  let range :=
    if i64 count <? 0 then - EINVAL
    else
      match ppos with
      | None => 0
      | Some pos =>
          if pos <? 0 then
            if negb (unsigned_offsets f) then - EINVAL
            else if - pos <=? count then - EOVERFLOW else 0
          else if i64 (pos + count) <? 0 then
            if negb (unsigned_offsets f) then - EINVAL else 0
          else 0
      end in
  if c_true range then range
  else
    let ret := security_file_permission mask in
    if c_true ret then ret else fsnotify_file_area_perm mask ppos count.

(** The kiocb carries the position; a stream's starts at 0. *)
Definition new_sync_read (m : method dev) (buf len : Z) (ppos : option Z) (s : io) : Z * option Z * io :=
  let ki_pos := match ppos with Some p => p | None => 0 end in
  let '(ret, ki_pos', s) := invoke false m buf len (Some ki_pos) s in
  (ret, match ppos with Some _ => ki_pos' | None => None end, s).

Definition new_sync_write (m : method dev) (buf len : Z) (ppos : option Z) (s : io) : Z * option Z * io :=
  let ki_pos := match ppos with Some p => p | None => 0 end in
  let '(ret, ki_pos', s) := invoke true m buf len (Some ki_pos) s in
  (ret, (if 0 <? ret then match ppos with Some _ => ki_pos' | None => None end else ppos), s).

Definition vfs_read (buf count : Z) (pos : option Z) (s : io) : Z * option Z * io :=
  let f := io_file s in
  if negb (has (f_mode f) FMODE_READ) then (- EBADF, pos, s)
  else if negb (has (f_mode f) FMODE_CAN_READ) then (- EINVAL, pos, s)
  else if negb (rw_access_ok buf count) then (- EFAULT, pos, s)
  else
    let ret := rw_verify_area READ f pos count in
    if c_true ret then (ret, pos, s)
    else
      let count := if MAX_RW_COUNT <? count then MAX_RW_COUNT else count in
      let '(ret, pos, s) :=
        match f_op_read, f_op_read_iter with
        | Some m, _ => invoke false m buf count pos s
        | None, Some m => new_sync_read m buf count pos s
        | None, None => (- EINVAL, pos, s)
        end in
      (ret, pos, account (if 0 <? ret then ret else 0) 0 1 0 s).

Definition vfs_write (buf count : Z) (pos : option Z) (s : io) : Z * option Z * io :=
  let f := io_file s in
  if negb (has (f_mode f) FMODE_WRITE) then (- EBADF, pos, s)
  else if negb (has (f_mode f) FMODE_CAN_WRITE) then (- EINVAL, pos, s)
  else if negb (rw_access_ok buf count) then (- EFAULT, pos, s)
  else
    let ret := rw_verify_area WRITE f pos count in
    if c_true ret then (ret, pos, s)
    else
      let count := if MAX_RW_COUNT <? count then MAX_RW_COUNT else count in
      let s := add_writers 1 s in
      let '(ret, pos, s) :=
        match f_op_write, f_op_write_iter with
        | Some m, _ => invoke true m buf count pos s
        | None, Some m => new_sync_write m buf count pos s
        | None, None => (- EINVAL, pos, s)
        end in
      (ret, pos, add_writers (-1) (account 0 (if 0 <? ret then ret else 0) 0 1 s)).

(** In-kernel readers and writers. *)
Definition __kernel_read (buf count : Z) (pos : option Z) (s : io) : Z * option Z * io :=
  let f := io_file s in
  let len := Z.min count MAX_RW_COUNT in
  if negb (has (f_mode f) FMODE_READ) then (- EINVAL, pos, s)
  else if negb (has (f_mode f) FMODE_CAN_READ) then (- EINVAL, pos, s)
  else
    match f_op_read_iter, f_op_read with
    | Some m, None =>
        let '(ret, ki_pos', s) := invoke false m buf len (Some (match pos with Some p => p | None => 0 end)) s in
        let pos' := if 0 <? ret then match pos with Some _ => ki_pos' | None => None end else pos in
        (ret, pos', account (if 0 <? ret then ret else 0) 0 1 0 s)
    | _, _ => (- EINVAL, pos, s)
    end.

Definition kernel_read (buf count : Z) (pos : option Z) (s : io) : Z * option Z * io :=
  let ret := rw_verify_area READ (io_file s) pos count in
  if c_true ret then (ret, pos, s) else __kernel_read buf count pos s.

Definition __kernel_write (buf count : Z) (pos : option Z) (s : io) : Z * option Z * io :=
  let f := io_file s in
  let len := Z.min count MAX_RW_COUNT in
  if negb (has (f_mode f) FMODE_WRITE) then (- EBADF, pos, s)
  else if negb (has (f_mode f) FMODE_CAN_WRITE) then (- EINVAL, pos, s)
  else
    match f_op_write_iter, f_op_write with
    | Some m, None =>
        let '(ret, ki_pos', s) := invoke true m buf len (Some (match pos with Some p => p | None => 0 end)) s in
        let pos' := if 0 <? ret then match pos with Some _ => ki_pos' | None => None end else pos in
        (ret, pos', account 0 (if 0 <? ret then ret else 0) 0 1 s)
    | _, _ => (- EINVAL, pos, s)
    end.

Definition kernel_write (buf count : Z) (pos : option Z) (s : io) : Z * option Z * io :=
  let ret := rw_verify_area WRITE (io_file s) pos count in
  if c_true ret then (ret, pos, s)
  else
    let '(ret, pos, s) := __kernel_write buf count pos (add_writers 1 s) in
    (ret, pos, add_writers (-1) s).

(** file_ppos: NULL for streams. *)
Definition file_ppos (f : file) : option Z := if has (f_mode f) FMODE_STREAM then None else Some (f_pos f).

Definition store_pos (ret : Z) (ppos pos : option Z) (s : io) : io :=
  match ppos, pos with
  | Some _, Some p => if 0 <=? ret then upd_file (set_pos p (io_file s)) s else s
  | _, _ => s
  end.

(** [is_open]: the descriptor refers to the file. *)
Definition ksys_read (is_open : bool) (buf count : Z) (s : io) : Z * io :=
  if is_open then
    let ppos := file_ppos (io_file s) in
    let '(ret, pos, s) := vfs_read buf count ppos s in
    (ret, store_pos ret ppos pos s)
  else (- EBADF, s).

Definition ksys_write (is_open : bool) (buf count : Z) (s : io) : Z * io :=
  if is_open then
    let ppos := file_ppos (io_file s) in
    let '(ret, pos, s) := vfs_write buf count ppos s in
    (ret, store_pos ret ppos pos s)
  else (- EBADF, s).

Definition ksys_pread64 (is_open : bool) (buf count pos : Z) (s : io) : Z * io :=
  if pos <? 0 then (- EINVAL, s)
  else if is_open then
    if has (f_mode (io_file s)) FMODE_PREAD
    then let '(ret, _, s) := vfs_read buf count (Some pos) s in (ret, s) else (- ESPIPE, s)
  else (- EBADF, s).

Definition ksys_pwrite64 (is_open : bool) (buf count pos : Z) (s : io) : Z * io :=
  if pos <? 0 then (- EINVAL, s)
  else if is_open then
    if has (f_mode (io_file s)) FMODE_PWRITE
    then let '(ret, _, s) := vfs_write buf count (Some pos) s in (ret, s) else (- ESPIPE, s)
  else (- EBADF, s).

Definition sys_pread64 (is_open : bool) (buf count pos : Z) (s : io) : Z * io := ksys_pread64 is_open buf count pos s.
Definition sys_pwrite64 (is_open : bool) (buf count pos : Z) (s : io) : Z * io := ksys_pwrite64 is_open buf count pos s.

(** For 32-bit programs the position comes in two registers ([glue]: compat_arg_u64_glue of
    linux/compat.h, an unsigned word that becomes a loff_t). *)
Definition compat_pread64 (glue : Z -> Z -> Z) (is_open : bool) (buf count lo hi : Z) (s : io) : Z * io :=
  ksys_pread64 is_open buf count (i64 (glue lo hi)) s.
Definition compat_pwrite64 (glue : Z -> Z -> Z) (is_open : bool) (buf count lo hi : Z) (s : io) : Z * io :=
  ksys_pwrite64 is_open buf count (i64 (glue lo hi)) s.

(** The syscalls of this kernel; [None]: the counter access was out of bounds. *)
Definition sys_read (now : timespec64) (is_open : bool) (buf count : Z) (s : io) (tr : track_state)
    : option (Z * io * track_state) :=
  match track_syscall now NR_read tr with
  | None => None
  | Some tr => let '(r, s) := ksys_read is_open buf count s in Some (r, s, tr)
  end.

Definition sys_write (now : timespec64) (is_open : bool) (buf count : Z) (s : io) (tr : track_state)
    : option (Z * io * track_state) :=
  match track_syscall now NR_write tr with
  | None => None
  | Some tr => let '(r, s) := ksys_write is_open buf count s in Some (r, s, tr)
  end.

End rw.

(** ** Theorems *)

Section theorems.
Context {F : FileOps}.

Inductive rw_call :=
| Read (is_open : bool) (buf count : Z) | Write (is_open : bool) (buf count : Z)
| Pread (is_open : bool) (buf count pos : Z) | Pwrite (is_open : bool) (buf count pos : Z)
| KernelRead (buf count : Z) (pos : option Z) | KernelWrite (buf count : Z) (pos : option Z).

Definition rw_exec (c : rw_call) (s : io) : Z * io :=
  match c with
  | Read o b n => ksys_read o b n s
  | Write o b n => ksys_write o b n s
  | Pread o b n p => ksys_pread64 o b n p s
  | Pwrite o b n p => ksys_pwrite64 o b n p s
  | KernelRead b n p => let '(r, _, s) := kernel_read b n p s in (r, s)
  | KernelWrite b n p => let '(r, _, s) := kernel_write b n p s in (r, s)
  end.

Fixpoint rw_run (cs : list rw_call) (s : io) : io :=
  match cs with [] => s | c :: cs' => rw_run cs' (rw_exec c s).2 end.

(** Room for [n] bytes at a position: within the non-negative loff_t, or, in a file with
    unsigned offsets, where a position is an address of 64 bits, within these. *)
Definition pos_room (uns : bool) (n : Z) (pos : option Z) : Prop :=
  match pos with
  | Some p => if uns then is_s 64 p /\ u64 p + n < 2 ^ 64 else 0 <= p /\ p + n <= OFFSET_MAX
  | None => True
  end.

(** A method invocation no driver has to fear. *)
Definition safe_call (uns : bool) (c : method_call) : Prop :=
  0 <= mc_count c <= MAX_RW_COUNT /\ pos_room uns (mc_count c) (mc_pos c).

Definition pos_ok (pos : option Z) : Prop := match pos with Some p => is_s 64 p | None => True end.

(** Arguments of the right C types. *)
Definition rw_args_ok (c : rw_call) : Prop :=
  match c with
  | Read _ _ n | Write _ _ n => is_u 64 n
  | Pread _ _ n p | Pwrite _ _ n p => is_u 64 n /\ is_s 64 p
  | KernelRead _ n p | KernelWrite _ n p => is_u 64 n /\ pos_ok p
  end.

Lemma i64_nonneg x : 0 <= x < 2 ^ 64 -> 0 <= i64 x -> x < 2 ^ 63.
Proof. intros Hx H. unfold wrapS in H. cbv zeta in H. rewrite Z.mod_small in H by lia. case_if_in H; lia. Qed.

Lemma u64_of_signed p : is_s 64 p -> u64 p = if p <? 0 then p + 2 ^ 64 else p.
Proof.
  unfold is_s, wrapU. intros H. case_if; [|apply Z.mod_small; lia].
  rewrite <- (Z.mod_add p 1) by lia. apply Z.mod_small. lia.
Qed.

(** The range check, for both kinds of offsets. *)
Lemma verify_area_range rw f pos count :
  is_u 64 count -> pos_ok pos -> 0 <= rw_verify_area rw f pos count ->
  0 <= count /\ pos_room (unsigned_offsets f) count pos.
Proof.
  intros Hc Hp H. unfold rw_verify_area in H. cbv zeta in H.
  set (range := if i64 count <? 0 then _ else _) in H.
  assert (Hr : range = - EINVAL \/ range = - EOVERFLOW \/ range = 0).
  { subst range. destruct pos; repeat case_if; auto. }
  destruct Hr as [Hr|[Hr|Er]]; [rewrite Hr in H; by cbn in H..|]. clear H. subst range. unfold is_u in Hc.
  case_if_in Er; [done|]. assert (count < 2 ^ 63) by (apply i64_nonneg; lia).
  split; [lia|]. destruct pos as [p|]; [|done]. cbn [pos_room pos_ok] in *. pose proof Hp as Hs. unfold is_s in Hs.
  destruct (unsigned_offsets f); cbn [negb] in Er.
  - split; [done|]. rewrite u64_of_signed by done. destruct (p <? 0) eqn:Hn; [case_if_in Er; [done|lia]|lia].
  - case_if_in Er; [done|]. case_if_in Er; [done|]. split; [lia|].
    assert (p + count < 2 ^ 63) by (apply i64_nonneg; lia). unfold OFFSET_MAX. lia.
Qed.

Lemma verify_area_ok rw f pos count :
  is_u 64 count -> pos_ok pos -> rw_verify_area rw f pos count = 0 ->
  0 <= count /\ pos_room (unsigned_offsets f) count pos.
Proof. intros Hc Hp H. eapply verify_area_range; try done. by rewrite H. Qed.

(** What vfs_read and vfs_write leave alone, and the invocation they may make. *)
Definition vfs_effect (s : io) (pos : option Z) (r : Z * option Z * io) : Prop :=
  let '(ret, pos', s') := r in
  io_file s' = io_file s /\ writers s' = writers s /\ pos_ok pos' /\
  (calls s' = calls s \/ exists c, calls s' = c :: calls s /\ safe_call (unsigned_offsets (io_file s)) c).

Lemma invoke_effect write m buf count pos s :
  0 <= count <= MAX_RW_COUNT -> pos_room (unsigned_offsets (io_file s)) count pos ->
  vfs_effect s pos (invoke write m buf count pos s).
Proof.
  intros Hc Hp. unfold invoke. destruct (m buf count pos (io_dev s)) as [[ret pos'] d].
  split; [done|]. split; [done|]. split; [destruct pos; [apply wrapS_range; lia|done]|].
  right. eexists. split; [reflexivity|]. by split.
Qed.

Lemma clip_count count : 0 <= count -> 0 <= (if MAX_RW_COUNT <? count then MAX_RW_COUNT else count) <= MAX_RW_COUNT.
Proof. unfold MAX_RW_COUNT. case_if; lia. Qed.

Lemma pos_room_le uns (pos : option Z) n n' : pos_room uns n pos -> n' <= n -> pos_room uns n' pos.
Proof. destruct pos; [|done]. cbn. destruct uns; [intros [? ?] ?; split; [done|lia]|lia]. Qed.

Lemma clip_pos uns (pos : option Z) count :
  pos_room uns count pos -> pos_room uns (if MAX_RW_COUNT <? count then MAX_RW_COUNT else count) pos.
Proof. intros H. eapply pos_room_le; [done|]. case_if; lia. Qed.

Lemma sync_pos_ok uns (pos : option Z) n :
  0 <= n <= MAX_RW_COUNT -> pos_room uns n pos -> pos_room uns n (Some (match pos with Some p => p | None => 0 end)).
Proof.
  intros Hn. destruct pos; [done|]. intros _. cbn. unfold MAX_RW_COUNT, OFFSET_MAX in *.
  destruct uns; [split; [by vm_compute|change (u64 0) with 0; lia]|lia].
Qed.

Lemma vfs_read_effect buf count pos s :
  is_u 64 count -> pos_ok pos ->
  vfs_effect s pos (vfs_read buf count pos s).
Proof.
  intros Hc Hp.
  assert (Hself : forall r, vfs_effect s pos (r, pos, s)) by (intros r; by repeat split; auto).
  unfold vfs_read. do 3 (case_if; [apply Hself|]). cbv zeta.
  case_if; [apply Hself|]. apply c_true_false in Hif2.
  destruct (verify_area_ok _ _ _ _ Hc Hp Hif2) as [H0 Hpos]. apply clip_pos in Hpos.
  pose proof (clip_count count H0) as Hn.
  assert (Hacc : forall r p s1, vfs_effect s pos (r, p, s1) ->
            vfs_effect s pos (r, p, account (if 0 <? r then r else 0) 0 1 0 s1)) by done.
  destruct f_op_read as [m|]; [|destruct f_op_read_iter as [m|]].
  - pose proof (invoke_effect false m buf _ pos s Hn Hpos) as H.
    destruct (invoke _ _ _ _ _ _) as [[r p] s1]. by apply Hacc.
  - unfold new_sync_read. pose proof (sync_pos_ok _ pos _ Hn Hpos) as Hk.
    match goal with |- context [invoke false m buf ?n (Some ?k) s] =>
      pose proof (invoke_effect false m buf n (Some k) s Hn Hk) as H;
      destruct (invoke false m buf n (Some k) s) as [[r p] s1] end.
    destruct H as (A & B & C & D). apply Hacc. by destruct pos.
  - apply Hacc, Hself.
Qed.

Lemma vfs_write_effect buf count pos s :
  is_u 64 count -> pos_ok pos ->
  vfs_effect s pos (vfs_write buf count pos s).
Proof.
  intros Hc Hp.
  assert (Hself : forall r, vfs_effect s pos (r, pos, s)) by (intros r; by repeat split; auto).
  unfold vfs_write. do 3 (case_if; [apply Hself|]). cbv zeta.
  case_if; [apply Hself|]. apply c_true_false in Hif2.
  destruct (verify_area_ok _ _ _ _ Hc Hp Hif2) as [H0 Hpos]. apply clip_pos in Hpos.
  pose proof (clip_count count H0) as Hn. set (s0 := add_writers 1 s).
  assert (Hacc : forall r p s1, vfs_effect s0 pos (r, p, s1) ->
            vfs_effect s pos (r, p, add_writers (-1) (account 0 (if 0 <? r then r else 0) 0 1 s1))).
  { intros r p s1 (A & B & C & D). repeat split; try done. cbn in *. lia. }
  destruct f_op_write as [m|]; [|destruct f_op_write_iter as [m|]].
  - pose proof (invoke_effect true m buf _ pos s0 Hn Hpos) as H.
    destruct (invoke _ _ _ _ _ _) as [[r p] s1]. by apply Hacc.
  - unfold new_sync_write. pose proof (sync_pos_ok _ pos _ Hn Hpos) as Hk.
    match goal with |- context [invoke true m buf ?n (Some ?k) s0] =>
      pose proof (invoke_effect true m buf n (Some k) s0 Hn Hk) as H;
      destruct (invoke true m buf n (Some k) s0) as [[r p] s1] end.
    destruct H as (A & B & C & D). apply Hacc. split; [done|]. split; [done|].
    split; [|exact D]. case_if; [destruct pos; [exact C|done]|exact Hp].
  - apply Hacc. by repeat split; auto.
Qed.

(** The in-kernel entry points, after their range check. *)
Lemma min_clip count : Z.min count MAX_RW_COUNT = if MAX_RW_COUNT <? count then MAX_RW_COUNT else count.
Proof. case_if; lia. Qed.

Lemma kernel_read_effect buf count pos s :
  is_u 64 count -> pos_ok pos ->
  vfs_effect s pos (kernel_read buf count pos s).
Proof.
  intros Hc Hp.
  assert (Hself : forall r, vfs_effect s pos (r, pos, s)) by (intros r; by repeat split; auto).
  unfold kernel_read. cbv zeta. case_if; [apply Hself|]. apply c_true_false in Hif.
  destruct (verify_area_ok _ _ _ _ Hc Hp Hif) as [H0 Hpos]. apply clip_pos in Hpos.
  pose proof (clip_count count H0) as Hn. rewrite <-min_clip in Hn, Hpos.
  unfold __kernel_read. do 2 (case_if; [apply Hself|]). cbv zeta.
  destruct f_op_read_iter as [m|]; [|apply Hself]. destruct f_op_read; [apply Hself|].
  pose proof (invoke_effect false m buf _ (Some _) s Hn (sync_pos_ok _ pos _ Hn Hpos)) as H.
  destruct (invoke _ _ _ _ _ _) as [[r p] s1]. destruct H as (A & B & C & D).
  split; [done|]. split; [done|]. split; [|exact D].
  case_if; [destruct pos; [exact C|done]|exact Hp].
Qed.

Lemma kernel_write_effect buf count pos s :
  is_u 64 count -> pos_ok pos ->
  vfs_effect s pos (kernel_write buf count pos s).
Proof.
  intros Hc Hp.
  assert (Hself : forall r, vfs_effect s pos (r, pos, s)) by (intros r; by repeat split; auto).
  assert (Hbal : forall r, vfs_effect s pos (r, pos, add_writers (-1) (add_writers 1 s)))
    by (intros r; repeat split; cbn; auto; lia).
  unfold kernel_write. cbv zeta. case_if; [apply Hself|]. apply c_true_false in Hif.
  destruct (verify_area_ok _ _ _ _ Hc Hp Hif) as [H0 Hpos]. apply clip_pos in Hpos.
  pose proof (clip_count count H0) as Hn. rewrite <-min_clip in Hn, Hpos.
  unfold __kernel_write. do 2 (case_if; [apply Hbal|]). cbv zeta.
  destruct f_op_write_iter as [m|]; [|apply Hbal]. destruct f_op_write; [apply Hbal|].
  pose proof (invoke_effect true m buf _ (Some _) (add_writers 1 s) Hn (sync_pos_ok _ pos _ Hn Hpos)) as H.
  destruct (invoke _ _ _ _ _ _) as [[r p] s1]. destruct H as (A & B & C & D).
  split; [done|]. split; [cbn in *; lia|]. split; [|exact D].
  case_if; [destruct pos; [exact C|done]|exact Hp].
Qed.

(** One call: the position protocol, freeze protection and the invocation. *)
Definition rw_step (c : rw_call) (s : io) (r : Z) (s' : io) : Prop :=
  f_mode (io_file s') = f_mode (io_file s) /\ is_s 64 (f_pos (io_file s')) /\
  writers s' = writers s /\
  (calls s' = calls s \/ exists m, calls s' = m :: calls s /\ safe_call (unsigned_offsets (io_file s)) m) /\
  match c with
  | Read _ _ _ | Write _ _ _ => r < 0 \/ has (f_mode (io_file s)) FMODE_STREAM = true -> io_file s' = io_file s
  | _ => io_file s' = io_file s
  end.

Lemma store_pos_step s pos r p s1 :
  is_s 64 (f_pos (io_file s)) -> pos = file_ppos (io_file s) -> vfs_effect s pos (r, p, s1) ->
  let s' := store_pos r pos p s1 in
  f_mode (io_file s') = f_mode (io_file s) /\ is_s 64 (f_pos (io_file s')) /\ writers s' = writers s /\
  (calls s' = calls s \/ exists m, calls s' = m :: calls s /\ safe_call (unsigned_offsets (io_file s)) m) /\
  (r < 0 \/ has (f_mode (io_file s)) FMODE_STREAM = true -> io_file s' = io_file s).
Proof.
  intros Hs Hpos (A & B & C & D). cbv zeta. unfold store_pos.
  assert (Hsame : f_mode (io_file s1) = f_mode (io_file s) /\ is_s 64 (f_pos (io_file s1)) /\
    writers s1 = writers s /\ (calls s1 = calls s \/ exists m, calls s1 = m :: calls s /\ safe_call (unsigned_offsets (io_file s)) m) /\
    (r < 0 \/ has (f_mode (io_file s)) FMODE_STREAM = true -> io_file s1 = io_file s))
    by (rewrite A; split_and!; auto).
  unfold file_ppos in Hpos. destruct (has (f_mode (io_file s)) FMODE_STREAM) eqn:Hst; subst pos; [done|].
  destruct p as [p|]; [|done]. case_if; [|done]. cbn. rewrite A.
  split; [done|]. split; [exact C|]. split; [done|]. split; [done|]. intros [?|?]; [lia|done].
Qed.

Lemma file_ppos_ok f : is_s 64 (f_pos f) -> pos_ok (file_ppos f).
Proof. intros. unfold file_ppos. by case_if. Qed.

Lemma rw_exec_step c s :
  is_s 64 (f_pos (io_file s)) -> rw_args_ok c ->
  rw_step c s (rw_exec c s).1 (rw_exec c s).2.
Proof.
  intros Hs Ha.
  assert (Hself : forall r, rw_step c s r s) by (intros r; destruct c; unfold rw_step; split_and!; auto).
  destruct c as [o b n|o b n|o b n p|o b n p|b n p|b n p]; cbn [rw_exec rw_args_ok] in *.
  - unfold ksys_read. destruct o; [|apply Hself].
    pose proof (vfs_read_effect b n _ s Ha (file_ppos_ok _ Hs)) as H. cbv zeta.
    destruct (vfs_read _ _ _ _) as [[r p] s1]. exact (store_pos_step s _ r p s1 Hs eq_refl H).
  - unfold ksys_write. destruct o; [|apply Hself].
    pose proof (vfs_write_effect b n _ s Ha (file_ppos_ok _ Hs)) as H. cbv zeta.
    destruct (vfs_write _ _ _ _) as [[r p] s1]. exact (store_pos_step s _ r p s1 Hs eq_refl H).
  - unfold ksys_pread64. case_if; [apply Hself|]. destruct o; [|apply Hself]. case_if; [|apply Hself].
    pose proof (vfs_read_effect b n (Some p) s (proj1 Ha) (proj2 Ha)) as H.
    destruct (vfs_read _ _ _ _) as [[r q] s1]. destruct H as (A & B & C & D).
    unfold rw_step. cbn [fst snd]. by rewrite A.
  - unfold ksys_pwrite64. case_if; [apply Hself|]. destruct o; [|apply Hself]. case_if; [|apply Hself].
    pose proof (vfs_write_effect b n (Some p) s (proj1 Ha) (proj2 Ha)) as H.
    destruct (vfs_write _ _ _ _) as [[r q] s1]. destruct H as (A & B & C & D).
    unfold rw_step. cbn [fst snd]. by rewrite A.
  - pose proof (kernel_read_effect b n p s (proj1 Ha) (proj2 Ha)) as H.
    destruct (kernel_read _ _ _ _) as [[r q] s1]. destruct H as (A & B & C & D).
    unfold rw_step. cbn [fst snd]. by rewrite A.
  - pose proof (kernel_write_effect b n p s (proj1 Ha) (proj2 Ha)) as H.
    destruct (kernel_write _ _ _ _) as [[r q] s1]. destruct H as (A & B & C & D).
    unfold rw_step. cbn [fst snd]. by rewrite A.
Qed.

(** C35: what drivers see: over any sequence of read, write, pread64, pwrite64,
    kernel_read and kernel_write calls with arbitrary lengths and positions, every method
    invocation has a length between 0 and the 2 GiB limit and room for it at its position,
    whatever positions the methods themselves return: in a file with signed offsets the
    position is not negative and the end does not overflow a loff_t, in a file with
    FMODE_UNSIGNED_OFFSET, where positions are 64-bit addresses and may be negative as a
    loff_t, the end does not wrap around these addresses; and freeze protection is balanced
    after every call. *)
Theorem rw_driver_calls_safe cs s :
  is_s 64 (f_pos (io_file s)) -> Forall rw_args_ok cs ->
  Forall (safe_call (unsigned_offsets (io_file s))) (calls s) ->
  Forall (safe_call (unsigned_offsets (io_file s))) (calls (rw_run cs s)) /\ writers (rw_run cs s) = writers s.
Proof.
  intros Hs Ha Hc. revert s Hs Hc. induction Ha as [|c cs Hc1 _ IH]; intros s Hs Hc; [done|].
  cbn [rw_run]. destruct (rw_exec_step c s Hs Hc1) as (A & B & C & D & _).
  assert (Hu : unsigned_offsets (io_file (rw_exec c s).2) = unsigned_offsets (io_file s))
    by (unfold unsigned_offsets; by rewrite A).
  destruct (IH (rw_exec c s).2) as [H1 H2]; [done| |rewrite Hu in H1; split; [done|congruence]].
  rewrite Hu. destruct D as [->|(m & -> & Hm)]; [done|by constructor].
Qed.

(** The position protocol: a failing read or write, any call on a stream, and every
    pread64, pwrite64, kernel_read and kernel_write leave the file (mode, position, version) exactly as it was. *)
Theorem rw_position_protocol c s :
  is_s 64 (f_pos (io_file s)) -> rw_args_ok c ->
  match c with
  | Read _ _ _ | Write _ _ _ => (rw_exec c s).1 < 0 \/ has (f_mode (io_file s)) FMODE_STREAM = true ->
         io_file (rw_exec c s).2 = io_file s
  | _ => io_file (rw_exec c s).2 = io_file s
  end.
Proof. intros Hs Ha. by destruct (rw_exec_step c s Hs Ha) as (_ & _ & _ & _ & H). Qed.

(** The instrumentation is transparent: with an allocated counter array, the read
    and write syscalls of this kernel answer exactly what ksys_read and ksys_write
    answer with the same effects, never fault in the counter, and add one to the
    counter of their own number and to no other, success or not. *)
Theorem rw_instrumentation_transparent now b is_open buf count s tr i u :
  track_wf tr -> usage_of tr i = Some u ->
  exists tr',
    (if b : bool then sys_write now is_open buf count s tr else sys_read now is_open buf count s tr) =
    Some (if b then ksys_write is_open buf count s else ksys_read is_open buf count s, tr') /\
    usage_of tr' i = Some (if (if b then NR_write else NR_read) =? Z.of_nat i then bump now u else u).
Proof.
  intros Hwf Hu.
  destruct (track_syscall_usage now (if b then NR_write else NR_read) tr i u Hwf) as (tr' & Ht & _ & Hu');
    [by destruct b|done|].
  exists tr'. split; [|done]. unfold sys_read, sys_write.
  destruct b; rewrite Ht; [by destruct (ksys_write _ _ _ _)|by destruct (ksys_read _ _ _ _)].
Qed.

End theorems.

(** ** A concrete file: reads deliver what is asked for and advance the position *)

Definition demo_ops : FileOps := {|
  dev := unit;
  f_op_read := None;
  f_op_read_iter := Some (fun _ n pos d => (n, (match pos with Some p => p | None => 0 end) + n, d));
  f_op_write := None; f_op_write_iter := Some (fun _ _ _ d => (- ENXIO, 0, d));
  rw_access_ok := fun _ _ => true; security_file_permission := fun _ => 0;
  fsnotify_file_area_perm := fun _ _ _ => 0 |}.

Definition demo_io : io (F := demo_ops) :=
  @Build_io demo_ops {| f_mode := 393247; f_pos := 9223372036854775000; f_version := 0 |} tt 0 0 0 0 0 [].

Definition demo_rw : list rw_call :=
  [Read true 0 500; Read true 0 500; Write true 0 100; Pread true 0 18446744073709551615 5; Pread true 0 4294967296 5;
   KernelRead 0 4096 None; KernelWrite 0 4096 (Some 12)].

(** The same with addresses for positions (FMODE_UNSIGNED_OFFSET), near the end of them: the
    second read would reach the end and is refused. *)
Definition demo_mem_io : io (F := demo_ops) :=
  @Build_io demo_ops {| f_mode := 393247 + FMODE_UNSIGNED_OFFSET; f_pos := -1000; f_version := 0 |} tt 0 0 0 0 0 [].

Lemma rw_driver_calls_safe_witness :
  Forall (safe_call false) (calls (rw_run (F := demo_ops) demo_rw demo_io)) /\
  Forall (safe_call true) (calls (rw_run (F := demo_ops) demo_rw demo_mem_io)) /\
  map mc_pos (calls (rw_run (F := demo_ops) demo_rw demo_mem_io)) = [Some 12; Some 0; Some 5; Some (-500); Some (-1000)].
Proof.
  split; [|split].
  - apply (rw_driver_calls_safe (F := demo_ops) demo_rw demo_io); [unfold is_s; cbn; lia|repeat constructor; cbn; lia|constructor].
  - apply (rw_driver_calls_safe (F := demo_ops) demo_rw demo_mem_io); [unfold is_s; cbn; lia|repeat constructor; cbn; lia|constructor].
  - vm_compute. reflexivity.
Defined.

Lemma rw_position_protocol_witness :
  io_file (rw_exec (F := demo_ops) (Write true 0 100) demo_io).2 = io_file demo_io.
Proof.
  apply (rw_position_protocol (F := demo_ops) (Write true 0 100) demo_io);
    [unfold is_s; cbn; lia|split; cbn; lia|]. left. reflexivity.
Defined.

Lemma rw_instrumentation_transparent_witness :
  exists tr', sys_read (F := demo_ops) {| tv_sec := 7; tv_nsec := 0 |} true 0 500 demo_io demo_track =
    Some (ksys_read (F := demo_ops) true 0 500 demo_io, tr') /\
    usage_of tr' 0 = Some {| count := 1; time_last_used := {| tv_sec := 7; tv_nsec := 0 |} |}.
Proof.
  apply (rw_instrumentation_transparent (F := demo_ops) {| tv_sec := 7; tv_nsec := 0 |} false true 0 500 demo_io
           demo_track 0 zero_usage).
  - exact demo_track_wf.
  - unfold usage_of, demo_track. cbn [syscall_counters tr_heap]. rewrite lookup_singleton_eq. reflexivity.
Defined.
