(* ===== verification/Open.v ===== *)
(** * Opening and closing files (fs/open.c: open, openat, openat2, creat, close)

    From the flags a program passes to an installed descriptor: the translation of
    the flags ([build_open_how], [build_open_flags]), the allocation and release of
    the descriptor and of the path name around the lookup, and close.  The descriptor
    table (fs/file.c) is an interface, the class [FdTable], known through the state of
    each slot; path names and the lookup itself (fs/namei.c) and the flush methods
    are parameters.  openat of this kernel counts itself first ([Track]). *)
From S2P Require Import Prelude UserMem Track.

(** ** Flags (asm-generic/fcntl.h, linux/fs.h, linux/namei.h, linux/openat2.h) *)

Definition O_WRONLY := 1.
Definition O_RDWR := 2.
Definition O_ACCMODE := 3.
Definition O_CREAT := 64.
Definition O_EXCL := 128.
Definition O_TRUNC := 512.
Definition O_APPEND := 1024.
Definition O_DSYNC := 4096.
Definition O_LARGEFILE := 32768.
Definition O_DIRECTORY := 65536.
Definition O_NOFOLLOW := 131072.
Definition O_CLOEXEC := 524288.
Definition __O_SYNC := 1048576.
Definition O_PATH := 2097152.
Definition __O_TMPFILE := 4194304.
(** All flags of open(2): bits 0 to 22 without 2 to 5. *)
Definition VALID_OPEN_FLAGS := 8388547.
Definition O_PATH_FLAGS := Z.lor (Z.lor (Z.lor O_DIRECTORY O_NOFOLLOW) O_PATH) O_CLOEXEC.
Definition __FMODE_NONOTIFY := 67108864.

Definition RESOLVE_NO_XDEV := 1.
Definition RESOLVE_NO_MAGICLINKS := 2.
Definition RESOLVE_NO_SYMLINKS := 4.
Definition RESOLVE_BENEATH := 8.
Definition RESOLVE_IN_ROOT := 16.
Definition RESOLVE_CACHED := 32.
Definition VALID_RESOLVE_FLAGS := 63.

Definition LOOKUP_FOLLOW := 1.
Definition LOOKUP_DIRECTORY := 2.
Definition LOOKUP_OPEN := 256.
Definition LOOKUP_CREATE := 512.
Definition LOOKUP_EXCL := 1024.
Definition LOOKUP_NO_SYMLINKS := 65536.
Definition LOOKUP_NO_MAGICLINKS := 131072.
Definition LOOKUP_NO_XDEV := 262144.
Definition LOOKUP_BENEATH := 524288.
Definition LOOKUP_IN_ROOT := 1048576.
Definition LOOKUP_CACHED := 2097152.

Definition MAY_WRITE := 2.
Definition MAY_READ := 4.
Definition MAY_APPEND := 8.
Definition S_IALLUGO := 4095.
Definition S_IFREG := 32768.

Record open_how := { how_flags : Z; how_mode : Z; how_resolve : Z }.

Record open_flags := {
  open_flag : Z; op_mode : Z; acc_mode : Z; intent : Z; lookup_flags : Z
}.

(** ["\004\002\006\006"[x & O_ACCMODE]] *)
Definition ACC_MODE (x : Z) : Z :=
  let a := Z.land x O_ACCMODE in if a =? 0 then 4 else if a =? 1 then 2 else 6.

Definition WILL_CREATE (flags : Z) : bool := has flags (Z.lor O_CREAT __O_TMPFILE).

Definition build_open_how (flags mode : Z) : open_how :=
  let how_flags := Z.land flags VALID_OPEN_FLAGS in
  let how_mode := Z.land mode S_IALLUGO in
  let how_flags := if has how_flags O_PATH then Z.land how_flags O_PATH_FLAGS else how_flags in
  let how_mode := if negb (WILL_CREATE how_flags) then 0 else how_mode in
  {| how_flags := how_flags; how_mode := how_mode; how_resolve := 0 |}.

(** The mode member, or the error for a mode without creation. *)
Definition open_mode (flags : Z) (how : open_how) : option Z :=
  if WILL_CREATE flags then
    if c_true (clear (how_mode how) S_IALLUGO) then None else Some (Z.lor (how_mode how) S_IFREG)
  else if negb (how_mode how =? 0) then None else Some 0.

(** O_TRUNC needs write permission; append is told apart from write. *)
Definition open_acc_mode (flags acc_mode : Z) : Z :=
  let acc_mode := if has flags O_TRUNC then Z.lor acc_mode MAY_WRITE else acc_mode in
  if has flags O_APPEND then Z.lor acc_mode MAY_APPEND else acc_mode.

Definition creates_excl (flags : Z) : bool := has flags O_CREAT && has flags O_EXCL.

Definition open_intent (flags : Z) : Z :=
  let intent := if has flags O_PATH then 0 else LOOKUP_OPEN in
  let intent := if has flags O_CREAT then Z.lor intent LOOKUP_CREATE else intent in
  if creates_excl flags then Z.lor intent LOOKUP_EXCL else intent.

(** The lookup flags, but for LOOKUP_CACHED. *)
Definition open_lookup (flags resolve : Z) : Z :=
  let l := 0 in
  let l := if has flags O_DIRECTORY then Z.lor l LOOKUP_DIRECTORY else l in
  let l := if negb (has flags O_NOFOLLOW) then Z.lor l LOOKUP_FOLLOW else l in
  let l := if has resolve RESOLVE_NO_XDEV then Z.lor l LOOKUP_NO_XDEV else l in
  let l := if has resolve RESOLVE_NO_MAGICLINKS then Z.lor l LOOKUP_NO_MAGICLINKS else l in
  let l := if has resolve RESOLVE_NO_SYMLINKS then Z.lor l LOOKUP_NO_SYMLINKS else l in
  let l := if has resolve RESOLVE_BENEATH then Z.lor l LOOKUP_BENEATH else l in
  if has resolve RESOLVE_IN_ROOT then Z.lor l LOOKUP_IN_ROOT else l.

Definition build_open_flags (how : open_how) : Z + open_flags :=
  let flags := how_flags how in
  let strip := Z.lor __FMODE_NONOTIFY O_CLOEXEC in
  let acc_mode := ACC_MODE flags in
  let flags := clear flags strip in
  if c_true (clear flags VALID_OPEN_FLAGS) then inl (- EINVAL)
  else if c_true (clear (how_resolve how) VALID_RESOLVE_FLAGS) then inl (- EINVAL)
  else if has (how_resolve how) RESOLVE_BENEATH && has (how_resolve how) RESOLVE_IN_ROOT then inl (- EINVAL)
  else
    match open_mode flags how with
    | None => inl (- EINVAL)
    | Some mode =>
        if Z.land flags (Z.lor O_DIRECTORY O_CREAT) =? Z.lor O_DIRECTORY O_CREAT then inl (- EINVAL)
        else if has flags __O_TMPFILE && negb (has flags O_DIRECTORY) then inl (- EINVAL)
        else if has flags __O_TMPFILE && negb (has acc_mode MAY_WRITE) then inl (- EINVAL)
        else if has flags O_PATH && c_true (clear flags O_PATH_FLAGS) then inl (- EINVAL)
        else
          let acc_mode := if has flags O_PATH then 0 else acc_mode in
          let flags := if has flags __O_SYNC then Z.lor flags O_DSYNC else flags in
          let open_flag := flags in
          let acc_mode := open_acc_mode flags acc_mode in
          let intent := open_intent flags in
          let flags := if creates_excl flags then Z.lor flags O_NOFOLLOW else flags in
          let lookup := open_lookup flags (how_resolve how) in
          if has (how_resolve how) RESOLVE_CACHED && has flags (Z.lor (Z.lor O_TRUNC O_CREAT) __O_TMPFILE)
          then inl (- EAGAIN)
          else
            let lookup := if has (how_resolve how) RESOLVE_CACHED then Z.lor lookup LOOKUP_CACHED else lookup in
            inr {| open_flag := open_flag; op_mode := mode; acc_mode := acc_mode; intent := intent;
                   lookup_flags := lookup |}
    end.

(** ** The descriptor table (fs/file.c) *)

Inductive slot := Free | Reserved | Installed (f : Z).

(** What fs/file.c promises: each operation touches one slot. *)
Class FdTable := {
  fdt : Type;
  fd_slot : fdt -> Z -> slot;
  get_unused_fd_flags : Z -> fdt -> Z * fdt;
  put_unused_fd : Z -> fdt -> fdt;
  fd_install : Z -> Z -> fdt -> fdt;
  file_close_fd : Z -> fdt -> option Z * fdt;
  get_unused_ok : forall fl t fd t', get_unused_fd_flags fl t = (fd, t') -> 0 <= fd ->
    fd_slot t fd = Free /\ forall n, fd_slot t' n = if n =? fd then Reserved else fd_slot t n;
  get_unused_fail : forall fl t fd t', get_unused_fd_flags fl t = (fd, t') -> fd < 0 ->
    forall n, fd_slot t' n = fd_slot t n;
  put_unused_slot : forall fd t, fd_slot t fd = Reserved ->
    forall n, fd_slot (put_unused_fd fd t) n = if n =? fd then Free else fd_slot t n;
  fd_install_slot : forall fd f t, fd_slot t fd = Reserved ->
    forall n, fd_slot (fd_install fd f t) n = if n =? fd then Installed f else fd_slot t n;
  file_close_some : forall fd t f, fd_slot t fd = Installed f ->
    (file_close_fd fd t).1 = Some f /\
    forall n, fd_slot (file_close_fd fd t).2 n = if n =? fd then Free else fd_slot t n;
  file_close_none : forall fd t, (forall f, fd_slot t fd <> Installed f) ->
    (file_close_fd fd t).1 = None /\ forall n, fd_slot (file_close_fd fd t).2 n = fd_slot t n
}.

(** Tables that no descriptor can tell apart. *)
Global Instance fdt_equiv {T : FdTable} : Equiv fdt := fun t t' => forall n, fd_slot t n = fd_slot t' n.

Global Instance fdt_equivalence {T : FdTable} : Equivalence (@equiv fdt _).
Proof.
  split; [by intros t n|by intros t t' H n|]. intros t1 t2 t3 H1 H2 n. by rewrite H1, H2.
Qed.

(** ** The calls *)

Definition AT_FDCWD := -100.
Definition OPEN_HOW_SIZE_VER0 := 24.
Definition FMODE_PATH := 16384.

Class OpenEnv := {
  getname : Z -> Z + Z;                              (** an error, or a name *)
  do_filp_open : Z -> Z -> open_flags -> Z + Z;      (** an error, or a file *)
  getname_kernel : Z -> Z + Z;
  do_file_open_root : Z -> Z -> open_flags -> Z + Z; (** from a root directory *)
  force_o_largefile : bool;
  (** [copy_struct_from_user(&tmp, 24, how, usize)]: an error or the structure *)
  copy_open_how : Z -> Z -> Z + open_how;
  file_count : Z -> Z;
  flush_method : option (Z -> Z);
  f_mode_of : Z -> Z;
  copy_open_how_err : forall p n e, copy_open_how p n = inl e -> e < 0;
  getname_err : forall p e, getname p = inl e -> e < 0;
  filp_open_err : forall d n op e, do_filp_open d n op = inl e -> e < 0;
  getname_kernel_err : forall p e, getname_kernel p = inl e -> e < 0;
  open_root_err : forall r p op e, do_file_open_root r p op = inl e -> e < 0
}.

Section calls.
Context {T : FdTable} {E : OpenEnv}.

(** The table, and the path names and files held by the calls. *)
Record open_state := { table : fdt; names : Z; files : Z; locks_removed : list Z }.

Definition upd_table (t : fdt) (s : open_state) : open_state :=
  {| table := t; names := names s; files := files s; locks_removed := locks_removed s |}.
Definition add_names (d : Z) (s : open_state) : open_state :=
  {| table := table s; names := names s + d; files := files s; locks_removed := locks_removed s |}.
Definition add_files (d : Z) (s : open_state) : open_state :=
  {| table := table s; names := names s; files := files s + d; locks_removed := locks_removed s |}.

Definition do_sys_openat2 (dfd filename : Z) (how : open_how) (s : open_state) : Z * open_state :=
  match build_open_flags how with
  | inl err => (err, s)
  | inr op =>
      match getname filename with
      | inl err => (err, s)
      | inr tmp =>
          let s := add_names 1 s in
          let '(fd, t) := get_unused_fd_flags (how_flags how) (table s) in
          let s := upd_table t s in
          let '(fd, s) :=
            if 0 <=? fd then
              match do_filp_open dfd tmp op with
              | inl err => (err, upd_table (put_unused_fd fd (table s)) s)
              | inr f => (fd, upd_table (fd_install fd f (table s)) (add_files 1 s))
              end
            else (fd, s) in
          (fd, add_names (-1) s)
      end
  end.

(** From inside the kernel: an error, or a file that the caller holds. *)
Definition file_open_name (name flags mode : Z) (s : open_state) : (Z + Z) * open_state :=
  match build_open_flags (build_open_how flags mode) with
  | inl err => (inl err, s)
  | inr op => match do_filp_open AT_FDCWD name op with inl err => (inl err, s) | inr f => (inr f, add_files 1 s) end
  end.

Definition filp_open (filename flags mode : Z) (s : open_state) : (Z + Z) * open_state :=
  match getname_kernel filename with
  | inl err => (inl err, s)
  | inr name => let '(file, s) := file_open_name name flags mode (add_names 1 s) in (file, add_names (-1) s)
  end.

Definition file_open_root (root filename flags mode : Z) (s : open_state) : (Z + Z) * open_state :=
  match build_open_flags (build_open_how flags mode) with
  | inl err => (inl err, s)
  | inr op => match do_file_open_root root filename op with inl err => (inl err, s) | inr f => (inr f, add_files 1 s) end
  end.

Definition do_sys_open (dfd filename flags mode : Z) (s : open_state) : Z * open_state :=
  do_sys_openat2 dfd filename (build_open_how flags mode) s.

Definition large (flags : Z) : Z := if force_o_largefile then Z.lor flags O_LARGEFILE else flags.

Definition sys_open (filename flags mode : Z) (s : open_state) : Z * open_state :=
  do_sys_open AT_FDCWD filename (large flags) mode s.

(** [None]: the counter access was out of bounds. *)
Definition sys_openat (now : timespec64) (dfd filename flags mode : Z) (s : open_state) (tr : track_state)
    : option (Z * open_state * track_state) :=
  match track_syscall now NR_openat tr with
  | None => None
  | Some tr => let '(r, s) := do_sys_open dfd filename (large flags) mode s in Some (r, s, tr)
  end.

Definition sys_openat2 (dfd filename how usize : Z) (s : open_state) : Z * open_state :=
  if usize <? OPEN_HOW_SIZE_VER0 then (- EINVAL, s)
  else
    match copy_open_how how usize with
    | inl err => (err, s)
    | inr tmp =>
        let tmp :=
          if negb (has (how_flags tmp) O_PATH) && force_o_largefile
          then {| how_flags := Z.lor (how_flags tmp) O_LARGEFILE; how_mode := how_mode tmp;
                  how_resolve := how_resolve tmp |}
          else tmp in
        do_sys_openat2 dfd filename tmp s
    end.

Definition compat_open (filename flags mode : Z) (s : open_state) : Z * open_state :=
  do_sys_open AT_FDCWD filename flags mode s.
Definition compat_openat (dfd filename flags mode : Z) (s : open_state) : Z * open_state :=
  do_sys_open dfd filename flags mode s.

Definition sys_creat (pathname mode : Z) (s : open_state) : Z * open_state :=
  do_sys_open AT_FDCWD pathname (large (Z.lor (Z.lor O_CREAT O_WRONLY) O_TRUNC)) mode s.

(** dnotify_flush and locks_remove_posix are recorded together. *)
Definition filp_flush (filp : Z) (s : open_state) : Z * open_state :=
  if file_count filp =? 0 then (0, s)
  else
    let retval := match flush_method with Some m => m filp | None => 0 end in
    if negb (has (f_mode_of filp) FMODE_PATH)
    then (retval, {| table := table s; names := names s; files := files s;
                     locks_removed := filp :: locks_removed s |})
    else (retval, s).

Definition filp_close (filp : Z) (s : open_state) : Z * open_state :=
  let '(retval, s) := filp_flush filp s in (retval, add_files (-1) s).

Definition sys_close (fd : Z) (s : open_state) : Z * open_state :=
  let '(file, t) := file_close_fd fd (table s) in
  let s := upd_table t s in
  match file with
  | None => (- EBADF, s)
  | Some file =>
      let '(retval, s) := filp_flush file s in
      let s := add_files (-1) s in
      ((if (retval =? - ERESTARTSYS) || (retval =? - ERESTARTNOINTR) || (retval =? - ERESTARTNOHAND)
           || (retval =? - ERESTART_RESTARTBLOCK) then - EINTR else retval), s)
  end.

(** [__close_range] is in fs/file.c. *)
Definition sys_close_range (__close_range : Z -> Z -> Z -> open_state -> Z * open_state)
    (fd max_fd flags : Z) (s : open_state) : Z * open_state := __close_range fd max_fd flags s.

(** The answer, and whether the terminal of the caller is hung up. *)
Definition sys_vhangup (capable_tty_config : bool) : Z * bool :=
  if capable_tty_config then (0, true) else (- EPERM, false).

End calls.

(** ** What the lookup can rely on *)

(** The requests build_open_flags accepts, with [f] the flags without the stripped ones. *)
Definition request_ok (how : open_how) (f : Z) : Prop :=
  clear f VALID_OPEN_FLAGS = 0 /\ clear (how_resolve how) VALID_RESOLVE_FLAGS = 0 /\
  (has (how_resolve how) RESOLVE_BENEATH && has (how_resolve how) RESOLVE_IN_ROOT) = false /\
  (if WILL_CREATE f then clear (how_mode how) S_IALLUGO = 0 else how_mode how = 0) /\
  (has f O_DIRECTORY && has f O_CREAT) = false /\
  (has f __O_TMPFILE = true -> has f O_DIRECTORY = true /\ has (ACC_MODE (how_flags how)) MAY_WRITE = true) /\
  (has f O_PATH = true -> clear f O_PATH_FLAGS = 0) /\
  (has (how_resolve how) RESOLVE_CACHED = true ->
   has f (Z.lor (Z.lor O_TRUNC O_CREAT) __O_TMPFILE) = false).

(** [has] of a flag word built by conditional ors, with the closed tests evaluated. *)
Ltac has_norm :=
  repeat (rewrite has_if_lor || rewrite has_lor_r || rewrite has_lor);
  repeat match goal with
  | |- context [has ?a ?b] =>
      is_const a; is_const b;
      let v := eval vm_compute in (has a b) in
      match v with true => change (has a b) with true | false => change (has a b) with false end
  end;
  repeat (rewrite andb_true_r || rewrite andb_false_r || rewrite orb_false_r || rewrite orb_true_r).

(** The stripped flags, and the words computed from them. *)
Definition stripped (how : open_how) : Z := clear (how_flags how) (Z.lor __FMODE_NONOTIFY O_CLOEXEC).

Definition synced (f : Z) : Z := if has f __O_SYNC then Z.lor f O_DSYNC else f.

Lemma has_synced f k : has (synced f) k = has f k || (has f __O_SYNC && has O_DSYNC k).
Proof. apply has_if_lor. Qed.

Lemma build_open_flags_inv how op :
  build_open_flags how = inr op ->
  request_ok how (stripped how) /\ open_flag op = synced (stripped how) /\
  op_mode op = (if WILL_CREATE (stripped how) then Z.lor (how_mode how) S_IFREG else 0) /\
  acc_mode op = open_acc_mode (synced (stripped how))
                  (if has (stripped how) O_PATH then 0 else ACC_MODE (how_flags how)) /\
  intent op = open_intent (synced (stripped how)) /\
  lookup_flags op =
    (let f := synced (stripped how) in
     let l := open_lookup (if creates_excl f then Z.lor f O_NOFOLLOW else f) (how_resolve how) in
     if has (how_resolve how) RESOLVE_CACHED then Z.lor l LOOKUP_CACHED else l).
Proof.
  unfold build_open_flags. cbv zeta. fold (stripped how).
  generalize (stripped how). intros f H.
  rewrite land_both in H by (power 16 || power 6). unfold open_mode in H.
  do 3 (case_if_in H; [done|]). apply c_true_false in Hif, Hif0.
  assert (Hm : exists mode, (if WILL_CREATE f then clear (how_mode how) S_IALLUGO = 0 else how_mode how = 0) /\
    mode = (if WILL_CREATE f then Z.lor (how_mode how) S_IFREG else 0) /\
    (if WILL_CREATE f
     then if c_true (clear (how_mode how) S_IALLUGO) then None else Some (Z.lor (how_mode how) S_IFREG)
     else if negb (how_mode how =? 0) then None else Some 0) = Some mode).
  { destruct (WILL_CREATE f).
    - destruct (c_true _) eqn:E in H; [done|]. rewrite E. apply c_true_false in E. eauto.
    - destruct (how_mode how =? 0) eqn:E in H; [|done]. rewrite E. cbn [negb]. bool_hyps. eauto. }
  destruct Hm as (mode & Hm1 & Hm2 & Hm3). rewrite Hm3 in H. clear Hm3. cbv iota in H.
  do 4 (case_if_in H; [done|]). fold (synced f) in H.
  match type of H with (if ?b && has ?a ?m then _ else _) = _ =>
    assert (Hcr : has a m = has f m) end.
  { has_norm. rewrite !has_synced. has_norm. done. }
  rewrite Hcr in H. case_if_in H; [done|]. injection H as <-.
  cbn [open_flag op_mode acc_mode intent lookup_flags].
  split; [|done]. unfold request_ok. do 5 (split; [done|]). bool_hyps.
  split; [|split].
  - intros Ht. rewrite Ht in *. destruct Hif3 as [|?%negb_false_iff], Hif4 as [|?%negb_false_iff]; done.
  - intros Hp. rewrite Hp in *. destruct Hif5 as [|]; [done|]. by apply c_true_false.
  - intros Hc. rewrite Hc in *. destruct Hif6 as [|]; done.
Qed.

Lemma acc_mode_bits x :
  has (ACC_MODE x) MAY_WRITE = negb (Z.land x O_ACCMODE =? 0) /\
  has (ACC_MODE x) MAY_READ = negb (Z.land x O_ACCMODE =? 1) /\ has (ACC_MODE x) MAY_APPEND = false.
Proof. unfold ACC_MODE. cbv zeta. destruct (Z.eqb_spec (Z.land x O_ACCMODE) 0) as [->|]; [done|]. by case_if. Qed.

(** What O_PATH leaves. *)
Lemma path_only f : clear f O_PATH_FLAGS = 0 ->
  has f O_TRUNC = false /\ has f O_APPEND = false /\ has f O_CREAT = false /\ has f __O_SYNC = false /\
  WILL_CREATE f = false.
Proof. intros H. repeat split; by apply (clear_zero_has f O_PATH_FLAGS). Qed.

(** What the lookup in fs/namei.c is told, in terms of the flags it gets. *)
Definition op_consistent (how : open_how) (op : open_flags) : Prop :=
  let fl := open_flag op in
  clear fl VALID_OPEN_FLAGS = 0 /\ has fl O_CLOEXEC = false /\
  (has fl O_CREAT = true -> has fl O_DIRECTORY = false) /\
  (has fl __O_TMPFILE = true -> has fl O_DIRECTORY = true /\ has (acc_mode op) MAY_WRITE = true) /\
  (has fl __O_SYNC = true -> has fl O_DSYNC = true) /\
  op_mode op = (if WILL_CREATE fl then Z.lor (how_mode how) S_IFREG else 0) /\
  clear (op_mode op) (Z.lor S_IALLUGO S_IFREG) = 0.

Definition op_access (op : open_flags) : Prop :=
  let fl := open_flag op in
  if has fl O_PATH then acc_mode op = 0 /\ intent op = 0 /\ clear fl O_PATH_FLAGS = 0
  else
    has (acc_mode op) MAY_WRITE = has fl O_TRUNC || negb (Z.land fl O_ACCMODE =? 0) /\
    has (acc_mode op) MAY_READ = negb (Z.land fl O_ACCMODE =? 1) /\
    has (acc_mode op) MAY_APPEND = has fl O_APPEND /\
    has (intent op) LOOKUP_OPEN = true /\ has (intent op) LOOKUP_CREATE = has fl O_CREAT.

Definition op_lookup (how : open_how) (op : open_flags) : Prop :=
  let fl := open_flag op in
  let l := lookup_flags op in
  has l LOOKUP_FOLLOW = negb (has fl O_NOFOLLOW || creates_excl fl) /\
  has l LOOKUP_DIRECTORY = has fl O_DIRECTORY /\
  has l LOOKUP_NO_XDEV = has (how_resolve how) RESOLVE_NO_XDEV /\
  has l LOOKUP_NO_MAGICLINKS = has (how_resolve how) RESOLVE_NO_MAGICLINKS /\
  has l LOOKUP_NO_SYMLINKS = has (how_resolve how) RESOLVE_NO_SYMLINKS /\
  has l LOOKUP_BENEATH = has (how_resolve how) RESOLVE_BENEATH /\
  has l LOOKUP_IN_ROOT = has (how_resolve how) RESOLVE_IN_ROOT /\
  has l LOOKUP_BENEATH && has l LOOKUP_IN_ROOT = false /\
  (has l LOOKUP_CACHED = true -> has fl O_TRUNC = false /\ WILL_CREATE fl = false).

Lemma op_lookup_ok how op : build_open_flags how = inr op -> op_lookup how op.
Proof.
  intros H. apply build_open_flags_inv in H as (R & Hf & _ & _ & _ & Hl).
  destruct R as (_ & _ & Hx & _ & _ & _ & _ & Hc). revert Hf Hc Hl.
  generalize (stripped how). intros f Hf Hc Hl. unfold op_lookup. cbv zeta in Hl |- *.
  rewrite Hf, Hl. unfold open_lookup. cbv zeta. revert Hc.
  unfold creates_excl, WILL_CREATE. has_norm. rewrite !has_synced. has_norm.
  rewrite !has_zero_l, !orb_false_l. intros Hc. split_and!; try done.
  intros Hr. specialize (Hc Hr). rewrite <- orb_assoc in Hc. by apply orb_false_iff.
Qed.

Lemma op_access_ok how op : build_open_flags how = inr op -> op_access op.
Proof.
  intros H. apply build_open_flags_inv in H as (R & Hf & _ & Ha & Hi & _).
  destruct R as (_ & _ & _ & _ & _ & _ & Hp & _).
  assert (Hacc : Z.land (stripped how) O_ACCMODE = Z.land (how_flags how) O_ACCMODE)
    by (by apply land_clear_disjoint).
  destruct (acc_mode_bits (how_flags how)) as (A1 & A2 & A3). rewrite <- Hacc in A1, A2. clear Hacc.
  revert Hf Hp Ha Hi A1 A2. generalize (stripped how). intros f Hf Hp Ha Hi A1 A2.
  unfold op_access. cbv zeta. rewrite Hf, Ha, Hi. clear Hf Ha Hi.
  assert (Hs : Z.land (synced f) O_ACCMODE = Z.land f O_ACCMODE).
  { unfold synced. case_if; [|done]. rewrite Z.land_lor_distr_l. apply Z.lor_0_r. }
  rewrite Hs. clear Hs. unfold open_acc_mode, open_intent, creates_excl. cbv zeta.
  rewrite !has_synced. has_norm. destruct (has f O_PATH) eqn:Ep.
  - specialize (Hp eq_refl). destruct (path_only f Hp) as (P1 & P2 & P3 & P4 & _).
    rewrite P1, P2, P3. cbn [andb]. unfold synced. by rewrite P4.
  - has_norm. rewrite A1, A2, A3. by rewrite (orb_comm (negb _)).
Qed.

Lemma op_consistent_ok how op : build_open_flags how = inr op -> op_consistent how op.
Proof.
  intros H. pose proof (op_access_ok how op H) as Hacc. apply build_open_flags_inv in H as (R & Hf & Hm & Ha & _ & _).
  destruct R as (Hv & _ & _ & Hmode & Hdc & Ht & Hp & _).
  assert (Hce : has (stripped how) O_CLOEXEC = false).
  { unfold stripped. rewrite has_clear. apply has_zero. }
  revert Hacc. unfold op_consistent, op_access. cbv zeta. rewrite Hf, Hm.
  revert Hv Hmode Hdc Ht Hp Hce Ha. generalize (stripped how). intros f Hv Hmode Hdc Ht Hp Hce Ha.
  assert (Hw : WILL_CREATE (synced f) = WILL_CREATE f) by (unfold WILL_CREATE; has_norm; rewrite !has_synced; by has_norm).
  rewrite Hw, Ha. unfold open_acc_mode. cbv zeta. rewrite !has_synced. has_norm. intros _.
  split_and!.
  - unfold synced. case_if; [|done]. by rewrite clear_lor, Hv.
  - done.
  - intros Hc. rewrite Hc, andb_true_r in Hdc. done.
  - intros Htmp. destruct (Ht Htmp) as [Hd Hwr]. split; [done|].
    destruct (has f O_PATH) eqn:Ep; [|by rewrite Hwr].
    specialize (Hp eq_refl). apply (clear_zero_has _ _ __O_TMPFILE) in Hp; [congruence|done].
  - intros Hs. rewrite Hs. apply orb_true_r.
  - done.
  - destruct (WILL_CREATE f); [|done]. rewrite clear_lor.
    replace (clear S_IFREG (Z.lor S_IALLUGO S_IFREG)) with 0 by done. rewrite Z.lor_0_r.
    unfold clear in *. by rewrite <- Z.ldiff_ldiff_l, Hmode.
Qed.

(** With no resolve flags and a mode that fits, only two combinations are refused. *)
Definition bad_combination (f : Z) (acc : Z) : bool :=
  has f O_DIRECTORY && has f O_CREAT ||
  has f __O_TMPFILE && (negb (has f O_DIRECTORY) || negb (has acc MAY_WRITE)).

Lemma build_open_flags_legacy fl mode :
  let f := clear fl (Z.lor __FMODE_NONOTIFY O_CLOEXEC) in
  clear f VALID_OPEN_FLAGS = 0 ->
  (if WILL_CREATE f then clear mode S_IALLUGO = 0 else mode = 0) ->
  (has f O_PATH = true -> clear f O_PATH_FLAGS = 0) ->
  let r := build_open_flags {| how_flags := fl; how_mode := mode; how_resolve := 0 |} in
  if bad_combination f (ACC_MODE fl) then r = inl (- EINVAL) else exists op, r = inr op.
Proof.
  intros f Hv Hm Hp. cbv zeta. unfold build_open_flags. cbn [how_flags how_mode how_resolve]. fold f.
  rewrite Hv, !has_zero_l. cbn [c_true Z.eqb negb andb clear Z.ldiff].
  assert (open_mode f {| how_flags := fl; how_mode := mode; how_resolve := 0 |} =
          Some (if WILL_CREATE f then Z.lor mode S_IFREG else 0)) as ->.
  { unfold open_mode. cbn [how_mode]. destruct (WILL_CREATE f); rewrite Hm; done. }
  rewrite land_both by (power 16 || power 6). cbv zeta iota. unfold bad_combination.
  assert (has f O_PATH && c_true (clear f O_PATH_FLAGS) = false) as ->.
  { destruct (has f O_PATH); [by rewrite Hp|done]. }
  destruct (has f O_DIRECTORY && has f O_CREAT); [done|].
  destruct (has f __O_TMPFILE); [|by eexists]. cbn [andb orb].
  destruct (has f O_DIRECTORY); [|done]. destruct (has (ACC_MODE fl) MAY_WRITE); [by eexists|done].
Qed.

(** The flag combinations that the legacy calls refuse. *)
Definition legacy_refused (flags : Z) : bool :=
  negb (has flags O_PATH) &&
  (has flags O_DIRECTORY && has flags O_CREAT ||
   has flags __O_TMPFILE && (negb (has flags O_DIRECTORY) || (Z.land flags O_ACCMODE =? 0))).

Lemma legacy_flags_accepted flags mode :
  let r := build_open_flags (build_open_how flags mode) in
  if legacy_refused flags then r = inl (- EINVAL) else exists op, r = inr op.
Proof.
  cbv zeta. unfold build_open_how. cbv zeta. set (V := Z.land flags VALID_OPEN_FLAGS).
  assert (Hin : forall k, Z.land VALID_OPEN_FLAGS k = k -> has V k = has flags k).
  { intros k Hk. unfold V. by rewrite has_land, Hk. }
  set (fl := if has V O_PATH then Z.land V O_PATH_FLAGS else V).
  set (f := clear fl (Z.lor __FMODE_NONOTIFY O_CLOEXEC)).
  assert (Hcr : WILL_CREATE f = WILL_CREATE fl) by (unfold WILL_CREATE, f; by rewrite has_clear).
  assert (Hv : clear f VALID_OPEN_FLAGS = 0).
  { unfold f, fl, V. case_if; [rewrite <- Z.land_assoc|]; by apply clear_land_sub. }
  assert (Hm : if WILL_CREATE f
               then clear (if negb (WILL_CREATE fl) then 0 else Z.land mode S_IALLUGO) S_IALLUGO = 0
               else (if negb (WILL_CREATE fl) then 0 else Z.land mode S_IALLUGO) = 0).
  { rewrite Hcr. destruct (WILL_CREATE fl); [|done]. cbn [negb].
    rewrite <- (clear_land_sub mode S_IALLUGO S_IALLUGO 0) by done. f_equal. unfold clear. by rewrite Z.ldiff_0_r. }
  assert (Hp : has f O_PATH = true -> clear f O_PATH_FLAGS = 0).
  { unfold f, fl. destruct (has V O_PATH) eqn:Ep; [intros _; by apply clear_land_sub|].
    rewrite has_clear. change (clear O_PATH _) with O_PATH. congruence. }
  pose proof (build_open_flags_legacy fl _ Hv Hm Hp) as H. cbv zeta in H. fold f in H.
  assert (bad_combination f (ACC_MODE fl) = legacy_refused flags) as <-; [|exact H].
  unfold bad_combination, legacy_refused. destruct (acc_mode_bits fl) as (-> & _ & _).
  unfold f. rewrite !has_clear. unfold fl. rewrite <- (Hin O_PATH) by done.
  destruct (has V O_PATH) eqn:Ep; cbn [negb andb].
  - rewrite !has_land. rewrite (has_zero_eq V (Z.land O_PATH_FLAGS (clear O_CREAT _))) by done.
    rewrite (has_zero_eq V (Z.land O_PATH_FLAGS (clear __O_TMPFILE _))) by done. by rewrite andb_false_r.
  - rewrite negb_involutive.
    assert (Z.land V O_ACCMODE = Z.land flags O_ACCMODE) as -> by (unfold V; by rewrite <- Z.land_assoc).
    rewrite <- (Hin O_DIRECTORY), <- (Hin O_CREAT), <- (Hin __O_TMPFILE) by done. done.
Qed.

(** ** Theorems *)

Section theorems.
Context {T : FdTable} {E : OpenEnv}.

(** What open tells the lookup: whenever the flags are accepted, the lookup gets
    only known flags and never the close-on-exec one, no flag of the program is lost,
    O_CREAT and O_DIRECTORY are not both set, O_TMPFILE comes with a writable
    directory, O_SYNC always syncs data, O_PATH asks for no access at all, otherwise
    write, read and append permission are asked for exactly when the access mode,
    O_TRUNC and O_APPEND say so, exclusive creation never follows a symbolic link,
    each resolve restriction is passed on, and a cached-only lookup never creates or
    truncates. *)
Theorem open_flags_contract how op :
  build_open_flags how = inr op ->
  op_consistent how op /\ op_access op /\ op_lookup how op /\
  forall k, Z.land k (Z.lor __FMODE_NONOTIFY O_CLOEXEC) = 0 ->
    has (how_flags how) k = true -> has (open_flag op) k = true.
Proof.
  intros H. split; [by apply op_consistent_ok|]. split; [by eapply op_access_ok|].
  split; [by apply op_lookup_ok|]. intros k Hk Hf.
  apply build_open_flags_inv in H as (_ & -> & _). rewrite has_synced. unfold stripped. apply orb_true_iff. left.
  unfold has in *. by rewrite land_clear_disjoint by (by rewrite Z.land_comm).
Qed.

(** Which flag words the legacy calls refuse: whatever 32-bit flags and mode a
    program passes to open, openat or creat, unknown bits are ignored and the only
    refusals are EINVAL for O_CREAT with O_DIRECTORY and for O_TMPFILE without a
    writable directory, neither of them when O_PATH is set. *)
Theorem open_legacy_total flags mode :
  let r := build_open_flags (build_open_how flags mode) in
  if legacy_refused flags then r = inl (- EINVAL) else exists op, r = inr op.
Proof. apply legacy_flags_accepted. Qed.

Lemma build_open_flags_err how e : build_open_flags how = inl e -> e < 0.
Proof.
  unfold build_open_flags. cbv zeta. repeat (case_if; [intros [= <-]; done|]).
  destruct (open_mode _ _); [|intros [= <-]; done]. repeat (case_if; [intros [= <-]; done|]). done.
Qed.

Inductive open_call :=
| Open (filename flags mode : Z) | Openat (dfd filename flags mode : Z)
| Openat2 (dfd filename how usize : Z) | Creat (pathname mode : Z)
| CompatOpen (filename flags mode : Z) | CompatOpenat (dfd filename flags mode : Z).

(** openat behind its counter. *)
Definition open_exec (c : open_call) (s : open_state) : Z * open_state :=
  match c with
  | Open p f m => sys_open p f m s
  | Openat d p f m => do_sys_open d p (large f) m s
  | Openat2 d p h n => sys_openat2 d p h n s
  | Creat p m => sys_creat p m s
  | CompatOpen p f m => compat_open p f m s
  | CompatOpenat d p f m => compat_openat d p f m s
  end.

(** Nothing happened, or one free slot now holds the file the lookup answered. *)
Definition open_outcome (s : open_state) (r : Z) (s' : open_state) : Prop :=
  names s' = names s /\ locks_removed s' = locks_removed s /\
  (r < 0 /\ table s' ≡ table s /\ files s' = files s \/
   0 <= r /\ fd_slot (table s) r = Free /\ files s' = files s + 1 /\
   exists f how op dfd name, build_open_flags how = inr op /\ do_filp_open dfd name op = inr f /\
     forall n, fd_slot (table s') n = if n =? r then Installed f else fd_slot (table s) n).

Lemma do_sys_openat2_outcome dfd filename how s :
  open_outcome s (do_sys_openat2 dfd filename how s).1 (do_sys_openat2 dfd filename how s).2.
Proof.
  unfold do_sys_openat2.
  destruct (build_open_flags how) as [e|op] eqn:Hb.
  { split; [done|]. split; [done|]. left. by split; [eapply build_open_flags_err|]. }
  destruct (getname filename) as [e|tmp] eqn:Hn.
  { split; [done|]. split; [done|]. left. by split; [eapply getname_err|]. }
  cbv zeta. cbn [table add_names].
  destruct (get_unused_fd_flags (how_flags how) (table s)) as [fd t] eqn:Hg.
  destruct (Z.leb_spec 0 fd) as [Hfd|Hfd].
  - destruct (get_unused_ok _ _ _ _ Hg Hfd) as [Hfree Ht].
    assert (Hres : fd_slot t fd = Reserved) by (rewrite Ht, Z.eqb_refl; done).
    destruct (do_filp_open dfd tmp op) as [e|f] eqn:Ho; (split; [cbn; lia|]); (split; [done|]).
    + left. split; [by eapply filp_open_err|]. split; [|done]. intros n. cbn.
      rewrite (put_unused_slot fd t Hres), Ht. destruct (Z.eqb_spec n fd) as [->|]; done.
    + right. split; [done|]. split; [done|]. split; [done|]. exists f, how, op, dfd, tmp.
      split; [done|]. split; [done|]. intros n. cbn. rewrite (fd_install_slot fd f t Hres), Ht. by case_if.
  - split; [cbn; lia|]. split; [done|]. left. split; [done|]. split; [|done].
    intros n. cbn. by apply (get_unused_fail _ _ _ _ Hg).
Qed.

Lemma open_exec_outcome c s : open_outcome s (open_exec c s).1 (open_exec c s).2.
Proof.
  destruct c; try apply do_sys_openat2_outcome. cbn [open_exec]. unfold sys_openat2.
  case_if; [split; [done|]; split; [done|]; left; split; [done|]; done|].
  destruct (copy_open_how how usize) as [e|h] eqn:Hc; [|apply do_sys_openat2_outcome].
  split; [done|]. split; [done|]. left. by split; [eapply copy_open_how_err|].
Qed.

(** C36: no open call leaks: on every path of open, openat, openat2, creat and the
    compat versions the path name is released; an error leaves every descriptor as it
    was, with no slot left reserved and no file open; a success turns exactly one free
    slot, the one whose number is returned, into the file the lookup answered. *)
Theorem open_leak_free c s : open_outcome s (open_exec c s).1 (open_exec c s).2.
Proof. apply open_exec_outcome. Qed.

(** A file opened inside the kernel is closed by filp_close; an error holds nothing. *)
Definition kernel_open_outcome (s : open_state) (r : (Z + Z) * open_state) : Prop :=
  table r.2 = table s /\ names r.2 = names s /\ locks_removed r.2 = locks_removed s /\
  match r.1 with inl e => e < 0 /\ files r.2 = files s | inr f => files (filp_close f r.2).2 = files s end.

Lemma filp_close_files f s : files (filp_close f s).2 = files s - 1.
Proof. unfold filp_close, filp_flush. case_if; [done|]. cbv zeta. by case_if. Qed.

Lemma kernel_opens filename root flags mode s :
  kernel_open_outcome s (filp_open filename flags mode s) /\ kernel_open_outcome s (file_open_root root filename flags mode s).
Proof.
  assert (Hn : forall name q, names q = names s + 1 -> table q = table s -> files q = files s -> locks_removed q = locks_removed s ->
    kernel_open_outcome s (let '(file, q) := file_open_name name flags mode q in (file, add_names (-1) q))).
  { intros name q H1 H2 H3 H4. unfold file_open_name. destruct (build_open_flags _) as [e|op] eqn:Hb; [|destruct (do_filp_open _ _ _) as [e|f] eqn:Ho];
      unfold kernel_open_outcome; cbn [fst snd]; rewrite ?filp_close_files; cbn; split_and!; try done; try lia.
    - by eapply build_open_flags_err.
    - by eapply filp_open_err. }
  split.
  - unfold filp_open. destruct (getname_kernel filename) as [e|name] eqn:Hg; [|by apply Hn].
    unfold kernel_open_outcome. cbn. split_and!; try done. by eapply getname_kernel_err.
  - unfold file_open_root. destruct (build_open_flags _) as [e|op] eqn:Hb; [|destruct (do_file_open_root _ _ _) as [e|f] eqn:Ho];
      unfold kernel_open_outcome; cbn [fst snd]; rewrite ?filp_close_files; cbn; split_and!; try done; try lia.
    + by eapply build_open_flags_err.
    + by eapply open_root_err.
Qed.

(** The answers after which a system call is restarted. *)
Definition restart_code (r : Z) : Prop :=
  In r [- ERESTARTSYS; - ERESTARTNOINTR; - ERESTARTNOHAND; - ERESTART_RESTARTBLOCK].

Lemma filp_flush_keeps f s :
  table (filp_flush f s).2 = table s /\ names (filp_flush f s).2 = names s /\ files (filp_flush f s).2 = files s.
Proof. unfold filp_flush. case_if; [done|]. cbv zeta. by case_if. Qed.

Lemma sys_close_installed fd s f : fd_slot (table s) fd = Installed f ->
  let '(r, s') := sys_close fd s in
  (forall n, fd_slot (table s') n = if n =? fd then Free else fd_slot (table s) n) /\
  files s' = files s - 1 /\ names s' = names s /\ ~ restart_code r.
Proof.
  intros H. apply file_close_some in H as [H1 H2]. unfold sys_close.
  destruct (file_close_fd fd (table s)) as [o t]. cbn in H1, H2. subst o. cbv zeta.
  destruct (filp_flush_keeps f (upd_table t s)) as (K1 & K2 & K3).
  destruct (filp_flush f (upd_table t s)) as [r s1]. cbn in K1, K2, K3 |- *.
  split; [by rewrite K1|]. split; [lia|]. split; [done|].
  unfold restart_code, ERESTARTSYS, ERESTARTNOINTR, ERESTARTNOHAND, ERESTART_RESTARTBLOCK, EINTR in *.
  case_if; cbn [In]; bool_hyps; lia.
Qed.

Lemma sys_close_other fd s : (forall f, fd_slot (table s) fd <> Installed f) ->
  (sys_close fd s).1 = - EBADF /\ table (sys_close fd s).2 ≡ table s /\ files (sys_close fd s).2 = files s.
Proof.
  intros H. apply file_close_none in H as [H1 H2]. unfold sys_close.
  destruct (file_close_fd fd (table s)) as [o t]. cbn in H1, H2. by subst o.
Qed.

(** Open and close undo each other: after a successful open, closing the answered
    descriptor restores every slot and the number of open files, whatever the flush
    method answers, never reports a code that would restart the call on a descriptor
    that is gone, and a second close answers EBADF and changes nothing. *)
Theorem open_close_roundtrip c s fd s1 r s2 :
  open_exec c s = (fd, s1) -> 0 <= fd -> sys_close fd s1 = (r, s2) ->
  table s2 ≡ table s /\ files s2 = files s /\ names s2 = names s /\ ~ restart_code r /\
  (sys_close fd s2).1 = - EBADF /\ table (sys_close fd s2).2 ≡ table s.
Proof.
  intros Ho Hfd Hc. pose proof (open_exec_outcome c s) as H. rewrite Ho in H. cbn [fst snd] in H.
  destruct H as (Hn & _ & [[? _]|(_ & Hfree & Hf & f & _ & _ & _ & _ & _ & _ & Ht)]); [lia|].
  assert (Hi : fd_slot (table s1) fd = Installed f) by (by rewrite Ht, Z.eqb_refl).
  pose proof (sys_close_installed fd s1 f Hi) as H. rewrite Hc in H. destruct H as (Ht2 & Hf2 & Hn2 & Hr).
  assert (Heq : table s2 ≡ table s).
  { intros n. rewrite Ht2, Ht. destruct (Z.eqb_spec n fd) as [->|]; done. }
  destruct (sys_close_other fd s2) as (C1 & C2 & _); [intros g; rewrite Heq, Hfree; done|].
  split; [done|]. split; [lia|]. split; [lia|]. split; [done|]. split; [done|]. by rewrite C2.
Qed.

(** The instrumentation of openat is transparent: with an allocated counter array
    it opens exactly what the uninstrumented call opens, counts itself once and no
    other call, and never faults in the counter. *)
Theorem openat_instrumentation_transparent now dfd filename flags mode s tr i u :
  track_wf tr -> usage_of tr i = Some u ->
  exists tr',
    sys_openat now dfd filename flags mode s tr = Some (open_exec (Openat dfd filename flags mode) s, tr') /\
    usage_of tr' i = Some (if NR_openat =? Z.of_nat i then bump now u else u).
Proof.
  intros Hwf Hu. destruct (track_syscall_usage now NR_openat tr i u Hwf) as (tr' & Ht & _ & Hu'); [done..|].
  exists tr'. split; [|done]. unfold sys_openat. rewrite Ht. cbn [open_exec]. by destruct (do_sys_open _ _ _ _ _).
Qed.

End theorems.

(** ** A concrete table of 64 descriptors *)

Definition EMFILE := 24.

Definition table_slot (t : gmap Z (option Z)) (n : Z) : slot :=
  match t !! n with None => Free | Some None => Reserved | Some (Some f) => Installed f end.

Definition first_free (t : gmap Z (option Z)) : option Z :=
  head (filter (fun n => t !! n = None) (seqZ 0 64)).

Definition alloc_fd (t : gmap Z (option Z)) : Z * gmap Z (option Z) :=
  match first_free t with Some n => (n, <[n := None]> t) | None => (- EMFILE, t) end.

Definition close_slot (fd : Z) (t : gmap Z (option Z)) : option Z * gmap Z (option Z) :=
  match t !! fd with Some (Some f) => (Some f, delete fd t) | _ => (None, t) end.

Lemma table_slot_insert t k v n :
  table_slot (<[k := v]> t) n = if n =? k then match v with None => Reserved | Some f => Installed f end else table_slot t n.
Proof.
  unfold table_slot. destruct (Z.eqb_spec n k) as [->|]; [by rewrite lookup_insert_eq|by rewrite lookup_insert_ne].
Qed.

Lemma table_slot_delete t k n : table_slot (delete k t) n = if n =? k then Free else table_slot t n.
Proof.
  unfold table_slot. destruct (Z.eqb_spec n k) as [->|]; [by rewrite lookup_delete_eq|by rewrite lookup_delete_ne].
Qed.

Lemma first_free_spec t n : first_free t = Some n -> 0 <= n /\ table_slot t n = Free.
Proof.
  unfold first_free. intros H. apply head_Some_elem_of in H.
  apply list_elem_of_filter in H as [H1 H2]. apply elem_of_seqZ in H2.
  split; [lia|]. unfold table_slot. by rewrite H1.
Qed.

Lemma alloc_fd_ok t fd t' : alloc_fd t = (fd, t') -> 0 <= fd ->
  table_slot t fd = Free /\ forall n, table_slot t' n = if n =? fd then Reserved else table_slot t n.
Proof.
  unfold alloc_fd. destruct (first_free t) as [k|] eqn:H; intros [= <- <-] Hp; [|done].
  apply first_free_spec in H as [_ H]. split; [done|]. intros n. apply table_slot_insert.
Qed.

Lemma alloc_fd_fail t fd t' : alloc_fd t = (fd, t') -> fd < 0 -> forall n, table_slot t' n = table_slot t n.
Proof.
  unfold alloc_fd. destruct (first_free t) as [k|] eqn:H; intros [= <- <-] Hp; [|done].
  apply first_free_spec in H as [? _]. lia.
Qed.

Lemma close_slot_some fd t f : table_slot t fd = Installed f ->
  (close_slot fd t).1 = Some f /\ forall n, table_slot (close_slot fd t).2 n = if n =? fd then Free else table_slot t n.
Proof.
  unfold close_slot. unfold table_slot at 1. destruct (t !! fd) as [[g|]|]; intros [= ->].
  split; [done|]. intros n. apply table_slot_delete.
Qed.

Lemma close_slot_none fd t : (forall f, table_slot t fd <> Installed f) ->
  (close_slot fd t).1 = None /\ forall n, table_slot (close_slot fd t).2 n = table_slot t n.
Proof.
  unfold close_slot. unfold table_slot at 1. destruct (t !! fd) as [[g|]|]; [|done..].
  intros H. by destruct (H g).
Qed.

Definition SmallTable : FdTable := {|
  fdt := gmap Z (option Z); fd_slot := table_slot;
  get_unused_fd_flags := fun _ => alloc_fd;
  put_unused_fd := fun fd t => delete fd t;
  fd_install := fun fd f t => <[fd := Some f]> t;
  file_close_fd := close_slot;
  get_unused_ok := fun _ => alloc_fd_ok;
  get_unused_fail := fun _ => alloc_fd_fail;
  put_unused_slot := fun fd t _ n => table_slot_delete t fd n;
  fd_install_slot := fun fd f t _ n => table_slot_insert t fd (Some f) n;
  file_close_some := close_slot_some;
  file_close_none := close_slot_none |}.

(** The file at path 1 opens; flushing it is interrupted. *)
Program Definition demo_open_env : OpenEnv := {|
  getname := fun p => if p =? 0 then inl (- ENOENT) else inr p;
  do_filp_open := fun _ n op => if n =? 1 then inr 77 else inl (- ENOENT);
  getname_kernel := fun p => inr p;
  do_file_open_root := fun _ _ _ => inr 9;
  force_o_largefile := true;
  copy_open_how := fun _ _ => inr {| how_flags := 0; how_mode := 0; how_resolve := 0 |};
  file_count := fun _ => 1;
  flush_method := Some (fun _ => - ERESTARTSYS);
  f_mode_of := fun _ => 3 |}.
Next Obligation. done. Qed.
Next Obligation. intros p e. cbn. case_if; [by intros [= <-]|done]. Qed.
Next Obligation. intros d n op e. cbn. case_if; [done|by intros [= <-]]. Qed.
Next Obligation. done. Qed.
Next Obligation. done. Qed.

Definition demo_files : open_state (T := SmallTable) :=
  {| table := ({[0 := Some 5; 1 := Some 6]} : @fdt SmallTable); names := 0; files := 2; locks_removed := [] |}.

Lemma open_flags_contract_witness :
  exists op, build_open_flags (build_open_how (O_CREAT + O_EXCL + O_WRONLY + __O_SYNC) 420) = inr op /\
    op_lookup (build_open_how (O_CREAT + O_EXCL + O_WRONLY + __O_SYNC) 420) op.
Proof. eexists. split; [reflexivity|]. apply open_flags_contract. reflexivity. Defined.

Lemma open_close_roundtrip_witness :
  exists s1 r s2, open_exec (T := SmallTable) (E := demo_open_env) (Open 1 O_RDWR 0) demo_files = (2, s1) /\
    sys_close (T := SmallTable) (E := demo_open_env) 2 s1 = (r, s2) /\ r = - EINTR /\
    files (T := SmallTable) s2 = 2.
Proof.
  do 3 eexists. split; [reflexivity|]. split; [reflexivity|]. split; [reflexivity|].
  eapply (open_close_roundtrip (T := SmallTable) (E := demo_open_env) (Open 1 O_RDWR 0) demo_files);
    [reflexivity|done|reflexivity].
Defined.

Lemma openat_instrumentation_transparent_witness :
  exists tr', sys_openat (T := SmallTable) (E := demo_open_env) {| tv_sec := 7; tv_nsec := 0 |} AT_FDCWD 1 0 0
      demo_files demo_track =
    Some (open_exec (T := SmallTable) (E := demo_open_env) (Openat AT_FDCWD 1 0 0) demo_files, tr') /\
    usage_of tr' 257 = Some {| count := 1; time_last_used := {| tv_sec := 7; tv_nsec := 0 |} |}.
Proof.
  apply (openat_instrumentation_transparent (T := SmallTable) (E := demo_open_env) {| tv_sec := 7; tv_nsec := 0 |}
           AT_FDCWD 1 0 0 demo_files demo_track 257 zero_usage).
  - exact demo_track_wf.
  - unfold usage_of, demo_track. cbn [syscall_counters tr_heap]. rewrite lookup_singleton_eq. reflexivity.
Defined.
