(* ===== verification/DentryOpen.v ===== *)
(** * Making a file from a path (fs/open.c: do_dentry_open and its callers)

    The open file is built step by step; each step takes a reference or an access
    right that a failure must give back: the path, the readers' or writers' count of
    the inode, the writers' count of the mounts, the method table.  The model counts
    them ([refs]).  The methods, the security hook, leases and the release functions
    outside the file (put_file_access in fs/internal.h, fput in fs/file_table.c) are
    parameters; the laws of the class are their contract. *)
From S2P Require Import Prelude UserMem Track Seek ReadWrite Open.

Definition FMODE_ATOMIC_POS := 32768.
Definition FMODE_WRITER := 65536.
Definition FMODE_OPENED := 524288.
Definition FMODE_CAN_ODIRECT := 4194304.
Definition FMODE_BACKING := 33554432.
Definition O_NOCTTY := 256.
Definition O_DIRECT := 16384.
Definition MAX_NON_LFS := 2147483647.
Definition empty_fops := 0.

(** The members of struct file the code writes; method tables have numbers. *)
Record dfile := {
  d_mode : Z; d_flags : Z; d_op : option Z;
  d_path : bool;                   (** f_inode is set, and the path is referenced *)
  d_dentry : option Z;             (** f_path.dentry *)
  d_iocb_flags : Z
}.

(** Counts held somewhere in the kernel. *)
Record refs := {
  r_path : Z;        (** path references *)
  r_read : Z;        (** i_readcount *)
  r_write : Z;       (** write accesses of the inode *)
  r_mnt : Z;         (** write accesses of the mount *)
  r_backing : Z;     (** write accesses of the user-visible mount of a backing file *)
  r_fops : Z;        (** method tables *)
  r_file : Z         (** files *)
}.

Definition no_refs : refs :=
  {| r_path := 0; r_read := 0; r_write := 0; r_mnt := 0; r_backing := 0; r_fops := 0; r_file := 0 |}.

Definition plus (a b : refs) : refs :=
  {| r_path := r_path a + r_path b; r_read := r_read a + r_read b; r_write := r_write a + r_write b;
     r_mnt := r_mnt a + r_mnt b; r_backing := r_backing a + r_backing b; r_fops := r_fops a + r_fops b;
     r_file := r_file a + r_file b |}.

Definition opp (a : refs) : refs :=
  {| r_path := - r_path a; r_read := - r_read a; r_write := - r_write a; r_mnt := - r_mnt a;
     r_backing := - r_backing a; r_fops := - r_fops a; r_file := - r_file a |}.

Definition b2z (b : bool) : Z := if b then 1 else 0.

Definition path_ref : refs :=
  {| r_path := 1; r_read := 0; r_write := 0; r_mnt := 0; r_backing := 0; r_fops := 0; r_file := 0 |}.
Definition read_ref : refs :=
  {| r_path := 0; r_read := 1; r_write := 0; r_mnt := 0; r_backing := 0; r_fops := 0; r_file := 0 |}.
Definition inode_write_ref : refs :=
  {| r_path := 0; r_read := 0; r_write := 1; r_mnt := 0; r_backing := 0; r_fops := 0; r_file := 0 |}.
Definition mnt_write_ref : refs :=
  {| r_path := 0; r_read := 0; r_write := 0; r_mnt := 1; r_backing := 0; r_fops := 0; r_file := 0 |}.
Definition backing_write_ref : refs :=
  {| r_path := 0; r_read := 0; r_write := 0; r_mnt := 0; r_backing := 1; r_fops := 0; r_file := 0 |}.
Definition fops_ref : refs :=
  {| r_path := 0; r_read := 0; r_write := 0; r_mnt := 0; r_backing := 0; r_fops := 1; r_file := 0 |}.
Definition file_ref : refs :=
  {| r_path := 0; r_read := 0; r_write := 0; r_mnt := 0; r_backing := 0; r_fops := 0; r_file := 1 |}.

(** The accesses a file of mode [m] holds. *)
Definition access_held (m : Z) : refs :=
  if Z.land m (Z.lor FMODE_READ FMODE_WRITE) =? FMODE_READ then read_ref
  else if has m FMODE_WRITER
  then plus inode_write_ref (plus mnt_write_ref (if has m FMODE_BACKING then backing_write_ref else no_refs))
  else no_refs.

(** Everything an opened file holds. *)
Definition file_held (f : dfile) : refs :=
  plus path_ref (plus (access_held (d_mode f)) (if has (d_flags f) O_PATH then no_refs else fops_ref)).

(** The mode bits an open method must leave alone. *)
Definition KEPT_BITS :=
  FMODE_READ + FMODE_WRITE + FMODE_WRITER + FMODE_CAN_READ + FMODE_CAN_WRITE + FMODE_OPENED + FMODE_BACKING.

Definition open_method : Type := dfile -> Z * dfile.

Definition keeps_bits (m : open_method) : Prop :=
  forall f, Z.land (d_mode (m f).2) KEPT_BITS = Z.land (d_mode f) KEPT_BITS /\
            has (d_flags (m f).2) O_PATH = has (d_flags f) O_PATH /\
            d_path (m f).2 = d_path f /\ (d_op f <> None -> d_op (m f).2 <> None).

Class DentryEnv := {
  get_write_access : Z;
  mnt_get_write_access : Z;
  backing_mnt_get_write_access : Z;
  special_file : bool;
  is_reg_or_dir : bool;
  i_fop : option Z;
  fop_open : Z -> option open_method;
  fop_read : Z -> bool;      (** read or read_iter *)
  fop_write : Z -> bool;     (** write or write_iter *)
  fop_llseek : Z -> bool;
  security_file_open : dfile -> Z;
  break_lease : Z -> Z;
  has_direct_IO : bool;
  iocb_flags : dfile -> Z;
  put_file_access : dfile -> refs -> refs;
  alloc_empty_file : Z -> Z + Z;       (** an error, or the mode of the new file *)
  vfs_create : Z;
  fput : dfile -> refs -> refs;
  fop_open_keeps : forall k m, fop_open k = Some m -> keeps_bits m;
  put_file_access_held : forall f c, put_file_access f c = plus c (opp (access_held (d_mode f)));
  alloc_fresh : forall fl m, alloc_empty_file fl = inr m ->
    has m (Z.lor (Z.lor FMODE_WRITER FMODE_OPENED) (Z.lor FMODE_CAN_READ FMODE_CAN_WRITE)) = false;
  alloc_err : forall fl e, alloc_empty_file fl = inl e -> e <> 0;
  fput_held : forall f c,
    fput f c = plus c (opp (plus file_ref (if has (d_mode f) FMODE_OPENED then file_held f else no_refs)))
}.

Section dentry.
Context {E : DentryEnv}.

Definition set_mode (m : Z) (f : dfile) : dfile :=
  {| d_mode := m; d_flags := d_flags f; d_op := d_op f; d_path := d_path f; d_dentry := d_dentry f; d_iocb_flags := d_iocb_flags f |}.

Definition set_op (o : option Z) (f : dfile) : dfile :=
  {| d_mode := d_mode f; d_flags := d_flags f; d_op := o; d_path := d_path f; d_dentry := d_dentry f; d_iocb_flags := d_iocb_flags f |}.

Definition set_path (b : bool) (f : dfile) : dfile :=
  {| d_mode := d_mode f; d_flags := d_flags f; d_op := d_op f; d_path := b;
     d_dentry := if b then d_dentry f else None; d_iocb_flags := d_iocb_flags f |}.

Definition file_get_write_access (f : dfile) (c : refs) : Z * refs :=
  let error := get_write_access in
  if c_true error then (error, c)
  else
    let c := plus c inode_write_ref in
    let error := mnt_get_write_access in
    if c_true error then (error, plus c (opp inode_write_ref))
    else
      let c := plus c mnt_write_ref in
      if has (d_mode f) FMODE_BACKING then
        let error := backing_mnt_get_write_access in
        if c_true error then (error, plus (plus c (opp mnt_write_ref)) (opp inode_write_ref))
        else (0, plus c backing_write_ref)
      else (0, c).

Definition cleanup_file (error : Z) (f : dfile) (c : refs) : Z * dfile * refs :=
  (error, set_path false f, plus c (opp path_ref)).

Definition cleanup_all (error : Z) (f : dfile) (c : refs) : Z * dfile * refs :=
  let error := if 0 <? error then - EINVAL else error in
  let c := match d_op f with Some _ => plus c (opp fops_ref) | None => c end in
  cleanup_file error f (put_file_access f c).

Definition or_mode (b : bool) (m : Z) (f : dfile) : dfile := if b then set_mode (Z.lor (d_mode f) m) f else f.

Definition op_has (method : Z -> bool) (f : dfile) : bool :=
  match d_op f with Some k => method k | None => false end.

(** The mode bits set once the open method has succeeded. *)
Definition opened_mode (f : dfile) : dfile :=
  let f := or_mode true FMODE_OPENED f in
  let f := or_mode (has (d_mode f) FMODE_READ && op_has fop_read f) FMODE_CAN_READ f in
  let f := or_mode (has (d_mode f) FMODE_WRITE && op_has fop_write f) FMODE_CAN_WRITE f in
  let f := if has (d_mode f) FMODE_LSEEK && negb (op_has fop_llseek f)
           then set_mode (clear (d_mode f) FMODE_LSEEK) f else f in
  or_mode has_direct_IO FMODE_CAN_ODIRECT f.

Definition set_flags (fl : Z) (f : dfile) : dfile :=
  {| d_mode := d_mode f; d_flags := fl; d_op := d_op f; d_path := d_path f; d_dentry := d_dentry f; d_iocb_flags := d_iocb_flags f |}.

Definition set_iocb_flags (fl : Z) (f : dfile) : dfile :=
  {| d_mode := d_mode f; d_flags := d_flags f; d_op := d_op f; d_path := d_path f; d_dentry := d_dentry f; d_iocb_flags := fl |}.

(** From FMODE_OPENED on; the page cache a writer drops is not part of the model. *)
Definition opened (f : dfile) (c : refs) : Z * dfile * refs :=
  let f := opened_mode f in
  let f := set_flags (clear (d_flags f) (O_CREAT + O_EXCL + O_NOCTTY + O_TRUNC)) f in
  let f := set_iocb_flags (iocb_flags f) f in
  if has (d_flags f) O_DIRECT && negb (has (d_mode f) FMODE_CAN_ODIRECT) then (- EINVAL, f, c)
  else (0, f, c).

Definition do_dentry_open (f : dfile) (open : option open_method) (c : refs) : Z * dfile * refs :=
  let c := plus c path_ref in
  let f := set_path true f in
  if has (d_flags f) O_PATH then
    (0, set_op (Some empty_fops) (set_mode (Z.lor FMODE_PATH FMODE_OPENED) f), c)
  else
    let '(error, f, c) :=
      if Z.land (d_mode f) (Z.lor FMODE_READ FMODE_WRITE) =? FMODE_READ then (0, f, plus c read_ref)
      else if has (d_mode f) FMODE_WRITE && negb special_file then
        let '(error, c) := file_get_write_access f c in
        if c_true error then (error, f, c) else (0, or_mode true FMODE_WRITER f, c)
      else (0, f, c) in
    if c_true error then cleanup_file error f c
    else
      let f := or_mode is_reg_or_dir FMODE_ATOMIC_POS f in
      let f := set_op i_fop f in
      match i_fop with
      | None => cleanup_all (- ENODEV) f c
      | Some k =>
          let c := plus c fops_ref in
          let error := security_file_open f in
          if c_true error then cleanup_all error f c
          else
            let error := break_lease (d_flags f) in
            if c_true error then cleanup_all error f c
            else
              let f := or_mode true (FMODE_LSEEK + FMODE_PREAD + FMODE_PWRITE) f in
              let open := match open with None => fop_open k | Some m => Some m end in
              match open with
              | None => opened f c
              | Some m =>
                  let '(error, f) := m f in
                  if c_true error then cleanup_all error f c else opened f c
              end
      end.

(** The file gets the path of [dentry] first. *)
Definition set_dentry (dentry : option Z) (f : dfile) : dfile :=
  {| d_mode := d_mode f; d_flags := d_flags f; d_op := d_op f; d_path := d_path f; d_dentry := dentry; d_iocb_flags := d_iocb_flags f |}.

Definition vfs_open (dentry : Z) (f : dfile) (c : refs) : Z * dfile * refs := do_dentry_open (set_dentry (Some dentry) f) None c.

(** From ->atomic_open(); [None] is the BUG check of a file that is open already. *)
Definition finish_open (f : dfile) (dentry : Z) (open : option open_method) (c : refs) : option (Z * dfile * refs) :=
  if has (d_mode f) FMODE_OPENED then None else Some (do_dentry_open (set_dentry (Some dentry) f) open c).

Definition finish_no_open (f : dfile) (dentry : option Z) : Z * dfile := (0, set_dentry dentry f).

Definition new_file (flags mode : Z) : dfile :=
  {| d_mode := mode; d_flags := flags; d_op := None; d_path := false; d_dentry := None; d_iocb_flags := 0 |}.

(** The file, or an error. *)
Definition dentry_open (dentry flags : Z) (c : refs) : (Z + dfile) * refs :=
  match alloc_empty_file flags with
  | inl e => (inl e, c)
  | inr mode =>
      let '(error, f, c) := vfs_open dentry (new_file flags mode) (plus c file_ref) in
      if c_true error then (inl error, fput f c) else (inr f, c)
  end.

Definition dentry_create (dentry flags : Z) (c : refs) : (Z + dfile) * refs :=
  match alloc_empty_file flags with
  | inl e => (inl e, c)
  | inr mode =>
      let f := new_file flags mode in
      let c := plus c file_ref in
      let error := vfs_create in
      let '(error, f, c) := if c_true error then (error, f, c) else vfs_open dentry f c in
      if c_true error then (inl error, fput f c) else (inr f, c)
  end.

Definition kernel_file_open (dentry flags : Z) (c : refs) : (Z + dfile) * refs :=
  match alloc_empty_file flags with
  | inl e => (inl e, c)
  | inr mode =>
      let '(error, f, c) := do_dentry_open (set_dentry (Some dentry) (new_file flags mode)) None (plus c file_ref) in
      if c_true error then (inl error, fput f c) else (inr f, c)
  end.

End dentry.

(** ** The open methods of the file *)

Definition generic_file_open (i_size : Z) : open_method := fun filp =>
  if negb (has (d_flags filp) O_LARGEFILE) && (MAX_NON_LFS <? i_size) then (- EOVERFLOW, filp) else (0, filp).

Definition nonseekable_open : open_method := fun filp =>
  (0, set_mode (clear (d_mode filp) (FMODE_LSEEK + FMODE_PREAD + FMODE_PWRITE)) filp).

Definition stream_open : open_method := fun filp =>
  let filp := set_mode (clear (d_mode filp) (FMODE_LSEEK + FMODE_PREAD + FMODE_PWRITE + FMODE_ATOMIC_POS)) filp in
  (0, set_mode (Z.lor (d_mode filp) FMODE_STREAM) filp).

(** ** Accounting *)

Ltac refs_eq :=
  unfold plus, opp, no_refs, path_ref, read_ref, inode_write_ref, mnt_write_ref, backing_write_ref, fops_ref, file_ref;
  repeat match goal with x : refs |- _ => destruct x end; cbn; f_equal; lia.

Lemma plus_0 a : plus a no_refs = a.
Proof. refs_eq. Qed.

Lemma plus_opp a b : plus (plus a b) (opp b) = a.
Proof. refs_eq. Qed.

(** The bits that decide which accesses are held. *)
Definition ACCESS_BITS := FMODE_READ + FMODE_WRITE + FMODE_WRITER + FMODE_BACKING.

Lemma has_sub m m' mask k : Z.land m mask = Z.land m' mask -> Z.land mask k = k -> has m k = has m' k.
Proof. intros H Hk. rewrite <- Hk, <- !has_land. by rewrite H. Qed.

Lemma land_sub m m' mask k : Z.land m mask = Z.land m' mask -> Z.land mask k = k -> Z.land m k = Z.land m' k.
Proof. intros H Hk. rewrite <- Hk, !Z.land_assoc. by rewrite H. Qed.

Lemma access_held_bits m m' : Z.land m ACCESS_BITS = Z.land m' ACCESS_BITS -> access_held m = access_held m'.
Proof.
  intros H. unfold access_held. rewrite (land_sub m m' _ _ H) by done.
  by rewrite (has_sub m m' _ FMODE_WRITER H), (has_sub m m' _ FMODE_BACKING H) by done.
Qed.

Lemma land_lor_disjoint m x mask : Z.land x mask = 0 -> Z.land (Z.lor m x) mask = Z.land m mask.
Proof. intros H. by rewrite Z.land_lor_distr_l, H, Z.lor_0_r. Qed.

Lemma or_mode_bits b x f mask : Z.land x mask = 0 -> Z.land (d_mode (or_mode b x f)) mask = Z.land (d_mode f) mask.
Proof. intros H. destruct b; [|done]. cbn. by apply land_lor_disjoint. Qed.

Lemma or_mode_has b x f k : has (d_mode (or_mode b x f)) k = has (d_mode f) k || (b && has x k).
Proof. destruct b; cbn; [apply has_lor|by rewrite orb_false_r]. Qed.

Lemma or_mode_fields b x f :
  d_flags (or_mode b x f) = d_flags f /\ d_op (or_mode b x f) = d_op f /\ d_path (or_mode b x f) = d_path f.
Proof. by destruct b. Qed.

Section balance.
Context {E : DentryEnv}.

Lemma file_get_write_access_spec f c :
  let '(e, c') := file_get_write_access f c in
  if c_true e then c' = c
  else c' = plus c (plus inode_write_ref (plus mnt_write_ref
                      (if has (d_mode f) FMODE_BACKING then backing_write_ref else no_refs))).
Proof.
  unfold file_get_write_access. cbv zeta.
  case_if; [by rewrite Hif|]. case_if; [rewrite Hif0; apply plus_opp|].
  destruct (has (d_mode f) FMODE_BACKING); [|cbn [c_true Z.eqb negb]; refs_eq].
  case_if; [rewrite Hif1; by rewrite !plus_opp|]. cbn [c_true Z.eqb negb]. refs_eq.
Qed.

(** What a file from alloc_empty_file looks like. *)
Definition fresh (m : Z) : Prop :=
  has m (Z.lor (Z.lor FMODE_WRITER FMODE_OPENED) (Z.lor FMODE_CAN_READ FMODE_CAN_WRITE)) = false.

Lemma fresh_bits m : fresh m ->
  has m FMODE_WRITER = false /\ has m FMODE_OPENED = false /\ has m FMODE_CAN_READ = false /\
  has m FMODE_CAN_WRITE = false.
Proof. unfold fresh. rewrite !has_lor_r. intros H. bool_hyps. done. Qed.

Lemma cleanup_all_nonzero e f c r f' c' : cleanup_all e f c = (r, f', c') -> e <> 0 -> r <> 0.
Proof. unfold cleanup_all, cleanup_file. cbv zeta. intros [= <- _ _] He. by case_if. Qed.

Lemma cleanup_all_spec e f c c0 :
  e <> 0 ->
  c = plus (plus (plus c0 path_ref) (access_held (d_mode f)))
        (match d_op f with Some _ => fops_ref | None => no_refs end) ->
  exists e', cleanup_all e f c = (e', set_path false f, c0) /\ e' <> 0.
Proof.
  intros He ->. unfold cleanup_all, cleanup_file. cbv zeta. eexists. split; [f_equal|].
  - rewrite put_file_access_held. destruct (d_op f); [rewrite plus_opp|rewrite plus_0]; by rewrite !plus_opp.
  - case_if; done.
Qed.

(** The modes promise exactly the methods there are. *)
Definition mode_honest (f : dfile) : Prop :=
  has (d_mode f) FMODE_CAN_READ = has (d_mode f) FMODE_READ && op_has fop_read f /\
  has (d_mode f) FMODE_CAN_WRITE = has (d_mode f) FMODE_WRITE && op_has fop_write f /\
  (has (d_mode f) FMODE_LSEEK = true -> op_has fop_llseek f = true).

Lemma opened_mode_fields f :
  d_op (opened_mode f) = d_op f /\ d_path (opened_mode f) = d_path f /\ d_flags (opened_mode f) = d_flags f.
Proof. unfold opened_mode, or_mode. cbv zeta. by repeat case_if. Qed.

Lemma or_mode_op (method : Z -> bool) b x f : op_has method (or_mode b x f) = op_has method f.
Proof. by destruct b. Qed.

(** Dropping the seek bit touches no other. *)
Lemma drop_seek_has b f k : clear k FMODE_LSEEK = k ->
  has (d_mode (if b : bool then set_mode (clear (d_mode f) FMODE_LSEEK) f else f)) k = has (d_mode f) k.
Proof. intros Hk. destruct b; [|done]. cbn. by rewrite has_clear, Hk. Qed.

Lemma opened_mode_access f : Z.land (d_mode (opened_mode f)) ACCESS_BITS = Z.land (d_mode f) ACCESS_BITS.
Proof.
  unfold opened_mode. cbv zeta. rewrite or_mode_bits by done.
  case_if; [cbn [set_mode d_mode]; rewrite land_clear_disjoint by done|]; by rewrite !or_mode_bits.
Qed.

Lemma opened_mode_opened f : has (d_mode (opened_mode f)) FMODE_OPENED = true.
Proof. unfold opened_mode. cbv zeta. rewrite or_mode_has, drop_seek_has, !or_mode_has by done. has_norm. done. Qed.

Lemma opened_mode_honest f :
  has (d_mode f) FMODE_CAN_READ = false -> has (d_mode f) FMODE_CAN_WRITE = false -> mode_honest (opened_mode f).
Proof.
  intros Hr Hw. unfold mode_honest, op_has at 1 2 3.
  destruct (opened_mode_fields f) as (-> & _ & _). unfold opened_mode. cbv zeta. rewrite !or_mode_op.
  split; [|split].
  - rewrite !or_mode_has, !drop_seek_has, !or_mode_has, Hr by done. has_norm. done.
  - rewrite !or_mode_has, !drop_seek_has, !or_mode_has, Hw by done. has_norm. done.
  - rewrite or_mode_has. has_norm. case_if.
    + cbn [set_mode d_mode]. rewrite has_clear, has_zero_eq; done.
    + intros Hl. rewrite Hl in Hif. by apply negb_false_iff in Hif.
Qed.

(** An opened file: where it points, what its mode promises to the callers of read,
    write and llseek, and that the creation flags are gone. *)
Definition opened_ok (f : dfile) : Prop :=
  d_path f = true /\ d_op f <> None /\
  if has (d_flags f) O_PATH then d_mode f = Z.lor FMODE_PATH FMODE_OPENED
  else mode_honest f /\ has (d_flags f) (O_CREAT + O_EXCL + O_NOCTTY + O_TRUNC) = false.

Lemma opened_spec f c :
  has (d_mode f) FMODE_CAN_READ = false -> has (d_mode f) FMODE_CAN_WRITE = false ->
  d_path f = true -> d_op f <> None -> has (d_flags f) O_PATH = false ->
  let '(r, f', c') := opened f c in
  c' = c /\ access_held (d_mode f') = access_held (d_mode f) /\ has (d_mode f') FMODE_OPENED = true /\
  has (d_flags f') O_PATH = false /\ opened_ok f' /\
  (r = 0 \/ r = - EINVAL /\ has (d_flags f') O_DIRECT = true /\ has (d_mode f') FMODE_CAN_ODIRECT = false).
Proof.
  intros Hr Hw Hp Ho Hpath. unfold opened. cbv zeta.
  pose proof (opened_mode_honest f Hr Hw) as Hh. pose proof (opened_mode_opened f) as Hopd.
  pose proof (access_held_bits _ _ (opened_mode_access f)) as Hacc.
  destruct (opened_mode_fields f) as (F1 & F2 & F3). set (f5 := opened_mode f) in *. rewrite F3.
  assert (Hfl : has (clear (d_flags f) (O_CREAT + O_EXCL + O_NOCTTY + O_TRUNC)) O_PATH = false)
    by (rewrite has_clear; exact Hpath).
  assert (Hok : forall i, opened_ok (set_iocb_flags i
             (set_flags (clear (d_flags f) (O_CREAT + O_EXCL + O_NOCTTY + O_TRUNC)) f5))).
  { intros i. unfold opened_ok. cbn [d_path d_op d_flags set_iocb_flags set_flags]. rewrite Hfl, F1, F2.
    do 2 (split; [done|]). split; [exact Hh|]. rewrite has_clear. apply has_zero. }
  case_if; (split; [done|]); (split; [exact Hacc|]); (split; [exact Hopd|]); (split; [exact Hfl|]);
    (split; [apply Hok|]); [|by left].
  right. bool_hyps. done.
Qed.

(** The access step: what is taken is what the mode then says. *)
Lemma access_step f c : has (d_mode f) FMODE_WRITER = false ->
  let '(e, f', c') :=
    if Z.land (d_mode f) (Z.lor FMODE_READ FMODE_WRITE) =? FMODE_READ then (0, f, plus c read_ref)
    else if has (d_mode f) FMODE_WRITE && negb special_file then
      let '(error, c) := file_get_write_access f c in
      if c_true error then (error, f, c) else (0, or_mode true FMODE_WRITER f, c)
    else (0, f, c) in
  (exists b, f' = or_mode b FMODE_WRITER f) /\
  c' = if c_true e then c else plus c (access_held (d_mode f')).
Proof.
  intros Hw. unfold access_held. case_if.
  { split; [by exists false|]. cbn [c_true Z.eqb negb]. by rewrite Hif. }
  case_if.
  2: { split; [by exists false|]. cbn [c_true Z.eqb negb]. rewrite Hif, Hw. by rewrite plus_0. }
  pose proof (file_get_write_access_spec f c) as H. destruct (file_get_write_access f c) as [e c1].
  destruct (c_true e) eqn:He; [split; [by exists false|by rewrite He]|].
  split; [by exists true|]. cbn [c_true Z.eqb negb].
  assert (Hrw : Z.land (d_mode (or_mode true FMODE_WRITER f)) (Z.lor FMODE_READ FMODE_WRITE) =
                Z.land (d_mode f) (Z.lor FMODE_READ FMODE_WRITE)) by (by apply or_mode_bits).
  rewrite Hrw, Hif, !or_mode_has. has_norm. exact H.
Qed.

(** Between the access step and the open method: nothing that matters is lost. *)
Definition ready (f : dfile) (c c0 : refs) : Prop :=
  d_path f = true /\ d_op f <> None /\ has (d_flags f) O_PATH = false /\
  has (d_mode f) FMODE_CAN_READ = false /\ has (d_mode f) FMODE_CAN_WRITE = false /\
  has (d_mode f) FMODE_OPENED = false /\
  c = plus (plus (plus c0 path_ref) (access_held (d_mode f))) fops_ref.

(** What a call of do_dentry_open leaves behind. *)
Definition dentry_outcome (c : refs) (res : Z * dfile * refs) : Prop :=
  let '(r, f', c') := res in
  if has (d_mode f') FMODE_OPENED
  then c' = plus c (file_held f') /\ opened_ok f' /\
       (r = 0 \/ r = - EINVAL /\ has (d_flags f') O_DIRECT = true /\ has (d_mode f') FMODE_CAN_ODIRECT = false)
  else r <> 0 /\ c' = c /\ d_path f' = false.

Lemma ready_fail e f c c0 : e <> 0 -> ready f c c0 -> dentry_outcome c0 (cleanup_all e f c).
Proof.
  intros He (_ & Ho & _ & _ & _ & Hopd & Hc).
  destruct (cleanup_all_spec e f c c0 He) as (e' & -> & He'); [by destruct (d_op f)|].
  unfold dentry_outcome. cbn [set_path d_mode d_path]. by rewrite Hopd.
Qed.

Lemma ready_opened f c c0 : ready f c c0 -> dentry_outcome c0 (opened f c).
Proof.
  intros (Hp & Ho & Hpath & Hr & Hw & _ & Hc). pose proof (opened_spec f c Hr Hw Hp Ho Hpath) as H.
  destruct (opened f c) as [[r f'] c']. destruct H as (-> & Hacc & Hopd & Hpath' & Hok & Hres).
  unfold dentry_outcome. rewrite Hopd. split; [|done].
  unfold file_held. rewrite Hpath', Hacc, Hc. generalize (access_held (d_mode f)). intros a. refs_eq.
Qed.

Lemma ready_or_mode b x f c c0 : Z.land x KEPT_BITS = 0 -> ready f c c0 -> ready (or_mode b x f) c c0.
Proof.
  intros Hx (H1 & H2 & H3 & H4 & H5 & H6 & H7). destruct (or_mode_fields b x f) as (F1 & F2 & F3).
  pose proof (or_mode_bits b x f KEPT_BITS Hx) as Hb. unfold ready. rewrite F1, F2, F3.
  rewrite (has_sub _ _ _ FMODE_CAN_READ Hb), (has_sub _ _ _ FMODE_CAN_WRITE Hb), (has_sub _ _ _ FMODE_OPENED Hb) by done.
  by rewrite (access_held_bits _ _ (land_sub _ _ _ ACCESS_BITS Hb eq_refl)).
Qed.

Lemma ready_method m f c c0 : keeps_bits m -> ready f c c0 -> ready (m f).2 c c0.
Proof.
  intros Hm (H1 & H2 & H3 & H4 & H5 & H6 & H7). destruct (Hm f) as (Hb & F1 & F2 & F3).
  unfold ready. rewrite F1, F2.
  rewrite (has_sub _ _ _ FMODE_CAN_READ Hb), (has_sub _ _ _ FMODE_CAN_WRITE Hb), (has_sub _ _ _ FMODE_OPENED Hb) by done.
  rewrite (access_held_bits _ _ (land_sub _ _ _ ACCESS_BITS Hb eq_refl)). split; [done|]. split; [by apply F3|done].
Qed.

(** From the method table on. *)
Lemma dentry_tail f c c0 (m : option open_method) :
  (forall m', m = Some m' -> keeps_bits m') -> ready f c c0 ->
  dentry_outcome c0 (match m with
    | None => opened f c
    | Some m => let '(error, f) := m f in if c_true error then cleanup_all error f c else opened f c
    end).
Proof.
  intros Hm H. destruct m as [m|]; [|by apply ready_opened].
  pose proof (ready_method m f c c0 (Hm m eq_refl) H) as H'. destruct (m f) as [e f']. cbn [snd] in H'.
  case_if; [|by apply ready_opened]. apply ready_fail; [by apply c_true_true|done].
Qed.

Lemma dentry_open_outcome f open c :
  fresh (d_mode f) -> (forall m, open = Some m -> keeps_bits m) ->
  dentry_outcome c (do_dentry_open f open c).
Proof.
  intros (Hw & Hopd & Hr & Hwr)%fresh_bits Hm. unfold do_dentry_open. cbv zeta.
  set (f0 := set_path true f). change (d_flags f0) with (d_flags f). destruct (has (d_flags f) O_PATH) eqn:Hpath.
  { unfold dentry_outcome, file_held, opened_ok. cbn [d_flags d_mode d_path d_op set_op set_mode set_path f0].
    rewrite Hpath. split; [|by split; [|left]].
    change (access_held _) with no_refs. refs_eq. }
  pose proof (access_step f0 (plus c path_ref) Hw) as H.
  destruct (if Z.land (d_mode f0) _ =? _ then _ else _) as [[e f1] c1]. destruct H as [[b Hf1] Hc1].
  assert (Hm1 : forall k, Z.land FMODE_WRITER k = 0 -> has (d_mode f1) k = has (d_mode f) k).
  { intros k Hk. rewrite Hf1, or_mode_has. unfold has at 2. rewrite Hk. cbn. by rewrite andb_false_r, orb_false_r. }
  assert (Hfl : d_flags f1 = d_flags f /\ d_path f1 = true) by (rewrite Hf1; by destruct b). destruct Hfl as [Hfl Hp1].
  destruct (c_true e) eqn:He.
  { unfold dentry_outcome, cleanup_file. cbn [set_path d_mode d_path]. rewrite Hm1, Hopd by done.
    split; [by apply c_true_true|]. split; [|done]. rewrite Hc1. apply plus_opp. }
  set (f2 := or_mode is_reg_or_dir FMODE_ATOMIC_POS f1).
  assert (Hf2 : Z.land (d_mode f2) KEPT_BITS = Z.land (d_mode f1) KEPT_BITS) by (by apply or_mode_bits).
  assert (Hacc : access_held (d_mode f2) = access_held (d_mode f1))
    by (apply access_held_bits, (land_sub _ _ _ ACCESS_BITS Hf2); done).
  assert (Ho2 : has (d_mode f2) FMODE_OPENED = false)
    by (rewrite (has_sub _ _ _ FMODE_OPENED Hf2), Hm1 by done; done).
  destruct (or_mode_fields is_reg_or_dir FMODE_ATOMIC_POS f1) as (G1 & G2 & G3). fold f2 in G1, G2, G3.
  destruct i_fop as [k|].
  2: { destruct (cleanup_all_spec (- ENODEV) (set_op None f2) c1 c) as (e' & -> & He'); [done| |].
       - cbn [d_op set_op d_mode]. by rewrite plus_0, Hacc.
       - unfold dentry_outcome. cbn [set_path set_op d_mode d_path]. by rewrite Ho2. }
  assert (Hready : ready (set_op (Some k) f2) (plus c1 fops_ref) c).
  { unfold ready. cbn [d_path d_op d_flags d_mode set_op]. rewrite G1, G3, Hfl, Ho2, Hc1, Hacc.
    rewrite (has_sub _ _ _ FMODE_CAN_READ Hf2), (has_sub _ _ _ FMODE_CAN_WRITE Hf2), !Hm1 by done. done. }
  case_if; [apply ready_fail; [by apply c_true_true|done]|].
  case_if; [apply ready_fail; [by apply c_true_true|done]|].
  apply dentry_tail; [|by apply ready_or_mode].
  intros m'. destruct open as [m0|]; [by apply Hm|]. apply fop_open_keeps.
Qed.

End balance.

(** ** Theorems *)

Section theorems.
Context {E : DentryEnv}.

(** Do_dentry_open keeps its books: for a fresh file and an open method that
    leaves the access bits alone, a file that was not marked opened leaves every count
    as it was, with an error and no path; a file marked opened holds exactly the path,
    the accesses its mode says and its method table, its mode promises exactly the
    methods the table has, the creation flags are cleared, and the only error with an
    opened file is O_DIRECT on a mapping without direct I/O. *)
Theorem do_dentry_open_accounting f open c :
  fresh (d_mode f) -> (forall m, open = Some m -> keeps_bits m) ->
  dentry_outcome c (do_dentry_open f open c).
Proof. apply dentry_open_outcome. Qed.

(** From ->atomic_open() a file is opened once: the first call keeps its books, and after
    a success another one is a bug; finish_no_open leaves the file to be opened. *)
Lemma finish_open_once f dentry open c : fresh (d_mode f) -> (forall m, open = Some m -> keeps_bits m) ->
  exists r f' c', finish_open f dentry open c = Some (r, f', c') /\ dentry_outcome c (r, f', c') /\
    (r = 0 -> forall d o c2, finish_open f' d o c2 = None) /\
    forall d, has (d_mode (finish_no_open f d).2) FMODE_OPENED = false.
Proof.
  intros Hf Hm. pose proof (dentry_open_outcome (set_dentry (Some dentry) f) open c Hf Hm) as H.
  destruct (fresh_bits _ Hf) as (_ & Hopd & _). unfold finish_open at 1. rewrite Hopd.
  destruct (do_dentry_open _ open c) as [[r f'] c']. exists r, f', c'. split_and!; [done|done| |done].
  intros -> d o c2. unfold finish_open. cbn in H. destruct (has (d_mode f') FMODE_OPENED); [done|by destruct H].
Qed.

(** A file or an error, and the counts that go with it. *)
Definition opener_balanced (c : refs) (res : (Z + dfile) * refs) : Prop :=
  match res with
  | (inl e, c') => e <> 0 /\ c' = c
  | (inr f, c') => c' = plus (plus c file_ref) (file_held f) /\ has (d_mode f) FMODE_OPENED = true /\ opened_ok f
  end.

Lemma finish_balanced c res :
  dentry_outcome (plus c file_ref) res ->
  opener_balanced c (let '(error, f, c) := res in if c_true error then (inl error, fput f c) else (inr f, c)).
Proof.
  destruct res as [[e f] c']. unfold dentry_outcome. intros H. destruct (c_true e) eqn:He.
  - split; [by apply c_true_true|]. rewrite fput_held. destruct (has (d_mode f) FMODE_OPENED).
    + destruct H as (-> & _ & _). generalize (file_held f). intros h. refs_eq.
    + destruct H as (_ & -> & _). refs_eq.
  - apply c_true_false in He. subst e. unfold opener_balanced.
    destruct (has (d_mode f) FMODE_OPENED); [by destruct H as (-> & Hok & _)|by destruct H].
Qed.

(** Dentry_open, dentry_create and kernel_file_open leak nothing: an error leaves
    every count of paths, readers, writers, mounts, method tables and files as it was,
    on each of the failure points of the open, the late O_DIRECT refusal included; a
    success holds one file and exactly what that file is entitled to. *)
Theorem openers_balanced dentry flags c :
  opener_balanced c (dentry_open dentry flags c) /\ opener_balanced c (dentry_create dentry flags c) /\
  opener_balanced c (kernel_file_open dentry flags c).
Proof.
  unfold dentry_open, dentry_create, kernel_file_open, vfs_open.
  destruct (alloc_empty_file flags) as [e|mode] eqn:Ha.
  { split; [|split]; (split; [by eapply alloc_err|done]). }
  pose proof (alloc_fresh flags mode Ha) as Hf. cbv zeta.
  assert (H : dentry_outcome (plus c file_ref) (do_dentry_open (set_dentry (Some dentry) (new_file flags mode)) None (plus c file_ref)))
    by (by apply dentry_open_outcome).
  split; [by apply finish_balanced|]. split; [|by apply finish_balanced].
  destruct (c_true vfs_create) eqn:Hc; [|by apply finish_balanced].
  rewrite Hc. split; [by apply c_true_true|]. rewrite fput_held. cbn [d_mode new_file].
  destruct (fresh_bits mode Hf) as (_ & -> & _). refs_eq.
Qed.

End theorems.

(** The open methods defined here respect the contract of open methods. *)
Lemma own_methods_keep_bits i_size :
  keeps_bits (generic_file_open i_size) /\ keeps_bits nonseekable_open /\ keeps_bits stream_open.
Proof.
  split; [|split]; intros f.
  - unfold generic_file_open. by case_if.
  - cbn [nonseekable_open snd set_mode d_mode d_flags d_path d_op]. by rewrite land_clear_disjoint.
  - cbn [stream_open snd set_mode d_mode d_flags d_path d_op].
    by rewrite land_lor_disjoint, land_clear_disjoint.
Qed.

Section stream.
Context {E : DentryEnv} {F : FileOps}.

(** The file of the read and write paths. *)
Definition as_file (f : dfile) (pos version : Z) : file :=
  {| f_mode := d_mode f; f_pos := pos; f_version := version |}.

Lemma opened_stream f c : has (d_mode f) FMODE_STREAM = true ->
  has (d_mode f) (FMODE_LSEEK + FMODE_PREAD + FMODE_PWRITE) = false ->
  let f' := (opened f c).1.2 in
  has (d_mode f') FMODE_STREAM = true /\ has (d_mode f') FMODE_PREAD = false /\ has (d_mode f') FMODE_PWRITE = false /\
  has (d_mode f') FMODE_LSEEK = false.
Proof.
  intros Hs Hn.
  change (FMODE_LSEEK + FMODE_PREAD + FMODE_PWRITE) with (Z.lor (Z.lor FMODE_LSEEK FMODE_PREAD) FMODE_PWRITE) in Hn.
  rewrite !has_lor_r in Hn. bool_hyps.
  assert (Hm : d_mode (opened f c).1.2 = d_mode (opened_mode f)) by (unfold opened; cbv zeta; by case_if).
  cbv zeta. rewrite Hm. unfold opened_mode. cbv zeta.
  split; [|split; [|split]]; rewrite or_mode_has; [rewrite drop_seek_has by done..|].
  1-3: rewrite !or_mode_has; has_norm; done.
  has_norm. case_if; [cbn [set_mode d_mode]; rewrite has_clear; by apply has_zero_eq|].
  rewrite !or_mode_has. has_norm. done.
Qed.

(** A stream has no position: a file that do_dentry_open made with stream_open
    answers ESPIPE to pread64 and pwrite64 of any length at any position and has no
    file position for read and write, which therefore never move one. *)
Theorem stream_has_no_position f c f' c' (s : io) :
  do_dentry_open f (Some stream_open) c = (0, f', c') -> has (d_flags f) O_PATH = false ->
  io_file s = as_file f' (f_pos (io_file s)) (f_version (io_file s)) ->
  (forall buf n pos, 0 <= pos ->
     ksys_pread64 true buf n pos s = (- ESPIPE, s) /\ ksys_pwrite64 true buf n pos s = (- ESPIPE, s)) /\
  file_ppos (io_file s) = None /\ has (f_mode (io_file s)) FMODE_LSEEK = false.
Proof.
  intros H Hpath Hs. rewrite Hs.
  assert (Hb : has (d_mode f') FMODE_STREAM = true /\ has (d_mode f') FMODE_PREAD = false /\
               has (d_mode f') FMODE_PWRITE = false /\ has (d_mode f') FMODE_LSEEK = false).
  { unfold do_dentry_open in H. cbv zeta in H. cbn [set_path d_flags] in H. rewrite Hpath in H.
    destruct (if Z.land _ _ =? _ then _ else _) as [[e f1] c1] in H.
    destruct (c_true e) eqn:He in H; [unfold cleanup_file in H; injection H as -> _ _; done|].
    destruct i_fop as [k|]; [|by apply cleanup_all_nonzero in H].
    do 2 (case_if_in H; [apply cleanup_all_nonzero in H; [done|by apply c_true_true]|]).
    cbn [stream_open fst snd c_true Z.eqb negb] in H. apply (f_equal (fun x => x.1.2)) in H. cbn [fst snd] in H.
    rewrite <- H. apply opened_stream; cbn [set_mode d_mode].
    - rewrite has_lor. apply orb_true_r.
    - rewrite has_lor, has_clear. rewrite orb_false_iff. split; [by apply has_zero_eq|done]. }
  destruct Hb as (B1 & B2 & B3 & B4). cbn [as_file f_mode]. split; [|split; [|done]].
  - intros buf n pos Hpos. unfold ksys_pread64, ksys_pwrite64. rewrite Hs. cbn [as_file f_mode]. rewrite B2, B3.
    case_if; [lia|done].
  - unfold file_ppos. cbn [as_file f_mode]. by rewrite B1.
Qed.

End stream.

(** ** A concrete inode: opened as a stream, its mount read-only *)

Lemma demo_alloc_fresh (fl m : Z) : (inr (Z.land (fl + 1) 3) : Z + Z) = inr m -> fresh m.
Proof.
  intros [= <-]. unfold fresh. rewrite has_land. by apply has_zero_eq.
Qed.

Definition demo_dentry_env : DentryEnv := {|
  get_write_access := 0; mnt_get_write_access := - EROFS; backing_mnt_get_write_access := 0;
  special_file := false; is_reg_or_dir := false; i_fop := Some 1;
  fop_open := fun _ => Some stream_open;
  fop_read := fun _ => true; fop_write := fun _ => true; fop_llseek := fun _ => false;
  security_file_open := fun _ => 0; break_lease := fun _ => 0; has_direct_IO := false;
  iocb_flags := fun _ => 0;
  put_file_access := fun f c => plus c (opp (access_held (d_mode f)));
  alloc_empty_file := fun fl => inr (Z.land (fl + 1) 3);
  vfs_create := 0;
  fput := fun f c =>
    plus c (opp (plus file_ref (if has (d_mode f) FMODE_OPENED then file_held f else no_refs)));
  fop_open_keeps := fun _ m H => eq_ind stream_open keeps_bits (proj2 (proj2 (own_methods_keep_bits 0))) m
                                   (f_equal (fun o => match o with Some x => x | None => m end) H);
  put_file_access_held := fun _ _ => eq_refl;
  alloc_fresh := demo_alloc_fresh;
  alloc_err := fun _ _ H => ltac:(discriminate H);
  fput_held := fun _ _ => eq_refl |}.

(** A writer is refused and gives the inode's write access back. *)
Lemma do_dentry_open_accounting_witness :
  (do_dentry_open (E := demo_dentry_env) (new_file O_WRONLY 2) None no_refs).1.1 = - EROFS /\
  dentry_outcome (E := demo_dentry_env) no_refs
    (do_dentry_open (E := demo_dentry_env) (new_file O_WRONLY 2) None no_refs).
Proof.
  split; [reflexivity|]. apply (do_dentry_open_accounting (E := demo_dentry_env)); [reflexivity|discriminate].
Defined.

(** A reader gets a stream. *)
Definition demo_stream : dfile := (do_dentry_open (E := demo_dentry_env) (new_file 0 1) (Some stream_open) no_refs).1.2.

Definition demo_stream_io : io (F := demo_ops) :=
  @Build_io demo_ops (as_file demo_stream 0 0) tt 0 0 0 0 0 [].

Lemma stream_has_no_position_witness :
  ksys_pread64 (F := demo_ops) true 0 100 4096 demo_stream_io = (- ESPIPE, demo_stream_io).
Proof.
  apply (stream_has_no_position (E := demo_dentry_env) (F := demo_ops) (new_file 0 1) no_refs demo_stream
           (do_dentry_open (E := demo_dentry_env) (new_file 0 1) (Some stream_open) no_refs).2 demo_stream_io);
    [reflexivity|reflexivity|reflexivity|lia].
Defined.
