(* ===== verification/HugeCache.v ===== *)
(** * A writer and the huge pages of the page cache (fs/open.c: the end of do_dentry_open)

    The page cache may hold huge pages of a file only while nobody has it open for writing.
    Who opens it counts itself in i_writecount, then looks whether there are huge pages and
    drops them; khugepaged, which makes them, counts the page in nr_thps, then looks whether
    there is a writer and takes the page back.  On a machine where a write may stay in the
    store buffer of its processor past a later read, both could miss each other; each side
    has a memory barrier between its write and its read.  The model has the writers, one
    collapse at a time (it holds the lock of the page cache) and the store buffers. *)
From S2P Require Import Prelude MmLife.

(** Where one opener is in do_dentry_open, after get_write_access. *)
Inductive opener :=
  | Counted        (** its count is in the store buffer *)
  | Drained        (** the barrier is passed *)
  | Dropping       (** it saw huge pages *)
  | Opened.

(** Where the collapse is: it holds the lock of the page cache in all of these. *)
Inductive collapser := Tagged | TagDrained | Cleared.

#[export] Instance opener_eq_dec : EqDecision opener.
Proof. solve_decision. Defined.
#[export] Instance collapser_eq_dec : EqDecision collapser.
Proof. solve_decision. Defined.

Record cache := {
  openers : gmap nat opener;
  collapse : option collapser;
  i_writecount : Z;                     (** in memory *)
  nr_thps : Z;                          (** in memory *)
  thps : Z                              (** huge pages in the page cache *)
}.

Definition set_opener (w : nat) (o : option opener) (s : cache) : cache :=
  {| openers := put_slot w o (openers s); collapse := collapse s; i_writecount := i_writecount s; nr_thps := nr_thps s; thps := thps s |}.
Definition set_collapse (c : option collapser) (s : cache) : cache :=
  {| openers := openers s; collapse := c; i_writecount := i_writecount s; nr_thps := nr_thps s; thps := thps s |}.
Definition add_mem (dw dn dt : Z) (s : cache) : cache :=
  {| openers := openers s; collapse := collapse s; i_writecount := i_writecount s + dw; nr_thps := nr_thps s + dn; thps := thps s + dt |}.

(** ** The opener *)

(** The next step of opener [w]: smp_mb; filemap_nr_thps; and, with the lock of the page
    cache, unmap_mapping_range and truncate_inode_pages. *)
Definition opener_step (w : nat) (s : cache) : option cache :=
  o ← openers s !! w;
  match o with
  | Counted => Some (set_opener w (Some Drained) (add_mem 1 0 0 s))
  | Drained => Some (set_opener w (Some (if c_true (nr_thps s) then Dropping else Opened)) s)
  | Dropping => match collapse s with
                | None => Some (set_opener w (Some Opened) (add_mem 0 (- thps s) (- thps s) s))
                | Some _ => None
                end
  | Opened => None
  end.

(** ** The collapse, by what its side of the pairing documents *)

Definition collapse_step (s : cache) : option cache :=
  c ← collapse s;
  match c with
  | Tagged => Some (set_collapse (Some TagDrained) (add_mem 0 1 0 s))
  | TagDrained => if 0 <? i_writecount s then Some (set_collapse None (add_mem 0 (-1) 0 s)) else Some (set_collapse (Some Cleared) s)
  | Cleared => Some (set_collapse None (add_mem 0 0 1 s))
  end.

Inductive event :=
  | GetWriteAccess (w : nat) | OpenerStep (w : nat) | PutWriteAccess (w : nat)
  | StartCollapse | CollapseStep.

(** A writer counts itself and later no longer; the store buffers may drain at any time
    before the barrier, which is the same step. *)
Definition cache_step (e : event) (s : cache) : option cache :=
  match e with
  | GetWriteAccess w => match openers s !! w with None => Some (set_opener w (Some Counted) s) | Some _ => None end
  | OpenerStep w => opener_step w s
  | PutWriteAccess w => match openers s !! w with Some Opened => Some (set_opener w None (add_mem (-1) 0 0 s)) | _ => None end
  | StartCollapse => match collapse s with None => Some (set_collapse (Some Tagged) s) | Some _ => None end
  | CollapseStep => collapse_step s
  end.

(** ** Nobody has a file with huge pages open for writing *)

(** The opener's count is in memory. *)
Definition in_memory (o : opener) : Z := match o with Counted => 0 | _ => 1 end.
Definition tag_in_memory (c : option collapser) : Z := match c with Some TagDrained | Some Cleared => 1 | _ => 0 end.

Record cache_inv (s : cache) : Prop := {
  hc_writers : i_writecount s = csum in_memory (openers s);
  hc_pages : nr_thps s = thps s + tag_in_memory (collapse s);
  hc_nonneg : 0 <= thps s;
  hc_excl : forall w, openers s !! w = Some Opened -> thps s = 0 /\ collapse s <> Some Cleared
}.

Lemma in_memory_nonneg o : 0 <= in_memory o.
Proof. by destruct o. Qed.

(** An opener whose count is in memory is seen by the collapse. *)
Lemma counted_seen s w o : cache_inv s -> openers s !! w = Some o -> o <> Counted -> 0 < i_writecount s.
Proof.
  intros I Hw Ho. rewrite (hc_writers _ I). pose proof (csum_member _ _ w o in_memory_nonneg Hw) as H. by destruct o; cbn in H; try lia.
Qed.

Lemma opener_inv s w s' : cache_inv s -> opener_step w s = Some s' -> cache_inv s'.
Proof.
  intros I. unfold opener_step. destruct (openers s !! w) as [o|] eqn:Hw; [|done]. cbn [mbind option_bind].
  assert (Hexcl : forall t o', openers (set_opener w (Some o') t) = put_slot w (Some o') (openers t)) by done.
  destruct o; [| | |done].
  - intros [= <-]. constructor; cbn [set_opener add_mem openers collapse i_writecount nr_thps thps].
    + rewrite csum_slot, Hw, (hc_writers _ I). cbn. lia.
    + rewrite (hc_pages _ I). lia.
    + pose proof (hc_nonneg _ I). lia.
    + intros v. destruct (decide (v = w)) as [-> |Hn]; [by rewrite lookup_slot|]. rewrite lookup_slot_ne, Z.add_0_r by done. apply I.
  - intros [= <-]. pose proof (hc_nonneg _ I). pose proof (hc_pages _ I) as Hp. destruct (c_true (nr_thps s)) eqn:Hz.
    + constructor; cbn [set_opener openers collapse i_writecount nr_thps thps]; try done.
      * rewrite csum_slot, Hw, (hc_writers _ I). cbn. lia.
      * intros v. destruct (decide (v = w)) as [-> |Hn]; [by rewrite lookup_slot|]. rewrite lookup_slot_ne by done. apply I.
    + apply c_true_false in Hz. constructor; cbn [set_opener openers collapse i_writecount nr_thps thps]; try done.
      * rewrite csum_slot, Hw, (hc_writers _ I). cbn. lia.
      * intros v _. destruct (collapse s) as [[]|]; cbn in Hp; split; try lia; done.
  - destruct (collapse s) as [c|] eqn:Hc; [done|]. intros [= <-]. pose proof (hc_pages _ I) as Hp. rewrite Hc in Hp. cbn in Hp.
    constructor; cbn [set_opener add_mem openers collapse i_writecount nr_thps thps]; rewrite ?Hc; cbn.
    + change (<[w := Opened]> (openers s)) with (put_slot w (Some Opened) (openers s)). rewrite csum_slot, Hw, (hc_writers _ I). cbn. lia.
    + lia.
    + lia.
    + intros v _. split; [lia|done].
Qed.

Lemma collapse_inv s s' : cache_inv s -> collapse_step s = Some s' -> cache_inv s'.
Proof.
  intros I. unfold collapse_step. pose proof (hc_pages _ I) as Hp. pose proof (hc_nonneg _ I). destruct (collapse s) as [[]|] eqn:Hc; [| | |done]; cbn [mbind option_bind].
  - intros [= <-]. constructor; cbn in *; rewrite ?Z.add_0_r; try lia; [apply I|]. intros w Hw. by destruct (hc_excl _ I w Hw) as [-> _].
  - destruct (Z.ltb_spec 0 (i_writecount s)) as [Hi|Hi]; intros [= <-]; constructor; cbn in *; rewrite ?Z.add_0_r; try lia; try apply I.
    + intros w Hw. by destruct (hc_excl _ I w Hw) as [-> _].
    + intros w Hw. pose proof (counted_seen s w Opened I Hw ltac:(done)). lia.
  - intros [= <-]. constructor; cbn in *; rewrite ?Z.add_0_r; try lia; [apply I|]. intros w Hw. by destruct (hc_excl _ I w Hw) as [_ Hx]; rewrite Hc in Hx.
Qed.

Lemma cache_step_inv e s s' : cache_inv s -> cache_step e s = Some s' -> cache_inv s'.
Proof.
  intros I. destruct e as [w|w|w| |]; cbn [cache_step]; [| | | |by apply collapse_inv].
  - destruct (openers s !! w) eqn:Hw; [done|]. intros [= <-]. constructor; cbn [set_opener openers collapse i_writecount nr_thps thps]; try apply I.
    + rewrite csum_slot, Hw, (hc_writers _ I). cbn. lia.
    + intros v. destruct (decide (v = w)) as [-> |Hn]; [by rewrite lookup_slot|]. rewrite lookup_slot_ne by done. apply I.
  - apply opener_inv; done.
  - destruct (openers s !! w) as [[]|] eqn:Hw; try done. intros [= <-]. constructor; cbn [set_opener add_mem openers collapse i_writecount nr_thps thps]; rewrite ?Z.add_0_r; try apply I.
    + rewrite csum_slot, Hw, (hc_writers _ I). cbn. lia.
    + intros v. destruct (decide (v = w)) as [-> |Hn]; [by rewrite lookup_slot|]. rewrite lookup_slot_ne by done. apply I.
  - destruct (collapse s) as [c|] eqn:Hc; [done|]. intros [= <-]. pose proof (hc_pages _ I) as Hp. rewrite Hc in Hp. constructor; cbn in *; try apply I; [done|].
    intros w Hw. by destruct (hc_excl _ I w Hw).
Qed.

Definition closed_cache (n : Z) : cache := {| openers := ∅; collapse := None; i_writecount := 0; nr_thps := n; thps := n |}.

Inductive cache_reachable (n : Z) : cache -> Prop :=
  | cache_start : cache_reachable n (closed_cache n)
  | cache_next e s s' : cache_reachable n s -> cache_step e s = Some s' -> cache_reachable n s'.

Lemma cache_reachable_inv n s : 0 <= n -> cache_reachable n s -> cache_inv s.
Proof. intros Hn. induction 1 as [|e s s' _ I Hs]; [by constructor; cbn; try lia|by eapply cache_step_inv]. Qed.

(** C23: whatever huge pages the page cache held, and however any number of opens for
    writing, their closes and the collapses of pages into huge ones interleave, with
    writes that reach memory only at the barriers: while a file is open for writing its
    page cache holds no huge page and none can be inserted; and an open is never held up
    but by a collapse that is about to leave the lock. *)
Theorem no_huge_pages_under_writers n s : 0 <= n -> cache_reachable n s ->
  (forall w, openers s !! w = Some Opened -> thps s = 0 /\ forall s', cache_step CollapseStep s = Some s' -> thps s' = 0) /\
  (forall w o, openers s !! w = Some o -> o <> Opened -> opener_step w s = None -> is_Some (collapse s) /\ is_Some (collapse_step s)).
Proof.
  intros Hn H. pose proof (cache_reachable_inv n s Hn H) as I. split.
  - intros w Hw. destruct (hc_excl _ I w Hw) as [H0 Hc]. split; [done|]. intros s' Hs. cbn in Hs. unfold collapse_step in Hs.
    destruct (collapse s) as [[]|]; [| |done|done]; cbn [mbind option_bind] in Hs; [|case_if_in Hs]; injection Hs as <-; cbn; lia.
  - intros w o Hw Ho. unfold opener_step. rewrite Hw. cbn [mbind option_bind]. destruct o; try done. destruct (collapse s) as [c|] eqn:Hc; [|done]. intros _.
    split; [done|]. unfold collapse_step. rewrite Hc. cbn [mbind option_bind]. destruct c; try done. by case_if.
Qed.

(** A collapse and an open at the same time; the open finds the tag and drops the page. *)
Definition demo_events : list event :=
  [StartCollapse; CollapseStep; CollapseStep; GetWriteAccess 4; OpenerStep 4; OpenerStep 4; CollapseStep; OpenerStep 4].

Fixpoint cache_steps (l : list event) (s : cache) : option cache := match l with [] => Some s | e :: l => s ← cache_step e s; cache_steps l s end.

Lemma cache_steps_reachable n l s s' : cache_reachable n s -> cache_steps l s = Some s' -> cache_reachable n s'.
Proof.
  revert s. induction l as [|e l IH]; intros s H; cbn; [by intros [= <-]|]. destruct (cache_step e s) as [s1|] eqn:He; [|done]. cbn. apply IH. by eapply cache_next.
Qed.

Lemma no_huge_pages_under_writers_witness : exists s, cache_steps demo_events (closed_cache 2) = Some s /\ openers s !! 4%nat = Some Opened /\ thps s = 0.
Proof.
  assert (Hd : match cache_steps demo_events (closed_cache 2) with Some s => bool_decide (openers s !! 4%nat = Some Opened) | None => false end = true) by (vm_compute; reflexivity).
  destruct (cache_steps demo_events (closed_cache 2)) as [s|] eqn:Hs; [|discriminate Hd]. apply bool_decide_eq_true in Hd. exists s. split; [reflexivity|]. split; [exact Hd|].
  exact (proj1 (proj1 (no_huge_pages_under_writers 2 s ltac:(lia) (cache_steps_reachable _ _ _ _ (cache_start 2) Hs)) 4%nat Hd)).
Defined.
