(* ===== verification/PathOps.v ===== *)
(** * Path-based operations (fs/open.c: truncate, fallocate, chdir, chroot, chmod, chown)

    Operations that look a path up, take rights on the mount and the inode, ask the
    security hooks, apply an attribute change and give everything back.  They are
    written in a small state monad; the state counts what is held and logs the
    attribute changes handed to notify_change.  Lookup, permission checks, hooks
    and the file system itself (notify_change, fallocate methods) are parameters;
    chmod and chown start over for each delegation they had to break, and the
    delegations in the way form a finite list. *)
From S2P Require Import Prelude UserMem Track Seek Open DentryOpen.

(** ** State *)

Record iattr := { ia_valid : Z; ia_mode : Z; ia_size : Z; ia_uid : Z; ia_gid : Z }.

Inductive resource := PathRef | MntWrite | InodeWrite | InodeLock | SbWrite | FdRef.

#[export] Instance resource_eq_dec : EqDecision resource.
Proof. solve_decision. Defined.

(** An inode as these functions see it. *)
Record inode := {
  i_ino : Z; i_mode : Z; s_isdir : bool; s_isreg : bool; s_isfifo : bool; s_isblk : bool;
  is_append : bool; is_immutable : bool; is_swapfile : bool; s_maxbytes : Z; d_can_lookup : bool
}.

Record path_state := {
  held : resource -> Z;
  changes : list (Z * iattr);          (** inode and attributes, newest first *)
  allocated : list (inode * Z * Z * Z); (** inode, mode, offset and length of fallocate *)
  pwd : Z; root : Z
}.

(** ** A state monad *)

Definition M (A : Type) : Type := path_state -> A * path_state.
Definition ret {A} (a : A) : M A := fun s => (a, s).
Definition bind {A B} (m : M A) (k : A -> M B) : M B := fun s => let '(a, s) := m s in k a s.
Notation "x <- m ;; k" := (bind m (fun x => k)) (at level 100, m at next level, right associativity) : kernel_scope.
Notation "m ;; k" := (bind m (fun _ => k)) (at level 100, right associativity) : kernel_scope.
Local Open Scope kernel_scope.

Definition hold (d : Z) (r : resource) : M unit := fun s =>
  (tt, {| held := fun q => held s q + (if decide (q = r) then d else 0); changes := changes s;
          allocated := allocated s; pwd := pwd s; root := root s |}).
Definition take_ref := hold 1.
Definition drop_ref := hold (-1).

Definition log_change (i : Z) (a : iattr) : M unit := fun s =>
  (tt, {| held := held s; changes := (i, a) :: changes s; allocated := allocated s; pwd := pwd s; root := root s |}).
Definition log_alloc (x : inode * Z * Z * Z) : M unit := fun s =>
  (tt, {| held := held s; changes := changes s; allocated := x :: allocated s; pwd := pwd s; root := root s |}).
Definition set_fs_pwd (p : Z) : M unit := fun s =>
  (tt, {| held := held s; changes := changes s; allocated := allocated s; pwd := p; root := root s |}).
Definition set_fs_root (p : Z) : M unit := fun s =>
  (tt, {| held := held s; changes := changes s; allocated := allocated s; pwd := pwd s; root := p |}).

(** A function that takes [r] when it answers 0. *)
Definition acquire (r : resource) (answer : Z) : M Z :=
  if c_true answer then ret answer else take_ref r;; ret 0.

(** ** Constants *)

Definition LOOKUP_EMPTY := 16384.
Definition LOOKUP_REVAL := 32.
Definition AT_SYMLINK_NOFOLLOW := 256.
Definition AT_EMPTY_PATH := 4096.
Definition MAY_EXEC := 1.
Definition MAY_CHDIR := 64.
Definition ATTR_MODE := 1.
Definition ATTR_UID := 2.
Definition ATTR_GID := 4.
Definition ATTR_SIZE := 8.
Definition ATTR_MTIME := 32.
Definition ATTR_CTIME := 64.
Definition ATTR_FORCE := 512.
Definition ATTR_KILL_SUID := 2048.
Definition ATTR_KILL_SGID := 4096.
Definition ATTR_FILE := 8192.
Definition ATTR_KILL_PRIV := 16384.
Definition NOID := 4294967295.
Definition FALLOC_FL_KEEP_SIZE := 1.
Definition FALLOC_FL_PUNCH_HOLE := 2.
Definition FALLOC_FL_COLLAPSE_RANGE := 8.
Definition FALLOC_FL_ZERO_RANGE := 16.
Definition FALLOC_FL_INSERT_RANGE := 32.
Definition FALLOC_FL_UNSHARE_RANGE := 64.
Definition FALLOC_FL_SUPPORTED_MASK := 123.

(** linux/namei.h: one retry with LOOKUP_REVAL after ESTALE. *)
Definition retry_estale (error flags : Z) : bool := (error =? - ESTALE) && negb (has flags LOOKUP_REVAL).

(** An open file: its mode, its flags, the inode of its path (f_path.dentry->d_inode), the
    inode it works on (file_inode, another one on a stacked file system) and its path. *)
Record pfile := { p_mode : Z; p_flags : Z; p_inode : inode; p_file_inode : inode; p_path : Z }.

Class PathEnv := {
  user_path_at : Z -> Z -> Z -> Z + Z;           (** dfd, name, lookup flags: error or path *)
  path_inode : Z -> inode;
  path_permission : Z -> Z -> Z;                 (** path, mask *)
  capable_chroot : bool;
  security_path_truncate : Z -> Z;
  security_file_truncate : Z -> Z;
  security_path_chroot : Z -> Z;
  security_path_chmod : Z -> Z -> Z;
  security_path_chown : Z -> Z -> Z -> Z;
  security_file_perm : Z -> Z;
  fsnotify_area_perm : Z -> Z -> Z;
  mnt_want_write : Z -> Z;
  inode_write_access : Z -> Z;
  break_lease_write : Z -> Z;
  dentry_needs_remove_privs : Z -> Z;
  notify_change : Z -> iattr -> Z;               (** its answer when no delegation is in the way *)
  (** the answers of break_deleg_wait for the delegations found in the way, in order *)
  deleg_breaks : Z -> list Z;
  fallocate_method : option (Z -> Z -> Z -> Z -> Z);
  caller_kuid : Z -> Z;                          (** make_kuid and make_kgid of the caller *)
  caller_kgid : Z -> Z;
  setattr_should_drop_sgid : Z -> Z;
  drop_sgid_attrs : forall i, setattr_should_drop_sgid i = 0 \/ setattr_should_drop_sgid i = ATTR_KILL_SGID;
  remove_privs_attrs : forall i, 0 <= dentry_needs_remove_privs i ->
    clear (dentry_needs_remove_privs i) (ATTR_KILL_SUID + ATTR_KILL_SGID + ATTR_KILL_PRIV) = 0;
  user_path_err : forall d n f e, user_path_at d n f = inl e -> e <> 0
}.

Section ops.
Context {E : PathEnv}.

(** ** Lookup with one retry *)

(** [body] answers the error and whether the retry test is reached; fuel 2. *)
Fixpoint retry (fuel : nat) (body : Z -> M (Z * bool)) (lookup_flags : Z) : M Z :=
  match fuel with
  | O => ret (- ESTALE)
  | S fuel =>
      eb <- body lookup_flags;;
      let '(error, tested) := eb in
      if tested && retry_estale error lookup_flags then retry fuel body (Z.lor lookup_flags LOOKUP_REVAL)
      else ret error
  end.

Definition lookup (dfd name flags : Z) : M (Z + Z) :=
  match user_path_at dfd name flags with
  | inl e => ret (inl e)
  | inr p => take_ref PathRef;; ret (inr p)
  end.

(** ** Truncate *)

Definition do_truncate (ino length time_attrs : Z) (filp : bool) : M Z :=
  if length <? 0 then ret (- EINVAL)
  else
    let ia_valid := Z.lor ATTR_SIZE time_attrs in
    let ia_valid := if filp then Z.lor ia_valid ATTR_FILE else ia_valid in
    let r := dentry_needs_remove_privs ino in
    if r <? 0 then ret r
    else
      let ia_valid := if c_true r then Z.lor ia_valid (Z.lor r ATTR_FORCE) else ia_valid in
      let newattrs := {| ia_valid := ia_valid; ia_mode := 0; ia_size := length; ia_uid := 0; ia_gid := 0 |} in
      take_ref InodeLock;;
      log_change ino newattrs;;
      drop_ref InodeLock;;
      ret (notify_change ino newattrs).

Definition vfs_truncate (path length : Z) : M Z :=
  let inode := path_inode path in
  if s_isdir inode then ret (- EISDIR)
  else if negb (s_isreg inode) then ret (- EINVAL)
  else
    error <- acquire MntWrite (mnt_want_write path);;
    if c_true error then ret error
    else
      error <-
        (let error := path_permission path MAY_WRITE in
         if c_true error then ret error
         else if is_append inode then ret (- EPERM)
         else
           error <- acquire InodeWrite (inode_write_access (i_ino inode));;
           if c_true error then ret error
           else
             error <-
               (let error := break_lease_write (i_ino inode) in
                if c_true error then ret error
                else
                  let error := security_path_truncate path in
                  if c_true error then ret error else do_truncate (i_ino inode) length 0 false);;
             drop_ref InodeWrite;; ret error);;
      drop_ref MntWrite;; ret error.

Definition do_sys_truncate (pathname length : Z) : M Z :=
  if length <? 0 then ret (- EINVAL)
  else
    retry 2 (fun lookup_flags =>
      r <- lookup AT_FDCWD pathname lookup_flags;;
      match r with
      | inl e => ret (e, true)
      | inr path => error <- vfs_truncate path length;; drop_ref PathRef;; ret (error, true)
      end) LOOKUP_FOLLOW.

(** [f]: the file of the descriptor. *)
Definition do_sys_ftruncate (f : option pfile) (length : Z) (small : bool) : M Z :=
  if length <? 0 then ret (- EINVAL)
  else
    match f with
    | None => ret (- EBADF)
    | Some f =>
        take_ref FdRef;;
        error <-
          (let small := if has (p_flags f) O_LARGEFILE then false else small in
           let inode := p_inode f in
           if negb (s_isreg inode) || negb (has (p_mode f) FMODE_WRITE) then ret (- EINVAL)
           else if small && (MAX_NON_LFS <? length) then ret (- EINVAL)
           else if is_append (p_file_inode f) then ret (- EPERM)
           else
             take_ref SbWrite;;
             error <-
               (let error := security_file_truncate (p_path f) in
                if c_true error then ret error
                else do_truncate (i_ino inode) length (Z.lor ATTR_MTIME ATTR_CTIME) true);;
             drop_ref SbWrite;; ret error);;
        drop_ref FdRef;; ret error
    end.

(** ** Fallocate *)

(** The mode checks. *)
Definition fallocate_mode (mode : Z) : Z :=
  if c_true (clear mode FALLOC_FL_SUPPORTED_MASK) then - EOPNOTSUPP
  else if Z.land mode (Z.lor FALLOC_FL_PUNCH_HOLE FALLOC_FL_ZERO_RANGE) =?
          Z.lor FALLOC_FL_PUNCH_HOLE FALLOC_FL_ZERO_RANGE then - EOPNOTSUPP
  else if has mode FALLOC_FL_PUNCH_HOLE && negb (has mode FALLOC_FL_KEEP_SIZE) then - EOPNOTSUPP
  else if has mode FALLOC_FL_COLLAPSE_RANGE && c_true (clear mode FALLOC_FL_COLLAPSE_RANGE) then - EINVAL
  else if has mode FALLOC_FL_INSERT_RANGE && c_true (clear mode FALLOC_FL_INSERT_RANGE) then - EINVAL
  else if has mode FALLOC_FL_UNSHARE_RANGE
          && c_true (clear mode (Z.lor FALLOC_FL_UNSHARE_RANGE FALLOC_FL_KEEP_SIZE)) then - EINVAL
  else 0.

Definition vfs_fallocate (f : pfile) (mode offset len : Z) : M Z :=
  let inode := p_file_inode f in
  if (offset <? 0) || (len <=? 0) then ret (- EINVAL)
  else if c_true (fallocate_mode mode) then ret (fallocate_mode mode)
  else if negb (has (p_mode f) FMODE_WRITE) then ret (- EBADF)
  else if c_true (clear mode FALLOC_FL_KEEP_SIZE) && is_append inode then ret (- EPERM)
  else if is_immutable inode then ret (- EPERM)
  else if is_swapfile inode then ret (- ETXTBSY)
  else if c_true (security_file_perm MAY_WRITE) then ret (security_file_perm MAY_WRITE)
  else if c_true (fsnotify_area_perm offset len) then ret (fsnotify_area_perm offset len)
  else if s_isfifo inode then ret (- ESPIPE)
  else if s_isdir inode then ret (- EISDIR)
  else if negb (s_isreg inode) && negb (s_isblk inode) then ret (- ENODEV)
  else if (s_maxbytes inode <? i64 (offset + len)) || (i64 (offset + len) <? 0) then ret (- EFBIG)
  else
    match fallocate_method with
    | None => ret (- EOPNOTSUPP)
    | Some m =>
        take_ref SbWrite;;
        log_alloc (inode, mode, offset, len);;
        drop_ref SbWrite;;
        ret (m (i_ino inode) mode offset len)
    end.

Definition ksys_fallocate (f : option pfile) (mode offset len : Z) : M Z :=
  match f with
  | None => ret (- EBADF)
  | Some f => take_ref FdRef;; error <- vfs_fallocate f mode offset len;; drop_ref FdRef;; ret error
  end.

(** ** chdir, fchdir, chroot *)

Definition sys_chdir (filename : Z) : M Z :=
  retry 2 (fun lookup_flags =>
    r <- lookup AT_FDCWD filename lookup_flags;;
    match r with
    | inl e => ret (e, false)
    | inr path =>
        error <-
          (let error := path_permission path (Z.lor MAY_EXEC MAY_CHDIR) in
           if c_true error then ret error else set_fs_pwd path;; ret 0);;
        drop_ref PathRef;; ret (error, true)
    end) (Z.lor LOOKUP_FOLLOW LOOKUP_DIRECTORY).

Definition sys_fchdir (f : option pfile) : M Z :=
  match f with
  | None => ret (- EBADF)
  | Some f =>
      take_ref FdRef;;
      error <-
        (if negb (d_can_lookup (p_inode f)) then ret (- ENOTDIR)
         else
           let error := path_permission (p_path f) (Z.lor MAY_EXEC MAY_CHDIR) in
           if c_true error then ret error else set_fs_pwd (p_path f);; ret 0);;
      drop_ref FdRef;; ret error
  end.

Definition sys_chroot (filename : Z) : M Z :=
  retry 2 (fun lookup_flags =>
    r <- lookup AT_FDCWD filename lookup_flags;;
    match r with
    | inl e => ret (e, false)
    | inr path =>
        error <-
          (let error := path_permission path (Z.lor MAY_EXEC MAY_CHDIR) in
           if c_true error then ret error
           else if negb capable_chroot then ret (- EPERM)
           else
             let error := security_path_chroot path in
             if c_true error then ret error else set_fs_root path;; ret 0);;
        drop_ref PathRef;; ret (error, true)
    end) (Z.lor LOOKUP_FOLLOW LOOKUP_DIRECTORY).

(** ** chmod and chown *)

(** [retry_deleg]: [round] answers an error, or that notify_change was called. *)
Fixpoint deleg_loop (breaks : list Z) (ino : Z) (round : M (Z + iattr)) : M Z :=
  r <- round;;
  match r with
  | inl error => ret error
  | inr newattrs =>
      match breaks with
      | [] => ret (notify_change ino newattrs)
      | error :: breaks => if c_true error then ret error else deleg_loop breaks ino round
      end
  end.

Definition chmod_common (path mode : Z) : M Z :=
  let inode := path_inode path in
  error <- acquire MntWrite (mnt_want_write path);;
  if c_true error then ret error
  else
    error <- deleg_loop (deleg_breaks (i_ino inode)) (i_ino inode)
      (take_ref InodeLock;;
       r <- (let error := security_path_chmod path mode in
             if c_true error then ret (inl error)
             else
               let newattrs :=
                 {| ia_valid := Z.lor ATTR_MODE ATTR_CTIME;
                    ia_mode := Z.lor (Z.land mode S_IALLUGO) (clear (i_mode inode) S_IALLUGO);
                    ia_size := 0; ia_uid := 0; ia_gid := 0 |} in
               log_change (i_ino inode) newattrs;; ret (inr newattrs));;
       drop_ref InodeLock;; ret r);;
    drop_ref MntWrite;; ret error.

Definition sys_fchmod (f : option pfile) (mode : Z) : M Z :=
  match f with
  | None => ret (- EBADF)
  | Some f => take_ref FdRef;; err <- chmod_common (p_path f) mode;; drop_ref FdRef;; ret err
  end.

Definition at_lookup_flags (flags : Z) : Z :=
  let l := if has flags AT_SYMLINK_NOFOLLOW then 0 else LOOKUP_FOLLOW in
  if has flags AT_EMPTY_PATH then Z.lor l LOOKUP_EMPTY else l.

Definition do_fchmodat (dfd filename mode flags : Z) : M Z :=
  if c_true (clear flags (Z.lor AT_SYMLINK_NOFOLLOW AT_EMPTY_PATH)) then ret (- EINVAL)
  else
    retry 2 (fun lookup_flags =>
      r <- lookup dfd filename lookup_flags;;
      match r with
      | inl e => ret (e, false)
      | inr path => error <- chmod_common path mode;; drop_ref PathRef;; ret (error, true)
      end) (at_lookup_flags flags).

Definition setattr_vfsuid (attr : iattr) (kuid : Z) : option iattr :=
  if kuid =? NOID then None
  else Some {| ia_valid := Z.lor (ia_valid attr) ATTR_UID; ia_mode := ia_mode attr; ia_size := ia_size attr;
               ia_uid := kuid; ia_gid := ia_gid attr |}.

Definition setattr_vfsgid (attr : iattr) (kgid : Z) : option iattr :=
  if kgid =? NOID then None
  else Some {| ia_valid := Z.lor (ia_valid attr) ATTR_GID; ia_mode := ia_mode attr; ia_size := ia_size attr;
               ia_uid := ia_uid attr; ia_gid := kgid |}.

(** The attributes for the ids that were given; [None]: an id does not map. *)
Definition chown_attrs (user group : Z) : option iattr :=
  let attrs := {| ia_valid := ATTR_CTIME; ia_mode := 0; ia_size := 0; ia_uid := NOID; ia_gid := NOID |} in
  match (if negb (user =? NOID) then setattr_vfsuid attrs (caller_kuid user) else Some attrs) with
  | None => None
  | Some attrs => if negb (group =? NOID) then setattr_vfsgid attrs (caller_kgid group) else Some attrs
  end.

Definition kill_privs (inode : inode) (attr : iattr) : iattr :=
  if negb (s_isdir inode) then
    {| ia_valid := Z.lor (ia_valid attr) (Z.lor (Z.lor ATTR_KILL_SUID ATTR_KILL_PRIV)
                                            (setattr_should_drop_sgid (i_ino inode)));
       ia_mode := ia_mode attr; ia_size := ia_size attr; ia_uid := ia_uid attr; ia_gid := ia_gid attr |}
  else attr.

Definition chown_common (path user group : Z) : M Z :=
  let inode := path_inode path in
  deleg_loop (deleg_breaks (i_ino inode)) (i_ino inode)
    (match chown_attrs user group with
     | None => ret (inl (- EINVAL))
     | Some newattrs =>
         take_ref InodeLock;;
         let newattrs := kill_privs inode newattrs in
         r <- (let error := security_path_chown path (ia_uid newattrs) (ia_gid newattrs) in
               if c_true error then ret (inl error)
               else log_change (i_ino inode) newattrs;; ret (inr newattrs));;
         drop_ref InodeLock;; ret r
     end).

Definition do_fchownat (dfd filename user group flag : Z) : M Z :=
  if c_true (clear flag (Z.lor AT_SYMLINK_NOFOLLOW AT_EMPTY_PATH)) then ret (- EINVAL)
  else
    retry 2 (fun lookup_flags =>
      r <- lookup dfd filename lookup_flags;;
      match r with
      | inl e => ret (e, false)
      | inr path =>
          error <-
            (error <- acquire MntWrite (mnt_want_write path);;
             if c_true error then ret error
             else error <- chown_common path user group;; drop_ref MntWrite;; ret error);;
          drop_ref PathRef;; ret (error, true)
      end) (at_lookup_flags flag).

Definition vfs_fchown (f : pfile) (user group : Z) : M Z :=
  error <- acquire MntWrite (mnt_want_write (p_path f));;
  if c_true error then ret error
  else error <- chown_common (p_path f) user group;; drop_ref MntWrite;; ret error.

Definition ksys_fchown (f : option pfile) (user group : Z) : M Z :=
  match f with
  | None => ret (- EBADF)
  | Some f => take_ref FdRef;; error <- vfs_fchown f user group;; drop_ref FdRef;; ret error
  end.

(** ** System call entry points *)

Definition sys_truncate (path length : Z) : M Z := do_sys_truncate path length.
Definition compat_truncate (path length : Z) : M Z := do_sys_truncate path length.
(** An unsigned long becomes a loff_t. *)
Definition sys_ftruncate (f : option pfile) (length : Z) : M Z := do_sys_ftruncate f (i64 length) true.
Definition compat_ftruncate (f : option pfile) (length : Z) : M Z := do_sys_ftruncate f length true.
Definition sys_fallocate (f : option pfile) (mode offset len : Z) : M Z := ksys_fallocate f mode offset len.

(** The calls of 32-bit programs with 64-bit sizes: on a 32-bit kernel the size comes whole
    and ftruncate64 lifts the limit of small files; on a 64-bit kernel it comes in two
    registers, the low half first on a little-endian machine, and compat_arg_u64_glue
    (linux/compat.h) makes an unsigned word of them, which becomes a loff_t. *)
Definition compat_arg_u64_glue (lo hi : Z) : Z := Z.lor (Z.shiftl hi 32) lo.
Definition sys_truncate64 (path length : Z) : M Z := do_sys_truncate path length.
Definition sys_ftruncate64 (f : option pfile) (length : Z) : M Z := do_sys_ftruncate f length false.
(** The inline functions of linux/syscalls.h for calls from inside the kernel. *)
Definition ksys_truncate (pathname length : Z) : M Z := do_sys_truncate pathname length.
Definition ksys_ftruncate (f : option pfile) (length : Z) : M Z := do_sys_ftruncate f length true.
Definition ksys_chown (filename user group : Z) : M Z := do_fchownat AT_FDCWD filename user group 0.
Definition ksys_lchown (filename user group : Z) : M Z := do_fchownat AT_FDCWD filename user group AT_SYMLINK_NOFOLLOW.
Definition compat_truncate64 (path lo hi : Z) : M Z := ksys_truncate path (i64 (compat_arg_u64_glue lo hi)).
Definition compat_ftruncate64 (f : option pfile) (lo hi : Z) : M Z := ksys_ftruncate f (i64 (compat_arg_u64_glue lo hi)).
Definition compat_fallocate (f : option pfile) (mode off_lo off_hi len_lo len_hi : Z) : M Z :=
  ksys_fallocate f mode (i64 (compat_arg_u64_glue off_lo off_hi)) (i64 (compat_arg_u64_glue len_lo len_hi)).
Definition sys_fchmodat2 (dfd filename mode flags : Z) : M Z := do_fchmodat dfd filename mode flags.
Definition sys_fchmodat (dfd filename mode : Z) : M Z := do_fchmodat dfd filename mode 0.
Definition sys_chmod (filename mode : Z) : M Z := do_fchmodat AT_FDCWD filename mode 0.
Definition sys_fchownat (dfd filename user group flag : Z) : M Z := do_fchownat dfd filename user group flag.
Definition sys_chown (filename user group : Z) : M Z := do_fchownat AT_FDCWD filename user group 0.
Definition sys_lchown (filename user group : Z) : M Z :=
  do_fchownat AT_FDCWD filename user group AT_SYMLINK_NOFOLLOW.
Definition sys_fchown (f : option pfile) (user group : Z) : M Z := ksys_fchown f user group.

End ops.

(** ** Balanced use of resources *)

Definition balanced {A} (m : M A) : Prop := forall s r, held (m s).2 r = held s r.

Lemma balanced_ret {A} (a : A) : balanced (ret a).
Proof. done. Qed.

Lemma bind_snd {A B} (m : M A) (k : A -> M B) s : (bind m k s).2 = (k (m s).1 (m s).2).2.
Proof. unfold bind. by destruct (m s). Qed.

Lemma balanced_bind {A B} (m : M A) (k : A -> M B) :
  balanced m -> (forall a, balanced (k a)) -> balanced (bind m k).
Proof. intros Hm Hk s r. rewrite bind_snd, Hk. apply Hm. Qed.

Lemma balanced_if {A} (b : bool) (m1 m2 : M A) : balanced m1 -> balanced m2 -> balanced (if b then m1 else m2).
Proof. by destruct b. Qed.

Lemma balanced_log_change i a : balanced (log_change i a).
Proof. done. Qed.

Lemma balanced_log_alloc x : balanced (log_alloc x).
Proof. done. Qed.

Lemma balanced_set_pwd p : balanced (set_fs_pwd p).
Proof. done. Qed.

Lemma balanced_set_root p : balanced (set_fs_root p).
Proof. done. Qed.

(** Taking a resource, working, giving it back. *)
Lemma balanced_bracket {A B} q (body : M A) (f : A -> B) :
  balanced body -> balanced (take_ref q;; x <- body;; drop_ref q;; ret (f x)).
Proof.
  intros Hb s r. rewrite !bind_snd. cbn [ret snd]. unfold drop_ref, take_ref, hold. cbn [snd held].
  rewrite Hb. cbn [held]. destruct (decide (r = q)); lia.
Qed.

Lemma balanced_lock {A} (m1 : M unit) (a : A) :
  balanced m1 -> balanced (take_ref InodeLock;; m1;; drop_ref InodeLock;; ret a).
Proof. intros H. exact (balanced_bracket InodeLock m1 (fun _ => a) H). Qed.

Lemma balanced_sb {A} (m1 : M unit) (a : A) :
  balanced m1 -> balanced (take_ref SbWrite;; m1;; drop_ref SbWrite;; ret a).
Proof. intros H. exact (balanced_bracket SbWrite m1 (fun _ => a) H). Qed.

Lemma balanced_acquire q a (body : M Z) :
  balanced body ->
  balanced (error <- acquire q a;; if c_true error then ret error else error <- body;; drop_ref q;; ret error).
Proof.
  intros Hb. unfold acquire. destruct (c_true a) eqn:Ha.
  - intros s r. unfold bind, ret. by rewrite Ha.
  - exact (balanced_bracket q body (fun x => x) Hb).
Qed.

Section balance.
Context {E : PathEnv}.

Lemma balanced_lookup dfd name flags b (body : Z -> M Z) :
  (forall p, balanced (body p)) ->
  balanced (r <- lookup dfd name flags;;
            match r with
            | inl e => ret (e, b)
            | inr path => error <- body path;; drop_ref PathRef;; ret (error, true)
            end).
Proof.
  intros Hb. unfold lookup. destruct (user_path_at dfd name flags) as [e|p]; [done|].
  exact (balanced_bracket PathRef (body p) (fun x => (x, true)) (Hb p)).
Qed.

Lemma balanced_retry fuel body flags : (forall f, balanced (body f)) -> balanced (retry fuel body flags).
Proof.
  intros Hb. revert flags. induction fuel as [|fuel IH]; intros flags; [done|].
  cbn [retry]. apply balanced_bind; [done|]. intros [e t]. by apply balanced_if.
Qed.

Lemma balanced_deleg breaks ino round : balanced round -> balanced (deleg_loop breaks ino round).
Proof.
  intros Hb. induction breaks as [|e breaks IH]; cbn [deleg_loop];
    (apply balanced_bind; [done|]); intros [x|a]; try done. by apply balanced_if.
Qed.

End balance.

#[export] Hint Resolve balanced_ret balanced_log_change balanced_log_alloc balanced_set_pwd balanced_set_root
  balanced_lock balanced_sb balanced_acquire balanced_lookup balanced_retry balanced_deleg : kern.

(** Walk through the code: a bracket where there is one, else the branches. *)
Ltac balance_with lem :=
  repeat first
    [ done | apply lem
    | apply balanced_acquire | apply balanced_lookup; intros | apply balanced_retry; intros
    | apply balanced_deleg
    | apply balanced_lock | apply balanced_sb
    | apply (balanced_bracket _ _ (fun x => x))
    | apply balanced_if
    | apply balanced_bind; [|intros] ].

Ltac balance := balance_with @balanced_ret.

Section theorems.
Context {E : PathEnv}.

(** The calls, by what their entry points reach; sizes as the entry points pass them. *)
Inductive path_call :=
| Truncate (name length : Z) | Ftruncate (f : option pfile) (length : Z) (small : bool)
| Fallocate (f : option pfile) (mode offset len : Z)
| Chdir (name : Z) | Fchdir (f : option pfile) | Chroot (name : Z)
| Fchmod (f : option pfile) (mode : Z) | Fchmodat (dfd name mode flags : Z)
| Fchownat (dfd name user group flag : Z) | Fchown (f : option pfile) (user group : Z).

Definition path_exec (c : path_call) : M Z :=
  match c with
  | Truncate n l => do_sys_truncate n l
  | Ftruncate f l b => do_sys_ftruncate f l b
  | Fallocate f m o l => ksys_fallocate f m o l
  | Chdir n => sys_chdir n
  | Fchdir f => sys_fchdir f
  | Chroot n => sys_chroot n
  | Fchmod f m => sys_fchmod f m
  | Fchmodat d n m fl => do_fchmodat d n m fl
  | Fchownat d n u g fl => do_fchownat d n u g fl
  | Fchown f u g => ksys_fchown f u g
  end.

Lemma do_truncate_balanced i l t b : balanced (do_truncate i l t b).
Proof. unfold do_truncate. cbv zeta. balance. Qed.

Lemma vfs_truncate_balanced p l : balanced (vfs_truncate p l).
Proof. unfold vfs_truncate. cbv zeta. balance_with do_truncate_balanced. Qed.

Lemma vfs_fallocate_balanced f m o l : balanced (vfs_fallocate f m o l).
Proof. unfold vfs_fallocate. cbv zeta. balance. destruct fallocate_method; balance. Qed.

Lemma chmod_common_balanced p m : balanced (chmod_common p m).
Proof. unfold chmod_common. cbv zeta. balance. Qed.

Lemma chown_common_balanced p u g : balanced (chown_common p u g).
Proof. unfold chown_common. cbv zeta. balance. destruct (chown_attrs u g); balance. Qed.

Lemma vfs_fchown_balanced f u g : balanced (vfs_fchown f u g).
Proof. unfold vfs_fchown. balance_with chown_common_balanced. Qed.

(** C22: path-based operations give everything back: on every path of truncate,
    ftruncate, fallocate, chdir, fchdir, chroot, chmod, fchmod, chown and fchown, with
    stale handles retried and delegations broken, each path reference, mount write
    right, inode write right, inode lock, freeze protection and file reference taken
    is released, whatever fails. *)
Theorem pathops_balanced c s r : held (path_exec c s).2 r = held s r.
Proof.
  apply (fun H : balanced (path_exec c) => H s r).
  destruct c as [n l|[f|] l b|[f|] m o l|n|[f|]|n|[f|] m|d n m fl|d n u g fl|[f|] u g]; cbn [path_exec].
  - unfold do_sys_truncate. balance_with vfs_truncate_balanced.
  - unfold do_sys_ftruncate. cbv zeta. balance_with do_truncate_balanced.
  - unfold do_sys_ftruncate. balance.
  - unfold ksys_fallocate. balance_with vfs_fallocate_balanced.
  - unfold ksys_fallocate. balance.
  - unfold sys_chdir. balance.
  - unfold sys_fchdir. balance.
  - done.
  - unfold sys_chroot. balance.
  - unfold sys_fchmod. balance_with chmod_common_balanced.
  - done.
  - unfold do_fchmodat. balance_with chmod_common_balanced.
  - unfold do_fchownat. balance_with chown_common_balanced.
  - unfold ksys_fchown. balance_with vfs_fchown_balanced.
  - done.
Qed.

(** One retry is all there is: more fuel changes nothing. *)
Lemma retry_terminates n body flags s : retry (S (S n)) body flags s = retry 2 body flags s.
Proof.
  cbn [retry]. unfold bind. destruct (body flags s) as [[e t] s1]. destruct t; cbn [andb]; [|done].
  destruct (retry_estale e flags); [|done]. destruct (body (Z.lor flags LOOKUP_REVAL) s1) as [[e' t'] s2].
  assert (retry_estale e' (Z.lor flags LOOKUP_REVAL) = false) as ->; [|by rewrite andb_false_r].
  unfold retry_estale. rewrite has_lor. change (has LOOKUP_REVAL LOOKUP_REVAL) with true.
  rewrite orb_true_r. apply andb_false_r.
Qed.

(** ** What is handed to the file system *)

Definition change_ok (x : Z * iattr) : Prop :=
  let '(i, a) := x in
  (has (ia_valid a) ATTR_SIZE = true -> 0 <= ia_size a) /\
  (has (ia_valid a) ATTR_MODE = true ->
   exists path, i = i_ino (path_inode path) /\
     clear (ia_mode a) S_IALLUGO = clear (i_mode (path_inode path)) S_IALLUGO) /\
  (has (ia_valid a) ATTR_UID = true -> ia_uid a <> NOID) /\
  (has (ia_valid a) ATTR_GID = true -> ia_gid a <> NOID).

Definition alloc_ok (x : inode * Z * Z * Z) : Prop :=
  let '(i, mode, offset, len) := x in
  (0 <= offset /\ 0 < len /\ offset + len <= OFFSET_MAX /\ offset + len <= s_maxbytes i) /\
  (is_immutable i = false /\ is_swapfile i = false /\ (s_isreg i = true \/ s_isblk i = true) /\
   (is_append i = true -> clear mode FALLOC_FL_KEEP_SIZE = 0)) /\
  clear mode FALLOC_FL_SUPPORTED_MASK = 0 /\
  (has mode FALLOC_FL_PUNCH_HOLE = true -> has mode FALLOC_FL_KEEP_SIZE = true /\ has mode FALLOC_FL_ZERO_RANGE = false) /\
  (has mode FALLOC_FL_COLLAPSE_RANGE = true -> mode = FALLOC_FL_COLLAPSE_RANGE) /\
  (has mode FALLOC_FL_INSERT_RANGE = true -> mode = FALLOC_FL_INSERT_RANGE) /\
  (has mode FALLOC_FL_UNSHARE_RANGE = true -> clear mode (Z.lor FALLOC_FL_UNSHARE_RANGE FALLOC_FL_KEEP_SIZE) = 0).

Definition valid_state (s : path_state) : Prop := Forall change_ok (changes s) /\ Forall alloc_ok (allocated s).

(** Calls relate the state before to the state after; relations that do not look at
    what is held compose along the code. *)
Definition within {A} (R : relation path_state) (m : M A) : Prop := forall s, R s (m s).2.

Class StateRel (R : relation path_state) := {
  rel_pre :: PreOrder R;
  rel_hold : forall d q s, R s (hold d q s).2
}.

Section within.
Context (R : relation path_state) `{!StateRel R}.

Lemma within_ret {A} (a : A) : within R (ret a).
Proof. intros s. reflexivity. Qed.

Lemma within_bind {A B} (m : M A) (k : A -> M B) :
  within R m -> (forall a, within R (k a)) -> within R (bind m k).
Proof. intros Hm Hk s. rewrite bind_snd. etransitivity; [apply Hm|apply Hk]. Qed.

Lemma within_if {A} (b : bool) (m1 m2 : M A) :
  (b = true -> within R m1) -> (b = false -> within R m2) -> within R (if b then m1 else m2).
Proof. destruct b; auto. Qed.

Lemma within_hold d q : within R (hold d q).
Proof. intros s. apply rel_hold. Qed.

Lemma within_acquire q a : within R (acquire q a).
Proof. unfold acquire. apply within_if; intros _; [apply within_ret|]. apply within_bind; [apply within_hold|intros; apply within_ret]. Qed.

Lemma within_lookup d n f : within R (lookup d n f).
Proof.
  unfold lookup. destruct (user_path_at d n f); [apply within_ret|].
  apply within_bind; [apply within_hold|intros; apply within_ret].
Qed.

Lemma within_retry fuel body flags : (forall f, within R (body f)) -> within R (retry fuel body flags).
Proof.
  intros Hb. revert flags. induction fuel as [|fuel IH]; intros flags; [apply within_ret|].
  cbn [retry]. apply within_bind; [done|]. intros [e t]. apply within_if; intros _; [done|apply within_ret].
Qed.

Lemma within_deleg breaks ino round : within R round -> within R (deleg_loop breaks ino round).
Proof.
  intros Hb. induction breaks as [|e breaks IH]; cbn [deleg_loop];
    (apply within_bind; [done|]); intros [x|a]; try apply within_ret. apply within_if; intros _; [apply within_ret|done].
Qed.

End within.

(** Validity of the requests is kept. *)
Definition keeps_valid (s s' : path_state) : Prop := valid_state s -> valid_state s'.

Instance keeps_valid_rel : StateRel keeps_valid.
Proof. split; [split; [intros s; unfold keeps_valid; done|intros s1 s2 s3; unfold keeps_valid; auto]|intros d q s; unfold keeps_valid; done]. Qed.

Definition valid {A} (m : M A) : Prop := within keeps_valid m.

Lemma valid_log_change i a : change_ok (i, a) -> valid (log_change i a).
Proof. intros H s [H1 H2]. split; [by constructor|done]. Qed.

Lemma valid_log_alloc x : alloc_ok x -> valid (log_alloc x).
Proof. intros H s [H1 H2]. split; [done|by constructor]. Qed.

Ltac walk lem :=
  repeat first
    [ apply within_ret, _ | apply within_hold, _ | apply within_acquire, _ | apply within_lookup, _ | apply lem
    | apply within_retry; [apply _|intros] | apply within_deleg; [apply _|]
    | apply within_if; intros | apply within_bind; [apply _| |intros] ].

(** An attribute set without mode and ids. *)
Lemma change_ok_size i a :
  has (ia_valid a) (ATTR_MODE + ATTR_UID + ATTR_GID) = false -> 0 <= ia_size a -> change_ok (i, a).
Proof.
  change (ATTR_MODE + ATTR_UID + ATTR_GID) with (Z.lor (Z.lor ATTR_MODE ATTR_UID) ATTR_GID).
  rewrite !has_lor_r. intros H Hs. bool_hyps. unfold change_ok. split; [done|]. split; [congruence|].
  split; congruence.
Qed.

Lemma do_truncate_valid i l t b :
  has t (ATTR_MODE + ATTR_UID + ATTR_GID) = false -> valid (do_truncate i l t b).
Proof.
  intros Ht. unfold do_truncate. cbv zeta. apply within_if; [intros; apply within_ret, _|]. intros Hl.
  apply within_if; [intros; apply within_ret, _|]. intros Hr.
  walk @within_ret. apply valid_log_change, change_ok_size; cbn [ia_valid ia_size]; [|lia].
  assert (Hp : has (dentry_needs_remove_privs i) (ATTR_MODE + ATTR_UID + ATTR_GID) = false).
  { eapply clear_zero_has; [apply remove_privs_attrs; lia|reflexivity]. }
  rewrite has_if_lor, (has_lor (dentry_needs_remove_privs i)), Hp. rewrite has_if_lor, has_lor, Ht.
  change (has ATTR_SIZE _) with false. change (has ATTR_FILE _) with false. change (has ATTR_FORCE _) with false.
  by rewrite !andb_false_r.
Qed.

Lemma vfs_truncate_valid p l : valid (vfs_truncate p l).
Proof.
  unfold vfs_truncate. cbv zeta. walk do_truncate_valid; reflexivity.
Qed.

Lemma do_sys_ftruncate_valid f l b : valid (do_sys_ftruncate f l b).
Proof.
  unfold do_sys_ftruncate. cbv zeta. destruct f as [f|]; walk do_truncate_valid; reflexivity.
Qed.

(** [clear m k = 0] and [has m k] pin a single-bit word down. *)
Lemma only_flag m k : power2 k -> has m k = true -> clear m k = 0 -> m = k.
Proof.
  intros (i & Hi & ->) H Hc. rewrite has_bit in H by done. rewrite <- (Z.lor_ldiff_and m (2 ^ i)).
  unfold clear in Hc. rewrite Hc, Z.lor_0_l. apply Z.bits_inj'. intros n Hn.
  rewrite Z.land_spec, Z.pow2_bits_eqb by lia. destruct (Z.eqb_spec i n) as [->|]; [by rewrite H|apply andb_false_r].
Qed.

Lemma fallocate_mode_ok mode : fallocate_mode mode = 0 ->
  clear mode FALLOC_FL_SUPPORTED_MASK = 0 /\
  (has mode FALLOC_FL_PUNCH_HOLE = true -> has mode FALLOC_FL_KEEP_SIZE = true /\ has mode FALLOC_FL_ZERO_RANGE = false) /\
  (has mode FALLOC_FL_COLLAPSE_RANGE = true -> mode = FALLOC_FL_COLLAPSE_RANGE) /\
  (has mode FALLOC_FL_INSERT_RANGE = true -> mode = FALLOC_FL_INSERT_RANGE) /\
  (has mode FALLOC_FL_UNSHARE_RANGE = true -> clear mode (Z.lor FALLOC_FL_UNSHARE_RANGE FALLOC_FL_KEEP_SIZE) = 0).
Proof.
  unfold fallocate_mode. rewrite land_both by (power 1 || power 4).
  do 6 (case_if; [done|]). intros _. apply c_true_false in Hif.
  assert (Hc : forall k, has mode k && c_true (clear mode k) = false -> has mode k = true -> clear mode k = 0).
  { intros k H Hk. rewrite Hk in H. by apply c_true_false in H. }
  split; [done|]. split; [|split; [|split]].
  - intros Hp. rewrite Hp in *. by apply negb_false_iff in Hif1.
  - intros H. apply only_flag; [power 3|done|by apply Hc].
  - intros H. apply only_flag; [power 5|done|by apply Hc].
  - intros H. rewrite H in Hif4. by apply c_true_false in Hif4.
Qed.

Lemma sum_in_loff o l : is_s 64 o -> is_s 64 l -> 0 <= o -> 0 < l -> 0 <= i64 (o + l) -> o + l < 2 ^ 63.
Proof.
  unfold is_s. intros Ho Hl H1 H2 H. destruct (Z_lt_le_dec (o + l) (2 ^ 63)); [lia|].
  assert (i64 (o + l) = o + l - 2 ^ 64); [|lia]. unfold wrapS. cbv zeta. rewrite Z.mod_small by lia. case_if; lia.
Qed.

(** Ranges are loff_t words; the sum is checked for wrap-around. *)
Lemma vfs_fallocate_valid f m o l : is_s 64 o -> is_s 64 l -> valid (vfs_fallocate f m o l).
Proof.
  intros Ho Hl. unfold vfs_fallocate. cbv zeta. apply within_if; [intros; apply within_ret, _|intros Hr].
  apply within_if; [intros; apply within_ret, _|intros Hm]. apply c_true_false, fallocate_mode_ok in Hm.
  apply within_if; [intros; apply within_ret, _|intros _].
  apply within_if; [intros; apply within_ret, _|intros Hap].
  apply within_if; [intros; apply within_ret, _|intros Him].
  apply within_if; [intros; apply within_ret, _|intros Hsw].
  do 4 (apply within_if; [intros; apply within_ret, _|intros _]).
  apply within_if; [intros; apply within_ret, _|intros Hty].
  apply within_if; [intros; apply within_ret, _|intros Hs]. destruct fallocate_method as [mt|]; [|apply within_ret, _].
  walk @within_ret. apply valid_log_alloc. unfold alloc_ok. bool_hyps.
  assert (Hsum : o + l < 2 ^ 63) by (apply sum_in_loff; done || lia).
  rewrite wrapS_id in H by (unfold is_s in *; lia). split; [unfold OFFSET_MAX; lia|]. split; [|done].
  split; [done|]. split; [done|]. split; [destruct Hty as [Ht%negb_false_iff|Ht%negb_false_iff]; auto|].
  intros Ha. destruct Hap as [Hap|Hap]; [by apply c_true_false in Hap|congruence].
Qed.

Lemma chmod_common_valid p m : valid (chmod_common p m).
Proof.
  unfold chmod_common. cbv zeta. walk @within_ret. apply valid_log_change. unfold change_ok. cbn [ia_valid ia_mode].
  split; [done|]. split; [|by split]. intros _. exists p. split; [done|].
  by rewrite clear_lor, clear_land_same, clear_clear, Z.lor_0_l.
Qed.

(** The ids of chown: set exactly when given, and then mapped. *)
Lemma chown_attrs_ok u g a : chown_attrs u g = Some a ->
  has (ia_valid a) ATTR_UID = negb (u =? NOID) /\ (u <> NOID -> ia_uid a = caller_kuid u /\ caller_kuid u <> NOID) /\
  has (ia_valid a) ATTR_GID = negb (g =? NOID) /\ (g <> NOID -> ia_gid a = caller_kgid g /\ caller_kgid g <> NOID) /\
  has (ia_valid a) ATTR_SIZE = false /\ has (ia_valid a) ATTR_MODE = false.
Proof.
  unfold chown_attrs, setattr_vfsuid, setattr_vfsgid. cbv zeta.
  destruct (Z.eqb_spec u NOID), (Z.eqb_spec g NOID); cbn [negb ia_valid ia_uid ia_gid]; intros H;
    repeat (case_if_in H; [done|]); injection H as <-; cbn [ia_valid ia_uid ia_gid]; bool_hyps; by repeat split.
Qed.

Lemma kill_privs_has i a k : has (ATTR_KILL_SUID + ATTR_KILL_SGID + ATTR_KILL_PRIV) k = false ->
  has (ia_valid (kill_privs i a)) k = has (ia_valid a) k /\ ia_uid (kill_privs i a) = ia_uid a /\
  ia_gid (kill_privs i a) = ia_gid a.
Proof.
  intros Hk. unfold kill_privs. case_if; [|done]. cbn [ia_valid ia_uid ia_gid]. split; [|done].
  rewrite has_lor, (has_lor (Z.lor _ _)).
  assert (Hs : has (Z.lor ATTR_KILL_SUID ATTR_KILL_PRIV) k || has (setattr_should_drop_sgid (i_ino i)) k = false).
  { change (ATTR_KILL_SUID + ATTR_KILL_SGID + ATTR_KILL_PRIV)
      with (Z.lor (Z.lor ATTR_KILL_SUID ATTR_KILL_PRIV) ATTR_KILL_SGID) in Hk. rewrite has_lor in Hk. bool_hyps.
    rewrite H. by destruct (drop_sgid_attrs (i_ino i)) as [->| ->]. }
  by rewrite Hs, orb_false_r.
Qed.

Lemma chown_common_valid p u g : valid (chown_common p u g).
Proof.
  unfold chown_common. cbv zeta. apply within_deleg; [apply _|].
  destruct (chown_attrs u g) as [a|] eqn:Ha; [|apply within_ret, _]. walk @within_ret.
  apply valid_log_change. destruct (chown_attrs_ok u g a Ha) as (H1 & H2 & H3 & H4 & H5 & H6).
  assert (Hk := fun k Hk => kill_privs_has (path_inode p) a k Hk).
  destruct (Hk ATTR_SIZE eq_refl) as (S1 & S2 & S3), (Hk ATTR_MODE eq_refl) as (M1 & _),
    (Hk ATTR_UID eq_refl) as (U1 & _), (Hk ATTR_GID eq_refl) as (G1 & _).
  unfold change_ok. rewrite S1, M1, U1, G1, S2, S3, H1, H3, H5, H6. split; [done|]. split; [done|].
  split; intros Hn; apply negb_true_iff, Z.eqb_neq in Hn; [destruct (H2 Hn) as [-> ?]|destruct (H4 Hn) as [-> ?]]; done.
Qed.

(** Arguments of the right C types. *)
Definition path_args_ok (c : path_call) : Prop :=
  match c with Fallocate _ _ o l => is_s 64 o /\ is_s 64 l | _ => True end.

Lemma path_exec_valid c : path_args_ok c -> valid (path_exec c).
Proof.
  destruct c as [n l|f l b|[f|] m o l|n|[f|]|n|[f|] m|d n m fl|d n u g fl|[f|] u g]; cbn [path_exec path_args_ok]; intros Ha;
    try apply (within_ret _).
  - unfold do_sys_truncate. walk vfs_truncate_valid. destruct a; walk vfs_truncate_valid.
  - apply do_sys_ftruncate_valid.
  - unfold ksys_fallocate. walk vfs_fallocate_valid; apply Ha.
  - unfold sys_chdir. walk @within_ret. destruct a; walk @within_ret; intros s; unfold keeps_valid; done.
  - unfold sys_fchdir. cbv zeta. walk @within_ret; intros s; unfold keeps_valid; done.
  - unfold sys_chroot. walk @within_ret. destruct a; walk @within_ret; intros s; unfold keeps_valid; done.
  - unfold sys_fchmod. walk chmod_common_valid.
  - unfold do_fchmodat. walk chmod_common_valid. destruct a; walk chmod_common_valid.
  - unfold do_fchownat. walk chown_common_valid. destruct a; walk chown_common_valid.
  - unfold ksys_fchown, vfs_fchown. walk chown_common_valid.
Qed.

Fixpoint path_run (cs : list path_call) (s : path_state) : path_state :=
  match cs with [] => s | c :: cs' => path_run cs' (path_exec c s).2 end.

(** C38: what file systems see: over any sequence of these calls with any arguments,
    every size change handed to notify_change is non-negative, every mode change keeps
    the file type of the inode, every owner change carries a mapped id, and every
    fallocate reaches a regular file or block device that is neither immutable nor a swap
    file, with a non-empty range within loff_t and the limit of the file system and a
    consistent mode, on an append-only file none but a plain allocation. *)
Theorem pathops_requests_valid cs s :
  Forall path_args_ok cs -> changes s = [] -> allocated s = [] -> valid_state (path_run cs s).
Proof.
  intros Hcs Hc Ha. assert (Hs : valid_state s) by (unfold valid_state; by rewrite Hc, Ha). clear Hc Ha.
  revert s Hs. induction Hcs as [|c cs Hc _ IH]; intros s Hs; [done|]. cbn [path_run]. by apply IH, path_exec_valid.
Qed.

(** ** Working directory and root *)

Definition fs_same (s s' : path_state) : Prop := pwd s' = pwd s /\ root s' = root s.

Instance fs_same_rel : StateRel fs_same.
Proof.
  split; [split; [by intros s|]|by intros d q s].
  intros s1 s2 s3 [H1 H2] [H3 H4]. unfold fs_same. split; congruence.
Qed.

Lemma fs_log_change i a : within fs_same (log_change i a).
Proof. by intros s. Qed.

Lemma fs_log_alloc x : within fs_same (log_alloc x).
Proof. by intros s. Qed.

(** A call that may move the process: on an error nothing moved, on success [G]. *)
Definition moves (G : path_state -> path_state -> Prop) (s : path_state) (r : Z) (s' : path_state) : Prop :=
  (r <> 0 -> fs_same s s') /\ (r = 0 -> G s s').

Definition respects_fs (G : path_state -> path_state -> Prop) : Prop :=
  forall s s1 s2, fs_same s s1 -> G s1 s2 -> G s s2.

Lemma retry_moves G fuel body flags s : respects_fs G ->
  (forall f s, moves G s (body f s).1.1 (body f s).2) ->
  moves G s (retry fuel body flags s).1 (retry fuel body flags s).2.
Proof.
  intros HG Hb. revert flags s. induction fuel as [|fuel IH]; intros flags s; [by split|].
  cbn [retry]. unfold bind. specialize (Hb flags s). destruct (body flags s) as [[e t] s1]. cbn [fst snd] in Hb.
  destruct (t && retry_estale e flags) eqn:Ht; [|exact Hb].
  apply andb_true_iff in Ht as [_ Ht]. unfold retry_estale in Ht. bool_hyps. subst e.
  destruct Hb as [Hb _]. specialize (Hb ltac:(discriminate)).
  destruct (IH (Z.lor flags LOOKUP_REVAL) s1) as [I1 I2].
  split; intros Hr; [transitivity s1; [done|by apply I1]|]. eapply HG; [done|by apply I2].
Qed.

(** The directory and the root after a successful call. *)
Definition chdir_goal (s s' : path_state) : Prop :=
  path_permission (pwd s') (Z.lor MAY_EXEC MAY_CHDIR) = 0 /\ root s' = root s.

Definition chroot_goal (s s' : path_state) : Prop :=
  path_permission (root s') (Z.lor MAY_EXEC MAY_CHDIR) = 0 /\ capable_chroot = true /\
  security_path_chroot (root s') = 0 /\ pwd s' = pwd s.

Lemma chdir_moves n s : moves chdir_goal s (sys_chdir n s).1 (sys_chdir n s).2.
Proof.
  apply retry_moves.
  { intros a b c [H1 H2] [H3 H4]. split; [done|congruence]. }
  clear s. intros f s. unfold bind, lookup. destruct (user_path_at AT_FDCWD n f) as [e|p] eqn:Hl.
  { apply user_path_err in Hl. by split. }
  cbn. destruct (c_true (path_permission p (Z.lor MAY_EXEC MAY_CHDIR))) eqn:Hp.
  - apply c_true_true in Hp. split; intros H; [done|]. cbn in H. congruence.
  - apply c_true_false in Hp. split; intros H; [done|]. by split.
Qed.

Lemma chroot_moves n s : moves chroot_goal s (sys_chroot n s).1 (sys_chroot n s).2.
Proof.
  apply retry_moves.
  { intros a b c [H1 H2] (H3 & H4 & H5 & H6). split; [done|]. split; [done|]. split; [done|congruence]. }
  clear s. intros f s. unfold bind, lookup. destruct (user_path_at AT_FDCWD n f) as [e|p] eqn:Hl.
  { apply user_path_err in Hl. by split. }
  cbn. destruct (c_true (path_permission p (Z.lor MAY_EXEC MAY_CHDIR))) eqn:Hp.
  { apply c_true_true in Hp. split; intros H; [done|]. cbn in H. congruence. }
  apply c_true_false in Hp. destruct capable_chroot eqn:Hc; [|by split]. cbn [negb].
  destruct (c_true (security_path_chroot p)) eqn:Hs.
  - apply c_true_true in Hs. split; intros H; [done|]. cbn in H. congruence.
  - apply c_true_false in Hs. split; intros H; [done|]. by split.
Qed.

Lemma fchdir_moves f s : moves chdir_goal s (sys_fchdir f s).1 (sys_fchdir f s).2.
Proof.
  destruct f as [f|]; [|by split]. unfold sys_fchdir, bind. cbn.
  destruct (d_can_lookup (p_inode f)); cbn [negb]; [|by split].
  destruct (c_true (path_permission (p_path f) (Z.lor MAY_EXEC MAY_CHDIR))) eqn:Hp.
  - apply c_true_true in Hp. split; intros H; [done|]. cbn in H. congruence.
  - apply c_true_false in Hp. split; intros H; [done|]. by split.
Qed.

Lemma fs_do_truncate i l t b : within fs_same (do_truncate i l t b).
Proof. unfold do_truncate. cbv zeta. walk fs_log_change. Qed.

Lemma fs_chmod_common p m : within fs_same (chmod_common p m).
Proof. unfold chmod_common. cbv zeta. walk fs_log_change. Qed.

Lemma fs_chown_common p u g : within fs_same (chown_common p u g).
Proof.
  unfold chown_common. cbv zeta. apply within_deleg; [apply _|].
  destruct (chown_attrs u g); walk fs_log_change.
Qed.

Lemma fs_vfs_fallocate f m o l : within fs_same (vfs_fallocate f m o l).
Proof. unfold vfs_fallocate. cbv zeta. walk fs_log_alloc. destruct fallocate_method; walk fs_log_alloc. Qed.

Lemma fs_vfs_truncate p l : within fs_same (vfs_truncate p l).
Proof. unfold vfs_truncate. cbv zeta. walk fs_do_truncate. Qed.

(** The calls that cannot move the process. *)
Definition stays (c : path_call) : bool :=
  match c with Chdir _ | Fchdir _ | Chroot _ => false | _ => true end.

Lemma path_exec_stays c : stays c = true -> within fs_same (path_exec c).
Proof.
  destruct c as [n l|[f|] l b|[f|] m o l|n|f|n|[f|] m|d n m fl|d n u g fl|[f|] u g]; try done; intros _;
    cbn [path_exec]; try apply (within_ret _).
  - unfold do_sys_truncate. walk fs_vfs_truncate. destruct a; walk fs_vfs_truncate.
  - unfold do_sys_ftruncate. cbv zeta. walk fs_do_truncate.
  - unfold do_sys_ftruncate. walk fs_do_truncate.
  - unfold ksys_fallocate. walk fs_vfs_fallocate.
  - unfold sys_fchmod. walk fs_chmod_common.
  - unfold do_fchmodat. walk fs_chmod_common. destruct a; walk fs_chmod_common.
  - unfold do_fchownat. walk fs_chown_common. destruct a; walk fs_chown_common.
  - unfold ksys_fchown, vfs_fchown. walk fs_chown_common.
Qed.

(** Only guarded calls move a process: whatever path operation is called, an error
    leaves the working directory and the root as they were; a successful chdir or
    fchdir moves to a directory the process may search and keeps the root; a
    successful chroot needs the capability, the consent of the security hook and
    search permission, and keeps the working directory; no other call touches either. *)
Theorem fs_moves_guarded c s :
  match c with
  | Chdir _ | Fchdir _ => moves chdir_goal s (path_exec c s).1 (path_exec c s).2
  | Chroot _ => moves chroot_goal s (path_exec c s).1 (path_exec c s).2
  | _ => fs_same s (path_exec c s).2
  end.
Proof.
  destruct c; try (apply path_exec_stays; reflexivity);
    [apply chdir_moves|apply fchdir_moves|apply chroot_moves].
Qed.

(** lchown never follows the last link, a huge unsigned ftruncate is refused. *)
Lemma lchown_nofollow : has (at_lookup_flags AT_SYMLINK_NOFOLLOW) LOOKUP_FOLLOW = false.
Proof. reflexivity. Qed.

Lemma ftruncate_huge f length s : 2 ^ 63 <= length < 2 ^ 64 -> sys_ftruncate f length s = (- EINVAL, s).
Proof.
  intros H. unfold sys_ftruncate, do_sys_ftruncate.
  assert (i64 length = length - 2 ^ 64) as ->.
  { unfold wrapS. cbv zeta. rewrite Z.mod_small by lia. case_if; lia. }
  case_if; [done|lia].
Qed.

End theorems.

(** ** A concrete file system: one regular file, a stale handle at first, a delegation *)

Definition demo_inode : inode :=
  {| i_ino := 9; i_mode := 33188; s_isdir := false; s_isreg := true; s_isfifo := false; s_isblk := false;
     is_append := false; is_immutable := false; is_swapfile := false; s_maxbytes := OFFSET_MAX; d_can_lookup := false |}.

Definition demo_lookup (d n f : Z) : Z + Z :=
  if n =? 0 then inl (- ENOENT) else inr (if has f LOOKUP_REVAL then 1 else 2).

Lemma demo_lookup_err d n f e : demo_lookup d n f = inl e -> e <> 0.
Proof. unfold demo_lookup. case_if; [by intros [= <-]|done]. Qed.

Definition demo_path_env : PathEnv := {|
  user_path_at := demo_lookup; path_inode := fun _ => demo_inode;
  path_permission := fun p _ => if p =? 2 then - ESTALE else 0;
  capable_chroot := false; security_path_truncate := fun _ => 0; security_file_truncate := fun _ => 0;
  security_path_chroot := fun _ => 0; security_path_chmod := fun _ _ => 0; security_path_chown := fun _ _ _ => 0;
  security_file_perm := fun _ => 0; fsnotify_area_perm := fun _ _ => 0; mnt_want_write := fun _ => 0;
  inode_write_access := fun _ => 0; break_lease_write := fun _ => 0; dentry_needs_remove_privs := fun _ => 0;
  notify_change := fun _ _ => 0; deleg_breaks := fun _ => [0]; fallocate_method := Some (fun _ _ _ _ => 0);
  caller_kuid := fun x => x; caller_kgid := fun x => x; setattr_should_drop_sgid := fun _ => 0;
  drop_sgid_attrs := fun _ => or_introl eq_refl; remove_privs_attrs := fun _ _ => eq_refl;
  user_path_err := demo_lookup_err |}.

Definition demo_path_state : path_state :=
  {| held := fun _ => 0; changes := []; allocated := []; pwd := 5; root := 6 |}.

Definition demo_path_calls : list path_call :=
  [Truncate 1 100; Truncate 1 (-1); Fchmodat 0 1 2541 0; Fchownat 0 1 1000 4294967295 0; Chdir 1;
   Fallocate (Some {| p_mode := 3; p_flags := 0; p_inode := demo_inode; p_file_inode := demo_inode; p_path := 1 |}) 3 4096 4096;
   Fallocate (Some {| p_mode := 3; p_flags := 0; p_inode := demo_inode; p_file_inode := demo_inode; p_path := 1 |}) 0 9223372036854775807 1].

(** The retried truncate, chmod and chown each restarted by the delegation, one fallocate. *)
Lemma pathops_requests_valid_witness :
  length (changes (path_run (E := demo_path_env) demo_path_calls demo_path_state)) = 5%nat /\
  length (allocated (path_run (E := demo_path_env) demo_path_calls demo_path_state)) = 1%nat /\
  pwd (path_run (E := demo_path_env) demo_path_calls demo_path_state) = 1 /\
  valid_state (E := demo_path_env) (path_run (E := demo_path_env) demo_path_calls demo_path_state).
Proof.
  split; [vm_compute; reflexivity|]. split; [vm_compute; reflexivity|]. split; [vm_compute; reflexivity|].
  apply (pathops_requests_valid (E := demo_path_env)); [|reflexivity|reflexivity].
  repeat constructor; cbn; lia.
Defined.
