(* ===== verification/Access.v ===== *)
(** * access(2) (fs/open.c: faccessat and the credentials it borrows)

    access answers for the real ids of the caller: the code swaps in a credential set
    with fsuid and fsgid taken from uid and gid and the capabilities a program of
    that user would have, unless it can tell in advance that the swap would change
    nothing.  The model keeps the credential set in use and the references to the
    borrowed one.  Lookup and permission checks depend on the set in use and are
    parameters. *)
From S2P Require Import Prelude UserMem Cred.

Definition AT_SYMLINK_NOFOLLOW := 256.
Definition AT_EACCESS := 512.
Definition AT_EMPTY_PATH := 4096.
Definition LOOKUP_FOLLOW := 1.
Definition LOOKUP_REVAL := 32.
Definition LOOKUP_EMPTY := 16384.
Definition AT_FDCWD := -100.
Definition S_IRWXO := 7.
Definition S_IWOTH := 2.
Definition MAY_EXEC := 1.
Definition MAY_ACCESS := 16.

Definition retry_estale (error flags : Z) : bool := (error =? - ESTALE) && negb (has flags LOOKUP_REVAL).

#[export] Instance cred_eq_dec : EqDecision cred.
Proof. solve_decision. Defined.

Class AccessEnv := {
  user_path_as : cred -> Z -> Z -> Z -> Z + Z;    (** dfd, name, lookup flags: error or path *)
  inode_permission_as : cred -> Z -> Z -> Z;      (** path, mask *)
  path_is_reg : Z -> bool;
  path_noexec : Z -> bool;
  path_special_file : Z -> bool;
  mnt_is_readonly : Z -> bool;
  no_setuid_fixup : bool;                         (** issecure(SECURE_NO_SETUID_FIXUP) *)
  user_path_as_err : forall c d n f e, user_path_as c d n f = inl e -> e <> 0
}.

Record access_state := {
  a_cur : cred;          (** the subjective credentials *)
  a_refs : Z;            (** references to the borrowed set *)
  a_paths : Z            (** path references *)
}.

Section access.
Context {C : CredEnv} {A : AccessEnv}.

Definition access_need_override_creds (flags : Z) (c : cred) : bool :=
  if has flags AT_EACCESS then false
  else if negb (fsuid c =? uid c) || negb (fsgid c =? gid c) then true
  else if negb no_setuid_fixup then
    let root_uid := make_kuid (user_ns c) 0 in
    if negb (uid c =? root_uid) then negb (cap_effective c =? 0)
    else negb (cap_effective c =? cap_permitted c)
  else false.

Definition with_fs_and_caps (caps : Z) (c : cred) : cred :=
  {| uid := uid c; gid := gid c; suid := suid c; sgid := sgid c; euid := euid c; egid := egid c;
     fsuid := uid c; fsgid := gid c; user := user c; ucounts := ucounts c;
     user_ns := user_ns c; cap_effective := caps; cap_permitted := cap_permitted c |}.

(** The set the code builds in its copy. *)
Definition override_cred (c : cred) : cred :=
  let caps :=
    if negb no_setuid_fixup then
      let root_uid := make_kuid (user_ns c) 0 in
      if negb (uid c =? root_uid) then 0 else cap_permitted c
    else cap_effective c in
  with_fs_and_caps caps c.

Definition add_refs (d : Z) (s : access_state) : access_state :=
  {| a_cur := a_cur s; a_refs := a_refs s + d; a_paths := a_paths s |}.
Definition add_paths (d : Z) (s : access_state) : access_state :=
  {| a_cur := a_cur s; a_refs := a_refs s; a_paths := a_paths s + d |}.
Definition set_cur (c : cred) (s : access_state) : access_state :=
  {| a_cur := c; a_refs := a_refs s; a_paths := a_paths s |}.

(** prepare_creds, override_creds (which takes a reference of its own), put_cred. *)
Definition access_override_creds (s : access_state) : option cred * access_state :=
  if prepare_ok then
    let s := add_refs 1 s in
    let new := override_cred (a_cur s) in
    let old_cred := a_cur s in
    let s := add_refs 1 (set_cur new s) in
    (Some old_cred, add_refs (-1) s)
  else (None, s).

Definition revert_creds (old : cred) (s : access_state) : access_state := add_refs (-1) (set_cur old s).

(** The check on a path that was found. *)
Definition access_path (path mode : Z) (c : cred) : Z :=
  if has mode MAY_EXEC && path_is_reg path && path_noexec path then - EACCES
  else
    let res := inode_permission_as c path (Z.lor mode MAY_ACCESS) in
    if c_true res || negb (has mode S_IWOTH) || path_special_file path then res
    else if mnt_is_readonly path then - EROFS else res.

(** [retry:]; fuel 2. *)
Fixpoint access_retry (fuel : nat) (dfd filename mode lookup_flags : Z) (s : access_state) : Z * access_state :=
  match fuel with
  | O => (- ESTALE, s)
  | S fuel =>
      match user_path_as (a_cur s) dfd filename lookup_flags with
      | inl res => (res, s)
      | inr path =>
          let s := add_paths 1 s in
          let res := access_path path mode (a_cur s) in
          let s := add_paths (-1) s in
          if retry_estale res lookup_flags
          then access_retry fuel dfd filename mode (Z.lor lookup_flags LOOKUP_REVAL) s
          else (res, s)
      end
  end.

Definition do_faccessat (dfd filename mode flags : Z) (s : access_state) : Z * access_state :=
  if c_true (clear mode S_IRWXO) then (- EINVAL, s)
  else if c_true (clear flags (Z.lor (Z.lor AT_EACCESS AT_SYMLINK_NOFOLLOW) AT_EMPTY_PATH)) then (- EINVAL, s)
  else
    let lookup_flags := LOOKUP_FOLLOW in
    let lookup_flags :=
      if has flags AT_SYMLINK_NOFOLLOW then clear lookup_flags LOOKUP_FOLLOW else lookup_flags in
    let lookup_flags := if has flags AT_EMPTY_PATH then Z.lor lookup_flags LOOKUP_EMPTY else lookup_flags in
    if access_need_override_creds flags (a_cur s) then
      let '(old_cred, s) := access_override_creds s in
      match old_cred with
      | None => (- ENOMEM, s)
      | Some old_cred =>
          let '(res, s) := access_retry 2 dfd filename mode lookup_flags s in
          (res, revert_creds old_cred s)
      end
    else access_retry 2 dfd filename mode lookup_flags s.

Definition sys_faccessat (dfd filename mode : Z) (s : access_state) : Z * access_state :=
  do_faccessat dfd filename mode 0 s.
Definition sys_faccessat2 (dfd filename mode flags : Z) (s : access_state) : Z * access_state :=
  do_faccessat dfd filename mode flags s.
Definition sys_access (filename mode : Z) (s : access_state) : Z * access_state :=
  do_faccessat AT_FDCWD filename mode 0 s.

(** ** Reference definition: always answer for the real ids *)

(** The answer for credentials [c], as a function without state. *)
Definition access_answer (c : cred) (dfd filename mode lookup_flags : Z) : Z :=
  match user_path_as c dfd filename lookup_flags with
  | inl res => res
  | inr path =>
      let res := access_path path mode c in
      if retry_estale res lookup_flags then
        match user_path_as c dfd filename (Z.lor lookup_flags LOOKUP_REVAL) with
        | inl res => res
        | inr path => access_path path mode c
        end
      else res
  end.

Definition access_lookup_flags (flags : Z) : Z :=
  Z.lor (if has flags AT_SYMLINK_NOFOLLOW then 0 else LOOKUP_FOLLOW) (if has flags AT_EMPTY_PATH then LOOKUP_EMPTY else 0).

Definition access_spec (c : cred) (dfd filename mode flags : Z) : Z :=
  if (0 <=? mode) && (mode <=? 7) && (Z.land flags (256 + 512 + 4096) =? flags) then
    access_answer (if has flags AT_EACCESS then c else override_cred c) dfd filename mode (access_lookup_flags flags)
  else - EINVAL.

(** The shortcut is exact: the swap is made exactly when it would change something. *)
Lemma need_override_exact flags c :
  access_need_override_creds flags c = true <-> has flags AT_EACCESS = false /\ override_cred c <> c.
Proof.
  unfold access_need_override_creds, override_cred, with_fs_and_caps. cbv zeta.
  destruct (has flags AT_EACCESS); [split; [done|by intros [? _]]|]. destruct c as [u g su sg eu eg fu fg us uc ns ce cp].
  cbn [uid gid suid sgid euid egid fsuid fsgid user ucounts user_ns cap_effective cap_permitted].
  destruct (Z.eqb_spec fu u) as [->|]; [|split; [split; congruence|done]].
  destruct (Z.eqb_spec fg g) as [->|]; [|split; [split; congruence|done]]. cbn [negb orb].
  destruct no_setuid_fixup; cbn [negb]; [split; [done|by intros [_ ?]]|].
  destruct (u =? make_kuid ns 0); cbn [negb].
  - destruct (Z.eqb_spec ce cp) as [->|]; cbn; split; [done|by intros [_ ?]|split; congruence|done].
  - destruct (Z.eqb_spec ce 0) as [->|]; cbn; split; [done|by intros [_ ?]|split; congruence|done].
Qed.

Lemma access_retry_answer n dfd filename mode fl s :
  access_retry (S (S n)) dfd filename mode fl s = (access_answer (a_cur s) dfd filename mode fl, s).
Proof.
  assert (Hs : forall s, add_paths (-1) (add_paths 1 s) = s).
  { intros [c r p]. unfold add_paths. cbn. f_equal. lia. }
  unfold access_answer. cbn [access_retry]. destruct (user_path_as (a_cur s) dfd filename fl) as [e|p]; [done|].
  cbv zeta. rewrite Hs. change (a_cur (add_paths 1 s)) with (a_cur s). case_if; [|done].
  destruct (user_path_as (a_cur s) dfd filename (Z.lor fl LOOKUP_REVAL)) as [e|q]; [done|].
  rewrite Hs. change (a_cur (add_paths 1 s)) with (a_cur s).
  assert (retry_estale (access_path q mode (a_cur s)) (Z.lor fl LOOKUP_REVAL) = false) as ->; [|done].
  unfold retry_estale. rewrite has_lor. change (has LOOKUP_REVAL LOOKUP_REVAL) with true.
  rewrite orb_true_r. apply andb_false_r.
Qed.

Lemma mode_check mode : c_true (clear mode S_IRWXO) = negb ((0 <=? mode) && (mode <=? 7)).
Proof.
  unfold c_true. f_equal. unfold clear, S_IRWXO. change 7 with (Z.ones 3).
  rewrite Z.ldiff_ones_r by lia. rewrite Z.shiftl_mul_pow2, Z.shiftr_div_pow2 by lia.
  change (2 ^ 3) with 8. change (Z.ones 3) with 7.
  destruct (Z.eqb_spec (mode / 8 * 8) 0), (Z.leb_spec 0 mode), (Z.leb_spec mode 7); cbn; try done; zlia.
Qed.

Lemma flags_check flags m : (clear flags m =? 0) = (Z.land flags m =? flags).
Proof.
  unfold clear. destruct (Z.eqb_spec (Z.ldiff flags m) 0) as [H|H], (Z.eqb_spec (Z.land flags m) flags) as [H'|H']; try done.
  - destruct H'. rewrite <- (Z.lor_ldiff_and flags m) at 2. by rewrite H, Z.lor_0_l.
  - destruct H. rewrite <- H'. apply (clear_land_same flags m).
Qed.

(** Access answers for the real user: whenever memory for the copy is available,
    faccessat answers exactly what the reference definition answers, which always
    looks up and checks with the borrowed credentials (with the caller's for
    AT_EACCESS), so skipping the swap is never observable; and the credentials in
    use, the references to the borrowed set and the path references are as before. *)
Theorem faccessat_refines dfd filename mode flags s :
  prepare_ok = true ->
  do_faccessat dfd filename mode flags s = (access_spec (a_cur s) dfd filename mode flags, s).
Proof.
  intros Hp. unfold do_faccessat, access_spec. rewrite mode_check.
  destruct ((0 <=? mode) && (mode <=? 7)); [|done]. cbn [negb andb]. unfold c_true. rewrite flags_check.
  change (Z.lor (Z.lor AT_EACCESS AT_SYMLINK_NOFOLLOW) AT_EMPTY_PATH) with (256 + 512 + 4096).
  destruct (Z.land flags (256 + 512 + 4096) =? flags); [|done]. cbn [negb]. cbv zeta.
  set (lf := if has flags AT_EMPTY_PATH then _ else _).
  assert (lf = access_lookup_flags flags) as ->.
  { subst lf. unfold access_lookup_flags. destruct (has flags AT_SYMLINK_NOFOLLOW), (has flags AT_EMPTY_PATH); reflexivity. }
  pose proof (need_override_exact flags (a_cur s)) as Hn. destruct (access_need_override_creds flags (a_cur s)).
  - destruct (proj1 Hn eq_refl) as [He _]. rewrite He. unfold access_override_creds. rewrite Hp. cbv zeta.
    rewrite access_retry_answer. cbn [a_cur add_refs set_cur]. f_equal.
    destruct s as [c r p]. unfold revert_creds, add_refs, set_cur. cbn. f_equal. lia.
  - rewrite access_retry_answer. f_equal. f_equal. destruct (has flags AT_EACCESS); [done|].
    destruct (decide (override_cred (a_cur s) = a_cur s)) as [->|Hne]; [done|]. destruct Hn as [_ Hn].
    by specialize (Hn (conj eq_refl Hne)).
Qed.

End access.

(** When the copy cannot be made nothing is checked and nothing changes. *)
Lemma faccessat_enomem {C : CredEnv} {A : AccessEnv} dfd filename mode flags s :
  prepare_ok = false -> access_need_override_creds flags (a_cur s) = true ->
  (do_faccessat dfd filename mode flags s).2 = s /\
  ((do_faccessat dfd filename mode flags s).1 = - ENOMEM \/ (do_faccessat dfd filename mode flags s).1 = - EINVAL).
Proof.
  intros Hp Hn. unfold do_faccessat. case_if; [by split; [|right]|]. case_if; [by split; [|right]|].
  cbv zeta. rewrite Hn. unfold access_override_creds. rewrite Hp. by split; [|left].
Qed.

(** ** A set-user-id program asking about a file of root *)

Definition demo_access_env : AccessEnv.
Proof.
  refine {| user_path_as := fun _ _ n _ => if n =? 0 then inl (- ENOENT) else inr n;
            inode_permission_as := fun c _ _ => if fsuid c =? 0 then 0 else - EACCES;
            path_is_reg := fun _ => true; path_noexec := fun _ => false; path_special_file := fun _ => false;
            mnt_is_readonly := fun _ => false; no_setuid_fixup := false |}.
  intros c d n f e. case_if; [by intros [= <-]|done].
Defined.

Definition demo_access : access_state := {| a_cur := cur (demo_cred 1000 0 0); a_refs := 0; a_paths := 0 |}.

(** The program could open the file; access says its user could not. *)
Lemma faccessat_refines_witness :
  fsuid (a_cur demo_access) = 0 /\
  do_faccessat (C := demo_env) (A := demo_access_env) AT_FDCWD 1 4 0 demo_access = (- EACCES, demo_access).
Proof.
  split; [reflexivity|].
  rewrite (faccessat_refines (C := demo_env) (A := demo_access_env) AT_FDCWD 1 4 0 demo_access eq_refl). reflexivity.
Defined.
