(* ===== verification/Vectored.v ===== *)
(** * Vectored file I/O (fs/read_write.c: readv, writev, preadv, pwritev and relatives)

    The layer above [ReadWrite] that transfers a list of user segments.  The segments
    (lib/iov_iter.c) are an interface, the class [IovIter]; a method that takes the
    whole iterator is called once, a method that takes one buffer is called in a loop,
    segment by segment.  A call through a missing method is [None]. *)
From S2P Require Import Prelude UserMem Track Seek ReadWrite.

(** What the iterator promises: the current segment lies within what is left, and
    advancing over it leaves fewer segments. *)
Class IovIter := {
  iter : Type;
  iter_count : iter -> Z;
  iter_addr : iter -> Z;
  iter_len : iter -> Z;
  iter_segs : iter -> nat;
  iter_advance : Z -> iter -> iter;
  import_iovec : Z -> Z -> Z + iter;               (** vector, entries: an error or an iterator *)
  iter_len_range : forall it, 0 <= iter_len it <= iter_count it;
  iter_segs_pos : forall it, 0 < iter_count it -> (0 < iter_segs it)%nat;
  iter_advance_count : forall it, iter_count (iter_advance (iter_len it) it) = iter_count it - iter_len it;
  iter_advance_segs : forall it, (0 < iter_segs it)%nat -> (iter_segs (iter_advance (iter_len it) it) < iter_segs it)%nat;
  import_iovec_count : forall v n it, import_iovec v n = inr it -> iter_count it <= MAX_RW_COUNT;
  import_iovec_err : forall v n e, import_iovec v n = inl e -> e < 0
}.

Definition RWF_HIPRI := 1.

Section vectored.
Context {F : FileOps} {I : IovIter}.
(** kiocb_set_rw_flags: 0 or an error for the flags. *)
Context (kiocb_set_rw_flags : Z -> Z).

Definition rw_result : Type := option (Z * option Z * io).

Definition do_iter_readv_writev (write : bool) (m : option (method dev)) (it : iter) (ppos : option Z) (flags : Z)
    (s : io) : rw_result :=
  let ret := kiocb_set_rw_flags flags in
  if c_true ret then Some (ret, ppos, s)
  else
    match m with
    | None => None
    | Some m =>
        let ki_pos := match ppos with Some p => p | None => 0 end in
        let '(ret, ki_pos', s) := invoke write m (iter_addr it) (iter_count it) (Some ki_pos) s in
        Some (ret, match ppos with Some _ => ki_pos' | None => None end, s)
    end.

(** The loop over the segments, with the bytes transferred so far in [ret]; [None]
    also stands for fuel that ran out, and the number of segments is enough. *)
Fixpoint loop_readv_writev (fuel : nat) (write : bool) (m : option (method dev)) (it : iter) (ppos : option Z)
    (ret : Z) (s : io) : rw_result :=
  if iter_count it =? 0 then Some (ret, ppos, s)
  else
    match fuel, m with
    | S fuel, Some m' =>
        let '(nr, ppos, s) := invoke write m' (iter_addr it) (iter_len it) ppos s in
        if nr <? 0 then Some (if ret =? 0 then nr else ret, ppos, s)
        else
          let ret := ret + nr in
          if negb (nr =? iter_len it) then Some (ret, ppos, s)
          else loop_readv_writev fuel write m (iter_advance nr it) ppos ret s
    | _, _ => None
    end.

Definition do_loop_readv_writev (write : bool) (m : option (method dev)) (it : iter) (ppos : option Z) (flags : Z)
    (s : io) : rw_result :=
  if c_true (clear flags RWF_HIPRI) then Some (- EOPNOTSUPP, ppos, s)
  else loop_readv_writev (iter_segs it) write m it ppos 0 s.

(** The common shape of vfs_readv and vfs_writev after the mode checks. *)
Definition vfs_readv (vec vlen : Z) (pos : option Z) (flags : Z) (s : io) : rw_result :=
  let f := io_file s in
  if negb (has (f_mode f) FMODE_READ) then Some (- EBADF, pos, s)
  else if negb (has (f_mode f) FMODE_CAN_READ) then Some (- EINVAL, pos, s)
  else
    match import_iovec vec vlen with
    | inl ret => Some (ret, pos, s)
    | inr it =>
        let tot_len := iter_count it in
        if tot_len =? 0 then Some (tot_len, pos, s)
        else
          let ret := rw_verify_area READ f pos tot_len in
          if ret <? 0 then Some (ret, pos, s)
          else
            match f_op_read_iter with
            | Some m => do_iter_readv_writev false (Some m) it pos flags s
            | None => do_loop_readv_writev false f_op_read it pos flags s
            end
    end.

Definition vfs_writev (vec vlen : Z) (pos : option Z) (flags : Z) (s : io) : rw_result :=
  let f := io_file s in
  if negb (has (f_mode f) FMODE_WRITE) then Some (- EBADF, pos, s)
  else if negb (has (f_mode f) FMODE_CAN_WRITE) then Some (- EINVAL, pos, s)
  else
    match import_iovec vec vlen with
    | inl ret => Some (ret, pos, s)
    | inr it =>
        let tot_len := iter_count it in
        if tot_len =? 0 then Some (tot_len, pos, s)
        else
          let ret := rw_verify_area WRITE f pos tot_len in
          if ret <? 0 then Some (ret, pos, s)
          else
            let s := add_writers 1 s in
            match
              match f_op_write_iter with
              | Some m => do_iter_readv_writev true (Some m) it pos flags s
              | None => do_loop_readv_writev true f_op_write it pos flags s
              end
            with
            | None => None
            | Some (ret, pos, s) => Some (ret, pos, add_writers (-1) s)
            end
    end.

(** In-kernel users with an iterator of their own. *)
Definition vfs_iter_read (it : iter) (ppos : option Z) (flags : Z) (s : io) : rw_result :=
  let f := io_file s in
  match f_op_read_iter with
  | None => Some (- EINVAL, ppos, s)
  | Some m =>
      if negb (has (f_mode f) FMODE_READ) then Some (- EBADF, ppos, s)
      else if negb (has (f_mode f) FMODE_CAN_READ) then Some (- EINVAL, ppos, s)
      else if iter_count it =? 0 then Some (0, ppos, s)
      else
        let ret := rw_verify_area READ f ppos (iter_count it) in
        if ret <? 0 then Some (ret, ppos, s) else do_iter_readv_writev false (Some m) it ppos flags s
  end.

Definition vfs_iter_write (it : iter) (ppos : option Z) (flags : Z) (s : io) : rw_result :=
  let f := io_file s in
  if negb (has (f_mode f) FMODE_WRITE) then Some (- EBADF, ppos, s)
  else if negb (has (f_mode f) FMODE_CAN_WRITE) then Some (- EINVAL, ppos, s)
  else
    match f_op_write_iter with
    | None => Some (- EINVAL, ppos, s)
    | Some m =>
        if iter_count it =? 0 then Some (0, ppos, s)
        else
          let ret := rw_verify_area WRITE f ppos (iter_count it) in
          if ret <? 0 then Some (ret, ppos, s)
          else
            match do_iter_readv_writev true (Some m) it ppos flags (add_writers 1 s) with
            | None => None
            | Some (ret, ppos, s) => Some (ret, ppos, add_writers (-1) s)
            end
    end.

(** The position is the iocb's; a queued write ends later. *)
Definition vfs_iocb_iter_read (it : iter) (ki_pos : Z) (s : io) : Z * Z * io :=
  let f := io_file s in
  match f_op_read_iter with
  | None => (- EINVAL, ki_pos, s)
  | Some m =>
      if negb (has (f_mode f) FMODE_READ) then (- EBADF, ki_pos, s)
      else if negb (has (f_mode f) FMODE_CAN_READ) then (- EINVAL, ki_pos, s)
      else if iter_count it =? 0 then (0, ki_pos, s)
      else
        let ret := rw_verify_area READ f (Some ki_pos) (iter_count it) in
        if ret <? 0 then (ret, ki_pos, s)
        else
          let '(ret, pos, s) := invoke false m (iter_addr it) (iter_count it) (Some ki_pos) s in
          (ret, match pos with Some p => p | None => ki_pos end, s)
  end.

Definition vfs_iocb_iter_write (it : iter) (ki_pos : Z) (s : io) : Z * Z * io :=
  let f := io_file s in
  match f_op_write_iter with
  | None => (- EINVAL, ki_pos, s)
  | Some m =>
      if negb (has (f_mode f) FMODE_WRITE) then (- EBADF, ki_pos, s)
      else if negb (has (f_mode f) FMODE_CAN_WRITE) then (- EINVAL, ki_pos, s)
      else if iter_count it =? 0 then (0, ki_pos, s)
      else
        let ret := rw_verify_area WRITE f (Some ki_pos) (iter_count it) in
        if ret <? 0 then (ret, ki_pos, s)
        else
          let '(ret, pos, s) := invoke true m (iter_addr it) (iter_count it) (Some ki_pos) (add_writers 1 s) in
          (ret, match pos with Some p => p | None => ki_pos end,
           if negb (ret =? - EIOCBQUEUED) then add_writers (-1) s else s)
  end.

(** ** Syscalls *)

Definition account_read (ret : Z) (s : io) : io := account (if 0 <? ret then ret else 0) 0 1 0 s.
Definition account_write (ret : Z) (s : io) : io := account 0 (if 0 <? ret then ret else 0) 0 1 s.

Definition do_readv (is_open : bool) (vec vlen flags : Z) (s : io) : option (Z * io) :=
  if is_open then
    let ppos := file_ppos (io_file s) in
    match vfs_readv vec vlen ppos flags s with
    | None => None
    | Some (ret, pos, s) => Some (ret, account_read ret (store_pos ret ppos pos s))
    end
  else Some (- EBADF, account_read (- EBADF) s).

Definition do_writev (is_open : bool) (vec vlen flags : Z) (s : io) : option (Z * io) :=
  if is_open then
    let ppos := file_ppos (io_file s) in
    match vfs_writev vec vlen ppos flags s with
    | None => None
    | Some (ret, pos, s) => Some (ret, account_write ret (store_pos ret ppos pos s))
    end
  else Some (- EBADF, account_write (- EBADF) s).

(** [((loff_t)high << HALF_LONG_BITS) << HALF_LONG_BITS | low] with 64-bit longs. *)
Definition pos_from_hilo (high low : Z) : Z :=
  i64 (Z.lor (i64 (Z.shiftl (i64 (Z.shiftl (i64 high) 32)) 32)) (i64 low)).

Definition do_preadv (is_open : bool) (vec vlen pos flags : Z) (s : io) : option (Z * io) :=
  if pos <? 0 then Some (- EINVAL, s)
  else if is_open then
    if has (f_mode (io_file s)) FMODE_PREAD then
      match vfs_readv vec vlen (Some pos) flags s with
      | None => None
      | Some (ret, _, s) => Some (ret, account_read ret s)
      end
    else Some (- ESPIPE, account_read (- ESPIPE) s)
  else Some (- EBADF, account_read (- EBADF) s).

Definition do_pwritev (is_open : bool) (vec vlen pos flags : Z) (s : io) : option (Z * io) :=
  if pos <? 0 then Some (- EINVAL, s)
  else if is_open then
    if has (f_mode (io_file s)) FMODE_PWRITE then
      match vfs_writev vec vlen (Some pos) flags s with
      | None => None
      | Some (ret, _, s) => Some (ret, account_write ret s)
      end
    else Some (- ESPIPE, account_write (- ESPIPE) s)
  else Some (- EBADF, account_write (- EBADF) s).

Definition sys_readv (o : bool) (vec vlen : Z) := do_readv o vec vlen 0.
Definition sys_writev (o : bool) (vec vlen : Z) := do_writev o vec vlen 0.
Definition sys_preadv (o : bool) (vec vlen pos_l pos_h : Z) := do_preadv o vec vlen (pos_from_hilo pos_h pos_l) 0.
Definition sys_pwritev (o : bool) (vec vlen pos_l pos_h : Z) := do_pwritev o vec vlen (pos_from_hilo pos_h pos_l) 0.
Definition sys_preadv2 (o : bool) (vec vlen pos_l pos_h flags : Z) :=
  let pos := pos_from_hilo pos_h pos_l in
  if pos =? -1 then do_readv o vec vlen flags else do_preadv o vec vlen pos flags.
Definition sys_pwritev2 (o : bool) (vec vlen pos_l pos_h flags : Z) :=
  let pos := pos_from_hilo pos_h pos_l in
  if pos =? -1 then do_writev o vec vlen flags else do_pwritev o vec vlen pos flags.

(** [((loff_t)pos_high << 32) | pos_low] of two 32-bit words. *)
Definition compat_pos (pos_low pos_high : Z) : Z := i64 (Z.lor (i64 (Z.shiftl pos_high 32)) pos_low).

Definition compat_preadv (o : bool) (vec vlen lo hi : Z) := do_preadv o vec vlen (compat_pos lo hi) 0.
Definition compat_pwritev (o : bool) (vec vlen lo hi : Z) := do_pwritev o vec vlen (compat_pos lo hi) 0.
Definition compat_preadv2 (o : bool) (vec vlen lo hi flags : Z) :=
  let pos := compat_pos lo hi in
  if pos =? -1 then do_readv o vec vlen flags else do_preadv o vec vlen pos flags.
Definition compat_pwritev2 (o : bool) (vec vlen lo hi flags : Z) :=
  let pos := compat_pos lo hi in
  if pos =? -1 then do_writev o vec vlen flags else do_pwritev o vec vlen pos flags.

(** The variants that take the position as one 64-bit argument. *)
Definition compat_preadv64 (o : bool) (vec vlen pos : Z) := do_preadv o vec vlen pos 0.
Definition compat_pwritev64 (o : bool) (vec vlen pos : Z) := do_pwritev o vec vlen pos 0.
Definition compat_preadv64v2 (o : bool) (vec vlen pos flags : Z) :=
  if pos =? -1 then do_readv o vec vlen flags else do_preadv o vec vlen pos flags.
Definition compat_pwritev64v2 (o : bool) (vec vlen pos flags : Z) :=
  if pos =? -1 then do_writev o vec vlen flags else do_pwritev o vec vlen pos flags.

End vectored.

(** ** What a call does, in terms of the method invocations it makes

    Positions are what the methods leave: an append write, for one, first goes to the end of
    the file (generic_write_checks_count), so nothing is assumed of them. *)

(** The buffers and lengths of invocations. *)
Definition bufs (cs : list method_call) : list (Z * Z) := (fun c => (mc_buf c, mc_count c)) <$> cs.

(** Each invocation gets the position the one before left, and only the last may be short
    or fail. *)
Fixpoint chain (pos : option Z) (cs : list method_call) : Prop :=
  match cs with
  | [] => True
  | c :: cs => mc_pos c = pos /\ (cs <> [] -> mc_ret c = mc_count c) /\ chain (mc_left c) cs
  end.

Fixpoint left_by (pos : option Z) (cs : list method_call) : option Z :=
  match cs with [] => pos | c :: cs => left_by (mc_left c) cs end.

(** The bytes transferred, and the answer: these, or the error if there are none. *)
Fixpoint transferred (cs : list method_call) : Z :=
  match cs with [] => 0 | c :: cs => Z.max (mc_ret c) 0 + transferred cs end.
Fixpoint last_ret (r : Z) (cs : list method_call) : Z :=
  match cs with [] => r | c :: cs => last_ret (mc_ret c) cs end.
Definition answer (cs : list method_call) : Z :=
  if transferred cs =? 0 then Z.min (last_ret 0 cs) 0 else transferred cs.

Fixpoint asked (cs : list method_call) : Z := match cs with [] => 0 | c :: cs => mc_count c + asked cs end.

(** An invocation that transferred no more than it was asked for and moved the position by
    what it transferred, as reads and writes other than appends do. *)
Definition exact_call (c : method_call) : Prop :=
  mc_ret c <= mc_count c /\ mc_left c = match mc_pos c with Some p => Some (i64 (p + Z.max (mc_ret c) 0)) | None => None end.

Lemma transferred_nonneg cs : 0 <= transferred cs.
Proof. induction cs; cbn; lia. Qed.

Lemma answer_max cs : Z.max (answer cs) 0 = transferred cs.
Proof. unfold answer. pose proof (transferred_nonneg cs). case_if; lia. Qed.

Lemma i64_mod a : exists k, i64 a = a + k * 2 ^ 64.
Proof.
  unfold wrapS. cbv zeta. pose proof (Z.div_mod a (2 ^ 64) ltac:(lia)).
  case_if; [exists (- (a / 2 ^ 64))|exists (- (a / 2 ^ 64) - 1)]; lia.
Qed.

Lemma i64_add a b : i64 (i64 a + b) = i64 (a + b).
Proof.
  destruct (i64_mod a) as [k ->]. replace (a + k * 2 ^ 64 + b) with (a + b + k * 2 ^ 64) by lia.
  unfold wrapS. cbv zeta. by rewrite Z.mod_add by lia.
Qed.

Lemma u64_i64 a : u64 (i64 a) = u64 a.
Proof. destruct (i64_mod a) as [k ->]. unfold wrapU. by rewrite Z.mod_add by lia. Qed.

(** The room after a transfer. *)
Lemma room_moves uns p n k : pos_room uns n (Some p) -> 0 <= k <= n -> pos_room uns (n - k) (Some (i64 (p + k))).
Proof.
  cbn. destruct uns.
  - intros [Hs Hr] Hk. split; [apply wrapS_range; lia|]. rewrite u64_i64. pose proof (wrapU_add 64 p k) as <-.
    pose proof (u64_bounds p). rewrite (wrapU_id 64) by (unfold is_u; lia). lia.
  - unfold OFFSET_MAX. intros [H0 Hr] Hk. rewrite wrapS_id by (unfold is_s; lia). lia.
Qed.

(** Exact invocations in a chain stay in the room there was and add up. *)
Lemma exact_chain uns cs pos n :
  chain pos cs -> Forall exact_call cs -> Forall (fun c => 0 <= mc_count c) cs -> asked cs <= n -> n <= MAX_RW_COUNT ->
  pos_room uns n pos ->
  Forall (safe_call uns) cs /\ transferred cs <= asked cs /\
  forall p, pos = Some p -> is_s 64 p -> left_by pos cs = Some (i64 (p + transferred cs)).
Proof.
  intros Hch He Hc. revert pos n Hch. induction cs as [|c cs IH]; intros pos n Hch Hn Hm Hr; cbn [left_by transferred asked] in *.
  { split; [constructor|]. split; [lia|]. intros p -> Hp. rewrite Z.add_0_r. by rewrite wrapS_id. }
  apply Forall_cons in He as [[He1 He2] He]. apply Forall_cons in Hc as [Hc1 Hc]. destruct Hch as (Hpos & Hfull & Hch).
  assert (Has : 0 <= asked cs) by (clear -Hc; induction Hc; cbn; lia).
  assert (Hsafe : safe_call uns c).
  { split; [lia|]. rewrite Hpos. eapply pos_room_le; [done|lia]. }
  rewrite Hpos in He2.
  destruct pos as [p|].
  - assert (Hroom : pos_room uns (n - Z.max (mc_ret c) 0) (mc_left c)) by (rewrite He2; apply room_moves; [done|lia]).
    assert (Hle : cs = [] \/ asked cs <= n - Z.max (mc_ret c) 0) by (destruct cs; [by left|right; rewrite Hfull by done; lia]).
    destruct Hle as [-> |Hle].
    { split; [by constructor|]. cbn [transferred left_by asked]. split; [lia|]. intros q [= <-] Hq. by rewrite Z.add_0_r. }
    destruct (IH He Hc _ _ Hch Hle ltac:(lia) Hroom) as (H1 & H2 & H3). split; [by constructor|]. split; [lia|].
    intros q [= <-] Hq. rewrite (H3 _ He2); [|apply wrapS_range; lia]. by rewrite i64_add, Z.add_assoc.
  - rewrite He2 in Hch. destruct (IH He Hc _ n Hch ltac:(lia) Hm Logic.I) as (H1 & H2 & _). split; [by constructor|]. split; [lia|done].
Qed.

Section calls.
Context {F : FileOps} {I : IovIter}.
Context (kiocb_set_rw_flags : Z -> Z).

(** The segments of an iterator. *)
Fixpoint segments_of (fuel : nat) (it : iter) : list (Z * Z) :=
  if iter_count it =? 0 then []
  else match fuel with O => [] | S fuel => (iter_addr it, iter_len it) :: segments_of fuel (iter_advance (iter_len it) it) end.
Definition segments (it : iter) : list (Z * Z) := segments_of (iter_segs it) it.

Definition full (c : method_call) : Prop := mc_ret c = mc_count c.

(** What the state keeps while the invocations [cs] are made, the first first. *)
Definition made (write : bool) (cs : list method_call) (s s' : io) : Prop :=
  io_file s' = io_file s /\ writers s' = writers s /\ calls s' = rev cs ++ calls s /\
  Forall (fun c => mc_write c = write /\ 0 <= mc_count c) cs.

Lemma made_cons write c cs s s1 s' : made write [c] s s1 -> made write cs s1 s' -> made write (c :: cs) s s'.
Proof.
  intros (A1 & A2 & A3 & A4) (B1 & B2 & B3 & B4). unfold made. split; [congruence|]. split; [congruence|]. split.
  - rewrite B3, A3. cbn [rev app]. by rewrite <- app_assoc.
  - inversion A4; subst. by constructor.
Qed.

Lemma invoke_made write m buf n pos s r pos' s' : 0 <= n -> invoke write m buf n pos s = (r, pos', s') ->
  exists c, made write [c] s s' /\ bufs [c] = [(buf, n)] /\ mc_pos c = pos /\ mc_ret c = r /\ mc_left c = pos' /\ mc_count c = n.
Proof.
  intros Hn. unfold invoke. destruct (m buf n pos (io_dev s)) as [[r0 p0] d]. cbv zeta. intros [= <- <- <-].
  eexists {| mc_write := write; mc_buf := buf; mc_pos := pos; mc_count := n; mc_ret := r0; mc_left := _ |}.
  split; [split; [done|]; split; [done|]; split; [reflexivity|]; by repeat constructor|]. by split_and!.
Qed.

(** The loop makes an initial part of the segments its invocations, and all of them unless
    one falls short. *)
Lemma loop_serves fuel write m it pos ret s :
  (iter_segs it <= fuel)%nat -> 0 <= ret ->
  exists r cs s', loop_readv_writev fuel write (Some m) it pos ret s = Some (r, left_by pos cs, s') /\
    made write cs s s' /\ bufs cs `prefix_of` segments_of fuel it /\ (Forall full cs -> bufs cs = segments_of fuel it) /\
    (iter_count it <> 0 -> cs <> []) /\
    chain pos cs /\ asked cs <= iter_count it /\ r = (if ret =? 0 then answer cs else ret + transferred cs).
Proof.
  revert it pos ret s. induction fuel as [|fuel IH]; intros it pos ret s Hf Hret;
    cbn [loop_readv_writev segments_of]; pose proof (iter_len_range it) as Hl;
    (destruct (Z.eqb_spec (iter_count it) 0) as [Hz|Hz];
      [exists ret, [], s; cbn; split_and!; try done; [lia|unfold answer; cbn; case_if; lia]|]).
  { pose proof (iter_segs_pos it). lia. }
  destruct (invoke write m (iter_addr it) (iter_len it) pos s) as [[nr p1] s1] eqn:Hi.
  apply invoke_made in Hi as (c & Hm & Hb & Hp & Hr & Hle & Hcn); [|lia].
  assert (Hone : forall r, r = (if ret =? 0 then answer [c] else ret + transferred [c]) -> ~ full c ->
    exists r' cs s', Some (r, p1, s1) = Some (r', left_by pos cs, s') /\ made write cs s s' /\
    bufs cs `prefix_of` ((iter_addr it, iter_len it) :: segments_of fuel (iter_advance (iter_len it) it)) /\
    (Forall full cs -> bufs cs = (iter_addr it, iter_len it) :: segments_of fuel (iter_advance (iter_len it) it)) /\
    (iter_count it <> 0 -> cs <> []) /\
    chain pos cs /\ asked cs <= iter_count it /\ r' = (if ret =? 0 then answer cs else ret + transferred cs)).
  { intros r -> Hnf. exists (if ret =? 0 then answer [c] else ret + transferred [c]), [c], s1. split; [cbn [left_by]; by rewrite Hle|].
    split; [done|]. split; [rewrite Hb; by apply prefix_cons, prefix_nil|]. split; [intros Hfl; by inversion Hfl|]. split; [done|].
    split; [by split|]. split; [cbn; lia|done]. }
  assert (Ha1 : answer [c] = nr) by (unfold answer; cbn; rewrite Hr; case_if; lia).
  assert (Ht1 : transferred [c] = Z.max nr 0) by (cbn; lia).
  destruct (Z.ltb_spec nr 0) as [Hnr|Hnr]; [apply Hone; [rewrite Ha1, Ht1; case_if; lia|unfold full; lia]|].
  destruct (Z.eqb_spec nr (iter_len it)) as [Hnl|Hnl]; cbn [negb];
    [|apply Hone; [rewrite Ha1, Ht1; case_if; lia|unfold full; lia]].
  pose proof (iter_advance_count it) as Hac. pose proof (iter_segs_pos it ltac:(lia)) as Hs. pose proof (iter_advance_segs it Hs).
  rewrite <- Hnl in Hac |- *.
  destruct (IH (iter_advance nr it) p1 (ret + nr) s1) as (r & cs & s' & He & B1 & B2 & B3 & B4 & B5 & B6 & B7); [rewrite Hnl; lia|lia|].
  exists r, (c :: cs), s'. split; [cbn [left_by]; by rewrite Hle|]. split; [by eapply made_cons|].
  assert (Hbc : bufs (c :: cs) = (iter_addr it, nr) :: bufs cs) by (cbn in Hb |- *; injection Hb as -> ->; by rewrite Hnl).
  rewrite Hbc. split; [by apply prefix_cons|]. split; [intros Hfl; inversion Hfl; subst; by rewrite B3|]. split; [done|].
  split; [split; [done|split; [intros _; lia|by rewrite Hle]]|]. split; [cbn; lia|].
  rewrite B7. unfold answer. cbn [transferred last_ret]. pose proof (transferred_nonneg cs). rewrite Hr.
  destruct (Z.eqb_spec nr 0) as [-> |Hn0].
  - replace (Z.max 0 0 + transferred cs) with (transferred cs) by lia. rewrite !Z.add_0_r. done.
  - case_if; [lia|]. case_if; [|lia]. case_if; lia.
Qed.

(** The method a call prefers, and that modes promise only what the table has (which is what
    opening a file establishes). *)
Definition iter_method (write : bool) : option (method dev) := if write then f_op_write_iter else f_op_read_iter.

Definition mode_promises (f : file) : Prop :=
  (has (f_mode f) FMODE_CAN_READ = true -> f_op_read <> None \/ f_op_read_iter <> None) /\
  (has (f_mode f) FMODE_CAN_WRITE = true -> f_op_write <> None \/ f_op_write_iter <> None).

(** The invocations [cs] and the answer [r] of a call for the vector at [pos]. *)
Definition served (write : bool) (vec vlen : Z) (pos : option Z) (uns : bool) (cs : list method_call) (r : Z) : Prop :=
  match cs with
  | [] => r < 0 \/ r = 0 /\ exists it, import_iovec vec vlen = inr it /\ iter_count it = 0
  | _ => r = answer cs /\ exists it, import_iovec vec vlen = inr it /\
      match iter_method write with
      | Some _ => bufs cs = [(iter_addr it, iter_count it)] /\ chain (Some (default 0 pos)) cs
      | None => bufs cs `prefix_of` segments it /\ (Forall full cs -> bufs cs = segments it) /\ chain pos cs
      end /\
      (Forall exact_call cs -> r <= iter_count it /\ Forall (safe_call uns) cs /\
         forall p, pos = Some p -> left_by pos cs = Some (i64 (p + Z.max r 0)) /\ pos_room uns (Z.max r 0) pos)
  end.

(** What exact invocations give. *)
Lemma served_exact uns it pos cs pos0 : pos_ok pos -> iter_count it <= MAX_RW_COUNT -> pos_room uns (iter_count it) pos0 ->
  (forall p, pos = Some p -> pos0 = Some p) ->
  chain pos0 cs -> Forall (fun c => 0 <= mc_count c) cs -> asked cs <= iter_count it -> Forall exact_call cs ->
  answer cs <= iter_count it /\ Forall (safe_call uns) cs /\
  forall p, pos = Some p -> left_by pos cs = Some (i64 (p + Z.max (answer cs) 0)) /\ pos_room uns (Z.max (answer cs) 0) pos.
Proof.
  intros Hp Hm Hr H0 Hch Hc Ha He. destruct (exact_chain uns cs pos0 (iter_count it) Hch He Hc Ha Hm Hr) as (H1 & H2 & H3).
  pose proof (answer_max cs) as Hmax. split; [lia|]. split; [done|]. intros p Hpp. rewrite Hmax. pose proof (H0 p Hpp) as ->.
  subst pos. split; [by apply (H3 p eq_refl)|]. eapply pos_room_le; [done|lia].
Qed.

Lemma made_counts write cs s s' : made write cs s s' -> Forall (fun c => 0 <= mc_count c) cs.
Proof. intros (_ & _ & _ & H). eapply Forall_impl; [exact H|]. by intros c []. Qed.

Lemma iter_serves write m vec vlen it pos flags s : iter_method write = Some m -> import_iovec vec vlen = inr it ->
  (forall fl, kiocb_set_rw_flags fl <= 0) -> pos_ok pos -> iter_count it <= MAX_RW_COUNT ->
  pos_room (unsigned_offsets (io_file s)) (iter_count it) pos ->
  exists r pos' s' cs, do_iter_readv_writev kiocb_set_rw_flags write (Some m) it pos flags s = Some (r, pos', s') /\
    made write cs s s' /\ (forall p, pos = Some p -> pos' = left_by pos cs) /\
    served write vec vlen pos (unsigned_offsets (io_file s)) cs r.
Proof.
  intros Him Hit Hk Hp Hm Hr. pose proof (iter_len_range it) as Hl. unfold do_iter_readv_writev. cbv zeta. case_if.
  { do 2 eexists. exists s, []. split; [reflexivity|]. split; [by split_and!|]. split; [done|]. left.
    specialize (Hk flags). apply c_true_true in Hif. lia. }
  destruct (invoke _ _ _ _ _ _) as [[r p1] s1] eqn:Hi. apply invoke_made in Hi as (c & Hmd & Hb & Hpos & Hrt & Hle & Hcn); [|lia].
  do 2 eexists. exists s1, [c]. split; [reflexivity|]. split; [done|].
  assert (Hans : answer [c] = r) by (unfold answer; cbn; rewrite Hrt; case_if; lia).
  split; [intros p ->; cbn; by rewrite Hle|]. split; [done|]. exists it. split; [done|]. rewrite Him. 
  assert (Hch : chain (Some (default 0 pos)) [c]) by (split; [rewrite Hpos; by destruct pos|done]).
  split; [by split|]. intros He. rewrite <- Hans.
  apply (served_exact _ it pos [c] (Some (default 0 pos))); try done.
  - pose proof (sync_pos_ok _ pos (iter_count it) ltac:(lia) Hr) as Hs. by destruct pos.
  - by intros p ->.
  - by eapply made_counts.
  - cbn. lia.
Qed.

Lemma loop_path_serves write m vec vlen it pos flags s : iter_method write = None -> import_iovec vec vlen = inr it ->
  iter_count it <> 0 -> pos_ok pos -> iter_count it <= MAX_RW_COUNT ->
  pos_room (unsigned_offsets (io_file s)) (iter_count it) pos ->
  exists r pos' s' cs, do_loop_readv_writev write (Some m) it pos flags s = Some (r, pos', s') /\
    made write cs s s' /\ (forall p, pos = Some p -> pos' = left_by pos cs) /\
    served write vec vlen pos (unsigned_offsets (io_file s)) cs r.
Proof.
  intros Him Hit Hz Hp Hm Hr. unfold do_loop_readv_writev. case_if.
  { do 2 eexists. exists s, []. split; [reflexivity|]. split; [by split_and!|]. split; [done|]. by left. }
  destruct (loop_serves (iter_segs it) write m it pos 0 s ltac:(lia) ltac:(lia)) as (r & cs & s' & -> & B1 & B2 & B3 & B4 & B5 & B6 & B7).
  exists r, (left_by pos cs), s', cs. split; [done|]. split; [done|]. split; [done|]. unfold served.
  destruct cs as [|c cs]; [by destruct (B4 Hz)|]. split; [done|]. exists it. rewrite Him. split; [done|]. split; [by split_and!|].
  intros He. change (if 0 =? 0 then answer (c :: cs) else 0 + transferred (c :: cs)) with (answer (c :: cs)) in B7. rewrite B7.
  apply (served_exact _ it pos (c :: cs) pos); try done. by eapply made_counts.
Qed.

Lemma count_u64 it : iter_count it <= MAX_RW_COUNT -> is_u 64 (iter_count it).
Proof. pose proof (iter_len_range it). unfold is_u, MAX_RW_COUNT. lia. Qed.

(** A call refused before any method is reached. *)
Lemma served_refused write vec vlen pos s r : r < 0 -> exists r' pos' s' cs, Some (r, pos, s) = Some (r', pos', s') /\
  made write cs s s' /\ (forall p, pos = Some p -> pos' = left_by pos cs) /\ served write vec vlen pos (unsigned_offsets (io_file s)) cs r'.
Proof. intros Hr. do 2 eexists. exists s, []. split; [reflexivity|]. split; [by split_and!|]. split; [done|]. by left. Qed.

Lemma served_empty write vec vlen pos s it : import_iovec vec vlen = inr it -> iter_count it = 0 ->
  exists r' pos' s' cs, Some (iter_count it, pos, s) = Some (r', pos', s') /\
  made write cs s s' /\ (forall p, pos = Some p -> pos' = left_by pos cs) /\ served write vec vlen pos (unsigned_offsets (io_file s)) cs r'.
Proof. intros Hi Hz. do 2 eexists. exists s, []. split; [reflexivity|]. split; [by split_and!|]. split; [done|]. right. eauto. Qed.

Lemma vfs_readv_serves vec vlen pos flags s :
  (forall fl, kiocb_set_rw_flags fl <= 0) -> mode_promises (io_file s) -> pos_ok pos ->
  exists r pos' s' cs, vfs_readv kiocb_set_rw_flags vec vlen pos flags s = Some (r, pos', s') /\
    made false cs s s' /\ (forall p, pos = Some p -> pos' = left_by pos cs) /\
    served false vec vlen pos (unsigned_offsets (io_file s)) cs r.
Proof.
  intros Gk [Hmode _] Hp. unfold vfs_readv. cbv zeta. case_if; [by apply served_refused|].
  destruct (has (f_mode (io_file s)) FMODE_CAN_READ); [|by apply served_refused]. cbn [negb].
  destruct (import_iovec vec vlen) as [e|it] eqn:Hi; [by apply served_refused; apply import_iovec_err in Hi|].
  pose proof (import_iovec_count _ _ _ Hi) as Hc. destruct (Z.eqb_spec (iter_count it) 0); [by apply served_empty|].
  case_if; [apply served_refused; lia|].
  assert (Hv : 0 <= rw_verify_area READ (io_file s) pos (iter_count it)) by lia.
  destruct (verify_area_range _ _ _ _ (count_u64 it Hc) Hp Hv) as [_ Hr].
  destruct f_op_read_iter as [m|] eqn:Him; [by apply iter_serves|].
  destruct f_op_read as [m|]; [by apply loop_path_serves|]. by destruct (Hmode eq_refl).
Qed.

Lemma made_writers cs s s' : made true cs (add_writers 1 s) s' -> made true cs s (add_writers (-1) s').
Proof. intros (A & B & C & D). split; [done|]. split; [cbn in *; lia|]. by split. Qed.

Lemma vfs_writev_serves vec vlen pos flags s :
  (forall fl, kiocb_set_rw_flags fl <= 0) -> mode_promises (io_file s) -> pos_ok pos ->
  exists r pos' s' cs, vfs_writev kiocb_set_rw_flags vec vlen pos flags s = Some (r, pos', s') /\
    made true cs s s' /\ (forall p, pos = Some p -> pos' = left_by pos cs) /\
    served true vec vlen pos (unsigned_offsets (io_file s)) cs r.
Proof.
  intros Gk [_ Hmode] Hp. unfold vfs_writev. cbv zeta. case_if; [by apply served_refused|].
  destruct (has (f_mode (io_file s)) FMODE_CAN_WRITE); [|by apply served_refused]. cbn [negb].
  destruct (import_iovec vec vlen) as [e|it] eqn:Hi; [by apply served_refused; apply import_iovec_err in Hi|].
  pose proof (import_iovec_count _ _ _ Hi) as Hc. destruct (Z.eqb_spec (iter_count it) 0); [by apply served_empty|].
  case_if; [apply served_refused; lia|].
  assert (Hv : 0 <= rw_verify_area WRITE (io_file s) pos (iter_count it)) by lia.
  destruct (verify_area_range _ _ _ _ (count_u64 it Hc) Hp Hv) as [_ Hr].
  destruct f_op_write_iter as [m|] eqn:Him.
  - destruct (iter_serves true m vec vlen it pos flags (add_writers 1 s) Him Hi Gk Hp Hc Hr) as (r & p' & s' & cs & -> & B1 & B2 & B3).
    exists r, p', (add_writers (-1) s'), cs. split; [done|]. split; [by apply made_writers|]. by split.
  - destruct f_op_write as [m|]; [|by destruct (Hmode eq_refl)].
    destruct (loop_path_serves true m vec vlen it pos flags (add_writers 1 s) Him Hi ltac:(done) Hp Hc Hr) as (r & p' & s' & cs & -> & B1 & B2 & B3).
    exists r, p', (add_writers (-1) s'), cs. split; [done|]. split; [by apply made_writers|]. by split.
Qed.

(** ** The calls *)

Inductive vec_call :=
| Readv (is_open : bool) (vec vlen flags : Z) | Writev (is_open : bool) (vec vlen flags : Z)
| Preadv (is_open : bool) (vec vlen pos flags : Z) | Pwritev (is_open : bool) (vec vlen pos flags : Z).

Definition vec_exec (c : vec_call) (s : io) : option (Z * io) :=
  match c with
  | Readv o v n fl => do_readv kiocb_set_rw_flags o v n fl s
  | Writev o v n fl => do_writev kiocb_set_rw_flags o v n fl s
  | Preadv o v n p fl => do_preadv kiocb_set_rw_flags o v n p fl s
  | Pwritev o v n p fl => do_pwritev kiocb_set_rw_flags o v n p fl s
  end.

Definition vec_args_ok (c : vec_call) : Prop :=
  match c with Preadv _ _ _ p _ | Pwritev _ _ _ p _ => is_s 64 p | _ => True end.

Definition vec_writes (c : vec_call) : bool := match c with Writev _ _ _ _ | Pwritev _ _ _ _ _ => true | _ => false end.
Definition vec_of (c : vec_call) : Z * Z :=
  match c with Readv _ v n _ | Writev _ v n _ | Preadv _ v n _ _ | Pwritev _ v n _ _ => (v, n) end.

(** The position a call works at: its own, or the file's unless that is a stream. *)
Definition vec_pos (c : vec_call) (f : file) : option Z :=
  match c with Preadv _ _ _ p _ | Pwritev _ _ _ p _ => Some p | _ => file_ppos f end.

(** Where the file is after the invocations [cs] and the answer [r]. *)
Definition pos_after (c : vec_call) (f : file) (cs : list method_call) (r : Z) : Z :=
  match c, file_ppos f with
  | Readv _ _ _ _, Some p | Writev _ _ _ _, Some p => if r <? 0 then p else default p (left_by (Some p) cs)
  | _, _ => f_pos f
  end.

Definition vec_outcome (c : vec_call) (s : io) (r : Z) (s' : io) : Prop :=
  exists cs, writers s' = writers s /\ calls s' = rev cs ++ calls s /\ Forall (fun m => mc_write m = vec_writes c) cs /\
    served (vec_writes c) (vec_of c).1 (vec_of c).2 (vec_pos c (io_file s)) (unsigned_offsets (io_file s)) cs r /\
    f_mode (io_file s') = f_mode (io_file s) /\ f_version (io_file s') = f_version (io_file s) /\
    f_pos (io_file s') = pos_after c (io_file s) cs r.

Lemma made_kind write cs s s' : made write cs s s' -> Forall (fun m => mc_write m = write) cs.
Proof. intros (_ & _ & _ & H). eapply Forall_impl; [exact H|]. by intros m []. Qed.

Lemma outcome_refused_plain c s r : r < 0 -> exists r' s', Some (r, s) = Some (r', s') /\ vec_outcome c s r' s'.
Proof.
  intros Hr. do 2 eexists. split; [reflexivity|]. exists []. split; [done|]. split; [done|]. split; [done|]. split; [by left|].
  split; [done|]. split; [done|]. unfold pos_after. destruct c; try done; unfold file_ppos; case_if; try done; (case_if; [done|lia]).
Qed.

Lemma outcome_refused c s r a b d e : r < 0 -> exists r' s', Some (r, account a b d e s) = Some (r', s') /\ vec_outcome c s r' s'.
Proof. intros Hr. destruct (outcome_refused_plain c s r Hr) as (? & ? & [= <- <-] & H). do 2 eexists. split; [reflexivity|exact H]. Qed.

Lemma outcome_at_file c s r p s1 cs a b d e :
  match c with Readv _ _ _ _ | Writev _ _ _ _ => True | _ => False end ->
  made (vec_writes c) cs s s1 -> (forall q, file_ppos (io_file s) = Some q -> p = left_by (file_ppos (io_file s)) cs) ->
  served (vec_writes c) (vec_of c).1 (vec_of c).2 (file_ppos (io_file s)) (unsigned_offsets (io_file s)) cs r ->
  vec_outcome c s r (account a b d e (store_pos r (file_ppos (io_file s)) p s1)).
Proof.
  intros Hc Hm Hp Hs. pose proof (made_kind _ _ _ _ Hm) as Hk. destruct Hm as (A1 & A2 & A3 & _). exists cs. unfold account, store_pos.
  assert (Hpos : pos_after c (io_file s) cs r = match file_ppos (io_file s) with Some q => if r <? 0 then q else default q p | None => f_pos (io_file s) end).
  { unfold pos_after. destruct c; try done; destruct (file_ppos (io_file s)) as [q|]; try done; by rewrite (Hp q eq_refl). }
  assert (Hvp : vec_pos c (io_file s) = file_ppos (io_file s)) by (by destruct c). rewrite Hvp, Hpos. clear Hpos Hvp.
  destruct (file_ppos (io_file s)) as [q|] eqn:Hq.
  - assert (Hfq : q = f_pos (io_file s)) by (unfold file_ppos in Hq; case_if_in Hq; congruence). subst q.
    destruct p as [p|]; [case_if; case_if; try lia|case_if]; cbn [io_file upd_file f_mode f_pos f_version set_pos writers calls default]; rewrite ?A1; by split_and!.
  - cbn [io_file writers calls]. rewrite A1. by split_and!.
Qed.

Lemma outcome_at_pos c s r q s1 cs a b d e :
  vec_pos c (io_file s) = Some q -> match c with Preadv _ _ _ _ _ | Pwritev _ _ _ _ _ => True | _ => False end ->
  made (vec_writes c) cs s s1 -> served (vec_writes c) (vec_of c).1 (vec_of c).2 (Some q) (unsigned_offsets (io_file s)) cs r ->
  vec_outcome c s r (account a b d e s1).
Proof.
  intros Hq Hc Hm Hs. pose proof (made_kind _ _ _ _ Hm) as Hk. destruct Hm as (A1 & A2 & A3 & _). exists cs.
  unfold account. cbn [io_file writers calls]. rewrite A1, Hq. split_and!; try done. unfold pos_after. destruct c; try done; by destruct (file_ppos _).
Qed.


End calls.

(** On 64-bit words the high half of a split position is shifted out. *)
Lemma pos_from_hilo_low high low : pos_from_hilo high low = i64 low.
Proof.
  unfold pos_from_hilo.
  assert (H : i64 (Z.shiftl (i64 (Z.shiftl (i64 high) 32)) 32) = 0).
  { rewrite Z.shiftl_mul_pow2 by lia. generalize (i64 high). intros h.
    rewrite Z.shiftl_mul_pow2 by lia. unfold wrapS. cbv zeta.
    assert (Hm : (if (h * 2 ^ 32) mod 2 ^ 64 <? 2 ^ (64 - 1) then (h * 2 ^ 32) mod 2 ^ 64
                  else (h * 2 ^ 32) mod 2 ^ 64 - 2 ^ 64) * 2 ^ 32 mod 2 ^ 64 = 0) by (case_if; zlia).
    rewrite Hm. reflexivity. }
  rewrite H, Z.lor_0_l. apply wrapS_id; [lia|apply wrapS_range; lia].
Qed.

(** Compat calls put the halves together. *)
Lemma compat_pos_value lo hi : is_u 32 lo -> is_u 32 hi -> compat_pos lo hi = i64 (hi * 2 ^ 32 + lo).
Proof.
  intros Hl Hh. unfold compat_pos, is_u in *. rewrite Z.shiftl_mul_pow2 by lia.
  assert (Hor : forall x, Z.lor (x * 2 ^ 32) lo = x * 2 ^ 32 + lo).
  { intros x. by apply lor_halves. }
  unfold wrapS at 2. cbv zeta. rewrite (Z.mod_small (hi * 2 ^ 32)) by lia. case_if; [by rewrite Hor|].
  replace (hi * 2 ^ 32 - 2 ^ 64) with ((hi - 2 ^ 32) * 2 ^ 32) by lia. rewrite Hor.
  unfold wrapS. cbv zeta. replace ((hi - 2 ^ 32) * 2 ^ 32 + lo) with (hi * 2 ^ 32 + lo + (-1) * 2 ^ 64) by lia.
  by rewrite Z.mod_add by lia.
Qed.

Section iocb.
Context {F : FileOps} {I : IovIter}.

(** A queued asynchronous write keeps its freeze protection, every other outcome has
    given it back. *)
Lemma iocb_write_freeze it pos s :
  let '(r, _, s') := vfs_iocb_iter_write it pos s in
  writers s' = writers s \/ r = - EIOCBQUEUED /\ writers s' = writers s + 1.
Proof.
  unfold vfs_iocb_iter_write. destruct f_op_write_iter as [m|]; [|by left]. cbv zeta.
  do 4 (case_if; [by left|]). unfold invoke. destruct (m _ _ _ _) as [[r p] d]. cbn [io_dev].
  destruct (Z.eqb_spec r (- EIOCBQUEUED)) as [->|]; cbn; [right; done|left; lia].
Qed.

End iocb.

(** ** Segments as a list *)

Definition seg_total (l : list (Z * nat)) : Z := fold_right (fun x a => Z.of_nat x.2 + a) 0 l.

Definition list_iter_len (l : list (Z * nat)) : Z := match l with (_, n) :: _ => Z.of_nat n | [] => 0 end.

Lemma seg_total_nonneg l : 0 <= seg_total l.
Proof.
  induction l as [|[a n] l IH]; [done|].
  change (seg_total ((a, n) :: l)) with (Z.of_nat n + seg_total l). lia.
Qed.

Lemma list_iter_len_range l : 0 <= list_iter_len l <= seg_total l.
Proof.
  destruct l as [|[a n] l]; [done|]. pose proof (seg_total_nonneg l).
  change (seg_total ((a, n) :: l)) with (Z.of_nat n + seg_total l). cbn [list_iter_len]. lia.
Qed.

(** Vectors are numbered; vector 7 has an empty segment in the middle. *)
Definition demo_vector (v : Z) : list (Z * nat) :=
  if v =? 7 then [(4096, 3%nat); (8192, 0%nat); (12288, 5%nat)] else [].

Definition ListIter : IovIter.
Proof.
  refine {| iter := list (Z * nat); iter_count := seg_total;
            iter_addr := fun l => match l with (a, _) :: _ => a | [] => 0 end;
            iter_len := list_iter_len; iter_segs := @length (Z * nat);
            iter_advance := fun _ l => tail l;
            import_iovec := fun v _ => inr (demo_vector v);
            iter_len_range := list_iter_len_range |}.
  - intros [|[a n] l]; cbn; lia.
  - intros [|[a n] l]; [done|]. change (seg_total ((a, n) :: l)) with (Z.of_nat n + seg_total l).
    cbn [list_iter_len tail]. lia.
  - intros [|[a n] l]; cbn; lia.
  - intros v n it [= <-]. unfold demo_vector. case_if; vm_compute; discriminate.
  - done.
Defined.

(** A device that delivers six bytes and then reports an error. *)
Definition demo_read : method Z := fun _ n pos d =>
  if d <=? 0 then (- ENXIO, match pos with Some p => p | None => 0 end, d)
  else let k := Z.min n d in (k, (match pos with Some p => p | None => 0 end) + k, d - k).

Definition demo_vec_ops : FileOps := {|
  dev := Z; f_op_read := Some demo_read; f_op_read_iter := None; f_op_write := None; f_op_write_iter := None;
  rw_access_ok := fun _ _ => true; security_file_permission := fun _ => 0; fsnotify_file_area_perm := fun _ _ _ => 0 |}.

Definition demo_vec_io : io (F := demo_vec_ops) :=
  @Build_io demo_vec_ops {| f_mode := 131101; f_pos := 100; f_version := 0 |} 6 0 0 0 0 0 [].

(** A file of 500 bytes open for append: a write goes to the end first. *)
Definition demo_append : method Z := fun _ n _ size => (n, size + n, size + n).

Definition demo_append_ops : FileOps := {|
  dev := Z; f_op_read := None; f_op_read_iter := None; f_op_write := None; f_op_write_iter := Some demo_append;
  rw_access_ok := fun _ _ => true; security_file_permission := fun _ => 0; fsnotify_file_area_perm := fun _ _ _ => 0 |}.

Definition demo_append_io : io (F := demo_append_ops) :=
  @Build_io demo_append_ops {| f_mode := 262174; f_pos := 100; f_version := 0 |} 500 0 0 0 0 0 [].

