(* ===== verification/CopyRange.v ===== *)
(** * Copies between files (fs/read_write.c: sendfile, copy_file_range, write checks)

    Both calls move data from one open file to another inside the kernel.  Open files
    have numbers and their positions live in one store, since both descriptors may
    name the same file.  The functions that move the data (splice, the copy and clone
    methods) are parameters; each use of them is logged with its ranges. *)
From S2P Require Import Prelude UserMem Track Seek ReadWrite.

Record cinode := {
  ci_num : Z; ci_sb : Z; ci_isdir : bool; ci_isreg : bool; ci_immutable : bool; ci_swapfile : bool;
  ci_size : Z; ci_maxbytes : Z
}.

(** The constant part of an open file: [cf_inode] is file_inode, [cf_host] is f_mapping->host
    (another inode where one file system works on another's page cache); the copy method is
    known by its address. *)
Record cfile := {
  cf_mode : Z; cf_flags : Z; cf_inode : cinode; cf_host : cinode; cf_copy : option Z; cf_remap : bool; cf_pipe : bool
}.

Inductive copy_kind := ByMethod | ByClone | BySplice | ToPipe.

Record copy_call := { cc_kind : copy_kind; cc_in : Z; cc_pos_in : Z; cc_out : Z; cc_pos_out : Z; cc_len : Z }.

Definition O_APPEND := 1024.
Definition O_LARGEFILE := 32768.
Definition MAX_NON_LFS := 2147483647.
Definition COPY_FILE_SPLICE := 1.
Definition RLIM_INFINITY := 18446744073709551615.
Definition IOCB_APPEND := 2.
Definition IOCB_NOWAIT := 8.
Definition IOCB_DIRECT := 131072.
Definition FMODE_BUF_WASYNC := 2147483648.

Class CopyEnv := {
  file_at : Z -> cfile;
  hooks_at : Z -> FileOps;                         (** the hooks rw_verify_area asks, per file *)
  rlimit_fsize : Z;
  (** result and final positions; in, out, positions, length *)
  splice_direct : Z -> Z -> Z -> Z -> Z -> Z * Z * Z;
  splice_to_pipe : Z -> Z -> Z -> Z -> Z * Z;
  copy_method : Z -> Z -> Z -> Z -> Z -> Z;
  remap_method : Z -> Z -> Z -> Z -> Z -> Z
}.

Record copy_state := {
  fpos : Z -> Z;                    (** f_pos of each open file *)
  c_rchar : Z; c_wchar : Z; c_syscr : Z; c_syscw : Z;
  freezes : Z;
  xfsz : Z;                         (** SIGXFSZ sent *)
  copies : list copy_call
}.

Definition set_fpos (f p : Z) (s : copy_state) : copy_state :=
  {| fpos := fun g => if g =? f then p else fpos s g; c_rchar := c_rchar s; c_wchar := c_wchar s;
     c_syscr := c_syscr s; c_syscw := c_syscw s; freezes := freezes s; xfsz := xfsz s; copies := copies s |}.

(** add_rchar and add_wchar of a positive result, inc_syscr, inc_syscw. *)
Definition account_copy (ret : Z) (s : copy_state) : copy_state :=
  let n := if 0 <? ret then ret else 0 in
  {| fpos := fpos s; c_rchar := u64 (c_rchar s + n); c_wchar := u64 (c_wchar s + n);
     c_syscr := u64 (c_syscr s + 1); c_syscw := u64 (c_syscw s + 1); freezes := freezes s; xfsz := xfsz s;
     copies := copies s |}.

Definition add_freeze (d : Z) (s : copy_state) : copy_state :=
  {| fpos := fpos s; c_rchar := c_rchar s; c_wchar := c_wchar s; c_syscr := c_syscr s; c_syscw := c_syscw s;
     freezes := freezes s + d; xfsz := xfsz s; copies := copies s |}.

Definition send_xfsz (s : copy_state) : copy_state :=
  {| fpos := fpos s; c_rchar := c_rchar s; c_wchar := c_wchar s; c_syscr := c_syscr s; c_syscw := c_syscw s;
     freezes := freezes s; xfsz := xfsz s + 1; copies := copies s |}.

Definition log_copy (c : copy_call) (s : copy_state) : copy_state :=
  {| fpos := fpos s; c_rchar := c_rchar s; c_wchar := c_wchar s; c_syscr := c_syscr s; c_syscw := c_syscw s;
     freezes := freezes s; xfsz := xfsz s; copies := c :: copies s |}.

Section copy.
Context {E : CopyEnv}.

(** rw_verify_area on a numbered file at [pos]. *)
Definition verify (rw : Z) (f : Z) (pos count : Z) : Z :=
  rw_verify_area (F := hooks_at f) rw {| f_mode := cf_mode (file_at f); f_pos := 0; f_version := 0 |} (Some pos) count.

(** ** Write checks *)

(** The answer, the count that is left, and whether SIGXFSZ is sent. *)
Definition generic_write_check_limits (f : cfile) (pos count : Z) : Z * Z * bool :=
  let max_size := ci_maxbytes (cf_host f) in
  let limit := i64 rlimit_fsize in
  let infinite := u64 limit =? RLIM_INFINITY in
  if negb infinite && (limit <=? pos) then (- EFBIG, count, true)
  else
    let count := if negb infinite then Z.min count (i64 (limit - pos)) else count in
    let max_size := if negb (has (cf_flags f) O_LARGEFILE) then MAX_NON_LFS else max_size in
    if max_size <=? pos then (- EFBIG, count, false)
    else (0, Z.min count (i64 (max_size - pos)), false).

(** On a kiocb: answer, position, count, signal. *)
Definition generic_write_checks_count (f : cfile) (ki_flags ki_pos count : Z) : Z * Z * Z * bool :=
  if ci_swapfile (cf_host f) then (- ETXTBSY, ki_pos, count, false)
  else if count =? 0 then (0, ki_pos, count, false)
  else
    let ki_pos := if has ki_flags IOCB_APPEND then ci_size (cf_host f) else ki_pos in
    if has ki_flags IOCB_NOWAIT && negb (has ki_flags IOCB_DIRECT || has (cf_mode f) FMODE_BUF_WASYNC)
    then (- EINVAL, ki_pos, count, false)
    else
      let '(ret, count, sig) := generic_write_check_limits f ki_pos count in
      (ret, ki_pos, count, sig).

(** The iterator is cut to the count that is left. *)
Definition generic_write_checks (f : cfile) (ki_flags ki_pos iter_count : Z) : Z * Z * Z * bool :=
  let '(ret, ki_pos, count, sig) := generic_write_checks_count f ki_flags ki_pos iter_count in
  if c_true ret then (ret, ki_pos, iter_count, sig)
  else let n := Z.min iter_count count in (n, ki_pos, n, sig).

Definition generic_file_rw_checks (f_in f_out : cfile) : Z :=
  if ci_isdir (cf_inode f_in) || ci_isdir (cf_inode f_out) then - EISDIR
  else if negb (ci_isreg (cf_inode f_in)) || negb (ci_isreg (cf_inode f_out)) then - EINVAL
  else if negb (has (cf_mode f_in) FMODE_READ) || negb (has (cf_mode f_out) FMODE_WRITE)
          || has (cf_flags f_out) O_APPEND then - EBADF
  else 0.

(** ** copy_file_range *)

Definition same_opt (a b : option Z) : bool :=
  match a, b with Some x, Some y => x =? y | None, None => true | _, _ => false end.

(** The answer, the shortened count and whether SIGXFSZ is sent; 64-bit unsigned sums. *)
Definition generic_copy_file_checks (f_in : cfile) (pos_in : Z) (f_out : cfile) (pos_out count flags : Z)
    : Z * Z * bool :=
  let inode_in := cf_inode f_in in
  let inode_out := cf_inode f_out in
  let ret := generic_file_rw_checks f_in f_out in
  if c_true ret then (ret, count, false)
  else if negb (has flags COPY_FILE_SPLICE)
          && (match cf_copy f_out with
              | Some _ => negb (same_opt (cf_copy f_in) (cf_copy f_out))
              | None => negb (ci_sb inode_in =? ci_sb inode_out)
              end) then (- EXDEV, count, false)
  else if ci_immutable inode_out then (- EPERM, count, false)
  else if ci_swapfile inode_in || ci_swapfile inode_out then (- ETXTBSY, count, false)
  else if (u64 (pos_in + count) <? u64 pos_in) || (u64 (pos_out + count) <? u64 pos_out)
  then (- EOVERFLOW, count, false)
  else
    let size_in := ci_size inode_in in
    let shortened := if size_in <=? pos_in then 0 else Z.min count (u64 (size_in - pos_in)) in
    let '(ret, shortened, sig) := generic_write_check_limits f_out pos_out (i64 shortened) in
    let shortened := u64 shortened in
    if c_true ret then (ret, count, sig)
    else if (ci_num inode_in =? ci_num inode_out) && (u64 pos_in <? u64 (pos_out + shortened))
            && (u64 pos_out <? u64 (pos_in + shortened)) then (- EINVAL, count, sig)
    else (0, shortened, sig).

(** The copy method, the clone method or neither: answer, and whether to splice. *)
Definition copy_or_clone (in_ pos_in out pos_out len : Z) (splice : bool) (s : copy_state) : Z * bool * copy_state :=
  let f_in := file_at in_ in
  let f_out := file_at out in
  let samesb := ci_sb (cf_inode f_in) =? ci_sb (cf_inode f_out) in
  let call k n := {| cc_kind := k; cc_in := in_; cc_pos_in := pos_in; cc_out := out; cc_pos_out := pos_out;
                     cc_len := n |} in
  if negb splice && match cf_copy f_out with Some _ => true | None => false end then
    (copy_method in_ pos_in out pos_out len, splice, log_copy (call ByMethod len) s)
  else if negb splice && cf_remap f_in && samesb then
    let n := Z.min MAX_RW_COUNT len in
    let ret := remap_method in_ pos_in out pos_out n in
    (ret, ret <=? 0, log_copy (call ByClone n) s)
  else (0, splice || samesb, s).

(** The fallback. *)
Definition copy_splice (in_ pos_in out pos_out len : Z) (s : copy_state) : Z * copy_state :=
  let n := Z.min len MAX_RW_COUNT in
  let '(ret, _, _) := splice_direct in_ pos_in out pos_out n in
  (ret, log_copy {| cc_kind := BySplice; cc_in := in_; cc_pos_in := pos_in; cc_out := out; cc_pos_out := pos_out;
                    cc_len := n |} s).

Definition vfs_copy_file_range (in_ : Z) (pos_in : Z) (out : Z) (pos_out len flags : Z) (s : copy_state)
    : Z * copy_state :=
  let splice := has flags COPY_FILE_SPLICE in
  if c_true (clear flags COPY_FILE_SPLICE) then (- EINVAL, s)
  else
    let '(ret, len, sig) := generic_copy_file_checks (file_at in_) pos_in (file_at out) pos_out len flags in
    let s := if sig : bool then send_xfsz s else s in
    if c_true ret then (ret, s)
    else
      let ret := verify READ in_ pos_in len in
      if c_true ret then (ret, s)
      else
        let ret := verify WRITE out pos_out len in
        if c_true ret then (ret, s)
        else if len =? 0 then (0, s)
        else
          let '(ret, splice, s) := copy_or_clone in_ pos_in out pos_out len splice (add_freeze 1 s) in
          let s := add_freeze (-1) s in
          let '(ret, s) := if splice : bool then copy_splice in_ pos_in out pos_out len s else (ret, s) in
          (ret, account_copy ret s).

(** ** sendfile *)

(** The files behind the descriptors; the final position of [ppos] is part of the answer. *)
Definition do_sendfile (out in_ : option Z) (ppos : option Z) (count max : Z) (s : copy_state)
    : Z * option Z * copy_state :=
  match in_ with
  | None => (- EBADF, ppos, s)
  | Some in_ =>
      if negb (has (cf_mode (file_at in_)) FMODE_READ) then (- EBADF, ppos, s)
      else if (match ppos with Some _ => true | None => false end) && negb (has (cf_mode (file_at in_)) FMODE_PREAD)
      then (- ESPIPE, ppos, s)
      else
        let pos := match ppos with Some p => p | None => fpos s in_ end in
        let retval := verify READ in_ pos count in
        if retval <? 0 then (retval, ppos, s)
        else
          let count := if MAX_RW_COUNT <? count then MAX_RW_COUNT else count in
          match out with
          | None => (- EBADF, ppos, s)
          | Some out =>
              if negb (has (cf_mode (file_at out)) FMODE_WRITE) then (- EBADF, ppos, s)
              else
                let out_pos := fpos s out in
                let max :=
                  if max =? 0
                  then Z.min (ci_maxbytes (cf_inode (file_at in_))) (ci_maxbytes (cf_inode (file_at out)))
                  else max in
                let over := u64 max <? u64 (pos + count) in
                if over && (max <=? pos) then (- EOVERFLOW, ppos, s)
                else
                  let count := if over then i64 (max - pos) else count in
                  let '(retval, pos, out_pos, s, stop) :=
                    if negb (cf_pipe (file_at out)) then
                      let retval := verify WRITE out out_pos count in
                      if retval <? 0 then (retval, pos, out_pos, s, true)
                      else
                        let '(r, p, q) := splice_direct in_ pos out out_pos count in
                        (r, p, q, log_copy {| cc_kind := BySplice; cc_in := in_; cc_pos_in := pos; cc_out := out;
                                              cc_pos_out := out_pos; cc_len := count |} s, false)
                    else
                      let '(r, p) := splice_to_pipe in_ out pos count in
                      (r, p, out_pos, log_copy {| cc_kind := ToPipe; cc_in := in_; cc_pos_in := pos; cc_out := out;
                                                  cc_pos_out := out_pos; cc_len := count |} s, false) in
                  if stop : bool then (retval, ppos, s)
                  else
                    let '(ppos, s) :=
                      if 0 <? retval then
                        let s := set_fpos out out_pos s in
                        match ppos with
                        | Some _ => (Some pos, s)
                        | None => (None, set_fpos in_ pos s)
                        end
                      else (ppos, s) in
                    let s := account_copy retval s in
                    ((if max <? pos then - EOVERFLOW else retval), ppos, s)
          end
  end.

(** ** The syscalls *)

Context {U : UserAccess}.

(** An offset of [n] bytes in user memory, read, advanced and written back in any case. *)
Definition sendfile_at (n : nat) (max : Z) (out in_ : option Z) (offset count : Z) (s : copy_state) (um : umem)
    : Z * copy_state * umem :=
  if c_true offset then
    match get_user n offset um with
    | None => (- EFAULT, s, um)
    | Some off =>
        let '(ret, pos, s) := do_sendfile out in_ (Some (wrapS (8 * Z.of_nat n) off)) count max s in
        let '(err, um) := put_user n (match pos with Some p => p | None => 0 end) offset um in
        if c_true err then (- EFAULT, s, um) else (ret, s, um)
    end
  else let '(ret, _, s) := do_sendfile out in_ None count 0 s in (ret, s, um).

Definition sys_sendfile := sendfile_at 8 MAX_NON_LFS.
Definition sys_sendfile64 := sendfile_at 8 0.
Definition compat_sendfile := sendfile_at 4 MAX_NON_LFS.
Definition compat_sendfile64 := sendfile_at 8 0.

(** The position of a side: from user memory or from the file. *)
Definition side_pos (off f : Z) (s : copy_state) (um : umem) : option Z :=
  if c_true off then
    match copy_from_user off 8 um with Some bs => Some (i64 (le_val bs)) | None => None end
  else Some (fpos s f).

(** The new position of a side: to user memory or to the file. *)
Definition put_side (off f pos ret : Z) (s : copy_state) (um : umem) : Z * copy_state * umem :=
  if c_true off then
    let '(missed, um) := copy_to_user off (le_bytes 8 pos) um in
    ((if c_true missed then - EFAULT else ret), s, um)
  else (ret, set_fpos f pos s, um).

Definition sys_copy_file_range (f_in : option Z) (off_in : Z) (f_out : option Z) (off_out len flags : Z)
    (s : copy_state) (um : umem) : Z * copy_state * umem :=
  match f_in, f_out with
  | Some f_in, Some f_out =>
      match side_pos off_in f_in s um with
      | None => (- EFAULT, s, um)
      | Some pos_in =>
          match side_pos off_out f_out s um with
          | None => (- EFAULT, s, um)
          | Some pos_out =>
              if negb (flags =? 0) then (- EINVAL, s, um)
              else
                let '(ret, s) := vfs_copy_file_range f_in pos_in f_out pos_out len flags s in
                if 0 <? ret then
                  let '(ret1, s, um) := put_side off_in f_in (i64 (pos_in + ret)) ret s um in
                  put_side off_out f_out (i64 (pos_out + ret)) ret1 s um
                else (ret, s, um)
          end
      end
  | _, _ => (- EBADF, s, um)
  end.

End copy.

(** ** Write checks keep writes within the limits *)

Definition limit_ok (fsize pos count : Z) : Prop :=
  fsize = RLIM_INFINITY \/ pos + count <= i64 fsize.

Definition size_limit (f : cfile) : Z :=
  if has (cf_flags f) O_LARGEFILE then ci_maxbytes (cf_host f) else MAX_NON_LFS.

(** An inode with a sensible size. *)
Definition inode_ok (i : cinode) : Prop := 0 <= ci_size i <= OFFSET_MAX /\ 0 <= ci_maxbytes i <= OFFSET_MAX.

Section limits.
Context {E : CopyEnv}.

Lemma check_limits_ok f pos count : is_u 64 rlimit_fsize -> inode_ok (cf_host f) -> 0 <= pos <= OFFSET_MAX ->
  let '(ret, count', sig) := generic_write_check_limits f pos count in
  (ret = 0 -> count' <= count /\ limit_ok rlimit_fsize pos count' /\ pos + count' <= size_limit f /\
              (0 < count -> 0 < count') /\ (0 <= count -> 0 <= count') /\ sig = false) /\
  (ret <> 0 -> ret = - EFBIG).
Proof.
  intros Hl (_ & Hm) Hp. unfold generic_write_check_limits, limit_ok, size_limit. cbv zeta.
  assert (Hinf : (u64 (i64 rlimit_fsize) =? RLIM_INFINITY) = (rlimit_fsize =? RLIM_INFINITY)).
  { f_equal. unfold wrapU, wrapS. cbv zeta. unfold is_u in Hl. rewrite (Z.mod_small rlimit_fsize) by lia.
    case_if; [by rewrite Z.mod_small by lia|].
    replace (rlimit_fsize - 2 ^ 64) with (rlimit_fsize + (-1) * 2 ^ 64) by lia.
    by rewrite Z.mod_add, Z.mod_small by lia. }
  rewrite Hinf. pose proof (wrapS_range 64 ltac:(lia) rlimit_fsize) as Hr. unfold is_s in Hr.
  set (limit := i64 rlimit_fsize) in *. set (mx := if negb _ then MAX_NON_LFS else _).
  assert (Hmx : mx = size_limit f) by (unfold mx, size_limit; by destruct (has _ _)).
  unfold size_limit in Hmx. rewrite <- Hmx. assert (0 <= mx <= OFFSET_MAX).
  { rewrite Hmx. unfold MAX_NON_LFS, OFFSET_MAX in *. case_if; lia. }
  unfold OFFSET_MAX in *. destruct (Z.eqb_spec rlimit_fsize RLIM_INFINITY) as [Hi|Hi]; cbn [negb andb].
  - case_if; [by split|]. rewrite wrapS_id by (lia || (unfold is_s; lia)). split; [|done]. intros _.
    split; [lia|]. split; [by left|]. repeat split; lia.
  - case_if; [by split|]. rewrite (wrapS_id 64 ltac:(lia) (limit - pos)) by (unfold is_s; lia).
    case_if; [by split|]. rewrite wrapS_id by (lia || (unfold is_s; lia)). split; [|done]. intros _.
    split; [lia|]. split; [right; lia|]. repeat split; lia.
Qed.

(** A write that passes the generic checks fits below the file-size limits. *)
Lemma write_checks_ok f ki_flags ki_pos n :
  is_u 64 rlimit_fsize -> inode_ok (cf_host f) -> 0 <= ki_pos <= OFFSET_MAX -> 0 <= n ->
  let '(ret, pos', n', sig) := generic_write_checks f ki_flags ki_pos n in
  0 < ret ->
  ret = n' /\ 0 < n' <= n /\ pos' = (if has ki_flags IOCB_APPEND then ci_size (cf_host f) else ki_pos) /\
  pos' + n' <= size_limit f /\ limit_ok rlimit_fsize pos' n' /\ ci_swapfile (cf_host f) = false.
Proof.
  intros Hl Hi Hp Hn. unfold generic_write_checks, generic_write_checks_count.
  destruct (ci_swapfile (cf_host f)); [done|]. destruct (Z.eqb_spec n 0) as [->|]; [cbn; lia|]. cbv zeta.
  set (p := if has ki_flags IOCB_APPEND then _ else _).
  assert (0 <= p <= OFFSET_MAX) by (unfold p; destruct Hi; case_if; lia).
  case_if; [intros H0; by vm_compute in H0|]. pose proof (check_limits_ok f p n Hl Hi H) as H'.
  destruct (generic_write_check_limits f p n) as [[ret c] sig]. destruct H' as [H1 H2].
  destruct (c_true ret) eqn:Hr; [apply c_true_true, H2 in Hr; rewrite Hr; unfold EFBIG; lia|].
  apply c_true_false in Hr. destruct (H1 Hr) as (A1 & A2 & A3 & A4 & A5 & A6). intros H0.
  replace (Z.min n c) with c in * by lia. split; [done|]. split; [lia|]. done.
Qed.

End limits.

(** ** Copies stay within both files *)

Section safety.
Context {E : CopyEnv}.

(** What a mover is asked to do. *)
Definition copy_ok (c : copy_call) : Prop :=
  let i := file_at (cc_in c) in
  let o := file_at (cc_out c) in
  let n := cc_len c in
  has (cf_mode i) FMODE_READ = true /\ has (cf_mode o) FMODE_WRITE = true /\
  ci_isreg (cf_inode i) = true /\ ci_isreg (cf_inode o) = true /\ has (cf_flags o) O_APPEND = false /\
  ci_immutable (cf_inode o) = false /\ ci_swapfile (cf_inode i) = false /\ ci_swapfile (cf_inode o) = false /\
  0 < n /\ 0 <= cc_pos_in c /\ cc_pos_in c + n <= ci_size (cf_inode i) /\
  0 <= cc_pos_out c /\ cc_pos_out c + n <= size_limit o /\ limit_ok rlimit_fsize (cc_pos_out c) n /\
  (ci_num (cf_inode i) = ci_num (cf_inode o) ->
   cc_pos_in c + n <= cc_pos_out c \/ cc_pos_out c + n <= cc_pos_in c) /\
  (cc_kind c <> ByMethod -> n <= MAX_RW_COUNT).

Lemma rw_checks_ok i o : generic_file_rw_checks i o = 0 ->
  has (cf_mode i) FMODE_READ = true /\ has (cf_mode o) FMODE_WRITE = true /\
  ci_isreg (cf_inode i) = true /\ ci_isreg (cf_inode o) = true /\ has (cf_flags o) O_APPEND = false.
Proof. unfold generic_file_rw_checks. do 3 (case_if; [done|]). intros _. bool_hyps. done. Qed.

Lemma copy_checks_u64 i pi o po n fl ret n' sig :
  is_u 64 n -> generic_copy_file_checks i pi o po n fl = (ret, n', sig) -> is_u 64 n'.
Proof.
  intros Hn. unfold generic_copy_file_checks. cbv zeta. do 5 (case_if; [by intros [= <- <- <-]|]).
  destruct (generic_write_check_limits _ _ _) as [[r k] g]. do 2 (case_if; [by intros [= <- <- <-]|]).
  intros [= <- <- <-]. apply wrapU_range. lia.
Qed.

Lemma copy_checks_ok i pi o po n fl n' sig :
  is_u 64 rlimit_fsize -> inode_ok (cf_inode i) -> inode_ok (cf_host o) ->
  0 <= pi <= OFFSET_MAX -> 0 <= po <= OFFSET_MAX -> is_u 64 n ->
  generic_copy_file_checks i pi o po n fl = (0, n', sig) ->
  has (cf_mode i) FMODE_READ = true /\ has (cf_mode o) FMODE_WRITE = true /\
  ci_isreg (cf_inode i) = true /\ ci_isreg (cf_inode o) = true /\ has (cf_flags o) O_APPEND = false /\
  ci_immutable (cf_inode o) = false /\ ci_swapfile (cf_inode i) = false /\ ci_swapfile (cf_inode o) = false /\
  0 <= n' /\ (0 < n' -> pi + n' <= ci_size (cf_inode i)) /\ po + n' <= size_limit o /\ limit_ok rlimit_fsize po n' /\
  (ci_num (cf_inode i) = ci_num (cf_inode o) -> 0 < n' -> pi + n' <= po \/ po + n' <= pi).
Proof.
  intros Hl Hi Ho Hpi Hpo Hn. unfold generic_copy_file_checks. cbv zeta.
  case_if; [intros [= H _ _]; by rewrite H in Hif|]. apply c_true_false, rw_checks_ok in Hif.
  case_if; [done|]. case_if; [done|]. case_if; [done|]. bool_hyps. case_if; [done|].
  set (sz := if ci_size (cf_inode i) <=? pi then 0 else _).
  assert (Hsz : 0 <= sz <= OFFSET_MAX /\ (0 < sz -> pi + sz <= ci_size (cf_inode i))).
  { unfold sz, is_u, OFFSET_MAX in *. destruct Hi as [Hi _]. unfold OFFSET_MAX in Hi. case_if; [lia|].
    rewrite wrapU_id by (unfold is_u; lia). lia. }
  clearbody sz. unfold OFFSET_MAX in *. rewrite (wrapS_id 64 ltac:(lia) sz) by (unfold is_s; lia).
  pose proof (check_limits_ok o po sz Hl Ho Hpo) as H'.
  destruct (generic_write_check_limits o po sz) as [[r k] g]. destruct H' as [H1 H2].
  destruct (c_true r) eqn:Hr; [intros [= -> _ _]; by rewrite c_true_true in Hr|].
  apply c_true_false in Hr. destruct (H1 Hr) as (A1 & A2 & A3 & _ & A5 & _).
  assert (Hk : 0 <= k) by (apply A5; lia). rewrite (wrapU_id 64 k) by (unfold is_u; lia).
  case_if; [done|]. intros [= <- _].
  destruct Hif as (B1 & B2 & B3 & B4 & B5). do 9 (split; [done|]). split; [lia|]. split; [lia|].
  split; [done|]. intros Hs Hk0. apply Z.eqb_eq in Hs. rewrite Hs in Hif3. cbn [andb] in Hif3.
  assert (Hpo' : po + k <= 9223372036854775807).
  { unfold size_limit, MAX_NON_LFS in A3. destruct Ho as [_ Ho]. unfold OFFSET_MAX in Ho. case_if_in A3; lia. }
  destruct Hi as [Hi _]. unfold OFFSET_MAX in Hi.
  rewrite !wrapU_id in Hif3 by (unfold is_u; lia). apply andb_false_iff in Hif3 as [?|?]; lia.
Qed.

(** The environment of a copy: sane inodes, signed offsets. *)
Definition files_ok (f g : Z) : Prop :=
  is_u 64 rlimit_fsize /\ inode_ok (cf_inode (file_at f)) /\ inode_ok (cf_host (file_at g)) /\
  inode_ok (cf_inode (file_at g)) /\
  has (cf_mode (file_at f)) FMODE_UNSIGNED_OFFSET = false /\ has (cf_mode (file_at g)) FMODE_UNSIGNED_OFFSET = false.

Lemma verify_range rw f pos n : has (cf_mode (file_at f)) FMODE_UNSIGNED_OFFSET = false -> is_s 64 pos -> is_u 64 n ->
  0 <= verify rw f pos n -> 0 <= pos /\ pos + n <= OFFSET_MAX.
Proof.
  intros Hu Hp Hn Hv. unfold verify in Hv. apply (verify_area_range (F := hooks_at f)) in Hv as [_ Hr]; [|done..].
  unfold pos_room, unsigned_offsets in Hr. cbn [f_mode] in Hr. by rewrite Hu in Hr.
Qed.

(** Safe copies were made, freeze protection changed by [d], no position moved. *)
Definition copied (d : Z) (s s' : copy_state) : Prop :=
  (exists cs, copies s' = cs ++ copies s /\ Forall copy_ok cs) /\ freezes s' = freezes s + d /\
  forall x, fpos s' x = fpos s x.

Lemma copied_same d s s' : copies s' = copies s -> freezes s' = freezes s + d -> (forall x, fpos s' x = fpos s x) ->
  copied d s s'.
Proof. intros H1 H2 H3. split; [by exists []|done]. Qed.

Lemma copied_trans d e s s1 s2 : copied d s s1 -> copied e s1 s2 -> copied (d + e) s s2.
Proof.
  intros ((c1 & A1 & A2) & A3 & A4) ((c2 & B1 & B2) & B3 & B4). split; [|split; [lia|]].
  - exists (c2 ++ c1). rewrite B1, A1, app_assoc. split; [done|]. by apply Forall_app.
  - intros x. by rewrite B4, A4.
Qed.

Lemma copied_log c s : copy_ok c -> copied 0 s (log_copy c s).
Proof. intros H. split; [exists [c]; split; [done|by constructor]|]. split; [cbn; lia|done]. Qed.

Section moving.
Context (f pos_in g pos_out len : Z).

(** Every shorter copy of the checked range is safe. *)
Definition range_checked : Prop :=
  0 < len /\ forall k m, 0 < m <= len -> (k <> ByMethod -> m <= MAX_RW_COUNT) ->
    copy_ok {| cc_kind := k; cc_in := f; cc_pos_in := pos_in; cc_out := g; cc_pos_out := pos_out; cc_len := m |}.

Lemma copy_or_clone_copied splice s : range_checked ->
  copied 0 s (copy_or_clone f pos_in g pos_out len splice s).2.
Proof.
  intros [Hl Hok]. unfold copy_or_clone. cbv zeta.
  case_if; [apply copied_log, Hok; [lia|done]|].
  case_if; [apply copied_log, Hok; unfold MAX_RW_COUNT; lia|]. apply copied_same; [done|cbn; lia|done].
Qed.

Lemma copy_splice_copied s : range_checked -> copied 0 s (copy_splice f pos_in g pos_out len s).2.
Proof.
  intros [Hl Hok]. unfold copy_splice. cbv zeta. destruct (splice_direct _ _ _ _ _) as [[r p] q].
  apply copied_log, Hok; unfold MAX_RW_COUNT; lia.
Qed.

End moving.

(** The checks of vfs_copy_file_range establish it. *)
Lemma checks_range f pos_in g pos_out len flags n sig :
  files_ok f g -> is_s 64 pos_in -> is_s 64 pos_out -> is_u 64 len ->
  generic_copy_file_checks (file_at f) pos_in (file_at g) pos_out len flags = (0, n, sig) ->
  verify READ f pos_in n = 0 -> verify WRITE g pos_out n = 0 -> n <> 0 -> range_checked f pos_in g pos_out n.
Proof.
  intros (Hl & Hi & Ho & _ & Hu1 & Hu2) Hpi Hpo Hn Hc Hv1 Hv2 Hn0.
  pose proof (copy_checks_u64 _ _ _ _ _ _ _ _ _ Hn Hc) as Hu64.
  destruct (verify_range READ f pos_in n Hu1 Hpi Hu64 (Z.eq_le_incl _ _ (eq_sym Hv1))) as [Hp0 _].
  destruct (verify_range WRITE g pos_out n Hu2 Hpo Hu64 (Z.eq_le_incl _ _ (eq_sym Hv2))) as [Hq0 _].
  assert (Hp : 0 <= pos_in <= OFFSET_MAX) by (unfold is_s, OFFSET_MAX in *; lia).
  assert (Hq : 0 <= pos_out <= OFFSET_MAX) by (unfold is_s, OFFSET_MAX in *; lia).
  destruct (copy_checks_ok _ _ _ _ _ _ _ _ Hl Hi Ho Hp Hq Hn Hc)
    as (B1 & B2 & B3 & B4 & B5 & B6 & B7 & B8 & H0 & B9 & B10 & B11 & B12).
  split; [lia|]. intros k m Hm Hk. unfold copy_ok. cbn [cc_kind cc_in cc_pos_in cc_out cc_pos_out cc_len].
  do 8 (split; [done|]). split; [lia|]. split; [lia|]. split; [lia|]. split; [lia|]. split; [lia|].
  split; [destruct B11; [by left|right; lia]|]. split; [|done]. intros Hs. destruct (B12 Hs ltac:(lia)); lia.
Qed.

(** C24: copy_file_range never hands a bad range to a file system: whichever way the
    data is moved (copy method, clone, splice, or a failed clone followed by splice),
    the files are regular, readable and writable, not immutable, not swap files and not
    append-only; the source range is non-empty and ends within the file, the
    destination ends within the size limits of the file and the process, and ranges
    within one inode do not overlap; freeze protection is balanced and no file
    position moves. *)
Theorem copy_ranges_safe f pos_in g pos_out len flags s :
  files_ok f g -> is_s 64 pos_in -> is_s 64 pos_out -> is_u 64 len ->
  copied 0 s (vfs_copy_file_range f pos_in g pos_out len flags s).2.
Proof.
  intros Hf Hpi Hpo Hn. unfold vfs_copy_file_range. cbv zeta.
  case_if; [by apply copied_same; [|cbn; lia|]|].
  destruct (generic_copy_file_checks _ _ _ _ _ _) as [[ret n] sig] eqn:Hc.
  set (s1 := if sig then send_xfsz s else s).
  assert (Hs1 : copied 0 s s1) by (unfold s1; destruct sig; apply copied_same; try done; cbn; lia).
  case_if; [done|]. apply c_true_false in Hif0. subst ret.
  case_if; [done|]. apply c_true_false in Hif0. case_if; [done|]. apply c_true_false in Hif1.
  destruct (Z.eqb_spec n 0) as [|Hn0]; [done|].
  pose proof (checks_range f pos_in g pos_out len flags n sig Hf Hpi Hpo Hn Hc Hif0 Hif1 Hn0) as Hr.
  pose proof (copy_or_clone_copied f pos_in g pos_out n (has flags COPY_FILE_SPLICE) (add_freeze 1 s1) Hr) as Hm.
  destruct (copy_or_clone _ _ _ _ _ _ _) as [[ret b] s2]. cbn [snd] in Hm.
  assert (H2 : copied 0 s (add_freeze (-1) s2)).
  { change 0 with (0 + (1 + (0 + -1))). eapply copied_trans; [exact Hs1|].
    eapply copied_trans; [|eapply copied_trans; [exact Hm|]]; by apply copied_same. }
  assert (Hacc : forall r s3, copied 0 s s3 -> copied 0 s (account_copy r s3)) by done.
  destruct b; [|by apply Hacc].
  pose proof (copy_splice_copied f pos_in g pos_out n (add_freeze (-1) s2) Hr) as H3.
  destruct (copy_splice _ _ _ _ _ _) as [r s3]. apply Hacc. change 0 with (0 + 0). by eapply copied_trans.
Qed.

End safety.

(** ** sendfile moves positions by what it transferred *)

Section sendfile.
Context {E : CopyEnv}.

(** Movers that answer at most what was asked for and move positions by it. *)
Definition honest_splice : Prop :=
  (forall f p g q n, let '(r, p', q') := splice_direct f p g q n in
     r <= n /\ p' = p + Z.max r 0 /\ q' = q + Z.max r 0) /\
  (forall f g p n, let '(r, p') := splice_to_pipe f g p n in r <= n /\ p' = p + Z.max r 0).

Definition send_limit (f g max : Z) : Z :=
  if max =? 0 then Z.min (ci_maxbytes (cf_inode (file_at f))) (ci_maxbytes (cf_inode (file_at g))) else max.

Definition send_start (ppos : option Z) (f : Z) (s : copy_state) : Z :=
  match ppos with Some p => p | None => fpos s f end.

(** The positions after a transfer of [r] bytes. *)
Definition send_moved (f g : Z) (ppos : option Z) (s : copy_state) (r : Z) (ppos' : option Z) (s' : copy_state) : Prop :=
  match ppos with
  | Some p => ppos' = Some (p + r) /\ (f <> g -> fpos s' f = fpos s f)
  | None => ppos' = None /\ fpos s' f = fpos s f + r
  end /\
  (f <> g -> fpos s' g = fpos s g + (if cf_pipe (file_at g) then 0 else r)) /\
  forall x, x <> f -> x <> g -> fpos s' x = fpos s x.

Definition send_outcome (out in_ ppos : option Z) (max : Z) (s : copy_state) (r : Z) (ppos' : option Z) (s' : copy_state)
    : Prop :=
  (r <= 0 /\ ppos' = ppos /\ forall x, fpos s' x = fpos s x) \/
  exists f g, in_ = Some f /\ out = Some g /\ 0 < r <= MAX_RW_COUNT /\
    0 <= send_start ppos f s /\ send_start ppos f s + r <= send_limit f g max /\
    send_moved f g ppos s r ppos' s'.

Lemma send_stored f g ppos s s1 r op :
  0 < r -> (forall x, fpos s1 x = fpos s x) -> op = fpos s g + (if cf_pipe (file_at g) then 0 else r) ->
  let '(ppos', s') :=
    let s2 := set_fpos g op s1 in
    match ppos with
    | Some _ => (Some (send_start ppos f s + r), s2)
    | None => (None, set_fpos f (send_start ppos f s + r) s2)
    end in
  send_moved f g ppos s r ppos' s'.
Proof.
  intros Hr Hs ->. unfold send_moved, send_start, set_fpos. destruct ppos as [p|]; cbn [fpos].
  - split; [split; [done|]|split].
    + intros Hfg. destruct (Z.eqb_spec f g); [done|apply Hs].
    + intros _. by rewrite Z.eqb_refl.
    + intros x _ Hx. destruct (Z.eqb_spec x g); [done|apply Hs].
  - rewrite Z.eqb_refl. split; [done|]. split.
    + intros Hfg. destruct (Z.eqb_spec g f); [congruence|]. by rewrite Z.eqb_refl.
    + intros x Hx Hy. destruct (Z.eqb_spec x f); [done|]. destruct (Z.eqb_spec x g); [done|apply Hs].
Qed.

(** The end of do_sendfile after a mover answered [r]. *)
Lemma send_finish f g ppos max s s1 r n op :
  r <= n -> 0 <= n <= MAX_RW_COUNT -> 0 <= send_start ppos f s -> send_start ppos f s + n <= send_limit f g max ->
  (forall x, fpos s1 x = fpos s x) ->
  op = fpos s g + (if cf_pipe (file_at g) then 0 else Z.max r 0) ->
  let pos := send_start ppos f s + Z.max r 0 in
  let '(r', ppos', s') :=
    let '(ppos', s') :=
      if 0 <? r then
        let s2 := set_fpos g op s1 in
        match ppos with Some _ => (Some pos, s2) | None => (None, set_fpos f pos s2) end
      else (ppos, s1) in
    ((if send_limit f g max <? pos then - EOVERFLOW else r), ppos', account_copy r s') in
  send_outcome (Some g) (Some f) ppos max s r' ppos' s'.
Proof.
  intros Hr Hn Hs Hl Hx Hop. cbv zeta. destruct (Z.ltb_spec 0 r) as [H0|H0].
  - rewrite Z.max_l in * by lia. pose proof (send_stored f g ppos s s1 r op H0 Hx Hop) as H. cbv zeta in H.
    destruct (match ppos with Some _ => _ | None => _ end) as [p' s'].
    destruct (Z.ltb_spec (send_limit f g max) (send_start ppos f s + r)); [lia|].
    right. exists f, g. do 2 (split; [done|]). split; [lia|]. split; [done|]. split; [lia|]. exact H.
  - left. rewrite Z.max_r by lia. split; [case_if; unfold EOVERFLOW; lia|]. split; [done|]. exact Hx.
Qed.

(** Sendfile is exact: with movers that move positions by what they transfer, a
    call that answers r > 0 moved the source position (the caller's offset, or the
    file's own when there is none) and the destination position by exactly r, at most
    2 GiB and never past the limit of the call or of the file systems, and no other
    file; a call that answers 0 or an error moved nothing.  The overflow check after the
    transfer can therefore never turn a completed transfer into an error. *)
Theorem sendfile_exact out in_ ppos count max s :
  honest_splice -> (forall f g, in_ = Some f -> out = Some g -> files_ok f g) ->
  is_u 64 count -> 0 <= max <= OFFSET_MAX ->
  match ppos with Some p => is_s 64 p | None => forall x, is_s 64 (fpos s x) end ->
  let '(r, ppos', s') := do_sendfile out in_ ppos count max s in
  send_outcome out in_ ppos max s r ppos' s'.
Proof.
  intros [Hsd Hsp] Hok Hcnt Hmax Hpos. unfold do_sendfile.
  assert (Hno : forall r, r <= 0 -> send_outcome out in_ ppos max s r ppos s) by (intros r Hr; by left).
  destruct in_ as [f|]; [|by apply Hno]. case_if; [by apply Hno|]. case_if; [by apply Hno|]. cbv zeta.
  change (match ppos with Some p => p | None => fpos s f end) with (send_start ppos f s).
  set (pos := send_start ppos f s). case_if; [apply Hno; lia|].
  destruct out as [g|]; [|by apply Hno]. case_if; [by apply Hno|].
  destruct (Hok f g eq_refl eq_refl) as (_ & [_ Hi] & _ & [_ Ho] & Hu & _).
  assert (Hp : is_s 64 pos) by (unfold pos, send_start; by destruct ppos).
  destruct (verify_range READ f pos count Hu Hp Hcnt ltac:(lia)) as [Hp0 Hp1].
  fold (send_limit f g max). set (lim := send_limit f g max).
  assert (Hlim : 0 <= lim <= OFFSET_MAX) by (unfold lim, send_limit; case_if; lia).
  set (c0 := if MAX_RW_COUNT <? count then MAX_RW_COUNT else count).
  assert (Hc0 : 0 <= c0 <= MAX_RW_COUNT /\ c0 <= count) by (unfold c0, is_u, MAX_RW_COUNT in *; case_if; lia).
  unfold OFFSET_MAX in *. rewrite (wrapU_id 64 lim), (wrapU_id 64 (pos + c0)) by (unfold is_u; lia).
  case_if; [by apply Hno|].
  set (c1 := if lim <? pos + c0 then i64 (lim - pos) else c0).
  assert (Hc1 : 0 <= c1 <= c0 /\ pos + c1 <= lim).
  { unfold c1. destruct (Z.ltb_spec lim (pos + c0)); [|lia]. cbn [andb] in Hif3.
    rewrite wrapS_id by (lia || (unfold is_s; lia)). lia. }
  destruct (cf_pipe (file_at g)) eqn:Hpipe; cbn [negb].
  - specialize (Hsp f g pos c1). destruct (splice_to_pipe f g pos c1) as [r p']. destruct Hsp as [Hr ->].
    apply (send_finish f g ppos max s _ r c1); try done; try lia. rewrite Hpipe. lia.
  - case_if; [apply Hno; lia|]. specialize (Hsd f pos g (fpos s g) c1).
    destruct (splice_direct f pos g (fpos s g) c1) as [[r p'] q']. destruct Hsd as (Hr & -> & ->).
    apply (send_finish f g ppos max s _ r c1); try done; try lia. by rewrite Hpipe.
Qed.

End sendfile.

(** ** A concrete pair of files on one inode: clone refused, splice used *)

Definition demo_cinode : cinode :=
  {| ci_num := 10; ci_sb := 1; ci_isdir := false; ci_isreg := true; ci_immutable := false; ci_swapfile := false;
     ci_size := 1000; ci_maxbytes := OFFSET_MAX |}.

Definition demo_cfile (mode : Z) : cfile :=
  {| cf_mode := mode; cf_flags := O_LARGEFILE; cf_inode := demo_cinode; cf_host := demo_cinode; cf_copy := None; cf_remap := true; cf_pipe := false |}.

Definition demo_copy_env : CopyEnv := {|
  file_at := fun f => demo_cfile (if f =? 1 then 13 else 30); hooks_at := fun _ => demo_ops;
  rlimit_fsize := 5000;
  splice_direct := fun _ p _ q n => (n, p + Z.max n 0, q + Z.max n 0);
  splice_to_pipe := fun _ _ p n => (n, p + Z.max n 0);
  copy_method := fun _ _ _ _ _ => 0; remap_method := fun _ _ _ _ _ => - EINVAL |}.

Definition demo_copy_state : copy_state :=
  {| fpos := fun f => if f =? 1 then 100 else 4900; c_rchar := 0; c_wchar := 0; c_syscr := 0; c_syscw := 0;
     freezes := 0; xfsz := 0; copies := [] |}.

Lemma demo_files_ok f g : files_ok (E := demo_copy_env) f g.
Proof.
  unfold files_ok, inode_ok, is_u, OFFSET_MAX. cbn [rlimit_fsize file_at demo_copy_env demo_cfile cf_inode cf_host cf_mode].
  cbn [demo_cinode ci_size ci_maxbytes]. split; [lia|]. split; [unfold OFFSET_MAX; lia|].
  do 2 (split; [unfold OFFSET_MAX; lia|]). split; case_if; reflexivity.
Qed.

(** 500 bytes at 4900: the process limit of 5000 leaves 100; two movers are asked. *)
Lemma copy_ranges_safe_witness :
  let s' := (vfs_copy_file_range (E := demo_copy_env) 1 100 2 4900 500 0 demo_copy_state).2 in
  map cc_len (copies s') = [100; 100] /\ copied (E := demo_copy_env) 0 demo_copy_state s'.
Proof.
  split; [vm_compute; reflexivity|].
  apply (copy_ranges_safe (E := demo_copy_env)); [apply demo_files_ok|unfold is_s, is_u; lia..].
Defined.

Lemma sendfile_exact_witness :
  let '(r, p, s') := do_sendfile (E := demo_copy_env) (Some 2) (Some 1) None 300 0 demo_copy_state in
  r = 300 /\ send_outcome (E := demo_copy_env) (Some 2) (Some 1) None 0 demo_copy_state r p s'.
Proof.
  pose proof (sendfile_exact (E := demo_copy_env) (Some 2) (Some 1) None 300 0 demo_copy_state) as H.
  destruct (do_sendfile (E := demo_copy_env) (Some 2) (Some 1) None 300 0 demo_copy_state) as [[r p] s'] eqn:Hd.
  split; [vm_compute in Hd; by injection Hd as <- _ _|].
  apply H; [split; intros; cbn; lia|intros; apply demo_files_ok|unfold is_u; lia|unfold OFFSET_MAX; lia|].
  intros x. unfold is_s. cbn. case_if; lia.
Defined.
