(* ===== verification/BootArgs.v ===== *)
(** * Boot parameters and the arguments of init (init/main.c)

    The handlers the parameter parser calls: the __setup and early_param functions
    of the file, the search of the setup table, and the two fixed-size tables of
    argument and environment strings that unknown options fill and kernel_execve
    gets.  Strings are values without terminator; [repair_env_string], which edits
    the command line in place, works on the bytes from the parameter on.  A table
    entry is the string its pointer reads: the parser hands out disjoint pieces, so
    no later call changes it.  Stopping with panic or BUG, and an access outside a
    table or buffer, are separate outcomes.  The parser, the parameter comparison,
    the number parsers, the setup tables of the other files and the boot allocator
    are parameters. *)
From Stdlib Require Import String.
From S2P Require Import Prelude CString.

(** ** Outcomes *)

Inductive result (A : Type) := Ok (a : A) | Panic | Bug | Overrun.
Arguments Ok {A} a.
Arguments Panic {A}.
Arguments Bug {A}.
Arguments Overrun {A}.

Definition rbind {A B} (m : result A) (k : A -> result B) : result B :=
  match m with Ok a => k a | Panic => Panic | Bug => Bug | Overrun => Overrun end.
Notation "'let?' x := m 'in' k" := (rbind m (fun x => k)) (at level 200, x pattern, k at level 200) : kernel_scope.
Local Open Scope kernel_scope.

Definition or_overrun {A} (o : option A) : result A := match o with Some a => Ok a | None => Overrun end.

(** ** Data *)

(** The functions of the setup table: those of this file, and those of others,
    which answer and change nothing here. *)
Inductive setup_func :=
  | SetResetDevices | DebugKernel | QuietKernel | Loglevel | WarnBootconfig | InitSetup | RdinitSetup
  | EarlyRandomizeKstackOffset | InitcallBlacklist | SetDebugRodata | Elsewhere (answer : option (list Z) -> Z).

Record obs_kernel_param := { p_str : list Z; p_setup : option setup_func; p_early : bool }.

Class BootEnv := {
  MAX_INIT_ARGS : nat;                     (** CONFIG_INIT_ENV_ARG_LIMIT *)
  max_init_args : (2 <= MAX_INIT_ARGS)%nat;
  sysctl_is_alias : list Z -> bool;
  parameqn : list Z -> list Z -> nat -> bool;
  parameq : list Z -> list Z -> bool;
  get_option : option (list Z) -> option Z;
  kstrtobool : option (list Z) -> Z * bool;
  arch_parse_debug_rodata : option (list Z) -> bool;
  memblock_alloc : list (list Z) -> nat -> bool;   (** by what is already allocated, and the size *)
  setup_before : list obs_kernel_param;
  setup_after : list obs_kernel_param;
  (** early_param and the earlycon entry always name a function *)
  setup_complete : Forall (fun p => p_early p || str_eq (p_str p) (lit "earlycon") = true -> is_Some (p_setup p))
                          (setup_before ++ setup_after)
}.

Record boot := {
  argv_init : list (option (list Z)); envp_init : list (option (list Z));
  panic_later : option (list Z * list Z);          (** panic_later and panic_param *)
  execute_command : option (list Z); ramdisk_execute_command : option (list Z);
  reset_devices : Z; console_loglevel : Z; randomize_kstack_offset : bool;
  blacklisted_initcalls : list (list Z); rodata_enabled : bool
}.

Definition upd_argv (v : list (option (list Z))) (b : boot) : boot :=
  {| argv_init := v; envp_init := envp_init b; panic_later := panic_later b; execute_command := execute_command b;
     ramdisk_execute_command := ramdisk_execute_command b; reset_devices := reset_devices b;
     console_loglevel := console_loglevel b; randomize_kstack_offset := randomize_kstack_offset b;
     blacklisted_initcalls := blacklisted_initcalls b; rodata_enabled := rodata_enabled b |}.
Definition upd_envp (v : list (option (list Z))) (b : boot) : boot :=
  {| argv_init := argv_init b; envp_init := v; panic_later := panic_later b; execute_command := execute_command b;
     ramdisk_execute_command := ramdisk_execute_command b; reset_devices := reset_devices b;
     console_loglevel := console_loglevel b; randomize_kstack_offset := randomize_kstack_offset b;
     blacklisted_initcalls := blacklisted_initcalls b; rodata_enabled := rodata_enabled b |}.
Definition upd_panic (what param : list Z) (b : boot) : boot :=
  {| argv_init := argv_init b; envp_init := envp_init b; panic_later := Some (what, param);
     execute_command := execute_command b; ramdisk_execute_command := ramdisk_execute_command b;
     reset_devices := reset_devices b; console_loglevel := console_loglevel b;
     randomize_kstack_offset := randomize_kstack_offset b; blacklisted_initcalls := blacklisted_initcalls b;
     rodata_enabled := rodata_enabled b |}.
Definition upd_commands (e r : option (list Z)) (b : boot) : boot :=
  {| argv_init := argv_init b; envp_init := envp_init b; panic_later := panic_later b; execute_command := e;
     ramdisk_execute_command := r; reset_devices := reset_devices b; console_loglevel := console_loglevel b;
     randomize_kstack_offset := randomize_kstack_offset b; blacklisted_initcalls := blacklisted_initcalls b;
     rodata_enabled := rodata_enabled b |}.
Definition upd_settings (rd cl : Z) (rk : bool) (bl : list (list Z)) (ro : bool) (b : boot) : boot :=
  {| argv_init := argv_init b; envp_init := envp_init b; panic_later := panic_later b;
     execute_command := execute_command b; ramdisk_execute_command := ramdisk_execute_command b;
     reset_devices := rd; console_loglevel := cl; randomize_kstack_offset := rk; blacklisted_initcalls := bl;
     rodata_enabled := ro |}.

Definition CONSOLE_LOGLEVEL_DEBUG := 10.
Definition CONSOLE_LOGLEVEL_QUIET := 4.

Definition is_some_panic (b : boot) : bool := match panic_later b with Some _ => true | None => false end.

Section handlers.
Context {E : BootEnv}.

Definition MAX_INIT_ENVS : nat := MAX_INIT_ARGS.

Definition boot_start (loglevel : Z) (kstack : bool) : boot :=
  {| argv_init := Some (lit "init") :: replicate (MAX_INIT_ARGS + 1) None;
     envp_init := Some (lit "HOME=/") :: Some (lit "TERM=linux") :: replicate MAX_INIT_ENVS None;
     panic_later := None; execute_command := None; ramdisk_execute_command := Some (lit "/init");
     reset_devices := 0; console_loglevel := loglevel; randomize_kstack_offset := kstack;
     blacklisted_initcalls := []; rodata_enabled := true |}.

(** ** The setup functions of the file *)

Definition set_reset_devices (b : boot) : Z * boot :=
  (1, upd_settings 1 (console_loglevel b) (randomize_kstack_offset b) (blacklisted_initcalls b) (rodata_enabled b) b).

Definition set_loglevel (l : Z) (b : boot) : boot :=
  upd_settings (reset_devices b) l (randomize_kstack_offset b) (blacklisted_initcalls b) (rodata_enabled b) b.

Definition debug_kernel (b : boot) : Z * boot := (0, set_loglevel CONSOLE_LOGLEVEL_DEBUG b).
Definition quiet_kernel (b : boot) : Z * boot := (0, set_loglevel CONSOLE_LOGLEVEL_QUIET b).

Definition loglevel (str : option (list Z)) (b : boot) : Z * boot :=
  match get_option str with
  | Some newlevel => (0, set_loglevel newlevel b)
  | None => (- EINVAL, b)
  end.

Definition warn_bootconfig (b : boot) : Z * boot := (0, b).

(** The loop [for (i = 1; i < MAX_INIT_ARGS; i++) argv_init[i] = NULL]. *)
Definition clear_args (v : list (option (list Z))) : list (option (list Z)) :=
  imap (fun i x => if (1 <=? i)%nat && (i <? MAX_INIT_ARGS)%nat then None else x) v.

Definition init_setup (str : option (list Z)) (b : boot) : Z * boot :=
  (1, upd_argv (clear_args (argv_init b)) (upd_commands str (ramdisk_execute_command b) b)).

Definition rdinit_setup (str : option (list Z)) (b : boot) : Z * boot :=
  (1, upd_argv (clear_args (argv_init b)) (upd_commands (execute_command b) str b)).

Definition early_randomize_kstack_offset (str : option (list Z)) (b : boot) : Z * boot :=
  let '(ret, bool_result) := kstrtobool str in
  if c_true ret then (ret, b)
  else (0, upd_settings (reset_devices b) (console_loglevel b) bool_result (blacklisted_initcalls b) (rodata_enabled b) b).

Definition set_debug_rodata (str : option (list Z)) (b : boot) : Z * boot :=
  let set ro := upd_settings (reset_devices b) (console_loglevel b) (randomize_kstack_offset b) (blacklisted_initcalls b) ro b in
  if arch_parse_debug_rodata str then (0, b)
  else match str with
       | Some s => if str_eq s (lit "on") then (0, set true) else if str_eq s (lit "off") then (0, set false) else (0, b)
       | None => (0, b)
       end.

(** [strsep(&str, c)]: the token, and the rest after the separator if there is one. *)
Fixpoint strsep (c : Z) (s : list Z) : list Z * option (list Z) :=
  match s with
  | [] => ([], None)
  | x :: s' => if x =? c then ([], Some s') else let '(tok, rest) := strsep c s' in (x :: tok, rest)
  end.

Fixpoint blacklist_loop (fuel : nat) (str : option (list Z)) (bl : list (list Z)) : result (list (list Z)) :=
  match fuel, str with
  | S fuel', Some s =>
      let '(str_entry, str) := strsep 44 s in
      if negb (memblock_alloc bl 24) then Panic
      else if negb (memblock_alloc bl (length str_entry + 1)) then Panic
      else blacklist_loop fuel' str (str_entry :: bl)
  | _, _ => Ok bl
  end.

Definition initcall_blacklist (str : option (list Z)) (b : boot) : result (Z * boot) :=
  let? bl := blacklist_loop (S (length (default [] str))) str (blacklisted_initcalls b) in
  Ok (1, upd_settings (reset_devices b) (console_loglevel b) (randomize_kstack_offset b) bl (rodata_enabled b) b).

Definition run_setup (f : setup_func) (str : option (list Z)) (b : boot) : result (Z * boot) :=
  match f with
  | SetResetDevices => Ok (set_reset_devices b)
  | DebugKernel => Ok (debug_kernel b)
  | QuietKernel => Ok (quiet_kernel b)
  | Loglevel => Ok (loglevel str b)
  | WarnBootconfig => Ok (warn_bootconfig b)
  | InitSetup => Ok (init_setup str b)
  | RdinitSetup => Ok (rdinit_setup str b)
  | EarlyRandomizeKstackOffset => Ok (early_randomize_kstack_offset str b)
  | InitcallBlacklist => initcall_blacklist str b
  | SetDebugRodata => Ok (set_debug_rodata str b)
  | Elsewhere answer => Ok (answer str, b)
  end.

Definition setup_entry (str : list Z) (f : setup_func) (early : bool) : obs_kernel_param :=
  {| p_str := str; p_setup := Some f; p_early := early |}.

(** The section between __setup_start and __setup_end, with the entries of this file. *)
Definition setup_table : list obs_kernel_param :=
  setup_before ++
  [setup_entry (lit "reset_devices") SetResetDevices false; setup_entry (lit "debug") DebugKernel true;
   setup_entry (lit "quiet") QuietKernel true; setup_entry (lit "loglevel") Loglevel true;
   setup_entry (lit "bootconfig") WarnBootconfig true; setup_entry (lit "init=") InitSetup false;
   setup_entry (lit "rdinit=") RdinitSetup false;
   setup_entry (lit "randomize_kstack_offset") EarlyRandomizeKstackOffset true;
   setup_entry (lit "initcall_blacklist=") InitcallBlacklist false; setup_entry (lit "rodata") SetDebugRodata true] ++
  setup_after.

Fixpoint checksetup (ps : list obs_kernel_param) (line : list Z) (had_early_param : bool) (b : boot)
    : result (bool * boot) :=
  match ps with
  | [] => Ok (had_early_param, b)
  | p :: ps' =>
      let n := length (p_str p) in
      if parameqn line (p_str p) n then
        if p_early p then
          let whole := match line !! n with None => true | Some c => c =? 61 end in
          checksetup ps' line (had_early_param || whole) b
        else match p_setup p with
             | None => Ok (true, b)
             | Some f =>
                 let? (r, b) := run_setup f (Some (drop n line)) b in
                 if c_true r then Ok (true, b) else checksetup ps' line had_early_param b
             end
      else checksetup ps' line had_early_param b
  end.

Definition obsolete_checksetup (line : list Z) (b : boot) : result (bool * boot) :=
  checksetup setup_table line false b.

Fixpoint early_loop (ps : list obs_kernel_param) (param : list Z) (val : option (list Z)) (b : boot) : result boot :=
  match ps with
  | [] => Ok b
  | p :: ps' =>
      if (p_early p && parameq param (p_str p)) || (str_eq param (lit "console") && str_eq (p_str p) (lit "earlycon")) then
        match p_setup p with
        | None => Bug
        | Some f => let? (_, b) := run_setup f val b in early_loop ps' param val b
        end
      else early_loop ps' param val b
  end.

Definition do_early_param (param : list Z) (val : option (list Z)) (b : boot) : result (Z * boot) :=
  let? b := early_loop setup_table param val b in Ok (0, b).

(** ** Options for init *)

Definition store (mem : list Z) (off : nat) (bs : list Z) : result (list Z) := or_overrun (write_at mem off bs).

(** [mem] starts at the parameter; [val] is the offset of the value. *)
Definition repair_env_string (mem : list Z) (val : option nat) : result (list Z) :=
  match val with
  | None => Ok mem
  | Some val =>
      if (val =? strlen mem + 1)%nat then store mem (val - 1) [61]
      else if (val =? strlen mem + 2)%nat then
        let? mem := store mem (val - 2) [61] in
        store mem (val - 1) (cstr (drop val mem) ++ [0])
      else Bug
  end.

(** The loop of set_init_arg: [None] when the table is full. *)
Fixpoint arg_slot (l : list (option (list Z))) (i : nat) : result (option nat) :=
  match l with
  | [] => Overrun
  | None :: _ => Ok (Some i)
  | Some _ :: l' => if (i =? MAX_INIT_ARGS)%nat then Ok None else arg_slot l' (S i)
  end.

(** The loops of unknown_bootoption: the slot to write, and whether the limit was passed. *)
Fixpoint table_slot (max : nat) (same : list Z -> bool) (l : list (option (list Z))) (i : nat) (over : bool)
    : result (nat * bool) :=
  match l with
  | [] => Overrun
  | None :: _ => Ok (i, over)
  | Some s :: l' =>
      let over := over || (i =? max)%nat in
      if same s then Ok (i, over) else table_slot max same l' (S i) over
  end.

Definition put_entry (v : list (option (list Z))) (i : nat) (s : list Z) : result (list (option (list Z))) :=
  if (i <? length v)%nat then Ok (<[i := Some s]> v) else Overrun.

Definition set_init_arg (mem : list Z) (val : option nat) (b : boot) : result (Z * boot) :=
  if is_some_panic b then Ok (0, b)
  else
    let? mem := repair_env_string mem val in
    let param := cstr mem in
    let? slot := arg_slot (argv_init b) 0 in
    match slot with
    | None => Ok (0, upd_panic (lit "init") param b)
    | Some i => let? v := put_entry (argv_init b) i param in Ok (0, upd_argv v b)
    end.

Definition unknown_bootoption (mem : list Z) (val : option nat) (b : boot) : result (Z * boot) :=
  let len := strlen mem in
  if sysctl_is_alias (cstr mem) then Ok (0, b)
  else
    let? mem := repair_env_string mem val in
    let param := cstr mem in
    let? (obsolete, b) := obsolete_checksetup param b in
    if obsolete then Ok (0, b)
    else if strnchr param len 46 then Ok (0, b)
    else if is_some_panic b then Ok (0, b)
    else match val with
         | Some _ =>
             let? (i, over) := table_slot MAX_INIT_ENVS (fun s => strn_eq param s (len + 1)) (envp_init b) 0 false in
             let b := if over then upd_panic (lit "env") param b else b in
             let? v := put_entry (envp_init b) i param in Ok (0, upd_envp v b)
         | None =>
             let? (i, over) := table_slot MAX_INIT_ARGS (fun _ => false) (argv_init b) 0 false in
             let b := if over then upd_panic (lit "init") param b else b in
             let? v := put_entry (argv_init b) i param in Ok (0, upd_argv v b)
         end.
End handlers.

(** ** Safety *)

(** Everything but an access out of bounds and BUG, with [P] of the value. *)
Definition safe {A} (P : A -> Prop) (m : result A) : Prop :=
  match m with Ok a => P a | Panic => True | Bug | Overrun => False end.

Lemma safe_bind {A B} (P : A -> Prop) (Q : B -> Prop) m k :
  safe P m -> (forall a, P a -> safe Q (k a)) -> safe Q (rbind m k).
Proof. destruct m; cbn; auto. Qed.

Lemma safe_weaken {A} (P Q : A -> Prop) m : safe P m -> (forall a, P a -> Q a) -> safe Q m.
Proof. destruct m; cbn; auto. Qed.

(** What the parser hands to a handler: the parameter ends inside the buffer, the
    value follows its terminator, or an opening quote after it, and ends too. *)
Definition piece_ok (mem : list Z) (val : option nat) : Prop :=
  terminated mem /\
  match val with
  | None => True
  | Some v => (v = strlen mem + 1 \/ v = strlen mem + 2)%nat /\ terminated (drop v mem)
  end.

(** The string a handler passes on. *)
Definition piece_text (mem : list Z) (val : option nat) : list Z :=
  match val with None => cstr mem | Some v => cstr mem ++ 61 :: cstr (drop v mem) end.

Lemma text_is_str mem val : is_str (piece_text mem val).
Proof. destruct val; cbn; [apply Forall_app; split; [|constructor; [done|]]|]; apply cstr_is_str. Qed.

(** The two layouts in memory, with [q] the opening quote. *)
Lemma piece_layout mem v : piece_ok mem (Some v) ->
  exists k w a, is_str k /\ is_str w /\ piece_text mem (Some v) = k ++ 61 :: w /\
    (mem = k ++ 0 :: w ++ 0 :: a /\ v = (length k + 1)%nat \/
     exists q, mem = k ++ 0 :: q :: w ++ 0 :: a /\ v = (length k + 2)%nat).
Proof.
  intros [Ht [Hv Hd]]. destruct (terminated_form _ Ht) as (k & r & -> & Hk). cbn [piece_text].
  rewrite strlen_end in Hv by done. rewrite cstr_end by done.
  destruct Hv as [-> | ->]; rewrite drop_past in *; cbn [drop] in *; rewrite ?drop_0 in *.
  - destruct (terminated_form _ Hd) as (w & a & -> & Hw). exists k, w, a. rewrite cstr_end by done. eauto 6.
  - destruct r as [|q r]; [unfold terminated in Hd; cbn in Hd; lia|].
    cbn [drop] in *. rewrite ?drop_0 in *. destruct (terminated_form _ Hd) as (w & a & -> & Hw).
    exists k, w, a. rewrite cstr_end by done. eauto 7.
Qed.

(** repair_env_string makes the parameter read as key=value, from both layouts. *)
Lemma repair_correct mem val : piece_ok mem val ->
  exists mem', repair_env_string mem val = Ok mem' /\ cstr mem' = piece_text mem val.
Proof.
  intros H. destruct val as [v|]; [|by exists mem].
  destruct (piece_layout _ _ H) as (k & w & a & Hk & Hw & -> & Hlay).
  assert (Hkw : is_str (k ++ 61 :: w)) by (apply Forall_app; by repeat constructor).
  unfold repair_env_string, store. destruct Hlay as [[-> ->]|(q & -> & ->)]; rewrite strlen_end by done.
  - rewrite Nat.eqb_refl, Nat.add_sub, write_at_app by (cbn; lia). cbn [or_overrun]. eexists. split; [done|].
    cbn. rewrite drop_0. rewrite (app_comm_cons w), app_assoc. by apply cstr_end.
  - destruct (Nat.eqb_spec (length k + 2) (length k + 1)); [lia|]. rewrite Nat.eqb_refl, Nat.add_sub.
    rewrite write_at_app by (cbn; lia). cbn [or_overrun rbind app length drop]. rewrite ?drop_0, drop_past.
    cbn [drop]. rewrite ?drop_0, cstr_end by done.
    replace (length k + 2 - 1)%nat with (length (k ++ [61])) by (rewrite length_app; cbn; lia).
    replace (k ++ 61 :: q :: w ++ 0 :: a) with ((k ++ [61]) ++ q :: w ++ 0 :: a) by (by rewrite <- app_assoc).
    rewrite write_at_app by (cbn; rewrite !length_app; cbn; lia). cbn [or_overrun]. eexists. split; [done|].
    rewrite <- !app_assoc. cbn [app]. rewrite (app_comm_cons w), app_assoc. by apply cstr_end.
Qed.

Section safety.
Context {E : BootEnv}.

(** Table sizes, and a terminator in the last slot unless a panic is pending. *)
Definition table_ok (b : boot) (v : list (option (list Z))) : Prop :=
  length v = (MAX_INIT_ARGS + 2)%nat /\ (panic_later b = None -> v !! (MAX_INIT_ARGS + 1)%nat = Some None).

Definition boot_wf (b : boot) : Prop := table_ok b (argv_init b) /\ table_ok b (envp_init b).

Lemma clear_args_length v : length (clear_args v) = length v.
Proof. apply length_imap. Qed.

Lemma clear_args_lookup v i : (i = 0 \/ MAX_INIT_ARGS <= i)%nat -> clear_args v !! i = v !! i.
Proof.
  intros Hi. unfold clear_args. rewrite list_lookup_imap. destruct (v !! i); [|done]. cbn [fmap option_fmap option_map].
  destruct ((1 <=? i)%nat && (i <? MAX_INIT_ARGS)%nat) eqn:D; [|done]. apply andb_true_iff in D as [D1 D2].
  apply Nat.leb_le in D1. apply Nat.ltb_lt in D2. lia.
Qed.

Lemma clear_args_ok b v : table_ok b v -> table_ok b (clear_args v).
Proof.
  intros [Hl Ht]. split; [by rewrite clear_args_length|]. intros Hp. rewrite clear_args_lookup by lia. auto.
Qed.

Lemma run_setup_wf f str b : boot_wf b -> safe (fun x => boot_wf x.2) (run_setup f str b).
Proof.
  intros [Ha He]. destruct f; cbn; try done.
  - unfold loglevel. by destruct (get_option str).
  - split; [by apply (clear_args_ok b)|done].
  - split; [by apply (clear_args_ok b)|done].
  - unfold early_randomize_kstack_offset. destruct (kstrtobool str). by case_if.
  - unfold initcall_blacklist. generalize (S (length (default [] str))) as fuel. intros fuel.
    generalize (blacklisted_initcalls b) as bl. revert str. induction fuel as [|fuel IH]; intros str bl; cbn; [done|].
    destruct str as [s|]; [|done]. destruct (strsep 44 s) as [tok rest]. repeat (case_if; [done|]). apply IH.
  - unfold set_debug_rodata. case_if; [done|]. destruct str; [|done]. by repeat case_if.
Qed.

Lemma checksetup_wf ps line had b : boot_wf b -> safe (fun x => boot_wf x.2) (checksetup ps line had b).
Proof.
  revert had b. induction ps as [|p ps IH]; intros had b Hb; cbn [checksetup]; [done|].
  case_if; [|by apply IH]. case_if; [by apply IH|]. destruct (p_setup p) as [f|]; [|done].
  eapply safe_bind; [by apply run_setup_wf|]. intros [r b'] Hb'. case_if; [done|by apply IH].
Qed.

Lemma setup_table_complete :
  Forall (fun p => p_early p || str_eq (p_str p) (lit "earlycon") = true -> is_Some (p_setup p)) setup_table.
Proof.
  pose proof setup_complete as H. apply Forall_app in H as [H1 H2]. unfold setup_table.
  apply Forall_app. split; [done|]. apply Forall_app. split; [|done]. by repeat constructor.
Qed.

Lemma early_wf param val b : boot_wf b -> safe (fun x => boot_wf x.2) (do_early_param param val b).
Proof.
  intros Hb. unfold do_early_param. apply (safe_bind boot_wf); [|done].
  pose proof setup_table_complete as Hc. revert b Hb. induction Hc as [|p ps Hp _ IH]; intros b Hb; cbn [early_loop]; [done|].
  destruct ((p_early p && parameq param (p_str p)) || (str_eq param (lit "console") && str_eq (p_str p) (lit "earlycon"))) eqn:D;
    [|by apply IH].
  destruct Hp as [f ->].
  { destruct (p_early p); [done|]. cbn in D |- *. by apply andb_true_iff in D as [_ ->]. }
  eapply safe_bind; [by apply run_setup_wf|]. intros [r b'] Hb'. by apply IH.
Qed.

(** The slot search ends inside the table, and past the limit only with a panic. *)
Lemma table_slot_range max same l i0 over k : l !! k = Some None ->
  exists i over', table_slot max same l i0 over = Ok (i, over') /\ (i <= i0 + k)%nat /\
    (over' = false -> over = false /\ (max < i0 \/ i <= max)%nat).
Proof.
  revert i0 over k. induction l as [|[s|] l IH]; intros i0 over k Hk; [done| |].
  - destruct k as [|k]; [done|]. cbn [table_slot]. cbn in Hk. destruct (same s).
    + eexists _, _. split; [done|]. split; [lia|]. intros Ho. apply orb_false_iff in Ho as [-> Ho].
      apply Nat.eqb_neq in Ho. split; [done|lia].
    + destruct (IH (S i0) (over || (i0 =? max)%nat) k Hk) as (i & o & -> & Hi & Ho). eexists _, _. split; [done|].
      split; [lia|]. intros ->. destruct (Ho eq_refl) as [Hf Hr]. apply orb_false_iff in Hf as [-> Hf].
      apply Nat.eqb_neq in Hf. split; [done|lia].
  - cbn [table_slot]. eexists _, _. split; [done|]. split; [lia|]. intros ->. split; [done|lia].
Qed.

Lemma arg_slot_range l i0 k : l !! k = Some None -> (i0 <= MAX_INIT_ARGS)%nat ->
  exists o, arg_slot l i0 = Ok o /\ forall i, o = Some i -> (i <= MAX_INIT_ARGS)%nat.
Proof.
  revert i0 k. induction l as [|[s|] l IH]; intros i0 k Hk Hi; [done| |].
  - destruct k as [|k]; [done|]. cbn [arg_slot]. cbn in Hk. destruct (Nat.eqb_spec i0 MAX_INIT_ARGS).
    + by eexists.
    + apply (IH (S i0) k Hk). lia.
  - cbn [arg_slot]. eexists. split; [done|]. intros i [= <-]. done.
Qed.

Lemma put_entry_ok b v i s : table_ok b v -> (i <= MAX_INIT_ARGS + 1)%nat ->
  exists v', put_entry v i s = Ok v' /\ length v' = (MAX_INIT_ARGS + 2)%nat /\
    ((i <= MAX_INIT_ARGS)%nat -> table_ok b v').
Proof.
  intros [Hl Ht] Hi. unfold put_entry. destruct (Nat.ltb_spec i (length v)); [|lia].
  eexists. split; [done|]. rewrite length_insert. split; [done|]. intros Hm. split; [by rewrite length_insert|].
  intros Hp. rewrite list_lookup_insert_ne by lia. auto.
Qed.

(** Storing after a pending panic leaves both tables with their sizes. *)
Lemma pending_ok b v : panic_later b <> None -> length v = (MAX_INIT_ARGS + 2)%nat -> table_ok b v.
Proof. intros H Hl. by split. Qed.

Lemma set_init_arg_wf mem val b : piece_ok mem val -> boot_wf b -> safe (fun x => boot_wf x.2) (set_init_arg mem val b).
Proof.
  intros Hp [Ha He]. unfold set_init_arg, is_some_panic. destruct (panic_later b) eqn:Hpl; [done|].
  destruct (repair_correct mem val Hp) as (mem' & -> & _). cbn [rbind].
  destruct (arg_slot_range (argv_init b) 0 (MAX_INIT_ARGS + 1)) as ([i|] & -> & Hi); [by apply Ha|lia| |]; cbn [rbind].
  - specialize (Hi i eq_refl). destruct (put_entry_ok b (argv_init b) i (cstr mem') Ha ltac:(lia)) as (v & -> & _ & Hv).
    cbn. split; [by apply Hv|done].
  - cbn. destruct Ha, He. split; by apply pending_ok.
Qed.

Lemma unknown_bootoption_wf mem val b :
  piece_ok mem val -> boot_wf b -> safe (fun x => boot_wf x.2) (unknown_bootoption mem val b).
Proof.
  intros Hp Hb. unfold unknown_bootoption. case_if; [done|].
  destruct (repair_correct mem val Hp) as (mem' & -> & _). cbn [rbind].
  eapply safe_bind; [by apply checksetup_wf|]. clear b Hb. intros [obs b] [Ha He]. cbn in Ha, He.
  repeat (case_if; [done|]). unfold is_some_panic in *. destruct (panic_later b) eqn:Hpl; [done|].
  destruct val as [v|].
  - destruct (table_slot_range MAX_INIT_ENVS (fun s => strn_eq (cstr mem') s (strlen mem + 1)) (envp_init b) 0 false (MAX_INIT_ARGS + 1))
      as (i & over & -> & Hi & Ho); [by apply He|]. cbn [rbind].
    destruct (put_entry_ok b (envp_init b) i (cstr mem') He Hi) as (t & Ht & Hl & Hok). destruct over; cbn; rewrite Ht; cbn.
    + destruct Ha. by split; apply pending_ok.
    + split; [done|]. apply Hok. destruct (Ho eq_refl) as [_ []]; unfold MAX_INIT_ENVS in *; lia.
  - destruct (table_slot_range MAX_INIT_ARGS (fun _ => false) (argv_init b) 0 false (MAX_INIT_ARGS + 1))
      as (i & over & -> & Hi & Ho); [by apply Ha|]. cbn [rbind].
    destruct (put_entry_ok b (argv_init b) i (cstr mem') Ha Hi) as (t & Ht & Hl & Hok). destruct over; cbn; rewrite Ht; cbn.
    + destruct He. by split; apply pending_ok.
    + split; [|done]. apply Hok. destruct (Ho eq_refl) as [_ []]; lia.
Qed.
End safety.
