(* ===== verification/BootInit.v ===== *)
(** * From the command line to the first process (init/main.c)

    The parameter part of start_kernel, the report of unknown options, and the
    choice of the program init runs, on top of the handlers of [BootArgs].  The
    parser (cutting a line into parameters, the table of known parameters), the
    access check and kernel_execve are parameters. *)
From Stdlib Require Import String.
From S2P Require Import Prelude CString BootArgs.
Local Open Scope kernel_scope.

Class InitEnv := {
  (** parse_args: the parameters of a line as bytes and offset of the value, up to a
      lone [--], and what follows that *)
  parse_args : list Z -> list (list Z * option nat) * option (list Z);
  parse_pieces : forall line, Forall (fun x => piece_ok x.1 x.2) (parse_args line).1;
  known_param : list Z -> bool;
  report_alloc : nat -> bool;
  init_eaccess : option (list Z) -> Z;
  CONFIG_DEFAULT_INIT : list Z;
  kernel_execve : list Z -> list (list Z) -> list (list Z) -> Z
}.

Section boot.
Context {E : BootEnv} {I : InitEnv}.

(** ** Handing parameters to handlers *)

Fixpoint handle (h : list Z -> option nat -> boot -> result (Z * boot)) (l : list (list Z * option nat)) (b : boot)
    : result boot :=
  match l with
  | [] => Ok b
  | (mem, val) :: l' => let? (_, b) := h mem val b in handle h l' b
  end.

Definition early_piece (mem : list Z) (val : option nat) (b : boot) : result (Z * boot) :=
  do_early_param (cstr mem) ((fun v => cstr (drop v mem)) <$> val) b.

Definition parse_early_options (cmdline : list Z) (b : boot) : result boot :=
  handle early_piece (parse_args cmdline).1 b.

(** [done] is the static flag of the function. *)
Definition parse_early_param (done : bool) (boot_command_line : list Z) (b : boot) : result (bool * boot) :=
  if done then Ok (true, b) else let? b := parse_early_options boot_command_line b in Ok (true, b).

(** ** The report of unknown options *)

(** Reads a table up to its terminator. *)
Fixpoint until_null (v : list (option (list Z))) : result (list (list Z)) :=
  match v with
  | [] => Overrun
  | None :: _ => Ok []
  | Some s :: v' => let? l := until_null v' in Ok (s :: l)
  end.

Fixpoint options_len (l : list (list Z)) : nat :=
  match l with [] => 0 | s :: l' => S (length s) + options_len l' end.

(** [end += sprintf(end, %s with a space before, s)] for each string. *)
Fixpoint print_options (l : list (list Z)) (buf : list Z) (end_ : nat) : result (list Z * nat) :=
  match l with
  | [] => Ok (buf, end_)
  | s :: l' => let? buf := store buf end_ (32 :: s ++ [0]) in print_options l' buf (end_ + S (length s))
  end.

Definition null_at (v : list (option (list Z))) (i : nat) : bool :=
  match v !! i with Some (Some _) => false | _ => true end.

(** What pr_notice prints as unknown parameters, if anything. *)
Definition print_unknown_bootoptions (b : boot) : result (option (list Z)) :=
  if is_some_panic b || (null_at (argv_init b) 1 && null_at (envp_init b) 2) then Ok None
  else
    let? args := until_null (drop 1 (argv_init b)) in
    let? envs := until_null (drop 2 (envp_init b)) in
    let len := (1 + options_len args + options_len envs)%nat in
    if negb (report_alloc len) then Ok None
    else
      let? (buf, end_) := print_options args (replicate len 0) 0 in
      let? (buf, _) := print_options envs buf end_ in
      Ok (Some (cstr (drop 1 buf))).

(** ** The parameters of start_kernel *)

Definition start_kernel_args (static_command_line : list Z) (extra_init_args : option (list Z)) (b : boot)
    : result (option (list Z) * boot) :=
  let '(pieces, after_dashes) := parse_args static_command_line in
  let? b := handle unknown_bootoption (List.filter (fun x => negb (known_param (cstr x.1))) pieces) b in
  let? report := print_unknown_bootoptions b in
  let? b := match after_dashes with
            | Some rest => handle set_init_arg (parse_args rest).1 b
            | None => Ok b
            end in
  let? b := match extra_init_args with
            | Some line => handle set_init_arg (parse_args line).1 b
            | None => Ok b
            end in
  if is_some_panic b then Panic else Ok (report, b).

(** ** The first process *)

(** kernel_init_freeable: the early userspace program is used only when it is there. *)
Definition early_userspace (b : boot) : boot :=
  if c_true (init_eaccess (ramdisk_execute_command b)) then upd_commands (execute_command b) None b else b.

Definition run_init_process (init_filename : list Z) (b : boot) : result (Z * boot) :=
  let? v := put_entry (argv_init b) 0 init_filename in
  let b := upd_argv v b in
  let? args := until_null (argv_init b) in
  let? envs := until_null (envp_init b) in
  Ok (kernel_execve init_filename args envs, b).

Definition try_to_run_init_process (init_filename : list Z) (b : boot) : result (Z * boot) :=
  run_init_process init_filename b.

(** Try the programs in turn; [Panic] when none starts. *)
Fixpoint try_each (files : list (list Z)) (b : boot) : result (list Z * boot) :=
  match files with
  | [] => Panic
  | f :: files' =>
      let? (ret, b) := try_to_run_init_process f b in
      if c_true ret then try_each files' b else Ok (f, b)
  end.

Definition usual_inits : list (list Z) := [lit "/sbin/init"; lit "/etc/init"; lit "/bin/init"; lit "/bin/sh"].

(** The end of kernel_init: which program became init. *)
Definition kernel_init_exec (b : boot) : result (list Z * boot) :=
  let default b :=
    if negb (str_eq CONFIG_DEFAULT_INIT []) then
      let? (ret, b) := run_init_process CONFIG_DEFAULT_INIT b in
      if c_true ret then try_each usual_inits b else Ok (CONFIG_DEFAULT_INIT, b)
    else try_each usual_inits b in
  let requested b :=
    match execute_command b with
    | Some f => let? (ret, b) := run_init_process f b in if c_true ret then Panic else Ok (f, b)
    | None => default b
    end in
  match ramdisk_execute_command b with
  | Some f => let? (ret, b) := run_init_process f b in if c_true ret then requested b else Ok (f, b)
  | None => requested b
  end.
End boot.

(** ** Safety of the whole path *)

Section safety.
Context {E : BootEnv} {I : InitEnv}.

Lemma handle_safe h l b : (forall mem val b, piece_ok mem val -> boot_wf b -> safe (fun x => boot_wf x.2) (h mem val b)) ->
  Forall (fun x => piece_ok x.1 x.2) l -> boot_wf b -> safe boot_wf (handle h l b).
Proof.
  intros Hh Hl. revert b. induction Hl as [|[mem val] l Hp _ IH]; intros b Hb; cbn [handle]; [done|].
  eapply safe_bind; [by apply Hh|]. intros [r b'] Hb'. by apply IH.
Qed.

Lemma until_null_some v k : v !! k = Some None -> exists l, until_null v = Ok l /\ (length l <= k)%nat.
Proof.
  revert k. induction v as [|[s|] v IH]; intros k Hk; [done| |].
  - destruct k as [|k]; [done|]. destruct (IH k Hk) as (l & Hl & ?). exists (s :: l). cbn. rewrite Hl. split; [done|]. cbn. lia.
  - exists []. cbn. split; [done|lia].
Qed.

Lemma wf_terminator b : boot_wf b -> panic_later b = None ->
  argv_init b !! (MAX_INIT_ARGS + 1)%nat = Some None /\ envp_init b !! (MAX_INIT_ARGS + 1)%nat = Some None.
Proof. intros [[_ Ha] [_ He]] Hp. auto. Qed.

(** The text of the strings with a space before each. *)
Definition spaced (l : list (list Z)) : list Z := concat (map (cons 32) l).

Lemma options_len_spaced l : options_len l = length (spaced l).
Proof. induction l as [|s l IH]; cbn; [done|]. rewrite IH, length_app. done. Qed.

Lemma print_options_ok l p q : (options_len l < length q)%nat ->
  exists q', print_options l (p ++ q) (length p) = Ok (p ++ spaced l ++ q', length (p ++ spaced l)) /\
    length q = (length (spaced l) + length q')%nat /\ (head q = Some 0 -> head q' = Some 0).
Proof.
  revert p q. induction l as [|s l IH]; intros p q Hq; cbn [print_options].
  - exists q. cbn. rewrite app_nil_r. auto.
  - cbn [options_len] in Hq. unfold store. rewrite write_at_app by (cbn; rewrite length_app; cbn; lia). cbn [or_overrun rbind].
    set (r := drop (length (32 :: s ++ [0])) q).
    replace (p ++ (32 :: s ++ [0]) ++ r) with ((p ++ 32 :: s) ++ 0 :: r) by (cbn; rewrite <- !app_assoc; cbn; by rewrite <- ?app_assoc).
    replace (length p + S (length s))%nat with (length (p ++ 32 :: s)) by (rewrite length_app; done).
    assert (Hr : length r = (length q - (S (length s) + 1))%nat) by (subst r; rewrite length_drop; cbn; rewrite length_app; cbn; lia). clearbody r.
    destruct (IH (p ++ 32 :: s) (0 :: r)) as (q' & -> & Hl & Hh); [cbn; lia|]. exists q'. unfold spaced in *. cbn [map concat].
    split; [|split].
    + f_equal. rewrite <- ?app_assoc. cbn. by rewrite <- ?app_assoc.
    + rewrite length_app. cbn in *. lia.
    + intros _. by apply Hh.
Qed.

(** The report fits its allocation and lists the options in order. *)
Lemma report_exact b : boot_wf b -> panic_later b = None ->
  exists args envs, until_null (drop 1 (argv_init b)) = Ok args /\ until_null (drop 2 (envp_init b)) = Ok envs /\
    print_unknown_bootoptions b =
      Ok (if (null_at (argv_init b) 1 && null_at (envp_init b) 2) || negb (report_alloc (1 + options_len args + options_len envs))
          then None else Some (cstr (drop 1 (spaced (args ++ envs) ++ [0])))).
Proof.
  intros Hb Hp. destruct (wf_terminator b Hb Hp) as [Ha He]. pose proof max_init_args.
  destruct (until_null_some (drop 1 (argv_init b)) MAX_INIT_ARGS) as (args & Hargs & _).
  { rewrite lookup_drop. by rewrite Nat.add_comm. }
  destruct (until_null_some (drop 2 (envp_init b)) (MAX_INIT_ARGS - 1)) as (envs & Henvs & _).
  { rewrite lookup_drop. by replace (2 + (MAX_INIT_ARGS - 1))%nat with (MAX_INIT_ARGS + 1)%nat by lia. }
  exists args, envs. split; [done|]. split; [done|].
  unfold print_unknown_bootoptions, is_some_panic. rewrite Hp. cbn [orb].
  case_if; [done|]. rewrite Hargs, Henvs. cbn [rbind]. rewrite !options_len_spaced.
  cbn [orb]. case_if; [done|].
  set (n := (1 + length (spaced args) + length (spaced envs))%nat).
  destruct (print_options_ok args [] (replicate n 0)) as (q & Hq & Hl & Hh).
  { rewrite length_replicate, options_len_spaced. lia. }
  cbn [app length] in Hq. rewrite Hq. cbn [rbind]. rewrite length_replicate in Hl.
  destruct (print_options_ok envs (spaced args) q) as (q' & Hq' & Hl' & Hh'); [rewrite options_len_spaced; lia|].
  rewrite Hq'. cbn [rbind]. do 2 f_equal. assert (Hz : q' = [0]).
  { destruct q' as [|z [|? ?]]; cbn in Hl'; [lia| |lia]. specialize (Hh eq_refl). specialize (Hh' Hh). by injection Hh' as ->. }
  rewrite Hz. unfold spaced. by rewrite map_app, concat_app, <- app_assoc.
Qed.

Lemma start_wf ll kk : boot_wf (boot_start ll kk).
Proof.
  unfold boot_wf, table_ok, boot_start. cbn. rewrite !length_replicate. unfold MAX_INIT_ENVS.
  pose proof max_init_args. split; (split; [lia|intros _]).
  - rewrite lookup_cons_ne_0 by lia. apply lookup_replicate. split; [done|lia].
  - rewrite !lookup_cons_ne_0 by lia. apply lookup_replicate. split; [done|lia].
Qed.

Lemma start_args_safe line extra b : boot_wf b ->
  safe (fun x => boot_wf x.2 /\ panic_later x.2 = None) (start_kernel_args line extra b).
Proof.
  intros Hb. unfold start_kernel_args. pose proof (parse_pieces line) as Hl. destruct (parse_args line) as [pieces after].
  eapply safe_bind; [eapply handle_safe; [apply unknown_bootoption_wf|by apply incl_Forall with pieces; [intros x Hx; apply filter_In in Hx; tauto|]|done]|].
  clear b Hb. intros b Hb. eapply (safe_bind (fun _ => True)).
  { destruct (panic_later b) eqn:Hp; [unfold print_unknown_bootoptions, is_some_panic; by rewrite Hp|].
    by destruct (report_exact b Hb Hp) as (? & ? & _ & _ & ->). }
  intros rep _. apply (safe_bind boot_wf).
  { destruct after; [|done]. eapply handle_safe; [apply set_init_arg_wf|apply parse_pieces|done]. }
  clear b Hb. intros b Hb. apply (safe_bind boot_wf).
  { destruct extra; [|done]. eapply handle_safe; [apply set_init_arg_wf|apply parse_pieces|done]. }
  clear b Hb. intros b Hb. unfold is_some_panic. by destruct (panic_later b) eqn:Hp.
Qed.

(** The strings the tables hold for the program: its arguments and environment. *)
Definition gets (b : boot) (args envs : list (list Z)) : Prop :=
  boot_wf b /\ panic_later b = None /\ until_null (drop 1 (argv_init b)) = Ok args /\ until_null (envp_init b) = Ok envs.

Lemma ready_gets b : boot_wf b -> panic_later b = None -> exists args envs, gets b args envs.
Proof.
  intros Hb Hp. destruct (wf_terminator b Hb Hp) as [Ha He].
  destruct (until_null_some (drop 1 (argv_init b)) MAX_INIT_ARGS) as (args & Hargs & _).
  { rewrite lookup_drop. by rewrite Nat.add_comm. }
  destruct (until_null_some _ _ He) as (envs & Henvs & _). by exists args, envs.
Qed.

Definition same_commands (b b' : boot) : Prop :=
  execute_command b' = execute_command b /\ ramdisk_execute_command b' = ramdisk_execute_command b.

Lemma run_init_gets f b args envs : gets b args envs ->
  exists b', run_init_process f b = Ok (kernel_execve f (f :: args) envs, b') /\ gets b' args envs /\ same_commands b b'.
Proof.
  intros (Hb & Hp & Hargs & Henvs). destruct (wf_terminator b Hb Hp) as [Ha He].
  destruct Hb as [[Hl Ht] He']. unfold run_init_process, put_entry.
  destruct (argv_init b) as [|x v] eqn:Hv; [cbn in Hl; lia|]. cbn [length Nat.ltb Nat.leb rbind].
  change (drop 1 (x :: v)) with (drop 0 v) in *. rewrite drop_0 in *.
  cbn [insert list_insert argv_init upd_argv until_null envp_init]. rewrite Hargs. cbn [rbind].
  rewrite Henvs. cbn [rbind]. eexists. split; [done|]. split; [|done]. split; [|cbn; by rewrite drop_0].
  split; [|done]. split; [done|]. intros _. cbn. rewrite Nat.add_1_r in *. by apply Ha.
Qed.

(** ** Which program becomes init *)

(** The programs in the order they are tried. *)
Definition candidates (b : boot) : list (list Z) :=
  option_list (ramdisk_execute_command b) ++
  match execute_command b with
  | Some f => [f]
  | None => (if str_eq CONFIG_DEFAULT_INIT [] then [] else [CONFIG_DEFAULT_INIT]) ++
            usual_inits
  end.

(** The first candidate that starts with these strings. *)
Definition chosen (args envs : list (list Z)) (files : list (list Z)) : option (list Z) :=
  List.find (fun f => kernel_execve f (f :: args) envs =? 0) files.

(** [m] starts the first of [files] that can be started. *)
Definition starts (args envs : list (list Z)) (files : list (list Z)) (m : result (list Z * boot)) : Prop :=
  match chosen args envs files with
  | Some f => exists b', m = Ok (f, b') /\ gets b' args envs
  | None => m = Panic
  end.

Lemma starts_cons args envs f files b k : gets b args envs ->
  (forall b', gets b' args envs -> same_commands b b' -> starts args envs files (k b')) ->
  starts args envs (f :: files) (let? (ret, b) := run_init_process f b in if c_true ret then k b else Ok (f, b)).
Proof.
  intros Hb Hk. destruct (run_init_gets f b args envs Hb) as (b' & -> & Hb' & Hc). cbn [rbind].
  unfold starts, chosen, c_true. cbn [List.find]. destruct (kernel_execve f (f :: args) envs =? 0); cbn [negb].
  - by exists b'.
  - by apply Hk.
Qed.

Lemma try_each_starts args envs files b : gets b args envs -> starts args envs files (try_each files b).
Proof.
  revert b. induction files as [|f files IH]; intros b Hb; [done|]. cbn [try_each].
  apply starts_cons; [done|]. intros b' Hb' _. by apply IH.
Qed.

Lemma default_starts args envs b : gets b args envs ->
  starts args envs ((if str_eq CONFIG_DEFAULT_INIT [] then [] else [CONFIG_DEFAULT_INIT]) ++
                    usual_inits)
    (if negb (str_eq CONFIG_DEFAULT_INIT []) then
       let? (ret, b) := run_init_process CONFIG_DEFAULT_INIT b in
       if c_true ret then try_each usual_inits b
       else Ok (CONFIG_DEFAULT_INIT, b)
     else try_each usual_inits b).
Proof.
  intros Hb. destruct (str_eq CONFIG_DEFAULT_INIT []); cbn [negb]; [by apply try_each_starts|].
  apply (starts_cons _ _ CONFIG_DEFAULT_INIT); [done|]. intros b' Hb' _. by apply try_each_starts.
Qed.

Lemma init_choice_lemma b args envs : gets b args envs -> starts args envs (candidates b) (kernel_init_exec b).
Proof.
  intros Hb. unfold candidates, kernel_init_exec. cbv zeta.
  assert (Hreq : forall b', gets b' args envs -> execute_command b' = execute_command b ->
    starts args envs
      match execute_command b with
      | Some f => [f]
      | None => (if str_eq CONFIG_DEFAULT_INIT [] then [] else [CONFIG_DEFAULT_INIT]) ++
                usual_inits
      end
      match execute_command b' with
      | Some f => let? (ret, b) := run_init_process f b' in if c_true ret then Panic else Ok (f, b)
      | None =>
          if negb (str_eq CONFIG_DEFAULT_INIT []) then
            let? (ret, b) := run_init_process CONFIG_DEFAULT_INIT b' in
            if c_true ret then try_each usual_inits b
            else Ok (CONFIG_DEFAULT_INIT, b)
          else try_each usual_inits b'
      end).
  { intros b' Hb' ->. destruct (execute_command b) as [f|]; [|by apply default_starts].
    by apply (starts_cons args envs f [] b' (fun _ => Panic)). }
  destruct (ramdisk_execute_command b) as [f|]; cbn [option_list app]; [|by apply Hreq].
  apply (starts_cons args envs f); [done|]. intros b' Hb' [He _]. by apply Hreq.
Qed.

(** Which program becomes init: with the argument tables the parameters left, kernel_init
    starts the first program that can be started of the early userspace one, the one
    asked for with init= (and then no other), the configured default, and the four
    usual ones; it stops with a panic exactly when none can; and every program tried
    gets its own name and then the same arguments and environment. *)
Theorem init_choice b args envs : gets b args envs -> starts args envs (candidates b) (kernel_init_exec b).
Proof. apply init_choice_lemma. Qed.

(** C39: the boot command line cannot corrupt the tables: for any command lines and any
    extra arguments, parsing the early options, the options and the arguments after
    the dashes, reporting the unknown ones and starting init never touches a table or
    buffer outside its bounds and never reaches the BUG of repair_env_string; it
    starts a program whose argument and environment arrays are terminated, or stops
    with a panic. *)
Theorem boot_args_safe early line extra ll kk :
  safe (fun x => exists args envs, gets x.2 args envs)
    (let? b := parse_early_options early (boot_start ll kk) in
     let? (_, b) := start_kernel_args line extra b in
     kernel_init_exec (early_userspace b)).
Proof.
  apply (safe_bind boot_wf).
  { apply handle_safe; [intros mem val b _; apply early_wf|apply parse_pieces|apply start_wf]. }
  intros b Hb. eapply safe_bind; [by apply start_args_safe|]. intros [rep b'] [Hb' Hp]. cbn in Hb', Hp.
  assert (He : boot_wf (early_userspace b') /\ panic_later (early_userspace b') = None)
    by (unfold early_userspace; by case_if).
  destruct He as [He Hpe]. destruct (ready_gets _ He Hpe) as (args & envs & Hg).
  pose proof (init_choice_lemma _ _ _ Hg) as Hc. unfold starts in Hc.
  destruct (chosen args envs _); [destruct Hc as (b2 & -> & Hg2); cbn; eauto|by rewrite Hc].
Qed.
End safety.

(** ** What the program gets *)

Section delivery.
Context {E : BootEnv}.

(** An option no table of the kernel claims. *)
Definition ordinary (mem : list Z) (val : option nat) : bool :=
  negb (sysctl_is_alias (cstr mem)) && negb (strnchr (piece_text mem val) (strlen mem) 46) &&
  forallb (fun p => negb (parameqn (piece_text mem val) (p_str p) (length (p_str p)))) setup_table.

(** An option before the dashes, or one after them. *)
Inductive init_option := Before (mem : list Z) (val : option nat) | After (mem : list Z) (val : option nat).

Definition option_ok (o : init_option) : Prop :=
  match o with
  | Before mem val => piece_ok mem val /\ ordinary mem val = true
  | After mem val => piece_ok mem val
  end.

Definition deliver (o : init_option) (b : boot) : result (Z * boot) :=
  match o with Before mem val => unknown_bootoption mem val b | After mem val => set_init_arg mem val b end.

Fixpoint deliver_all (os : list init_option) (b : boot) : result boot :=
  match os with [] => Ok b | o :: os' => let? (_, b) := deliver o b in deliver_all os' b end.

(** ** The specification: two growing lists *)

Definition spec_arg (s : list Z) (args : list (list Z)) : option (list (list Z)) :=
  if (length args <=? MAX_INIT_ARGS)%nat then Some (args ++ [s]) else None.

(** A variable that is already there is replaced in place. *)
Fixpoint replace_var (key s : list Z) (envs : list (list Z)) : option (nat * list (list Z)) :=
  match envs with
  | [] => None
  | e :: envs' =>
      if bool_decide (key `prefix_of` e) then Some (O, s :: envs')
      else (fun x => (S x.1, e :: x.2)) <$> replace_var key s envs'
  end.

Definition spec_env (key s : list Z) (envs : list (list Z)) : option (list (list Z)) :=
  match replace_var key s envs with
  | Some (i, envs') => if (i <? MAX_INIT_ARGS)%nat then Some envs' else None
  | None => spec_arg s envs
  end.

Definition spec_option (o : init_option) (x : list (list Z) * list (list Z)) : option (list (list Z) * list (list Z)) :=
  match o with
  | Before mem (Some v) => (fun e => (x.1, e)) <$> spec_env (cstr mem ++ [61]) (piece_text mem (Some v)) x.2
  | Before mem None => (fun a => (a, x.2)) <$> spec_arg (cstr mem) x.1
  | After mem val => (fun a => (a, x.2)) <$> spec_arg (piece_text mem val) x.1
  end.

Fixpoint spec_options (os : list init_option) (x : list (list Z) * list (list Z)) : option (list (list Z) * list (list Z)) :=
  match os with [] => Some x | o :: os' => spec_option o x ≫= spec_options os' end.

(** The same without the panic where a variable in the last slot is replaced: what the
    two lists are meant to be. *)
Definition list_env (key s : list Z) (envs : list (list Z)) : option (list (list Z)) :=
  match replace_var key s envs with
  | Some (_, envs') => Some envs'
  | None => spec_arg s envs
  end.

Definition list_option (o : init_option) (x : list (list Z) * list (list Z)) : option (list (list Z) * list (list Z)) :=
  match o with
  | Before mem (Some v) => (fun e => (x.1, e)) <$> list_env (cstr mem ++ [61]) (piece_text mem (Some v)) x.2
  | _ => spec_option o x
  end.

Fixpoint list_options (os : list init_option) (x : list (list Z) * list (list Z)) : option (list (list Z) * list (list Z)) :=
  match os with [] => Some x | o :: os' => list_option o x ≫= list_options os' end.

(** Some option replaces the variable in the last slot of a full environment. *)
Fixpoint replaces_last (os : list init_option) (x : list (list Z) * list (list Z)) : bool :=
  match os with
  | [] => false
  | o :: os' =>
      match o with
      | Before mem (Some v) =>
          match replace_var (cstr mem ++ [61]) (piece_text mem (Some v)) x.2 with Some (i, _) => (MAX_INIT_ARGS <=? i)%nat | None => false end
      | _ => false
      end || match list_option o x with Some x' => replaces_last os' x' | None => false end
  end.

Lemma spec_options_list os x : spec_options os x = if replaces_last os x then None else list_options os x.
Proof.
  revert x. induction os as [|o os IH]; intros x; [done|]. cbn [spec_options replaces_last list_options].
  destruct o as [mem [v|]|mem val]; cbn [orb list_option].
  - cbn [spec_option]. unfold spec_env, list_env. destruct (replace_var _ _ _) as [[i l]|].
    + destruct (Nat.ltb_spec i MAX_INIT_ARGS), (Nat.leb_spec MAX_INIT_ARGS i); try lia; cbn [orb]; [|done]. apply IH.
    + cbn [orb]. destruct (spec_arg _ _); [apply IH|done].
  - destruct (spec_option _ x); [apply IH|done].
  - destruct (spec_option _ x); [apply IH|done].
Qed.

(** A table holds a list of strings, then [k] empty slots, then [t]. *)
Definition table (l : list (list Z)) (k : nat) (t : list (option (list Z))) : list (option (list Z)) :=
  map Some l ++ replicate k None ++ t.

Definition represents (b : boot) (x : list (list Z) * list (list Z)) : Prop :=
  panic_later b = None /\ (length x.1 <= MAX_INIT_ARGS + 1)%nat /\ (length x.2 <= MAX_INIT_ARGS + 1)%nat /\
  argv_init b = table x.1 (MAX_INIT_ARGS + 2 - length x.1) [] /\ envp_init b = table x.2 (MAX_INIT_ARGS + 2 - length x.2) [].

(** ** Slots in such tables *)

Lemma put_next l k t s : put_entry (table l (S k) t) (length l) s = Ok (table (l ++ [s]) k t).
Proof.
  unfold put_entry, table. rewrite length_app, length_map. cbn [replicate app length].
  destruct (Nat.ltb_spec (length l) (length l + S (length (replicate k None ++ t)))); [|lia].
  f_equal. rewrite map_app, <- app_assoc. cbn [map app].
  replace (length l) with (length (map Some l) + 0)%nat by (rewrite length_map; lia). by rewrite insert_app_r.
Qed.

Lemma slot_next max same l k t i over : Forall (fun s => same s = false) l ->
  table_slot max same (table l (S k) t) i over =
  Ok ((i + length l)%nat, over || ((i <=? max)%nat && (max <? i + length l)%nat)).
Proof.
  unfold table. intros H. revert i over. induction H as [|s l Hs _ IH]; intros i over; cbn [map app replicate table_slot length].
  - rewrite Nat.add_0_r. destruct (Nat.leb_spec i max), (Nat.ltb_spec max i); try lia; by rewrite orb_false_r.
  - rewrite Hs. cbn [replicate] in IH. cbn [app] in IH. rewrite IH. do 2 f_equal; [lia|]. rewrite <- orb_assoc. f_equal.
    destruct (Nat.eqb_spec i max), (Nat.leb_spec (S i) max), (Nat.leb_spec i max),
      (Nat.ltb_spec max (S i + length l)), (Nat.ltb_spec max (i + S (length l))); cbn; lia || done.
Qed.

Lemma arg_slot_next l k t i : (i <= MAX_INIT_ARGS)%nat ->
  arg_slot (table l (S k) t) i =
  Ok (if (i + length l <=? MAX_INIT_ARGS)%nat then Some (i + length l)%nat else None).
Proof.
  unfold table. revert i. induction l as [|s l IH]; intros i Hi; cbn [map app replicate arg_slot length].
  - rewrite Nat.add_0_r. by destruct (Nat.leb_spec i MAX_INIT_ARGS); [|lia].
  - destruct (Nat.eqb_spec i MAX_INIT_ARGS).
    + by destruct (Nat.leb_spec (i + S (length l)) MAX_INIT_ARGS); [lia|].
    + cbn [replicate app] in IH. rewrite IH by lia. by rewrite Nat.add_succ_r.
Qed.

(** The slot of a variable that is there. *)
Lemma slot_replace max key s text same l k t i0 over i l' :
  (forall e, same e = bool_decide (key `prefix_of` e)) -> replace_var key text l = Some (i, l') -> s = text ->
  table_slot max same (table l k t) i0 over = Ok ((i0 + i)%nat, over || ((i0 <=? max)%nat && (max <=? i0 + i)%nat)) /\
  put_entry (table l k t) i s = Ok (table l' k t) /\ length l' = length l.
Proof.
  intros Hs Hr ->. unfold table. revert i0 over i l' Hr. induction l as [|e l IH]; intros i0 over i l' Hr; [done|].
  cbn [replace_var] in Hr. cbn [map app table_slot]. rewrite Hs. case_bool_decide.
  - injection Hr as <- <-. rewrite Nat.add_0_r. split; [|by unfold put_entry]. do 3 f_equal.
    destruct (Nat.eqb_spec i0 max), (Nat.leb_spec i0 max), (Nat.leb_spec max i0); cbn; lia || done.
  - destruct (replace_var key text l) as [[j m]|] eqn:Hm; [|done]. injection Hr as <- <-.
    destruct (IH (S i0) (over || (i0 =? max)%nat) j m eq_refl) as (-> & Hp & Hl). split; [|split].
    + do 2 f_equal; [lia|]. rewrite <- orb_assoc. f_equal.
      destruct (Nat.eqb_spec i0 max), (Nat.leb_spec (S i0) max), (Nat.leb_spec i0 max), (Nat.leb_spec max (S i0 + j)),
        (Nat.leb_spec max (i0 + S j)); cbn; lia || done.
    + unfold put_entry in *. cbn [length]. destruct (Nat.ltb_spec j (length (map Some l ++ replicate k None ++ t))); [|done].
      destruct (Nat.ltb_spec (S j) (S (length (map Some l ++ replicate k None ++ t)))); [|lia].
      injection Hp as Hp. f_equal. change (Some e :: <[j := Some text]> (map Some l ++ replicate k None ++ t) = Some e :: map Some m ++ replicate k None ++ t).
      by rewrite Hp.
    + cbn. by rewrite Hl.
Qed.

Lemma replace_none key s l : replace_var key s l = None -> Forall (fun e => bool_decide (key `prefix_of` e) = false) l.
Proof.
  induction l as [|e l IH]; cbn; [constructor|]. case_bool_decide; [done|]. intros H0.
  destruct (replace_var key s l); [done|]. constructor; [by apply bool_decide_eq_false|auto].
Qed.

(** ** The handlers on ordinary options *)

Lemma ordinary_unclaimed text b ps :
  forallb (fun p => negb (parameqn text (p_str p) (length (p_str p)))) ps = true -> checksetup ps text false b = Ok (false, b).
Proof.
  induction ps as [|p ps IH]; cbn [forallb checksetup]; [done|]. intros H. apply andb_true_iff in H as [H1 H2].
  apply negb_true_iff in H1. rewrite H1. auto.
Qed.

Lemma unknown_ordinary mem val b : piece_ok mem val -> ordinary mem val = true -> panic_later b = None ->
  unknown_bootoption mem val b =
  let text := piece_text mem val in
  match val with
  | Some _ =>
      let? (i, over) := table_slot MAX_INIT_ARGS (fun s => strn_eq text s (strlen mem + 1)) (envp_init b) 0 false in
      let b := if over then upd_panic (lit "env") text b else b in
      let? v := put_entry (envp_init b) i text in Ok (0, upd_envp v b)
  | None =>
      let? (i, over) := table_slot MAX_INIT_ARGS (fun _ => false) (argv_init b) 0 false in
      let b := if over then upd_panic (lit "init") text b else b in
      let? v := put_entry (argv_init b) i text in Ok (0, upd_argv v b)
  end.
Proof.
  intros Hp Ho Hn. unfold ordinary in Ho. apply andb_true_iff in Ho as [Ho H3]. apply andb_true_iff in Ho as [H1 H2].
  apply negb_true_iff in H1, H2. unfold unknown_bootoption. rewrite H1.
  destruct (repair_correct mem val Hp) as (mem' & -> & Ht). cbn [rbind]. rewrite Ht.
  unfold obsolete_checksetup. rewrite ordinary_unclaimed by done. cbn [rbind]. rewrite H2.
  unfold is_some_panic. by rewrite Hn.
Qed.

Lemma unknown_pending mem val b : piece_ok mem val -> ordinary mem val = true -> panic_later b <> None ->
  unknown_bootoption mem val b = Ok (0, b).
Proof.
  intros Hp Ho Hn. unfold ordinary in Ho. apply andb_true_iff in Ho as [Ho H3]. apply andb_true_iff in Ho as [H1 H2].
  apply negb_true_iff in H1, H2. unfold unknown_bootoption. rewrite H1.
  destruct (repair_correct mem val Hp) as (mem' & -> & Ht). cbn [rbind]. rewrite Ht.
  unfold obsolete_checksetup. rewrite ordinary_unclaimed by done. cbn [rbind]. rewrite H2.
  unfold is_some_panic. by destruct (panic_later b).
Qed.

Lemma deliver_pending o b : option_ok o -> panic_later b <> None -> deliver o b = Ok (0, b).
Proof.
  intros Ho Hn. destruct o as [mem val|mem val]; cbn [deliver].
  - destruct Ho. by apply unknown_pending.
  - unfold set_init_arg, is_some_panic. by destruct (panic_later b).
Qed.

Lemma deliver_all_pending os b : Forall option_ok os -> panic_later b <> None -> deliver_all os b = Ok b.
Proof. intros H Hn. induction H as [|o os Ho _ IH]; cbn [deliver_all]; [done|]. by rewrite deliver_pending. Qed.

(** The comparison of unknown_bootoption finds the variable with the same name. *)
Lemma same_variable mem v e : strn_eq (piece_text mem (Some v)) e (strlen mem + 1) = bool_decide (cstr mem ++ [61] `prefix_of` e).
Proof.
  apply Bool.eq_iff_eq_true. rewrite bool_decide_eq_true.
  replace (strlen mem + 1)%nat with (length (cstr mem ++ [61])) by (rewrite length_app, length_cstr; done).
  apply strn_eq_prefix with (r := cstr (drop v mem)).
  - cbn. by rewrite <- app_assoc.
  - apply Forall_app. split; [apply cstr_is_str|by repeat constructor].
Qed.

Lemma no_same l : Forall (fun s : list Z => (fun _ : list Z => false) s = false) l.
Proof. by apply Forall_forall. Qed.

Lemma deliver_option o b x : represents b x -> option_ok o ->
  exists b', deliver o b = Ok (0, b') /\
    match spec_option o x with
    | Some x' => represents b' x' /\ execute_command b' = execute_command b /\
                 ramdisk_execute_command b' = ramdisk_execute_command b
    | None => panic_later b' <> None
    end.
Proof.
  intros (Hn & Ha & He & Hva & Hve) Ho. destruct x as [args envs]. cbn [fst snd] in *.
  assert (Hka : (MAX_INIT_ARGS + 2 - length args = S (MAX_INIT_ARGS + 1 - length args))%nat) by lia.
  assert (Hke : (MAX_INIT_ARGS + 2 - length envs = S (MAX_INIT_ARGS + 1 - length envs))%nat) by lia.
  assert (Hsa : forall s, (MAX_INIT_ARGS + 1 - length args = MAX_INIT_ARGS + 2 - length (args ++ [s]))%nat)
    by (intros s; rewrite length_app; cbn; lia).
  assert (Hse : forall s, (MAX_INIT_ARGS + 1 - length envs = MAX_INIT_ARGS + 2 - length (envs ++ [s]))%nat)
    by (intros s; rewrite length_app; cbn; lia).
  destruct o as [mem [v|]|mem val]; cbn [deliver spec_option fst snd].
  - destruct Ho as [Hp Ho]. rewrite unknown_ordinary by done. cbv zeta. rewrite Hve. unfold spec_env.
    destruct (replace_var (cstr mem ++ [61]) (piece_text mem (Some v)) envs) as [[i envs']|] eqn:Hr.
    + destruct (slot_replace MAX_INIT_ARGS _ _ _ _ envs (MAX_INIT_ARGS + 2 - length envs) [] 0 false i envs'
                  (same_variable mem v) Hr eq_refl) as (-> & Hput & Hlen).
      cbn [rbind orb Nat.leb andb Nat.add]. destruct (Nat.ltb_spec i MAX_INIT_ARGS), (Nat.leb_spec MAX_INIT_ARGS i); try lia;
        cbn [envp_init upd_panic]; rewrite Hve, Hput; cbn [rbind]; (eexists; split; [done|]); [|done].
      cbn. split; [|done]. repeat split; cbn; try done; rewrite ?Hlen; done.
    + rewrite Hke, slot_next by (apply replace_none in Hr; eapply Forall_impl; [exact Hr|]; intros; by rewrite same_variable).
      cbn [rbind orb Nat.leb andb Nat.add]. unfold spec_arg.
      destruct (Nat.leb_spec (length envs) MAX_INIT_ARGS), (Nat.ltb_spec MAX_INIT_ARGS (length envs)); try lia;
        cbn [envp_init upd_panic]; rewrite Hve, Hke, put_next; cbn [rbind]; (eexists; split; [done|]); [|done].
      cbn. split; [|done]. repeat split; cbn; try done; [rewrite length_app; cbn; lia|by rewrite <- Hse].
  - destruct Ho as [Hp Ho]. rewrite unknown_ordinary by done. cbv zeta. rewrite Hva, Hka, slot_next by apply no_same.
    cbn [rbind orb Nat.leb andb Nat.add]. unfold spec_arg.
    destruct (Nat.leb_spec (length args) MAX_INIT_ARGS), (Nat.ltb_spec MAX_INIT_ARGS (length args)); try lia;
      cbn [argv_init upd_panic]; rewrite Hva, Hka, put_next; cbn [rbind]; (eexists; split; [done|]); [|done].
    cbn. split; [|done]. repeat split; cbn; try done; [rewrite length_app; cbn; lia|by rewrite <- Hsa].
  - unfold set_init_arg, is_some_panic. rewrite Hn. destruct (repair_correct mem val Ho) as (mem' & -> & Ht). cbn [rbind].
    rewrite Ht, Hva, Hka, arg_slot_next by lia. cbn [rbind Nat.add]. unfold spec_arg.
    destruct (Nat.leb_spec (length args) MAX_INIT_ARGS); [rewrite put_next; cbn [rbind]|]; (eexists; split; [done|]); [|done].
    cbn. split; [|done]. repeat split; cbn; try done; [rewrite length_app; cbn; lia|by rewrite <- Hsa].
Qed.

(** Options no table of the kernel claims end up in the two lists, or a panic is pending. *)
Lemma options_delivered os b x : represents b x -> Forall option_ok os ->
  exists b', deliver_all os b = Ok b' /\
    match spec_options os x with
    | Some x' => represents b' x'
    | None => panic_later b' <> None
    end.
Proof.
  intros Hx Hos. revert b x Hx. induction Hos as [|o os Ho Hos IH]; intros b x Hx; cbn [deliver_all spec_options].
  - by exists b.
  - destruct (deliver_option o b x Hx Ho) as (b' & -> & Hb'). cbn [rbind].
    destruct (spec_option o x) as [x'|]; cbn [mbind option_bind].
    + destruct Hb' as [Hb' _]. by apply IH.
    + exists b'. by rewrite deliver_all_pending.
Qed.
End delivery.

(** ** The whole command line *)

Section command_line.
Context {E : BootEnv} {I : InitEnv}.

Definition before (l : list (list Z * option nat)) : list init_option := map (fun x => Before x.1 x.2) l.
Definition after (l : list (list Z * option nat)) : list init_option := map (fun x => After x.1 x.2) l.

(** The options of a line that no kernel parameter claims. *)
Definition unknown_pieces (line : list Z) : list (list Z * option nat) :=
  List.filter (fun x => negb (known_param (cstr x.1))) (parse_args line).1.

(** All options of the two lines in the order they are handled. *)
Definition all_options (line : list Z) (extra : option (list Z)) : list init_option :=
  before (unknown_pieces line) ++
  match (parse_args line).2 with Some rest => after (parse_args rest).1 | None => [] end ++
  match extra with Some l => after (parse_args l).1 | None => [] end.

Lemma handle_before l b : handle unknown_bootoption l b = deliver_all (before l) b.
Proof.
  revert b. induction l as [|[mem val] l IH]; intros b; cbn; [done|].
  destruct (unknown_bootoption mem val b) as [[r b']| | |]; cbn; [apply IH|done..].
Qed.

Lemma handle_after l b : handle set_init_arg l b = deliver_all (after l) b.
Proof.
  revert b. induction l as [|[mem val] l IH]; intros b; cbn; [done|].
  destruct (set_init_arg mem val b) as [[r b']| | |]; cbn; [apply IH|done..].
Qed.

Lemma deliver_all_app os os' b : deliver_all (os ++ os') b = let? b := deliver_all os b in deliver_all os' b.
Proof.
  revert b. induction os as [|o os IH]; intros b; cbn; [done|].
  destruct (deliver o b) as [[r b']| | |]; cbn; [apply IH|done..].
Qed.

Lemma spec_options_app os os' x : spec_options (os ++ os') x = spec_options os x ≫= spec_options os'.
Proof. revert x. induction os as [|o os IH]; intros x; cbn; [done|]. destruct (spec_option o x); cbn; [apply IH|done]. Qed.

Lemma after_ok line : Forall option_ok (after (parse_args line).1).
Proof. apply Forall_map. eapply Forall_impl; [apply parse_pieces|]. done. Qed.

Lemma represents_wf b x : represents b x -> boot_wf b.
Proof.
  intros (Hp & Ha & He & Hva & Hve). split; (split; [|intros _]).
  - rewrite Hva. unfold table. rewrite !length_app, length_map, length_replicate. cbn. lia.
  - rewrite Hva. unfold table. rewrite app_nil_r, lookup_app_r by (rewrite length_map; lia).
    apply lookup_replicate. rewrite length_map. split; [done|lia].
  - rewrite Hve. unfold table. rewrite !length_app, length_map, length_replicate. cbn. lia.
  - rewrite Hve. unfold table. rewrite app_nil_r, lookup_app_r by (rewrite length_map; lia).
    apply lookup_replicate. rewrite length_map. split; [done|lia].
Qed.

Lemma report_ok b : panic_later b <> None \/ boot_wf b -> exists rep, print_unknown_bootoptions b = Ok rep.
Proof.
  intros H. destruct (panic_later b) eqn:Hp.
  - unfold print_unknown_bootoptions, is_some_panic. rewrite Hp. by eexists.
  - destruct H as [H|Hb]; [done|]. destruct (report_exact b Hb Hp) as (? & ? & _ & _ & ->). by eexists.
Qed.

(** Delivering in two parts, with the report in between. *)
Lemma delivered_wf os b x : represents b x -> Forall option_ok os ->
  exists b', deliver_all os b = Ok b' /\ (panic_later b' <> None \/ boot_wf b').
Proof.
  intros Hx Hos. destruct (options_delivered os b x Hx Hos) as (b' & -> & Hb'). exists b'. split; [done|].
  destruct (spec_options os x); [right; by eapply represents_wf|by left].
Qed.

(** The boot follows the specification. *)
Lemma options_of_line_delivered line extra b x :
  represents b x -> Forall (fun p => ordinary p.1 p.2 = true) (unknown_pieces line) ->
  match spec_options (all_options line extra) x with
  | Some x' => exists rep b', start_kernel_args line extra b = Ok (rep, b') /\ represents b' x'
  | None => start_kernel_args line extra b = Panic
  end.
Proof.
  intros Hx Ho.
  assert (H1 : Forall option_ok (before (unknown_pieces line))).
  { apply Forall_map. pose proof (parse_pieces line) as Hp. rewrite Forall_forall in *. intros p Hin. split; [|by apply Ho].
    apply Hp. apply list_elem_of_In in Hin. apply list_elem_of_In. by apply filter_In in Hin as [Hin _]. }
  set (os2 := match (parse_args line).2 with Some rest => after (parse_args rest).1 | None => [] end).
  set (os3 := match extra with Some l => after (parse_args l).1 | None => [] end).
  assert (H2 : Forall option_ok os2) by (subst os2; destruct (parse_args line).2; [apply after_ok|constructor]).
  assert (H3 : Forall option_ok os3) by (subst os3; destruct extra; [apply after_ok|constructor]).
  destruct (options_delivered (all_options line extra) b x Hx) as (b' & Hb' & Hspec).
  { unfold all_options. by repeat (apply Forall_app; split). }
  unfold all_options in Hb'. fold os2 os3 in Hb'. rewrite !deliver_all_app in Hb'.
  unfold start_kernel_args. replace (parse_args line) with ((parse_args line).1, (parse_args line).2) by (by destruct (parse_args line)).
  fold (unknown_pieces line). rewrite handle_before.
  destruct (delivered_wf _ b x Hx H1) as (b1 & Hb1 & Hw1). rewrite Hb1 in Hb' |- *. cbn [rbind] in Hb' |- *.
  destruct (report_ok b1 Hw1) as [rep ->]. cbn [rbind].
  replace (match (parse_args line).2 with Some rest => handle set_init_arg (parse_args rest).1 b1 | None => Ok b1 end)
    with (deliver_all os2 b1) by (subst os2; destruct (parse_args line).2; [by rewrite handle_after|done]).
  rewrite ?deliver_all_app in Hb'. destruct (deliver_all os2 b1) as [b2| | |]; try done. cbn [rbind] in Hb' |- *.
  replace (match extra with Some l => handle set_init_arg (parse_args l).1 b2 | None => Ok b2 end)
    with (deliver_all os3 b2) by (subst os3; destruct extra; [by rewrite handle_after|done]).
  rewrite Hb'. cbn [rbind]. unfold is_some_panic. destruct (spec_options (all_options line extra) x).
  - exists rep, b'. destruct Hspec as [Hn Hspec]. rewrite Hn. split; [done|by split].
  - by destruct (panic_later b').
Qed.

(** C19: what init receives.  When no table of the kernel claims the unknown options before
    the dashes of the command line (no alias of a sysctl, no obsolete __setup option, no
    module parameter with a dot in its name), init gets exactly two lists: options without
    a value, then the arguments after the dashes of the command line, then those of the
    boot configuration, are appended to the arguments in this order (the comment in
    setup_command_line and the saved command line have the boot configuration first);
    options with a value become variables name=value, replacing the first variable of that
    name in place or appended.  The boot stops with a panic exactly when a list would get
    more than MAX_INIT_ARGS + 1 entries, or, although nothing grows then, when the variable
    to replace is in the last slot of a full environment. *)
Theorem command_line_delivered line extra b x :
  represents b x -> Forall (fun p => ordinary p.1 p.2 = true) (unknown_pieces line) ->
  match list_options (all_options line extra) x with
  | Some x' =>
      if replaces_last (all_options line extra) x then start_kernel_args line extra b = Panic
      else exists rep b', start_kernel_args line extra b = Ok (rep, b') /\ represents b' x'
  | None => start_kernel_args line extra b = Panic
  end.
Proof.
  intros Hx Ho. pose proof (options_of_line_delivered line extra b x Hx Ho) as H. rewrite spec_options_list in H.
  by destruct (replaces_last _ _), (list_options _ _).
Qed.
End command_line.

(** ** Arguments before init= *)

Section stale.
Context {E : BootEnv}.

Lemma clear_args_shape v : length v = (MAX_INIT_ARGS + 2)%nat ->
  clear_args v = take 1 v ++ replicate (MAX_INIT_ARGS - 1) None ++ drop MAX_INIT_ARGS v.
Proof.
  intros Hl. pose proof max_init_args. apply list_eq. intros i. unfold clear_args. rewrite list_lookup_imap.
  destruct (Nat.lt_ge_cases i 1) as [H1|H1].
  - replace i with O by lia. rewrite lookup_app_l by (rewrite length_take; lia). destruct v; [cbn in Hl; lia|]. done.
  - rewrite lookup_app_r by (rewrite length_take; lia). rewrite length_take. replace (1 `min` length v)%nat with 1%nat by lia.
    assert (L1 : (1 <=? i)%nat = true) by (by apply Nat.leb_le). rewrite L1.
    destruct (Nat.ltb_spec i MAX_INIT_ARGS) as [H2|H2]; cbn [andb].
    + rewrite lookup_app_l by (rewrite length_replicate; lia).
      transitivity (Some (@None (list Z))); [|symmetry; apply lookup_replicate; split; [done|lia]].
      assert (is_Some (v !! i)) as [x ->] by (apply lookup_lt_is_Some; lia). done.
    + rewrite lookup_app_r by (rewrite length_replicate; lia). rewrite length_replicate, lookup_drop.
      replace (MAX_INIT_ARGS + (i - 1 - (MAX_INIT_ARGS - 1)))%nat with i by lia. by destruct (v !! i).
Qed.

Lemma clear_full a0 args stale : length args = (MAX_INIT_ARGS - 1)%nat ->
  clear_args (table (a0 :: args ++ [stale]) 1 []) = table [a0] (MAX_INIT_ARGS - 1) [Some stale; None].
Proof.
  intros Hl. pose proof max_init_args. rewrite clear_args_shape.
  - unfold table. cbn [map app take]. rewrite take_0. cbn [app]. do 3 f_equal. rewrite map_app, <- app_assoc.
    replace MAX_INIT_ARGS with (S (length (map Some args)) + 0)%nat by (rewrite length_map; lia). cbn [Nat.add drop].
    rewrite (drop_past (map Some args) 0). done.
  - unfold table. rewrite length_app, length_map. cbn [length]. rewrite length_app, Hl. cbn [length replicate app]. lia.
Qed.

(** Arguments fill the free slots before whatever follows them. *)
Lemma deliver_args news b l k t :
  panic_later b = None -> argv_init b = table l (length news + k) t -> (length l + length news <= MAX_INIT_ARGS + 1)%nat ->
  Forall (fun m => piece_ok m None /\ ordinary m None = true) news ->
  exists b', deliver_all (map (fun m => Before m None) news) b = Ok b' /\ panic_later b' = None /\
    argv_init b' = table (l ++ map cstr news) k t.
Proof.
  intros Hn Ha Hl H. revert b l Hn Ha Hl. induction H as [|m news [Hp Ho] _ IH]; intros b l Hn Ha Hl; cbn [map deliver_all deliver].
  - exists b. by rewrite app_nil_r.
  - cbn [length Nat.add] in Ha, Hl. rewrite unknown_ordinary by done. cbv zeta. rewrite Ha, slot_next by apply no_same.
    cbn [rbind orb Nat.leb andb Nat.add piece_text]. destruct (Nat.ltb_spec MAX_INIT_ARGS (length l)); [lia|].
    rewrite Ha, put_next. cbn [rbind].
    destruct (IH (upd_argv (table (l ++ [cstr m]) (length news + k) t) b) (l ++ [cstr m])) as (b' & -> & Hb' & Hv);
      [done|done|rewrite length_app; cbn; lia|]. exists b'. split; [done|]. split; [done|]. by rewrite Hv, <- app_assoc.
Qed.

Lemma until_null_table l t : until_null (map Some l ++ None :: t) = Ok l.
Proof. induction l as [|s l IH]; cbn; [done|]. by rewrite IH. Qed.

(** An argument from before init= can survive it: init_setup clears the slots below
    MAX_INIT_ARGS and not the last one, so when the table was full before init=, and
    as many arguments follow as slots were cleared, init is started with the last of
    the earlier arguments after its own, without any warning. *)
Theorem init_setup_keeps_stale a0 args stale envs news cmd b :
  represents b (a0 :: args ++ [stale], envs) -> length args = (MAX_INIT_ARGS - 1)%nat ->
  length news = (MAX_INIT_ARGS - 1)%nat -> Forall (fun m => piece_ok m None /\ ordinary m None = true) news ->
  exists b', deliver_all (map (fun m => Before m None) news) (init_setup (Some cmd) b).2 = Ok b' /\
    panic_later b' = None /\ until_null (drop 1 (argv_init b')) = Ok (map cstr news ++ [stale]).
Proof.
  intros (Hn & Ha & _ & Hva & _) Hl Hnews Hok. pose proof max_init_args. cbn [fst snd] in *.
  destruct (deliver_args news (init_setup (Some cmd) b).2 [a0] 0 [Some stale; None]) as (b' & -> & Hb' & Hv);
    [done| |cbn; lia|done|].
  - cbn [init_setup snd argv_init upd_argv upd_commands]. rewrite Hva. cbn [length]. rewrite length_app. cbn [length].
    replace (MAX_INIT_ARGS + 2 - S (length args + 1))%nat with 1%nat by lia.
    rewrite clear_full by done. by rewrite Hnews, Nat.add_0_r.
  - exists b'. split; [done|]. split; [done|]. rewrite Hv. unfold table. cbn [app map drop replicate]. rewrite drop_0.
    change [Some stale; None] with (map Some [stale] ++ [None]). rewrite app_assoc, <- map_app. apply until_null_table.
Qed.
End stale.

(** ** A concrete kernel *)

(** Three argument slots, no other setup functions, and parameters that compare as bytes. *)
Definition demo_boot : BootEnv.
Proof.
  refine {| MAX_INIT_ARGS := 3; sysctl_is_alias := fun _ => false; parameqn := strn_eq; parameq := str_eq;
            get_option := fun _ => None; kstrtobool := fun _ => (- EINVAL, false); arch_parse_debug_rodata := fun _ => false;
            memblock_alloc := fun _ _ => true; setup_before := []; setup_after := [] |}.
  - lia.
  - constructor.
Defined.

Definition word (s : list Z) : list Z := s ++ [0].

Definition demo_init : InitEnv.
Proof.
  refine {| parse_args := fun line => ([(word (cstr line), None)], None); known_param := fun _ => false;
            report_alloc := fun _ => true; init_eaccess := fun _ => - ENOENT; CONFIG_DEFAULT_INIT := [];
            kernel_execve := fun f _ _ => if str_eq f (lit "/bin/sh") then 0 else - ENOENT |}.
  intros line. constructor; [|constructor]. split; [|done]. apply (terminated_end (cstr line) []), cstr_is_str.
Defined.

Definition demo_options : list init_option :=
  [Before (word (lit "single")) None; Before (word (lit "TERM") ++ word (lit "vt100")) (Some 5%nat);
   Before (word (lit "LANG") ++ word (34 :: lit "es GT")) (Some 6%nat); After (word (lit "-v")) None].

(** These options are delivered as the specification says. *)
Example demo_delivery :
  spec_options (E := demo_boot) demo_options ([lit "init"], [lit "HOME=/"; lit "TERM=linux"]) =
  Some ([lit "init"; lit "single"; lit "-v"], [lit "HOME=/"; lit "TERM=vt100"; lit "LANG=es GT"]).
Proof. reflexivity. Qed.

Lemma command_line_delivered_witness :
  exists rep b', start_kernel_args (E := demo_boot) (I := demo_init) (lit "single") (Some (lit "x")) (boot_start (E := demo_boot) 7 true)
                 = Ok (rep, b') /\
    represents (E := demo_boot) b' ([lit "init"; lit "single"; lit "x"], [lit "HOME=/"; lit "TERM=linux"]).
Proof.
  apply (command_line_delivered (E := demo_boot) (I := demo_init) (lit "single") (Some (lit "x")) (boot_start (E := demo_boot) 7 true)
           ([lit "init"], [lit "HOME=/"; lit "TERM=linux"])).
  - repeat split; cbn; lia || done.
  - by repeat constructor.
Defined.

Lemma init_choice_witness :
  exists b', kernel_init_exec (I := demo_init) (boot_start (E := demo_boot) 7 true) = Ok (lit "/bin/sh", b') /\
    gets (E := demo_boot) b' [] [lit "HOME=/"; lit "TERM=linux"].
Proof.
  apply (init_choice (E := demo_boot) (I := demo_init) (boot_start (E := demo_boot) 7 true) [] [lit "HOME=/"; lit "TERM=linux"]).
  split; [apply start_wf|]. by repeat split.
Defined.

Lemma init_setup_keeps_stale_witness :
  exists b', deliver_all (E := demo_boot) (map (fun m => Before m None) [word (lit "x"); word (lit "y")])
      (init_setup (E := demo_boot) (Some (lit "/bin/sh"))
         (upd_argv [Some (lit "init"); Some (lit "auto"); Some (lit "old"); Some (lit "stale"); None]
            (boot_start (E := demo_boot) 7 true))).2 = Ok b' /\
    panic_later b' = None /\ until_null (drop 1 (argv_init b')) = Ok [lit "x"; lit "y"; lit "stale"].
Proof.
  apply (init_setup_keeps_stale (E := demo_boot) (lit "init") [lit "auto"; lit "old"] (lit "stale")
           [lit "HOME=/"; lit "TERM=linux"] [word (lit "x"); word (lit "y")]).
  - repeat split; cbn; lia || done.
  - done.
  - done.
  - repeat constructor; vm_compute; lia.
Defined.
