(* ===== verification/BootConfig.v ===== *)
(** * Boot configuration and the saved command line (init/main.c)

    The configuration a boot loader may append to the initial ramdisk, its keys as
    extra command line, and the copies of the command line the kernel keeps.  The
    ramdisk is memory by address; buffers are byte lists and a store outside one is
    an outcome of its own.  The configuration parser (lib/bootconfig.c), the checksum
    and the boot allocator are parameters. *)
From Stdlib Require Import String.
From S2P Require Import Prelude CString BootArgs BootInit.
Local Open Scope kernel_scope.

Definition BOOTCONFIG_MAGIC : list Z := lit "#BOOTCONFIG" ++ [10].
Definition BOOTCONFIG_MAGIC_LEN := 12.
Definition XBC_DATA_MAX := 32767.

(** A key of the configuration: its composed name or an error, and its values, if it
    has a value node. *)
Definition xbc_item : Type := (Z + list Z) * option (list (list Z)).

Class ConfigEnv := {
  xbc_calc_checksum : list Z -> Z;
  embedded_bootconfig : option (list Z);
  xbc_init : list Z -> Z;                                  (** negative on a parse error *)
  xbc_find_node : list Z -> list Z -> option (list xbc_item);   (** configuration, key *)
  config_alloc : nat -> bool;
  BOOT_CONFIG_FORCE : bool
}.

Section config.
Context {C : ConfigEnv}.

(** ** The configuration at the end of the ramdisk *)

Definition bytes_at (mem : Z -> Z) (a : Z) (n : nat) : list Z := map (fun i => mem (a + Z.of_nat i)) (seq 0 n).

(** The loop that looks for the magic word, [n] positions downwards from [data]. *)
Fixpoint find_magic (mem : Z -> Z) (n : nat) (data : Z) : option Z :=
  match n with
  | O => None
  | S n' => if str_eq (bytes_at mem data 12) BOOTCONFIG_MAGIC then Some data else find_magic mem n' (data - 1)
  end.

(** Address and size of the configuration, and the new initrd_end. *)
Definition get_boot_config_from_initrd (mem : Z -> Z) (initrd_start initrd_end : Z) : option (Z * Z) * Z :=
  if initrd_end =? 0 then (None, initrd_end)
  else match find_magic mem 4 (initrd_end - BOOTCONFIG_MAGIC_LEN) with
       | None => (None, initrd_end)
       | Some data =>
           let hdr := data - 8 in
           let size := le_val (bytes_at mem hdr 4) in
           let csum := le_val (bytes_at mem (hdr + 4) 4) in
           let data := u64 (hdr - size) in
           if data <? initrd_start then (None, initrd_end)
           else if negb (xbc_calc_checksum (bytes_at mem data (Z.to_nat size)) =? csum) then (None, initrd_end)
           else (Some (data, size), data)
       end.

(** ** Keys as a command line *)

(** [snprintf] of the text [s] at offset [pos] of a buffer of [length buf] bytes. *)
Definition snprintf_at (buf : list Z) (pos : nat) (s : list Z) : result (list Z) :=
  if (pos <? length buf)%nat then store buf pos (take (length buf - pos - 1) s ++ [0]) else Ok buf.

(** One value: [name="value" ]. *)
Definition quoted (name val : list Z) : list Z := name ++ [61; 34] ++ val ++ [34; 32].

Fixpoint print_values (name : list Z) (vals : list (list Z)) (buf : list Z) (pos : nat) : result (list Z * nat) :=
  match vals with
  | [] => Ok (buf, pos)
  | v :: vals' =>
      let? buf := snprintf_at buf pos (quoted name v) in print_values name vals' buf (pos + length (quoted name v))
  end.

(** An error number, or the length of the text and the buffer. *)
Fixpoint snprint_loop (items : list xbc_item) (buf : list Z) (pos : nat) : result (Z + nat * list Z) :=
  match items with
  | [] => Ok (inr (pos, buf))
  | (inl ret, _) :: _ => Ok (inl ret)
  | (inr name, None) :: items' =>
      let? buf := snprintf_at buf pos (name ++ [32]) in snprint_loop items' buf (pos + length (name ++ [32]))
  | (inr name, Some vals) :: items' =>
      let? (buf, pos) := print_values name vals buf pos in snprint_loop items' buf pos
  end.

Definition xbc_snprint_cmdline (buf : list Z) (root : list xbc_item) : result (Z + nat * list Z) := snprint_loop root buf 0.

Definition xbc_make_cmdline (config key : list Z) : result (option (list Z)) :=
  match xbc_find_node config key with
  | None => Ok None
  | Some root =>
      let? len := xbc_snprint_cmdline [] root in
      match len with
      | inl _ => Ok None
      | inr (len, _) =>
          if (len =? 0)%nat then Ok None
          else if negb (config_alloc (len + 1)) then Ok None
          else
            let? ret := xbc_snprint_cmdline (replicate (len + 1) 0) root in
            match ret with
            | inl _ => Ok None
            | inr (ret, new_cmdline) => if (len <? ret)%nat then Ok None else Ok (Some new_cmdline)
            end
      end
  end.

(** ** The choice of a configuration *)

Record config := {
  initrd_end_ : Z; bootconfig_found : bool; initargs_offs : nat;
  extra_command_line : option (list Z); extra_init_args : option (list Z)
}.

Section setup.
Context {I : InitEnv}.

Definition bootconfig_params (param : list Z) (found : bool) : bool := if str_eq param (lit "bootconfig") then true else found.

Definition setup_boot_config (mem : Z -> Z) (initrd_start initrd_end : Z) (boot_command_line : list Z) : result config :=
  let '(found, end_) := get_boot_config_from_initrd mem initrd_start initrd_end in
  let data := match found with
              | Some (a, size) => Some (bytes_at mem a (Z.to_nat size))
              | None => embedded_bootconfig
              end in
  let '(pieces, err) := parse_args boot_command_line in
  let bootconfig_found := fold_left (fun f x => bootconfig_params (cstr x.1) f) pieces false in
  let none := {| initrd_end_ := end_; bootconfig_found := bootconfig_found; initargs_offs := 0;
                 extra_command_line := None; extra_init_args := None |} in
  if negb (bootconfig_found || BOOT_CONFIG_FORCE) then Ok none
  else
    let offs := match err with Some rest => (length boot_command_line - length rest)%nat | None => O end in
    let some x i := {| initrd_end_ := end_; bootconfig_found := bootconfig_found; initargs_offs := offs;
                       extra_command_line := x; extra_init_args := i |} in
    match data with
    | None => Ok (some None None)
    | Some data =>
        if XBC_DATA_MAX <=? Z.of_nat (length data) then Ok (some None None)
        else if xbc_init data <? 0 then Ok (some None None)
        else
          let? x := xbc_make_cmdline data (lit "kernel") in
          let? i := xbc_make_cmdline data (lit "init") in
          Ok (some x i)
    end.
End setup.

(** ** The saved command lines *)

Definition strcpy (buf : list Z) (off : nat) (s : list Z) : result (list Z) := or_overrun (strcpy_at buf off s).

(** saved_command_line and static_command_line. *)
Definition setup_command_line (boot_command_line command_line : list Z) (c : config) : result (list Z * list Z) :=
  let xlen := match extra_command_line c with Some x => strlen x | None => O end in
  let ilen := match extra_init_args c with Some i => (strlen i + 4)%nat | None => O end in
  let len := (xlen + strlen boot_command_line + 1)%nat in
  if negb (config_alloc (len + ilen)) then Panic
  else if negb (config_alloc len) then Panic
  else
    let saved := replicate (len + ilen) 0 in
    let static := replicate len 0 in
    let? (saved, static) :=
      match extra_command_line c with
      | Some x => if (xlen =? 0)%nat then Ok (saved, static)
                  else let? saved := strcpy saved 0 x in let? static := strcpy static 0 x in Ok (saved, static)
      | None => Ok (saved, static)
      end in
    let? saved := strcpy saved xlen boot_command_line in
    let? static := strcpy static xlen command_line in
    let? saved :=
      match extra_init_args c with
      | Some i =>
          if negb (initargs_offs c =? 0)%nat then
            let? saved := strcpy saved (xlen + initargs_offs c) i in
            strcpy saved (xlen + initargs_offs c + (ilen - 4)) (drop (initargs_offs c - 1) boot_command_line)
          else
            let len := strlen saved in
            let? saved := strcpy saved len (lit " -- ") in
            strcpy saved (len + 4) i
      | None => Ok saved
      end in
    Ok (saved, static).
End config.

(** ** Finding the configuration *)

Definition holds (mem : Z -> Z) (a : Z) (bs : list Z) : Prop := bytes_at mem a (length bs) = bs.

Lemma bytes_at_length mem a n : length (bytes_at mem a n) = n.
Proof. unfold bytes_at. by rewrite length_map, length_seq. Qed.

Lemma bytes_at_S mem a n : bytes_at mem a (S n) = mem a :: bytes_at mem (a + 1) n.
Proof.
  unfold bytes_at. cbn [seq map]. f_equal; [f_equal; lia|]. rewrite <- seq_shift, map_map.
  apply map_ext. intros i. f_equal. lia.
Qed.

Lemma bytes_at_app mem a n m : bytes_at mem a (n + m) = bytes_at mem a n ++ bytes_at mem (a + Z.of_nat n) m.
Proof.
  revert a. induction n as [|n IH]; intros a.
  - cbn [Nat.add]. rewrite Z.add_0_r. done.
  - cbn [Nat.add]. rewrite !bytes_at_S, IH. cbn [app]. do 3 f_equal. lia.
Qed.

Lemma holds_app mem a xs ys : holds mem a (xs ++ ys) -> holds mem a xs /\ holds mem (a + Z.of_nat (length xs)) ys.
Proof.
  unfold holds. rewrite length_app, bytes_at_app. intros H. by apply app_inj_1 in H; [|rewrite bytes_at_length].
Qed.

Lemma holds_lookup mem a bs i x : holds mem a bs -> bs !! i = Some x -> mem (a + Z.of_nat i) = x.
Proof.
  intros H Hi. unfold holds in H. rewrite <- H in Hi. unfold bytes_at in Hi. rewrite list_lookup_fmap in Hi.
  apply fmap_Some in Hi as (j & Hj & ->). apply lookup_seq in Hj as [-> _]. done.
Qed.

Lemma find_magic_range mem n data d : find_magic mem n data = Some d -> data - Z.of_nat n < d <= data.
Proof.
  revert data. induction n as [|n IH]; intros data H; [done|]. cbn [find_magic] in H. case_if_in H; [inversion H; lia|].
  apply IH in H. lia.
Qed.

(** Bytes after the magic word that are no line feeds are skipped. *)
Lemma find_magic_skip mem n k data : (k < n)%nat ->
  (forall i, (i < k)%nat -> mem (data + 11 - Z.of_nat i) <> 10) -> holds mem (data - Z.of_nat k) BOOTCONFIG_MAGIC ->
  find_magic mem n data = Some (data - Z.of_nat k).
Proof.
  revert k data. induction n as [|n IH]; intros k data Hk Hne Hm; [lia|]. cbn [find_magic]. destruct k as [|k].
  - rewrite Z.sub_0_r in *. unfold holds in Hm. cbn [length] in Hm. change (length BOOTCONFIG_MAGIC) with 12%nat in Hm.
    rewrite Hm. by destruct (str_eq_spec BOOTCONFIG_MAGIC BOOTCONFIG_MAGIC).
  - destruct (str_eq_spec (bytes_at mem data 12) BOOTCONFIG_MAGIC) as [Heq|_].
    + exfalso. apply (Hne 0%nat); [lia|]. rewrite Z.sub_0_r.
      apply (holds_lookup mem data BOOTCONFIG_MAGIC 11 10); [exact Heq|reflexivity].
    + replace (data - Z.of_nat (S k)) with (data - 1 - Z.of_nat k) in * by lia. apply IH; [lia| |done].
      intros i Hi. specialize (Hne (S i) ltac:(lia)). by replace (data - 1 + 11 - Z.of_nat i) with (data + 11 - Z.of_nat (S i)) by lia.
Qed.

Section find.
Context {C : ConfigEnv}.

(** What a boot loader or the bootconfig tool leaves in memory: the ramdisk, the
    configuration, its size and checksum, the magic word, and alignment bytes. *)
Definition appended (initrd data pad : list Z) : list Z :=
  initrd ++ data ++ le_bytes 4 (Z.of_nat (length data)) ++ le_bytes 4 (xbc_calc_checksum data) ++ BOOTCONFIG_MAGIC ++ pad.

(** Round trip of the boot configuration: a configuration appended to the ramdisk
    with its size, checksum and magic word, and up to three alignment bytes that are
    no line feeds, is found: the function answers exactly its address and size, and
    the ramdisk ends again where it did before. *)
Theorem bootconfig_roundtrip mem start initrd data pad :
  holds mem start (appended initrd data pad) ->
  0 < start -> start + Z.of_nat (length (appended initrd data pad)) < 2 ^ 64 ->
  Z.of_nat (length data) < 2 ^ 32 -> is_u 32 (xbc_calc_checksum data) ->
  (length pad <= 3)%nat -> Forall (fun b => b <> 10) pad ->
  get_boot_config_from_initrd mem start (start + Z.of_nat (length (appended initrd data pad))) =
  (Some (start + Z.of_nat (length initrd), Z.of_nat (length data)), start + Z.of_nat (length initrd)).
Proof.
  intros Hmem H0 H64 H32 Hc Hp Hne. unfold appended in *.
  apply holds_app in Hmem as [_ Hmem]. set (d := start + Z.of_nat (length initrd)) in *.
  apply holds_app in Hmem as [Hd Hmem]. apply holds_app in Hmem as [Hs Hmem]. apply holds_app in Hmem as [Hk Hmem].
  apply holds_app in Hmem as [Hm Hpad]. rewrite !le_bytes_length in *.
  rewrite !length_app, !le_bytes_length in *. change (length BOOTCONFIG_MAGIC) with 12%nat in *.
  set (n := length data) in *. set (h := d + Z.of_nat n) in *. unfold get_boot_config_from_initrd.
  set (e := start + _). assert (He : e = h + 20 + Z.of_nat (length pad)) by (subst e h d; lia).
  destruct (Z.eqb_spec e 0); [lia|]. unfold BOOTCONFIG_MAGIC_LEN.
  rewrite (find_magic_skip mem 4 (length pad)); [|lia| |].
  - replace (e - 12 - Z.of_nat (length pad) - 8) with h by lia. cbv zeta.
    unfold holds in Hs, Hk, Hd. rewrite !le_bytes_length in *. rewrite Hs.
    replace (h + 4) with (h + Z.of_nat 4) by lia. rewrite Hk, !le_val_u32 by (done || split; lia).
    replace (h - Z.of_nat n) with d by lia. rewrite wrapU_id by (split; lia).
    destruct (Z.ltb_spec d start); [lia|]. rewrite Nat2Z.id. fold n in Hd. rewrite Hd, Z.eqb_refl. done.
  - intros i Hi. destruct (lookup_lt_is_Some_2 pad (length pad - 1 - i)) as [x Hx]; [lia|].
    rewrite Forall_lookup in Hne. specialize (Hne _ _ Hx). pose proof (holds_lookup _ _ _ _ _ Hpad Hx) as Hb.
    replace (e - 12 + 11 - Z.of_nat i) with (h + Z.of_nat 4 + Z.of_nat 4 + Z.of_nat 12 + Z.of_nat (length pad - 1 - i)) by lia.
    by rewrite Hb.
  - replace (e - 12 - Z.of_nat (length pad)) with (h + Z.of_nat 4 + Z.of_nat 4) by lia. done.
Qed.

(** Whatever the ramdisk contains, what is taken lies inside it, before the header. *)
Lemma bootconfig_inside mem start end_ data size e' :
  (forall a, 0 <= mem a < 256) -> 2 ^ 33 <= start <= end_ -> end_ < 2 ^ 64 ->
  get_boot_config_from_initrd mem start end_ = (Some (data, size), e') ->
  e' = data /\ start <= data /\ data + size + 8 + BOOTCONFIG_MAGIC_LEN <= end_ /\ 0 <= size.
Proof.
  intros Hb Hs He H. unfold get_boot_config_from_initrd in H. case_if_in H; [done|].
  destruct (find_magic mem 4 (end_ - BOOTCONFIG_MAGIC_LEN)) as [d|] eqn:Hf; [|done]. cbv zeta in H.
  apply find_magic_range in Hf. unfold BOOTCONFIG_MAGIC_LEN in *.
  assert (Hr : 0 <= le_val (bytes_at mem (d - 8) 4) < 2 ^ 32).
  { pose proof (le_val_range (bytes_at mem (d - 8) 4)) as Hr. rewrite bytes_at_length in Hr. apply Hr.
    apply Forall_forall. intros x Hx. apply list_elem_of_fmap in Hx as (i & -> & _). apply Hb. }
  rewrite wrapU_id in H by (split; lia).
  set (n := le_val (bytes_at mem (d - 8) 4)) in *. clearbody n.
  destruct (Z.ltb_spec (d - 8 - n) start); [done|]. case_if_in H; [done|]. injection H as <- <- <-. lia.
Qed.
End find.

(** ** The text of a configuration *)

(** Keys with a name print; an error stops the printing. *)
Definition item_text (name : list Z) (vals : option (list (list Z))) : list Z :=
  match vals with None => name ++ [32] | Some vs => concat (map (quoted name) vs) end.

Fixpoint items_text (items : list xbc_item) : option (list Z) :=
  match items with
  | [] => Some []
  | (inl _, _) :: _ => None
  | (inr name, vals) :: items' => (app (item_text name vals)) <$> items_text items'
  end.

Lemma snprintf_fits p q s : (length s < length q)%nat ->
  exists q', snprintf_at (p ++ q) (length p) s = Ok ((p ++ s) ++ 0 :: q') /\ length q = (length s + S (length q'))%nat.
Proof.
  intros H. unfold snprintf_at. rewrite length_app. destruct (Nat.ltb_spec (length p) (length p + length q)); [|lia].
  rewrite take_ge by lia. unfold store. rewrite write_at_app by (rewrite length_app; cbn; lia). cbn [or_overrun].
  exists (drop (length (s ++ [0])) q). split; [by rewrite <- !app_assoc|]. rewrite length_drop, length_app. cbn. lia.
Qed.

(** Printing texts that fit into a buffer whose next byte is the terminator. *)
Lemma print_values_fit name vals p q : (length (concat (map (quoted name) vals)) < S (length q))%nat ->
  exists q', print_values name vals (p ++ 0 :: q) (length p) =
               Ok ((p ++ concat (map (quoted name) vals)) ++ 0 :: q', length (p ++ concat (map (quoted name) vals))) /\
    length q = (length (concat (map (quoted name) vals)) + length q')%nat.
Proof.
  revert p q. induction vals as [|v vals IH]; intros p q Hq; cbn [print_values map concat].
  - exists q. by rewrite app_nil_r.
  - cbn [map concat] in Hq. rewrite length_app in Hq.
    destruct (snprintf_fits p (0 :: q) (quoted name v)) as (r & -> & Hr); [cbn [length]; lia|]. cbn [rbind length] in *.
    rewrite <- length_app. destruct (IH (p ++ quoted name v) r) as (q' & -> & Hl); [lia|].
    exists q'. rewrite <- !app_assoc. split; [done|]. rewrite length_app. lia.
Qed.

Lemma snprint_loop_fit items p q t : items_text items = Some t -> (length t < S (length q))%nat ->
  exists q', snprint_loop items (p ++ 0 :: q) (length p) = Ok (inr (length (p ++ t), (p ++ t) ++ 0 :: q')) /\
    length q = (length t + length q')%nat.
Proof.
  revert p q t. induction items as [|[[e|name] vals] items IH]; intros p q t Ht Hq; cbn [items_text] in Ht; [|done|].
  - injection Ht as <-. exists q. cbn. by rewrite app_nil_r.
  - destruct (items_text items) as [r|]; [|done]. injection Ht as <-. rewrite length_app in Hq. cbn [snprint_loop].
    destruct vals as [vs|]; cbn [item_text] in *.
    + destruct (print_values_fit name vs p q) as (q1 & -> & H1); [lia|]. cbn [rbind].
      destruct (IH (p ++ concat (map (quoted name) vs)) q1 r eq_refl) as (q' & -> & Hl); [lia|].
      exists q'. rewrite <- !app_assoc. split; [done|]. rewrite length_app. lia.
    + destruct (snprintf_fits p (0 :: q) (name ++ [32])) as (q1 & -> & H1); [cbn [length]; lia|]. cbn [rbind length] in *.
      rewrite <- (length_app p). destruct (IH (p ++ name ++ [32]) q1 r eq_refl) as (q' & -> & Hl); [lia|].
      exists q'. rewrite <- !app_assoc. split; [done|]. rewrite !length_app in *. cbn [length] in *. lia.
Qed.

(** The counting pass writes nothing and measures the same text. *)
Lemma print_values_count name vals pos :
  print_values name vals [] pos = Ok ([], (pos + length (concat (map (quoted name) vals)))%nat).
Proof.
  revert pos. induction vals as [|v vals IH]; intros pos; cbn [print_values map concat]; [by rewrite Nat.add_0_r|].
  unfold snprintf_at. cbn [length]. destruct (Nat.ltb_spec pos 0); [lia|]. cbn [rbind]. rewrite IH, length_app. do 2 f_equal. lia.
Qed.

Lemma snprint_loop_count items pos :
  match items_text items with
  | Some t => snprint_loop items [] pos = Ok (inr ((pos + length t)%nat, []))
  | None => exists e, snprint_loop items [] pos = Ok (inl e)
  end.
Proof.
  revert pos. induction items as [|[[e|name] vals] items IH]; intros pos; cbn [items_text snprint_loop].
  - by rewrite Nat.add_0_r.
  - by eexists.
  - destruct vals as [vs|]; cbn [item_text].
    + rewrite print_values_count. cbn [rbind]. specialize (IH (pos + length (concat (map (quoted name) vs)))%nat).
      destruct (items_text items); cbn; [|done]. rewrite IH, length_app. do 3 f_equal. lia.
    + unfold snprintf_at. cbn [length]. destruct (Nat.ltb_spec pos 0); [lia|]. cbn [rbind].
      specialize (IH (pos + length (name ++ [32%Z]))%nat).
      destruct (items_text items); cbn; [|done]. rewrite IH, !length_app. do 3 f_equal. cbn [length]. lia.
Qed.

Section text.
Context {C : ConfigEnv}.

(** The two passes over the configuration agree: xbc_make_cmdline never writes outside
    the buffer it sized in its first pass, and answers a buffer exactly when the key
    exists, every name below it can be composed, there is something to print and
    memory for it; the buffer then holds the whole text, each key followed by a space
    and each value in quotes, and its terminator, and not a byte more. *)
Theorem xbc_cmdline_exact config key :
  xbc_make_cmdline config key =
  Ok match xbc_find_node config key ≫= items_text with
     | Some t => if negb (length t =? 0)%nat && config_alloc (length t + 1) then Some (t ++ [0]) else None
     | None => None
     end.
Proof.
  unfold xbc_make_cmdline. destruct (xbc_find_node config key) as [items|] eqn:Hf; [|done].
  unfold xbc_snprint_cmdline. cbn [mbind option_bind]. pose proof (snprint_loop_count items 0) as Hc.
  destruct (items_text items) as [t|] eqn:Ht; [|destruct Hc as [e ->]; done]. rewrite Hc. cbn [rbind Nat.add].
  destruct (length t =? 0)%nat; [done|]. cbn [negb andb]. destruct (config_alloc (length t + 1)); [|done]. cbn [negb].
  rewrite Nat.add_1_r. cbn [replicate].
  destruct (snprint_loop_fit items [] (replicate (length t) 0) t Ht) as (q & Hq & Hl); [rewrite length_replicate; lia|].
  cbn [app length] in Hq. rewrite Hq. cbn [rbind]. destruct (Nat.ltb_spec (length t) (length t)); [lia|].
  rewrite length_replicate in Hl. destruct q; [done|cbn in Hl; lia].
Qed.
End text.

(** ** The saved command lines *)

Lemma strcpy_app p q s : is_str s -> (length s < length q)%nat ->
  exists q', strcpy (p ++ q) (length p) s = Ok ((p ++ s) ++ 0 :: q') /\ length q = (length s + S (length q'))%nat.
Proof.
  intros Hs H. unfold strcpy, strcpy_at. rewrite cstr_str by done. rewrite write_at_app by (rewrite length_app; cbn; lia).
  cbn [or_overrun]. exists (drop (length (s ++ [0])) q). split; [by rewrite <- !app_assoc|].
  rewrite length_drop, length_app. cbn. lia.
Qed.

Lemma strcpy_start q s : is_str s -> (length s < length q)%nat ->
  exists q', strcpy q 0 s = Ok (s ++ 0 :: q') /\ length q = (length s + S (length q'))%nat.
Proof. intros Hs H. exact (strcpy_app [] q s Hs H). Qed.

Section lines.
Context {C : ConfigEnv}.

(** What saved_command_line must read. *)
Definition saved_text (boot_line : list Z) (c : config) : list Z :=
  default [] (extra_command_line c) ++
  match extra_init_args c with
  | None => boot_line
  | Some i =>
      match initargs_offs c with
      | O => boot_line ++ lit " -- " ++ i
      | S n => take (S n) boot_line ++ i ++ drop n boot_line
      end
  end.

Definition config_ok (boot_line : list Z) (c : config) : Prop :=
  is_str boot_line /\ is_str (default [] (extra_command_line c)) /\ is_str (default [] (extra_init_args c)) /\
  (initargs_offs c <= length boot_line)%nat.

(** The buffers after the extra command line and the boot command line. *)
Lemma lines_start x boot_line n : is_str x -> is_str boot_line -> (length x + length boot_line < n)%nat ->
  exists q, (let? b := (if (length x =? 0)%nat then Ok (replicate n 0) else strcpy (replicate n 0) 0 x) in
             strcpy b (length x) boot_line) = Ok ((x ++ boot_line) ++ 0 :: q) /\
    n = (length x + length boot_line + S (length q))%nat.
Proof.
  intros Hx Hb Hn. destruct (Nat.eqb_spec (length x) 0) as [H0|H0].
  - apply length_zero_iff_nil in H0 as ->. cbn [rbind length app] in *.
    destruct (strcpy_start (replicate n 0) boot_line Hb) as (q & -> & Hq); rewrite length_replicate in *; [lia|]. by exists q.
  - destruct (strcpy_start (replicate n 0) x Hx) as (q & -> & Hq); rewrite length_replicate in *; [lia|]. cbn [rbind].
    destruct (strcpy_app x (0 :: q) boot_line Hb) as (q' & -> & Hq'); [cbn; lia|]. exists q'. split; [done|]. cbn in Hq'. lia.
Qed.

(** Both buffers, with the extra command line copied only when there is one. *)
Lemma extra_copied (ex : option (list Z)) (bufa bufb linea lineb ra rb : list Z)
    (k : list Z -> list Z -> result (list Z * list Z)) :
  let x := default [] ex in
  (let? b := (if (length x =? 0)%nat then Ok bufa else strcpy bufa 0 x) in strcpy b (length x) linea) = Ok ra ->
  (let? b := (if (length x =? 0)%nat then Ok bufb else strcpy bufb 0 x) in strcpy b (length x) lineb) = Ok rb ->
  (let? (saved, static) :=
     match ex with
     | Some x0 => if (length x =? 0)%nat then Ok (bufa, bufb)
                  else let? saved := strcpy bufa 0 x0 in let? static := strcpy bufb 0 x0 in Ok (saved, static)
     | None => Ok (bufa, bufb)
     end in
   let? saved := strcpy saved (length x) linea in
   let? static := strcpy static (length x) lineb in k saved static) = k ra rb.
Proof.
  intros x Ha Hb. destruct ex as [x0|]; unfold from_option, id in x; subst x.
  - destruct (length x0 =? 0)%nat; cbn [rbind] in *; [by rewrite Ha; cbn [rbind]; rewrite Hb|].
    destruct (strcpy bufa 0 x0), (strcpy bufb 0 x0); cbn [rbind] in *; try done. by rewrite Ha; cbn [rbind]; rewrite Hb.
  - cbn in Ha, Hb |- *. by rewrite Ha; cbn [rbind]; rewrite Hb.
Qed.

Lemma append_args boot_line x i off q :
  is_str x -> is_str boot_line -> is_str i -> (off <= length boot_line)%nat -> (length i + 4 <= length q)%nat ->
  exists q',
    (if negb (off =? 0)%nat then
       let? saved := strcpy ((x ++ boot_line) ++ 0 :: q) (length x + off) i in
       strcpy saved (length x + off + (length i + 4 - 4)) (drop (off - 1) boot_line)
     else
       let len := strlen ((x ++ boot_line) ++ 0 :: q) in
       let? saved := strcpy ((x ++ boot_line) ++ 0 :: q) len (lit " -- ") in
       strcpy saved (len + 4) i) =
    Ok ((x ++ match off with
              | O => boot_line ++ lit " -- " ++ i
              | S n => take (S n) boot_line ++ i ++ drop n boot_line
              end) ++ 0 :: q').
Proof.
  intros Hx Hb Hi Ho Hq. destruct off as [|n]; cbn [Nat.eqb negb].
  - rewrite strlen_end by (by apply Forall_app). cbv zeta.
    destruct (strcpy_app (x ++ boot_line) (0 :: q) (lit " -- ")) as (r & -> & Hr); [by repeat constructor|cbn; lia|]. cbn [rbind].
    change 4%nat with (length (lit " -- ")) at 1. rewrite <- length_app.
    destruct (strcpy_app ((x ++ boot_line) ++ lit " -- ") (0 :: r) i Hi) as (r' & -> & _); [cbn in *; lia|].
    exists r'. by rewrite <- !app_assoc.
  - rewrite Nat.add_sub. replace (S n - 1)%nat with n by lia.
    replace ((x ++ boot_line) ++ 0 :: q) with ((x ++ take (S n) boot_line) ++ drop (S n) boot_line ++ 0 :: q)
      by (by rewrite <- !app_assoc, (app_assoc (take _ _)), take_drop).
    replace (length x + S n)%nat with (length (x ++ take (S n) boot_line)) by (rewrite length_app, length_take; lia).
    destruct (strcpy_app (x ++ take (S n) boot_line) (drop (S n) boot_line ++ 0 :: q) i Hi) as (r & -> & Hr);
      [rewrite length_app, length_drop; cbn; lia|]. cbn [rbind]. rewrite <- length_app.
    rewrite length_app, length_drop in Hr. cbn [length] in Hr.
    destruct (strcpy_app ((x ++ take (S n) boot_line) ++ i) (0 :: r) (drop n boot_line)) as (r' & -> & _);
      [by apply Forall_drop|rewrite length_drop; cbn; lia|]. exists r'. by rewrite <- !app_assoc.
Qed.

(** The kept command lines are exact and fit: setup_command_line writes only inside its
    two allocations; the parsed line is the extra command line of the configuration
    followed by the line of the boot loader, and the saved line additionally shows
    the extra arguments for init after the dashes, before the boot loader's own. *)
Theorem command_lines_exact boot_line command_line c :
  config_ok boot_line c -> is_str command_line -> (length command_line <= length boot_line)%nat ->
  (forall n, config_alloc n = true) ->
  exists saved static, setup_command_line boot_line command_line c = Ok (saved, static) /\
    cstr saved = saved_text boot_line c /\ cstr static = default [] (extra_command_line c) ++ command_line /\
    terminated saved /\ terminated static.
Proof.
  intros (Hb & Hx & Hi & Ho) Hc Hl Ha. unfold setup_command_line. rewrite !Ha. cbn [negb]. rewrite (strlen_str boot_line) by done.
  set (x := default [] (extra_command_line c)) in *.
  replace (match extra_command_line c with Some x => strlen x | None => O end) with (length x)
    by (subst x; destruct (extra_command_line c); cbn in *; [by rewrite strlen_str|done]).
  set (ilen := match extra_init_args c with Some i => _ | None => O end).
  set (len := (length x + length boot_line + 1)%nat). cbv zeta.
  destruct (lines_start x boot_line (len + ilen) Hx Hb) as (q & Hq & Hlq); [lia|].
  destruct (lines_start x command_line len Hx Hc) as (r & Hr & Hlr); [lia|].
  assert (Hfin : forall saved, saved = saved_text boot_line c -> is_str saved).
  { intros saved ->. unfold saved_text. apply Forall_app. split; [done|]. destruct (extra_init_args c) as [i|]; [|done]. cbn in Hi.
    destruct (initargs_offs c); repeat (apply Forall_app; split); try done; [by repeat constructor|by apply Forall_take|by apply Forall_drop]. }
  assert (Hst : is_str (x ++ command_line)) by (by apply Forall_app).
  pose proof (fun k => extra_copied (extra_command_line c) _ _ _ _ _ _ k Hq Hr) as Hpre. cbv zeta in Hpre. fold x in Hpre.
  rewrite Hpre. clear Hpre.
  unfold saved_text in *. fold x. subst ilen.
  destruct (extra_init_args c) as [i|]; cbn [default] in Hi.
  - rewrite (strlen_str i) in * by done.
    destruct (append_args boot_line x i (initargs_offs c) q Hx Hb Hi Ho) as (q' & Hq'); [lia|].
    cbv zeta in Hq'. rewrite Hq'. cbn [rbind].
    eexists _, _. split; [done|]. specialize (Hfin _ eq_refl). fold x in Hfin.
    rewrite !cstr_end by done. split; [done|]. split; [done|]. by split; apply terminated_end.
  - cbn [rbind]. eexists _, _. split; [done|]. specialize (Hfin _ eq_refl). fold x in Hfin.
    rewrite !cstr_end by done. split; [done|]. split; [done|]. by split; apply terminated_end.
Qed.
End lines.

(** A boot loader line that ends in the dashes leaves no separator: the parser then
    answers the end of the line, the extra arguments follow the dashes directly, and the
    last dash is repeated after them. *)
Lemma trailing_dashes boot_line c i n : extra_init_args c = Some i -> boot_line = n ++ lit "--" ->
  initargs_offs c = length boot_line ->
  saved_text boot_line c = default [] (extra_command_line c) ++ n ++ lit "--" ++ i ++ lit "-".
Proof.
  intros Hi -> Ho. unfold saved_text. rewrite Hi, Ho, length_app. cbn [length lit]. rewrite Nat.add_comm. cbn [Nat.add].
  rewrite take_ge by (rewrite length_app; cbn; lia). rewrite <- (Nat.add_1_r (length n)), drop_past.
  by rewrite <- !app_assoc.
Qed.

(** ** Concrete lines *)

Definition demo_config_env : ConfigEnv :=
  {| xbc_calc_checksum := fun l => u32 (fold_right Z.add 0 l); embedded_bootconfig := None; xbc_init := fun _ => 0;
     xbc_find_node := fun _ _ => Some [(inr (lit "init.v"), Some [lit "1"])]; config_alloc := fun _ => true;
     BOOT_CONFIG_FORCE := false |}.

Definition demo_ramdisk : list Z := appended (C := demo_config_env) [7; 7; 7] (lit "kernel.quiet") [0; 0].
Definition demo_mem (a : Z) : Z := nth (Z.to_nat (a - 4096)) demo_ramdisk 0.

Lemma bootconfig_roundtrip_witness :
  get_boot_config_from_initrd (C := demo_config_env) demo_mem 4096 (4096 + Z.of_nat (length demo_ramdisk)) =
  (Some (4096 + 3, 12), 4096 + 3).
Proof.
  apply (bootconfig_roundtrip (C := demo_config_env) demo_mem 4096 [7; 7; 7] (lit "kernel.quiet") [0; 0]).
  - reflexivity.
  - lia.
  - vm_compute. reflexivity.
  - vm_compute. reflexivity.
  - split; [vm_compute; discriminate|vm_compute; reflexivity].
  - cbn. lia.
  - repeat constructor; discriminate.
Defined.

Definition demo_config : config :=
  {| initrd_end_ := 0; bootconfig_found := true; initargs_offs := 10; extra_command_line := Some (lit "quiet ");
     extra_init_args := Some (lit "-b ") |}.

Lemma command_lines_exact_witness :
  exists saved static,
    setup_command_line (C := demo_config_env) (lit "root=X -- -v") (lit "root=X -- -v") demo_config = Ok (saved, static) /\
    cstr saved = lit "quiet root=X -- -b  -v" /\ cstr static = lit "quiet root=X -- -v" /\ terminated saved /\ terminated static.
Proof.
  apply (command_lines_exact (C := demo_config_env) (lit "root=X -- -v") (lit "root=X -- -v") demo_config).
  - split; [by repeat constructor|]. split; [by repeat constructor|]. split; [by repeat constructor|]. cbn. lia.
  - by repeat constructor.
  - done.
  - done.
Defined.
