(* ===== verification/Initcalls.v ===== *)
(** * Init calls (init/main.c)

    The init calls the linker collects, run level by level, each with the kernel
    parameters of its level parsed before it, guarded by a blacklist and repaired
    when they come back with a changed preemption count or interrupts off.  Events
    are logged newest first.  The calls themselves, their symbol names, the section
    with its level boundaries, the parser and the allocator are parameters. *)
From Stdlib Require Import String.
From S2P Require Import Prelude CString BootArgs.
Local Open Scope kernel_scope.

Inductive event :=
  | Traced (fn : nat)                           (** the debug line before a call *)
  | Called (fn : nat)
  | Returned (fn : nat) (ret : Z)               (** the debug line after a call *)
  | Warned (fn : nat) (msg : list Z)
  | Params (level : nat) (line : list Z)        (** parameters of a level parsed from this line *)
  | Constructed (c : nat).

Record kstate := {
  preempt_count : Z; irqs_disabled : bool; log : list event;
  cmdline_buf : option (list Z)                 (** the copy do_initcalls works on *)
}.

Class InitcallEnv := {
  blacklist : list (list Z);                    (** blacklisted_initcalls, newest first *)
  symbol_name : nat -> list Z;                  (** sprint_symbol_no_offset *)
  initcall_debug : bool;
  body : nat -> Z * bool -> Z * (Z * bool);     (** answer, new preemption count and interrupt state *)
  initcalls : list nat;                         (** the section from __initcall_start to __initcall_end *)
  initcall_levels : list nat;                   (** offsets of __initcall0_start .. __initcall7_start, __initcall_end *)
  ctors : list nat;
  scribble : nat -> list Z -> list Z;           (** what the parser makes of the line *)
  scribble_length : forall level l, length (scribble level l) = length l;
  kzalloc : nat -> bool
}.

Section initcalls.
Context {E : InitcallEnv}.

Definition add_log (e : event) (s : kstate) : kstate :=
  {| preempt_count := preempt_count s; irqs_disabled := irqs_disabled s; log := e :: log s; cmdline_buf := cmdline_buf s |}.
Definition set_cpu (p : Z) (i : bool) (s : kstate) : kstate :=
  {| preempt_count := p; irqs_disabled := i; log := log s; cmdline_buf := cmdline_buf s |}.
Definition set_buf (b : option (list Z)) (s : kstate) : kstate :=
  {| preempt_count := preempt_count s; irqs_disabled := irqs_disabled s; log := log s; cmdline_buf := b |}.

(** ** Constructors and the blacklist *)

Fixpoint run_ctors (cs : list nat) (s : kstate) : kstate :=
  match cs with [] => s | c :: cs' => run_ctors cs' (add_log (Constructed c) s) end.
Definition do_ctors (s : kstate) : kstate := run_ctors ctors s.

(** [strreplace(name, ' ', '\0')] and reading the string up to the first NUL. *)
Definition strip_module (name : list Z) : list Z := cstr (map (fun c => if c =? 32 then 0 else c) name).

Definition initcall_blacklisted (fn : nat) : bool :=
  match blacklist with
  | [] => false
  | _ => existsb (str_eq (strip_module (symbol_name fn))) blacklist
  end.

(** ** One call *)

Definition do_trace_initcall_start (fn : nat) (s : kstate) : kstate := if initcall_debug then add_log (Traced fn) s else s.
Definition do_trace_initcall_finish (fn : nat) (ret : Z) (s : kstate) : kstate :=
  if initcall_debug then add_log (Returned fn ret) s else s.

(** What follows a call: preemption count and interrupts are put back, with a warning. *)
Definition check_balance (fn : nat) (count : Z) (s : kstate) : kstate :=
  let msgbuf := [] in
  let '(msgbuf, s) :=
    if negb (preempt_count s =? count)
    then (lit "preemption imbalance ", set_cpu count (irqs_disabled s) s) else (msgbuf, s) in
  let '(msgbuf, s) :=
    if irqs_disabled s
    then (msgbuf ++ lit "disabled interrupts ", set_cpu (preempt_count s) false s) else (msgbuf, s) in
  if negb (str_eq msgbuf []) then add_log (Warned fn msgbuf) s else s.

Definition do_one_initcall (fn : nat) (s : kstate) : Z * kstate :=
  let count := preempt_count s in
  if initcall_blacklisted fn then (- EPERM, s)
  else
    let s := do_trace_initcall_start fn s in
    let '(ret, (p, i)) := body fn (preempt_count s, irqs_disabled s) in
    let s := set_cpu p i (add_log (Called fn) s) in
    let s := do_trace_initcall_finish fn ret s in
    (ret, check_balance fn count s).

Fixpoint run_calls (fns : list nat) (s : kstate) : kstate :=
  match fns with [] => s | fn :: fns' => run_calls fns' (do_one_initcall fn s).2 end.

(** ** Levels *)

(** The entries from offset [a] up to offset [b] of the section. *)
Definition section_part (a b : nat) : list nat := take (b - a) (drop a initcalls).

Definition level_start (i : nat) : nat := default (length initcalls) (initcall_levels !! i).

Definition do_pre_smp_initcalls (s : kstate) : kstate := run_calls (section_part 0 (level_start 0)) s.

Definition do_initcall_level (level : nat) (command_line : list Z) (s : kstate) : kstate :=
  let s := set_buf (Some (scribble level command_line)) (add_log (Params level (cstr command_line)) s) in
  run_calls (section_part (level_start level) (level_start (S level))) s.

Fixpoint levels_loop (levels : list nat) (saved_command_line : list Z) (s : kstate) : result kstate :=
  match levels with
  | [] => Ok s
  | level :: levels' =>
      match cmdline_buf s with
      | None => Bug
      | Some buf =>
          let? buf := or_overrun (strcpy_at buf 0 saved_command_line) in
          levels_loop levels' saved_command_line (do_initcall_level level buf s)
      end
  end.

(** The loop runs over all but the last entry of initcall_levels. *)
Definition do_initcalls (saved_command_line : list Z) (s : kstate) : result kstate :=
  let len := (strlen saved_command_line + 1)%nat in
  if negb (kzalloc len) then Panic
  else
    let? s := levels_loop (seq 0 (length initcall_levels - 1)) saved_command_line (set_buf (Some (replicate len 0)) s) in
    Ok (set_buf None s).

Definition do_basic_setup (saved_command_line : list Z) (s : kstate) : result kstate :=
  do_initcalls saved_command_line (do_ctors s).
End initcalls.

(** ** Order and repair *)

Section order.
Context {E : InitcallEnv}.

(** The calls in a log, oldest first. *)
Definition called (e : event) : list nat := match e with Called fn => [fn] | _ => [] end.
Definition calls_of (l : list event) : list nat := concat (map called (rev l)).
Definition param_of (e : event) : list (nat * list Z) := match e with Params n l => [(n, l)] | _ => [] end.
Definition params_of (l : list event) : list (nat * list Z) := concat (map param_of (rev l)).

Definition allowed (fns : list nat) : list nat := List.filter (fun fn => negb (initcall_blacklisted fn)) fns.

Lemma calls_of_cons e l : calls_of (e :: l) = calls_of l ++ called e.
Proof. unfold calls_of. cbn. rewrite map_app, concat_app. cbn. by rewrite app_nil_r. Qed.

Lemma params_of_cons e l : params_of (e :: l) = params_of l ++ param_of e.
Proof. unfold params_of. cbn. rewrite map_app, concat_app. cbn. by rewrite app_nil_r. Qed.

(** From [s] to [s'] exactly [fns] were called, and the processor state is as before
    but for interrupts, which are on after a call. *)
Definition ran (fns : list nat) (s s' : kstate) : Prop :=
  calls_of (log s') = calls_of (log s) ++ fns /\ params_of (log s') = params_of (log s) /\
  preempt_count s' = preempt_count s /\ (irqs_disabled s = false -> irqs_disabled s' = false) /\
  (fns <> [] -> irqs_disabled s' = false) /\ cmdline_buf s' = cmdline_buf s.

Lemma ran_nil s : ran [] s s.
Proof. unfold ran. rewrite app_nil_r. repeat split; auto. by intros []. Qed.

Lemma ran_app a b s s1 s2 : ran a s s1 -> ran b s1 s2 -> ran (a ++ b) s s2.
Proof.
  intros (A1 & A2 & A3 & A4 & A5 & A6) (B1 & B2 & B3 & B4 & B5 & B6). unfold ran.
  rewrite B1, A1, B2, A2, B3, A3, B6, A6, app_assoc. repeat split; auto.
  intros H. destruct b; [|by apply B5]. rewrite app_nil_r in H. auto.
Qed.

(** The debug lines and warnings are neither calls nor parsed parameters. *)
Definition quiet (s s' : kstate) : Prop :=
  calls_of (log s') = calls_of (log s) /\ params_of (log s') = params_of (log s) /\ cmdline_buf s' = cmdline_buf s.

Lemma quiet_log e s : called e = [] -> param_of e = [] -> quiet s (add_log e s).
Proof.
  intros Hc Hp. unfold quiet. cbn [add_log log cmdline_buf]. by rewrite calls_of_cons, params_of_cons, Hc, Hp, !app_nil_r.
Qed.

Lemma warn_quiet fn m s s' : quiet s s' ->
  let s2 := if negb (str_eq m []) then add_log (Warned fn m) s' else s' in
  quiet s s2 /\ preempt_count s2 = preempt_count s' /\ irqs_disabled s2 = irqs_disabled s'.
Proof.
  intros H. cbv zeta. destruct (negb (str_eq m [])); [|done]. split; [|done].
  destruct (quiet_log (Warned fn m) s') as (A1 & A2 & A3); [done|done|]. destruct H as (B1 & B2 & B3).
  split; [by rewrite A1|]. by rewrite A2, A3.
Qed.

Lemma check_balance_restores fn count s :
  quiet s (check_balance fn count s) /\ preempt_count (check_balance fn count s) = count /\
  irqs_disabled (check_balance fn count s) = false.
Proof.
  unfold check_balance. destruct (Z.eqb_spec (preempt_count s) count) as [Hp|Hp]; cbn [negb].
  - destruct (irqs_disabled s) eqn:Hi.
    + destruct (warn_quiet fn ([] ++ lit "disabled interrupts ") s (set_cpu (preempt_count s) false s)) as (A & -> & ->); done.
    + destruct (warn_quiet fn [] s s) as (A & -> & ->); done.
  - cbn [set_cpu irqs_disabled]. destruct (irqs_disabled s) eqn:Hi.
    + match goal with |- context [str_eq ?m []] => destruct (warn_quiet fn m s (set_cpu count false (set_cpu count true s))) as (A & B & D) end;
        [done|]. cbn [set_cpu preempt_count] in *. by rewrite B, D.
    + match goal with |- context [str_eq ?m []] => destruct (warn_quiet fn m s (set_cpu count false s)) as (A & B & D) end;
        [done|]. cbn [set_cpu preempt_count] in *. by rewrite B, D.
Qed.

Lemma one_initcall_ran fn s : ran (allowed [fn]) s (do_one_initcall fn s).2.
Proof.
  unfold allowed. cbn [List.filter]. unfold do_one_initcall.
  destruct (initcall_blacklisted fn); cbn [negb]; [apply ran_nil|].
  unfold do_trace_initcall_start, do_trace_initcall_finish.
  set (s0 := if initcall_debug then add_log (Traced fn) s else s).
  assert (Hs0 : quiet s s0) by (subst s0; destruct initcall_debug; [by apply quiet_log|done]).
  destruct (body fn _) as [ret [p i]]. set (s1 := set_cpu p i (add_log (Called fn) s0)).
  set (s2 := if initcall_debug then add_log (Returned fn ret) s1 else s1).
  assert (Hs2 : quiet s1 s2) by (subst s2; destruct initcall_debug; [by apply quiet_log|done]).
  destruct (check_balance_restores fn (preempt_count s) s2) as ((C1 & C2 & C3) & C4 & C5). cbn [snd].
  destruct Hs0 as (A1 & A2 & A3), Hs2 as (B1 & B2 & B3). unfold ran. rewrite C1, C2, C3, C4, C5, B1, B2, B3.
  cbn [s1 set_cpu add_log log cmdline_buf]. rewrite calls_of_cons, params_of_cons, A1, A2, A3, app_nil_r. auto 10.
Qed.

Lemma allowed_app a b : allowed (a ++ b) = allowed a ++ allowed b.
Proof. apply List.filter_app. Qed.

Lemma run_calls_ran fns s : ran (allowed fns) s (run_calls fns s).
Proof.
  revert s. induction fns as [|fn fns IH]; intros s; cbn [run_calls]; [apply ran_nil|].
  change (fn :: fns) with ([fn] ++ fns). rewrite allowed_app. eapply ran_app; [apply one_initcall_ran|apply IH].
Qed.

(** ** The whole section *)

(** The boundaries are in order and end with the section. *)
Definition levels_ok : Prop :=
  (forall i x y, initcall_levels !! i = Some x -> initcall_levels !! S i = Some y -> (x <= y)%nat) /\
  last initcall_levels = Some (length initcalls).

Lemma section_parts a b c : (a <= b <= c)%nat -> section_part a b ++ section_part b c = section_part a c.
Proof.
  intros H. unfold section_part. rewrite <- (take_drop (b - a) (take (c - a) (drop a initcalls))).
  rewrite take_take, skipn_firstn_comm, drop_drop. f_equal; [f_equal; lia|]. f_equal; [lia|]. f_equal. lia.
Qed.

Lemma level_mono i : levels_ok -> (S i < length initcall_levels)%nat -> (level_start i <= level_start (S i))%nat.
Proof.
  intros [Hs _] Hi. unfold level_start.
  destruct (lookup_lt_is_Some_2 initcall_levels i) as [x Hx]; [lia|].
  destruct (lookup_lt_is_Some_2 initcall_levels (S i)) as [y Hy]; [lia|]. rewrite Hx, Hy. by apply (Hs i).
Qed.

Lemma level_mono_add i m : levels_ok -> (i + m < length initcall_levels)%nat -> (level_start i <= level_start (i + m))%nat.
Proof.
  intros H. induction m as [|m IH]; intros Hi; [by rewrite Nat.add_0_r|]. rewrite Nat.add_succ_r in *.
  etransitivity; [apply IH; lia|]. by apply level_mono.
Qed.

Lemma copy_line buf saved : is_str saved -> length buf = (length saved + 1)%nat ->
  strcpy_at buf 0 saved = Some (saved ++ [0]).
Proof.
  intros Hs Hl. unfold strcpy_at. rewrite cstr_str by done. rewrite write_at_some by (rewrite length_app; cbn; lia).
  rewrite drop_ge by (rewrite length_app; cbn; lia). by rewrite take_0, app_nil_r.
Qed.

(** Levels [k] to [k + m - 1]: their calls in order, their parameters from the whole line. *)
Definition levels_ran (saved : list Z) (k m : nat) (s s' : kstate) : Prop :=
  calls_of (log s') = calls_of (log s) ++ allowed (section_part (level_start k) (level_start (k + m))) /\
  params_of (log s') = params_of (log s) ++ map (fun l => (l, saved)) (seq k m) /\
  preempt_count s' = preempt_count s /\ (irqs_disabled s = false -> irqs_disabled s' = false) /\
  (allowed (section_part (level_start k) (level_start (k + m))) <> [] -> irqs_disabled s' = false).

Lemma level_ran saved k buf s : is_str saved -> cstr buf = saved ->
  levels_ran saved k 1 s (do_initcall_level k buf s) /\
  cmdline_buf (do_initcall_level k buf s) = Some (scribble k buf).
Proof.
  intros Hs Hb. unfold do_initcall_level, levels_ran. rewrite Nat.add_1_r, Hb.
  destruct (run_calls_ran (section_part (level_start k) (level_start (S k)))
              (set_buf (Some (scribble k buf)) (add_log (Params k saved) s))) as (A1 & A2 & A3 & A4 & A5 & A6).
  rewrite A1, A2, A3, A6. cbn [set_buf add_log log preempt_count irqs_disabled cmdline_buf] in *.
  rewrite calls_of_cons, params_of_cons, app_nil_r. cbn [called param_of seq map]. auto 10.
Qed.

Lemma levels_ran_app saved k m s s1 s2 : levels_ok -> (k + S m < length initcall_levels)%nat ->
  levels_ran saved k 1 s s1 -> levels_ran saved (S k) m s1 s2 -> levels_ran saved k (S m) s s2.
Proof.
  intros Hok Hk (A1 & A2 & A3 & A4 & A5) (B1 & B2 & B3 & B4 & B5). unfold levels_ran in *.
  rewrite Nat.add_1_r in *. replace (S k + m)%nat with (k + S m)%nat in * by lia.
  assert (Hparts : section_part (level_start k) (level_start (k + S m)) =
    section_part (level_start k) (level_start (S k)) ++ section_part (level_start (S k)) (level_start (k + S m))).
  { rewrite section_parts; [done|]. split; [apply level_mono; [done|lia]|].
    replace (k + S m)%nat with (S k + m)%nat by lia. apply level_mono_add; [done|lia]. }
  rewrite Hparts, allowed_app, B1, A1, B2, A2, B3, A3, <- !app_assoc. repeat split; auto.
  intros H. destruct (allowed (section_part (level_start (S k)) (level_start (k + S m)))) eqn:He; [|by apply B5].
  rewrite app_nil_r in H. auto.
Qed.

Lemma levels_ran_none saved k s : levels_ran saved k 0 s s.
Proof.
  unfold levels_ran. rewrite Nat.add_0_r. unfold section_part. rewrite Nat.sub_diag, take_0. cbn.
  rewrite !app_nil_r. repeat split; auto. by intros [].
Qed.

Lemma levels_loop_ran saved m k s buf : levels_ok -> is_str saved -> (k + m < length initcall_levels)%nat ->
  cmdline_buf s = Some buf -> length buf = (length saved + 1)%nat ->
  exists s', levels_loop (seq k m) saved s = Ok s' /\ levels_ran saved k m s s'.
Proof.
  intros Hok Hs. revert k s buf. induction m as [|m IH]; intros k s buf Hk Hb Hl; cbn [seq levels_loop].
  - exists s. split; [done|apply levels_ran_none].
  - rewrite Hb, copy_line by done. cbn [or_overrun rbind].
    destruct (level_ran saved k (saved ++ [0]) s Hs) as [Hr Hb']; [by apply cstr_end|].
    destruct (IH (S k) (do_initcall_level k (saved ++ [0]) s) (scribble k (saved ++ [0]))) as (s' & -> & Hs');
      [lia|done|by rewrite scribble_length, length_app|].
    exists s'. split; [done|]. by eapply levels_ran_app.
Qed.

Lemma ctors_quiet s : quiet s (do_ctors s) /\ preempt_count (do_ctors s) = preempt_count s /\
  irqs_disabled (do_ctors s) = irqs_disabled s.
Proof.
  unfold do_ctors. generalize ctors as cs. intros cs. revert s. induction cs as [|c cs IH]; intros s; cbn [run_ctors]; [done|].
  destruct (IH (add_log (Constructed c) s)) as ((A1 & A2 & A3) & A4 & A5).
  destruct (quiet_log (Constructed c) s) as (B1 & B2 & B3); [done|done|].
  split; [|done]. split; [by rewrite A1|]. by rewrite A2, A3.
Qed.

Lemma level_end : levels_ok -> level_start (length initcall_levels - 1) = length initcalls.
Proof.
  intros [_ Hl]. unfold level_start. rewrite last_lookup in Hl. rewrite <- Nat.sub_1_r in Hl. by rewrite Hl.
Qed.

(** The init calls run in order, each once: the early calls and then those of every level
    run in the order of the section, each exactly once but for the blacklisted ones;
    before each level its parameters are parsed from the whole saved command line,
    whatever the parser did to the copy before; and whatever the calls do, the
    preemption count is as before and interrupts are on again. *)
Theorem initcalls_in_order saved s :
  levels_ok -> is_str saved -> (forall n, kzalloc n = true) ->
  exists s', do_basic_setup saved (do_pre_smp_initcalls s) = Ok s' /\
    calls_of (log s') = calls_of (log s) ++ allowed initcalls /\
    params_of (log s') = params_of (log s) ++ map (fun l => (l, saved)) (seq 0 (length initcall_levels - 1)) /\
    preempt_count s' = preempt_count s /\ (allowed initcalls <> [] -> irqs_disabled s' = false) /\ cmdline_buf s' = None.
Proof.
  intros Hok Hs Hk. unfold do_basic_setup, do_initcalls. rewrite Hk. cbn [negb]. rewrite strlen_str by done.
  destruct (run_calls_ran (section_part 0 (level_start 0)) s) as (A1 & A2 & A3 & A4 & A5 & _).
  fold (do_pre_smp_initcalls s) in *. set (s1 := do_pre_smp_initcalls s) in *.
  destruct (ctors_quiet s1) as ((B1 & B2 & _) & B3 & B4). set (s2 := do_ctors s1) in *.
  assert (Hn : (0 < length initcall_levels)%nat).
  { destruct Hok as [_ Hl]. destruct initcall_levels; [done|]. cbn. lia. }
  destruct (levels_loop_ran saved (length initcall_levels - 1) 0 (set_buf (Some (replicate (length saved + 1) 0)) s2)
              (replicate (length saved + 1) 0) Hok Hs) as (s3 & -> & (C1 & C2 & C3 & C4 & C5));
    [lia|done|by rewrite length_replicate|]. cbn [rbind].
  cbn [set_buf log preempt_count irqs_disabled Nat.add] in *. rewrite level_end in C1, C5 by done.
  assert (Hall : initcalls = section_part 0 (level_start 0) ++ section_part (level_start 0) (length initcalls)).
  { rewrite section_parts; [unfold section_part; by rewrite drop_0, Nat.sub_0_r, firstn_all|].
    rewrite <- level_end by done. split; [lia|]. apply (level_mono_add 0 (length initcall_levels - 1)); [done|lia]. }
  eexists. split; [done|]. cbn [set_buf log preempt_count irqs_disabled cmdline_buf].
  rewrite C1, C2, C3, B1, B2, B3, A1, A2, A3. apply (f_equal allowed) in Hall. rewrite allowed_app in Hall.
  rewrite Hall, <- app_assoc. repeat split; auto. intros H.
  destruct (allowed (section_part (level_start 0) (length initcalls))) eqn:He; [|by apply C5].
  apply C4. rewrite B4. apply A5. by rewrite app_nil_r in H.
Qed.

(** The message buffer of 64 bytes holds both warnings. *)
Lemma warning_fits : (length (lit "preemption imbalance " ++ lit "disabled interrupts ") < 64)%nat.
Proof. cbn. lia. Qed.
End order.

(** ** A small section *)

(** Two early calls and four in two levels; call 3 forgets to enable preemption, call 4
    leaves interrupts off, call 5 is blacklisted. *)
Definition demo_initcalls : InitcallEnv.
Proof.
  refine {| blacklist := [lit "five"]; symbol_name := fun n => if Nat.eqb n 5 then lit "five [mod]" else lit "other";
            initcall_debug := true;
            body := fun n '(p, i) => (0, (if Nat.eqb n 3 then p + 1 else p, if Nat.eqb n 4 then true else i));
            initcalls := [1; 2; 3; 4; 5; 6]%nat; initcall_levels := [2; 4; 6]%nat; ctors := [0%nat];
            scribble := fun _ l => map (fun _ => 0) l; kzalloc := fun _ => true |}.
  intros _ l. apply length_map.
Defined.

Definition demo_kstate : kstate := {| preempt_count := 0; irqs_disabled := false; log := []; cmdline_buf := None |}.

Lemma initcalls_in_order_witness :
  exists s', do_basic_setup (E := demo_initcalls) (lit "quiet") (do_pre_smp_initcalls (E := demo_initcalls) demo_kstate) = Ok s' /\
    calls_of (log s') = [1; 2; 3; 4; 6]%nat /\ params_of (log s') = [(0%nat, lit "quiet"); (1%nat, lit "quiet")] /\
    preempt_count s' = 0 /\ (allowed (E := demo_initcalls) [1; 2; 3; 4; 5; 6]%nat <> [] -> irqs_disabled s' = false) /\
    cmdline_buf s' = None.
Proof.
  apply (initcalls_in_order (E := demo_initcalls) (lit "quiet") demo_kstate).
  - split; [|done]. intros [|[|[|i]]] x y Hx Hy; cbn in Hx, Hy; try done; injection Hx as <-; injection Hy as <-; lia.
  - by repeat constructor.
  - done.
Defined.
