(* ===== verification/BootSeq.v ===== *)
(** * The order of the boot (init/main.c: start_kernel, rest_init, kernel_init)

    start_kernel as the sequence of what it does with interrupts off and then on, and
    rest_init and kernel_init as two straight-line programs over shared state,
    interleaved step by step.  A call of another subsystem is an instruction that
    may only change what a parameter says: the interrupt flag in start_kernel, the
    kernel threads made later.  The state keeps what the code and its comments are
    about: interrupts and the early-boot flag; system_state, the process numbers of
    init and kthreadd, the completion kthreadd_done, and whether the memory of init
    code and data has been freed.  A fault is an access the order is meant to
    prevent: init code or init data after it is freed, a kernel thread made before
    kthreadd is known, a task that was not found.  The last instruction of kernel_init
    tries the programs that may become init and ends in the first that starts, or in one
    of its two panics, which stop both threads. *)
From Stdlib Require Import String.
From S2P Require Import Prelude.
Local Open Scope string_scope.

Class BootSeqEnv := {
  irq_effect : string -> bool -> bool;        (** interrupts disabled after a call *)
  initcall_debug_on : bool; late_time_init_set : bool; efi_runtime : bool;
  panic_pending : bool;                       (** panic_later, after the parameters *)
  initrd_overwritten : bool;                  (** the ramdisk lies below the usable memory *)
  rodata_enabled : bool;
  early_userspace : bool;                     (** init_eaccess of the ramdisk program is 0 *)
  kthreads_made : string -> nat;
  ramdisk_execute_command : option string;    (** /init of the ramdisk, or rdinit= *)
  execute_command : option string;            (** init= *)
  CONFIG_DEFAULT_INIT : string;
  exec_error : string -> Z                    (** what run_init_process answers *)
}.

(** ** start_kernel *)

Inductive early_instr :=
  | Call (f : string)
  | CallIf (c : bool) (f : string)
  | Print (what : string)
  | LocalIrqDisable | LocalIrqEnable
  | SetEarlyIrqs (b : bool)
  | FixIrqs                                   (** warn and disable if interrupts are on *)
  | WarnIrqs
  | PanicIfPending
  | CheckInitrd.

Record cpu := { irqs_off : bool; early_boot_irqs_disabled : bool; warnings : nat; panicked : bool; initrd_start_set : bool }.

Definition set_irqs (b : bool) (c : cpu) : cpu :=
  {| irqs_off := b; early_boot_irqs_disabled := early_boot_irqs_disabled c; warnings := warnings c; panicked := panicked c;
     initrd_start_set := initrd_start_set c |}.
Definition warn (c : cpu) : cpu :=
  {| irqs_off := irqs_off c; early_boot_irqs_disabled := early_boot_irqs_disabled c; warnings := S (warnings c);
     panicked := panicked c; initrd_start_set := initrd_start_set c |}.

Section early.
Context {E : BootSeqEnv}.

Definition early_step (i : early_instr) (c : cpu) : cpu :=
  match i with
  | Call f => set_irqs (irq_effect f (irqs_off c)) c
  | CallIf b f => if b then set_irqs (irq_effect f (irqs_off c)) c else c
  | Print _ => c
  | LocalIrqDisable => set_irqs true c
  | LocalIrqEnable => set_irqs false c
  | SetEarlyIrqs b =>
      {| irqs_off := irqs_off c; early_boot_irqs_disabled := b; warnings := warnings c; panicked := panicked c;
         initrd_start_set := initrd_start_set c |}
  | FixIrqs => if negb (irqs_off c) then set_irqs true (warn c) else c
  | WarnIrqs => if negb (irqs_off c) then warn c else c
  | PanicIfPending =>
      {| irqs_off := irqs_off c; early_boot_irqs_disabled := early_boot_irqs_disabled c; warnings := warnings c;
         panicked := panicked c || panic_pending; initrd_start_set := initrd_start_set c |}
  | CheckInitrd =>
      {| irqs_off := irqs_off c; early_boot_irqs_disabled := early_boot_irqs_disabled c; warnings := warnings c;
         panicked := panicked c; initrd_start_set := initrd_start_set c && negb initrd_overwritten |}
  end.

(** A panic ends the boot. *)
Fixpoint early_run (l : list early_instr) (c : cpu) : cpu :=
  match l with [] => c | i :: l' => if panicked c then c else early_run l' (early_step i c) end.

(** With interrupts off: memory, parameters, scheduler, timers. *)
Definition start_kernel_irqs_off : list early_instr :=
  [Call "boot_cpu_init"; Call "page_address_init"; Print "linux_banner"; Call "early_security_init"; Call "setup_arch";
   Call "setup_boot_config"; Call "setup_command_line"; Call "setup_nr_cpu_ids"; Call "setup_per_cpu_areas";
   Call "smp_prepare_boot_cpu"; Call "boot_cpu_hotplug_init"; Print "saved_command_line"; Call "jump_label_init";
   Call "parse_early_param"; Call "parse_args"; Call "print_unknown_bootoptions"; Call "parse_args"; Call "parse_args";
   Call "random_init_early"; Call "setup_log_buf"; Call "vfs_caches_init_early"; Call "sort_main_extable";
   Call "trap_init"; Call "mm_core_init"; Call "poking_init"; Call "ftrace_init"; Print "author";
   Print "banner 1"; Print "banner 2"; Print "banner 3"; Print "banner 4"; Print "banner 5"; Print "banner 6";
   Call "early_trace_init"; Call "sched_init"; FixIrqs; Call "radix_tree_init"; Call "maple_tree_init"; Call "housekeeping_init";
   Call "workqueue_init_early"; Call "rcu_init"; Call "trace_init";
   CallIf initcall_debug_on "initcall_debug_enable"; Call "context_tracking_init"; Call "early_irq_init";
   Call "init_IRQ"; Call "tick_init"; Call "rcu_init_nohz"; Call "init_timers"; Call "srcu_init";
   Call "hrtimers_init"; Call "softirq_init"; Call "timekeeping_init"; Call "time_init"; Call "random_init";
   Call "kfence_init"; Call "boot_init_stack_canary"; Call "perf_event_init"; Call "profile_init";
   Call "call_function_init"; WarnIrqs].

(** With interrupts on: console, and everything that may sleep or wait. *)
Definition start_kernel_irqs_on : list early_instr :=
  [Call "kmem_cache_init_late"; Call "console_init"; PanicIfPending; Call "lockdep_init"; Call "locking_selftest"; CheckInitrd;
   Call "setup_per_cpu_pageset"; Call "numa_policy_init"; Call "acpi_early_init";
   CallIf late_time_init_set "late_time_init"; Call "sched_clock_init"; Call "calibrate_delay";
   Call "arch_cpu_finalize_init"; Call "pid_idr_init"; Call "anon_vma_init";
   CallIf efi_runtime "efi_enter_virtual_mode"; Call "thread_stack_cache_init"; Call "cred_init"; Call "fork_init";
   Call "proc_caches_init"; Call "uts_ns_init"; Call "key_init"; Call "security_init"; Call "dbg_late_init";
   Call "net_ns_init"; Call "vfs_caches_init"; Call "pagecache_init"; Call "signals_init"; Call "seq_file_init";
   Call "proc_root_init"; Call "nsfs_init"; Call "cpuset_init"; Call "cgroup_init"; Call "taskstats_init_early";
   Call "delayacct_init"; Call "acpi_subsystem_init"; Call "arch_post_acpi_subsys_init"; Call "kcsan_init";
   Call "arch_call_rest_init"].

Definition start_kernel : list early_instr :=
  [Call "set_task_stack_end_magic"; Call "smp_setup_processor_id"; Call "debug_objects_early_init";
   Call "init_vmlinux_build_id"; Call "cgroup_init_early"] ++
  [LocalIrqDisable; SetEarlyIrqs true] ++
  start_kernel_irqs_off ++
  [SetEarlyIrqs false; LocalIrqEnable] ++
  start_kernel_irqs_on.
End early.

(** ** Interrupts during start_kernel *)

(** A check of a program that tracks whether interrupts are surely off, and the flag:
    the flag is only set and the warnings only reached with interrupts surely off, and
    interrupts are only enabled with the flag clear. *)
Fixpoint placed (off early : bool) (l : list early_instr) : bool :=
  match l with
  | [] => true
  | i :: l' =>
      match i with
      | Call _ | CallIf _ _ | Print _ | PanicIfPending | CheckInitrd => placed off early l'
      | LocalIrqDisable => placed true early l'
      | LocalIrqEnable => negb early && placed false early l'
      | SetEarlyIrqs b => implb b off && placed off b l'
      | FixIrqs | WarnIrqs => off && placed off early l'
      end
  end.

Section irqs.
Context {E : BootSeqEnv}.

Definition irqs_consistent (w : nat) (c : cpu) : Prop :=
  (early_boot_irqs_disabled c = true -> irqs_off c = true) /\ warnings c = w.

Lemma known_consistent c off early : implb early off = true -> (off = true -> irqs_off c = true) ->
  early_boot_irqs_disabled c = early -> irqs_consistent (warnings c) c.
Proof. intros He Ho Hc. split; [|done]. rewrite Hc. intros ->. destruct off; [auto|done]. Qed.

Lemma placed_run l off early n c : placed off early l = true -> (forall f, irq_effect f true = true) ->
  implb early off = true -> (off = true -> irqs_off c = true) -> early_boot_irqs_disabled c = early ->
  irqs_consistent (warnings c) (early_run (take n l) c).
Proof.
  intros Hp Hirq. revert off early n c Hp. induction l as [|i l IH]; intros off early n c Hp He Ho Hc.
  { rewrite take_nil. by apply (known_consistent c off early). }
  destruct n as [|n]; cbn [take early_run].
  { by apply (known_consistent c off early). }
  destruct (panicked c).
  { by apply (known_consistent c off early). }
  assert (Hcall : forall f, off = true -> irqs_off (set_irqs (irq_effect f (irqs_off c)) c) = true)
    by (intros f ->; cbn; by rewrite Ho).
  destruct i as [f|b f|w| | |b| | | |]; cbn [placed] in Hp; cbn [early_step].
  - by apply (IH off early n (set_irqs _ c)); auto.
  - destruct b; [by apply (IH off early n (set_irqs _ c)); auto|by apply (IH off early)].
  - by apply (IH off early).
  - by apply (IH true early n (set_irqs true c)); [|destruct early| |].
  - apply andb_true_iff in Hp as [Hn Hp]. apply negb_true_iff in Hn. by apply (IH false early n (set_irqs false c)); [|rewrite Hn| |].
  - apply andb_true_iff in Hp as [Hb Hp]. by apply (IH off b n {| irqs_off := irqs_off c; early_boot_irqs_disabled := b;
      warnings := warnings c; panicked := panicked c; initrd_start_set := initrd_start_set c |}).
  - apply andb_true_iff in Hp as [-> Hp]. rewrite Ho by done. by apply (IH true early).
  - apply andb_true_iff in Hp as [-> Hp]. rewrite Ho by done. by apply (IH true early).
  - by apply (IH off early n {| irqs_off := irqs_off c; early_boot_irqs_disabled := early_boot_irqs_disabled c;
      warnings := warnings c; panicked := panicked c || panic_pending; initrd_start_set := initrd_start_set c |}).
  - by apply (IH off early n {| irqs_off := irqs_off c; early_boot_irqs_disabled := early_boot_irqs_disabled c;
      warnings := warnings c; panicked := panicked c; initrd_start_set := initrd_start_set c && negb initrd_overwritten |}).
Qed.

(** Interrupts and the early-boot flag agree: as long as no called function turns
    interrupts on while they are off, at every point of start_kernel the flag
    early_boot_irqs_disabled is set only while interrupts are off, and none of its
    warnings about early interrupts is printed. *)
Theorem early_irqs_consistent n c :
  (forall f, irq_effect f true = true) -> early_boot_irqs_disabled c = false ->
  irqs_consistent (warnings c) (early_run (take n start_kernel) c).
Proof. intros Hirq Hc. by apply (placed_run start_kernel false false). Qed.

Definition is_panic (i : early_instr) : bool := match i with PanicIfPending => true | _ => false end.

Lemma step_panicked i c : panicked (early_step i c) = panicked c || (is_panic i && panic_pending).
Proof. destruct i as [f|[] f|w| | |x| | | |]; cbn; rewrite ?orb_false_r; try done; by destruct (irqs_off c). Qed.

Lemma run_panicked l c : panicked (early_run l c) = panicked c || (existsb is_panic l && panic_pending).
Proof.
  revert c. induction l as [|i l IH]; intros c; cbn [early_run existsb]; [by rewrite orb_false_r|].
  destruct (panicked c) eqn:Hc; [done|]. rewrite IH, step_panicked, Hc. by destruct (is_panic i), (existsb is_panic l), panic_pending.
Qed.

(** Too many parameters end the boot, and only they do. *)
Lemma early_panic c : panicked c = false -> panicked (early_run start_kernel c) = panic_pending.
Proof. intros Hc. by rewrite run_panicked, Hc. Qed.
End irqs.

(** ** rest_init and kernel_init *)

Inductive system_states := SYSTEM_BOOTING | SYSTEM_SCHEDULING | SYSTEM_FREEING_INITMEM | SYSTEM_RUNNING.

Definition state_rank (s : system_states) : nat :=
  match s with SYSTEM_BOOTING => 0 | SYSTEM_SCHEDULING => 1 | SYSTEM_FREEING_INITMEM => 2 | SYSTEM_RUNNING => 3 end.

Inductive instr :=
  | UserModeThread                            (** creates the init thread *)
  | PinInit
  | KernelThread                              (** creates kthreadd *)
  | SetKthreadd
  | SetState (s : system_states)
  | Complete                                  (** of kthreadd_done, which is init data *)
  | WaitForCompletion
  | InitCode (f : string)                     (** code in the init section *)
  | Plain (f : string)                        (** code outside it *)
  | SetCadPid
  | FreeInitmem
  | MarkReadonly
  | ExecInit.

(** How kernel_init ends: a program was started, or a panic. *)
Inductive init_outcome := Started (f : string) | RequestedInitFailed (f : string) | NoWorkingInit.

Record shared := {
  system_state : system_states; next_pid : nat;
  init_pid : option nat; init_pinned : bool; kthreadd_pid : option nat; kthreadd_task : option nat; cad_pid : option nat;
  kthreadd_done : bool; initmem_freed : bool; readonly : bool; exec_done : bool; faulted : bool;
  outcome : option init_outcome
}.

Section threads.
Context {E : BootSeqEnv}.

Definition rest_init : list instr :=
  [Plain "rcu_scheduler_starting"; UserModeThread; PinInit; Plain "numa_default_policy"; KernelThread; SetKthreadd;
   SetState SYSTEM_SCHEDULING; Complete; Plain "schedule_preempt_disabled"; Plain "cpu_startup_entry"].

Definition kernel_init_freeable : list instr :=
  [InitCode "set_mems_allowed"; SetCadPid; InitCode "smp_prepare_cpus"; InitCode "workqueue_init"; InitCode "init_mm_internals";
   InitCode "rcu_init_tasks_generic"; InitCode "do_pre_smp_initcalls"; InitCode "lockup_detector_init"; InitCode "smp_init";
   InitCode "sched_init_smp"; InitCode "workqueue_init_topology"; InitCode "padata_init"; InitCode "page_alloc_init_late";
   InitCode "do_basic_setup"; InitCode "kunit_run_all_tests"; InitCode "wait_for_initramfs"; InitCode "console_on_rootfs"] ++
  (if early_userspace then [] else [InitCode "prepare_namespace"]) ++ [InitCode "integrity_load_keys"].

Definition kernel_init : list instr :=
  [WaitForCompletion] ++ kernel_init_freeable ++
  [Plain "async_synchronize_full"; SetState SYSTEM_FREEING_INITMEM; Plain "kprobe_free_init_mem";
   Plain "ftrace_free_init_mem"; Plain "kgdb_free_init_mem"; InitCode "exit_boot_config"; FreeInitmem; MarkReadonly;
   Plain "pti_finalize"; SetState SYSTEM_RUNNING; Plain "numa_default_policy"; Plain "rcu_end_inkernel_boot";
   Plain "do_sysctl_args"; ExecInit].
End threads.

(** *** Effects *)

Definition set_system (x : system_states) (s : shared) : shared :=
  {| system_state := x; next_pid := next_pid s; init_pid := init_pid s; init_pinned := init_pinned s;
     kthreadd_pid := kthreadd_pid s; kthreadd_task := kthreadd_task s; cad_pid := cad_pid s; kthreadd_done := kthreadd_done s;
     initmem_freed := initmem_freed s; readonly := readonly s; exec_done := exec_done s; faulted := faulted s; outcome := outcome s |}.
Definition set_pids (np : nat) (ip kp kt cp : option nat) (s : shared) : shared :=
  {| system_state := system_state s; next_pid := np; init_pid := ip; init_pinned := init_pinned s;
     kthreadd_pid := kp; kthreadd_task := kt; cad_pid := cp; kthreadd_done := kthreadd_done s;
     initmem_freed := initmem_freed s; readonly := readonly s; exec_done := exec_done s; faulted := faulted s; outcome := outcome s |}.
Definition set_flags (pin dn fr ro ex fa : bool) (s : shared) : shared :=
  {| system_state := system_state s; next_pid := next_pid s; init_pid := init_pid s; init_pinned := pin;
     kthreadd_pid := kthreadd_pid s; kthreadd_task := kthreadd_task s; cad_pid := cad_pid s; kthreadd_done := dn;
     initmem_freed := fr; readonly := ro; exec_done := ex; faulted := fa; outcome := outcome s |}.
Definition set_fault (b : bool) (s : shared) : shared :=
  set_flags (init_pinned s) (kthreadd_done s) (initmem_freed s) (readonly s) (exec_done s) (faulted s || b) s.

Definition set_outcome (o : init_outcome) (s : shared) : shared :=
  {| system_state := system_state s; next_pid := next_pid s; init_pid := init_pid s; init_pinned := init_pinned s;
     kthreadd_pid := kthreadd_pid s; kthreadd_task := kthreadd_task s; cad_pid := cad_pid s; kthreadd_done := kthreadd_done s;
     initmem_freed := initmem_freed s; readonly := readonly s; exec_done := exec_done s; faulted := faulted s; outcome := Some o |}.

Definition is_none (o : option nat) : bool := match o with None => true | Some _ => false end.

Section machine.
Context {E : BootSeqEnv}.

(** mark_readonly: a kernel booted with rodata=off is left writable. *)
Definition mark_readonly (s : shared) : shared :=
  if rodata_enabled
  then set_flags (init_pinned s) (kthreadd_done s) (initmem_freed s) true (exec_done s) (faulted s) s
  else s.

(** The usual programs are tried until one starts. *)
Fixpoint try_each (l : list string) : init_outcome :=
  match l with
  | [] => NoWorkingInit
  | f :: l' => if negb (c_true (exec_error f)) then Started f else try_each l'
  end.

Definition usual_inits : list string := ["/sbin/init"; "/etc/init"; "/bin/init"; "/bin/sh"].

(** The end of kernel_init: the program of the ramdisk, the requested one (and then no
    other), the configured default, the usual ones. *)
Definition kernel_init_exec : init_outcome :=
  let default :=
    if negb (CONFIG_DEFAULT_INIT =? "")%string then
      let ret := exec_error CONFIG_DEFAULT_INIT in
      if c_true ret then try_each usual_inits else Started CONFIG_DEFAULT_INIT
    else try_each usual_inits in
  let requested :=
    match execute_command with
    | Some f => let ret := exec_error f in if negb (c_true ret) then Started f else RequestedInitFailed f
    | None => default
    end in
  match ramdisk_execute_command with
  | Some f => let ret := exec_error f in if negb (c_true ret) then Started f else requested
  | None => requested
  end.

Definition started (o : init_outcome) : bool := match o with Started _ => true | _ => false end.

Definition effect (i : instr) (s : shared) : shared :=
  match i with
  | UserModeThread => set_pids (S (next_pid s)) (Some (next_pid s)) (kthreadd_pid s) (kthreadd_task s) (cad_pid s) s
  | PinInit =>
      set_flags true (kthreadd_done s) (initmem_freed s) (readonly s) (exec_done s) (faulted s || is_none (init_pid s)) s
  | KernelThread => set_pids (S (next_pid s)) (init_pid s) (Some (next_pid s)) (kthreadd_task s) (cad_pid s) s
  | SetKthreadd => set_pids (next_pid s) (init_pid s) (kthreadd_pid s) (kthreadd_pid s) (cad_pid s) s
  | SetState x => set_system x s
  | Complete =>
      set_flags (init_pinned s) true (initmem_freed s) (readonly s) (exec_done s) (faulted s || initmem_freed s) s
  | WaitForCompletion => set_fault (initmem_freed s) s
  | InitCode f =>
      set_fault (initmem_freed s || ((0 <? kthreads_made f)%nat && is_none (kthreadd_task s)))
        (set_pids (next_pid s + kthreads_made f) (init_pid s) (kthreadd_pid s) (kthreadd_task s) (cad_pid s) s)
  | Plain _ => s
  | SetCadPid => set_pids (next_pid s) (init_pid s) (kthreadd_pid s) (kthreadd_task s) (init_pid s) s
  | FreeInitmem => set_flags (init_pinned s) (kthreadd_done s) true (readonly s) (exec_done s) (faulted s) s
  | MarkReadonly => mark_readonly s
  | ExecInit =>
      set_outcome kernel_init_exec
        (set_flags (init_pinned s) (kthreadd_done s) (initmem_freed s) (readonly s) (started kernel_init_exec) (faulted s) s)
  end.

(** A panic stops the machine. *)
Definition halted (s : shared) : bool := match outcome s with Some o => negb (started o) | None => false end.

(** Only the wait blocks. *)
Definition enabled (i : instr) (s : shared) : bool :=
  negb (halted s) && match i with WaitForCompletion => kthreadd_done s | _ => true end.

Record conf := { sh : shared; boot_code : list instr; init_code : option (list instr) }.

Definition spawned (i : instr) (c : option (list instr)) : option (list instr) :=
  match i with UserModeThread => Some kernel_init | _ => c end.

Inductive step : conf -> conf -> Prop :=
| step_boot i code ic s :
    enabled i s = true ->
    step {| sh := s; boot_code := i :: code; init_code := ic |}
         {| sh := effect i s; boot_code := code; init_code := spawned i ic |}
| step_init i code bc s :
    enabled i s = true ->
    step {| sh := s; boot_code := bc; init_code := Some (i :: code) |}
         {| sh := effect i s; boot_code := bc; init_code := Some code |}.

Definition shared_start : shared :=
  {| system_state := SYSTEM_BOOTING; next_pid := 1; init_pid := None; init_pinned := false; kthreadd_pid := None;
     kthreadd_task := None; cad_pid := None; kthreadd_done := false; initmem_freed := false; readonly := false;
     exec_done := false; faulted := false; outcome := None |}.

Definition boot_conf : conf := {| sh := shared_start; boot_code := rest_init; init_code := None |}.

Definition reachable (c : conf) : Prop := rtc step boot_conf c.

(** ** The reachable states *)

Fixpoint effects (l : list instr) (s : shared) : shared :=
  match l with [] => s | i :: l' => effects l' (effect i s) end.

(** After [i] steps of the boot thread and [j] of the init thread, which starts only
    after the eighth step of the other. *)
Definition state_at (i j : nat) : shared := effects (take j kernel_init) (effects (take i rest_init) shared_start).

Definition at_position (c : conf) (i j : nat) : Prop :=
  boot_code c = drop i rest_init /\ (i <= 10)%nat /\ (j <= length kernel_init)%nat /\ (j = O \/ (8 <= i)%nat) /\
  init_code c = (if (i <? 2)%nat then None else Some (drop j kernel_init)) /\ sh c = state_at i j.

Lemma effects_app l l' s : effects (l ++ l') s = effects l' (effects l s).
Proof. revert s. induction l as [|i l IH]; intros s; cbn; [done|apply IH]. Qed.

Lemma effects_take_S l n i s : l !! n = Some i -> effects (take (S n) l) s = effect i (effects (take n l) s).
Proof. intros H. rewrite (take_S_r _ _ _ H), effects_app. done. Qed.

Lemma drop_head {A} (l : list A) n x l' : drop n l = x :: l' -> l !! n = Some x /\ l' = drop (S n) l /\ (n < length l)%nat.
Proof.
  intros H. assert (Hx : l !! n = Some x) by (rewrite <- (Nat.add_0_r n), <- lookup_drop; by rewrite H).
  split; [done|]. split; [|by apply lookup_lt_Some in Hx]. rewrite (drop_S _ _ _ Hx) in H. by injection H as <-.
Qed.

(** The last two steps of the boot thread change nothing. *)
Lemma boot_tail i x : (8 <= i)%nat -> rest_init !! i = Some x -> forall s, effect x s = s /\ spawned x = fun c => c.
Proof. intros Hi Hx s. do 8 (destruct i as [|i]; [lia|]). destruct i as [|[|i]]; cbn in Hx; [injection Hx as <-; done..|done]. Qed.

(** Before that the completion is not done. *)
Lemma not_done i : (i < 8)%nat -> kthreadd_done (state_at i 0) = false.
Proof. intros Hi. do 8 (destruct i as [|i]; [done|]). lia. Qed.

Lemma positions_step c c' i j : at_position c i j -> step c c' ->
  exists i' j', at_position c' i' j' /\ (i' + j' = S (i + j))%nat.
Proof.
  intros (Hb & Hi & Hj & Hij & Hc & Hs) Hst. destruct Hst as [x code ic s Hen|x code bc s Hen]; cbn [sh boot_code init_code] in *.
  - symmetry in Hb. apply drop_head in Hb as (Hx & -> & Hlt). exists (S i), j. split; [|lia].
    split; [done|]. change (length rest_init) with 10%nat in Hlt. split; [lia|]. split; [done|]. split; [lia|].
    destruct Hij as [-> |H8].
    + split; cbn [sh init_code]; [|rewrite Hs; unfold state_at; rewrite (effects_take_S _ _ _ _ Hx); done].
      subst ic. do 10 (destruct i as [|i]; [cbn in Hx; by injection Hx as <-|]). lia.
    + destruct (boot_tail i x H8 Hx s) as [Heff Hsp]. cbn [sh init_code]. rewrite Hsp, Heff, Hc, Hs.
      destruct (Nat.ltb_spec i 2), (Nat.ltb_spec (S i) 2); try lia. split; [done|].
      unfold state_at. rewrite (effects_take_S _ _ _ _ Hx). by rewrite (proj1 (boot_tail i x H8 Hx _)).
  - destruct (Nat.ltb_spec i 2); [done|]. injection Hc as Hc. symmetry in Hc. apply drop_head in Hc as (Hx & -> & Hlt).
    exists i, (S j). split; [|lia]. split; [done|]. split; [done|]. split; [lia|]. split; cbn [sh init_code].
    + right. destruct Hij as [-> |H8]; [|done]. cbn in Hx. injection Hx as <-. apply andb_true_iff in Hen as [_ Hen]. rewrite Hs in Hen.
      destruct (Nat.lt_ge_cases i 8) as [H8|H8]; [by rewrite not_done in Hen|done].
    + destruct (Nat.ltb_spec i 2); [lia|]. split; [done|]. unfold state_at. by rewrite (effects_take_S _ _ _ _ Hx), Hs.
Qed.

Lemma reachable_position c : reachable c -> exists i j, at_position c i j.
Proof.
  intros H. unfold reachable in H. apply rtc_nsteps in H as [n H]. revert c H. induction n as [|n IH]; intros c H.
  - inversion H; subst. exists O, O. repeat split; cbn; lia || auto.
  - apply nsteps_inv_r in H as (c1 & H1 & Hst). destruct (IH c1 H1) as (i & j & Hat).
    destruct (positions_step c1 c i j Hat Hst) as (i' & j' & Ht & _). by exists i', j'.
Qed.

(** ** What holds along the programs *)

Fixpoint all_states (P : shared -> Prop) (l : list instr) (s : shared) : Prop :=
  P s /\ match l with [] => True | i :: l' => all_states P l' (effect i s) end.

Lemma all_states_at P l s j : all_states P l s -> P (effects (take j l) s).
Proof.
  revert s j. induction l as [|i l IH]; intros s j [H1 H2]; [by rewrite take_nil|].
  destruct j as [|j]; [done|]. cbn [take effects]. by apply IH.
Qed.

(** Nothing was touched too early or too late, and the numbers are the documented ones. *)
Definition ordered (s : shared) : Prop :=
  faulted s = false /\ (init_pid s = None \/ init_pid s = Some 1%nat) /\ (kthreadd_task s = None \/ kthreadd_task s = Some 2%nat) /\
  (cad_pid s = None \/ cad_pid s = Some 1%nat).

(** What the init thread may rely on. *)
Definition init_may_run (s : shared) : Prop :=
  ordered s /\ init_pid s = Some 1%nat /\ init_pinned s = true /\ kthreadd_task s = Some 2%nat /\
  (1 <= state_rank (system_state s))%nat /\
  (exec_done s = true -> system_state s = SYSTEM_RUNNING /\ initmem_freed s = true /\ readonly s = rodata_enabled).

Lemma boot_states_ordered : all_states (fun s => ordered s /\ exec_done s = false) rest_init shared_start.
Proof. cbn. unfold ordered. cbn. auto 40. Qed.

Lemma ordered_at i : ordered (state_at i 0) /\ exec_done (state_at i 0) = false.
Proof. apply (all_states_at _ _ _ i boot_states_ordered). Qed.

Lemma state_after_8 i j : (8 <= i)%nat -> state_at i j = state_at 8 j.
Proof.
  intros Hi. unfold state_at. f_equal. do 8 (destruct i as [|i]; [lia|]). destruct i as [|[|i]]; [done..|].
  unfold rest_init. cbn [take]. by rewrite take_nil.
Qed.

(** While only init code has run, nothing but process numbers changes. *)
Definition initialising (s : shared) : Prop :=
  faulted s = false /\ init_pid s = Some 1%nat /\ init_pinned s = true /\ kthreadd_task s = Some 2%nat /\
  (cad_pid s = None \/ cad_pid s = Some 1%nat) /\ system_state s = SYSTEM_SCHEDULING /\ initmem_freed s = false /\
  exec_done s = false /\ readonly s = false.

Definition is_init_code (i : instr) : bool :=
  match i with WaitForCompletion | InitCode _ | SetCadPid => true | _ => false end.

Lemma initialising_effect i s : is_init_code i = true -> initialising s -> initialising (effect i s).
Proof.
  intros Hi (H1 & H2 & H3 & H4 & H5 & H6 & H7 & H8 & H9). unfold initialising.
  destruct i; try discriminate Hi; cbn; rewrite ?H1, ?H2, ?H3, ?H4, ?H6, ?H7, ?H8, ?H9, ?andb_false_r; auto 10.
Qed.

Lemma initialising_may_run s : initialising s -> init_may_run s.
Proof.
  intros (H1 & H2 & H3 & H4 & H5 & H6 & H7 & H8 & H9). unfold init_may_run, ordered.
  rewrite H1, H2, H3, H4, H6, H8. cbn. repeat split; auto; discriminate.
Qed.

Lemma all_states_init l l' s : forallb is_init_code l = true -> initialising s ->
  (forall s', initialising s' -> all_states init_may_run l' s') -> all_states init_may_run (l ++ l') s.
Proof.
  intros Hl Hs Hl'. revert s Hs. induction l as [|i l IH]; intros s Hs; [by apply Hl'|].
  cbn in Hl. apply andb_true_iff in Hl as [Hi Hl]. cbn [app all_states].
  split; [by apply initialising_may_run|]. by apply IH; [|apply initialising_effect].
Qed.

Lemma init_states : all_states init_may_run kernel_init (state_at 8 0).
Proof.
  unfold kernel_init. rewrite app_assoc. apply all_states_init.
  - unfold kernel_init_freeable. by destruct early_userspace.
  - unfold initialising. cbn. auto 10.
  - intros s (H1 & H2 & H3 & H4 & H5 & H6 & H7 & H8 & H9). cbn [all_states].
    unfold init_may_run, ordered. cbn. unfold mark_readonly. destruct rodata_enabled; cbn; rewrite ?H1, ?H2, ?H3, ?H4, ?H6, ?H7, ?H8, ?H9; cbn;
    repeat split; auto; try lia; discriminate.
Qed.

Lemma may_run_at i j : (8 <= i)%nat -> init_may_run (state_at i j).
Proof. intros Hi. rewrite state_after_8 by done. apply (all_states_at _ _ _ j init_states). Qed.

(** Boot states keep their rank, and init states only raise it. *)
Lemma rank_step i j x : rest_init !! i = Some x -> (j = O \/ (8 <= i)%nat) ->
  (state_rank (system_state (state_at i j)) <= state_rank (system_state (effect x (state_at i j))))%nat.
Proof.
  intros Hx [-> |H8].
  - do 10 (destruct i as [|i]; [cbn in Hx; injection Hx as <-; cbn; lia|]). done.
  - rewrite (proj1 (boot_tail i x H8 Hx _)). done.
Qed.

Fixpoint ranks_rise (l : list instr) (n : nat) : Prop :=
  match l with
  | [] => True
  | SetState x :: l' => (n <= state_rank x)%nat /\ ranks_rise l' (state_rank x)
  | _ :: l' => ranks_rise l' n
  end.

Lemma effect_rank i s : system_state (effect i s) = match i with SetState x => x | _ => system_state s end.
Proof. destruct i; try done. cbn. unfold mark_readonly. by case_if. Qed.

Lemma ranks_rise_at l s j x : ranks_rise l (state_rank (system_state s)) -> l !! j = Some x ->
  (state_rank (system_state (effects (take j l) s)) <= state_rank (system_state (effect x (effects (take j l) s))))%nat.
Proof.
  revert s j. induction l as [|i l IH]; intros s j Hr Hx; [done|]. destruct j as [|j].
  - cbn in Hx |- *. injection Hx as ->. rewrite effect_rank. destruct x; cbn in *; lia || tauto.
  - cbn [take effects]. apply IH; [|done]. rewrite effect_rank. destruct i; cbn in Hr; tauto.
Qed.

Lemma kernel_init_rises : ranks_rise kernel_init 1.
Proof. unfold kernel_init, kernel_init_freeable. destruct early_userspace; cbn; lia. Qed.

(** C20: however the boot thread and the init thread are interleaved: no init code or init data
    is touched after it is freed, no kernel thread is made before kthreadd is known
    and no task is looked up that is not there; init gets process number 1 and
    kthreadd number 2; once init runs past its wait it is pinned, kthreadd is known
    and the system is scheduling; the state of the system only advances; and init's
    program is started only in the running state, with init memory freed and the
    kernel text protected as configured. *)
Theorem boot_order_safe c c' : reachable c -> step c c' ->
  ordered (sh c) /\
  (forall l, init_code c = Some l -> l <> kernel_init -> init_may_run (sh c)) /\
  (exec_done (sh c) = true -> system_state (sh c) = SYSTEM_RUNNING /\ initmem_freed (sh c) = true) /\
  (state_rank (system_state (sh c)) <= state_rank (system_state (sh c')))%nat.
Proof.
  intros Hr Hst. destruct (reachable_position c Hr) as (i & j & Hb & Hi & Hj & Hij & Hc & Hs).
  assert (Hrun : (8 <= i)%nat -> init_may_run (sh c)) by (rewrite Hs; apply may_run_at).
  assert (H0 : j = O -> ordered (sh c) /\ exec_done (sh c) = false) by (intros ->; rewrite Hs; apply ordered_at).
  split; [destruct Hij as [H|H]; [by apply H0|by apply Hrun]|]. split; [|split].
  - intros l Hl Hne. destruct Hij as [-> |H]; [|by apply Hrun]. rewrite drop_0 in Hc. rewrite Hc in Hl.
    destruct (i <? 2)%nat; [done|]. by injection Hl as <-.
  - intros He. destruct Hij as [H|H]; [by rewrite (proj2 (H0 H)) in He|].
    destruct (Hrun H) as (_ & _ & _ & _ & _ & Hx). destruct (Hx He) as (? & ? & _). done.
  - destruct Hst as [x code ic s Hen|x code bc s Hen]; cbn [sh boot_code init_code] in *.
    + symmetry in Hb. apply drop_head in Hb as (Hx & _ & _). rewrite Hs. by apply rank_step.
    + destruct (Nat.ltb_spec i 2); [done|]. injection Hc as Hc. symmetry in Hc. apply drop_head in Hc as (Hx & _ & _).
      rewrite Hs. destruct (Nat.lt_ge_cases i 8) as [H8|H8].
      * destruct Hij as [-> |]; [|lia]. cbn in Hx. injection Hx as <-. rewrite effect_rank. done.
      * rewrite state_after_8 by done. apply ranks_rise_at; [|done]. apply kernel_init_rises.
Qed.

Definition left_over (c : conf) : nat :=
  (length (boot_code c) + match init_code c with Some l => length l | None => S (length kernel_init) end)%nat.

(** *** The end of kernel_init *)

(** The programs that may become init, in the order in which they are tried. *)
Definition candidates : list string :=
  option_list ramdisk_execute_command ++
  match execute_command with
  | Some f => [f]
  | None => (if (CONFIG_DEFAULT_INIT =? "")%string then [] else [CONFIG_DEFAULT_INIT]) ++ usual_inits
  end.

Definition can_start (f : string) : bool := (exec_error f =? 0)%Z.

(** The outcome is the first candidate that can start, or the panic of the case. *)
Definition outcome_ok (o : init_outcome) : Prop :=
  match o with
  | Started f => List.find can_start candidates = Some f
  | RequestedInitFailed f => List.find can_start candidates = None /\ execute_command = Some f
  | NoWorkingInit => List.find can_start candidates = None /\ execute_command = None
  end.

Lemma exec_can f : c_true (exec_error f) = negb (can_start f).
Proof. done. Qed.

Lemma try_each_find l : try_each l = match List.find can_start l with Some f => Started f | None => NoWorkingInit end.
Proof.
  induction l as [|f l IH]; [done|]. cbn [try_each List.find]. rewrite exec_can, negb_involutive. by destruct (can_start f).
Qed.

(** Trying one program more. *)
Lemma find_start f l : List.find can_start (f :: l) = if can_start f then Some f else List.find can_start l.
Proof. done. Qed.

Lemma kernel_init_exec_ok : outcome_ok kernel_init_exec.
Proof.
  assert (Hdef : forall o, o = (if negb (CONFIG_DEFAULT_INIT =? "")%string
      then if c_true (exec_error CONFIG_DEFAULT_INIT) then try_each usual_inits else Started CONFIG_DEFAULT_INIT else try_each usual_inits) ->
    match List.find can_start ((if (CONFIG_DEFAULT_INIT =? "")%string then [] else [CONFIG_DEFAULT_INIT]) ++ usual_inits)%list with
    | Some f => o = Started f | None => o = NoWorkingInit end).
  { intros o ->. rewrite exec_can, try_each_find. destruct (CONFIG_DEFAULT_INIT =? "")%string; cbn [negb]; [by destruct (List.find _ _)|].
    change ([CONFIG_DEFAULT_INIT] ++ usual_inits)%list with (CONFIG_DEFAULT_INIT :: usual_inits). rewrite find_start.
    destruct (can_start CONFIG_DEFAULT_INIT); cbn [negb]; [done|]. by destruct (List.find _ usual_inits). }
  unfold kernel_init_exec. cbv zeta. set (o := if negb (CONFIG_DEFAULT_INIT =? "")%string then _ else _). specialize (Hdef o eq_refl). clearbody o.
  set (req := match execute_command with Some f => _ | None => o end).
  assert (Hreq : forall l, (forall f, List.find can_start (l ++ f)%list = List.find can_start f) -> candidates = (option_list ramdisk_execute_command ++
    match execute_command with
    | Some f => [f]
    | None => (if (CONFIG_DEFAULT_INIT =? "")%string then [] else [CONFIG_DEFAULT_INIT]) ++ usual_inits
    end)%list -> option_list ramdisk_execute_command = l -> outcome_ok req).
  { intros l Hl Hc He. unfold outcome_ok. rewrite Hc, He, Hl. subst req. destruct execute_command as [f|].
    - rewrite find_start, exec_can, negb_involutive. by destruct (can_start f).
    - by destruct (List.find can_start _) as [f|]; subst o. }
  destruct ramdisk_execute_command as [f|] eqn:Hr.
  - rewrite exec_can, negb_involutive. destruct (can_start f) eqn:Hf.
    + unfold outcome_ok, candidates. rewrite Hr. change (option_list (Some f) ++ ?l)%list with (f :: l). by rewrite find_start, Hf.
    + apply (Hreq [f]); [intros l; cbn [app]; by rewrite find_start, Hf|unfold candidates; by rewrite Hr|done].
  - by apply (Hreq []); [|unfold candidates; rewrite Hr|].
Qed.

Definition before_exec : list instr := take (length kernel_init - 1) kernel_init.

Lemma outcome_effects l s : forallb (fun i => match i with ExecInit => false | _ => true end) l = true -> outcome (effects l s) = outcome s.
Proof.
  revert s. induction l as [|i l IH]; intros s H; [done|]. cbn [forallb] in H. apply andb_true_iff in H as [Hi Hl]. cbn [effects]. rewrite IH by done.
  destruct i; try done. cbn. unfold mark_readonly. by case_if.
Qed.

Lemma forallb_take {A} (f : A -> bool) n l : forallb f l = true -> forallb f (take n l) = true.
Proof. revert n. induction l as [|x l IH]; intros [|n]; cbn; try done. intros [-> H]%andb_true_iff. by apply IH. Qed.

(** Until its last instruction kernel_init has no outcome. *)
Lemma no_outcome i j : (j < length kernel_init)%nat -> outcome (state_at i j) = None.
Proof.
  intros Hj. unfold state_at. rewrite !outcome_effects; [done|apply forallb_take; done|].
  replace (take j kernel_init) with (take j before_exec) by (unfold before_exec; rewrite take_take; f_equal; lia).
  apply forallb_take. unfold before_exec, kernel_init, kernel_init_freeable. by destruct early_userspace.
Qed.

(** What it leaves. *)
Lemma final_state i : (8 <= i)%nat -> let s := state_at i (length kernel_init) in
  system_state s = SYSTEM_RUNNING /\ initmem_freed s = true /\ exec_done s = started kernel_init_exec /\ outcome s = Some kernel_init_exec.
Proof.
  intros Hi. cbv zeta. rewrite state_after_8 by done. unfold state_at. rewrite firstn_all. fold (state_at 8 0). unfold kernel_init. rewrite !effects_app.
  generalize (effects kernel_init_freeable (effects [WaitForCompletion] (effects (take 8 rest_init) shared_start))) as s1.
  intros s1. cbn. unfold mark_readonly. by case_if.
Qed.

End machine.

(** ** A concrete boot *)

Definition demo_boot_seq : BootSeqEnv :=
  {| irq_effect := fun _ b => b; initcall_debug_on := false; late_time_init_set := true; efi_runtime := false;
     panic_pending := false; initrd_overwritten := false; rodata_enabled := true; early_userspace := false;
     kthreads_made := fun f => if (f =? "do_basic_setup")%string then 7%nat else 1%nat;
     ramdisk_execute_command := Some "/init"; execute_command := None; CONFIG_DEFAULT_INIT := "";
     exec_error := fun f => if (f =? "/bin/sh")%string then 0%Z else (-2)%Z |}.

Lemma early_irqs_consistent_witness :
  irqs_consistent 0 (early_run (E := demo_boot_seq) (take 40 (start_kernel (E := demo_boot_seq)))
    {| irqs_off := false; early_boot_irqs_disabled := false; warnings := 0; panicked := false; initrd_start_set := true |}).
Proof. apply (early_irqs_consistent (E := demo_boot_seq)); done. Defined.

Definition demo_second : conf :=
  {| sh := shared_start; boot_code := drop 1 rest_init; init_code := None |}.

Lemma boot_order_safe_witness :
  ordered (sh boot_conf) /\
  (forall l, init_code boot_conf = Some l -> l <> kernel_init (E := demo_boot_seq) -> init_may_run (E := demo_boot_seq) (sh boot_conf)) /\
  (exec_done (sh boot_conf) = true -> system_state (sh boot_conf) = SYSTEM_RUNNING /\ initmem_freed (sh boot_conf) = true) /\
  (state_rank (system_state (sh boot_conf)) <= state_rank (system_state (sh demo_second)))%nat.
Proof.
  apply (boot_order_safe (E := demo_boot_seq) boot_conf demo_second); [apply rtc_refl|].
  by apply (step_boot (E := demo_boot_seq) (Plain "rcu_scheduler_starting")).
Defined.

(** A boot on which only the shell is there, run to its end. *)
Definition demo_end : conf :=
  {| sh := state_at (E := demo_boot_seq) 10 (length (kernel_init (E := demo_boot_seq))); boot_code := []; init_code := Some [] |}.

Lemma demo_end_reachable : reachable (E := demo_boot_seq) demo_end.
Proof.
  unfold reachable. do 10 (eapply rtc_l; [apply (step_boot (E := demo_boot_seq)); reflexivity|cbn [spawned]]).
  unfold kernel_init, kernel_init_freeable. cbn [app early_userspace demo_boot_seq].
  repeat (eapply rtc_l; [apply (step_init (E := demo_boot_seq)); reflexivity|]). apply rtc_refl.
Qed.


(** ** The first console *)

(** The descriptor table of init and the reference counts of files: fs/file.c and
    fs/init.c.  [init_dup] installs a file at the lowest unused descriptor with a
    reference of its own, or changes nothing and answers an error. *)
Class ConsoleEnv := {
  files : Type;
  descriptor : files -> nat -> option nat;
  references : files -> nat -> Z;
  filp_open : files -> (Z + nat) * files;             (** of /dev/console *)
  init_dup : nat -> files -> Z * files;
  fput : nat -> files -> files;
  init_dup_installs : forall f fs fs' n, init_dup f fs = (0, fs') ->
    (forall m, (m < n)%nat -> descriptor fs m <> None) -> descriptor fs n = None ->
    descriptor fs' n = Some f /\ (forall m, m <> n -> descriptor fs' m = descriptor fs m) /\
    references fs' f = references fs f + 1;
  fput_drops : forall f fs, 1 < references fs f ->
    references (fput f fs) f = references fs f - 1 /\ forall n, descriptor (fput f fs) n = descriptor fs n
}.

(** [None]: the warning that there is no console. *)
Definition console_on_rootfs `{ConsoleEnv} (fs : files) : option nat * files :=
  let '(file, fs) := filp_open fs in
  match file with
  | inl _ => (None, fs)
  | inr f =>
      let fs := (init_dup f fs).2 in
      let fs := (init_dup f fs).2 in
      let fs := (init_dup f fs).2 in
      (Some f, fput f fs)
  end.

(** In an empty table the console becomes standard input, output and error of init,
    and the file lives exactly as long as these three descriptors. *)
Lemma console_installed `{ConsoleEnv} fs f fs0 :
  filp_open fs = (inr f, fs0) -> (forall n, descriptor fs0 n = None) -> references fs0 f = 1 ->
  (forall fs', (init_dup f fs').1 = 0) ->
  let '(r, fs') := console_on_rootfs fs in
  r = Some f /\ references fs' f = 3 /\
  forall n, descriptor fs' n = if (n <? 3)%nat then Some f else None.
Proof.
  intros Ho He Hr Hd. unfold console_on_rootfs. rewrite Ho.
  assert (Hdup : forall fs1, init_dup f fs1 = (0, (init_dup f fs1).2))
    by (intros fs1; rewrite <- (Hd fs1); apply surjective_pairing).
  set (fs1 := (init_dup f fs0).2). set (fs2 := (init_dup f fs1).2). set (fs3 := (init_dup f fs2).2).
  destruct (init_dup_installs f fs0 fs1 0 (Hdup fs0)) as (A1 & B1 & C1); [lia|apply He|].
  destruct (init_dup_installs f fs1 fs2 1 (Hdup fs1)) as (A2 & B2 & C2).
  { intros m Hm. replace m with O by lia. by rewrite A1. } { rewrite B1 by lia. apply He. }
  destruct (init_dup_installs f fs2 fs3 2 (Hdup fs2)) as (A3 & B3 & C3).
  { intros [|[|m]] Hm; [rewrite B2, A1 by lia; done|by rewrite A2|lia]. }
  { rewrite B2, B1 by lia. apply He. }
  destruct (fput_drops f fs3) as [D1 D2]; [lia|].
  split; [done|]. split; [lia|]. intros n. rewrite D2.
  destruct n as [|[|[|n]]]; cbn.
  - by rewrite B3, B2 by lia.
  - by rewrite B3 by lia.
  - done.
  - rewrite B3, B2, B1 by lia. apply He.
Qed.
